(* ===== verification/_CoqProject ===== *)
-Q . S2P
Prelude.v
GoStrings.v
GoText.v
Sha256.v
Entry.v
Paths.v
SyncPolicy.v
Mergers.v
Merge3.v
DocMerge.v
Json.v
JsonLaws.v
GoFloat.v
Json3.v
Json3Laws.v
Credential.v
Journal.v
Examples.v
HubState.v
HubCommit.v
HubInvariants.v
HubProcess.v
HubAnswers.v
HubDispatch.v
HubDelivery.v
HubApi.v
HubStatus.v
HubDurable.v
HubExamples.v
HubFindings.v
GoTime.v
Cron.v
ShellQuote.v
JsonPath.v
Automation.v
FleetState.v
Limiter.v
LimiterLedger.v
LimiterPlan.v
LimiterOps.v
LimiterDue.v
LimiterSystem.v
LimiterClaims.v
TriggerLog.v
Scheduler.v
SchedulerSlots.v
SchedulerRun.v
Webhook.v
SchedulerRestart.v
Daemon.v
SchedulerClaims.v
AgentRun.v
SafeFs.v
SafeFsLaws.v
SideTree.v
SideApply.v
SideApplyLaws.v
SideApplyLands.v
SideDurable.v
SideAcks.v
SideScan.v
SideScanLaws.v
SideScanQuiet.v
SideFetch.v
SideDriver.v
SideHub.v
SideExamples.v
Wire.v
RemoteHello.v
Remote.v
RemoteSession.v
RemoteExamples.v
