(* ===== verification/Prelude.v ===== *)
(** * A verification of fleet's shared-state sync and automation

    Fleet runs coding agents in instances (containers and pods) on behalf of a
    daemon. Two parts of the program carry its own logic, and this development
    models both and proves what makes them correct:

    - the _sync_ of the agents' state (settings, histories, logins, files)
      between every copy of a fleet: src/internal/sharesync, with the table of
      what is shared and how in src/internal/mounts/syncpolicy;
    - the _automation_: agents started by cron, webhook and bash triggers within
      the limits of the clusters: the settings in src/internal/fleet, the
      limiter, the scheduler, the webhook receiver and the trigger logs in
      src/internal/server.

    ** The parts of the sync

    - A _side_ is a place that holds a copy: a tree of files (tree.go) that
      other programs change at any time. It scans the tree (scan.go) and reports
      its changes to the hub, applies the ops the hub sends (apply.go), serves
      the content of its files (Fetch), and keeps a record of what it holds of
      each path. Its driver (side.go) decides when it scans, and sends the reports
      and takes the answers. It reaches its files through a guarded file system
      (src/internal/safefs) that follows no links and stays below its root.
    - The _hub_ (hub.go, hub_root.go, hub_dispatch.go) sequences the changes of
      each root. A reported change is prepared under the root's lock (cap,
      one-way roots, the shape of the tree), decided outside it by the policy
      of its path (fetching content, keeping a conflict copy, storing blobs),
      and committed under the lock again, or prepared anew when the state moved.
      A dispatcher per side collects what the side lacks in batches, and
      finishes each batch with the side's answer.
    - A _spoke_ (remote_spoke.go) is a side in another process, a pod's. It and
      the hub's end of its connection (remote_hub.go) exchange the same messages
      as calls and answers on a wire (remote.go).
    - A _policy_ (policy.go) decides one change against the current state:
      mirror.go takes the newer, appendunion.go unites the lines of logs,
      docmerge.go, merge3.go and json3.go merge settings documents three ways,
      credential.go keeps the newest whole login of a location.
    - The _journal_ (journal.go) keeps the hub's state: a snapshot and a log of
      batches, compacted when the log is long.

    ** The parts of the automation

    - _Settings_ (automation.go, cron.go): agents, and triggers that name them,
      normalized by the server and edited by the clients.
    - The _limiter_ (automation_limits.go) plans firings: each agent's run
      starts now, waits in its trigger's queue or is refused, within the slots
      of its agent, the creates of its connection and the quotas. The webhook
      receiver and the scheduler share it.
    - The _scheduler_ (schedule.go, automation_watch.go) samples cron triggers,
      carries planned firings out, drains the queues, launches and reaps the
      instances it started, and keeps its list across restarts.
    - The _webhook receiver_ (webhook.go) matches deliveries, plans them before
      it replies, and hands them to the scheduler or gives the plans back.
    - _Trigger logs_ (trigger_logs.go) keep each firing's payload and outcomes.

    ** Which file models what

    - Prelude: results, machine integers ([wrap64], [u64]), tactics, sums over
      maps.
    - GoStrings, Sha256: what the code uses of Go's strings, unicode/utf8, path,
      io/fs and crypto/sha256 packages, written out and executable.
    - Entry: entry.go, messages.go and the sorts of scan.go. An [Entry] is the
      code's struct; [check], [validPath], [ancestors] and [order_cmp] are its
      functions. [sortOps_applicable]: a sorted batch can be applied in order.
    - SyncPolicy: syncpolicy's table, path.Match included.
      [match_elems_spec], [Table_Root_deepest], [defaults_logins_exact].
    - Mergers: the Merger interface as a record with its laws as a class, the
      mirror and append-union policies. Versions carry what reading them gives,
      so that fetch errors are values.
    - Merge3: merge3.go. Documents are trees whose identity is the code's hash
      ([value_id]); statements about merged values are about these identities,
      as the code's are. The recursion takes fuel, [merge3_total] shows that
      the depth of the current copy is enough for every input.
    - DocMerge: docmerge.go, over a class for the docFormat interface.
      [mergeDocument_three_way] is its theorem for any format.
    - Json, JsonLaws, GoFloat: what the code uses of encoding/json (the grammar,
      json.Valid, Unmarshal and Marshal of strings, Indent) and of strconv's
      floats (the nearest double, the shortest digits), executable, with
      [json_read_print]: what is printed reads back.
    - Json3: json3.go, an instance of DocMerge's class. The parser reads with
      an option for the panics and endless loops it has on bytes that are not
      JSON; [parseJSON_reads] shows that on JSON it has none. Json3Laws: what
      the json3 policy writes reads back.
    - Credential: credential.go, with encoding/json's decoding into the struct
      clearedLogin uses (field names match without case, later members win).
    - Journal: journal.go over a model of two files. Each system call takes its
      outcome from the disk's list of faults, a failing write having written
      any number of bytes. The JSON of lines and heads is a class,
      [journal_codec], whose laws are that heads and lines whose texts are
      UTF-8 (key and value: encoding/json replaces other bytes) decode to what
      they encode, hold no newline and are not empty; [countable_codec] is an
      instance for any countable type. [commit_durable], [commit_torn_safe], [compact_crash_safe].
    - HubState: hub_root.go's and hub_dispatch.go's records and the operations
      on them (count, overCap, setEntry, compact, mark, later).
    - HubCommit: prepare, checkShape, resurrect and commitPlan of hub_root.go.
    - HubInvariants: the invariant [Inv] of a root (each live entry in a live
      folder, valid paths and entries, the tallies those of the entries) and
      that committing keeps it.
    - HubProcess: decide, keepConflict and process of hub_root.go, openContent
      and hostRoom of hub.go, the stores of stores.go. The environment of each
      attempt ([hubEnv]) holds the clock, the answers of the sides and the
      failures of the host; what other goroutines do to the root while its lock
      is free is an arbitrary function between the steps.
    - HubAnswers: what an answer says of the root; revs; the cap.
    - HubDispatch: opFor, collect, finish of hub_dispatch.go, and the invariant
      [Accounted]: whatever a side lacks is marked for it, on its way, or
      refused by it.
    - HubDelivery: committing keeps [Accounted], and a round of sending brings a
      side up to date.
    - HubApi: hub.go: opening a root, Attach, Detach, Report, Kick, Close, and
      Flush and FlushSide: the rescans with their failures, what the side is
      owed, and the loop, the hub changing between any two of its looks.
    - HubStatus: status.go, with sizeString and capReason of hub.go.
    - HubDurable: the hub's state across restarts.
    - Examples, HubExamples: runs on concrete inputs.
    - HubFindings: runs that end against the comments of the code.
    - GoText: lemmas on the string functions of GoStrings. GoTime: the UTC
      calendar and its texts; stamps sort as the instants ([stamp_order]).
    - Cron: internal/fleet/cron.go. [cron_fires_as_written] prints expressions
      and reads them back; [ParseCron_ends] that the stepping loop, whose int64
      can wrap, stops within its fuel.
    - ShellQuote: internal/shellquote and SubstituteAgentCommand, against a
      reader of shell words ([sh_words]).
    - JsonPath, Automation: automation_match.go, automation.go and
      automation_mutate.go, with what SetFleetSettings (mutations.go) checks of
      agents and triggers. regexp.Compile and the JSON decoder are parameters.
    - FleetState: the records of fleets, instances and connections the
      automation reads, and quotaRoom.
    - TriggerLog: trigger_logs.go over a directory whose writes tear.
    - Limiter: automation_limits.go. Runs live in a heap ([l_heap]) and queues
      and plans hold their indexes, as the code's maps and slices share
      pointers. LimiterLedger states what the limiter promises as a ledger of
      waiting, starting and watched runs, with steps labelled by the [call] (a
      planning of these runs, a drain, a settlement) that makes them and checked
      against the limits and records that call was given; LimiterPlan,
      LimiterOps, LimiterDue show that each operation is a run of ledger steps,
      LimiterSystem that any history of calls is, and LimiterClaims draws the
      conclusions.
    - Scheduler: schedule.go and automation_watch.go in a state monad over an
      environment ([env]) that answers the questions to the outside (state
      file, creates, the probe of each instance, logs). The JSON of watch.json is
      a class ([watch_codec]) whose law asks for UTF-8 texts and times JSON can
      say; payloads are read back from the logs of TriggerLog. SchedulerSlots and SchedulerRun
      keep the coupling of watched instances and slots ([coupled]) through every
      operation with a small Hoare logic ([triple]); SchedulerClaims says which
      triggers fire and which instances are launched or destroyed;
      SchedulerRestart that the watch list survives a restart.
    - Webhook: webhook.go.
    - Daemon: runScheduler, handFires, closeFires and the receiver as a step
      relation ([dstep]) from the restore of the watch list on, deliveries
      falling between the turns of the loop.
    - AgentRun: the names of a run's instance and tmux session, the groups of
      sessions and the launch script (schedule.go, internal/tui/groups.go).
    - Paths: how ancestors, parents and the paths below a folder relate.
    - SafeFs: internal/safefs over a folder ([folder]: a node per path) whose
      system calls fail when [fo_fails] says so; a walk ([WalkDirLive]) sees the
      folder as it is at each of its looks. SafeFsLaws: the folder stays a
      tree, an operation changes what it names and no more.
    - SideTree: tree.go: the records of a root and their journal, Hello,
      Welcome, Acked, what is synced. SideApply: apply.go, every stretch in which
      the root's lock is free being an arbitrary change of the folder and of the
      records ([others]), and the window between a write and the look that
      records it one of the folder. SideScan: scan.go likewise, the folder
      changing under its walk too. SideFetch: Fetch and the
      reader it returns.
    - SideApplyLaws, SideApplyLands: what an op may change and what it leaves;
      SideScanLaws, SideScanQuiet: what a scan reports; SideAcks: which records
      an answer settles; SideDurable: the records across restarts; SideExamples:
      the inputs on which their hypotheses hold.
    - SideDriver: side.go over classes for the tree and the reporter, and the
      loop of Run as a step relation ([own], [step]) in which marks, the sends on
      the kick channel, timers and scans fall in any order. SideHub: the modelled
      tree and hub as instances of these classes.
    - Wire: remote.go's messages and their framing in bytes. RemoteHello: the
      hello in chunks and the hub's checks of it. Remote: what each end makes of
      requests and answers; a hub behind a connection is a reporter again
      ([remote_reporter]). RemoteSession: both ends as a step relation over the
      two channels ([sstep]), with roles that say what an end sends, takes and
      answers. RemoteExamples: a codec and runs.

    ** What the theorems show

    For the hub: every change of a report gets its answer and the root stays a
    tree ([report_answers_every_change]); an answer is what the root then holds
    ([commitPlan_answers]) at a fresh rev ([commitPlan_revs]), within the cap
    ([commitPlan_cap]); nothing a side lacks is forgotten by committing,
    collecting, finishing or attaching ([commitPlan_accounts],
    [collect_accounts], [finish_accounts], [attach_root_accounts]); a round of
    sending or a flush that returns delivers ([round_delivers],
    [flush_leaves_nothing]); what the status shows is so ([status_tells]); a loser is kept ([conflict_copy_kept]); the state
    survives crashes ([setEntry_survives_crash], [reopen_restores_root]).
    For a side: applying a batch replaces or deletes nothing the hub was not told
    of ([apply_replaces_only_seen]), and what it answers as applied is on disk
    ([apply_lands]), or its record is left dirty where another wrote the file before it was
    recorded; a scan reports what is there as it ends, though the folder changes
    under it ([scan_reports_true]); on a tree nobody touches it reports exactly the
    unsettled and misses nothing ([scan_in_step]), what an op brought
    is not reported back ([applied_not_reported]); the driver loses no mark and no
    wake-up ([marked_is_scanned]), and when a scan and its reports went through the
    hub has answered for everything the folder holds ([scan_tells_hub], for any hub
    that answers each change, of which the modelled one is an instance, and so is one
    over a connection, [remote_lawful]); a record is taken as the hub's only on
    the hub's answer for that very state ([acked_only_answered]); the records survive
    crashes ([tree_reopens]); fetched content is what the hash says
    ([fetch_serves]); and no operation leaves the root or touches what is
    reserved ([safefs_confined]).
    For a spoke: its hello reaches the hub whole or not at all
    ([hello_crosses_wire]), bounded whatever it sends ([spoke_cannot_overrun]); calls
    and answers never cross, none is served twice, none waits in vain, and batches keep
    their order ([remote_calls_answered]); content crosses whole
    ([content_crosses_wire]).
    For the policies: convergence whatever the order of arrival
    ([merge3_arrival_order]), what each merge keeps ([merge3_objects_keywise],
    [unionLines_multiset]), that the merged JSON file is the merge
    ([json3_merges_read_back]), and that no stale copy takes a location's login
    away or brings one back after a logout ([credential_never_lost]).
    For the automation: the limiter refines its ledger under any history of
    calls, each under the limits it was given ([limiter_refines_ledger]); from the
    restore on slots are the watched and planned runs' ([daemon_slots_are_watched]); a delivery is all or nothing
    ([delivery_all_or_nothing]); a restart restores the list, the payloads from the logs
    that are left ([watch_list_survives_restart], [event_log_read_back]);
    instances are launched once, and destroyed or kept by the answer of their own
    probe ([watched_runs_served]); cron triggers fire as written
    ([cron_fires_as_written]); edits keep settings acceptable to
    the server, connected clusters being its other condition
    ([edits_stay_accepted]). Further theorems: [cron_fires_once_a_minute],
    [plan_accounts_for_agents], [free_instance_name_found],
    [webhook_fires_as_written], and
    [launch_runs_agent_command]: a prompt cannot inject into the launch line.

    ** Modelling choices and bounds

    Integers are Z with the width written where the code can overflow: sizes
    and totals in int64 ([wrap64]), revs and seqs in uint64 ([u64]). Times are
    nanoseconds in Z. Maps whose order of iteration the code does not fix are
    gmaps; where an outcome could depend on the order the theorem holds for the
    order the model takes and is stated up to it. slices.SortFunc is a stable
    insertion sort. A record of the journal is an entry or the root's meta data
    by its type; the JSON of one never decodes to the other. The texts of
    errors, reasons and outcome lines are constructors. Created instances are
    given names not seen before ([names_new]), and run ids stay below 2^64
    ([room]). Fuel is used in [free_name] (the names tried), [step_from] (the
    values of a field), [ancestors] (the length of the path), [merge] (the depth of the current
    copy) and [chunks] (the number of ops), with lemmas that it is enough
    ([unique_free], [ParseCron_ends], [ancestors_unfold], [merge3_total],
    [chunks_concat]); in [reach_up] (the elements of a path), in [walkDir] (the
    entries of the folder as the walk starts and any number more), in [free_instance_name] (the instances there are), in
    [read_value] and [p_value] (twice the length of the text, [read_enough] and
    [parseJSON_reads]), in [size_unit] (the units an int64 can reach), in
    [chunk_held] (the paths of a root, [chunk_held_ok]) and in [readMsgs] (the bytes of
    the stream, [stream_reads]). The loop of a side ([own]) and a session ([sstep]) are
    step relations; [potential] bounds the steps of the loop. Call ids stay below 2^64
    ([es_id]).

    Some theorems hold on conditions the code does not enforce, and say so: texts
    are UTF-8 where JSON must read back; arrays of settings merge the same up to
    order and repetition whatever order they arrive in; a credential is a regular
    file of readable size; the clock did not go back since a conflict copy was
    saved; no delivery is planned before the watch list is restored; a/1 and steps
    from 2^62 on are not cron expressions of [cron_fires_as_written]. Where the
    code goes wrong outside them the manifest has a finding.

    ** What is not modelled

    Logging, contexts and the lengths of timers; the goroutine loops that call
    collect and finish; of a side, the watchers (inotify and its like) and changes in the
    window between the last look at a file and the rename over it (which the code names
    too); of safefs, races within one operation other than a walk, owners and hard
    links, and the system calls of each platform; of the remote sessions, their timeouts and the
    hand-over of bulk connections to those that wait for them; the TOML format, which rests on a library outside
    the repository (the merge is proved for any format). Of the automation: the text of
    prompts, the bash probes' processes, and interleavings of the receiver inside a turn
    of the scheduler's loop ([limiter_refines_ledger] holds for those too). The rest of
    the repository (the backends, the other services of the daemon, the command line
    and the terminal UI) is glue over containers, clusters and terminals.
    The parts that would come next are the daemon's sync service (share_sync.go) and the
    watchers. *)

From Stdlib Require Export Ascii.
From stdpp Require Export base tactics list gmap fin_maps strings pretty.
From Stdlib Require Export ZArith Lia.
#[global] Open Scope Z_scope.
#[global] Arguments String.append !_ _ / : simpl nomatch.

(** ** Results: Go's [(value, error)] pairs *)

Inductive result (E A : Type) : Type :=
| Ok (a : A)
| Err (e : E).
Arguments Ok {E A} _.
Arguments Err {E A} _.

Definition rbind {E A B} (r : result E A) (f : A -> result E B) : result E B :=
  match r with
  | Ok a => f a
  | Err e => Err e
  end.

Declare Scope result_scope.
Delimit Scope result_scope with result.
Notation "'let?' x ':=' r 'in' k" := (rbind r (fun x => k))
  (at level 10, x pattern, r at level 100, k at level 200) : result_scope.
#[global] Open Scope result_scope.

Definition is_ok {E A} (r : result E A) : bool :=
  match r with Ok _ => true | Err _ => false end.

Lemma rbind_ok {E A B} (r : result E A) (f : A -> result E B) b :
  rbind r f = Ok b <-> exists a, r = Ok a /\ f a = Ok b.
Proof. destruct r; simpl; split; try done; [by eauto | by intros (? & [= ->] & ?) | by intros (? & ? & ?)]. Qed.

(** ** Machine integers *)

(** Go's [int64] and [uint64] wrap around. *)
Definition wrap64 (z : Z) : Z := (z + 2 ^ 63) mod 2 ^ 64 - 2 ^ 63.
Definition u64 (z : Z) : Z := z mod 2 ^ 64.
Definition max_int64 : Z := 2 ^ 63 - 1.

Lemma wrap64_small z : - 2 ^ 63 <= z < 2 ^ 63 -> wrap64 z = z.
Proof. intros. unfold wrap64. rewrite Z.mod_small; lia. Qed.

Lemma u64_small z : 0 <= z < 2 ^ 64 -> u64 z = z.
Proof. intros. unfold u64. by apply Z.mod_small. Qed.

Lemma u64_range z : 0 <= u64 z < 2 ^ 64.
Proof. unfold u64. apply Z.mod_pos_bound. lia. Qed.

Lemma wrap64_range z : - 2 ^ 63 <= wrap64 z < 2 ^ 63.
Proof.
  unfold wrap64. pose proof (Z.mod_pos_bound (z + 2 ^ 63) (2 ^ 64) ltac:(lia)). lia.
Qed.

(** Adding to a wrapped sum is wrapping the sum: the tallies the code keeps in
    an [int64] are the true sums modulo [2^64]. *)
Lemma wrap64_add_l a b : wrap64 (wrap64 a + b) = wrap64 (a + b).
Proof.
  unfold wrap64. f_equal.
  replace ((a + 2 ^ 63) mod 2 ^ 64 - 2 ^ 63 + b + 2 ^ 63)
    with ((a + 2 ^ 63) mod 2 ^ 64 + b) by lia.
  rewrite Zplus_mod_idemp_l. f_equal. lia.
Qed.

Lemma wrap64_sub_l a b : wrap64 (wrap64 a - b) = wrap64 (a - b).
Proof. rewrite <- !Z.add_opp_r. apply wrap64_add_l. Qed.

(** ** Boolean reflection *)

Lemma bool_decide_iff `{Decision P} : bool_decide P = true <-> P.
Proof. apply bool_decide_eq_true. Qed.

(** Destructs the conditions of nested [if]s and [match]es of a hypothesis or
    the goal, keeping their equations. *)
Ltac break_if_in H :=
  match type of H with
  | context [if ?c then _ else _] => let E := fresh "E" in destruct c eqn:E
  end.
Ltac break_match_in H :=
  match type of H with
  | context [match ?c with _ => _ end] => let E := fresh "E" in destruct c eqn:E
  end.
Ltac break_match_goal :=
  match goal with
  | |- context [match ?c with _ => _ end] => let E := fresh "E" in destruct c eqn:E
  end.

(** Turns boolean tests in the context into propositions. *)
Ltac bool_hyps :=
  repeat match goal with
  | H : (_ && _)%bool = true |- _ => apply andb_true_iff in H as [??]
  | H : (_ || _)%bool = false |- _ => apply orb_false_iff in H as [??]
  | H : negb _ = true |- _ => apply negb_true_iff in H
  | H : negb _ = false |- _ => apply negb_false_iff in H
  | H : bool_decide _ = true |- _ => apply bool_decide_eq_true in H
  | H : bool_decide _ = false |- _ => apply bool_decide_eq_false in H
  | H : (_ <? _) = true |- _ => apply Z.ltb_lt in H
  | H : (_ <? _) = false |- _ => apply Z.ltb_ge in H
  | H : (_ <=? _) = true |- _ => apply Z.leb_le in H
  | H : (_ <=? _) = false |- _ => apply Z.leb_gt in H
  | H : (_ =? _) = true |- _ => apply Z.eqb_eq in H
  | H : (_ =? _) = false |- _ => apply Z.eqb_neq in H
  | H : String.eqb _ _ = true |- _ => apply String.eqb_eq in H
  | H : String.eqb _ _ = false |- _ => apply String.eqb_neq in H
  end.

Create HintDb fleet.

(** ** Sums over finite maps *)

(** [map_sum f m] adds [f k v] over the entries of [m]: the quantity a tally
    kept beside the map should hold. *)
Section map_sum.
Context {K V : Type} `{Countable K}.

Definition map_sum (f : K -> V -> Z) (m : gmap K V) : Z :=
  map_fold (fun k v acc => f k v + acc) 0 m.

Lemma map_sum_empty f : map_sum f ∅ = 0.
Proof. apply map_fold_empty. Qed.

Lemma map_sum_insert_None f (m : gmap K V) k v :
  m !! k = None -> map_sum f (<[k:=v]> m) = f k v + map_sum f m.
Proof.
  intros Hk. unfold map_sum.
  rewrite (map_fold_insert_L (fun k v acc => f k v + acc)); auto. intros; lia.
Qed.

Lemma map_sum_delete f (m : gmap K V) k v :
  m !! k = Some v -> map_sum f m = f k v + map_sum f (delete k m).
Proof.
  intros Hk. rewrite <- (insert_delete_id m k v) at 1 by done.
  apply map_sum_insert_None, lookup_delete_eq.
Qed.

Definition at_key (f : K -> V -> Z) (k : K) (o : option V) : Z :=
  match o with Some v => f k v | None => 0 end.

Lemma map_sum_insert f (m : gmap K V) k v :
  map_sum f (<[k:=v]> m) = map_sum f m - at_key f k (m !! k) + f k v.
Proof.
  destruct (m !! k) as [w|] eqn:Hk; simpl.
  - rewrite <- insert_delete_eq, map_sum_insert_None by apply lookup_delete_eq.
    rewrite (map_sum_delete f m k w) by done. lia.
  - rewrite map_sum_insert_None by done. lia.
Qed.

Lemma map_sum_delete_at f (m : gmap K V) k :
  map_sum f (delete k m) = map_sum f m - at_key f k (m !! k).
Proof.
  destruct (m !! k) as [w|] eqn:Hk; simpl.
  - rewrite (map_sum_delete f m k w) by done. lia.
  - rewrite delete_id by done. lia.
Qed.

Lemma map_sum_nonneg f (m : gmap K V) :
  (forall k v, m !! k = Some v -> 0 <= f k v) -> 0 <= map_sum f m.
Proof.
  induction m as [|k v m Hk IH] using map_ind; intros Hf; [by rewrite map_sum_empty|].
  rewrite map_sum_insert_None by done.
  pose proof (Hf k v (lookup_insert_eq _ _ _)).
  assert (0 <= map_sum f m); [|lia].
  apply IH. intros k' v' Hk'. apply Hf. rewrite lookup_insert_ne; congruence.
Qed.

(** One positive term makes the whole sum positive. *)
Lemma map_sum_zero_inv f (m : gmap K V) k v :
  (forall k v, m !! k = Some v -> 0 <= f k v) ->
  map_sum f m = 0 -> m !! k = Some v -> f k v = 0.
Proof.
  intros Hf Hsum Hk. rewrite (map_sum_delete f m k v) in Hsum by done.
  pose proof (Hf k v Hk).
  assert (0 <= map_sum f (delete k m)); [|lia].
  apply map_sum_nonneg. intros k' v' [??]%lookup_delete_Some. eauto.
Qed.

Lemma map_sum_ext f g (m : gmap K V) :
  (forall k v, m !! k = Some v -> f k v = g k v) -> map_sum f m = map_sum g m.
Proof.
  induction m as [|k v m Hk IH] using map_ind; intros Hf; [done|].
  rewrite !map_sum_insert_None by done.
  rewrite Hf by apply lookup_insert_eq. f_equal. apply IH.
  intros k' v' ?. apply Hf. rewrite lookup_insert_ne; congruence.
Qed.

(** Entries that add nothing can be dropped. *)
Lemma map_sum_filter (P : K * V -> Prop) `{!forall x, Decision (P x)} f (m : gmap K V) :
  (forall k v, m !! k = Some v -> ~ P (k, v) -> f k v = 0) -> map_sum f (filter P m) = map_sum f m.
Proof.
  induction m as [|k v m Hk IH] using map_ind; intros Hf; [by rewrite map_filter_empty|].
  assert (map_sum f (filter P m) = map_sum f m) as E.
  { apply IH. intros k' v' Hk'. apply Hf. rewrite lookup_insert_ne; congruence. }
  rewrite map_sum_insert_None by done. destruct (decide (P (k, v))) as [HP|HP].
  - rewrite map_filter_insert_True by done.
    rewrite map_sum_insert_None by (apply map_lookup_filter_None; auto). lia.
  - rewrite map_filter_insert_False, delete_id by done.
    rewrite (Hf k v); [lia|apply lookup_insert_eq|done].
Qed.
End map_sum.

(** ** Filters that keep all, or nothing *)

Lemma filter_keeps_all {A} (P : A -> Prop) `{!forall x, Decision (P x)} (xs : list A) : (forall x, x ∈ xs -> P x) -> filter P xs = xs.
Proof.
  induction xs as [|x xs IH]; intros HP; [done|]. rewrite filter_cons_True by (apply HP; set_solver). f_equal. apply IH. set_solver.
Qed.

Lemma filter_keeps_none {A} (P : A -> Prop) `{!forall x, Decision (P x)} (xs : list A) : (forall x, x ∈ xs -> ~ P x) -> filter P xs = [].
Proof.
  induction xs as [|x xs IH]; intros HP; [done|]. rewrite filter_cons_False by (apply HP; set_solver). apply IH. set_solver.
Qed.

Lemma filter_ext_in {A} (P Q : A -> Prop) `{!forall x, Decision (P x), !forall x, Decision (Q x)} (xs : list A) :
  (forall x, x ∈ xs -> P x <-> Q x) -> filter P xs = filter Q xs.
Proof.
  induction xs as [|x xs IH]; intros HPQ; [done|]. rewrite !filter_cons, IH by (intros; apply HPQ; set_solver).
  destruct (HPQ x ltac:(set_solver)). destruct (decide (P x)), (decide (Q x)); tauto.
Qed.

Lemma filter_map {A B} (f : A -> B) (P : B -> Prop) `{!forall x, Decision (P x)} (xs : list A) : filter P (map f xs) = map f (filter (fun x => P (f x)) xs).
Proof. induction xs as [|x xs IH]; [done|]. simpl. rewrite !filter_cons. destruct (decide (P (f x))); simpl; by rewrite IH. Qed.

(** ** Lists without repetition *)

Lemma NoDup_map_on {A B} (f : A -> B) (xs : list A) : NoDup xs -> (forall x y, x ∈ xs -> y ∈ xs -> f x = f y -> x = y) -> NoDup (map f xs).
Proof.
  induction 1 as [|x xs Hx Hn IH]; intros Hf; simpl; constructor.
  - intros (y & E & Hy)%list_elem_of_fmap. apply Hx. rewrite (Hf x y); [done|set_solver|set_solver|done].
  - apply IH. intros; apply Hf; set_solver.
Qed.

Lemma NoDup_map_inj {A B} (f : A -> B) (xs : list A) x y : NoDup (map f xs) -> x ∈ xs -> y ∈ xs -> f x = f y -> x = y.
Proof.
  induction xs as [|z xs IH]; intros Hnd Hx Hy E; [by apply not_elem_of_nil in Hx|]. apply NoDup_cons in Hnd as [Hz Hnd].
  apply elem_of_cons in Hx as [->|Hx], Hy as [->|Hy]; [done| | |by apply IH]; destruct Hz; apply list_elem_of_fmap; eauto.
Qed.
