(* ===== verification/GoStrings.v ===== *)
(** * Go's strings, strconv, unicode/utf8, path and io/fs functions

    The functions of Go's standard library that the modelled packages call, over
    byte strings ([String.string], one [ascii] per byte), with the lemmas on
    slash-separated paths the sync engine relies on. Nothing here is program
    code: the functions follow the documented behaviour of the standard
    library. *)

From S2P Require Import Prelude.
Local Open Scope string_scope.
Local Open Scope Z_scope.
Local Open Scope list_scope.

(** ** Bytes *)

Definition code (c : ascii) : Z := Z.of_N (Ascii.N_of_ascii c).
Definition byte (z : Z) : ascii := Ascii.ascii_of_N (Z.to_N z).
Definition slash : ascii := "/"%char.
Definition nl : ascii := byte 10.

Definition is_digit (c : ascii) : bool := (48 <=? code c) && (code c <=? 57).
Definition in_range (lo hi z : Z) : bool := (lo <=? z) && (z <=? hi).

(** ** strings *)

Definition ascii_eqb (a b : ascii) : bool := Ascii.eqb a b.

(** strings.IndexByte, [None] for -1. *)
Fixpoint IndexByte (s : string) (c : ascii) : option nat :=
  match s with
  | EmptyString => None
  | String a s' => if ascii_eqb a c then Some 0%nat else S <$> IndexByte s' c
  end.

(** strings.Cut at a one-byte separator. *)
Fixpoint cut_byte (c : ascii) (s : string) : option (string * string) :=
  match s with
  | EmptyString => None
  | String a s' =>
      if ascii_eqb a c then Some ("", s')
      else match cut_byte c s' with
           | Some (l, r) => Some (String a l, r)
           | None => None
           end
  end.

(** strings.Split by a one-byte separator. *)
Fixpoint split_byte (c : ascii) (s : string) : list string :=
  match s with
  | EmptyString => [""]
  | String a s' =>
      if ascii_eqb a c then "" :: split_byte c s'
      else match split_byte c s' with
           | h :: t => String a h :: t
           | [] => [String a ""]
           end
  end.

(** strings.Join. *)
Definition Join (elems : list string) (sep : string) : string := String.concat sep elems.

Definition HasPrefix (s p : string) : bool := String.prefix p s.

(** strings.CutPrefix. *)
Fixpoint CutPrefix (s p : string) : option string :=
  match p, s with
  | EmptyString, _ => Some s
  | String a p', String b s' => if ascii_eqb a b then CutPrefix s' p' else None
  | String _ _, EmptyString => None
  end.

Fixpoint rev_app (s acc : string) : string :=
  match s with
  | EmptyString => acc
  | String a s' => rev_app s' (String a acc)
  end.
Definition rev_string (s : string) : string := rev_app s "".

Definition HasSuffix (s p : string) : bool := HasPrefix (rev_string s) (rev_string p).

(** strings.ContainsRune / ContainsAny for ASCII runes. *)
Fixpoint contains_byte (s : string) (c : ascii) : bool :=
  match s with
  | EmptyString => false
  | String a s' => ascii_eqb a c || contains_byte s' c
  end.
Fixpoint ContainsAny (s chars : string) : bool :=
  match s with
  | EmptyString => false
  | String a s' => contains_byte chars a || ContainsAny s' chars
  end.

(** strings.Count of a byte. *)
Fixpoint Count (s : string) (c : ascii) : Z :=
  match s with
  | EmptyString => 0
  | String a s' => (if ascii_eqb a c then 1 else 0) + Count s' c
  end.

(** strings.Compare: bytewise lexicographic order. *)
Fixpoint Compare (a b : string) : comparison :=
  match a, b with
  | EmptyString, EmptyString => Eq
  | EmptyString, _ => Lt
  | _, EmptyString => Gt
  | String x a', String y b' =>
      match code x ?= code y with
      | Eq => Compare a' b'
      | c => c
      end
  end.

(** The UTF-8 encodings of the runes unicode.IsSpace accepts. A white-space
    rune starts at a byte that is never a continuation byte, so an occurrence
    of its encoding in a string is an occurrence of the rune. *)
Definition bytes_of (l : list Z) : string :=
  foldr (fun z s => String (byte z) s) "" l.
Definition space_runes : list string :=
  map bytes_of
    ([[9]; [10]; [11]; [12]; [13]; [32]; [194; 133]; [194; 160]; [225; 154; 128]]
     ++ map (fun d => [226; 128; 128 + d]) [0;1;2;3;4;5;6;7;8;9;10]
     ++ [[226; 128; 168]; [226; 128; 169]; [226; 128; 175]; [226; 129; 159]; [227; 128; 128]]).

(** The rest of [s] after a leading one of [seqs]. *)
Fixpoint strip_one (seqs : list string) (s : string) : option string :=
  match seqs with
  | [] => None
  | q :: seqs' => match CutPrefix s q with
                  | Some r => Some r
                  | None => strip_one seqs' s
                  end
  end.

Fixpoint strip_all (fuel : nat) (seqs : list string) (s : string) : string :=
  match fuel with
  | O => s
  | S f => match strip_one seqs s with
           | Some r => strip_all f seqs r
           | None => s
           end
  end.

Definition TrimLeftSpace (s : string) : string :=
  strip_all (String.length s) space_runes s.
Definition TrimRightSpace (s : string) : string :=
  rev_string (strip_all (String.length s) (map rev_string space_runes) (rev_string s)).

(** strings.TrimSpace. *)
Definition TrimSpace (s : string) : string := TrimRightSpace (TrimLeftSpace s).

(** strings.ContainsFunc(s, unicode.IsSpace). *)
Fixpoint ContainsSpace (s : string) : bool :=
  match strip_one space_runes s with
  | Some _ => true
  | None => match s with
            | EmptyString => false
            | String _ s' => ContainsSpace s'
            end
  end.

(** strings.Fields: the maximal runs of non-space runes. *)
Fixpoint fields_from (fuel : nat) (s : string) (cur : string) : list string :=
  let flush := if String.eqb cur "" then [] else [rev_string cur] in
  match fuel with
  | O => flush
  | S f =>
      match strip_one space_runes s with
      | Some r => flush ++ fields_from f r ""
      | None => match s with
                | EmptyString => flush
                | String a s' => fields_from f s' (String a cur)
                end
      end
  end.
Definition Fields (s : string) : list string := fields_from (S (String.length s)) s "".

(** ** strconv *)

Fixpoint digits_value (s : string) (acc : Z) : option Z :=
  match s with
  | EmptyString => Some acc
  | String a s' => if is_digit a then digits_value s' (10 * acc + (code a - 48)) else None
  end.

Definition unsigned_value (s : string) : option Z :=
  if String.eqb s "" then None else digits_value s 0.

(** strconv.Atoi on a 64-bit platform: [None] for a syntax or range error. *)
Definition Atoi (s : string) : option Z :=
  let v := match s with
           | String a s' =>
               if ascii_eqb a "-"%char then Z.opp <$> unsigned_value s'
               else if ascii_eqb a "+"%char then unsigned_value s'
               else unsigned_value s
           | EmptyString => None
           end in
  match v with
  | Some n => if (- 2 ^ 63 <=? n) && (n <? 2 ^ 63) then Some n else None
  | None => None
  end.

Definition Itoa (z : Z) : string := pretty z.

(** ** unicode/utf8 *)

Definition cont_byte (c : ascii) : bool := in_range 128 191 (code c).

(** The range of the second byte after the first byte [c] of a sequence of
    three or four bytes. *)
Definition second_ok (c b : Z) : bool :=
  if c =? 224 then in_range 160 191 b
  else if c =? 237 then in_range 128 159 b
  else if c =? 240 then in_range 144 191 b
  else if c =? 244 then in_range 128 143 b
  else in_range 128 191 b.

(** utf8.ValidString. *)
Fixpoint ValidString (s : string) : bool :=
  match s with
  | EmptyString => true
  | String a s1 =>
      let c := code a in
      if c <? 128 then ValidString s1 else
      match s1 with
      | EmptyString => false
      | String b s2 =>
          if in_range 194 223 c then cont_byte b && ValidString s2 else
          match s2 with
          | EmptyString => false
          | String d s3 =>
              if in_range 224 239 c then second_ok c (code b) && cont_byte d && ValidString s3 else
              match s3 with
              | EmptyString => false
              | String e s4 =>
                  in_range 240 244 c && second_ok c (code b) && cont_byte d && cont_byte e && ValidString s4
              end
          end
      end
  end.

(** utf8.DecodeRuneInString: the rune and its width, RuneError and 1 for an
    invalid sequence. *)
Definition RuneError : Z := 65533.
Definition DecodeRune (s : string) : Z * nat :=
  match s with
  | EmptyString => (RuneError, 0%nat)
  | String a s1 =>
      let c := code a in
      if c <? 128 then (c, 1%nat) else
      match s1 with
      | String b s2 =>
          if in_range 194 223 c && cont_byte b
          then ((c - 192) * 64 + (code b - 128), 2%nat)
          else match s2 with
          | String d s3 =>
              if in_range 224 239 c && second_ok c (code b) && cont_byte d
              then ((c - 224) * 4096 + (code b - 128) * 64 + (code d - 128), 3%nat)
              else match s3 with
              | String e _ =>
                  if in_range 240 244 c && second_ok c (code b) && cont_byte d && cont_byte e
                  then ((c - 240) * 262144 + (code b - 128) * 4096 + (code d - 128) * 64 + (code e - 128), 4%nat)
                  else (RuneError, 1%nat)
              | EmptyString => (RuneError, 1%nat)
              end
          | EmptyString => (RuneError, 1%nat)
          end
      | EmptyString => (RuneError, 1%nat)
      end
  end.

Fixpoint take_bytes (n : nat) (s : string) : string :=
  match n, s with
  | S n', String a s' => String a (take_bytes n' s')
  | _, _ => ""
  end.

Fixpoint drop_bytes (n : nat) (s : string) : string :=
  match n, s with
  | O, _ => s
  | S n', String _ s' => drop_bytes n' s'
  | S _, EmptyString => ""
  end.

(** ** path *)

(** The directory part of path.Split: up to the last slash, included. *)
Fixpoint dir_part (s : string) : string :=
  match s with
  | EmptyString => ""
  | String a s' =>
      match dir_part s' with
      | EmptyString => if ascii_eqb a slash then String a "" else ""
      | d => String a d
      end
  end.

Definition clean_step (rooted : bool) (stack : list string) (e : string) : list string :=
  if String.eqb e "" || String.eqb e "." then stack
  else if String.eqb e ".." then
    match stack with
    | top :: rest => if String.eqb top ".." then e :: stack else rest
    | [] => if rooted then [] else [e]
    end
  else e :: stack.

Definition rooted (s : string) : bool :=
  match s with String a _ => ascii_eqb a slash | EmptyString => false end.

(** path.Clean. *)
Definition Clean (p : string) : string :=
  let body := Join (reverse (foldl (clean_step (rooted p)) [] (split_byte slash p))) "/" in
  if rooted p then "/" +:+ body
  else if String.eqb body "" then "." else body.

(** path.Dir. *)
Definition path_Dir (p : string) : string := Clean (dir_part p).

(** path.Join of two elements. *)
Definition path_Join (a b : string) : string :=
  match filter (fun e => e ≠ "") [a; b] with
  | [] => ""
  | es => Clean (Join es "/")
  end.

(** ** io/fs *)

Definition elem_ok (e : string) : bool :=
  negb (String.eqb e "") && negb (String.eqb e ".") && negb (String.eqb e "..").

Definition valid_elems (name : string) : bool := forallb elem_ok (split_byte slash name).

(** fs.ValidPath. *)
Definition fs_ValidPath (name : string) : bool :=
  ValidString name && (String.eqb name "." || valid_elems name).

(** ** Lemmas on slash-separated paths *)

Lemma ascii_eqb_eq a b : ascii_eqb a b = true <-> a = b.
Proof. apply Ascii.eqb_eq. Qed.

Lemma ascii_eqb_refl a : ascii_eqb a a = true.
Proof. by apply ascii_eqb_eq. Qed.

Lemma append_assoc (a b c : string) : (a +:+ b) +:+ c = a +:+ (b +:+ c).
Proof. induction a as [|x a IH]; simpl; [done|]. by rewrite IH. Qed.

Lemma append_nil_r (a : string) : a +:+ "" = a.
Proof. induction a as [|x a IH]; simpl; [done|]. by rewrite IH. Qed.

Lemma contains_byte_app a b c : contains_byte (a +:+ b) c = contains_byte a c || contains_byte b c.
Proof. induction a as [|x a IH]; simpl; [done|]. by rewrite IH, orb_assoc. Qed.

Lemma split_byte_nonempty c s : split_byte c s <> [].
Proof.
  destruct s as [|a s]; simpl; [done|].
  destruct (ascii_eqb a c); [done|]. by destruct (split_byte c s).
Qed.

Lemma Join_cons e es sep : es <> [] -> Join (e :: es) sep = e +:+ sep +:+ Join es sep.
Proof. unfold Join. destruct es; [done|]. reflexivity. Qed.

Lemma join_split c s : Join (split_byte c s) (String c "") = s.
Proof.
  induction s as [|a s IH]; simpl; [done|].
  destruct (ascii_eqb a c) eqn:E.
  - apply ascii_eqb_eq in E as ->.
    rewrite Join_cons by apply split_byte_nonempty. simpl. by rewrite IH.
  - destruct (split_byte c s) as [|h t] eqn:Es; [by destruct (split_byte_nonempty c s)|].
    rewrite <- IH. destruct t; [done|]. rewrite !Join_cons by done. done.
Qed.

Lemma split_elems_clean c s : Forall (fun e => contains_byte e c = false) (split_byte c s).
Proof.
  induction s as [|a s IH]; simpl; [by repeat constructor|].
  destruct (ascii_eqb a c) eqn:E; [by constructor|].
  destruct (split_byte c s) as [|h t]; [by constructor; simpl; rewrite ?E|].
  inversion IH; subst. constructor; [|done]. simpl. by rewrite E.
Qed.

Lemma split_byte_none c s : contains_byte s c = false -> split_byte c s = [s].
Proof.
  induction s as [|a s IH]; simpl; [done|]. intros [Ha Hs]%orb_false_iff.
  rewrite Ha, IH by done. done.
Qed.

Lemma split_byte_app c e s :
  contains_byte e c = false -> split_byte c (e +:+ String c s) = e :: split_byte c s.
Proof.
  induction e as [|a e IH]; simpl; [by rewrite ascii_eqb_refl|].
  intros [Ha Hs]%orb_false_iff. by rewrite Ha, IH.
Qed.

Lemma split_join c es :
  es <> [] -> Forall (fun e => contains_byte e c = false) es ->
  split_byte c (Join es (String c "")) = es.
Proof.
  induction es as [|e es IH]; [done|]. intros _ Hes. inversion Hes; subst.
  destruct es as [|e' es]; [by apply split_byte_none|].
  rewrite Join_cons by done. simpl. rewrite split_byte_app by done. f_equal. by apply IH.
Qed.

(** A trailing slash adds an empty last element. *)
Lemma split_join_slash c es :
  es <> [] -> Forall (fun e => contains_byte e c = false) es ->
  split_byte c (Join es (String c "") +:+ String c "") = es ++ [""].
Proof.
  induction es as [|e es IH]; [done|]. intros _ Hes. inversion Hes; subst.
  destruct es as [|e' es]; [by simpl; apply split_byte_app|].
  rewrite Join_cons by done. rewrite !append_assoc. simpl.
  rewrite split_byte_app by done. f_equal. by apply IH.
Qed.

Lemma dir_part_split s :
  dir_part s = match removelast (split_byte slash s) with
               | [] => ""
               | ds => Join ds "/" +:+ "/"
               end.
Proof.
  induction s as [|a s IH]; simpl; [done|].
  rewrite IH. clear IH.
  destruct (split_byte slash s) as [|h t] eqn:Es; [by destruct (split_byte_nonempty slash s)|].
  destruct (ascii_eqb a slash) eqn:E.
  - apply ascii_eqb_eq in E as ->. simpl removelast at 2.
    destruct t as [|h' t]; [done|].
    change (removelast (h :: h' :: t)) with (h :: removelast (h' :: t)).
    destruct (removelast (h' :: t)); simpl;
      [destruct h; done | by destruct h].
  - destruct t as [|h' t]; simpl removelast; [done|].
    change (match t with [] => [] | _ :: _ => h' :: removelast t end) with (removelast (h' :: t)).
    destruct (removelast (h' :: t)) eqn:Er.
    + simpl. by destruct h.
    + rewrite !Join_cons by done. simpl. by destruct h.
Qed.

Lemma elem_ok_spec e : elem_ok e = true <-> e <> "" /\ e <> "." /\ e <> "..".
Proof.
  unfold elem_ok. rewrite !andb_true_iff, !negb_true_iff, !String.eqb_neq. tauto.
Qed.

Lemma clean_fold_ok r es stack :
  Forall (fun e => elem_ok e = true) es ->
  foldl (clean_step r) stack es = reverse es ++ stack.
Proof.
  revert stack. induction es as [|e es IH]; intros stack Hes; [done|].
  inversion Hes as [|?? He]; subst. simpl. rewrite IH by done.
  apply elem_ok_spec in He as (H1 & H2 & H3).
  unfold clean_step.
  rewrite (proj2 (String.eqb_neq e "")), (proj2 (String.eqb_neq e ".")),
    (proj2 (String.eqb_neq e "..")) by done. simpl.
  rewrite reverse_cons, <- app_assoc. done.
Qed.

Lemma Join_rooted es :
  es <> [] -> Forall (fun e => elem_ok e = true) es ->
  Forall (fun e => contains_byte e slash = false) es ->
  rooted (Join es "/") = false /\ Join es "/" <> "" /\ forall x, rooted (Join es "/" +:+ x) = false.
Proof.
  destruct es as [|e es]; [done|]. intros _ Hok Hns.
  inversion Hok as [|?? He]; inversion Hns as [|?? Hn]; subst.
  apply elem_ok_spec in He as (He & _). destruct e as [|a e]; [done|].
  simpl in Hn. apply orb_false_iff in Hn as [Ha _].
  destruct es; unfold Join; simpl; auto.
Qed.

Lemma valid_elems_spec s :
  valid_elems s = true <-> Forall (fun e => elem_ok e = true) (split_byte slash s).
Proof. unfold valid_elems. rewrite forallb_forall, List.Forall_forall. done. Qed.

Lemma removelast_Forall {A} (P : A -> Prop) l : Forall P l -> Forall P (removelast l).
Proof.
  induction l as [|x l IH]; [done|]. intros H. inversion H; subst.
  destruct l; [constructor|]. simpl. constructor; [done|]. by apply IH.
Qed.

(** path.Clean leaves valid elements followed by a slash as they are. *)
Lemma Clean_dir ds :
  ds <> [] -> Forall (fun e => elem_ok e = true) ds ->
  Forall (fun e => contains_byte e slash = false) ds ->
  Clean (Join ds "/" +:+ "/") = Join ds "/".
Proof.
  intros Hne Hok Hns. destruct (Join_rooted ds Hne Hok Hns) as (Hr & Hj & Hx).
  unfold Clean. rewrite Hx.
  change "/" with (String slash ""). rewrite split_join_slash by done.
  rewrite foldl_app, (clean_fold_ok _ ds) by done. cbn [foldl].
  unfold clean_step. rewrite String.eqb_refl. cbn [orb].
  rewrite app_nil_r, reverse_involutive.
  rewrite (proj2 (String.eqb_neq _ _)); done.
Qed.

(** path.Dir of a valid path drops its last element. *)
Lemma path_Dir_elems s :
  valid_elems s = true ->
  path_Dir s = match removelast (split_byte slash s) with
          | [] => "."
          | ds => Join ds "/"
          end.
Proof.
  rewrite valid_elems_spec. intros Hv. unfold path_Dir. rewrite dir_part_split.
  pose proof (removelast_Forall _ _ Hv) as Hv'.
  pose proof (removelast_Forall _ _ (split_elems_clean slash s)) as Hs.
  destruct (removelast (split_byte slash s)) as [|d ds]; [done|].
  by apply Clean_dir.
Qed.

(** The number of elements of a path. *)
Definition depth (s : string) : nat := length (split_byte slash s).

Lemma path_Dir_cases s :
  valid_elems s = true ->
  path_Dir s = "." \/ (valid_elems (path_Dir s) = true /\ depth s = S (depth (path_Dir s)) /\ path_Dir s <> ".").
Proof.
  intros Hv. rewrite path_Dir_elems by done. rewrite valid_elems_spec in Hv.
  pose proof (removelast_Forall _ _ Hv) as Hv'.
  pose proof (removelast_Forall _ _ (split_elems_clean slash s)) as Hs.
  assert (length (split_byte slash s) = S (length (removelast (split_byte slash s)))) as Hlen.
  { rewrite (app_removelast_last "" (split_byte_nonempty slash s)) at 1.
    rewrite length_app. simpl. lia. }
  unfold depth. destruct (removelast (split_byte slash s)) as [|d ds]; [by left|right].
  assert (split_byte slash (Join (d :: ds) "/") = d :: ds) as Hsplit by (by apply split_join).
  rewrite valid_elems_spec, Hsplit. split_and!; [done|done|].
  intros Heq. rewrite Heq in Hsplit. simpl in Hsplit. injection Hsplit as <- <-.
  inversion Hv' as [|?? He]; subst. by apply elem_ok_spec in He as (_ & ? & _).
Qed.

Lemma depth_le_length s : (depth s <= S (String.length s))%nat.
Proof.
  unfold depth. induction s as [|a s IH]; simpl; [lia|].
  destruct (ascii_eqb a slash); simpl; [lia|].
  destruct (split_byte slash s); simpl in *; lia.
Qed.

Lemma valid_elems_not_dot s : valid_elems s = true -> s <> ".".
Proof. intros Hv ->. discriminate. Qed.

(** The parent of a valid path is never the path itself. *)
Lemma path_Dir_neq s : valid_elems s = true -> path_Dir s <> s.
Proof.
  intros Hv Heq. destruct (path_Dir_cases s Hv) as [Hd|(_ & Hd & _)].
  - apply (valid_elems_not_dot s Hv). congruence.
  - rewrite Heq in Hd. lia.
Qed.

#[export] Hint Resolve valid_elems_not_dot path_Dir_neq : fleet.

Lemma CutPrefix_nil s : CutPrefix s "" = Some s.
Proof. by destruct s. Qed.
