(* ===== verification/GoText.v ===== *)
(** * Lemmas on trimming, fields and numbers

    Facts about [TrimSpace], [Fields], [Atoi] and [Itoa] that the readers of
    user-written text rely on. *)

From S2P Require Import Prelude GoStrings.
Local Open Scope string_scope.
Local Open Scope Z_scope.
Local Open Scope list_scope.

(** ** Stripping *)

Lemma CutPrefix_length s q r : CutPrefix s q = Some r -> String.length s = (String.length q + String.length r)%nat.
Proof.
  revert s. induction q as [|a q IH]; intros s; [by rewrite CutPrefix_nil; intros [= ->]|].
  destruct s as [|b s]; simpl; [done|]. destruct (ascii_eqb a b); [|done]. intros H%IH. lia.
Qed.

Definition solid (seqs : list string) : Prop := Forall (fun q => q <> "") seqs.

Lemma strip_one_length seqs s r : solid seqs -> strip_one seqs s = Some r -> (String.length r < String.length s)%nat.
Proof.
  induction 1 as [|q seqs Hq _ IH]; simpl; [done|]. destruct (CutPrefix s q) eqn:E; [|auto].
  intros [= ->]. apply CutPrefix_length in E. destruct q; [done|]. simpl in E. lia.
Qed.

(** The fuel of [strip_all] is enough: nothing is left to strip. *)
Lemma strip_all_done seqs n s :
  solid seqs -> (String.length s <= n)%nat -> strip_one seqs (strip_all n seqs s) = None.
Proof.
  intros Hs. revert s. induction n as [|n IH]; intros s Hn; simpl.
  - destruct (strip_one seqs s) as [r|] eqn:E; [|done]. apply strip_one_length in E; [lia|done].
  - destruct (strip_one seqs s) as [r|] eqn:E; [|done]. apply IH. apply strip_one_length in E; [lia|done].
Qed.

Lemma strip_all_None seqs n s : strip_one seqs s = None -> strip_all n seqs s = s.
Proof. intros H. destruct n; simpl; [done|]. by rewrite H. Qed.

Lemma space_runes_solid : solid space_runes.
Proof. unfold solid. apply Forall_forall. intros q Hq. apply (proj1 (list_elem_of_In _ _)) in Hq. simpl in Hq. naive_solver. Qed.

Lemma rev_app_spec s acc : rev_app s acc = rev_string s +:+ acc.
Proof.
  unfold rev_string. revert acc. induction s as [|a s IH]; intros acc; simpl; [done|].
  rewrite IH, (IH (String a "")), append_assoc. done.
Qed.

Lemma rev_string_cons a s : rev_string (String a s) = rev_string s +:+ String a "".
Proof. apply (rev_app_spec s (String a "")). Qed.

Lemma rev_string_append s t : rev_string (s +:+ t) = rev_string t +:+ rev_string s.
Proof.
  induction s as [|a s IH]; simpl; [by rewrite append_nil_r|].
  rewrite !rev_string_cons, IH, append_assoc. done.
Qed.

Lemma HasPrefix_append p s : HasPrefix (p +:+ s) p = true.
Proof. unfold HasPrefix. induction p as [|a p IH]; [by destruct s|]. simpl. rewrite IH. by destruct (ascii_dec a a). Qed.

Lemma rev_string_involutive s : rev_string (rev_string s) = s.
Proof. induction s as [|a s IH]; [done|]. by rewrite rev_string_cons, rev_string_append, IH. Qed.

Lemma length_rev_string s : String.length (rev_string s) = String.length s.
Proof.
  induction s as [|a s IH]; [done|]. rewrite rev_string_cons.
  assert (forall x y, String.length (x +:+ y) = (String.length x + String.length y)%nat) as Hl.
  { intros x y. induction x as [|b x IHx]; simpl; [done|]. by rewrite IHx. }
  rewrite Hl, IH. simpl. lia.
Qed.

Definition space_runes_rev : list string := map rev_string space_runes.

Lemma space_runes_rev_solid : solid space_runes_rev.
Proof.
  apply Forall_map. eapply Forall_impl; [exact space_runes_solid|]. intros q Hq E. apply Hq.
  by rewrite <- (rev_string_involutive q), E.
Qed.

(** ** TrimSpace *)

(** No white space at either end. *)
Definition trimmed (s : string) : Prop :=
  strip_one space_runes s = None /\ strip_one space_runes_rev (rev_string s) = None.

Lemma TrimSpace_trimmed s : trimmed s -> TrimSpace s = s.
Proof.
  intros [Hl Hr]. unfold TrimSpace, TrimRightSpace, TrimLeftSpace. fold space_runes_rev.
  rewrite (strip_all_None _ _ s) by done. rewrite strip_all_None by done. apply rev_string_involutive.
Qed.

Lemma CutPrefix_append s t q r : CutPrefix s q = Some r -> CutPrefix (s +:+ t) q = Some (r +:+ t).
Proof.
  revert s. induction q as [|a q IH]; intros s.
  - rewrite !CutPrefix_nil. by intros [= ->].
  - destruct s as [|b s]; simpl; [done|]. destruct (ascii_eqb a b); [|done]. apply IH.
Qed.

Lemma strip_one_append seqs s t : strip_one seqs (s +:+ t) = None -> strip_one seqs s = None.
Proof.
  induction seqs as [|q seqs IH]; simpl; [done|]. destruct (CutPrefix s q) as [r|] eqn:E.
  - by rewrite (CutPrefix_append _ t _ _ E).
  - destruct (CutPrefix (s +:+ t) q); [done|]. apply IH.
Qed.

Lemma CutPrefix_self p s : CutPrefix (p +:+ s) p = Some s.
Proof. induction p as [|a p IH]; simpl; [by destruct s|]. by rewrite ascii_eqb_refl. Qed.

Lemma CutPrefix_Some s q r : CutPrefix s q = Some r -> s = q +:+ r.
Proof.
  revert s. induction q as [|a q IH]; intros s; [by rewrite CutPrefix_nil; intros [= ->]|].
  destruct s as [|b s]; simpl; [done|]. destruct (ascii_eqb a b) eqn:E; [|done].
  apply ascii_eqb_eq in E as ->. intros H%IH. by rewrite <- H.
Qed.

Lemma strip_one_suffix seqs s r : strip_one seqs s = Some r -> exists q, s = q +:+ r.
Proof.
  induction seqs as [|q seqs IH]; simpl; [done|]. destruct (CutPrefix s q) eqn:E; [|done].
  intros [= ->]. exists q. by apply CutPrefix_Some.
Qed.

Lemma strip_all_suffix n seqs s : exists q, s = q +:+ strip_all n seqs s.
Proof.
  revert s. induction n as [|n IH]; intros s; simpl; [by exists ""|].
  destruct (strip_one seqs s) as [r|] eqn:E; [|by exists ""]. apply strip_one_suffix in E as [q ->].
  destruct (IH r) as [q' Hq]. exists (q +:+ q'). by rewrite append_assoc, <- Hq.
Qed.

(** What TrimSpace gives is trimmed. *)
Lemma trimmed_TrimSpace s : trimmed (TrimSpace s).
Proof.
  unfold TrimSpace. set (l := TrimLeftSpace s).
  assert (strip_one space_runes l = None) as Hl by (apply strip_all_done; [apply space_runes_solid|lia]).
  unfold TrimRightSpace. fold space_runes_rev. set (r := strip_all _ space_runes_rev (rev_string l)).
  assert (strip_one space_runes_rev r = None) as Hr.
  { apply strip_all_done; [apply space_runes_rev_solid|]. by rewrite length_rev_string. }
  split; [|by rewrite rev_string_involutive].
  destruct (strip_all_suffix (String.length l) space_runes_rev (rev_string l)) as [q Hq]. fold r in Hq.
  apply (strip_one_append _ _ (rev_string q)). rewrite <- rev_string_append, <- Hq, rev_string_involutive. done.
Qed.

Lemma TrimSpace_idem s : TrimSpace (TrimSpace s) = TrimSpace s.
Proof. apply TrimSpace_trimmed, trimmed_TrimSpace. Qed.

#[export] Hint Rewrite TrimSpace_idem : fleet.

(** ** Cutting *)

Lemma cut_byte_app c a b : contains_byte a c = false -> cut_byte c (a +:+ String c b) = Some (a, b).
Proof.
  induction a as [|x a IH]; simpl; [by rewrite ascii_eqb_refl|]. intros [Hx Ha]%orb_false_iff. rewrite Hx, IH by done. done.
Qed.

Lemma cut_byte_Some c s a b : cut_byte c s = Some (a, b) -> s = a +:+ String c b /\ contains_byte a c = false.
Proof.
  revert a. induction s as [|x s IH]; intros a; simpl; [done|]. destruct (ascii_eqb x c) eqn:E.
  - intros [= <- <-]. apply ascii_eqb_eq in E as ->. done.
  - destruct (cut_byte c s) as [[l r]|]; [|done]. intros [= <- <-]. destruct (IH l eq_refl) as [-> Hl]. simpl. by rewrite E, Hl.
Qed.

Lemma cut_byte_found c s : contains_byte s c = true -> is_Some (cut_byte c s).
Proof.
  induction s as [|a s IH]; simpl; [done|]. destruct (ascii_eqb a c); [by eexists|]. simpl. intros [[x y] ->]%IH. by eexists.
Qed.

Lemma cut_byte_None c s : contains_byte s c = false -> cut_byte c s = None.
Proof. induction s as [|a s IH]; simpl; [done|]. intros [-> Hs]%orb_false_iff. by rewrite IH. Qed.

(** ** Plain words *)

(** Printable ASCII, the space left out. *)
Definition graph (c : ascii) : bool := (33 <=? code c) && (code c <=? 126).

Fixpoint all_graph (s : string) : bool :=
  match s with EmptyString => true | String a s' => graph a && all_graph s' end.

Lemma strip_one_first seqs a s :
  forallb (fun q => match q with String b _ => negb (ascii_eqb b a) | EmptyString => false end) seqs = true ->
  strip_one seqs (String a s) = None.
Proof.
  induction seqs as [|q seqs IH]; simpl; [done|]. intros [Hq Hs]%andb_true_iff. destruct q as [|b q]; [done|].
  simpl. apply negb_true_iff in Hq. rewrite Hq. by apply IH.
Qed.

Lemma strip_graph a s : graph a = true -> strip_one space_runes (String a s) = None.
Proof.
  intros Ha. apply strip_one_first. revert Ha. destruct a as [[] [] [] [] [] [] [] []]; vm_compute; done.
Qed.

Lemma all_graph_app s t : all_graph (s +:+ t) = all_graph s && all_graph t.
Proof. induction s as [|a s IH]; simpl; [done|]. by rewrite IH, andb_assoc. Qed.

Lemma strip_rev_graph a s : graph a = true -> strip_one space_runes_rev (String a s) = None.
Proof.
  intros Ha. apply strip_one_first. revert Ha. destruct a as [[] [] [] [] [] [] [] []]; vm_compute; done.
Qed.

Lemma all_graph_rev s : all_graph (rev_string s) = all_graph s.
Proof.
  induction s as [|a s IH]; [done|]. rewrite rev_string_cons, all_graph_app, IH. simpl.
  by rewrite andb_true_r, andb_comm.
Qed.

(** A word of plain bytes is trimmed. *)
Lemma graph_trimmed s : all_graph s = true -> TrimSpace s = s.
Proof.
  intros Hs. apply TrimSpace_trimmed. split.
  - destruct s as [|a s]; [by vm_compute|]. apply strip_graph. simpl in Hs. by apply andb_true_iff in Hs as [? _].
  - rewrite <- all_graph_rev in Hs. destruct (rev_string s) as [|a r]; [by vm_compute|]. apply strip_rev_graph.
    simpl in Hs. by apply andb_true_iff in Hs as [? _].
Qed.

Lemma fields_word w s cur n :
  all_graph w = true -> (String.length w <= n)%nat ->
  fields_from n (w +:+ s) cur = fields_from (n - String.length w) s (rev_app w cur).
Proof.
  revert cur n. induction w as [|a w IH]; intros cur n; [by simpl; rewrite Nat.sub_0_r|].
  intros [Ha Hw]%andb_true_iff Hn. cbn [String.length] in *. destruct n as [|n]; [lia|].
  change (String a w +:+ s) with (String a (w +:+ s)). cbn [fields_from].
  rewrite strip_graph by done. rewrite IH by (done || lia). done.
Qed.

Lemma space_first s : strip_one space_runes (String " "%char s) = Some s.
Proof. vm_compute. by destruct s. Qed.

Lemma rev_app_nonempty w cur : w <> "" -> rev_app w cur <> "".
Proof.
  rewrite rev_app_spec. destruct w as [|a w]; [done|]. intros _. rewrite rev_string_cons.
  destruct (rev_string w); done.
Qed.

Lemma length_append_s (s t : string) : String.length (s +:+ t) = (String.length s + String.length t)%nat.
Proof. induction s as [|a s IH]; simpl; [done|]. by rewrite IH. Qed.

(** strings.Fields finds the words of a line again. *)
Lemma Fields_Join ws :
  Forall (fun w => w <> "" /\ all_graph w = true) ws -> Fields (Join ws " ") = ws.
Proof.
  intros Hws. unfold Fields.
  enough (forall n, (String.length (Join ws " ") < n)%nat -> fields_from n (Join ws " ") "" = ws) as H by (apply H; lia).
  induction Hws as [|w ws [Hne Hg] Hws IH]; intros n Hn.
  { destruct n; [simpl in Hn; lia|]. by vm_compute. }
  destruct ws as [|w' ws].
  - change (Join [w] " ") with w in *. replace (fields_from n w "") with (fields_from n (w +:+ "") "") by (by rewrite append_nil_r).
    rewrite fields_word by (done || lia).
    destruct (n - String.length w)%nat eqn:E; [lia|].
    simpl. destruct (String.eqb (rev_app w "") "") eqn:E'; [by apply String.eqb_eq, rev_app_nonempty in E'|].
    f_equal. apply rev_string_involutive.
  - rewrite Join_cons in * by done. rewrite !length_append_s in Hn. cbn [String.length] in Hn.
    rewrite fields_word by (done || lia).
    destruct (n - String.length w)%nat as [|m] eqn:E; [lia|]. cbn [fields_from].
    change (" " +:+ Join (w' :: ws) " ") with (String " "%char (Join (w' :: ws) " ")). rewrite space_first.
    destruct (String.eqb (rev_app w "") "") eqn:E'; [by apply String.eqb_eq, rev_app_nonempty in E'|].
    simpl app. f_equal; [apply rev_string_involutive|]. apply IH. cbn [String.length] in *. lia.
Qed.

(** ** Numbers *)

Lemma digit_char d : (d < 10)%N ->
  is_digit (pretty_N_char d) = true /\ code (pretty_N_char d) - 48 = Z.of_N d.
Proof.
  intros Hd. assert (d = 0 \/ d = 1 \/ d = 2 \/ d = 3 \/ d = 4 \/ d = 5 \/ d = 6 \/ d = 7 \/ d = 8 \/ d = 9)%N as Hc by lia.
  repeat (destruct Hc as [->|Hc]; [by vm_compute|]). subst. by vm_compute.
Qed.

Lemma digits_pretty n s : digits_value (pretty_N_go n s) 0 = digits_value s (Z.of_N n).
Proof.
  revert s. induction (N.lt_wf_0 n) as [n _ IH]; intros s. destruct (base.decide (0 < n)%N) as [Hn|Hn].
  - rewrite pretty_N_go_step by done. rewrite IH by (by apply N.div_lt). simpl.
    destruct (digit_char (n `mod` 10)) as [Hd Hv]; [by apply N.mod_lt|]. rewrite Hd, Hv. f_equal.
    pose proof (N.div_mod n 10 ltac:(done)). lia.
  - assert (n = 0%N) as -> by lia. by rewrite pretty_N_go_0.
Qed.

Lemma pretty_go_digits n s : (0 < n)%N -> exists d r, pretty_N_go n s = String d r /\ is_digit d = true.
Proof.
  revert s. induction (N.lt_wf_0 n) as [n _ IH]; intros s Hn. rewrite pretty_N_go_step by done.
  destruct (base.decide (0 < n / 10)%N) as [Hq|Hq]; [by apply IH; [apply N.div_lt|]|].
  apply N.nlt_ge, N.le_0_r in Hq. rewrite Hq. rewrite pretty_N_go_0. eexists _, _. split; [done|]. apply digit_char, N.mod_lt. done.
Qed.

Lemma Itoa_first z : 0 <= z -> exists d r, Itoa z = String d r /\ is_digit d = true /\ unsigned_value (Itoa z) = Some z.
Proof.
  intros Hz. destruct z as [|p|p]; [by eexists _, _|..|lia].
  change (Itoa (Z.pos p)) with (pretty_N_go (N.pos p) "").
  destruct (pretty_go_digits (N.pos p) "") as (d & r & Hr & Hd); [lia|]. exists d, r. split_and!; [done..|].
  unfold unsigned_value. rewrite digits_pretty. by rewrite Hr.
Qed.

Lemma Atoi_Itoa z : 0 <= z < 2 ^ 63 -> Atoi (Itoa z) = Some z.
Proof.
  intros [Hz Hr]. destruct (Itoa_first z Hz) as (d & r & Hi & Hd & Hu). rewrite Hi in *. unfold Atoi.
  assert (ascii_eqb d "-"%char = false /\ ascii_eqb d "+"%char = false) as [-> ->].
  { revert Hd. destruct d as [[] [] [] [] [] [] [] []]; vm_compute; done. }
  rewrite Hu. rewrite (proj2 (Z.leb_le _ _)) by lia. by rewrite (proj2 (Z.ltb_lt _ _)).
Qed.

Fixpoint all_digits (s : string) : bool :=
  match s with EmptyString => true | String a s' => is_digit a && all_digits s' end.

Lemma pretty_all_digits n s : all_digits s = true -> all_digits (pretty_N_go n s) = true.
Proof.
  revert s. induction (N.lt_wf_0 n) as [n _ IH]; intros s Hs. destruct (base.decide (0 < n)%N) as [Hn|Hn].
  - rewrite pretty_N_go_step by done. apply IH; [by apply N.div_lt|]. simpl. rewrite Hs, andb_true_r.
    apply digit_char, N.mod_lt. done.
  - assert (n = 0%N) as -> by lia. by rewrite pretty_N_go_0.
Qed.

Lemma Itoa_digits z : 0 <= z -> all_digits (Itoa z) = true.
Proof. intros Hz. destruct z as [|p|p]; [done|by apply (pretty_all_digits (N.pos p) "")|lia]. Qed.

Lemma all_digits_graph s : all_digits s = true -> all_graph s = true.
Proof.
  induction s as [|a s IH]; simpl; [done|]. intros [Ha Hs]%andb_true_iff. rewrite IH by done. rewrite andb_true_r.
  unfold is_digit, graph in *. bool_hyps. apply andb_true_iff. split; apply Z.leb_le; lia.
Qed.

Lemma all_digits_free s c : all_digits s = true -> is_digit c = false -> contains_byte s c = false.
Proof.
  intros Hs Hc. induction s as [|a s IH]; simpl in *; [done|]. apply andb_true_iff in Hs as [Ha Hs].
  rewrite IH by done. destruct (ascii_eqb a c) eqn:E; [|done]. apply ascii_eqb_eq in E as ->. congruence.
Qed.
