(* ===== verification/Sha256.v ===== *)
(** * Content hashes (crypto/sha256, encoding/hex)

    SHA-256 as the standard library computes it, over byte strings. The sync
    engine names a file's content by the hex of this hash, and the three-way
    merge compares document values by it. Theorems treat it as a function;
    none assumes it injective. *)

From S2P Require Import Prelude GoStrings.
Local Open Scope string_scope.
Local Open Scope Z_scope.
Local Open Scope list_scope.

Definition mask32 (z : Z) : Z := Z.land z 4294967295.
Definition rotr (x n : Z) : Z := Z.lor (Z.shiftr x n) (mask32 (Z.shiftl x (32 - n))).
Definition xor3 (a b c : Z) : Z := Z.lxor (Z.lxor a b) c.

Definition sha_K : list Z :=
    [1116352408; 1899447441; 3049323471; 3921009573; 961987163; 1508970993;
     2453635748; 2870763221; 3624381080; 310598401; 607225278; 1426881987;
     1925078388; 2162078206; 2614888103; 3248222580; 3835390401; 4022224774;
     264347078; 604807628; 770255983; 1249150122; 1555081692; 1996064986;
     2554220882; 2821834349; 2952996808; 3210313671; 3336571891; 3584528711;
     113926993; 338241895; 666307205; 773529912; 1294757372; 1396182291;
     1695183700; 1986661051; 2177026350; 2456956037; 2730485921; 2820302411;
     3259730800; 3345764771; 3516065817; 3600352804; 4094571909; 275423344;
     430227734; 506948616; 659060556; 883997877; 958139571; 1322822218;
     1537002063; 1747873779; 1955562222; 2024104815; 2227730452; 2361852424;
     2428436474; 2756734187; 3204031479; 3329325298].

Definition sha_H0 : list Z :=
    [1779033703; 3144134277; 1013904242; 2773480762; 1359893119; 2600822924;
     528734635; 1541459225].

Fixpoint string_bytes (s : string) : list Z :=
  match s with
  | EmptyString => []
  | String c s' => code c :: string_bytes s'
  end.

(** The big-endian bytes of [z]. *)
Fixpoint be_bytes (n : nat) (z : Z) : list Z :=
  match n with
  | O => []
  | S n' => Z.land (Z.shiftr z (8 * Z.of_nat n')) 255 :: be_bytes n' z
  end.

Definition sha_pad (l : list Z) : list Z :=
  let n := Z.of_nat (length l) in
  l ++ [128] ++ replicate (Z.to_nat ((55 - n) mod 64)) 0 ++ be_bytes 8 (8 * n).

Fixpoint words (l : list Z) : list Z :=
  match l with
  | a :: b :: c :: d :: l' => (a * 16777216 + b * 65536 + c * 256 + d) :: words l'
  | _ => []
  end.

(** The message schedule, newest word first. *)
Fixpoint schedule (n : nat) (w : list Z) : list Z :=
  match n with
  | O => w
  | S n' =>
      let at_ i := nth i w 0 in
      let s0 := xor3 (rotr (at_ 14%nat) 7) (rotr (at_ 14%nat) 18) (Z.shiftr (at_ 14%nat) 3) in
      let s1 := xor3 (rotr (at_ 1%nat) 17) (rotr (at_ 1%nat) 19) (Z.shiftr (at_ 1%nat) 10) in
      schedule n' (mask32 (at_ 15%nat + s0 + at_ 6%nat + s1) :: w)
  end.

Definition sha_round (st : list Z) (kw : Z * Z) : list Z :=
  match st with
  | [a; b; c; d; e; f; g; h] =>
      let s1 := xor3 (rotr e 6) (rotr e 11) (rotr e 25) in
      let ch := Z.lxor (Z.land e f) (Z.land (Z.lxor e 4294967295) g) in
      let t1 := h + s1 + ch + fst kw + snd kw in
      let s0 := xor3 (rotr a 2) (rotr a 13) (rotr a 22) in
      let maj := xor3 (Z.land a b) (Z.land a c) (Z.land b c) in
      [mask32 (t1 + s0 + maj); a; b; c; mask32 (d + t1); e; f; g]
  | _ => st
  end.

Definition sha_block (h : list Z) (block : list Z) : list Z :=
  let w := reverse (schedule 48 (reverse (words block))) in
  zip_with (fun x y => mask32 (x + y)) h (foldl sha_round h (zip sha_K w)).

Fixpoint sha_blocks (fuel : nat) (h : list Z) (l : list Z) : list Z :=
  match fuel with
  | O => h
  | S f => match l with
           | [] => h
           | _ => sha_blocks f (sha_block h (take 64 l)) (drop 64 l)
           end
  end.

(** sha256.Sum256: the 32 bytes of the digest. *)
Definition Sum256 (s : string) : string :=
  let padded := sha_pad (string_bytes s) in
  bytes_of (flat_map (be_bytes 4) (sha_blocks (length padded) sha_H0 padded)).

Definition hex_digit (z : Z) : ascii := byte (if z <? 10 then 48 + z else 87 + z).

(** hex.EncodeToString. *)
Fixpoint EncodeToString (s : string) : string :=
  match s with
  | EmptyString => ""
  | String c s' => String (hex_digit (code c / 16)) (String (hex_digit (code c mod 16)) (EncodeToString s'))
  end.

(** hashOf (internal/sharesync/stores.go). *)
Definition hashOf (data : string) : string := EncodeToString (Sum256 data).

Example sha256_empty :
  hashOf "" = "e3b0c44298fc1c149afbf4c8996fb92427ae41e4649b934ca495991b7852b855".
Proof. vm_compute. reflexivity. Qed.

Example sha256_abc :
  hashOf "abc" = "ba7816bf8f01cfea414140de5dae2223b00361a396177a9cb410ff61f20015ad".
Proof. vm_compute. reflexivity. Qed.

(** ** The shape of a hash *)

Lemma length_bytes_of l : String.length (bytes_of l) = length l.
Proof. induction l as [|z l IH]; simpl; [done|]. by rewrite IH. Qed.

Lemma length_sha_round st kw : length st = 8%nat -> length (sha_round st kw) = 8%nat.
Proof. intros. do 9 (destruct st as [|? st]; try done). Qed.

Lemma length_sha_rounds kws st : length st = 8%nat -> length (foldl sha_round st kws) = 8%nat.
Proof. revert st. induction kws as [|kw kws IH]; intros; simpl; auto using length_sha_round. Qed.

Lemma length_sha_block h b : length h = 8%nat -> length (sha_block h b) = 8%nat.
Proof. intros. unfold sha_block. rewrite length_zip_with, length_sha_rounds by done. lia. Qed.

Lemma length_sha_blocks n h l : length h = 8%nat -> length (sha_blocks n h l) = 8%nat.
Proof.
  revert h l. induction n as [|n IH]; intros h l Hh; simpl; [done|].
  destruct l; [done|]. apply IH. by apply length_sha_block.
Qed.

Lemma length_Sum256 s : String.length (Sum256 s) = 32%nat.
Proof.
  unfold Sum256. rewrite length_bytes_of.
  assert (forall l, length (flat_map (be_bytes 4) l) = (4 * length l)%nat) as ->.
  { induction l as [|z l IH]; [done|]. cbn [flat_map]. rewrite length_app, IH. simpl length. lia. }
  rewrite length_sha_blocks; done.
Qed.

Lemma length_EncodeToString s : String.length (EncodeToString s) = (2 * String.length s)%nat.
Proof. induction s as [|c s IH]; simpl; [done|]. rewrite IH. lia. Qed.
