(* ===== verification/Entry.v ===== *)
(** * Entries and messages (internal/sharesync/entry.go, messages.go, scan.go)

    The synced state of one path, what the sync engine accepts of it from a
    side, and the messages sides and the hub exchange. A path is a byte
    string; a file's content enters through its size and its hash. *)

From S2P Require Import Prelude GoStrings.
From Stdlib Require Import Sorting.Sorted.
Local Open Scope string_scope.
Local Open Scope Z_scope.
Local Open Scope list_scope.

(** ** Kinds and entries *)

(** A kind is a [uint8]; [OtherKind] is a value no constant names. *)
Inductive Kind : Type :=
| Gone
| File
| Dir
| Symlink
| OtherKind (n : Z).

#[export] Instance Kind_eq_dec : EqDecision Kind.
Proof. solve_decision. Defined.

Definition kind_code (k : Kind) : Z :=
  match k with
  | Gone => 0
  | File => 1
  | Dir => 2
  | Symlink => 3
  | OtherKind n => n
  end.

Definition Kind_String (k : Kind) : string :=
  match k with
  | Gone => "gone"
  | File => "file"
  | Dir => "dir"
  | Symlink => "symlink"
  | OtherKind n => "kind(" +:+ Itoa n +:+ ")"
  end.

(** Prefix: an earlier content of a file, by length and hash. *)
Record Prefix := MkPrefix { pre_size : Z; pre_hash : string }.

#[export] Instance Prefix_eq_dec : EqDecision Prefix.
Proof. solve_decision. Defined.

Record Entry := MkEntry {
  ekind : Kind;
  emode : Z;        (* fs.FileMode bits *)
  esize : Z;        (* int64 *)
  emtime : Z;       (* int64, Unix nanoseconds *)
  ehash : string;   (* hex sha256 *)
  etarget : string; (* symlink target *)
  egrew : list Prefix
}.

(** The texts an entry holds. *)
Definition entry_texts (e : Entry) : list string := ehash e :: etarget e :: map pre_hash (egrew e).

#[export] Instance Entry_eq_dec : EqDecision Entry.
Proof. solve_decision. Defined.

(** Go's zero Entry of a kind. *)
Definition entry_of (k : Kind) (m : Z) : Entry := MkEntry k m 0 0 "" "" [].

Definition maxGrew : nat := 16.
Definition maxTarget : nat := 4096.

(** io/fs mode bits. *)
Definition ModePerm : Z := 511.
Definition ModeSticky : Z := 2 ^ 20.

Definition Live (e : Entry) : bool := negb (bool_decide (ekind e = Gone)).

Definition Same (e o : Entry) : bool :=
  if negb (bool_decide (ekind e = ekind o)) then false else
  match ekind e with
  | Gone => true
  | File => (emode e =? emode o) && String.eqb (ehash e) (ehash o) && (esize e =? esize o)
  | Dir => emode e =? emode o
  | Symlink => String.eqb (etarget e) (etarget o)
  | OtherKind _ => false
  end.

Definition extends (e held : Entry) : Z :=
  if negb (bool_decide (ekind e = File)) || negb (bool_decide (ekind held = File))
     || (esize held >=? esize e) then -1
  else match find (fun p => (pre_size p =? esize held) && String.eqb (pre_hash p) (ehash held)) (egrew e) with
       | Some p => pre_size p
       | None => -1
       end.

Definition with_grew (e : Entry) (g : list Prefix) : Entry :=
  MkEntry (ekind e) (emode e) (esize e) (emtime e) (ehash e) (etarget e) g.
Definition with_mtime (e : Entry) (t : Z) : Entry :=
  MkEntry (ekind e) (emode e) (esize e) t (ehash e) (etarget e) (egrew e).

Definition grownFrom (e prev : Entry) : Entry :=
  let g := egrew prev ++ [MkPrefix (esize prev) (ehash prev)] in
  let g := if (maxGrew <? length g)%nat then drop (length g - maxGrew) g else g in
  with_grew e g.

Definition tombstone (e : Entry) : Entry :=
  if bool_decide (ekind e = Dir) then entry_of Gone (emode e) else entry_of Gone 0.

Definition fileMode (k : Kind) (m : Z) : Z :=
  match k with
  | File => Z.land m ModePerm
  | Dir => Z.land m (Z.lor ModePerm ModeSticky)
  | _ => 0
  end.

(** strings.ToLower on ASCII, and hex.DecodeString's test. *)
Definition lower_byte (c : ascii) : ascii :=
  if in_range 65 90 (code c) then byte (code c + 32) else c.
Fixpoint ToLower (s : string) : string :=
  match s with
  | EmptyString => ""
  | String a s' => String (lower_byte a) (ToLower s')
  end.
Definition is_hex (c : ascii) : bool :=
  in_range 48 57 (code c) || in_range 97 102 (code c) || in_range 65 70 (code c).
Fixpoint all_hex (s : string) : bool :=
  match s with
  | EmptyString => true
  | String a s' => is_hex a && all_hex s'
  end.

Definition validHash (h : string) : bool :=
  if negb (String.length h =? 64)%nat then false
  else all_hex h && String.eqb (ToLower h) h.

Inductive check_error : Type :=
| DeleteWithMode
| FileMode
| FileSize
| FileHash
| GrownPrefixes
| GrownPrefix
| DirMode
| SymlinkTarget
| UnknownKind.

Definition nul : ascii := byte 0.

Definition grown_ok (sz : Z) (p : Prefix) : bool :=
  negb ((pre_size p <? 0) || (pre_size p >=? sz) || negb (validHash (pre_hash p))).

(** Entry.check: [None] accepts the entry. *)
Definition check (e : Entry) : option check_error :=
  match ekind e with
  | Gone =>
      if negb (Z.ldiff (emode e) (Z.lor ModePerm ModeSticky) =? 0) then Some DeleteWithMode
      else None
  | File =>
      if negb (emode e =? fileMode File (emode e)) then Some FileMode
      else if esize e <? 0 then Some FileSize
      else if negb (validHash (ehash e)) then Some FileHash
      else if (maxGrew <? length (egrew e))%nat then Some GrownPrefixes
      else if forallb (grown_ok (esize e)) (egrew e) then None else Some GrownPrefix
  | Dir =>
      if negb (emode e =? fileMode Dir (emode e)) then Some DirMode else None
  | Symlink =>
      if String.eqb (etarget e) "" || (maxTarget <? String.length (etarget e))%nat
         || contains_byte (etarget e) nul then Some SymlinkTarget else None
  | OtherKind _ => Some UnknownKind
  end.

(** ** Paths *)

Definition validPath (name : string) : bool :=
  negb (String.eqb name ".") && fs_ValidPath name && negb (contains_byte name nul).

(** The loop of ancestors: the folders from [dir] upwards, deepest first. It
    stops at "."; [ancestors_unfold] shows the fuel [ancestors] gives it is
    enough for every valid path. *)
Fixpoint dirs_up (fuel : nat) (dir : string) : list string :=
  match fuel with
  | O => []
  | S f => if String.eqb dir "." then [] else dir :: dirs_up f (path_Dir dir)
  end.

Definition ancestors (name : string) : list string :=
  reverse (dirs_up (S (String.length name)) (path_Dir name)).

Definition within (name folder : string) : bool :=
  String.eqb folder "." || String.eqb name folder || HasPrefix name (folder +:+ "/").

(** ** Messages *)

Record SideInfo := MkSideInfo { side_id : string; location : string; loginsOnly : bool }.

Record Change := MkChange { c_path : string; c_base : Z; c_entry : Entry }.

Record Report := MkReport { r_root : string; r_epoch : string; r_changes : list Change }.

Inductive AckStatus := Accepted | Superseded | Deferred | Ignored.

Record Ack := MkAck { a_path : string; a_rev : Z; a_status : AckStatus; a_entry : Entry }.

Record Reply := MkReply { reply_epoch : string; reply_acks : list Ack }.

Record Held := MkHeld { held_path : string; held_rev : Z; held_entry : Entry }.

Record RootHello := MkRootHello { rh_root : string; rh_epoch : string; rh_held : list Held }.

Inductive Lane := LaneAuto | LanePriority | LaneNormal | LaneBulk.

#[export] Instance Lane_eq_dec : EqDecision Lane.
Proof. solve_decision. Defined.
#[export] Instance AckStatus_eq_dec : EqDecision AckStatus.
Proof. solve_decision. Defined.

Definition BulkSize : Z := 2 ^ 20.

Record Op := MkOp { o_path : string; o_rev : Z; o_entry : Entry }.

#[export] Instance Op_eq_dec : EqDecision Op.
Proof. solve_decision. Defined.

Record Batch := MkBatch { b_root : string; b_epoch : string; b_lane : Lane; b_ops : list Op }.

Inductive ResultStatus := Applied | Changed | Stale | NoSpace | Refused | Failed.

#[export] Instance ResultStatus_eq_dec : EqDecision ResultStatus.
Proof. solve_decision. Defined.

Record Result := MkResult { res_path : string; res_rev : Z; res_status : ResultStatus; res_reason : string }.

(** ** The order changes and ops travel in (scan.go: sortChanges, sortOps) *)

Definition cmp_z (a b : Z) : comparison := a ?= b.

(** The comparison both sorts use: deletes first, deepest first; then
    everything else by path, parents first. *)
Definition order_cmp (da db : bool) (pa pb : string) : comparison :=
  if da && negb db then Lt
  else if negb da && db then Gt
  else if da then
    match cmp_z (Count pb slash) (Count pa slash) with
    | Eq => Compare pb pa
    | c => c
    end
  else Compare pa pb.

Section sort_by.
Context {A : Type} (cmp : A -> A -> comparison).

Fixpoint insert_by (x : A) (l : list A) : list A :=
  match l with
  | [] => [x]
  | y :: l' => match cmp x y with
               | Gt => y :: insert_by x l'
               | _ => x :: l
               end
  end.

(** slices.SortFunc, as an insertion sort: the order of elements comparing
    equal is not specified by the library. *)
Definition SortFunc (l : list A) : list A := foldr insert_by [] l.
End sort_by.

Definition sortChanges : list Change -> list Change :=
  SortFunc (fun a b => order_cmp (negb (Live (c_entry a))) (negb (Live (c_entry b))) (c_path a) (c_path b)).

Definition sortOps : list Op -> list Op :=
  SortFunc (fun a b => order_cmp (negb (Live (o_entry a))) (negb (Live (o_entry b))) (o_path a) (o_path b)).

(** ** Lemmas *)

Lemma Live_spec e : Live e = true <-> ekind e <> Gone.
Proof. unfold Live. rewrite negb_true_iff, bool_decide_eq_false. done. Qed.

Lemma Live_false e : Live e = false <-> ekind e = Gone.
Proof. unfold Live. rewrite negb_false_iff, bool_decide_eq_true. done. Qed.

Lemma Same_kind a b : Same a b = true -> ekind a = ekind b.
Proof. unfold Same. case_bool_decide; done. Qed.

Lemma Same_live a b : Same a b = true -> Live a = Live b.
Proof. intros H%Same_kind. unfold Live. by rewrite H. Qed.

Lemma Same_sym a b : Same a b = Same b a.
Proof.
  unfold Same. destruct (decide (ekind a = ekind b)) as [E|E].
  - rewrite !bool_decide_eq_true_2 by done. rewrite E. simpl.
    destruct (ekind b); auto using Z.eqb_sym, String.eqb_sym.
    rewrite (Z.eqb_sym (emode a)), (String.eqb_sym (ehash a)), (Z.eqb_sym (esize a)). done.
  - rewrite !bool_decide_eq_false_2; done.
Qed.

Lemma Same_refl e : check e = None -> Same e e = true.
Proof.
  unfold check, Same. rewrite bool_decide_eq_true_2 by done. simpl.
  destruct (ekind e); intros; rewrite ?Z.eqb_refl, ?String.eqb_refl; done.
Qed.

Lemma Same_trans a b c : Same a b = true -> Same b c = true -> Same a c = true.
Proof.
  intros Hab Hbc. pose proof (Same_kind _ _ Hab) as Ek. pose proof (Same_kind _ _ Hbc) as Ek'.
  revert Hab Hbc. unfold Same. rewrite !bool_decide_eq_true_2 by congruence. simpl. rewrite Ek, Ek'.
  destruct (ekind c); intros; bool_hyps; try done;
    repeat (apply andb_true_intro; split); first [apply Z.eqb_eq | apply String.eqb_eq]; congruence.
Qed.

Lemma check_size e : check e = None -> ekind e = File -> 0 <= esize e.
Proof.
  unfold check. intros H E. rewrite E in H. repeat case_match; try done. bool_hyps. done.
Qed.

(** *** Byte-wise string order *)

Lemma code_inj a b : code a = code b -> a = b.
Proof.
  unfold code. intros H%N2Z.inj.
  rewrite <- (Ascii.ascii_N_embedding a), <- (Ascii.ascii_N_embedding b). by f_equal.
Qed.

Lemma Compare_eq a b : Compare a b = Eq <-> a = b.
Proof.
  split; [|intros ->; induction b as [|y b IH]; simpl; [done|by rewrite Z.compare_refl]].
  revert b. induction a as [|x a IH]; intros [|y b]; simpl; try done.
  destruct (code x ?= code y) eqn:E; try done.
  apply Z.compare_eq in E. intros Hab. by rewrite (code_inj x y E), (IH b Hab).
Qed.

Lemma Compare_antisym a b : Compare b a = CompOpp (Compare a b).
Proof.
  revert b. induction a as [|x a IH]; intros [|y b]; simpl; try done.
  rewrite (Z.compare_antisym (code x) (code y)).
  destruct (code x ?= code y); simpl; auto.
Qed.

Lemma Compare_trans a b c : Compare a b = Lt -> Compare b c = Lt -> Compare a c = Lt.
Proof.
  revert b c. induction a as [|x a IH]; intros [|y b] [|z c]; simpl; try done.
  destruct (Z.compare_spec (code x) (code y)), (Z.compare_spec (code y) (code z)),
    (Z.compare_spec (code x) (code z)); try done; try lia; eauto.
Qed.

(** A folder comes before everything beneath it. *)
Lemma Compare_below a x b : Compare a (a +:+ String x b) = Lt.
Proof. induction a as [|y a IH]; simpl; [done|]. by rewrite Z.compare_refl. Qed.

Lemma Count_app a b c : Count (a +:+ b) c = Count a c + Count b c.
Proof. induction a as [|y a IH]; simpl; [done|]. rewrite IH. lia. Qed.

Lemma Count_nonneg a c : 0 <= Count a c.
Proof. induction a; simpl; [lia|]. case_match; lia. Qed.

(** *** ancestors *)

Lemma dirs_up_fuel n m d :
  valid_elems d = true -> (depth d <= n)%nat -> (depth d <= m)%nat -> dirs_up n d = dirs_up m d.
Proof.
  assert (depth d <> 0%nat) as Hd.
  { unfold depth. pose proof (split_byte_nonempty slash d). by destruct (split_byte slash d). }
  revert m d Hd. induction n as [|n IH]; intros m d Hd Hv Hn Hm; [lia|].
  destruct m as [|m]; [lia|]. simpl. case_match; [done|]. f_equal.
  destruct (path_Dir_cases d Hv) as [Hdot|(Hv' & Hdep & _)].
  - rewrite Hdot. by destruct n, m.
  - destruct (decide (depth (path_Dir d) = 0%nat)) as [Hz|Hz]; [|apply IH; auto; lia].
    exfalso. unfold depth in Hz. by destruct (split_byte_nonempty slash (path_Dir d)), (split_byte slash (path_Dir d)).
Qed.

Lemma ancestors_unfold s :
  valid_elems s = true ->
  ancestors s = if String.eqb (path_Dir s) "." then []
                else ancestors (path_Dir s) ++ [path_Dir s].
Proof.
  intros Hv. unfold ancestors. simpl. case_match eqn:E; [done|].
  rewrite reverse_cons. f_equal. f_equal.
  destruct (path_Dir_cases s Hv) as [Hdot|(Hv' & Hdep & Hnd)]; [by rewrite Hdot in E|].
  pose proof (depth_le_length s). pose proof (depth_le_length (path_Dir s)).
  destruct (path_Dir_cases _ Hv') as [Hdot|(Hv'' & Hdep' & _)].
  - rewrite Hdot. by destruct (String.length s).
  - transitivity (dirs_up (S (String.length (path_Dir s))) (path_Dir (path_Dir s))); [|done].
    apply dirs_up_fuel; [done|lia|lia].
Qed.

(** Induction on the depth of a valid path. *)
Lemma path_ind (P : string -> Prop) :
  (forall s, valid_elems s = true -> path_Dir s = "." -> P s) ->
  (forall s, valid_elems s = true -> valid_elems (path_Dir s) = true -> path_Dir s <> "." ->
             P (path_Dir s) -> P s) ->
  forall s, valid_elems s = true -> P s.
Proof.
  intros Htop Hstep s. remember (depth s) as n eqn:En. revert s En.
  induction n as [n IH] using lt_wf_ind. intros s -> Hv.
  destruct (path_Dir_cases s Hv) as [Hdot|(Hv' & Hdep & Hnd)]; [by apply Htop|].
  apply Hstep; auto. eapply IH; [|done|done]. lia.
Qed.

Lemma ancestors_valid s a :
  valid_elems s = true -> a ∈ ancestors s -> valid_elems a = true /\ (depth a < depth s)%nat.
Proof.
  intros Hv. revert a. pattern s. revert s Hv.
  apply path_ind; [intros s Hv Hdot a | intros s Hv Hv' Hnd IH a];
    rewrite ancestors_unfold by done.
  - rewrite Hdot. simpl. by intros ?%elem_of_nil.
  - rewrite (proj2 (String.eqb_neq _ _)) by done.
    destruct (path_Dir_cases s Hv) as [?|(_ & Hdep & _)]; [done|].
    intros [Ha| ->%list_elem_of_singleton]%elem_of_app; [|by split; [|lia]].
    destruct (IH a Ha). split; [done|lia].
Qed.

Lemma validPath_elems p : validPath p = true -> valid_elems p = true.
Proof.
  unfold validPath, fs_ValidPath. intros H. bool_hyps.
  match goal with H : _ || _ = true |- _ => apply orb_true_iff in H as [E|E] end; [|done].
  apply String.eqb_eq in E. congruence.
Qed.

(** A valid string cut at an ASCII byte is valid. *)
Lemma ValidString_before a b : ValidString (a +:+ String slash b) = true -> ValidString a = true.
Proof.
  remember (String.length a) as n eqn:En. revert a En.
  induction n as [n IH] using lt_wf_ind. intros a -> Hv.
  assert (forall c, second_ok c (code slash) = false) as Hs.
  { intros c. unfold second_ok. repeat case_match; done. }
  destruct a as [|x a1]; [done|]. cbn [String.append] in Hv. cbn [ValidString] in *.
  destruct (code x <? 128); [by eapply (IH (String.length a1)); [simpl; lia|..]|].
  destruct a1 as [|y a2]; cbn [String.append] in Hv.
  { repeat case_match; rewrite ?Hs in Hv; simpl in Hv; rewrite ?andb_false_r in Hv; done. }
  destruct (in_range 194 223 (code x)).
  { bool_hyps. rewrite H. simpl. by eapply (IH (String.length a2)); [simpl; lia|..]. }
  destruct a2 as [|z a3]; cbn [String.append] in Hv.
  { repeat case_match; simpl in Hv; rewrite ?andb_false_r in Hv; done. }
  destruct (in_range 224 239 (code x)).
  { bool_hyps. rewrite H, H1. simpl. by eapply (IH (String.length a3)); [simpl; lia|..]. }
  destruct a3 as [|w a4]; cbn [String.append] in Hv.
  { simpl in Hv. rewrite ?andb_false_r in Hv. done. }
  bool_hyps. rewrite H, H1, H2, H3. simpl. by eapply (IH (String.length a4)); [simpl; lia|..].
Qed.

Lemma Join_snoc ds x : ds <> [] -> Join (ds ++ [x]) "/" = Join ds "/" +:+ "/" +:+ x.
Proof.
  induction ds as [|d ds IH]; [done|]. intros _. destruct ds as [|d' ds]; [done|].
  cbn [app]. rewrite (Join_cons d (d' :: ds)), Join_cons by done. cbn [app] in IH. rewrite IH by done.
  by rewrite !append_assoc.
Qed.

(** The folder of a path the engine accepts is the root or such a path. *)
Lemma validPath_Dir s : validPath s = true -> path_Dir s <> "." -> validPath (path_Dir s) = true.
Proof.
  intros Hv Hnd. pose proof (validPath_elems s Hv) as He.
  destruct (path_Dir_cases s He) as [?|(He' & _)]; [done|].
  assert (exists x, s = path_Dir s +:+ String slash x) as [x Hx].
  { pose proof (join_split slash s) as Hj. rewrite path_Dir_elems in Hnd |- * by done.
    rewrite (app_removelast_last "" (split_byte_nonempty slash s)) in Hj.
    destruct (removelast (split_byte slash s)) as [|d ds] eqn:E; [done|].
    eexists. rewrite <- Hj at 1. by apply Join_snoc. }
  unfold validPath, fs_ValidPath in *. bool_hyps. rewrite He', orb_true_r, andb_true_r.
  rewrite Hx in H0, H1. rewrite (ValidString_before _ _ H1), andb_true_r.
  rewrite contains_byte_app in H0. bool_hyps. rewrite H0.
  rewrite (proj2 (String.eqb_neq _ _)) by done. done.
Qed.

Lemma ancestors_validPath s a : validPath s = true -> a ∈ ancestors s -> validPath a = true.
Proof.
  intros Hv. pose proof (validPath_elems s Hv) as He. revert Hv. revert a. pattern s. revert s He.
  apply path_ind.
  - intros s He Hd a _. rewrite ancestors_unfold by done. rewrite Hd. by intros ?%elem_of_nil.
  - intros s He He' Hnd IH a Hv. rewrite ancestors_unfold by done. rewrite (proj2 (String.eqb_neq _ _)) by done.
    pose proof (validPath_Dir s Hv Hnd). intros [Ha| ->%list_elem_of_singleton]%elem_of_app; eauto.
Qed.

#[export] Hint Resolve validPath_elems Same_live : fleet.

(** *** The travel order *)

Definition before {A} (l : list A) (x y : A) : Prop :=
  exists l1 l2 l3, l = l1 ++ x :: l2 ++ y :: l3.

Section sort_lemmas.
Context {A : Type} (cmp : A -> A -> comparison).
Hypothesis cmp_antisym : forall x y, cmp y x = CompOpp (cmp x y).
Hypothesis cmp_trans : forall x y z, cmp x y <> Gt -> cmp y z <> Gt -> cmp x z <> Gt.

Lemma insert_by_perm x l : insert_by cmp x l ≡ₚ x :: l.
Proof.
  induction l as [|y l IH]; simpl; [done|]. destruct (cmp x y); try done.
  rewrite IH. apply Permutation_swap.
Qed.

Lemma SortFunc_perm l : SortFunc cmp l ≡ₚ l.
Proof. induction l as [|x l IH]; simpl; [done|]. by rewrite insert_by_perm, IH. Qed.

Lemma insert_by_sorted x l :
  StronglySorted (fun a b => cmp a b <> Gt) l -> StronglySorted (fun a b => cmp a b <> Gt) (insert_by cmp x l).
Proof.
  induction l as [|y l IH]; intros Hl; [by repeat constructor|].
  inversion Hl as [|?? Hs Hf]; subst. simpl. destruct (cmp x y) eqn:E.
  1,2: constructor; [done|]; constructor; [by rewrite E|];
       eapply List.Forall_impl; [|exact Hf]; intros z Hz; eapply cmp_trans; [|exact Hz]; by rewrite E.
  constructor; [by apply IH|]. rewrite insert_by_perm. constructor; [|done].
  rewrite cmp_antisym, E. done.
Qed.

Lemma SortFunc_sorted l : StronglySorted (fun a b => cmp a b <> Gt) (SortFunc cmp l).
Proof. induction l as [|x l IH]; simpl; [constructor|]. by apply insert_by_sorted. Qed.

Lemma StronglySorted_before l x y :
  StronglySorted (fun a b => cmp a b <> Gt) l -> before l x y -> cmp x y <> Gt.
Proof.
  intros Hs (l1 & l2 & l3 & ->). induction l1 as [|z l1 IH]; simpl in Hs; inversion Hs as [|?? Hs' Hf]; subst.
  - rewrite List.Forall_forall in Hf. apply Hf. rewrite in_app_iff. simpl. auto.
  - by apply IH.
Qed.

Lemma two_before (l : list A) x y : x ∈ l -> y ∈ l -> x <> y -> before l x y \/ before l y x.
Proof.
  intros (l1 & l2 & ->)%list_elem_of_split. rewrite elem_of_app, elem_of_cons.
  intros [Hy|[->|Hy]] Hne; [right|done|left].
  - apply list_elem_of_split in Hy as (m1 & m2 & ->). exists m1, m2, l2. by rewrite <- app_assoc.
  - apply list_elem_of_split in Hy as (m1 & m2 & ->). by exists l1, m1, m2.
Qed.

Lemma SortFunc_before l x y : x ∈ l -> y ∈ l -> cmp x y = Lt -> before (SortFunc cmp l) x y.
Proof.
  intros Hx Hy Hlt.
  destruct (two_before (SortFunc cmp l) x y) as [?|Hb]; [by rewrite SortFunc_perm..| |done|].
  - intros ->. specialize (cmp_antisym y y). rewrite Hlt in cmp_antisym. done.
  - apply StronglySorted_before in Hb; [|apply SortFunc_sorted].
    rewrite cmp_antisym, Hlt in Hb. done.
Qed.
End sort_lemmas.

Lemma order_cmp_antisym da db pa pb : order_cmp db da pb pa = CompOpp (order_cmp da db pa pb).
Proof.
  unfold order_cmp, cmp_z. destruct da, db; simpl; try done; [|apply Compare_antisym].
  rewrite (Z.compare_antisym (Count pb slash) (Count pa slash)).
  destruct (Count pb slash ?= Count pa slash); simpl; auto using Compare_antisym.
Qed.

Lemma Compare_trans_le a b c : Compare a b <> Gt -> Compare b c <> Gt -> Compare a c <> Gt.
Proof.
  intros Hab Hbc.
  destruct (Compare a b) eqn:E; [apply Compare_eq in E; by subst| |done].
  destruct (Compare b c) eqn:E'; [apply Compare_eq in E'; subst; by rewrite E| |done].
  by rewrite (Compare_trans a b c).
Qed.

Lemma order_cmp_trans da db dc pa pb pc :
  order_cmp da db pa pb <> Gt -> order_cmp db dc pb pc <> Gt -> order_cmp da dc pa pc <> Gt.
Proof.
  unfold order_cmp, cmp_z. destruct da, db, dc; simpl; try done; [|apply Compare_trans_le].
  destruct (Z.compare_spec (Count pb slash) (Count pa slash)),
    (Z.compare_spec (Count pc slash) (Count pb slash)),
    (Z.compare_spec (Count pc slash) (Count pa slash)); try done; try lia.
  intros. eapply Compare_trans_le; eauto.
Qed.

(** [below b a]: the path [b] lies beneath the folder [a]. *)
Definition below (b a : string) : Prop := exists rest, b = a +:+ String slash rest.

(** When one change must travel before another: a delete before anything that
    is there, the content of a folder deleted before the folder, a folder
    before what is put in it. *)
Definition must_precede (ea eb : Entry) (pa pb : string) : Prop :=
  (Live ea = false /\ Live eb = true) \/
  (Live ea = true /\ Live eb = true /\ below pb pa) \/
  (Live ea = false /\ Live eb = false /\ below pa pb).

Lemma must_precede_lt ea eb pa pb :
  must_precede ea eb pa pb -> order_cmp (negb (Live ea)) (negb (Live eb)) pa pb = Lt.
Proof.
  unfold order_cmp, cmp_z.
  intros [(-> & ->)|[(-> & -> & rest & ->)|(-> & -> & rest & ->)]]; simpl; [done|apply Compare_below|].
  rewrite Count_app. simpl.
  pose proof (Count_nonneg rest slash).
  rewrite (proj2 (Z.compare_lt_iff _ _)) by lia. done.
Qed.

(** What a batch carries arrives in an order that can be applied: whatever
    must come first does (every delete before every write, a folder's content
    deleted before the folder, a folder written before what goes into it), and
    nothing is lost or made up by the sorting. *)
Theorem sortOps_applicable ops :
  sortOps ops ≡ₚ ops /\
  forall a b, a ∈ ops -> b ∈ ops -> must_precede (o_entry a) (o_entry b) (o_path a) (o_path b) ->
    before (sortOps ops) a b.
Proof.
  split; [apply SortFunc_perm|]. intros a b Ha Hb Hm%must_precede_lt. apply SortFunc_before; try done.
  - intros. apply order_cmp_antisym.
  - intros x y z. apply order_cmp_trans.
Qed.
