(* ===== verification/Paths.v ===== *)
(** * Paths (internal/sharesync/entry.go: ancestors, within)

    How the folders above a path, the folder it is in and the paths below a
    folder relate. *)

From S2P Require Import Prelude GoStrings GoText Entry.
Local Open Scope string_scope.
Local Open Scope Z_scope.
Local Open Scope list_scope.

Lemma below_trans a b c : below c b -> below b a -> below c a.
Proof. intros [x ->] [y ->]. exists (y +:+ String slash x). by rewrite append_assoc. Qed.

Lemma HasPrefix_below s a : HasPrefix s (a +:+ "/") = true <-> below s a.
Proof.
  unfold HasPrefix, below. revert s. induction a as [|x a IH]; intros s.
  - destruct s as [|y s]; [split; [discriminate|by intros [r Hr]]|]. change (String.prefix ("" +:+ "/") (String y s)) with (if ascii_dec slash y then String.prefix "" s else false).
    destruct (ascii_dec slash y) as [<-|Hne].
    + split; [intros _; by exists s|]. intros _. by destruct s.
    + split; [discriminate|]. intros [r [= Hr _]]. by destruct Hne.
  - destruct s as [|y s]; [split; [discriminate|by intros [r Hr]]|]. cbn [String.append String.prefix]. destruct (ascii_dec x y) as [->|Hne].
    + rewrite IH. split; intros [r Hr]; exists r; congruence.
    + split; [discriminate|]. intros [r [= Hr _]]. by destruct Hne.
Qed.

Lemma within_spec q p : within q p = true <-> p = "." \/ q = p \/ below q p.
Proof.
  unfold within. rewrite !orb_true_iff, HasPrefix_below. destruct (String.eqb_spec p "."), (String.eqb_spec q p); naive_solver.
Qed.

Lemma parent_below s : valid_elems s = true -> path_Dir s = "." \/ below s (path_Dir s).
Proof.
  intros Hv. rewrite path_Dir_elems by done. pose proof (join_split slash s) as Hj.
  rewrite (app_removelast_last "" (split_byte_nonempty slash s)) in Hj.
  destruct (removelast (split_byte slash s)) as [|d ds]; [by left|]. right. exists (List.last (split_byte slash s) "").
  rewrite <- Hj at 1. by rewrite (Join_snoc (d :: ds)) by done.
Qed.

Lemma parent_ancestor s : valid_elems s = true -> path_Dir s = "." \/ path_Dir s ∈ ancestors s.
Proof.
  intros Hv. rewrite ancestors_unfold by done.
  destruct (String.eqb_spec (path_Dir s) "."); [by left|]. right. apply elem_of_app. right. by left.
Qed.

Lemma split_below a rest : split_byte slash (a +:+ String slash rest) = split_byte slash a ++ split_byte slash rest.
Proof.
  induction a as [|x a IH]; [done|]. simpl. rewrite IH. destruct (ascii_eqb x slash); [done|].
  pose proof (split_byte_nonempty slash a). by destruct (split_byte slash a).
Qed.

Lemma below_elems s a : valid_elems s = true -> below s a -> valid_elems a = true.
Proof. intros Hv [rest ->]. rewrite valid_elems_spec in *. rewrite split_below in Hv. by apply Forall_app in Hv as [? _]. Qed.

(** Going up from [s] below [a], one comes to [a]. *)
Lemma below_parent s a : valid_elems s = true -> below s a -> path_Dir s <> "." /\ (path_Dir s = a \/ below (path_Dir s) a).
Proof.
  intros Hv Hb. pose proof (below_elems s a Hv Hb) as Ha. destruct Hb as [rest ->]. rewrite path_Dir_elems, split_below by done.
  rewrite removelast_app by apply split_byte_nonempty. pose proof (split_byte_nonempty slash a) as Hne. pose proof (join_split slash a) as Hj.
  change (String slash "") with "/" in Hj. destruct (removelast (split_byte slash rest)) as [|d ds] eqn:E.
  - rewrite app_nil_r. destruct (split_byte slash a) as [|x xs]; [done|]. rewrite Hj. split; [by apply valid_elems_not_dot|by left].
  - assert (forall xs, xs <> [] -> Join (xs ++ d :: ds) "/" = Join xs "/" +:+ String slash (Join (d :: ds) "/")) as HJ.
    { intros xs. induction xs as [|x xs IH]; [done|]. intros _. destruct xs as [|x' xs]; [apply Join_cons; done|]. cbn [app]. rewrite (Join_cons x (x' :: _)) by done.
      cbn [app] in IH. rewrite IH by done. rewrite (Join_cons x (x' :: xs)) by done. by rewrite !append_assoc. }
    specialize (HJ (split_byte slash a) Hne). rewrite Hj in HJ.
    destruct (split_byte slash a ++ d :: ds) as [|y ys] eqn:El; [by destruct (split_byte slash a)|]. rewrite HJ. split; [|right; by eexists].
    intros Heq. destruct a as [|? [|? ?]]; [by apply valid_elems_spec, Forall_cons in Ha as [Ha _]|by destruct (Join (d :: ds) "/")|done].
Qed.

Lemma ancestors_below s a : valid_elems s = true -> a ∈ ancestors s <-> below s a.
Proof.
  intros Hv. split.
  - revert s Hv. apply (path_ind (fun s => a ∈ ancestors s -> below s a)).
    + intros s Hv Hd. rewrite ancestors_unfold, Hd by done. by intros ?%elem_of_nil.
    + intros s Hv Hv' Hnd IH. rewrite ancestors_unfold, (proj2 (String.eqb_neq _ _)) by done. destruct (parent_below s Hv) as [?|Hb]; [done|].
      intros [Ha| ->%list_elem_of_singleton]%elem_of_app; [|done]. eapply below_trans; [done|auto].
  - revert s Hv. apply (path_ind (fun s => below s a -> a ∈ ancestors s)).
    + intros s Hv Hd Hb. by destruct (below_parent s a Hv Hb).
    + intros s Hv Hv' Hnd IH Hb. destruct (below_parent s a Hv Hb) as [_ Hc]. rewrite ancestors_unfold, (proj2 (String.eqb_neq _ _)) by done.
      apply elem_of_app. destruct Hc as [->|Hc]; [right; by apply list_elem_of_singleton|left; auto].
Qed.

Lemma below_irrefl s : ~ below s s.
Proof. intros [r Hr]. apply (f_equal String.length) in Hr. rewrite length_append_s in Hr. simpl in Hr. lia. Qed.

Lemma below_length s a : below s a -> (String.length a < String.length s)%nat.
Proof. intros [r ->]. rewrite length_append_s. simpl. lia. Qed.

Lemma within_ancestor q p : valid_elems q = true -> p <> "." -> within q p = true <-> q = p \/ p ∈ ancestors q.
Proof. intros Hv Hp. rewrite within_spec, ancestors_below by done. naive_solver. Qed.

Lemma within_trans a b c : within a b = true -> within b c = true -> within a c = true.
Proof.
  rewrite !within_spec. intros [->|[->|H1]] [->|[->|H2]]; eauto using below_trans. right.
  destruct H2 as [r Hr]. apply (f_equal String.length) in Hr as Hl. rewrite length_append_s in Hl. simpl in Hl.
  destruct c; [|simpl in Hl; lia]. simpl in Hr. by injection Hr.
Qed.

Lemma within_refl a : within a a = true.
Proof. apply within_spec. auto. Qed.

#[export] Hint Resolve below_trans within_refl : fleet.

(** The folders above a path, from the top down. *)
Definition chain (l : list string) : Prop :=
  forall l1 a l2, l = l1 ++ a :: l2 -> path_Dir a = "." \/ path_Dir a ∈ l1.

Lemma chain_snoc l a : chain l -> (path_Dir a = "." \/ path_Dir a ∈ l) -> chain (l ++ [a]).
Proof.
  intros Hl Ha l1 x l2 E. destruct l2 as [|y l2 _] using rev_ind.
  - apply app_inj_tail in E as [-> ->]. done.
  - rewrite app_comm_cons, app_assoc in E. apply app_inj_tail in E as [-> _]. by eapply Hl.
Qed.

Lemma ancestors_chain s : valid_elems s = true -> chain (ancestors s).
Proof.
  revert s. apply path_ind.
  - intros s Hv Hd. rewrite ancestors_unfold, Hd by done. intros l1 a l2. by destruct l1.
  - intros s Hv Hv' Hnd IH. rewrite ancestors_unfold, (proj2 (String.eqb_neq _ _)) by done.
    apply chain_snoc; [done|]. by apply parent_ancestor.
Qed.

(** ** Joining *)

Lemma Clean_valid s : valid_elems s = true -> Clean s = s.
Proof.
  intros Hv. apply valid_elems_spec in Hv as Hs. pose proof (split_elems_clean slash s) as Hc. pose proof (split_byte_nonempty slash s) as Hne.
  pose proof (join_split slash s) as Hj. change (String slash "") with "/" in Hj. destruct (Join_rooted _ Hne Hs Hc) as (Hr & Hn & _). rewrite Hj in Hr, Hn.
  unfold Clean. rewrite Hr, (clean_fold_ok _ (split_byte slash s)) by done. rewrite app_nil_r, reverse_involutive, Hj.
  by rewrite (proj2 (String.eqb_neq s "")).
Qed.

Lemma path_Join_top x : valid_elems x = true -> path_Join "." x = x.
Proof.
  intros Hv. unfold path_Join. rewrite filter_cons_True by done. assert (x <> "") by (by intros ->). rewrite filter_cons_True by done. cbn [filter list_filter Join String.concat].
  change ("." +:+ "/" +:+ x) with (String "."%char (String slash x)).
  apply valid_elems_spec in Hv as Hs. pose proof (split_elems_clean slash x) as Hc. pose proof (join_split slash x) as Hj. change (String slash "") with "/" in Hj.
  unfold Clean. change (split_byte slash (String "."%char (String slash x))) with ("." :: split_byte slash x). cbn [foldl].
  change (clean_step _ [] ".") with (@nil string). change (rooted _) with false at 1. rewrite (clean_fold_ok _ (split_byte slash x)) by done. rewrite app_nil_r, reverse_involutive, Hj.
  change (rooted _) with false. by rewrite (proj2 (String.eqb_neq x "")).
Qed.

Lemma valid_elems_app a b : valid_elems (a +:+ String slash b) = valid_elems a && valid_elems b.
Proof. unfold valid_elems. by rewrite split_below, forallb_app. Qed.

Lemma path_Join_below d x : valid_elems d = true -> valid_elems x = true -> path_Join d x = d +:+ String slash x.
Proof.
  intros Hd Hx. unfold path_Join. assert (d <> "") by (by intros ->). assert (x <> "") by (by intros ->).
  rewrite !filter_cons_True by done. cbn [filter list_filter Join String.concat].
  change (d +:+ "/" +:+ x) with (d +:+ String slash x). apply Clean_valid. by rewrite valid_elems_app, Hd, Hx.
Qed.

(** A name put in a folder is in that folder. *)
Lemma path_Join_elem d x :
  d = "." \/ valid_elems d = true -> elem_ok x = true -> contains_byte x slash = false ->
  valid_elems (path_Join d x) = true /\ path_Dir (path_Join d x) = d.
Proof.
  intros Hd Hx Hc. assert (split_byte slash x = [x]) as Es by (by apply split_byte_none).
  assert (valid_elems x = true) as Hv by (unfold valid_elems; rewrite Es; simpl; by rewrite Hx). destruct Hd as [->|Hd].
  - rewrite path_Join_top by done. split; [done|]. by rewrite path_Dir_elems, Es.
  - rewrite path_Join_below by done. assert (valid_elems (d +:+ String slash x) = true) as Hj by (by rewrite valid_elems_app, Hd, Hv). split; [done|].
    rewrite path_Dir_elems, split_below, Es, removelast_app by done. cbn [removelast]. rewrite app_nil_r.
    pose proof (split_byte_nonempty slash d). pose proof (join_split slash d) as Hjd. change (String slash "") with "/" in Hjd. by destruct (split_byte slash d).
Qed.
