(* ===== verification/SyncPolicy.v ===== *)
(** * The sync policy table (internal/mounts/syncpolicy)

    Which policy converges each path of a fleet's shared folders: the roots,
    their rules in order, the pattern language, and the default table. Go's
    path.Match, which matches one path element, is modelled as the standard
    library implements it ([path_Match]). *)

From S2P Require Import Prelude GoStrings Entry.
Local Open Scope string_scope.
Local Open Scope Z_scope.
Local Open Scope list_scope.

(** ** path.Match *)

Module PathMatch.

Definition star : ascii := "*"%char.
Definition backslash : ascii := byte 92.
Definition lbracket : ascii := "["%char.
Definition rbracket : ascii := "]"%char.

Fixpoint drop_stars (p : string) : bool * string :=
  match p with
  | String c p' => if ascii_eqb c star then (true, snd (drop_stars p')) else (false, p)
  | EmptyString => (false, "")
  end.

(** The chunk up to the next star outside a character class, and the rest. *)
Fixpoint scan (p : string) (inrange : bool) : string * string :=
  match p with
  | EmptyString => ("", "")
  | String c p' =>
      if ascii_eqb c backslash then
        match p' with
        | EmptyString => (String c "", "")
        | String d p'' => let '(ch, r) := scan p'' inrange in (String c (String d ch), r)
        end
      else if ascii_eqb c star && negb inrange then ("", p)
      else
        let inrange' := if ascii_eqb c lbracket then true
                        else if ascii_eqb c rbracket then false else inrange in
        let '(ch, r) := scan p' inrange' in (String c ch, r)
  end.

Definition scanChunk (p : string) : bool * string * string :=
  let '(st, p') := drop_stars p in
  let '(ch, r) := scan p' false in (st, ch, r).

(** getEsc: a possibly escaped rune of a character class, [None] for
    ErrBadPattern. *)
Definition getEsc (chunk : string) : option (Z * string) :=
  match chunk with
  | EmptyString => None
  | String c chunk' =>
      if ascii_eqb c "-"%char || ascii_eqb c rbracket then None
      else
        let body := if ascii_eqb c backslash then chunk' else chunk in
        if String.eqb body "" then None
        else
          let '(r, n) := DecodeRune body in
          let rest := drop_bytes n body in
          if ((r =? RuneError) && (n =? 1)%nat) || String.eqb rest "" then None
          else Some (r, rest)
  end.

(** The ranges of a character class, after its '[' and '^': the chunk after
    the closing bracket and whether [r] is in a range. *)
Fixpoint class_ranges (fuel : nat) (chunk : string) (r : Z) (first matched : bool) : option (string * bool) :=
  match fuel with
  | O => None
  | S f =>
      let closing := match chunk with
                     | String c chunk' => if ascii_eqb c rbracket && negb first then Some chunk' else None
                     | EmptyString => None
                     end in
      match closing with
      | Some chunk' => Some (chunk', matched)
      | None =>
          match getEsc chunk with
          | None => None
          | Some (lo, chunk1) =>
              let hi := match chunk1 with
                        | String c chunk2 => if ascii_eqb c "-"%char then getEsc chunk2 else Some (lo, chunk1)
                        | EmptyString => Some (lo, chunk1)
                        end in
              match hi with
              | None => None
              | Some (hi, chunk3) =>
                  class_ranges f chunk3 r false (matched || ((lo <=? r) && (r <=? hi)))
              end
          end
      end
  end.

Inductive outcome := BadPattern | NoMatch | MatchRest (rest : string).

(** matchChunk: after a mismatch it goes on only to check the pattern. *)
Fixpoint matchChunk (fuel : nat) (chunk s : string) (failed : bool) : outcome :=
  match fuel with
  | O => BadPattern
  | S f =>
      match chunk with
      | EmptyString => if failed then NoMatch else MatchRest s
      | String c chunk' =>
          let failed := failed || String.eqb s "" in
          if ascii_eqb c lbracket then
            let '(r, n) := if failed then (0, 0%nat) else DecodeRune s in
            let s' := drop_bytes n s in
            let '(negated, chunk1) :=
              match chunk' with
              | String d chunk'' => if ascii_eqb d "^"%char then (true, chunk'') else (false, chunk')
              | EmptyString => (false, chunk')
              end in
            match class_ranges (S (String.length chunk1)) chunk1 r true false with
            | None => BadPattern
            | Some (chunk2, matched) => matchChunk f chunk2 s' (failed || Bool.eqb matched negated)
            end
          else if ascii_eqb c "?"%char then
            if failed then matchChunk f chunk' s true
            else matchChunk f chunk' (drop_bytes (snd (DecodeRune s)) s)
                   (match s with String a _ => ascii_eqb a slash | EmptyString => false end)
          else
            let lit := if ascii_eqb c backslash then chunk' else chunk in
            match lit with
            | EmptyString => BadPattern
            | String d lit' =>
                if failed then matchChunk f lit' s true
                else match s with
                     | String a s' => matchChunk f lit' s' (negb (ascii_eqb d a))
                     | EmptyString => matchChunk f lit' s true
                     end
            end
      end
  end.

Definition match_chunk (chunk s : string) : outcome :=
  matchChunk (S (String.length chunk)) chunk s false.

(** The star's search: the chunk after skipping one or more bytes, never a
    slash; the last chunk must exhaust the name. *)
Fixpoint star_search (chunk : string) (last : bool) (name : string) : option string :=
  match name with
  | EmptyString => None
  | String a name' =>
      if ascii_eqb a slash then None
      else match match_chunk chunk name' with
           | BadPattern => None
           | MatchRest t => if last && negb (String.eqb t "") then star_search chunk last name' else Some t
           | NoMatch => star_search chunk last name'
           end
  end.

Fixpoint match_loop (fuel : nat) (pattern name : string) : bool :=
  match fuel with
  | O => false
  | S f =>
      if String.eqb pattern "" then String.eqb name ""
      else
        let '(st, chunk, rest) := scanChunk pattern in
        if st && String.eqb chunk "" then negb (contains_byte name slash)
        else
          let last := String.eqb rest "" in
          match match_chunk chunk name with
          | BadPattern => false
          | o =>
              let here := match o with
                          | MatchRest t => if String.eqb t "" || negb last then Some t else None
                          | _ => None
                          end in
              match here with
              | Some t => match_loop f rest t
              | None =>
                  if st then match star_search chunk last name with
                             | Some t => match_loop f rest t
                             | None => false
                             end
                  else false
              end
          end
  end.

(** path.Match returned true and no error. Each round of the loop consumes at
    least one byte of the pattern. *)
Definition path_Match (pattern name : string) : bool :=
  match_loop (S (String.length pattern)) pattern name.

End PathMatch.
Export PathMatch (path_Match).

(** ** Policies, rules and roots *)

Inductive Policy : Type :=
| Unset
| Mirror
| Credential
| JSON3
| TOML3
| AppendUnion
| LocationLocal.

#[export] Instance Policy_eq_dec : EqDecision Policy.
Proof. solve_decision. Defined.

Definition Policy_String (p : Policy) : string :=
  match p with
  | Mirror => "mirror"
  | Credential => "credential"
  | JSON3 => "json3"
  | TOML3 => "toml3"
  | AppendUnion => "append-union"
  | LocationLocal => "location-local"
  | Unset => "unset"
  end.

Record Rule := MkRule { r_pattern : string; r_policy : Policy }.

Record SizeWarning := MkSizeWarning { w_pattern : string; w_size : Z }.

Record Root := MkRoot {
  root_path : string;
  root_tool : string;
  root_rules : list Rule;
  root_default : Policy;
  root_cap : Z;
  root_warnings : list SizeWarning
}.

(** A table is its roots, in order. *)
Definition Table : Type := list Root.

(** match: a "**" element matches any number of path elements. *)
Fixpoint match_elems (pattern elems : list string) : bool :=
  match pattern with
  | [] => match elems with [] => true | _ => false end
  | p :: ps =>
      if String.eqb p "**" then
        (fix skip (es : list string) : bool :=
           match_elems ps es || match es with [] => false | _ :: es' => skip es' end) elems
      else
        match elems with
        | [] => false
        | e :: es => path_Match p e && match_elems ps es
        end
  end.

Definition SizeWarning_Matches (w : SizeWarning) (name : string) : bool :=
  if String.eqb name "." || String.eqb name "" then false
  else match_elems (split_byte slash (w_pattern w)) (split_byte slash name).

Definition RuleFor (r : Root) (name : string) : option Rule :=
  if String.eqb name "." || String.eqb name "" then None
  else let elems := split_byte slash name in
       find (fun rule => match_elems (split_byte slash (r_pattern rule)) elems) (root_rules r).

Definition Root_PolicyFor (r : Root) (name : string) : Policy :=
  match RuleFor r name with
  | Some rule => r_policy rule
  | None => root_default r
  end.

(** within: name relative to folder, when it is the folder or below it. *)
Definition rel_within (name folder : string) : option string :=
  if String.eqb name folder then Some "."
  else CutPrefix name (folder +:+ "/").

Definition Table_Root (t : Table) (name : string) : option (Root * string) :=
  foldl (fun best candidate =>
           match rel_within name (root_path candidate) with
           | Some rest =>
               match best with
               | Some (root, _) =>
                   if (String.length (root_path root) <? String.length (root_path candidate))%nat
                   then Some (candidate, rest) else best
               | None => Some (candidate, rest)
               end
           | None => best
           end) None t.

Definition Table_PolicyFor (t : Table) (name : string) : option Policy :=
  match Table_Root t name with
  | Some (root, inner) => Some (Root_PolicyFor root inner)
  | None => None
  end.

Definition hasMeta (pattern : string) : bool := ContainsAny pattern (bytes_of [42; 63; 91; 92]).

Definition Credentials (t : Table) : list string :=
  flat_map (fun root =>
    omap (fun rule =>
            if bool_decide (r_policy rule = Credential) && negb (hasMeta (r_pattern rule))
            then Some (path_Join (root_path root) (r_pattern rule)) else None)
         (root_rules root)) t.

(** ** The default table (defaults.go) *)

Definition mib : Z := 2 ^ 20.
Definition gib : Z := 2 ^ 30.

Definition agentLocal : list Rule :=
  [ MkRule "downloads/**" LocationLocal;
    MkRule "sessions/**" LocationLocal;
    MkRule "daemon/**" LocationLocal;
    MkRule "packages/**" LocationLocal;
    MkRule "**/*.lock" LocationLocal ].

Definition agentRules (own : list Rule) : list Rule := own ++ agentLocal.

Definition defaultRoots : Table :=
  [ MkRoot ".claude" "Claude Code"
      (agentRules [ MkRule ".credentials.json" Credential;
                    MkRule "settings.json" JSON3;
                    MkRule "history.jsonl" AppendUnion;
                    MkRule "projects/**" Mirror ])
      Mirror (8 * gib) [MkSizeWarning "projects/**" (2 * gib)];
    MkRoot ".codex" "Codex"
      (agentRules [ MkRule "auth.json" Credential;
                    MkRule "config.toml" TOML3;
                    MkRule "history.jsonl" AppendUnion;
                    MkRule "**/*.sqlite*" LocationLocal;
                    MkRule "**/app-server-*" LocationLocal ])
      Mirror (4 * gib) [];
    MkRoot ".config/gh" "GitHub CLI"
      (agentRules [ MkRule "hosts.yml" Credential ]) Mirror (64 * mib) [];
    MkRoot ".augment" "Auggie"
      (agentRules [ MkRule "session.json" Credential ]) Mirror (2 * gib) [];
    MkRoot "files" ""
      [ MkRule ".claude.json" JSON3; MkRule "claude-settings.local.json" JSON3 ]
      Mirror (64 * mib) [];
    MkRoot ".mnt" "" [] Mirror 0 [];
    MkRoot ".hostbind" "" [] Mirror 0 [] ].

Definition Defaults : Table := defaultRoots.

(** ** Properties *)

(** What a pattern means: element by element, "**" standing for any number of
    elements. *)
Inductive Matches : list string -> list string -> Prop :=
| Matches_nil : Matches [] []
| Matches_elem p ps e es :
    p <> "**" -> path_Match p e = true -> Matches ps es -> Matches (p :: ps) (e :: es)
| Matches_skip ps skipped es : Matches ps es -> Matches ("**" :: ps) (skipped ++ es).

Lemma match_elems_star ps es :
  match_elems ("**" :: ps) es = true <-> exists skipped rest, es = skipped ++ rest /\ match_elems ps rest = true.
Proof.
  simpl. split.
  - induction es as [|e es IH]; rewrite orb_true_iff.
    + intros [H|?]; [by exists [], []|done].
    + intros [H|H]; [by exists [], (e :: es)|].
      destruct (IH H) as (sk & rest & -> & Hm). by exists (e :: sk), rest.
  - intros (sk & rest & -> & Hm). induction sk as [|e sk IH]; simpl.
    + destruct rest; by rewrite Hm.
    + apply orb_true_iff. by right.
Qed.

(** The matcher of the sync policy table decides its pattern language:
    patterns match element by element, and a "**" element matches any number
    of path elements, none included. *)
Theorem match_elems_spec pattern elems :
  match_elems pattern elems = true <-> Matches pattern elems.
Proof.
  revert elems. induction pattern as [|p ps IH]; intros es.
  - destruct es; simpl; split; intros H; try done; [constructor|inversion H].
  - destruct (decide (p = "**")) as [->|Hp].
    + rewrite match_elems_star. split.
      * intros (sk & rest & -> & Hm). constructor. by apply IH.
      * intros H. inversion H; subst; [done|]. do 2 eexists. split; [done|]. by apply IH.
    + simpl. rewrite (proj2 (String.eqb_neq _ _)) by done.
      destruct es as [|e es]; [split; intros H; [done|inversion H; subst; done]|].
      rewrite andb_true_iff, IH. split; [intros []; by constructor|].
      intros H. inversion H; subst; [done|]. done.
Qed.

(** *** The deepest root *)

Definition covers (r : Root) (name : string) : Prop := is_Some (rel_within name (root_path r)).

Definition root_step (name : string) (best : option (Root * string)) (candidate : Root) : option (Root * string) :=
  match rel_within name (root_path candidate) with
  | Some rest =>
      match best with
      | Some (root, _) =>
          if (String.length (root_path root) <? String.length (root_path candidate))%nat
          then Some (candidate, rest) else best
      | None => Some (candidate, rest)
      end
  | None => best
  end.

Lemma Table_Root_fold t name : Table_Root t name = foldl (root_step name) None t.
Proof. reflexivity. Qed.

Lemma root_step_deepest name (seen : list Root) best c :
  (forall root inner, best = Some (root, inner) ->
     root ∈ seen /\ rel_within name (root_path root) = Some inner /\
     forall r, r ∈ seen -> covers r name -> (String.length (root_path r) <= String.length (root_path root))%nat) ->
  (best = None -> forall r, r ∈ seen -> ~ covers r name) ->
  (forall root inner, root_step name best c = Some (root, inner) ->
     root ∈ seen ++ [c] /\ rel_within name (root_path root) = Some inner /\
     forall r, r ∈ seen ++ [c] -> covers r name -> (String.length (root_path r) <= String.length (root_path root))%nat)
  /\ (root_step name best c = None -> forall r, r ∈ seen ++ [c] -> ~ covers r name).
Proof.
  intros Hb Hn. unfold root_step.
  setoid_rewrite elem_of_app. setoid_rewrite list_elem_of_singleton.
  destruct (rel_within name (root_path c)) as [rest|] eqn:Hc.
  - assert (covers c name) as Hcov by (unfold covers; rewrite Hc; eauto).
    destruct best as [[b ib]|].
    + destruct (Hb _ _ eq_refl) as (Hin & Hrel & Hmax).
      destruct (Nat.ltb_spec (String.length (root_path b)) (String.length (root_path c)));
        (split; [|done]); intros root inner [= <- <-]; split_and!; auto;
        intros r [Hr| ->] Hcr; auto; specialize (Hmax r Hr Hcr); lia.
    + split; [|done]. intros root inner [= <- <-]. split_and!; auto.
      intros r [Hr| ->] Hcr; [by destruct (Hn eq_refl r Hr)|done].
  - assert (~ covers c name) as Hcov by (unfold covers; rewrite Hc; by intros [? ?]).
    split.
    + intros root inner ->. destruct (Hb _ _ eq_refl) as (Hin & Hrel & Hmax). split_and!; auto.
      intros r [Hr| ->] Hcr; auto. done.
    + intros -> r [Hr| ->]; auto.
Qed.

Lemma Table_Root_spec t name :
  (forall root inner, Table_Root t name = Some (root, inner) ->
     root ∈ t /\ rel_within name (root_path root) = Some inner /\
     forall r, r ∈ t -> covers r name -> (String.length (root_path r) <= String.length (root_path root))%nat)
  /\ (Table_Root t name = None -> forall r, r ∈ t -> ~ covers r name).
Proof.
  rewrite Table_Root_fold. induction t as [|c t IH] using rev_ind.
  - simpl. split; [done|]. by intros _ r ?%elem_of_nil.
  - rewrite foldl_app. simpl. destruct IH. by apply root_step_deepest.
Qed.

(** A path belongs to the deepest root of the table that contains it, and
    to none exactly when no root contains it. *)
Theorem Table_Root_deepest t name :
  match Table_Root t name with
  | Some (root, inner) =>
      root ∈ t /\ rel_within name (root_path root) = Some inner /\
      forall r, r ∈ t -> covers r name -> (String.length (root_path r) <= String.length (root_path root))%nat
  | None => forall r, r ∈ t -> ~ covers r name
  end.
Proof.
  destruct (Table_Root_spec t name) as [HS HN].
  destruct (Table_Root t name) as [[root inner]|]; auto.
Qed.

(** *** Plain patterns *)

(** A byte path.Match takes literally. *)
Definition plain_byte (c : ascii) : bool :=
  negb (contains_byte (bytes_of [42; 63; 91; 92; 93]) c).
Fixpoint plain (s : string) : bool :=
  match s with EmptyString => true | String c s' => plain_byte c && plain s' end.

Lemma plain_byte_spec c :
  plain_byte c = true ->
  ascii_eqb c PathMatch.star = false /\ ascii_eqb c PathMatch.backslash = false /\
  ascii_eqb c PathMatch.lbracket = false /\ ascii_eqb c PathMatch.rbracket = false /\
  ascii_eqb c "?"%char = false.
Proof. destruct c as [[] [] [] [] [] [] [] []]; vm_compute; intros; split_and!; congruence. Qed.

Lemma scan_plain p b : plain p = true -> PathMatch.scan p b = (p, "").
Proof.
  revert b. induction p as [|c p IH]; intros b; [done|]. simpl. intros [Hc Hp]%andb_true_iff.
  destruct (plain_byte_spec c Hc) as (-> & -> & -> & -> & _). simpl. by rewrite IH.
Qed.

Lemma matchChunk_failed p s fuel :
  plain p = true -> (String.length p < fuel)%nat -> PathMatch.matchChunk fuel p s true = PathMatch.NoMatch.
Proof.
  revert fuel. induction p as [|c p IH]; intros [|fuel] Hp Hf; simpl in *; try lia; [done|].
  apply andb_true_iff in Hp as [Hc Hp].
  destruct (plain_byte_spec c Hc) as (_ & -> & -> & _ & ->). apply IH; [done|lia].
Qed.

Lemma matchChunk_plain p s fuel :
  plain p = true -> (String.length p < fuel)%nat ->
  PathMatch.matchChunk fuel p s false =
    match CutPrefix s p with Some t => PathMatch.MatchRest t | None => PathMatch.NoMatch end.
Proof.
  revert s fuel. induction p as [|c p IH]; intros s [|fuel] Hp Hf; simpl in *; try lia; [by destruct s|].
  apply andb_true_iff in Hp as [Hc Hp].
  destruct (plain_byte_spec c Hc) as (_ & -> & -> & _ & ->).
  destruct s as [|a s]; simpl; [apply matchChunk_failed; [done|lia]|].
  destruct (ascii_eqb c a); simpl; [apply IH; [done|lia]|apply matchChunk_failed; [done|lia]].
Qed.

Lemma CutPrefix_exact s p : CutPrefix s p = Some "" <-> s = p.
Proof.
  revert s. induction p as [|c p IH]; intros [|a s]; simpl; try (split; congruence).
  destruct (ascii_eqb c a) eqn:E; [apply ascii_eqb_eq in E as ->; rewrite IH; split; congruence|].
  split; [done|]. intros [= -> ->]. by rewrite ascii_eqb_refl in E.
Qed.

(** A pattern element without wildcards matches exactly itself. *)
Lemma path_Match_plain p e : plain p = true -> p <> "" -> path_Match p e = true <-> p = e.
Proof.
  intros Hp Hne. unfold path_Match. cbn [PathMatch.match_loop].
  rewrite (proj2 (String.eqb_neq _ _)) by done.
  unfold PathMatch.scanChunk.
  assert (PathMatch.drop_stars p = (false, p)) as ->.
  { destruct p as [|c p]; [done|]. simpl in *. apply andb_true_iff in Hp as [Hc _].
    by destruct (plain_byte_spec c Hc) as (-> & _). }
  rewrite scan_plain by done. simpl.
  unfold PathMatch.match_chunk. rewrite matchChunk_plain by (done || lia).
  destruct (CutPrefix e p) as [t|] eqn:Ec.
  - destruct (String.eqb_spec t "") as [->|Ht]; simpl.
    + apply CutPrefix_exact in Ec as ->. destruct (String.length p) eqn:El; [by destruct p|]. done.
    + split; [done|]. intros ->. rewrite (proj2 (CutPrefix_exact e e)) in Ec; congruence.
  - split; [done|]. intros ->. rewrite (proj2 (CutPrefix_exact e e)) in Ec; congruence.
Qed.

Lemma CutPrefix_app s p t : CutPrefix s p = Some t -> s = p +:+ t.
Proof.
  revert s. induction p as [|c p IH]; intros [|a s]; simpl; try done; try (by intros [= ->]).
  destruct (ascii_eqb c a) eqn:E; [|done].
  apply ascii_eqb_eq in E as ->. intros H. simpl. f_equal. by apply IH.
Qed.

Lemma rel_within_app name folder inner :
  rel_within name folder = Some inner -> inner <> "." -> name = folder +:+ "/" +:+ inner.
Proof.
  unfold rel_within. case_match eqn:E; [by intros [= <-]|].
  intros H%CutPrefix_app _. rewrite H. by rewrite append_assoc.
Qed.

(** A single plain pattern element matches the path it spells, nothing else. *)
Lemma match_elems_single p name :
  plain p = true -> p <> "" -> p <> "**" ->
  match_elems [p] (split_byte slash name) = true -> name = p.
Proof.
  intros Hp Hne Hss. simpl. rewrite (proj2 (String.eqb_neq _ _)) by done.
  destruct (split_byte slash name) as [|e [|e' es]] eqn:Es; [done| |by rewrite andb_false_r].
  rewrite andb_true_r. intros ->%path_Match_plain; [|done..].
  rewrite <- (join_split slash name), Es. done.
Qed.

(** The credential rule of a root, when it is the only one and plain. *)
Lemma credential_rule r name p :
  root_default r <> Credential ->
  (forall rule, rule ∈ root_rules r -> r_policy rule = Credential -> r_pattern rule = p) ->
  plain p = true -> p <> "" -> split_byte slash p = [p] -> p <> "**" ->
  Root_PolicyFor r name = Credential -> name = p.
Proof.
  intros Hd Hr Hp Hne Hsp Hss. unfold Root_PolicyFor, RuleFor.
  destruct (_ || _); [congruence|].
  destruct (find _ _) as [rule|] eqn:Hf; [|congruence].
  apply find_some in Hf as [Hin Hm]. intros Hc.
  rewrite (Hr rule) in Hm; [|by apply list_elem_of_In|done].
  rewrite Hsp in Hm. by apply match_elems_single in Hm.
Qed.

Lemma no_credential_rule r name :
  root_default r <> Credential ->
  Forall (fun rule => r_policy rule <> Credential) (root_rules r) ->
  Root_PolicyFor r name <> Credential.
Proof.
  intros Hd Hr. unfold Root_PolicyFor, RuleFor. destruct (_ || _); [congruence|].
  destruct (find _ _) as [rule|] eqn:Hf; [|congruence].
  apply find_some in Hf as [Hin _]. rewrite List.Forall_forall in Hr. by apply Hr.
Qed.

(** The rule of a list that is the only credential. *)
Ltac only_credential :=
  let Hin := fresh in
  intros ? Hin; unfold agentRules, agentLocal in Hin; simpl in Hin;
  repeat (apply elem_of_cons in Hin as [->|Hin]; [first [done | (intros; reflexivity)]|]);
  by apply elem_of_nil in Hin.

Ltac login Hname Hpol q :=
  apply (credential_rule _ _ q) in Hpol; [|done|only_credential|done..];
  rewrite (Hname _ Hpol) by done; apply list_elem_of_In; vm_compute; tauto.
Ltac no_login Hpol := exfalso; revert Hpol; apply no_credential_rule; [done|by repeat constructor].

Lemma defaults_cover_logins root inner name :
  root ∈ Defaults -> rel_within name (root_path root) = Some inner ->
  Root_PolicyFor root inner = Credential -> name ∈ Credentials Defaults.
Proof.
  intros Hin Hrel Hpol.
  assert (forall p, inner = p -> p <> "." -> name = root_path root +:+ "/" +:+ p) as Hname.
  { intros p -> ?. by apply rel_within_app. }
  unfold Defaults, defaultRoots in Hin.
  repeat (apply elem_of_cons in Hin as [->|Hin]); [..|by apply elem_of_nil in Hin].
  - login Hname Hpol ".credentials.json".
  - login Hname Hpol "auth.json".
  - login Hname Hpol "hosts.yml".
  - login Hname Hpol "session.json".
  - no_login Hpol.
  - no_login Hpol.
  - no_login Hpol.
Qed.

(** In the default table the credential policy (one login per location,
    never crossing to another) applies to exactly the login files the table
    names, and every agent tool's root names one: no other file is kept per
    location, and no login falls through to mirror. *)
Theorem defaults_logins_exact name :
  (Table_PolicyFor Defaults name = Some Credential <-> name ∈ Credentials Defaults) /\
  (forall root, root ∈ Defaults -> root_tool root <> "" ->
     exists rule, rule ∈ root_rules root /\ r_policy rule = Credential /\
       Table_PolicyFor Defaults (path_Join (root_path root) (r_pattern rule)) = Some Credential).
Proof.
  split; [split|].
  - unfold Table_PolicyFor. pose proof (Table_Root_spec Defaults name) as [HS _].
    destruct (Table_Root Defaults name) as [[root inner]|]; [|done]. intros [= Hc].
    destruct (HS _ _ eq_refl) as (Hin & Hrel & _). by eapply defaults_cover_logins.
  - intros Hin%list_elem_of_In. vm_compute in Hin.
    repeat (destruct Hin as [<-|Hin]; [reflexivity|]). done.
  - intros root Hin Htool. unfold Defaults, defaultRoots in Hin.
    repeat (apply elem_of_cons in Hin as [->|Hin];
      [first [done | eexists; split; [apply elem_of_cons; left; reflexivity | split; reflexivity]]|]).
    by apply elem_of_nil in Hin.
Qed.
