(* ===== verification/Mergers.v ===== *)
(** * Merge policies: mirror and append-union
      (internal/sharesync/policy.go, mirror.go, appendunion.go)

    What a policy decides of one reported change. A version's content is
    fetched on demand; the outcome of the fetch is part of the version
    ([v_open]), so every error path of a policy can be exercised. *)

From S2P Require Import Prelude GoStrings GoText Sha256 Entry.
Local Open Scope string_scope.
Local Open Scope Z_scope.
Local Open Scope list_scope.

(** ** policy.go *)

Inductive Scope := ScopeFleet | ScopeLocation.

#[export] Instance Scope_eq_dec : EqDecision Scope.
Proof. solve_decision. Defined.

(** The errors of errors.go that a merge can return, and a failed fetch. *)
Inductive sync_error :=
| ErrStale
| ErrTooLarge
| ErrNoSource
| ErrIncomplete
| ErrNoSpace
| ErrFetch
| ErrWrite
| ErrUndecided.

#[export] Instance sync_error_eq_dec : EqDecision sync_error.
Proof. solve_decision. Defined.

Definition MaxMergeSize : Z := 16 * 2 ^ 20.

Record Version := MkVersion {
  v_entry : Entry;
  v_rev : Z;
  v_side : string;
  v_open : option (result sync_error string) (* open and read: None is a nil open *)
}.

(** Version.Content. io.LimitReader(rc, MaxMergeSize+1) shortens only content
    longer than any size that gets here, which then still differs from it. *)
Definition Content (v : Version) : result sync_error string :=
  if negb (bool_decide (ekind (v_entry v) = File)) then Ok ""
  else if MaxMergeSize <? esize (v_entry v) then Err ErrTooLarge
  else match v_open v with
       | None => Err ErrNoSource
       | Some (Err e) => Err e
       | Some (Ok data) =>
           if negb (Z.of_nat (String.length data) =? esize (v_entry v)) then Err ErrStale else Ok data
       end.

Record MergeInput := MkMergeInput {
  in_root : string;
  in_path : string;
  in_side : SideInfo;
  in_fast : bool;
  in_baseRev : Z;
  in_current : option Version;
  in_incoming : Version;
  in_base : option (result sync_error (option string)) (* the base func; None is nil *)
}.

(** MergeInput.Base: [Ok None] is (nil, false, nil). *)
Definition Base (inp : MergeInput) : result sync_error (option string) :=
  match in_base inp with
  | None => Ok None
  | Some r => r
  end.

Inductive Decision := Undecided | Accept | Keep | Merged.

#[export] Instance Decision_eq_dec : EqDecision Decision.
Proof. solve_decision. Defined.

Record MergeResult := MkMergeResult {
  decision : Decision;
  m_content : string;
  conflict : bool;
  reason : string
}.

Definition decided (d : Decision) (c : bool) (r : string) : MergeResult := MkMergeResult d "" c r.

(** The Merger interface. *)
Record Merger := MkMerger {
  m_scope : Scope;
  m_lane : Lane;
  m_history : nat;
  m_merge : MergeInput -> result sync_error MergeResult
}.

(** What the hub relies on of a policy: it merges only a file with a file, and
    always decides. *)
Class MergerLaws (m : Merger) : Prop := {
  merged_file : forall inp r, m_merge m inp = Ok r -> decision r = Merged ->
    ekind (v_entry (in_incoming inp)) = File /\
    exists cur, in_current inp = Some cur /\ ekind (v_entry cur) = File;
  always_decides : forall inp r, m_merge m inp = Ok r -> decision r <> Undecided
}.

(** ** mirror.go *)

(** The first comparison that tells the two apart. *)
Definition then_by (c d : comparison) : comparison := match c with Eq => d | _ => c end.

(** newer: by modification time, then by content. *)
Definition newer_cmp (a b : Entry) : comparison :=
  then_by (emtime a ?= emtime b)
    (then_by (kind_code (ekind a) ?= kind_code (ekind b))
       (then_by (Compare (ehash a) (ehash b))
          (then_by (Compare (etarget a) (etarget b)) (emode a ?= emode b)))).

Definition newer (a b : Entry) : bool :=
  match newer_cmp a b with Gt => true | _ => false end.

Definition newestWins (inp : MergeInput) : MergeResult :=
  let id := side_id (in_side inp) in
  match in_fast inp, in_current inp with
  | true, _ | _, None => decided Accept false ""
  | false, Some cv =>
      let cur := v_entry cv in
      let inc := v_entry (in_incoming inp) in
      if negb (Live inc) then
        decided Keep false ("a delete from " +:+ id +:+ " that had not seen a newer change")
      else if negb (Live cur) then
        decided Accept false ("a change from " +:+ id +:+ " made after a delete it had not seen")
      else if newer inc cur then
        decided Accept true ("a newer change from " +:+ id)
      else decided Keep true ("an older change from " +:+ id)
  end.

Definition MirrorPolicy : Merger :=
  MkMerger ScopeFleet LaneAuto 0 (fun inp => Ok (newestWins inp)).

(** ** appendunion.go *)

Fixpoint last_byte (s : string) : option ascii :=
  match s with
  | EmptyString => None
  | String a EmptyString => Some a
  | String _ s' => last_byte s'
  end.

(** bytes.TrimSuffix(data, "\n"). *)
Fixpoint trim_newline (s : string) : string :=
  match s with
  | EmptyString => ""
  | String a EmptyString => if ascii_eqb a nl then "" else s
  | String a s' => String a (trim_newline s')
  end.

Definition splitLines (data : string) : list string * bool :=
  match last_byte data with
  | None => ([], false)
  | Some c => (split_byte nl (trim_newline data), negb (ascii_eqb c nl))
  end.

(** completedBy, with the index test of its loop as "this is the last". *)
Fixpoint completedBy (tail : string) (others : list string) (othersOpen : bool) : bool :=
  match others with
  | [] => false
  | line :: rest =>
      let last := match rest with [] => true | _ => false end in
      if HasPrefix line tail
         && ((String.length tail <? String.length line)%nat || negb (othersOpen && last))
      then true
      else completedBy tail rest othersOpen
  end.

Definition have_count (have : gmap string Z) (line : string) : Z := default 0 (have !! line).

Fixpoint count_lines (ls : list string) : gmap string Z :=
  match ls with
  | [] => ∅
  | line :: ls' => let m := count_lines ls' in <[line := have_count m line + 1]> m
  end.

(** The loop over the other copy's lines: the lines to add, and whether the
    last one added is the copy's unfinished last line. *)
Fixpoint extra_lines (have : gmap string Z) (lb : list string) (bOpen : bool) : list string * bool :=
  match lb with
  | [] => ([], false)
  | line :: lb' =>
      if 0 <? have_count have line then
        extra_lines (<[line := have_count have line - 1]> have) lb' bOpen
      else
        let '(extra, o) := extra_lines have lb' bOpen in
        (line :: extra,
         match extra, lb' with
         | [], [] => bOpen
         | [], _ => false
         | _, _ => o
         end)
  end.

Fixpoint write_lines (lines : list string) (open : bool) : string :=
  match lines with
  | [] => ""
  | [line] => if open then line else line +:+ String nl ""
  | line :: rest => line +:+ String nl (write_lines rest open)
  end.

(** The lines of the two copies, each without an unfinished last line that the
    other holds completed; the last component is "dropped". *)
Definition kept_lines (a b : string) : (list string * bool) * (list string * bool) * bool :=
  let '(la, aOpen) := splitLines a in
  let '(lb, bOpen) := splitLines b in
  let dropped := aOpen && completedBy (List.last la "") lb bOpen in
  let '(la, aOpen) := if dropped then (removelast la, false) else (la, aOpen) in
  let '(lb, bOpen) := if bOpen && completedBy (List.last lb "") la aOpen
                      then (removelast lb, false) else (lb, bOpen) in
  ((la, aOpen), (lb, bOpen), dropped).

Definition unionLines (a b : string) : string :=
  let '((la, aOpen), (lb, bOpen), dropped) := kept_lines a b in
  let '(extra, extraOpen) := extra_lines (count_lines la) lb bOpen in
  match extra, dropped with
  | [], false => a
  | _, _ =>
      let open := extraOpen || (aOpen && match extra with [] => true | _ => false end) in
      write_lines (la ++ extra) open
  end.

(** A fetch that fails for size falls back to mirror; any other failure is the
    merge's. *)
Definition or_mirror (inp : MergeInput) (r : result sync_error string)
    (k : string -> result sync_error MergeResult) : result sync_error MergeResult :=
  match r with
  | Err ErrTooLarge => Ok (newestWins inp)
  | Err e => Err e
  | Ok data => k data
  end.

Definition AppendUnion_Merge (inp : MergeInput) : result sync_error MergeResult :=
  match in_fast inp, in_current inp with
  | true, _ | _, None => Ok (decided Accept false "")
  | false, Some cv =>
      if negb (bool_decide (ekind (v_entry cv) = File))
         || negb (bool_decide (ekind (v_entry (in_incoming inp)) = File))
      then Ok (newestWins inp)
      else
        or_mirror inp (Content cv) (fun current =>
        or_mirror inp (Content (in_incoming inp)) (fun incoming =>
          let merged := unionLines current incoming in
          let why := "lines from " +:+ side_id (in_side inp) +:+ " merged" in
          if String.eqb merged current then Ok (decided Keep false why)
          else if String.eqb merged incoming then Ok (decided Accept false why)
          else Ok (MkMergeResult Merged merged false why)))
  end.

Definition AppendUnionPolicy : Merger :=
  MkMerger ScopeFleet LaneAuto 0 AppendUnion_Merge.

(** ** Properties of mirror *)

(** Three-way comparisons of a total preorder: [c1], [c2] and [c3] compare x
    with y, y with z and x with z. *)
Definition coherent (c1 c2 c3 : comparison) : Prop :=
  (c1 = Gt -> c2 <> Lt -> c3 = Gt) /\
  (c1 <> Lt -> c2 = Gt -> c3 = Gt) /\
  (c1 = Eq -> c2 = Eq -> c3 = Eq).

(** Comparing by one key and then by another is coherent when both are. *)
Lemma coherent_then c1 c2 c3 d1 d2 d3 :
  coherent c1 c2 c3 -> coherent d1 d2 d3 ->
  coherent (then_by c1 d1) (then_by c2 d2) (then_by c3 d3).
Proof.
  intros (H1 & H2 & H3) (K1 & K2 & K3). unfold coherent, then_by.
  destruct c1, c2; try rewrite H3 by done; try rewrite H2 by done; try rewrite H1 by done;
    split_and!; try done; destruct c3; naive_solver.
Qed.

Lemma Z_coherent a b c : coherent (a ?= b) (b ?= c) (a ?= c).
Proof.
  unfold coherent. rewrite !Z.compare_eq_iff, !Z.compare_gt_iff, !Z.compare_nlt_iff. lia.
Qed.

Lemma Compare_coherent a b c : coherent (Compare a b) (Compare b c) (Compare a c).
Proof.
  assert (forall x y, Compare x y = Gt <-> Compare y x = Lt) as Hgt.
  { intros x y. rewrite (Compare_antisym x y). by destruct (Compare x y). }
  assert (forall x y, Compare x y <> Lt -> x = y \/ Compare y x = Lt) as Hnl.
  { intros x y. rewrite <- (Hgt x y), <- Compare_eq. destruct (Compare x y); naive_solver. }
  unfold coherent. rewrite !Hgt. split_and!.
  - intros H1 [->|H2]%Hnl; [done|]. by eapply Compare_trans.
  - intros [->|H1]%Hnl H2; [done|]. by eapply Compare_trans.
  - rewrite !Compare_eq. congruence.
Qed.

Lemma newer_cmp_coherent a b c : coherent (newer_cmp a b) (newer_cmp b c) (newer_cmp a c).
Proof.
  do 4 (apply coherent_then; [auto using Z_coherent, Compare_coherent|]). apply Z_coherent.
Qed.

Lemma newer_cmp_antisym a b : newer_cmp b a = CompOpp (newer_cmp a b).
Proof.
  unfold newer_cmp.
  rewrite (Z.compare_antisym (emtime a)), (Z.compare_antisym (kind_code (ekind a))),
    (Z.compare_antisym (emode a)), (Compare_antisym (ehash a)), (Compare_antisym (etarget a)).
  destruct (emtime a ?= emtime b), (kind_code (ekind a) ?= kind_code (ekind b)),
    (Compare (ehash a) (ehash b)), (Compare (etarget a) (etarget b)); done.
Qed.

Lemma newer_Gt a b : newer a b = true <-> newer_cmp a b = Gt.
Proof. unfold newer. by destruct (newer_cmp a b). Qed.

Lemma newer_irrefl a : newer a a = false.
Proof.
  apply not_true_iff_false. rewrite newer_Gt. intros E.
  pose proof (newer_cmp_antisym a a) as E'. rewrite E in E'. done.
Qed.

Lemma newer_asym a b : newer a b = true -> newer b a = false.
Proof.
  rewrite newer_Gt. intros E. unfold newer. by rewrite (newer_cmp_antisym a b), E.
Qed.

Lemma newer_trans a b c : newer a b = true -> newer b c = true -> newer a c = true.
Proof.
  rewrite !newer_Gt. destruct (newer_cmp_coherent a b c) as (H & _ & _).
  intros E1 E2. apply H; [done|]. by rewrite E2.
Qed.

(** Not being newer is transitive: ties are consistent. *)
Lemma newer_negtrans a b c : newer a b = false -> newer b c = false -> newer a c = false.
Proof.
  rewrite <- !not_true_iff_false, !newer_Gt. intros E1 E2 E3. apply E2.
  destruct (newer_cmp_coherent b a c) as (_ & H & _). apply H; [|done].
  rewrite (newer_cmp_antisym a b). by destruct (newer_cmp a b).
Qed.

(** The entry that stands once a change meets the current state. *)
Definition survivor (cur : Entry) (inp : MergeInput) (r : MergeResult) : Entry :=
  match decision r with
  | Keep => cur
  | _ => v_entry (in_incoming inp)
  end.

(** A change from [side] made without seeing [cur]. *)
Definition concurrent (side : SideInfo) (path : string) (cur inc : Entry) : MergeInput :=
  MkMergeInput "" path side false 0 (Some (MkVersion cur 0 "" None)) (MkVersion inc 0 (side_id side) None) None.

(** Mirror's verdict on live entries arriving one after the other, none having
    seen the ones before it. *)
Definition arrivals (side : SideInfo) (path : string) (first : Entry) (rest : list Entry) : Entry :=
  foldl (fun cur inc =>
           let inp := concurrent side path cur inc in survivor cur inp (newestWins inp))
        first rest.

Lemma newestWins_live side path cur inc :
  Live cur = true -> Live inc = true ->
  survivor cur (concurrent side path cur inc) (newestWins (concurrent side path cur inc)) =
  if newer inc cur then inc else cur.
Proof.
  intros Hc Hi. unfold newestWins, survivor. simpl. rewrite Hc, Hi. simpl.
  by destruct (newer inc cur).
Qed.

(** What stands is one of the arrivals, and none of them is newer. *)
Lemma arrivals_max side path first rest :
  Live first = true -> Forall (fun e => Live e = true) rest ->
  arrivals side path first rest ∈ first :: rest /\
  forall e, e ∈ first :: rest -> newer e (arrivals side path first rest) = false.
Proof.
  revert first. induction rest as [|x rest IH]; intros first Hf Hr.
  - unfold arrivals. simpl. split; [by left|].
    intros e ->%list_elem_of_singleton. apply newer_irrefl.
  - inversion Hr as [|?? Hx Hr']; subst.
    assert (arrivals side path first (x :: rest) =
            arrivals side path (if newer x first then x else first) rest) as ->.
    { unfold arrivals. cbn [foldl]. by rewrite newestWins_live. }
    destruct (newer x first) eqn:E.
    + destruct (IH x Hx Hr') as [Hin Hmax]. split; [by right|].
      intros e [->|He]%elem_of_cons; [|by apply Hmax].
      eapply newer_negtrans; [by apply newer_asym|]. apply Hmax. by left.
    + destruct (IH first Hf Hr') as [Hin Hmax]. split.
      * apply elem_of_cons in Hin as [->|?]; [by left|by right; right].
      * intros e [->|[->|He]%elem_of_cons]%elem_of_cons; [apply Hmax; by left| |apply Hmax; by right].
        eapply newer_negtrans; [exact E|]. apply Hmax. by left.
Qed.

(** Mirror is independent of the order in which concurrent changes arrive:
    the same set of live changes, none of which saw another, leaves the same
    entry standing whichever came first, as long as the newer order tells the
    changes apart. *)
Theorem mirror_order_independent side path first rest first' rest' :
  Forall (fun e => Live e = true) (first :: rest) ->
  first :: rest ≡ₚ first' :: rest' ->
  (forall x y, x ∈ first :: rest -> y ∈ first :: rest -> newer_cmp x y = Eq -> x = y) ->
  arrivals side path first rest = arrivals side path first' rest'.
Proof.
  intros Hl Hp Hinj.
  assert (Forall (fun e => Live e = true) (first' :: rest')) as Hl' by (by rewrite <- Hp).
  inversion Hl; inversion Hl'; subst.
  destruct (arrivals_max side path first rest) as [Hin Hmax]; [done..|].
  destruct (arrivals_max side path first' rest') as [Hin' Hmax']; [done..|].
  rewrite <- Hp in Hin'. apply Hinj; [done..|].
  specialize (Hmax _ Hin'). rewrite Hp in Hin. specialize (Hmax' _ Hin).
  rewrite <- not_true_iff_false, newer_Gt in Hmax, Hmax'.
  rewrite newer_cmp_antisym in Hmax. by destruct (newer_cmp (arrivals _ _ _ _) _).
Qed.

(** Under mirror a delete never wins over a change it did not see, and a
    change is never dropped silently: the side that loses to a concurrent live
    change has its version kept as a conflict copy. *)
Lemma mirror_never_loses_an_edit inp cv :
  in_fast inp = false -> in_current inp = Some cv -> Live (v_entry cv) = true ->
  let r := newestWins inp in
  (Live (v_entry (in_incoming inp)) = false -> decision r = Keep) /\
  (Live (v_entry (in_incoming inp)) = true -> conflict r = true).
Proof.
  intros Hf Hc Hl. unfold newestWins. rewrite Hf, Hc, Hl. simpl.
  split; intros ->; simpl; [done|]. by destruct (newer _ _).
Qed.

(** ** Properties of append-union *)

(** How often a line occurs. *)
Definition occ (ls : list string) (l : string) : Z :=
  Z.of_nat (length (filter (fun x => x = l) ls)).

Lemma occ_cons x ls l : occ (x :: ls) l = (if decide (x = l) then 1 else 0) + occ ls l.
Proof. unfold occ. rewrite filter_cons. case_decide; simpl; lia. Qed.

Lemma occ_app l1 l2 l : occ (l1 ++ l2) l = occ l1 l + occ l2 l.
Proof. unfold occ. rewrite filter_app, length_app. lia. Qed.

Lemma occ_nonneg ls l : 0 <= occ ls l.
Proof. unfold occ. lia. Qed.

Lemma occ_pos ls l : 0 < occ ls l <-> l ∈ ls.
Proof.
  induction ls as [|x ls IH]; [split; [done|by intros ?%elem_of_nil]|].
  rewrite occ_cons, elem_of_cons, <- IH. pose proof (occ_nonneg ls l).
  case_decide; [subst; split; [auto|lia]|]. split; [right; lia|]. intros [->|?]; [done|lia].
Qed.

Lemma have_count_lines ls l : have_count (count_lines ls) l = occ ls l.
Proof.
  unfold have_count. induction ls as [|x ls IH]; [done|].
  rewrite occ_cons. simpl. rewrite lookup_insert.
  case_decide; simpl; [|rewrite IH; lia]. subst. unfold have_count. rewrite IH. lia.
Qed.

(** The lines added make up exactly what is missing. *)
Lemma occ_extra have lb o l :
  (forall x, 0 <= have_count have x) ->
  occ (extra_lines have lb o).1 l = Z.max 0 (occ lb l - have_count have l).
Proof.
  revert have. induction lb as [|x lb IH]; intros have Hh; simpl.
  { pose proof (Hh l). unfold occ. simpl. lia. }
  rewrite occ_cons. pose proof (occ_nonneg lb l). destruct (Z.ltb_spec 0 (have_count have x)).
  - rewrite IH.
    + unfold have_count at 1. rewrite lookup_insert. case_decide as E; simpl.
      * subst. lia.
      * fold (have_count have l). lia.
    + intros y. unfold have_count at 1. rewrite lookup_insert. case_decide; simpl; [lia|]. apply Hh.
  - destruct (extra_lines have lb o) as [extra eo] eqn:E. simpl. rewrite occ_cons.
    specialize (IH have Hh). rewrite E in IH. simpl in IH. rewrite IH.
    case_decide; [subst|lia]. pose proof (Hh l). lia.
Qed.

(** *** Writing lines and splitting them again *)

Lemma write_lines_join ls o :
  ls <> [] -> write_lines ls o = Join ls (String nl "") +:+ (if o then "" else String nl "").
Proof.
  induction ls as [|x ls IH]; [done|]. intros _.
  destruct ls as [|y ls]; [destruct o; simpl; by rewrite ?append_nil_r|].
  change (write_lines (x :: y :: ls) o) with (x +:+ String nl (write_lines (y :: ls) o)).
  rewrite IH by done. rewrite (Join_cons x) by done. by rewrite !append_assoc.
Qed.

Lemma last_byte_app s c : last_byte (s +:+ String c "") = Some c.
Proof. induction s as [|a s IH]; [done|]. simpl. rewrite IH. by destruct s. Qed.

Lemma trim_newline_app s : trim_newline (s +:+ String nl "") = s.
Proof.
  induction s as [|a s IH]; [done|]. simpl. rewrite IH.
  destruct (s +:+ String nl "") eqn:E; [by destruct s|done].
Qed.

Lemma last_byte_append a b c : last_byte b = Some c -> last_byte (a +:+ b) = Some c.
Proof.
  intros Hb. induction a as [|x a IH]; [done|]. simpl. rewrite IH.
  destruct (a +:+ b) eqn:E; [by destruct a, b|done].
Qed.

Lemma last_byte_none c s :
  contains_byte s c = false -> s <> "" -> exists d, last_byte s = Some d /\ ascii_eqb d c = false.
Proof.
  induction s as [|a s IH]; [done|]. simpl. intros [Ha Hs]%orb_false_iff _.
  destruct s as [|b s]; [eauto|]. by apply IH.
Qed.

Lemma last_byte_empty s : last_byte s = None -> s = "".
Proof. induction s as [|a s IH]; [done|]. destruct s as [|b s]; [done|]. intros E. change (last_byte (String b s) = None) in E. by specialize (IH E). Qed.

Lemma trim_newline_nl s : last_byte s = Some nl -> s = trim_newline s +:+ String nl "".
Proof.
  induction s as [|a s IH]; [done|]. destruct s as [|b s]; [by intros [= ->]|]. intros E. change (String a (String b s) = String a (trim_newline (String b s)) +:+ String nl ""). simpl. by rewrite IH at 1.
Qed.

Lemma trim_newline_other s d : last_byte s = Some d -> ascii_eqb d nl = false -> trim_newline s = s.
Proof.
  induction s as [|a s IH]; [done|]. simpl.
  destruct s as [|b s]; [intros [= ->] ->; done|]. intros Hl Hd. f_equal. by apply IH.
Qed.

Lemma last_byte_Join ls d :
  ls <> [] -> last_byte (List.last ls "") = Some d -> last_byte (Join ls (String nl "")) = Some d.
Proof.
  induction ls as [|x ls IH]; [done|]. intros _. destruct ls as [|y ls]; [done|].
  intros Hl. rewrite Join_cons by done. do 2 apply last_byte_append. by apply IH.
Qed.

Definition no_newline (l : string) : Prop := contains_byte l nl = false.

(** Lines written out are the lines read back. *)
Lemma splitLines_write ls o :
  ls <> [] -> Forall no_newline ls -> (o = true -> List.last ls "" <> "") ->
  splitLines (write_lines ls o) = (ls, o).
Proof.
  intros Hne Hnl Ho. rewrite write_lines_join by done. unfold splitLines. destruct o.
  - assert (no_newline (List.last ls "")) as Hlast.
    { rewrite List.Forall_forall in Hnl. apply Hnl.
      rewrite (app_removelast_last "" Hne) at 2. apply in_app_iff. right. by left. }
    destruct (last_byte_none _ _ Hlast (Ho eq_refl)) as (d & Hd & Hdn).
    rewrite append_nil_r. pose proof (last_byte_Join ls d Hne Hd) as HJ.
    rewrite HJ, (trim_newline_other _ d) by done. rewrite split_join by done. by rewrite Hdn.
  - rewrite last_byte_app, trim_newline_app, split_join by done. by rewrite ascii_eqb_refl.
Qed.

Lemma splitLines_clean a : Forall no_newline (splitLines a).1.
Proof. unfold splitLines. case_match; [|constructor]. apply split_elems_clean. Qed.

Lemma split_last_nonempty s c :
  last_byte s = Some c -> ascii_eqb c nl = false -> List.last (split_byte nl s) "" <> "".
Proof.
  induction s as [|a s IH]; [done|]. intros Hl Hc. simpl in *.
  destruct s as [|b s]; [injection Hl as ->; by rewrite Hc|].
  specialize (IH Hl Hc). set (s' := String b s) in *.
  pose proof (split_byte_nonempty nl s') as Hne.
  destruct (split_byte nl s') as [|h t] eqn:Es; [done|].
  destruct (ascii_eqb a nl); [exact IH|]. by destruct t.
Qed.

Lemma splitLines_open a la : splitLines a = (la, true) -> List.last la "" <> "".
Proof.
  unfold splitLines. destruct (last_byte a) as [c|] eqn:Hl; [|done].
  intros [= <- Hc]. apply negb_true_iff in Hc.
  rewrite (trim_newline_other a c) by done. by eapply split_last_nonempty.
Qed.

Lemma extra_lines_open have lb o extra :
  extra_lines have lb o = (extra, true) -> o = true /\ extra <> [] /\ List.last extra "" = List.last lb "".
Proof.
  revert have extra. induction lb as [|x lb IH]; intros have extra; [done|]. simpl.
  destruct (0 <? have_count have x).
  - intros H. destruct (IH _ _ H) as (Ho & Hne & Hl). split_and!; [done..|].
    rewrite Hl. destruct lb; [done|]. done.
  - destruct (extra_lines have lb o) as [ex eo] eqn:E. intros [= <- Ho].
    destruct ex as [|y ex]; [destruct lb; by simplify_eq|]. subst eo.
    destruct (IH _ _ E) as (Ho & Hne & Hl). split_and!; [done..|].
    destruct lb; [done|]. exact Hl.
Qed.

Lemma extra_lines_Forall (P : string -> Prop) have lb o : Forall P lb -> Forall P (extra_lines have lb o).1.
Proof.
  revert have. induction lb as [|x lb IH]; intros have Hf; [constructor|].
  inversion Hf; subst. simpl. destruct (0 <? have_count have x); [by apply IH|].
  specialize (IH have). destruct (extra_lines have lb o). simpl in *. auto.
Qed.

(** What [kept_lines] keeps are lines, the last one not empty while it is
    unfinished. *)
Lemma kept_lines_spec a b la ao lb bo d :
  kept_lines a b = ((la, ao), (lb, bo), d) ->
  Forall no_newline la /\ Forall no_newline lb /\
  (ao = true -> List.last la "" <> "") /\ (bo = true -> List.last lb "" <> "") /\
  (d = false -> splitLines a = (la, ao)).
Proof.
  unfold kept_lines.
  pose proof (splitLines_clean a) as Ha. pose proof (splitLines_clean b) as Hb.
  pose proof (splitLines_open a) as Hoa. pose proof (splitLines_open b) as Hob.
  destruct (splitLines a) as [la0 ao0], (splitLines b) as [lb0 bo0]. simpl in Ha, Hb.
  destruct (ao0 && completedBy (List.last la0 "") lb0 bo0);
    match goal with |- context [if ?c then (removelast lb0, _) else _] => destruct c end;
    intros [= <- <- <- <- <-]; split_and!;
    auto using removelast_Forall; try done; intros ->; by eauto.
Qed.

Lemma last_app_ne (l es : list string) : es <> [] -> List.last (l ++ es) "" = List.last es "".
Proof.
  intros Hne. induction l as [|x l IH]; [done|]. simpl. rewrite IH.
  destruct (l ++ es) eqn:E; [by apply app_eq_nil in E as [_ ->]|done].
Qed.

Lemma splitLines_write_any ls o :
  Forall no_newline ls -> (o = true -> List.last ls "" <> "") -> (splitLines (write_lines ls o)).1 = ls.
Proof.
  intros Hn Ho. destruct ls as [|x ls]; [by destruct o|]. by rewrite splitLines_write.
Qed.

Lemma unionLines_occ a b la ao lb bo d :
  kept_lines a b = ((la, ao), (lb, bo), d) ->
  forall l, occ (splitLines (unionLines a b)).1 l = Z.max (occ la l) (occ lb l).
Proof.
  intros Hk l. destruct (kept_lines_spec _ _ _ _ _ _ _ Hk) as (Hla & Hlb & Hao & Hbo & Hd).
  unfold unionLines. rewrite Hk.
  assert (occ (la ++ (extra_lines (count_lines la) lb bo).1) l = Z.max (occ la l) (occ lb l)) as Hocc.
  { rewrite occ_app, occ_extra.
    - rewrite have_count_lines. lia.
    - intros. rewrite have_count_lines. apply occ_nonneg. }
  pose proof (extra_lines_Forall no_newline (count_lines la) lb bo Hlb) as Hex.
  pose proof (extra_lines_open (count_lines la) lb bo) as Hxo.
  destruct (extra_lines (count_lines la) lb bo) as [extra xo]. simpl in *.
  destruct extra as [|x extra]; [destruct d; [|by rewrite Hd, <- Hocc, app_nil_r]|];
    rewrite <- Hocc; f_equal; apply splitLines_write_any; auto using Forall_app_2; rewrite ?app_nil_r.
  - destruct xo; [by destruct (Hxo _ eq_refl) as (_ & [] & _)|]. simpl. rewrite andb_true_r. auto.
  - rewrite andb_false_r, orb_false_r. intros ->.
    destruct (Hxo _ eq_refl) as (-> & _ & Hl). rewrite last_app_ne by done. rewrite Hl. auto.
Qed.

(** The file [s] is the lines [ls], the last one without its newline when [open]. *)
Definition is_text (ls : list string) (open : bool) (s : string) : Prop :=
  Forall no_newline ls /\ (open = true -> List.last ls "" <> "") /\
  s = String.concat "" (map (fun l => l +:+ String nl "") (if open then removelast ls else ls)) +:+ (if open then List.last ls "" else "").

(** A line still being written, [tail], is held completed in the lines [ls]: a line
    starting with it that is longer, or is not [ls]'s own unfinished last one. *)
Definition held_completed (tail : string) (ls : list string) (open : bool) : Prop :=
  exists before line after more, ls = before ++ line :: after /\ line = tail +:+ more /\ (more <> "" \/ after <> [] \/ open = false).

(** What counts of the lines [ls] beside the other copy's: all but an unfinished last
    line the other holds completed. *)
Definition counted (other : list string * bool) (ls : list string * bool) (kept : list string * bool) : Prop :=
  (exists tail, ls = (kept.1 ++ [tail], true) /\ kept.2 = false /\ held_completed tail other.1 other.2) \/
  (kept = ls /\ (ls.2 = true -> ~ held_completed (List.last ls.1 "") other.1 other.2)).

Lemma HasPrefix_more s p : HasPrefix s p = true <-> exists more, s = p +:+ more.
Proof.
  split; [|intros [more ->]; apply HasPrefix_append]. unfold HasPrefix. revert s. induction p as [|a p IH]; intros s; [by exists s|].
  destruct s as [|b s]; [done|]. simpl. destruct (ascii_dec a b) as [<-|]; [|done]. intros [more ->]%IH. by exists more.
Qed.

Lemma completedBy_held tail ls open : completedBy tail ls open = true <-> held_completed tail ls open.
Proof.
  induction ls as [|line ls IH]; [split; [done|intros (before & ? & ? & ? & E & _); by destruct before]|]. cbn [completedBy].
  destruct (HasPrefix line tail && _) eqn:E.
  - split; [|done]. intros _. apply andb_true_iff in E as [[more ->]%HasPrefix_more E]. exists [], (tail +:+ more), ls, more. split; [done|]. split; [done|].
    apply orb_true_iff in E as [E%Nat.ltb_lt|E]; [left; intros ->; rewrite append_nil_r in E; lia|right].
    apply negb_true_iff, andb_false_iff in E as [->|E]; [by right|left]. by destruct ls.
  - rewrite IH. split; intros (before & l & after & more & El & Hl & Hc); [exists (line :: before), l, after, more; by rewrite El|].
    destruct before as [|x before]; [|injection El as -> ->; by exists before, l, after, more]. injection El as -> ->. subst l. rewrite HasPrefix_append in E.
    apply orb_false_iff in E as [E1%Nat.ltb_ge E2%negb_false_iff]. apply andb_true_iff in E2 as [-> E2]. exfalso.
    destruct Hc as [Hc|[Hc|Hc]]; [|by destruct after|done]. apply Hc. rewrite length_append_s in E1. destruct more; [done|simpl in E1; lia].
Qed.

Lemma counted_kept other la ao : (ao = true -> la <> []) ->
  counted other (la, ao) (if ao && completedBy (List.last la "") other.1 other.2 then (removelast la, false) else (la, ao)).
Proof.
  intros Hne. destruct (ao && _) eqn:E.
  - apply andb_true_iff in E as [-> E]. left. exists (List.last la ""). cbn [fst snd]. rewrite <- app_removelast_last by auto. by rewrite <- completedBy_held.
  - right. split; [done|]. cbn [fst snd]. intros -> Hc%completedBy_held. by rewrite Hc in E.
Qed.

Lemma concat_newlines ls : ls <> [] -> String.concat "" (map (fun l => l +:+ String nl "") ls) = Join ls (String nl "") +:+ String nl "".
Proof.
  induction ls as [|x ls IH]; [done|]. intros _. destruct ls as [|y ls]; [done|]. rewrite Join_cons, !append_assoc, <- IH by done.
  change (Join ((x +:+ String nl "") :: map (fun l => l +:+ String nl "") (y :: ls)) "" = x +:+ String nl "" +:+ Join (map (fun l => l +:+ String nl "") (y :: ls)) "").
  rewrite Join_cons by done. by rewrite append_assoc.
Qed.

Lemma Join_last ls x : ls <> [] -> Join (ls ++ [x]) (String nl "") = (Join ls (String nl "") +:+ String nl "") +:+ x.
Proof.
  induction ls as [|y ls IH]; [done|]. intros _. destruct ls as [|z ls]; [by rewrite append_assoc|]. cbn [app] in *. rewrite Join_cons by done. rewrite IH by done.
  rewrite (Join_cons y (z :: ls)) by done. by rewrite !append_assoc.
Qed.

Lemma is_text_split s : is_text (splitLines s).1 (splitLines s).2 s.
Proof.
  split; [apply splitLines_clean|]. split; [destruct (splitLines s) as [ls o] eqn:E; cbn [fst snd]; intros ->; by eapply splitLines_open|].
  unfold splitLines. destruct (last_byte s) as [c|] eqn:El; cbn [fst snd]; [|by rewrite (last_byte_empty s El)].
  destruct (ascii_eqb c nl) eqn:Ec; cbn [negb].
  - rewrite concat_newlines by apply split_byte_nonempty. rewrite join_split, append_nil_r. apply trim_newline_nl. apply ascii_eqb_eq in Ec. congruence.
  - rewrite (trim_newline_other s c) by done. pose proof (app_removelast_last "" (split_byte_nonempty nl s)) as E. rewrite <- (join_split nl s) at 1. rewrite E at 1.
    destruct (removelast (split_byte nl s)) as [|x ls] eqn:Er; [done|]. rewrite concat_newlines by done. by apply Join_last.
Qed.

Lemma kept_counted a b :
  counted (splitLines b) (splitLines a) (kept_lines a b).1.1 /\ counted (kept_lines a b).1.1 (splitLines b) (kept_lines a b).1.2.
Proof.
  unfold kept_lines. pose proof (splitLines_open a) as Ha. pose proof (splitLines_open b) as Hb. destruct (splitLines a) as [la ao], (splitLines b) as [lb bo].
  assert (ao = true -> la <> []) as Hna by (intros -> ->; by eapply Ha). assert (bo = true -> lb <> []) as Hnb by (intros -> ->; by eapply Hb).
  pose proof (counted_kept (lb, bo) la ao Hna) as C1. cbn [fst snd] in C1. destruct (if ao && _ then _ else _) as [la' ao'].
  pose proof (counted_kept (la', ao') lb bo Hnb) as C2. cbn [fst snd] in C2. destruct (if bo && _ then _ else _) as [lb' bo']. done.
Qed.

(** C31: append-union never loses a line. Of two logs, read as their lines, the merged
    one is the lines each of which it has as often as the copy that has it more often,
    where an unfinished last line is not counted when the other copy holds it completed:
    in a longer line that starts with it, or in the same line finished (the second copy's
    is looked up in what is counted of the first). *)
Theorem unionLines_multiset a b :
  exists la ao lb bo ka kb lu uo, is_text la ao a /\ is_text lb bo b /\ is_text lu uo (unionLines a b) /\
    counted (lb, bo) (la, ao) ka /\ counted ka (lb, bo) kb /\ forall l, occ lu l = Z.max (occ ka.1 l) (occ kb.1 l).
Proof.
  destruct (kept_lines a b) as [[ka kb] d] eqn:Ek. exists (splitLines a).1, (splitLines a).2, (splitLines b).1, (splitLines b).2, ka, kb, (splitLines (unionLines a b)).1, (splitLines (unionLines a b)).2.
  pose proof (kept_counted a b) as [H1 H2]. rewrite Ek in H1, H2. rewrite <- !surjective_pairing. do 3 (split; [apply is_text_split|]). split; [done|]. split; [done|].
  destruct ka, kb. by eapply unionLines_occ.
Qed.

(** A file whose last line is finished. *)
Definition closed (a : string) : Prop := (splitLines a).2 = false.

Lemma kept_lines_closed a b :
  closed a -> closed b ->
  kept_lines a b = (((splitLines a).1, false), ((splitLines b).1, false), false).
Proof.
  unfold closed, kept_lines. destruct (splitLines a), (splitLines b). simpl. by intros -> ->.
Qed.

Lemma extra_lines_closed have lb extra xo : extra_lines have lb false = (extra, xo) -> xo = false.
Proof. destruct xo; [|done]. intros H. by destruct (extra_lines_open _ _ _ _ H). Qed.

Lemma unionLines_closed a b : closed a -> closed b -> closed (unionLines a b).
Proof.
  intros Ha Hb. unfold unionLines. rewrite kept_lines_closed by done.
  pose proof (extra_lines_Forall no_newline (count_lines (splitLines a).1) (splitLines b).1 false
    (splitLines_clean b)) as Hex.
  destruct (extra_lines _ _ _) as [extra xo] eqn:E. apply extra_lines_closed in E as ->.
  destruct extra as [|x extra]; [done|]. unfold closed. simpl orb.
  rewrite splitLines_write; [done|by destruct (splitLines a).1|..|done].
  apply Forall_app_2; [apply splitLines_clean|done].
Qed.

Lemma occ_zero_nil ls : (forall l, occ ls l = 0) -> ls = [].
Proof.
  intros H. destruct ls as [|x ls]; [done|]. specialize (H x).
  pose proof (proj2 (occ_pos (x :: ls) x) (list_elem_of_here _ _)). lia.
Qed.

Lemma occ_perm l1 l2 : (forall l, occ l1 l = occ l2 l) -> l1 ≡ₚ l2.
Proof.
  revert l2. induction l1 as [|x l1 IH]; intros l2 H.
  - rewrite (occ_zero_nil l2); [done|]. intros l. by rewrite <- H.
  - assert (x ∈ l2) as (m1 & m2 & ->)%list_elem_of_split.
    { apply occ_pos. rewrite <- H. apply occ_pos. by left. }
    rewrite <- Permutation_middle. constructor. apply IH. intros l.
    specialize (H l). rewrite occ_app, !occ_cons in H. rewrite occ_app. lia.
Qed.

(** A copy whose lines are all there adds nothing. *)
Lemma unionLines_absorb u b :
  closed u -> closed b -> (forall l, occ (splitLines b).1 l <= occ (splitLines u).1 l) ->
  unionLines u b = u.
Proof.
  intros Hu Hb Hle. unfold unionLines. rewrite kept_lines_closed by done.
  pose proof (fun l => occ_extra (count_lines (splitLines u).1) (splitLines b).1 false l) as Hocc.
  destruct (extra_lines _ _ _) as [extra xo]. simpl in Hocc.
  assert (extra = []) as ->; [|done]. apply occ_zero_nil. intros l.
  rewrite Hocc by (intros; rewrite have_count_lines; apply occ_nonneg).
  rewrite have_count_lines. specialize (Hle l). lia.
Qed.

(** Append-union converges: for two files of finished lines the union in
    either order holds the same lines, and both copies add nothing to it, so
    a side that reports either copy again is answered Keep. *)
Theorem unionLines_converges a b :
  closed a -> closed b ->
  let u := unionLines a b in
  unionLines u a = u /\ unionLines u b = u /\
  (splitLines u).1 ≡ₚ (splitLines (unionLines b a)).1.
Proof.
  intros Ha Hb u.
  pose proof (unionLines_closed a b Ha Hb) as Hu.
  assert (forall x y, closed x -> closed y -> forall l,
    occ (splitLines (unionLines x y)).1 l = Z.max (occ (splitLines x).1 l) (occ (splitLines y).1 l)) as Hocc.
  { intros x y Hx Hy. eapply unionLines_occ. by apply kept_lines_closed. }
  split_and!.
  - apply unionLines_absorb; [done..|]. intros l. unfold u. rewrite Hocc by done. lia.
  - apply unionLines_absorb; [done..|]. intros l. unfold u. rewrite Hocc by done. lia.
  - apply occ_perm. intros l. unfold u. rewrite !Hocc by done. lia.
Qed.

(** The content a decision leaves standing, given the two copies' contents. *)
Definition outcome_content (current incoming : string) (r : MergeResult) : string :=
  match decision r with
  | Keep => current
  | Merged => m_content r
  | _ => incoming
  end.

(** Whatever it decides, append-union leaves the union of the two copies'
    lines standing when a concurrent change to a file meets a file, keeps no
    conflict copy, and fails only when a copy's content cannot be read. *)
Theorem AppendUnion_Merge_union inp cv :
  in_fast inp = false -> in_current inp = Some cv ->
  ekind (v_entry cv) = File -> ekind (v_entry (in_incoming inp)) = File ->
  match Content cv, Content (in_incoming inp) with
  | Ok current, Ok incoming =>
      exists r, AppendUnion_Merge inp = Ok r /\ conflict r = false /\
        outcome_content current incoming r = unionLines current incoming
  | Err ErrTooLarge, _ | Ok _, Err ErrTooLarge => AppendUnion_Merge inp = Ok (newestWins inp)
  | Err e, _ | Ok _, Err e => AppendUnion_Merge inp = Err e
  end.
Proof.
  intros Hf Hc Hk Hk'. unfold AppendUnion_Merge. rewrite Hf, Hc, Hk, Hk'. simpl.
  destruct (Content cv) as [current|[]]; simpl; try done.
  destruct (Content (in_incoming inp)) as [incoming|[]]; simpl; try done.
  case_match eqn:E1; [|case_match eqn:E2]; eexists; (split; [done|]); simpl; split; try done;
    unfold outcome_content; simpl; bool_hyps; congruence.
Qed.

Lemma newestWins_not_merged inp : decision (newestWins inp) <> Merged /\ decision (newestWins inp) <> Undecided.
Proof.
  unfold newestWins. destruct (in_fast inp); [done|]. destruct (in_current inp); [|done].
  repeat case_match; done.
Qed.

#[export] Instance Mirror_laws : MergerLaws MirrorPolicy.
Proof.
  split; simpl; intros inp r [= <-]; pose proof (newestWins_not_merged inp); naive_solver.
Qed.

#[export] Instance AppendUnion_laws : MergerLaws AppendUnionPolicy.
Proof.
  assert (forall inp r k, (forall d r, k d = Ok r -> decision r <> Undecided) -> forall x,
    or_mirror inp x k = Ok r -> decision r <> Undecided) as Hom.
  { intros inp r k Hk x. unfold or_mirror. destruct x as [d|[]]; try done; [by apply Hk|].
    intros [= <-]. apply newestWins_not_merged. }
  split; simpl; intros inp r; unfold AppendUnion_Merge;
    (destruct (in_fast inp); [by intros [= <-]|]); (destruct (in_current inp) as [cv|]; [|by intros [= <-]]).
  - case_match eqn:Hk; [intros [= <-] Hm; by destruct (newestWins_not_merged inp)|].
    bool_hyps. intros _ _. eauto.
  - case_match; [intros [= <-]; apply newestWins_not_merged|].
    apply Hom. intros d r'. apply Hom. intros d' r''.
    repeat case_match; intros [= <-]; done.
Qed.

Lemma hex_digit_ok z : 0 <= z < 16 -> is_hex (hex_digit z) = true /\ lower_byte (hex_digit z) = hex_digit z.
Proof.
  intros Hz. assert (z ∈ seqZ 0 16) as Hin by (apply elem_of_seqZ; lia).
  apply list_elem_of_In in Hin. simpl in Hin.
  repeat (destruct Hin as [<-|Hin]; [by vm_compute|]). done.
Qed.

Lemma code_range c : 0 <= code c < 256.
Proof. unfold code. pose proof (Ascii.N_ascii_bounded c). lia. Qed.

Lemma EncodeToString_lower s : all_hex (EncodeToString s) = true /\ ToLower (EncodeToString s) = EncodeToString s.
Proof.
  induction s as [|c s [IH1 IH2]]; [done|]. pose proof (code_range c).
  destruct (hex_digit_ok (code c / 16)) as [H1 H2]; [split; [apply Z.div_pos; lia|apply Z.div_lt_upper_bound; lia]|].
  destruct (hex_digit_ok (code c mod 16)) as [H3 H4]; [apply Z.mod_pos_bound; lia|].
  cbn [EncodeToString all_hex ToLower]. by rewrite H1, H2, H3, H4, IH1, IH2.
Qed.

(** A content hash is always accepted as one. *)
Lemma validHash_hashOf data : validHash (hashOf data) = true.
Proof.
  unfold validHash, hashOf. rewrite length_EncodeToString, length_Sum256. simpl negb. cbv iota.
  destruct (EncodeToString_lower (Sum256 data)) as [H1 H2]. by rewrite H1, H2, String.eqb_refl.
Qed.
#[export] Hint Resolve validHash_hashOf : fleet.
