(* ===== verification/Merge3.v ===== *)
(** * The three-way merge of settings documents (internal/sharesync/merge3.go)

    A document is a tree of values. An object keeps its keys in order, each
    with the spelling the document gives it and its value; the identity of a
    value is the SHA-256 its [seal] computes, which ignores key order and
    spelling. The merge recursion takes fuel; [merge3_total] shows the depth of
    the current copy is enough. *)

From S2P Require Import Prelude GoStrings Sha256 Entry.
Local Open Scope string_scope.
Local Open Scope Z_scope.
Local Open Scope list_scope.

(** ** Values *)

Inductive value : Type :=
| VScalar (text native scalar : string)
| VObject (fields : list (string * (string * value)))
| VArray (elems : list value).

Definition newObject : value := VObject [].

(** The field of an object's key list. *)
Fixpoint get (k : string) (fields : list (string * (string * value))) : option value :=
  match fields with
  | [] => None
  | (k', (_, v)) :: rest => if String.eqb k k' then Some v else get k rest
  end.

Fixpoint get_raw (k : string) (fields : list (string * (string * value))) : string :=
  match fields with
  | [] => ""
  | (k', (raw, _)) :: rest => if String.eqb k k' then raw else get_raw k rest
  end.

(** value.set: a key already there keeps its place, and its spelling when no
    new one is given. *)
Fixpoint set_field (k raw : string) (v : value) (fields : list (string * (string * value)))
    : list (string * (string * value)) :=
  match fields with
  | [] => [(k, (raw, v))]
  | (k', (raw', v')) :: rest =>
      if String.eqb k k' then (k', (if String.eqb raw "" then raw' else raw, v)) :: rest
      else (k', (raw', v')) :: set_field k raw v rest
  end.

Definition keys_of (fields : list (string * (string * value))) : list string := map fst fields.

(** value.seal: the identity of a value. *)
Fixpoint value_id (v : value) : string :=
  match v with
  | VScalar _ _ scalar => Sum256 ("s" +:+ scalar)
  | VObject fields =>
      let ids := map (fun f => match f with (k, (_, w)) => (k, value_id w) end) fields in
      let sorted := SortFunc (fun a b => Compare (fst a) (fst b)) ids in
      Sum256 ("o" +:+ Join (map (fun ki => Sum256 (fst ki) +:+ snd ki) sorted) "")
  | VArray elems => Sum256 ("a" +:+ Join (map value_id elems) "")
  end.

(** same: nil is no value. *)
Definition same (a b : option value) : bool :=
  match a, b with
  | None, None => true
  | Some x, Some y => String.eqb (value_id x) (value_id y)
  | _, _ => false
  end.

Definition isEmptyObject (v : option value) : bool :=
  match v with
  | Some (VObject []) => true
  | _ => false
  end.

Definition fields_of (v : option value) : list (string * (string * value)) :=
  match v with Some (VObject fs) => fs | _ => [] end.
Definition elems_of (v : option value) : list value :=
  match v with Some (VArray es) => es | _ => [] end.

(** ** The merge *)

Definition joinPath (at_ k : string) : string :=
  if String.eqb at_ "" then k else at_ +:+ "." +:+ k.

(** mergeSets: arrays merge as sets of element identities. A nil base has no
    elements. *)
Definition has_id (es : list value) (id : string) : bool :=
  existsb (fun e => String.eqb (value_id e) id) es.

Definition keep_elem (base cur inc : list value) (id : string) : bool :=
  if Bool.eqb (has_id cur id) (has_id inc id) then has_id cur id else negb (has_id base id).

Fixpoint add_elems (keep : string -> bool) (es out : list value) : list value :=
  match es with
  | [] => out
  | e :: es' =>
      if has_id out (value_id e) || negb (keep (value_id e)) then add_elems keep es' out
      else add_elems keep es' (out ++ [e])
  end.

Definition mergeSets (base cur inc : list value) : value :=
  let keep := keep_elem base cur inc in
  VArray (add_elems keep inc (add_elems keep cur [])).

Section merge.
Context (incomingWins : bool).

(** The conflicts found are threaded through the merge. *)
Definition M (A : Type) : Type := list string -> option (A * list string).

Section objects.
Context (rec : option value -> option value -> option value -> string -> M (option value)).
Context (base cur inc : list (string * (string * value))) (at_ : string).

(** mergeObjects' add. *)
Definition add_key (k : string) (out : list (string * (string * value))) (cs : list string)
    : option (list (string * (string * value)) * list string) :=
  match get k out with
  | Some _ => Some (out, cs)
  | None =>
      match rec (get k base) (get k cur) (get k inc) (joinPath at_ k) cs with
      | None => None
      | Some (None, cs') => Some (out, cs')
      | Some (Some merged, cs') =>
          let raw := match get k cur with Some _ => get_raw k cur | None => get_raw k inc end in
          Some (set_field k raw merged out, cs')
      end
  end.

Fixpoint add_keys (ks : list string) (out : list (string * (string * value))) (cs : list string)
    : option (list (string * (string * value)) * list string) :=
  match ks with
  | [] => Some (out, cs)
  | k :: ks' =>
      match add_key k out cs with
      | None => None
      | Some (out', cs') => add_keys ks' out' cs'
      end
  end.

Definition mergeObjects (cs : list string) : option (option value * list string) :=
  match add_keys (keys_of cur ++ keys_of inc) [] cs with
  | None => None
  | Some (out, cs') => Some (Some (VObject out), cs')
  end.
End objects.

(** merger3.merge. *)
Fixpoint merge (fuel : nat) (base cur inc : option value) (at_ : string) : M (option value) := fun cs =>
  match fuel with
  | O => None
  | S f =>
      if same cur inc then Some (cur, cs)
      else if same base cur then Some (inc, cs)
      else if same base inc then Some (cur, cs)
      else match cur, inc with
           | None, _ => Some (inc, cs)
           | _, None => Some (cur, cs)
           | Some (VObject fc), Some (VObject fi) => mergeObjects (merge f) (fields_of base) fc fi at_ cs
           | Some (VArray ec), Some (VArray ei) => Some (Some (mergeSets (elems_of base) ec ei), cs)
           | _, _ => Some (if incomingWins then inc else cur, cs ++ [at_])
           end
  end.
End merge.

(** conflictNote. *)
Definition conflictNote (conflicts : list string) : string :=
  match conflicts with
  | [] => ""
  | _ =>
      let names := take 5 conflicts in
      let more := (length conflicts - length names)%nat in
      "; the newer change's " +:+ Join names ", "
        +:+ (if (0 <? more)%nat then " and " +:+ Itoa (Z.of_nat more) +:+ " more" else "")
        +:+ " kept"
  end.

(** The depth of a value, the fuel a merge needs. *)
Fixpoint vdepth (v : value) : nat :=
  match v with
  | VScalar _ _ _ => 0
  | VObject fields => S (list_max (map (fun f => match f with (_, (_, w)) => vdepth w end) fields))
  | VArray _ => 0
  end.

Definition odepth (v : option value) : nat := match v with Some w => vdepth w | None => 0 end.

(** merger3.merge as the policies call it: fuel for the current copy. *)
Definition merge3 (incomingWins : bool) (base cur inc : option value) : option (option value * list string) :=
  merge incomingWins (S (odepth cur)) base cur inc "" [].

(** ** Fields *)

Lemma get_Some_key k fs v : get k fs = Some v -> k ∈ keys_of fs.
Proof.
  induction fs as [|[k' [r w]] fs IH]; [done|]. simpl. case_match eqn:E; [|right; auto].
  intros _. apply String.eqb_eq in E as ->. left.
Qed.

Lemma get_None_key k fs : get k fs = None <-> k ∉ keys_of fs.
Proof.
  induction fs as [|[k' [r w]] fs IH]; simpl; [split; [by intros _ ?%elem_of_nil|done]|].
  rewrite not_elem_of_cons, <- IH. case_match eqn:E; bool_hyps; naive_solver.
Qed.

Lemma get_depth k fs v : get k fs = Some v -> (vdepth v < vdepth (VObject fs))%nat.
Proof.
  simpl. induction fs as [|[k' [r w]] fs IH]; [done|]. simpl. destruct (String.eqb k k'); [intros [= ->]; lia|].
  intros Hget. specialize (IH Hget). lia.
Qed.

Lemma odepth_get k fs : (odepth (get k fs) <= list_max (map (fun f => match f with (_, (_, w)) => vdepth w end) fs))%nat.
Proof. destruct (get k fs) as [v|] eqn:E; simpl; [|lia]. apply get_depth in E. simpl in E. lia. Qed.

Lemma get_set_field k raw v fs k' :
  get k' (set_field k raw v fs) = if decide (k = k') then Some v else get k' fs.
Proof.
  induction fs as [|[j [r w]] fs IH]; simpl.
  - destruct (String.eqb_spec k' k); case_decide; congruence.
  - destruct (String.eqb_spec k j) as [->|Hkj]; simpl;
      destruct (String.eqb_spec k' j); rewrite ?IH; repeat case_decide; congruence.
Qed.

(** ** The merge as a function of values

    The merged value depends neither on where in the document it is nor on the
    conflicts found so far, and not on the fuel once it is enough. *)

Section object_fold.
Context (R : string -> option value) (cur inc : list (string * (string * value))).

Definition raw_of (k : string) : string :=
  match get k cur with Some _ => get_raw k cur | None => get_raw k inc end.

Definition add_pure (out : list (string * (string * value))) (k : string) :=
  match get k out with
  | Some _ => out
  | None => match R k with None => out | Some m => set_field k (raw_of k) m out end
  end.

Definition add_all (ks : list string) (out : list (string * (string * value))) := foldl add_pure out ks.

Lemma add_pure_get out k k' :
  get k' (add_pure out k) =
  match get k' out with Some v => Some v | None => if decide (k = k') then R k else None end.
Proof.
  unfold add_pure. destruct (get k out) as [v|] eqn:E.
  - destruct (get k' out) eqn:E'; [done|]. rewrite decide_False; congruence.
  - destruct (R k) as [m|] eqn:ER.
    + rewrite get_set_field. case_decide; [subst; by rewrite E|]. by destruct (get k' out).
    + destruct (get k' out); [done|]. case_decide; congruence.
Qed.

Lemma add_all_get ks out k' :
  get k' (add_all ks out) =
  match get k' out with Some v => Some v | None => if decide (k' ∈ ks) then R k' else None end.
Proof.
  unfold add_all. revert out. induction ks as [|k ks IH]; intros out; cbn [foldl].
  - destruct (get k' out); [done|]. case_decide as Hin; [by apply elem_of_nil in Hin|done].
  - rewrite IH, add_pure_get. destruct (get k' out) as [v|]; [done|].
    destruct (decide (k' ∈ k :: ks)) as [Hin|Hin]; rewrite elem_of_cons in Hin;
      destruct (decide (k = k')) as [->|Hne]; destruct (decide (k' ∈ ks)); destruct (R k');
      intuition congruence.
Qed.

Lemma add_keys_pure rec base at_ ks out cs :
  (forall k at' cs', k ∈ ks -> exists cs'', rec (get k base) (get k cur) (get k inc) at' cs' = Some (R k, cs'')) ->
  exists cs', add_keys rec base cur inc at_ ks out cs = Some (add_all ks out, cs').
Proof.
  unfold add_all. revert out cs. induction ks as [|k ks IH]; intros out cs Hrec; simpl; [eauto|].
  assert (exists cs', add_key rec base cur inc at_ k out cs = Some (add_pure out k, cs')) as [cs' ->].
  { unfold add_key, add_pure. destruct (get k out); [eauto|].
    destruct (Hrec k (joinPath at_ k) cs (list_elem_of_here _ _)) as [cs' ->].
    destruct (R k); eauto. }
  apply IH. intros k' at' cs'' Hk'. apply Hrec. by right.
Qed.
End object_fold.

Lemma add_all_ext R R' cur inc ks out :
  (forall k, k ∈ ks -> R k = R' k) -> add_all R cur inc ks out = add_all R' cur inc ks out.
Proof.
  unfold add_all. revert out. induction ks as [|k ks IH]; intros out HR; simpl; [done|].
  replace (add_pure R' cur inc out k) with (add_pure R cur inc out k)
    by (unfold add_pure; by rewrite HR by apply list_elem_of_here).
  apply IH. intros. apply HR. by right.
Qed.

(** The value a merge yields. *)
Definition merged (w : bool) (f : nat) (base cur inc : option value) : option value :=
  match merge w f base cur inc "" [] with Some (r, _) => r | None => None end.

Lemma merge_objects_pure w f base fc fi at_ cs :
  (forall b c i at' cs', (odepth c < f)%nat -> exists cs'', merge w f b c i at' cs' = Some (merged w f b c i, cs'')) ->
  (vdepth (VObject fc) < S f)%nat ->
  exists cs', mergeObjects (merge w f) base fc fi at_ cs =
    Some (Some (VObject (add_all (fun k => merged w f (get k base) (get k fc) (get k fi)) fc fi
                                 (keys_of fc ++ keys_of fi) [])), cs').
Proof.
  intros IH Hd. unfold mergeObjects.
  destruct (add_keys_pure (fun k => merged w f (get k base) (get k fc) (get k fi)) fc fi (merge w f) base at_
    (keys_of fc ++ keys_of fi) [] cs) as [cs' ->]; [|eauto].
  intros k at' cs' _. apply IH. pose proof (odepth_get k fc). simpl in Hd. lia.
Qed.

Lemma merge_pure w f base cur inc at_ cs :
  (odepth cur < f)%nat -> exists cs', merge w f base cur inc at_ cs = Some (merged w f base cur inc, cs').
Proof.
  revert base cur inc at_ cs. induction f as [|f IH]; intros base cur inc at_ cs Hd; [lia|].
  unfold merged. cbn [merge].
  repeat (case_match; [by eauto|]).
  destruct cur as [[|fc|ec]|]; [..|by eauto]; (destruct inc as [[|fi|ei]|]; [..|by eauto]); try by eauto.
  destruct (merge_objects_pure w f (fields_of base) fc fi "" [] IH Hd) as [cs1 Hm1].
  destruct (merge_objects_pure w f (fields_of base) fc fi at_ cs IH Hd) as [cs2 Hm2].
  rewrite Hm1, Hm2. eauto.
Qed.

(** The merged object, key by key. *)
Lemma merged_objects w f base fc fi :
  (vdepth (VObject fc) < S f)%nat ->
  let cur := Some (VObject fc) in let inc := Some (VObject fi) in
  same cur inc = false -> same base cur = false -> same base inc = false ->
  exists out, merged w (S f) base cur inc = Some (VObject out) /\
    out = add_all (fun k => merged w f (get k (fields_of base)) (get k fc) (get k fi)) fc fi
                  (keys_of fc ++ keys_of fi) [] /\
    forall k, get k out = merged w f (get k (fields_of base)) (get k fc) (get k fi).
Proof.
  intros Hd cur inc H1 H2 H3. unfold merged at 1. cbn [merge]. rewrite H1, H2, H3. simpl.
  destruct (merge_objects_pure w f (fields_of base) fc fi "" []) as [cs' ->]; [|done|].
  { intros. by apply merge_pure. }
  eexists. split; [done|]. split; [done|]. intros k. rewrite add_all_get. simpl.
  case_decide as Hk; [done|]. rewrite elem_of_app in Hk.
  rewrite (proj2 (get_None_key k fc)), (proj2 (get_None_key k fi)) by tauto.
  destruct f; done.
Qed.

(** ** Fuel *)

Lemma add_keys_ext rec rec' base cur inc at_ ks out cs :
  (forall k at' cs', rec (get k base) (get k cur) (get k inc) at' cs' =
                     rec' (get k base) (get k cur) (get k inc) at' cs') ->
  add_keys rec base cur inc at_ ks out cs = add_keys rec' base cur inc at_ ks out cs.
Proof.
  intros Hrec. revert out cs. induction ks as [|k ks IH]; intros out cs; [done|]. simpl.
  replace (add_key rec' base cur inc at_ k out cs) with (add_key rec base cur inc at_ k out cs)
    by (unfold add_key; by rewrite Hrec).
  destruct (add_key _ _ _ _ _ _ _ _) as [[out' cs']|]; [apply IH|done].
Qed.

Lemma merge_fuel w f f' base cur inc at_ cs :
  (odepth cur < f)%nat -> (odepth cur < f')%nat ->
  merge w f base cur inc at_ cs = merge w f' base cur inc at_ cs.
Proof.
  revert f' base cur inc at_ cs. induction f as [|f IH]; intros f' base cur inc at_ cs Hf Hf'; [lia|].
  destruct f' as [|f']; [lia|]. cbn [merge]. repeat (case_match; try done).
  unfold mergeObjects. erewrite add_keys_ext; [done|].
  intros k at' cs'. pose proof (odepth_get k fields). simpl in *. apply IH; lia.
Qed.

Lemma merged_fuel w f f' base cur inc :
  (odepth cur < f)%nat -> (odepth cur < f')%nat -> merged w f base cur inc = merged w f' base cur inc.
Proof. intros. unfold merged. by rewrite (merge_fuel w f f'). Qed.

(** A merge always ends in a value, and more fuel than the depth of the
    current copy changes nothing: the recursion terminates on every input. *)
Theorem merge3_total w base cur inc :
  exists r cs, merge3 w base cur inc = Some (r, cs) /\
    forall f, (odepth cur < f)%nat -> merge w f base cur inc "" [] = Some (r, cs).
Proof.
  destruct (merge_pure w (S (odepth cur)) base cur inc "" []) as [cs Hm]; [lia|].
  do 2 eexists. split; [exact Hm|]. intros f Hf. rewrite <- Hm. apply merge_fuel; lia.
Qed.

Definition merge3_value (w : bool) (base cur inc : option value) : option value :=
  merged w (S (odepth cur)) base cur inc.

Lemma merge3_value_spec w base cur inc r cs :
  merge3 w base cur inc = Some (r, cs) -> r = merge3_value w base cur inc.
Proof. unfold merge3, merge3_value, merged. by intros ->. Qed.

(** C29: two changed objects merge key by key: the merged object holds at each
    key the three-way merge of what the base and the two copies hold there, so
    a key only one copy changed takes that copy's value (its removal too), and
    a key one copy removed and the other changed keeps the change. *)
Theorem merge3_objects_keywise w base fc fi :
  same (Some (VObject fc)) (Some (VObject fi)) = false ->
  same base (Some (VObject fc)) = false -> same base (Some (VObject fi)) = false ->
  exists out cs, merge3 w base (Some (VObject fc)) (Some (VObject fi)) = Some (Some (VObject out), cs) /\
    forall k, let b := get k (fields_of base) in let c := get k fc in let i := get k fi in
      get k out = merge3_value w b c i /\
      (same b c = true -> same c i = false -> get k out = i) /\
      (same b i = true -> get k out = c) /\
      (c = None -> same b i = false -> get k out = i) /\
      (i = None -> same b c = false -> get k out = c).
Proof.
  intros H1 H2 H3.
  destruct (merge_pure w (S (odepth (Some (VObject fc)))) base (Some (VObject fc)) (Some (VObject fi)) "" [])
    as [cs Hm]; [lia|].
  destruct (merged_objects w (vdepth (VObject fc)) base fc fi) as (out & Hout & _ & Hget); [lia|done..|].
  exists out, cs. split.
  { unfold merge3. rewrite Hm. change (odepth (Some (VObject fc))) with (vdepth (VObject fc)).
    by rewrite Hout. }
  intros k b c i.
  assert (get k out = merge3_value w b c i) as Hk.
  { rewrite Hget. apply merged_fuel; [|apply Nat.lt_succ_diag_r].
    apply Nat.lt_succ_r. apply odepth_get. }
  rewrite Hk. clearbody b c i. clear Hk. unfold merge3_value, merged. cbn [merge]. split; [done|]. split_and!.
  - by intros -> ->.
  - intros Hbi. rewrite Hbi. destruct (same c i) eqn:Hci; [done|]. destruct (same b c) eqn:Hbc; [|done].
    exfalso. destruct b, c, i; simpl in *; bool_hyps; congruence.
  - intros -> Hbi. rewrite Hbi. destruct i as [[]|], b; done.
  - intros -> Hbc. rewrite Hbc. destruct c as [[]|], b; done.
Qed.

(** ** Arrays as sets *)

Definition ids (es : list value) : list string := map value_id es.

Lemma has_id_spec es id : has_id es id = true <-> id ∈ ids es.
Proof.
  unfold has_id, ids. rewrite existsb_exists. setoid_rewrite String.eqb_eq.
  rewrite list_elem_of_fmap. split; intros (e & He1 & He2); exists e; rewrite ?list_elem_of_In in *; naive_solver.
Qed.

Lemma has_id_false es id : has_id es id = false <-> id ∉ ids es.
Proof. rewrite <- has_id_spec. destruct (has_id es id); naive_solver. Qed.

Lemma add_elems_ids keep es out id :
  id ∈ ids (add_elems keep es out) <-> id ∈ ids out \/ (id ∈ ids es /\ keep id = true).
Proof.
  revert out. induction es as [|e es IH]; intros out; simpl.
  - split; [auto|]. by intros [?|[?%elem_of_nil _]].
  - rewrite elem_of_cons. case_match eqn:E; rewrite IH.
    + apply orb_true_iff in E as [E%has_id_spec|E]; bool_hyps; intuition (subst; first [done | congruence]).
    + bool_hyps. unfold ids. rewrite map_app, elem_of_app. simpl. rewrite list_elem_of_singleton.
      intuition (subst; first [done | congruence]).
Qed.

Lemma add_elems_NoDup keep es out : NoDup (ids out) -> NoDup (ids (add_elems keep es out)).
Proof.
  revert out. induction es as [|e es IH]; intros out Hnd; simpl; [done|].
  case_match eqn:E; [by apply IH|]. bool_hyps. apply IH. unfold ids. rewrite map_app. simpl.
  apply NoDup_app. split_and!; [done| |apply NoDup_singleton].
  intros x Hx ->%list_elem_of_singleton. match goal with H : has_id _ _ = false |- _ => by apply has_id_false in H end.
Qed.

Lemma add_elems_sub keep es out :
  exists es', es' `sublist_of` es /\ add_elems keep es out = out ++ es'.
Proof.
  revert out. induction es as [|e es IH]; intros out; simpl.
  - exists []. by rewrite app_nil_r.
  - case_match; [destruct (IH out) as (es' & Hs & ->)|destruct (IH (out ++ [e])) as (es' & Hs & ->)].
    + exists es'. split; [by constructor|done].
    + exists (e :: es'). split; [by constructor|]. by rewrite <- app_assoc.
Qed.

Definition in_set (es : list value) (id : string) : Prop := id ∈ ids es.

Lemma mergeSets_ids base cur inc id :
  id ∈ ids (elems_of (Some (mergeSets base cur inc))) <->
  (id ∈ ids cur /\ id ∈ ids inc) \/ (id ∉ ids base /\ (id ∈ ids cur \/ id ∈ ids inc)).
Proof.
  unfold mergeSets. simpl. rewrite !add_elems_ids. simpl. rewrite elem_of_nil. unfold keep_elem.
  destruct (has_id cur id) eqn:Hc, (has_id inc id) eqn:Hi, (has_id base id) eqn:Hb; simpl;
    rewrite ?has_id_spec, ?has_id_false in *; naive_solver.
Qed.

(** Two changed arrays merge as sets: an element stands in the result
    exactly when both copies have it, or one has it and the base did not (the
    other never removed it); each element stands once, the current copy's in
    its order and then the incoming copy's new ones in theirs. *)
Theorem mergeSets_spec base cur inc :
  exists out1 out2, mergeSets base cur inc = VArray (out1 ++ out2) /\
    out1 `sublist_of` cur /\ out2 `sublist_of` inc /\ NoDup (ids (out1 ++ out2)) /\
    forall id, id ∈ ids (out1 ++ out2) <->
      (id ∈ ids cur /\ id ∈ ids inc) \/ (id ∉ ids base /\ (id ∈ ids cur \/ id ∈ ids inc)).
Proof.
  pose proof (mergeSets_ids base cur inc) as Hids.
  assert (NoDup (ids (elems_of (Some (mergeSets base cur inc))))) as Hnd.
  { simpl. do 2 apply add_elems_NoDup. constructor. }
  unfold mergeSets in *. simpl in *.
  destruct (add_elems_sub (keep_elem base cur inc) cur []) as (o1 & Hs1 & E1).
  rewrite E1 in *. simpl in *.
  destruct (add_elems_sub (keep_elem base cur inc) inc o1) as (o2 & Hs2 & E2). rewrite E2 in *.
  exists o1, o2. split_and!; try done.
Qed.

(** ** Merging is symmetric

    Which copy is current and which arrives decides only the order of keys and
    elements. *)

Inductive veq : value -> value -> Prop :=
| veq_id v w : value_id v = value_id w -> veq v w
| veq_array es es' : (forall id, id ∈ ids es <-> id ∈ ids es') -> veq (VArray es) (VArray es')
| veq_object fs fs' :
    (forall k, option_Forall2 veq (get k fs) (get k fs')) -> veq (VObject fs) (VObject fs').

Lemma same_sym a b : same a b = same b a.
Proof. destruct a, b; simpl; auto using String.eqb_sym. Qed.

Lemma same_trans a b c : same a b = true -> same b c = true -> same a c = true.
Proof. destruct a, b, c; simpl; intros; bool_hyps; try done. apply String.eqb_eq. congruence. Qed.

Lemma same_veq a b : same a b = true -> option_Forall2 veq a b.
Proof. destruct a, b; simpl; intros; bool_hyps; try done; constructor. by constructor. Qed.

Lemma veq_refl a : option_Forall2 veq a a.
Proof. destruct a; constructor. by constructor. Qed.

Lemma merged_sym f w b c i :
  (odepth c < f)%nat -> (odepth i < f)%nat ->
  option_Forall2 veq (merged w f b c i) (merged (negb w) f b i c).
Proof.
  revert b c i. induction f as [|f IH]; intros b c i Hc Hi; [lia|].
  destruct (same c i) eqn:Eci.
  { unfold merged. cbn [merge]. rewrite (same_sym i c), Eci. by apply same_veq. }
  assert (same i c = false) as Eic by (by rewrite same_sym).
  destruct (same b c) eqn:Ebc; [|destruct (same b i) eqn:Ebi].
  - assert (same b i = false) as Ebi.
    { apply not_true_iff_false. intros ?. rewrite same_sym in Ebc.
      pose proof (same_trans _ _ _ Ebc H). congruence. }
    unfold merged. cbn [merge]. rewrite Eic, Eci, Ebc, Ebi. apply veq_refl.
  - unfold merged. cbn [merge]. rewrite Eic, Eci, Ebc, Ebi. apply veq_refl.
  - destruct c as [[|fc|ec]|], i as [[|fi|ei]|];
      try (unfold merged; cbn [merge]; rewrite Eic, Eci, Ebc, Ebi; destruct w; apply veq_refl).
    + destruct (merged_objects w f b fc fi) as (o1 & -> & _ & Hg1); [done..|].
      destruct (merged_objects (negb w) f b fi fc) as (o2 & -> & _ & Hg2); [done..|].
      constructor. apply veq_object. intros k. rewrite Hg1, Hg2.
      pose proof (odepth_get k fc). pose proof (odepth_get k fi). simpl in *. apply IH; lia.
    + unfold merged; cbn [merge]; rewrite Eic, Eci, Ebc, Ebi. constructor.
      apply veq_array. intros id. pose proof (mergeSets_ids (elems_of b) ec ei id) as H1.
      pose proof (mergeSets_ids (elems_of b) ei ec id) as H2. simpl in *. rewrite H1, H2. tauto.
    + done.
Qed.

(** C30: the same whichever copy arrived first: swapping the current and the incoming copy
    (so that the newer change is now the other one) merges to the same document, up to
    the order of keys, the spelling of numbers and strings, and with arrays compared as
    sets: the order and the number of equal elements of an array may differ with the
    order of arrival. *)
Theorem merge3_arrival_order w b c i :
  option_Forall2 veq (merge3_value w b c i) (merge3_value (negb w) b i c).
Proof.
  unfold merge3_value. set (f := S (odepth c + odepth i)).
  rewrite (merged_fuel w _ f), (merged_fuel (negb w) _ f) by (unfold f; lia).
  apply merged_sym; unfold f; lia.
Qed.

(** ** Conflicts *)

(** What a computation adds to the conflict list, and that it does not depend
    on the winner when it adds nothing. *)
Definition decided_alone {A} (run : bool -> option (A * list string)) (w : bool) (cs : list string) : Prop :=
  forall r cs', run w = Some (r, cs') ->
    exists d, cs' = cs ++ d /\ (d = [] -> forall w', run w' = Some (r, cs)).

Lemma decided_alone_pure {A} (r : A) w cs : decided_alone (fun _ => Some (r, cs)) w cs.
Proof. intros r' cs' [= <- <-]. exists []. by rewrite app_nil_r. Qed.

Lemma add_keys_decided rec base cur inc at_ w ks out cs :
  (forall b c i at' cs', decided_alone (fun w => rec w b c i at' cs') w cs') ->
  decided_alone (fun w => add_keys (rec w) base cur inc at_ ks out cs) w cs.
Proof.
  intros Hrec. revert out cs. induction ks as [|k ks IH]; intros out cs; [apply decided_alone_pure|].
  assert (decided_alone (fun w => add_key (rec w) base cur inc at_ k out cs) w cs) as Hk.
  { unfold add_key. destruct (get k out); [apply decided_alone_pure|].
    specialize (Hrec (get k base) (get k cur) (get k inc) (joinPath at_ k) cs).
    intros r cs' Hr. destruct (rec w _ _ _ _ _) as [[m cs1]|] eqn:E; [|done].
    destruct (Hrec _ _ E) as (d & -> & Hd). exists d.
    destruct m; simplify_eq; (split; [done|]); intros Hd' w'; by rewrite Hd. }
  intros r cs'. cbn [add_keys].
  destruct (add_key (rec w) _ _ _ _ _ _ _) as [[out1 cs1]|] eqn:E; [|done].
  destruct (Hk _ _ E) as (d1 & -> & Hd1). intros Hr.
  destruct (IH out1 (cs ++ d1) _ _ Hr) as (d2 & -> & Hd2).
  exists (d1 ++ d2). rewrite app_assoc. split; [done|].
  intros [-> ->]%app_eq_nil w'. rewrite Hd1 by done. rewrite <- (app_nil_r cs) at 1. rewrite Hd2 by done.
  by rewrite app_nil_r.
Qed.

Lemma merge_decided w f b c i at_ cs : decided_alone (fun w => merge w f b c i at_ cs) w cs.
Proof.
  revert b c i at_ cs. induction f as [|f IH]; intros b c i at_ cs; [done|]. cbn [merge].
  repeat (case_match; try apply decided_alone_pure);
    try (intros r cs' [= <- <-]; by exists [at_]).
  intros r cs'. unfold mergeObjects.
  destruct (add_keys _ _ _ _ _ _ _ _) as [[out cs1]|] eqn:E; [|done]. intros [= <- <-].
  pose proof (add_keys_decided (fun w => merge w f) _ _ _ _ w _ _ _ IH _ _ E) as (d & -> & Hd).
  exists d. split; [done|]. intros Hd' w'. by rewrite Hd.
Qed.

(** The newer change wins at conflicts only: a merge that lists no conflict
    is the same whichever copy is the newer. *)
Theorem merge3_winner_only_at_conflicts w b c i r :
  merge3 w b c i = Some (r, []) -> forall w', merge3 w' b c i = Some (r, []).
Proof. intros Hm. destruct (merge_decided _ _ _ _ _ _ _ _ _ Hm) as (d & Hd & H). by destruct d; [apply H|]. Qed.
