(* ===== verification/DocMerge.v ===== *)
(** * The decision of the settings-document policies (internal/sharesync/docmerge.go)

    [mergeDocument] is what the json3 and toml3 policies make of a reported
    change, for any document format. The format is an interface: parsing,
    recognising the seed document, and writing a merged document. *)

From S2P Require Import Prelude GoStrings Sha256 Entry Mergers Merge3.
Local Open Scope string_scope.
Local Open Scope Z_scope.
Local Open Scope list_scope.

Definition mergeHistory : nat := 4.

(** The docFormat interface. *)
Class docFormat := {
  df_name : string;
  df_parse : string -> result string value;
  df_seed : value -> bool;
  df_render : value -> string -> value -> result string string
}.

(** The Reason of a mirror decision replaced. *)
Definition because (res : MergeResult) (why : string) : MergeResult :=
  MkMergeResult (decision res) (m_content res) (conflict res) why.

Section document.
Context `{F : docFormat}.

(** The tail of mergeDocument: both copies parsed, the base at hand. *)
Definition merge_parsed (inp : MergeInput) (cv : Version) (curData : string)
    (base : option value) (cur inc : value) : option MergeResult :=
  let id := side_id (in_side inp) in
  match merge3 (newer (v_entry (in_incoming inp)) (v_entry cv)) base (Some cur) (Some inc) with
  | None => None
  | Some (merged, conflicts) =>
      let why := df_name +:+ " changes from " +:+ id +:+ " merged" +:+ conflictNote conflicts in
      if same merged (Some cur) then Some (decided Keep false why)
      else if same merged (Some inc) then Some (decided Accept false why)
      else if isEmptyObject merged then
        Some (because (newestWins inp)
          (df_name +:+ " changes from " +:+ id +:+ " would merge to an empty " +:+ df_name
             +:+ "; the newer copy kept"))
      else match merged with
           | None => None (* render of nil: a nil dereference; never reached *)
           | Some m =>
               match df_render m curData cur with
               | Err e =>
                   Some (because (newestWins inp)
                     (df_name +:+ " changes from " +:+ id +:+ " could not be written merged ("
                        +:+ e +:+ "); the newer copy kept"))
               | Ok content => Some (MkMergeResult Merged content false why)
               end
           end
  end.

(** mergeDocument: [None] would be a panic or an endless merge. *)
Definition mergeDocument (inp : MergeInput) : option (result sync_error MergeResult) :=
  let id := side_id (in_side inp) in
  if negb (bool_decide (ekind (v_entry (in_incoming inp)) = File)) then Some (Ok (newestWins inp))
  else match Content (in_incoming inp) with
  | Err ErrTooLarge => Some (Ok (newestWins inp))
  | Err e => Some (Err e)
  | Ok data =>
  match df_parse data with
  | Err _ => Some (Err ErrIncomplete)
  | Ok inc =>
      let current := match in_current inp with
                     | Some cv => bool_decide (ekind (v_entry cv) = File)
                     | None => false
                     end in
      if current && df_seed inc then
        Some (Ok (decided Keep false ("an empty " +:+ df_name +:+ " from " +:+ id +:+ " never replaces content")))
      else if in_fast inp || negb current then Some (Ok (newestWins inp))
      else match in_current inp with
      | None => None
      | Some cv =>
      match Content cv with
      | Err ErrTooLarge => Some (Ok (newestWins inp))
      | Err e => Some (Err e)
      | Ok curData =>
          let replace := Some (Ok (decided Accept false
            ("a whole " +:+ df_name +:+ " from " +:+ id +:+ " replaces an empty or unreadable one"))) in
          match df_parse curData with
          | Err _ => replace
          | Ok cur =>
              if df_seed cur then replace
              else match Base inp with
              | Err e => Some (Err e)
              | Ok b =>
                  let base := match b with
                              | None => None
                              | Some bd => match df_parse bd with Ok v => Some v | Err _ => None end
                              end in
                  option_map Ok (merge_parsed inp cv curData base cur inc)
              end
          end
      end
      end
  end
  end.

(** The merge as the Merger interface has it; [mergeDocument_total] shows the
    default is never taken. *)
Definition Doc_Merge (inp : MergeInput) : result sync_error MergeResult :=
  default (Err ErrUndecided) (mergeDocument inp).

Definition DocPolicy : Merger := MkMerger ScopeFleet LaneAuto mergeHistory Doc_Merge.

(** ** Lemmas *)

Lemma merge3_some w b c i : exists m cs, merge3 w b (Some c) (Some i) = Some (Some m, cs).
Proof.
  destruct (merge_pure w (S (vdepth c)) b (Some c) (Some i) "" []) as [cs Hm]; [simpl; lia|].
  unfold merge3. simpl odepth. rewrite Hm.
  destruct (merged w _ b (Some c) (Some i)) as [m|] eqn:E; [eauto|].
  exfalso. revert Hm. cbn [merge]. repeat case_match; intros [= ?]; try done.
  all: unfold mergeObjects in *; repeat case_match; by simplify_eq.
Qed.

Lemma merge_parsed_total inp cv curData base cur inc :
  exists r, merge_parsed inp cv curData base cur inc = Some r /\ decision r <> Undecided.
Proof.
  unfold merge_parsed.
  destruct (merge3_some (newer (v_entry (in_incoming inp)) (v_entry cv)) base cur inc) as (m & cs & ->).
  destruct (newestWins_not_merged inp) as [_ Hu].
  repeat case_match; eexists; split; try done.
Qed.

Lemma mergeDocument_some inp :
  exists r, mergeDocument inp = Some r /\ match r with Ok res => decision res <> Undecided | Err _ => True end.
Proof.
  pose proof (newestWins_not_merged inp) as [_ Hn]. unfold mergeDocument.
  destruct (negb _); [by eexists|]. destruct (Content (in_incoming inp)) as [data|[]]; try by eexists.
  destruct (df_parse data) as [inc|]; [|by eexists].
  destruct (in_current inp) as [cv|]; simpl.
  2: { rewrite orb_true_r. by eexists. }
  destruct (bool_decide _ && _); [by eexists|]. destruct (in_fast inp || _); [by eexists|].
  destruct (Content cv) as [curData|[]]; try by eexists.
  destruct (df_parse curData) as [cur|]; [|by eexists]. destruct (df_seed cur); [by eexists|].
  destruct (Base inp) as [b|]; [|by eexists].
  match goal with |- context [merge_parsed _ _ _ ?b _ _] =>
    destruct (merge_parsed_total inp cv curData b cur inc) as (r & -> & ?) end.
  by eexists.
Qed.

#[export] Instance Doc_laws : MergerLaws DocPolicy.
Proof.
  split; simpl; intros inp r; unfold Doc_Merge.
  - pose proof (newestWins_not_merged inp) as [Hn _].
    destruct (mergeDocument inp) as [x|] eqn:E; simpl; [|done]. intros -> Hm. revert E. unfold mergeDocument.
    destruct (decide (ekind (v_entry (in_incoming inp)) = File)) as [Hk|Hk];
      [rewrite bool_decide_eq_true_2 by done|rewrite bool_decide_eq_false_2 by done]; simpl;
      [|by intros [= <-]].
    destruct (Content (in_incoming inp)) as [data|[]]; try done; [|by intros [= <-]].
    destruct (df_parse data) as [inc|]; [|done].
    destruct (in_current inp) as [cv|]; [|by rewrite orb_true_r; intros [= <-]].
    intros H. split; [done|]. exists cv. split; [done|].
    destruct (decide (ekind (v_entry cv) = File)) as [?|Hc]; [done|].
    rewrite (bool_decide_eq_false_2 _ Hc), orb_true_r in H. by injection H as <-.
  - destruct (mergeDocument_some inp) as (x & -> & Hx). simpl. by intros ->.
Qed.

(** A settings policy always decides: whatever the format and whatever the
    contents, mergeDocument returns an error or one of its three decisions. *)
Theorem mergeDocument_total inp :
  (exists e, mergeDocument inp = Some (Err e)) \/
  (exists r, mergeDocument inp = Some (Ok r) /\ decision r <> Undecided).
Proof. destruct (mergeDocument_some inp) as ([r|e] & -> & H); eauto. Qed.

(** A seed or a half-written document never replaces content: with a file
    current, an incoming file that does not parse waits on its side, and one
    that parses to the format's seed is answered Keep, fast forwards too. *)
Lemma mergeDocument_guards_content inp cv data :
  in_current inp = Some cv -> ekind (v_entry cv) = File ->
  ekind (v_entry (in_incoming inp)) = File -> Content (in_incoming inp) = Ok data ->
  match df_parse data with
  | Err _ => mergeDocument inp = Some (Err ErrIncomplete)
  | Ok inc => df_seed inc = true ->
      exists r, mergeDocument inp = Some (Ok r) /\ decision r = Keep /\ conflict r = false
  end.
Proof.
  intros Hc Hk Hi Hd. unfold mergeDocument. rewrite Hi, Hd, Hc, Hk. simpl.
  destruct (df_parse data) as [inc|]; [|done]. intros ->. simpl. by eexists.
Qed.

(** A document that is no seed replaces a seed or one that does not parse. *)
Lemma mergeDocument_replaces inp cv data inc curData :
  in_fast inp = false -> in_current inp = Some cv -> ekind (v_entry cv) = File ->
  ekind (v_entry (in_incoming inp)) = File -> Content (in_incoming inp) = Ok data -> df_parse data = Ok inc ->
  df_seed inc = false -> Content cv = Ok curData ->
  exists r, (match df_parse curData with Ok cur => df_seed cur = true | Err _ => True end -> mergeDocument inp = Some (Ok r)) /\ decision r = Accept.
Proof.
  intros Hf Hc Hk Hi Hd Hp Hs Hcd. eexists. split; [|shelve]. unfold mergeDocument. rewrite Hi, Hd, Hc, Hk, Hp, Hs, Hf, Hcd. simpl.
  destruct (df_parse curData) as [cur|]; [intros ->|]; done.
  Unshelve. done.
Qed.

(** Two changed copies end in their three-way merge: the current copy is
    kept exactly when it is the merge already, the incoming one accepted when
    it is, and otherwise the merged document is written; the newer copy is
    taken instead only when the merge is an empty document or cannot be
    written. *)
Theorem mergeDocument_three_way inp cv data inc curData cur b :
  in_fast inp = false -> in_current inp = Some cv -> ekind (v_entry cv) = File ->
  ekind (v_entry (in_incoming inp)) = File ->
  Content (in_incoming inp) = Ok data -> df_parse data = Ok inc -> df_seed inc = false ->
  Content cv = Ok curData -> df_parse curData = Ok cur -> df_seed cur = false ->
  Base inp = Ok b ->
  let base := match b with
              | Some bd => match df_parse bd with Ok v => Some v | Err _ => None end
              | None => None
              end in
  exists m cs r,
    merge3 (newer (v_entry (in_incoming inp)) (v_entry cv)) base (Some cur) (Some inc) = Some (Some m, cs) /\
    mergeDocument inp = Some (Ok r) /\
    (same (Some m) (Some cur) = true -> decision r = Keep) /\
    (same (Some m) (Some cur) = false -> same (Some m) (Some inc) = true -> decision r = Accept) /\
    (same (Some m) (Some cur) = false -> same (Some m) (Some inc) = false ->
       if isEmptyObject (Some m) then decision r = decision (newestWins inp)
       else match df_render m curData cur with
            | Ok content => decision r = Merged /\ m_content r = content
            | Err _ => decision r = decision (newestWins inp)
            end).
Proof.
  intros Hf Hc Hk Hi Hd Hp Hs Hcd Hcp Hcs Hb base.
  destruct (merge3_some (newer (v_entry (in_incoming inp)) (v_entry cv)) base cur inc) as (m & cs & Hm).
  destruct (merge_parsed_total inp cv curData base cur inc) as (r & Hr & _).
  exists m, cs, r. split; [done|]. split.
  { unfold mergeDocument. rewrite Hi, Hd, Hp, Hc, Hk, Hs, Hf. simpl. rewrite Hcd, Hcp, Hcs, Hb.
    fold base. by rewrite Hr. }
  unfold merge_parsed in Hr. rewrite Hm in Hr.
  split_and!; [intros E|intros E E'..]; rewrite E, ?E' in Hr; [by simplify_eq..|].
  repeat case_match; by simplify_eq.
Qed.
End document.
