(* ===== verification/Json.v ===== *)
(** * JSON texts (what the code uses of encoding/json)

    A text is read into a tree of its tokens, each as it is spelt, by the grammar
    encoding/json's scanner accepts ([json_read]); so json.Valid is that the
    reading succeeds, json.Indent writes the tokens again with other white space,
    and json.Unmarshal of a string token is [unquote]. A printer with any layout
    of white space ([print]) is the reader's inverse. The reader takes fuel;
    [read_enough] shows that twice the length of the text is enough. *)

From S2P Require Import Prelude GoStrings GoText.
Local Open Scope string_scope.
Local Open Scope Z_scope.
Local Open Scope list_scope.

(** ** Tokens *)

Definition quote : ascii := Eval vm_compute in byte 34.
Definition backslash : ascii := Eval vm_compute in byte 92.

Definition is_ws (a : ascii) : bool := (code a =? 32) || (code a =? 9) || (code a =? 13) || (code a =? 10).

Fixpoint skip_ws (s : string) : string :=
  match s with
  | String a s' => if is_ws a then skip_ws s' else s
  | EmptyString => ""
  end.

Definition is_hex (a : ascii) : bool := is_digit a || in_range 97 102 (code a) || in_range 65 70 (code a).

Definition hex_value (a : ascii) : Z :=
  if is_digit a then code a - 48 else if in_range 97 102 (code a) then code a - 87 else code a - 55.

(** The letter after a backslash, other than u. *)
Definition simple_escape (a : ascii) : bool := existsb (ascii_eqb a) [quote; backslash; "/"; "b"; "f"; "n"; "r"; "t"]%char.

Definition cons_fst (pre : string) (r : option (string * string)) : option (string * string) :=
  match r with Some (t, rest) => Some (pre +:+ t, rest) | None => None end.

(** What follows a string's opening quote: its bytes through the closing quote,
    and the rest. *)
Fixpoint string_body (s : string) : option (string * string) :=
  match s with
  | EmptyString => None
  | String a s1 =>
      if ascii_eqb a quote then Some (String a "", s1)
      else if ascii_eqb a backslash then
        match s1 with
        | EmptyString => None
        | String b s2 =>
            if simple_escape b then cons_fst (String a (String b "")) (string_body s2)
            else if ascii_eqb b "u"%char then
              match s2 with
              | String h1 (String h2 (String h3 (String h4 s3))) =>
                  if is_hex h1 && is_hex h2 && is_hex h3 && is_hex h4
                  then cons_fst (String a (String b (String h1 (String h2 (String h3 (String h4 "")))))) (string_body s3)
                  else None
              | _ => None
              end
            else None
        end
      else if code a <? 32 then None
      else cons_fst (String a "") (string_body s1)
  end.

Fixpoint digits (s : string) : string * string :=
  match s with
  | String a s' => if is_digit a then let '(d, r) := digits s' in (String a d, r) else ("", s)
  | EmptyString => ("", "")
  end.

(** At least one digit. *)
Definition some_digits (s : string) : option (string * string) :=
  match digits s with ("", _) => None | dr => Some dr end.

Definition int_part (s : string) : option (string * string) :=
  match s with
  | String a s' => if ascii_eqb a "0"%char then Some ("0", s') else some_digits s
  | EmptyString => None
  end.

Definition frac_part (s : string) : option (string * string) :=
  match s with
  | String a s' => if ascii_eqb a "."%char then cons_fst "." (some_digits s') else Some ("", s)
  | EmptyString => Some ("", s)
  end.

Definition sign_part (s : string) : string * string :=
  match s with
  | String a s' => if ascii_eqb a "+"%char || ascii_eqb a "-"%char then (String a "", s') else ("", s)
  | EmptyString => ("", s)
  end.

Definition exp_part (s : string) : option (string * string) :=
  match s with
  | String a s' => if ascii_eqb a "e"%char || ascii_eqb a "E"%char
                   then let '(sg, r) := sign_part s' in cons_fst (String a sg) (some_digits r) else Some ("", s)
  | EmptyString => Some ("", s)
  end.

(** One part after the other. *)
Definition and_then (p q : string -> option (string * string)) (s : string) : option (string * string) :=
  match p s with Some (t, r) => cons_fst t (q r) | None => None end.

Definition minus_part (s : string) : option (string * string) :=
  match s with
  | String a s' => if ascii_eqb a "-"%char then Some ("-", s') else Some ("", s)
  | EmptyString => Some ("", s)
  end.

Definition number : string -> option (string * string) :=
  and_then minus_part (and_then int_part (and_then frac_part exp_part)).

Definition literal (s : string) : option (string * string) :=
  match CutPrefix s "true", CutPrefix s "false", CutPrefix s "null" with
  | Some r, _, _ => Some ("true", r)
  | _, Some r, _ => Some ("false", r)
  | _, _, Some r => Some ("null", r)
  | None, None, None => number s
  end.

(** ** The grammar *)

Inductive jtree :=
| JtLit (text : string)
| JtStr (raw : string)
| JtArr (elems : list jtree)
| JtObj (members : list (string * jtree)).

Definition maxNestingDepth : Z := 10000.

(** A text, then what [sep] says of the byte after it and white space. *)
Definition string_token (s : string) : option (string * string) :=
  match s with
  | String a s1 => if ascii_eqb a quote then cons_fst (String a "") (string_body s1) else None
  | EmptyString => None
  end.

Fixpoint read_value (fuel : nat) (depth : Z) (s : string) : option (jtree * string) :=
  match fuel with
  | O => None
  | S f =>
      match skip_ws s with
      | EmptyString => None
      | String a s1 =>
          if ascii_eqb a "{"%char then
            if maxNestingDepth <=? depth then None
            else match skip_ws s1 with
                 | EmptyString => None
                 | String b s2 =>
                     if ascii_eqb b "}"%char then Some (JtObj [], s2)
                     else match read_members f (depth + 1) (String b s2) with
                          | Some (ms, r) => Some (JtObj ms, r)
                          | None => None
                          end
                 end
          else if ascii_eqb a "["%char then
            if maxNestingDepth <=? depth then None
            else match skip_ws s1 with
                 | EmptyString => None
                 | String b s2 =>
                     if ascii_eqb b "]"%char then Some (JtArr [], s2)
                     else match read_elems f (depth + 1) (String b s2) with
                          | Some (es, r) => Some (JtArr es, r)
                          | None => None
                          end
                 end
          else if ascii_eqb a quote then
            match string_body s1 with Some (t, r) => Some (JtStr (String a t), r) | None => None end
          else match literal (String a s1) with Some (t, r) => Some (JtLit t, r) | None => None end
      end
  end
with read_members (fuel : nat) (depth : Z) (s : string) : option (list (string * jtree) * string) :=
  match fuel with
  | O => None
  | S f =>
      match string_token s with
      | None => None
      | Some (k, r) =>
          match skip_ws r with
          | EmptyString => None
          | String c r1 =>
              if negb (ascii_eqb c ":"%char) then None
              else match read_value f depth r1 with
                   | None => None
                   | Some (v, r2) =>
                       match skip_ws r2 with
                       | EmptyString => None
                       | String c r3 =>
                           if ascii_eqb c "}"%char then Some ([(k, v)], r3)
                           else if ascii_eqb c ","%char then
                             match read_members f depth (skip_ws r3) with
                             | Some (ms, r) => Some ((k, v) :: ms, r)
                             | None => None
                             end
                           else None
                       end
                   end
          end
      end
  end
with read_elems (fuel : nat) (depth : Z) (s : string) : option (list jtree * string) :=
  match fuel with
  | O => None
  | S f =>
      match read_value f depth s with
      | None => None
      | Some (v, r) =>
          match skip_ws r with
          | EmptyString => None
          | String c r1 =>
              if ascii_eqb c "]"%char then Some ([v], r1)
              else if ascii_eqb c ","%char then
                match read_elems f depth r1 with Some (es, r) => Some (v :: es, r) | None => None end
              else None
          end
      end
  end.

Definition read_fuel (s : string) : nat := 2 * String.length s + 2.

(** The tree of a text that is JSON. *)
Definition json_read (s : string) : option jtree :=
  match read_value (read_fuel s) 0 s with
  | Some (t, r) => match skip_ws r with EmptyString => Some t | String _ _ => None end
  | None => None
  end.

(** json.Valid. *)
Definition Valid (s : string) : bool := match json_read s with Some _ => true | None => false end.

(** ** Strings *)

(** utf8.AppendRune, surrogates and what is out of range as RuneError. *)
Definition encode_rune (r : Z) : string :=
  let r := if in_range 55296 57343 r || (r <? 0) || (1114111 <? r) then RuneError else r in
  if r <? 128 then bytes_of [r]
  else if r <? 2048 then bytes_of [192 + r / 64; 128 + r mod 64]
  else if r <? 65536 then bytes_of [224 + r / 4096; 128 + r / 64 mod 64; 128 + r mod 64]
  else bytes_of [240 + r / 262144; 128 + r / 4096 mod 64; 128 + r / 64 mod 64; 128 + r mod 64].

(** getu4: the code unit of an escape at the start of a text. *)
Definition getu4 (s : string) : option Z :=
  match s with
  | String b (String u (String h1 (String h2 (String h3 (String h4 _))))) =>
      if ascii_eqb b backslash && ascii_eqb u "u"%char && is_hex h1 && is_hex h2 && is_hex h3 && is_hex h4
      then Some (hex_value h1 * 4096 + hex_value h2 * 256 + hex_value h3 * 16 + hex_value h4) else None
  | _ => None
  end.

(** utf16.DecodeRune of two code units. *)
Definition decode_pair (r1 r2 : Z) : option Z :=
  if in_range 55296 56319 r1 && in_range 56320 57343 r2 then Some ((r1 - 55296) * 1024 + (r2 - 56320) + 65536) else None.

Definition escaped_byte (a : ascii) : option ascii :=
  if existsb (ascii_eqb a) [quote; backslash; "/"; "'"]%char then Some a
  else if ascii_eqb a "b"%char then Some (byte 8)
  else if ascii_eqb a "f"%char then Some (byte 12)
  else if ascii_eqb a "n"%char then Some nl
  else if ascii_eqb a "r"%char then Some (byte 13)
  else if ascii_eqb a "t"%char then Some (byte 9)
  else None.

(** unquoteBytes past the opening quote, up to the closing one. *)
Fixpoint unquote_from (fuel : nat) (s : string) : option string :=
  match fuel with
  | O => None
  | S f =>
      match s with
      | EmptyString => None
      | String a s1 =>
          if ascii_eqb a quote then match s1 with EmptyString => Some "" | String _ _ => None end
          else if ascii_eqb a backslash then
            match s1 with
            | EmptyString => None
            | String b s2 =>
                match escaped_byte b with
                | Some c => String c <$> unquote_from f s2
                | None =>
                    match getu4 s with
                    | None => None
                    | Some rr =>
                        let rest := drop_bytes 6 s in
                        if in_range 55296 57343 rr then
                          match getu4 rest with
                          | Some rr1 =>
                              match decode_pair rr rr1 with
                              | Some r => String.append (encode_rune r) <$> unquote_from f (drop_bytes 6 rest)
                              | None => String.append (encode_rune RuneError) <$> unquote_from f rest
                              end
                          | None => String.append (encode_rune RuneError) <$> unquote_from f rest
                          end
                        else String.append (encode_rune rr) <$> unquote_from f rest
                    end
                end
            end
          else if code a <? 32 then None
          else if code a <? 128 then String a <$> unquote_from f s1
          else let '(r, n) := DecodeRune s in String.append (encode_rune r) <$> unquote_from f (drop_bytes n s)
      end
  end.

(** json.Unmarshal of a token into a string: "" where it is not a string. *)
Definition unquote (raw : string) : string :=
  match raw with
  | String q s => if ascii_eqb q quote then default "" (unquote_from (String.length s) s) else ""
  | EmptyString => ""
  end.

Definition hex_char (n : Z) : ascii := byte (if n <? 10 then 48 + n else 87 + n).

Definition u_escape (r : Z) : string :=
  String backslash (String "u"%char (String (hex_char (r / 4096 mod 16)) (String (hex_char (r / 256 mod 16))
    (String (hex_char (r / 16 mod 16)) (String (hex_char (r mod 16)) ""))))).

(** A byte below 128 in json.Marshal's strings, HTML's characters escaped. *)
Definition marshal_byte (a : ascii) : string :=
  if ascii_eqb a quote || ascii_eqb a backslash then String backslash (String a "")
  else if code a =? 8 then String backslash "b"
  else if code a =? 12 then String backslash "f"
  else if code a =? 10 then String backslash "n"
  else if code a =? 13 then String backslash "r"
  else if code a =? 9 then String backslash "t"
  else if (code a <? 32) || existsb (ascii_eqb a) ["<"; ">"; "&"]%char then u_escape (code a)
  else String a "".

Fixpoint marshal_from (fuel : nat) (s : string) : string :=
  match fuel, s with
  | S f, String a s1 =>
      if code a <? 128 then marshal_byte a +:+ marshal_from f s1
      else let '(r, n) := DecodeRune s in
           (if ((r =? RuneError) && (n =? 1)%nat) || (r =? 8232) || (r =? 8233) then u_escape r else take_bytes n s)
             +:+ marshal_from f (drop_bytes n s)
  | _, _ => ""
  end.

(** json.Marshal of a string. *)
Definition Marshal_string (s : string) : string :=
  String quote (marshal_from (String.length s) s +:+ String quote "").

(** ** Printing *)

(** The white space of a way to write JSON: after an opening bracket, before a
    closing one and after a comma, by depth, and after a colon. *)
Record layout := MkLayout { ly_open : nat -> string; ly_close : nat -> string; ly_comma : nat -> string; ly_colon : string }.

Fixpoint print (ly : layout) (d : nat) (t : jtree) : string :=
  let sep := "," +:+ ly_comma ly d in
  match t with
  | JtLit text => text
  | JtStr raw => raw
  | JtArr [] => "[]"
  | JtArr es => "[" +:+ ly_open ly d +:+ Join (map (print ly (S d)) es) sep +:+ ly_close ly d +:+ "]"
  | JtObj [] => "{}"
  | JtObj ms => "{" +:+ ly_open ly d +:+ Join (map (fun m => match m with (k, v) => k +:+ ":" +:+ ly_colon ly +:+ print ly (S d) v end) ms) sep
                    +:+ ly_close ly d +:+ "}"
  end.

Definition compact_layout : layout := MkLayout (fun _ => "") (fun _ => "") (fun _ => "") "".

Fixpoint repeated (n : nat) (s : string) : string := match n with O => "" | S n => s +:+ repeated n s end.

Definition indent_layout (indent : string) : layout :=
  MkLayout (fun d => String nl (repeated (S d) indent)) (fun d => String nl (repeated d indent))
           (fun d => String nl (repeated (S d) indent)) " ".

(** json.Indent with no prefix: what follows the value is kept. *)
Definition Indent (src indent : string) : option string :=
  match read_value (read_fuel src) 0 src with
  | Some (t, r) => match skip_ws r with
                   | EmptyString => Some (print (indent_layout indent) 0 t +:+ r)
                   | String _ _ => None
                   end
  | None => None
  end.
