(* ===== verification/JsonLaws.v ===== *)
(** * Reading and printing JSON

    Reading a text gives well-formed tokens, nested no deeper than the scanner
    allows, and printing them with any white space reads back as the same tree. *)

From S2P Require Import Prelude GoStrings GoText Json.
Local Open Scope string_scope.
Local Open Scope Z_scope.
Local Open Scope list_scope.

(** ** Well-formed tokens *)

(** What may follow a value: nothing, white space, a comma or a closing bracket. *)
Definition stop (a : ascii) : bool := is_ws a || existsb (ascii_eqb a) [","; "]"; "}"]%char.

(** The first byte of a text, if any, is one that [P] accepts. *)
Definition starts (P : ascii -> bool) (s : string) : Prop := match s with EmptyString => True | String a _ => P a = true end.

Fixpoint all_bytes (P : ascii -> bool) (s : string) : bool :=
  match s with EmptyString => true | String a s' => P a && all_bytes P s' end.

Definition nonempty_digits (d : string) : Prop := d <> "" /\ all_digits d = true.

Definition int_ok (i : string) : Prop := i = "0" \/ (nonempty_digits i /\ starts (fun a => negb (ascii_eqb a "0"%char)) i).
Definition frac_ok (f : string) : Prop := f = "" \/ exists d, f = String "."%char d /\ nonempty_digits d.
Definition exp_ok (e : string) : Prop :=
  e = "" \/ exists a sg d, e = String a (sg +:+ d) /\ (a = "e"%char \/ a = "E"%char) /\ (sg = "" \/ sg = "+" \/ sg = "-") /\ nonempty_digits d.

Definition num_ok (t : string) : Prop :=
  exists m i f e, t = m +:+ i +:+ f +:+ e /\ (m = "" \/ m = "-") /\ int_ok i /\ frac_ok f /\ exp_ok e.

Definition lit_ok (t : string) : Prop := t = "true" \/ t = "false" \/ t = "null" \/ num_ok t.

Definition str_ok (raw : string) : Prop := exists body, raw = String quote body /\ string_body body = Some (body, "").

Fixpoint tree_ok (t : jtree) : Prop :=
  match t with
  | JtLit text => lit_ok text
  | JtStr raw => str_ok raw
  | JtArr es => fold_right (fun e P => tree_ok e /\ P) True es
  | JtObj ms => fold_right (fun m P => match m with (k, v) => (str_ok k /\ tree_ok v) /\ P end) True ms
  end.

Fixpoint tree_depth (t : jtree) : nat :=
  match t with
  | JtLit _ | JtStr _ => 0
  | JtArr es => S (list_max (map tree_depth es))
  | JtObj ms => S (list_max (map (fun m => match m with (_, v) => tree_depth v end) ms))
  end.

Lemma tree_ok_arr es : tree_ok (JtArr es) <-> Forall tree_ok es.
Proof. cbn [tree_ok]. induction es as [|e es IH]; simpl; [by rewrite Forall_nil|]. by rewrite Forall_cons, IH. Qed.

Lemma tree_ok_obj ms : tree_ok (JtObj ms) <-> Forall (fun m => str_ok m.1 /\ tree_ok m.2) ms.
Proof. cbn [tree_ok]. induction ms as [|[k v] ms IH]; simpl; [by rewrite Forall_nil|]. by rewrite Forall_cons, IH. Qed.

(** Induction on trees with the lists of their parts. *)
Section jtree_induction.
Context (P : jtree -> Prop) (Hl : forall t, P (JtLit t)) (Hs : forall r, P (JtStr r))
  (Ha : forall es, Forall P es -> P (JtArr es)) (Ho : forall ms, Forall (fun m => P m.2) ms -> P (JtObj ms)).

Fixpoint jtree_nested (t : jtree) : P t :=
  match t with
  | JtLit text => Hl text
  | JtStr raw => Hs raw
  | JtArr es => Ha es ((fix go es : Forall P es := match es with [] => Forall_nil_2 _ | e :: es' => Forall_cons_2 _ _ _ (jtree_nested e) (go es') end) es)
  | JtObj ms => Ho ms ((fix go ms : Forall (fun m => P m.2) ms := match ms with [] => Forall_nil_2 _ | m :: ms' => Forall_cons_2 _ _ _ (jtree_nested m.2) (go ms') end) ms)
  end.
End jtree_induction.

(** ** White space *)

Lemma skip_ws_app w s : all_bytes is_ws w = true -> skip_ws (w +:+ s) = skip_ws s.
Proof. induction w as [|a w IH]; simpl; [done|]. intros [-> ?]%andb_true_iff. by apply IH. Qed.

Lemma skip_ws_solid a s : is_ws a = false -> skip_ws (String a s) = String a s.
Proof. simpl. by intros ->. Qed.

Lemma skip_ws_idem s : skip_ws (skip_ws s) = skip_ws s.
Proof. induction s as [|a s IH]; simpl; [done|]. destruct (is_ws a) eqn:E; [done|]. by apply skip_ws_solid. Qed.

Lemma skip_ws_first s a r : skip_ws s = String a r -> is_ws a = false.
Proof. intros E. pose proof (skip_ws_idem s) as H. rewrite E in H. simpl in H. destruct (is_ws a) eqn:Ha; [|done]. exfalso. apply (f_equal String.length) in H. simpl in H.
  assert (String.length (skip_ws r) <= String.length r)%nat; [|lia]. clear. induction r as [|b r IH]; simpl; [done|]. destruct (is_ws b); simpl; lia. Qed.

Lemma skip_ws_split s : exists w, s = w +:+ skip_ws s /\ all_bytes is_ws w = true.
Proof.
  induction s as [|a s (w & E & Hw)]; [by exists ""|]. simpl. destruct (is_ws a) eqn:Ha; [|by exists ""].
  exists (String a w). simpl. by rewrite <- E, Ha.
Qed.

Lemma skip_ws_length s : (String.length (skip_ws s) <= String.length s)%nat.
Proof. destruct (skip_ws_split s) as (w & E & _). rewrite E at 2. rewrite length_append_s. lia. Qed.

Lemma all_bytes_app P s t : all_bytes P (s +:+ t) = all_bytes P s && all_bytes P t.
Proof. induction s as [|a s IH]; simpl; [done|]. by rewrite IH, andb_assoc. Qed.

Lemma all_bytes_impl (P Q : ascii -> bool) s : (forall a, P a = true -> Q a = true) -> all_bytes P s = true -> all_bytes Q s = true.
Proof. intros H. induction s as [|a s IH]; simpl; [done|]. rewrite !andb_true_iff. naive_solver. Qed.

(** ** Strings *)

Lemma cons_fst_Some pre r t rest : cons_fst pre r = Some (t, rest) -> exists t', r = Some (t', rest) /\ t = pre +:+ t'.
Proof. destruct r as [[t' r']|]; simpl; [|done]. intros [= <- <-]. eauto. Qed.

Lemma string_body_split s t r : string_body s = Some (t, r) -> s = t +:+ r /\ forall r', string_body (t +:+ r') = Some (t, r').
Proof.
  remember (String.length s) as n eqn:Hn. assert (String.length s <= n)%nat as Hle by lia. clear Hn. revert s t r Hle.
  induction n as [|n IH]; intros [|a s] t r Hle; cbn [String.length] in Hle; try done; [lia|]. cbn [string_body].
  destruct (ascii_eqb a quote) eqn:Hq; [intros [= <- <-]; split; [done|]; intros r'; cbn [string_body String.append]; by rewrite Hq|].
  destruct (ascii_eqb a backslash) eqn:Hb.
  - destruct s as [|b s]; [done|]. destruct (simple_escape b) eqn:Hsi.
    + intros (t' & E & ->)%cons_fst_Some. apply IH in E as [-> Ht]; [|simpl in *; lia]. split; [done|]. intros r'. cbn [string_body String.append]. by rewrite Hq, Hb, Hsi, Ht.
    + destruct (ascii_eqb b "u"%char) eqn:Hu; [|done]. destruct s as [|h1 [|h2 [|h3 [|h4 s]]]]; try done. destruct (_ && is_hex h4) eqn:Hh; [|done].
      intros (t' & E & ->)%cons_fst_Some. apply IH in E as [-> Ht]; [|simpl in *; lia]. split; [done|]. intros r'. cbn [string_body String.append]. by rewrite Hq, Hb, Hsi, Hu, Hh, Ht.
  - destruct (code a <? 32) eqn:Hc; [done|]. intros (t' & E & ->)%cons_fst_Some. apply IH in E as [-> Ht]; [|simpl in *; lia].
    split; [done|]. intros r'. cbn [string_body String.append]. by rewrite Hq, Hb, Hc, Ht.
Qed.

Lemma string_body_ok s t r : string_body s = Some (t, r) -> str_ok (String quote t).
Proof. intros [_ H]%string_body_split. exists t. split; [done|]. by rewrite <- (append_nil_r t) at 1. Qed.

Lemma string_token_split s t r : string_token s = Some (t, r) -> str_ok t /\ s = t +:+ r /\ t <> "".
Proof.
  destruct s as [|a s]; [done|]. cbn [string_token]. destruct (ascii_eqb a quote) eqn:E; [|done]. apply ascii_eqb_eq in E as ->.
  intros (t' & E & ->)%cons_fst_Some. split; [by eapply string_body_ok|]. apply string_body_split in E as [-> _]. done.
Qed.

Lemma string_token_join t r : str_ok t -> string_token (t +:+ r) = Some (t, r).
Proof. intros (b & -> & E). apply string_body_split in E as [_ H]. cbn [string_token String.append]. by rewrite ascii_eqb_refl, H. Qed.

(** ** Numbers and literals *)

Lemma digits_split s d r : digits s = (d, r) -> s = d +:+ r /\ all_digits d = true /\ starts (fun a => negb (is_digit a)) r.
Proof.
  revert d r. induction s as [|a s IH]; intros d r; simpl; [by intros [= <- <-]|].
  destruct (is_digit a) eqn:Ha; [|intros [= <- <-]; by rewrite <- negb_true_iff in Ha].
  destruct (digits s) as [d' r'] eqn:E. intros [= <- <-]. destruct (IH _ _ eq_refl) as (-> & Hd & Hr). simpl. by rewrite Ha.
Qed.

Lemma digits_join d r : all_digits d = true -> starts (fun a => negb (is_digit a)) r -> digits (d +:+ r) = (d, r).
Proof.
  intros Hd Hr. induction d as [|a d IH]; simpl in *.
  - destruct r as [|b r]; simpl in *; [done|]. by apply negb_true_iff in Hr as ->.
  - apply andb_true_iff in Hd as [-> Hd]. by rewrite IH.
Qed.

Lemma some_digits_split s d r : some_digits s = Some (d, r) -> s = d +:+ r /\ nonempty_digits d.
Proof.
  unfold some_digits, nonempty_digits. destruct (digits s) as [[|a d'] r'] eqn:E; [done|]. intros [= <- <-].
  apply digits_split in E as (-> & ? & _). done.
Qed.

Lemma some_digits_join d r : nonempty_digits d -> starts (fun a => negb (is_digit a)) r -> some_digits (d +:+ r) = Some (d, r).
Proof. intros [Hne Hd] Hr. unfold some_digits. rewrite digits_join by done. by destruct d. Qed.

Lemma number_split s t r : number s = Some (t, r) -> num_ok t /\ s = t +:+ r.
Proof.
  unfold number, and_then, num_ok. destruct (minus_part s) as [[m r1]|] eqn:Em; [|done]. intros (t1 & E1 & ->)%cons_fst_Some.
  destruct (int_part r1) as [[i r2]|] eqn:Ei; [|done]. apply cons_fst_Some in E1 as (t2 & E2 & ->).
  destruct (frac_part r2) as [[f r3]|] eqn:Ef; [|done]. apply cons_fst_Some in E2 as (e & Ee & ->).
  assert (s = m +:+ r1 /\ (m = "" \/ m = "-")) as [-> Hm].
  { destruct s as [|a s]; [by simplify_eq/=; auto|]. simpl in Em. destruct (ascii_eqb a "-"%char) eqn:E; simplify_eq; [apply ascii_eqb_eq in E as ->; auto|auto]. }
  assert (r1 = i +:+ r2 /\ int_ok i) as [-> Hi].
  { destruct r1 as [|a r1]; [done|]. simpl in Ei. destruct (ascii_eqb a "0"%char) eqn:E; [simplify_eq; apply ascii_eqb_eq in E as ->; split; [done|by left]|].
    apply some_digits_split in Ei as [E' Hd]. split; [done|]. right. split; [done|]. destruct i; [by destruct Hd|]. simplify_eq/=. by rewrite E. }
  assert (r2 = f +:+ r3 /\ frac_ok f) as [-> Hf].
  { destruct r2 as [|a r2]; [simplify_eq/=; split; [done|by left]|]. simpl in Ef. destruct (ascii_eqb a "."%char) eqn:E; [|simplify_eq; split; [done|by left]].
    apply ascii_eqb_eq in E as ->. apply cons_fst_Some in Ef as (d & [-> Hd]%some_digits_split & ->). split; [done|]. right. by exists d. }
  assert (r3 = e +:+ r /\ exp_ok e) as [-> He].
  { destruct r3 as [|a r3]; [simplify_eq/=; split; [done|by left]|]. simpl in Ee. destruct (_ || _) eqn:E; [|simplify_eq; split; [done|by left]].
    destruct (sign_part r3) as [sg r4] eqn:Es. apply cons_fst_Some in Ee as (d & [-> Hd]%some_digits_split & ->).
    assert (r3 = sg +:+ d +:+ r /\ (sg = "" \/ sg = "+" \/ sg = "-")) as [-> Hsg].
    { destruct r3 as [|b r3]; simpl in Es; [simplify_eq; auto|]. destruct (_ || _) eqn:E' in Es; simplify_eq; [|auto].
      split; [done|]. apply orb_true_iff in E' as [->%ascii_eqb_eq| ->%ascii_eqb_eq]; auto. }
    split; [simpl; by rewrite append_assoc|]. right. exists a, sg, d. split_and!; [done| |done|done]. apply orb_true_iff in E as [->%ascii_eqb_eq| ->%ascii_eqb_eq]; auto. }
  split; [eauto 10|]. by rewrite !append_assoc.
Qed.

Lemma nonempty_digits_first d r : nonempty_digits d -> exists a d', d +:+ r = String a (d' +:+ r) /\ is_digit a = true.
Proof. intros [Hne Hd]. destruct d as [|a d]; [done|]. simpl in Hd. apply andb_true_iff in Hd as [Ha _]. eauto. Qed.

Lemma ascii_eqb_sym a b : ascii_eqb a b = ascii_eqb b a.
Proof. apply Ascii.eqb_sym. Qed.

Lemma digit_not (a c : ascii) : is_digit a = true -> is_digit c = false -> ascii_eqb a c = false.
Proof. intros Ha Hc. destruct (ascii_eqb a c) eqn:E; [|done]. apply ascii_eqb_eq in E as ->. congruence. Qed.

Lemma stop_inv a : stop a = true -> code a = 32 \/ code a = 9 \/ code a = 13 \/ code a = 10 \/ a = ","%char \/ a = "]"%char \/ a = "}"%char.
Proof.
  unfold stop, is_ws. simpl. rewrite !orb_true_iff, !Z.eqb_eq, !ascii_eqb_eq. intuition auto; try done.
Qed.

Lemma starts_stop (P : ascii -> bool) r : starts stop r -> (forall a, stop a = true -> P a = true) -> starts P r.
Proof. destruct r; simpl; auto. Qed.

Lemma stop_not (c a : ascii) : stop c = false -> stop a = true -> ascii_eqb a c = false.
Proof. intros Hc Ha. destruct (ascii_eqb a c) eqn:E; [|done]. apply ascii_eqb_eq in E as ->. congruence. Qed.

Lemma stop_not_digit a : stop a = true -> is_digit a = false.
Proof. intros [E|[E|[E|[E|[-> |[-> | ->]]]]]]%stop_inv; [unfold is_digit; rewrite E; done..|done|done|done]. Qed.

Lemma exp_part_join e r : exp_ok e -> starts stop r -> exp_part (e +:+ r) = Some (e, r).
Proof.
  intros [->|(a & sg & d & -> & Ha & Hsg & Hd)] Hr.
  - destruct r as [|a r]; [done|]. simpl in Hr. cbn [String.append exp_part]. by rewrite !(stop_not _ a) by done.
  - cbn [String.append exp_part]. assert (ascii_eqb a "e"%char || ascii_eqb a "E"%char = true) as -> by (by destruct Ha as [-> | ->]).
    destruct (nonempty_digits_first d r Hd) as (b & d' & E & Hb).
    assert (sign_part ((sg +:+ d) +:+ r) = (sg, d +:+ r)) as ->.
    { destruct Hsg as [->|[->| ->]]; cbn [String.append]; [|done|done]. rewrite E. cbn [sign_part]. by rewrite !(digit_not b) by done. }
    rewrite some_digits_join; [done|done|]. apply starts_stop; [done|]. intros c Hc. by rewrite stop_not_digit.
Qed.

Lemma exp_first e r : exp_ok e -> starts stop r -> starts (fun a => negb (is_digit a) && negb (ascii_eqb a "."%char)) (e +:+ r).
Proof.
  intros [->|(a & sg & d & -> & [->| ->] & _)] Hr; [|done..]. apply starts_stop; [done|]. intros c Hc. rewrite stop_not_digit by done. by rewrite (stop_not _ c).
Qed.

Lemma starts_impl (P Q : ascii -> bool) s : (forall a, P a = true -> Q a = true) -> starts P s -> starts Q s.
Proof. destruct s; simpl; auto. Qed.

Lemma frac_part_join f s : frac_ok f -> starts (fun a => negb (is_digit a) && negb (ascii_eqb a "."%char)) s -> frac_part (f +:+ s) = Some (f, s).
Proof.
  intros [->|(d & -> & Hd)] Hs.
  - destruct s as [|a s]; [done|]. cbn [String.append frac_part]. simpl in Hs. apply andb_true_iff in Hs as [_ ->%negb_true_iff]. done.
  - cbn [String.append frac_part]. rewrite ascii_eqb_refl, some_digits_join; [done|done|]. eapply starts_impl; [|done]. intros a. rewrite andb_true_iff. tauto.
Qed.

Lemma frac_first f s : frac_ok f -> starts (fun a => negb (is_digit a) && negb (ascii_eqb a "."%char)) s -> starts (fun a => negb (is_digit a)) (f +:+ s).
Proof. intros [->|(d & -> & Hd)] Hs; [|done]. eapply starts_impl; [|done]. intros a. rewrite andb_true_iff. tauto. Qed.

Lemma int_part_join i s : int_ok i -> starts (fun a => negb (is_digit a)) s -> int_part (i +:+ s) = Some (i, s).
Proof.
  intros [->|[Hd H0]] Hs; [done|]. destruct (nonempty_digits_first i s Hd) as (a & i' & E & Ha). rewrite E. cbn [int_part]. rewrite <- E.
  rewrite some_digits_join by done. destruct i as [|b i]; [by destruct Hd|]. simplify_eq/=. apply negb_true_iff in H0. by rewrite H0.
Qed.

Lemma int_first i : int_ok i -> exists a i', i = String a i' /\ is_digit a = true.
Proof. intros [->|[Hd _]]; [by exists "0"%char, ""|]. destruct (nonempty_digits_first i "" Hd) as (a & i' & E & Ha). rewrite !append_nil_r in E. eauto. Qed.

Lemma number_join t r : num_ok t -> starts stop r -> number (t +:+ r) = Some (t, r).
Proof.
  intros (m & i & f & e & -> & Hm & Hi & Hf & He) Hr. unfold number, and_then. rewrite !append_assoc.
  assert (minus_part (m +:+ i +:+ f +:+ e +:+ r) = Some (m, i +:+ f +:+ e +:+ r)) as ->.
  { destruct Hm as [->| ->]; [|done]. destruct (int_first i Hi) as (a & i' & -> & Ha). cbn [String.append minus_part]. by rewrite (digit_not a). }
  pose proof (exp_first e r He Hr) as H1. pose proof (frac_first f (e +:+ r) Hf H1) as H2.
  rewrite int_part_join, frac_part_join, exp_part_join by done. done.
Qed.

Lemma literal_split s t r : literal s = Some (t, r) -> lit_ok t /\ s = t +:+ r.
Proof.
  unfold literal, lit_ok. destruct (CutPrefix s "true") as [r1|] eqn:E1; [intros [= <- <-]; apply CutPrefix_Some in E1; auto|].
  destruct (CutPrefix s "false") as [r2|] eqn:E2; [intros [= <- <-]; apply CutPrefix_Some in E2; auto|].
  destruct (CutPrefix s "null") as [r3|] eqn:E3; [intros [= <- <-]; apply CutPrefix_Some in E3; auto|].
  intros [? ?]%number_split. auto.
Qed.

(** The first byte of a literal opens nothing else. *)
Lemma lit_first t : lit_ok t -> exists a t', t = String a t' /\ (is_digit a = true \/ a = "-"%char \/ a = "t"%char \/ a = "f"%char \/ a = "n"%char).
Proof.
  intros [->|[->|[->|(m & i & f & e & -> & [->| ->] & Hi & _)]]]; [eexists _, _; split; [done|]; auto 6..| |].
  - destruct (int_first i Hi) as (a & i' & -> & Ha). simpl. eauto.
  - eexists _, _. split; [done|]. auto 6.
Qed.

Lemma literal_join t r : lit_ok t -> starts stop r -> literal (t +:+ r) = Some (t, r).
Proof.
  intros [->|[->|[->|Hn]]] Hr; unfold literal; [by rewrite CutPrefix_self| |..].
  - rewrite CutPrefix_self. by simpl.
  - rewrite CutPrefix_self. by simpl.
  - pose proof Hn as (m & i & f & e & E & Hm & Hi & _). destruct (int_first i Hi) as (a & i' & -> & Ha).
    assert (exists b t', t = String b t' /\ (b = "-"%char \/ is_digit b = true)) as (b & t' & Et & Hb).
    { subst t. destruct Hm as [->| ->]; simpl; eauto. }
    rewrite <- (number_join t r) by done. rewrite Et. cbn [String.append CutPrefix].
    destruct Hb as [-> | Hb]; [done|]. by rewrite !(ascii_eqb_sym _ b), !(digit_not b) by done.
Qed.

(** ** Reading is bounded by what it consumes *)

Lemma list_max_cons n ns : list_max (n :: ns) = Nat.max n (list_max ns).
Proof. done. Qed.

(** What a reading consumes, yields and costs: [over] is how far its tree reaches
    above the depth it is read at. *)
Definition consumes {A} (read : nat -> Z -> string -> option (A * string)) (tree : A -> jtree) (over : Z) (f : nat) : Prop :=
  forall d s x r, read f d s = Some (x, r) ->
    (String.length r < String.length s)%nat /\ tree_ok (tree x) /\
    (d <= maxNestingDepth -> d + Z.of_nat (tree_depth (tree x)) <= maxNestingDepth + over) /\
    forall g, (2 * (String.length s - String.length r) <= g)%nat -> read g d s = Some (x, r).

Lemma value_consumes f : consumes read_members JtObj 1 f -> consumes read_elems JtArr 1 f -> consumes read_value id 0 (S f).
Proof.
  unfold consumes, id. intros IHm IHe d s t r. cbn [read_value]. pose proof (skip_ws_length s) as Hl. destruct (skip_ws s) as [|a s1] eqn:Es; [done|]. cbn [String.length] in Hl.
  destruct (ascii_eqb a "{"%char) eqn:Eo; [|destruct (ascii_eqb a "["%char) eqn:Ea; [|destruct (ascii_eqb a quote) eqn:Eq]].
  - destruct (Z.leb_spec maxNestingDepth d) as [|Hd]; [done|]. pose proof (skip_ws_length s1) as Hl1. destruct (skip_ws s1) as [|b s2] eqn:Es1; [done|]. cbn [String.length] in Hl1.
    destruct (ascii_eqb b "}"%char) eqn:Eb.
    + intros [= <- <-]. split_and!; [lia|done|simpl; lia|]. intros [|g] Hg; [lia|]. cbn [read_value]. rewrite Es, Eo, Es1, Eb. by rewrite (proj2 (Z.leb_gt _ _)) by lia.
    + destruct (read_members f (d + 1) (String b s2)) as [[ms r']|] eqn:Em; [|done]. intros [= <- <-]. apply IHm in Em as (H1 & H2 & H3 & H4). cbn [String.length] in *.
      split_and!; [lia|done|specialize (H3 ltac:(lia)); lia|]. intros [|g] Hg; [lia|]. cbn [read_value]. rewrite Es, Eo, Es1, Eb.
      rewrite (proj2 (Z.leb_gt _ _)) by lia. rewrite H4 by lia. done.
  - destruct (Z.leb_spec maxNestingDepth d) as [|Hd]; [done|]. pose proof (skip_ws_length s1) as Hl1. destruct (skip_ws s1) as [|b s2] eqn:Es1; [done|]. cbn [String.length] in Hl1.
    destruct (ascii_eqb b "]"%char) eqn:Eb.
    + intros [= <- <-]. split_and!; [lia|done|simpl; lia|]. intros [|g] Hg; [lia|]. cbn [read_value]. rewrite Es, Eo, Ea, Es1, Eb. by rewrite (proj2 (Z.leb_gt _ _)) by lia.
    + destruct (read_elems f (d + 1) (String b s2)) as [[es r']|] eqn:Em; [|done]. intros [= <- <-]. apply IHe in Em as (H1 & H2 & H3 & H4). cbn [String.length] in *.
      split_and!; [lia|done|specialize (H3 ltac:(lia)); lia|]. intros [|g] Hg; [lia|]. cbn [read_value]. rewrite Es, Eo, Ea, Es1, Eb.
      rewrite (proj2 (Z.leb_gt _ _)) by lia. rewrite H4 by lia. done.
  - destruct (string_body s1) as [[b r']|] eqn:Eb; [|done]. intros [= <- <-]. pose proof (string_body_ok _ _ _ Eb) as Hok. pose proof Eb as [-> _]%string_body_split.
    apply ascii_eqb_eq in Eq as ->. rewrite length_append_s in *. split_and!; [lia|done|simpl; lia|]. intros [|g] Hg; [lia|]. cbn [read_value]. rewrite Es, Eo, Ea, Eb. done.
  - destruct (literal (String a s1)) as [[b r']|] eqn:Eb; [|done]. intros [= <- <-]. pose proof Eb as [Hok Hsp]%literal_split.
    destruct (lit_first _ Hok) as (c & b' & -> & _). assert (s1 = b' +:+ r') as -> by (simpl in Hsp; congruence). rewrite length_append_s in *.
    split_and!; [lia|done|simpl; lia|]. intros [|g] Hg; [lia|]. cbn [read_value]. rewrite Es, Eo, Ea, Eq, Eb. done.
Qed.

Lemma members_consumes f : consumes read_value id 0 f -> consumes read_members JtObj 1 f -> consumes read_members JtObj 1 (S f).
Proof.
  unfold consumes, id. intros IHv IHm d s ms r. cbn [read_members]. destruct (string_token s) as [[k r0]|] eqn:Ek; [|done]. pose proof Ek as (Hk & -> & Hkne)%string_token_split.
  pose proof (skip_ws_length r0) as Hl0. destruct (skip_ws r0) as [|c r1] eqn:E0; [done|]. destruct (ascii_eqb c ":"%char) eqn:Ec; [|done]. cbn [negb].
  destruct (read_value f d r1) as [[v r2]|] eqn:Ev; [|done]. apply IHv in Ev as (V1 & V2 & V3 & V4). pose proof (skip_ws_length r2) as Hl2.
  destruct (skip_ws r2) as [|c' r3] eqn:E2; [done|]. cbn [String.length] in *. rewrite length_append_s. destruct (ascii_eqb c' "}"%char) eqn:Ecl.
  - intros [= <- <-]. split_and!; [lia|by split; [split|]| |].
    + intros Hd. specialize (V3 Hd). cbn [tree_depth map]. rewrite list_max_cons. simpl. lia.
    + intros [|g] Hg; [lia|]. cbn [read_members]. rewrite Ek, E0, Ec. cbn [negb]. rewrite V4 by lia. by rewrite E2, Ecl.
  - destruct (ascii_eqb c' ","%char) eqn:Eco; [|done]. destruct (read_members f d (skip_ws r3)) as [[ms' r4]|] eqn:Em; [|done].
    intros [= <- <-]. pose proof (skip_ws_length r3). apply IHm in Em as (M1 & M2 & M3 & M4). split_and!; [lia|by split; [split|]| |].
    + intros Hd. specialize (V3 Hd). specialize (M3 Hd). cbn [tree_depth map] in *. rewrite list_max_cons. lia.
    + intros [|g] Hg; [lia|]. cbn [read_members]. rewrite Ek, E0, Ec. cbn [negb]. rewrite V4 by lia. rewrite E2, Ecl, Eco. by rewrite M4 by lia.
Qed.

Lemma elems_consumes f : consumes read_value id 0 f -> consumes read_elems JtArr 1 f -> consumes read_elems JtArr 1 (S f).
Proof.
  unfold consumes, id. intros IHv IHe d s es r. cbn [read_elems]. destruct (read_value f d s) as [[v r2]|] eqn:Ev; [|done]. apply IHv in Ev as (V1 & V2 & V3 & V4). pose proof (skip_ws_length r2) as Hl2.
  destruct (skip_ws r2) as [|c' r3] eqn:E2; [done|]. cbn [String.length] in *. destruct (ascii_eqb c' "]"%char) eqn:Ecl.
  - intros [= <- <-]. split_and!; [lia|done| |].
    + intros Hd. specialize (V3 Hd). cbn [tree_depth map]. rewrite list_max_cons. simpl. lia.
    + intros [|g] Hg; [lia|]. cbn [read_elems]. rewrite V4 by lia. by rewrite E2, Ecl.
  - destruct (ascii_eqb c' ","%char) eqn:Eco; [|done]. destruct (read_elems f d r3) as [[es' r4]|] eqn:Em; [|done].
    intros [= <- <-]. apply IHe in Em as (M1 & M2 & M3 & M4). split_and!; [lia|done| |].
    + intros Hd. specialize (V3 Hd). specialize (M3 Hd). cbn [tree_depth map] in *. rewrite list_max_cons. lia.
    + intros [|g] Hg; [lia|]. cbn [read_elems]. rewrite V4 by lia. rewrite E2, Ecl, Eco. by rewrite M4 by lia.
Qed.

Lemma read_consumes f : consumes read_value id 0 f /\ consumes read_members JtObj 1 f /\ consumes read_elems JtArr 1 f.
Proof. induction f as [|f (? & ? & ?)]; [done|]. auto using value_consumes, members_consumes, elems_consumes. Qed.

(** Any fuel that reads a text whole reads it with the fuel the text is given. *)
Lemma read_enough f s t r : read_value f 0 s = Some (t, r) -> read_value (read_fuel s) 0 s = Some (t, r).
Proof. intros (Hl & _ & _ & Hg)%(proj1 (read_consumes f)). apply Hg. unfold read_fuel. lia. Qed.

Lemma read_more f g d s t r : read_value f d s = Some (t, r) -> (2 * String.length s <= g)%nat -> read_value g d s = Some (t, r).
Proof. intros (Hl & _ & _ & Hg)%(proj1 (read_consumes f)) Hle. apply Hg. lia. Qed.

Lemma json_read_ok s t : json_read s = Some t -> tree_ok t /\ Z.of_nat (tree_depth t) <= maxNestingDepth.
Proof.
  unfold json_read. destruct (read_value _ 0 s) as [[t' r]|] eqn:E; [|done]. destruct (skip_ws r); [|done]. intros [= ->].
  apply read_consumes in E as (_ & ? & Hd & _). unfold id in *. split; [done|]. specialize (Hd ltac:(done)). lia.
Qed.

(** ** Printing reads back *)

Record white (ly : layout) : Prop := {
  white_open : forall d, all_bytes is_ws (ly_open ly d) = true;
  white_close : forall d, all_bytes is_ws (ly_close ly d) = true;
  white_comma : forall d, all_bytes is_ws (ly_comma ly d) = true;
  white_colon : all_bytes is_ws (ly_colon ly) = true
}.

Lemma white_compact : white compact_layout.
Proof. by split. Qed.

Lemma white_indent indent : all_bytes is_ws indent = true -> white (indent_layout indent).
Proof.
  intros Hi. assert (forall n, all_bytes is_ws (repeated n indent) = true) as Hr.
  { induction n as [|n IH]; [done|]. cbn [repeated]. by rewrite all_bytes_app, Hi, IH. }
  split; intros; try done; simpl; rewrite ?all_bytes_app, ?Hi, ?Hr; done.
Qed.

(** Fuel enough for two readings. *)
Lemma both_elems f1 f2 d1 d2 s1 s2 v r1 es r2 : read_value f1 d1 s1 = Some (v, r1) -> read_elems f2 d2 s2 = Some (es, r2) ->
  exists F, read_value F d1 s1 = Some (v, r1) /\ read_elems F d2 s2 = Some (es, r2).
Proof.
  intros (_ & _ & _ & H1)%(proj1 (read_consumes f1)) (_ & _ & _ & H2)%(proj2 (proj2 (read_consumes f2))).
  exists (2 * String.length s1 + 2 * String.length s2)%nat. split; [apply H1|apply H2]; lia.
Qed.

Lemma both_members f1 f2 d1 d2 s1 s2 v r1 ms r2 : read_value f1 d1 s1 = Some (v, r1) -> read_members f2 d2 s2 = Some (ms, r2) ->
  exists F, read_value F d1 s1 = Some (v, r1) /\ read_members F d2 s2 = Some (ms, r2).
Proof.
  intros (_ & _ & _ & H1)%(proj1 (read_consumes f1)) (_ & _ & _ & H2)%(proj1 (proj2 (read_consumes f2))).
  exists (2 * String.length s1 + 2 * String.length s2)%nat. split; [apply H1|apply H2]; lia.
Qed.

Section printed.
Context (ly : layout) (Hw : white ly).

(** A tree reads back from its text, whatever white space comes before it and
    whatever may follow a value comes after. *)
Definition reads_back (t : jtree) : Prop :=
  forall n d w r, tree_ok t -> d + Z.of_nat (tree_depth t) <= maxNestingDepth -> all_bytes is_ws w = true -> starts stop r ->
    exists f, read_value f d (w +:+ print ly n t +:+ r) = Some (t, r).

(** The text of a member. *)
Definition member_text (n : nat) (m : string * jtree) : string := match m with (k, v) => k +:+ ":" +:+ ly_colon ly +:+ print ly n v end.

Lemma ws_stop w s : all_bytes is_ws w = true -> starts stop s -> starts stop (w +:+ s).
Proof. destruct w as [|a w]; simpl; [done|]. rewrite andb_true_iff. unfold stop. by intros [-> _]. Qed.

Lemma print_first n t : tree_ok t -> exists a s, print ly n t = String a s /\ is_ws a = false /\ ascii_eqb a "]"%char = false /\ ascii_eqb a "}"%char = false.
Proof.
  destruct t as [t|raw|[|e es]|[|m ms]]; intros Hok; try by (cbn [print]; eexists _, _; split_and!).
  - destruct (lit_first t Hok) as (a & t' & -> & Ha). exists a, t'. split; [done|].
    destruct Ha as [Ha|[->|[->|[->| ->]]]]; [|done..]. unfold is_digit in Ha. apply andb_true_iff in Ha as [H1%Z.leb_le H2%Z.leb_le].
    unfold is_ws. rewrite !orb_false_iff, !Z.eqb_neq. split_and!; try lia; apply digit_not; (unfold is_digit; rewrite ?andb_true_iff, ?Z.leb_le); done.
  - destruct Hok as (b & -> & _). by exists quote, b.
Qed.

Lemma elems_back n d close r es : all_bytes is_ws close = true -> Forall (reads_back) es -> es <> [] ->
  Forall tree_ok es -> d + Z.of_nat (list_max (map tree_depth es)) <= maxNestingDepth -> forall w, all_bytes is_ws w = true ->
  exists f, read_elems f d (w +:+ Join (map (print ly (S n)) es) ("," +:+ ly_comma ly n) +:+ close +:+ "]" +:+ r) = Some (es, r).
Proof.
  intros Hc Hb Hne Hok. revert Hne. induction es as [|e es IH]; intros Hne Hd w Hws; [done|].
  apply Forall_cons in Hb as [Hb Hbs], Hok as [Hok Hoks]. rewrite map_cons, list_max_cons in Hd.
  destruct es as [|e' es].
  - cbn [map]. cbn [Join String.concat]. destruct (Hb (S n) d w (close +:+ "]" +:+ r)) as [f Hf]; [done|lia|done|by apply ws_stop|].
    exists (S f). cbn [read_elems]. rewrite Hf, skip_ws_app by done. done.
  - rewrite map_cons, Join_cons by done. rewrite !append_assoc.
    destruct (Hb (S n) d w ("," +:+ ly_comma ly n +:+ Join (map (print ly (S n)) (e' :: es)) ("," +:+ ly_comma ly n) +:+ close +:+ "]" +:+ r)) as [f1 Hf1]; [done|lia|done|done|].
    destruct (IH Hbs Hoks ltac:(done) ltac:(lia) (ly_comma ly n)) as [f2 Hf2]; [apply Hw|].
    destruct (both_elems _ _ _ _ _ _ _ _ _ _ Hf1 Hf2) as (F & H1 & H2). exists (S F). cbn [read_elems]. rewrite H1.
    cbn [String.append skip_ws] in H2 |- *. change (is_ws ","%char) with false. cbn [ascii_eqb Ascii.eqb Bool.eqb]. by rewrite H2.
Qed.

Lemma members_back n d close r ms : all_bytes is_ws close = true -> Forall (fun m => reads_back m.2) ms -> ms <> [] ->
  Forall (fun m => str_ok m.1 /\ tree_ok m.2) ms -> d + Z.of_nat (list_max (map (fun m => match m with (_, v) => tree_depth v end) ms)) <= maxNestingDepth ->
  exists f, read_members f d (Join (map (member_text (S n)) ms) ("," +:+ ly_comma ly n) +:+ close +:+ "}" +:+ r) = Some (ms, r).
Proof.
  intros Hc Hb Hne Hok. revert Hne. induction ms as [|[k v] ms IH]; intros Hne Hd; [done|].
  apply Forall_cons in Hb as [Hb Hbs], Hok as [[Hk Hv] Hoks]. rewrite map_cons, list_max_cons in Hd. cbn [fst snd] in *.
  destruct ms as [|m' ms].
  - cbn [map]. cbn [Join String.concat]. unfold member_text. rewrite !append_assoc.
    destruct (Hb (S n) d (ly_colon ly) (close +:+ "}" +:+ r)) as [f Hf]; [done|lia|apply Hw|by apply ws_stop|].
    exists (S f). cbn [read_members]. rewrite string_token_join by done. cbn [String.append skip_ws] in Hf |- *. change (is_ws ":"%char) with false.
    cbn [ascii_eqb Ascii.eqb Bool.eqb negb]. rewrite Hf, skip_ws_app by done. done.
  - rewrite map_cons, Join_cons by done. unfold member_text at 1. rewrite !append_assoc.
    set (rest := Join (map (member_text (S n)) (m' :: ms)) ("," +:+ ly_comma ly n) +:+ close +:+ "}" +:+ r).
    destruct (Hb (S n) d (ly_colon ly) ("," +:+ ly_comma ly n +:+ rest)) as [f1 Hf1]; [done|lia|apply Hw|done|].
    destruct (IH Hbs Hoks ltac:(done) ltac:(lia)) as [f2 Hf2]. fold rest in Hf2.
    destruct (both_members _ _ _ _ _ _ _ _ _ _ Hf1 Hf2) as (F & H1 & H2). exists (S F). cbn [read_members]. rewrite string_token_join by done.
    cbn [String.append skip_ws] in H1 |- *. change (is_ws ":"%char) with false. cbn [ascii_eqb Ascii.eqb Bool.eqb negb]. rewrite H1.
    cbn [String.append skip_ws]. change (is_ws ","%char) with false. cbn [ascii_eqb Ascii.eqb Bool.eqb].
    rewrite skip_ws_app by apply Hw. assert (skip_ws rest = rest) as ->; [|by rewrite H2].
    apply Forall_cons in Hoks as [[(b & E & _) _] _]. subst rest. destruct m' as [k' v'], ms; cbn [map Join String.concat member_text fst] in *; by rewrite E.
Qed.

Lemma print_back t : reads_back t.
Proof.
  induction t as [t|raw|es IH|ms IH] using jtree_nested; intros n d w r Hok Hd Hws Hr.
  - exists 1%nat. cbn [read_value print]. rewrite skip_ws_app by done. destruct (print_first n (JtLit t) Hok) as (a & t' & E & Ha & _). cbn [print] in E. subst t.
    cbn [String.append]. rewrite skip_ws_solid by done. destruct (lit_first _ Hok) as (a' & t'' & [= <- <-] & Hc).
    assert (ascii_eqb a "{"%char = false /\ ascii_eqb a "["%char = false /\ ascii_eqb a quote = false) as (-> & -> & ->).
    { destruct Hc as [Hc|[->|[->|[->| ->]]]]; [|done..]. by rewrite !(digit_not a) by done. }
    pose proof (literal_join _ r Hok Hr) as E. cbn [String.append] in E. by rewrite E.
  - exists 1%nat. destruct Hok as (b & -> & [_ Hb]%string_body_split). cbn [read_value print]. rewrite skip_ws_app by done. cbn [String.append].
    rewrite skip_ws_solid by done. cbn [ascii_eqb Ascii.eqb Bool.eqb quote]. by rewrite Hb.
  - cbn [tree_depth] in Hd. destruct es as [|e es].
    + exists 1%nat. cbn [read_value print]. rewrite skip_ws_app by done. cbn [String.append]. rewrite skip_ws_solid by done. cbn [ascii_eqb Ascii.eqb Bool.eqb].
      rewrite (proj2 (Z.leb_gt _ _)) by lia. done.
    + apply tree_ok_arr in Hok. destruct (elems_back n (d + 1) (ly_close ly n) r (e :: es) ltac:(apply Hw) IH ltac:(done) Hok ltac:(lia) "") as [f Hf]; [done|].
      exists (S f). cbn [print]. rewrite !append_assoc. cbn [read_value]. rewrite skip_ws_app by done. cbn [String.append]. rewrite skip_ws_solid by done. cbn [ascii_eqb Ascii.eqb Bool.eqb].
      rewrite (proj2 (Z.leb_gt _ _)) by lia. rewrite skip_ws_app by apply Hw. cbn [String.append] in Hf.
      apply Forall_cons in Hok as [He _]. destruct (print_first (S n) e He) as (a & s & E & Ha & Hb & _).
      assert (exists s', Join (map (print ly (S n)) (e :: es)) ("," +:+ ly_comma ly n) = String a s') as [s' Es].
      { destruct es; cbn [map Join String.concat]; rewrite E; cbn; eauto. }
      cbn [String.append] in *. rewrite Es in *. cbn [String.append] in *. rewrite skip_ws_solid by done. by rewrite Hb, Hf.
  - cbn [tree_depth] in Hd. destruct ms as [|m ms].
    + exists 1%nat. cbn [read_value print]. rewrite skip_ws_app by done. cbn [String.append]. rewrite skip_ws_solid by done. cbn [ascii_eqb Ascii.eqb Bool.eqb].
      rewrite (proj2 (Z.leb_gt _ _)) by lia. done.
    + apply tree_ok_obj in Hok. destruct (members_back n (d + 1) (ly_close ly n) r (m :: ms) ltac:(apply Hw) IH ltac:(done) Hok ltac:(lia)) as [f Hf].
      exists (S f). cbn [print]. change (map _ (m :: ms)) with (map (member_text (S n)) (m :: ms)). rewrite !append_assoc. cbn [read_value].
      rewrite skip_ws_app by done. cbn [String.append]. rewrite skip_ws_solid by done. cbn [ascii_eqb Ascii.eqb Bool.eqb].
      rewrite (proj2 (Z.leb_gt _ _)) by lia. rewrite skip_ws_app by apply Hw.
      apply Forall_cons in Hok as [[(b & E & _) _] _]. destruct m as [k v]. cbn [fst] in E. subst k.
      assert (exists s', Join (map (member_text (S n)) ((String quote b, v) :: ms)) ("," +:+ ly_comma ly n) = String quote s') as [s' Es].
      { destruct ms; cbn [map Join String.concat member_text]; eauto; cbn; eauto. }
      cbn [String.append] in *. rewrite Es in *. cbn [String.append] in *. rewrite skip_ws_solid by done.
      change (ascii_eqb quote "}"%char) with false. by rewrite Hf.
Qed.

(** The text of a tree with white space around it is JSON, and reads as the tree. *)
Lemma json_read_print t w w' : tree_ok t -> Z.of_nat (tree_depth t) <= maxNestingDepth -> all_bytes is_ws w = true -> all_bytes is_ws w' = true ->
  json_read (w +:+ print ly 0 t +:+ w') = Some t.
Proof.
  intros Hok Hd Hw1 Hw2. destruct (print_back t 0%nat 0 w w' Hok) as [f Hf%read_enough]; [lia|done|rewrite <- (append_nil_r w'); by apply ws_stop|].
  unfold json_read. rewrite Hf. rewrite <- (append_nil_r w'), skip_ws_app by done. done.
Qed.
End printed.
