(* ===== verification/GoFloat.v ===== *)
(** * Go's strconv.ParseFloat and FormatFloat

    What the code uses of them: reading a JSON number as a float64, rounded to the
    nearest (to even on a tie), and writing a float64 with the fewest digits that
    read back as it ('g', -1). A positive float64 is [mant * 2 ^ exp]. *)

From S2P Require Import Prelude GoStrings GoText Json.
Local Open Scope string_scope.
Local Open Scope Z_scope.
Local Open Scope list_scope.

(** ** Reading *)

(** The digits of an exponent; one of ten thousand or more is read no further. *)
Fixpoint exponent (s : string) (e : Z) : Z :=
  match s with
  | String a s' => exponent s' (if e <? 10000 then e * 10 + (code a - 48) else e)
  | EmptyString => e
  end.

Definition exp_value (e : string) : Z :=
  match e with
  | String _ s => match sign_part s with
                  | (String sg _, d) => if ascii_eqb sg "-"%char then - exponent d 0 else exponent d 0
                  | (EmptyString, d) => exponent d 0
                  end
  | EmptyString => 0
  end.

(** The sign, digits and decimal exponent of a JSON number. *)
Definition decimal (t : string) : option (bool * Z * Z) :=
  match minus_part t with
  | None => None
  | Some (m, r1) =>
      match int_part r1 with
      | None => None
      | Some (i, r2) =>
          match frac_part r2 with
          | None => None
          | Some (f, r3) =>
              match exp_part r3, digits_value (i +:+ drop_bytes 1 f) 0 with
              | Some (e, EmptyString), Some v => Some (String.eqb m "-", v, exp_value e - Z.of_nat (String.length (drop_bytes 1 f)))
              | _, _ => None
              end
          end
      end
  end.

Definition round_half_even (n d : Z) : Z :=
  let q := n / d in
  let r := n mod d in
  if 2 * r <? d then q else if d <? 2 * r then q + 1 else if Z.even q then q else q + 1.

(** [num / den] in units of [2 ^ x], as a fraction. *)
Definition scaled (num den x : Z) : Z * Z := if 0 <=? x then (num, den * 2 ^ x) else (num * 2 ^ (- x), den).

(** The float64 nearest a positive fraction; none past the largest. *)
Definition nearest (num den : Z) : option (Z * Z) :=
  let x := Z.max (Z.log2 num - Z.log2 den - 53) (-1074) in
  let '(n, d) := scaled num den x in
  let x := if d * 2 ^ 53 <=? n then x + 1 else x in
  let '(n, d) := scaled num den x in
  let mant := round_half_even n d in
  let '(mant, x) := if mant =? 2 ^ 53 then (2 ^ 52, x + 1) else (mant, x) in
  if 971 <? x then None else Some (mant, x).

(** strconv.ParseFloat(t, 64) of a JSON number: none where it errs. *)
Definition ParseFloat (t : string) : option (bool * Z * Z) :=
  match decimal t with
  | None => None
  | Some (neg, v, e) =>
      if v =? 0 then Some (neg, 0, 0)
      else match (if 0 <=? e then nearest (v * 10 ^ e) 1 else nearest v (10 ^ (- e))) with
           | Some (mant, x) => Some (neg, mant, x)
           | None => None
           end
  end.

(** float64(n) of an int64. *)
Definition float_of_int (n : Z) : bool * Z * Z :=
  if n =? 0 then (false, 0, 0) else let '(mant, x) := default (0, 0) (nearest (Z.abs n) 1) in (n <? 0, mant, x).

(** ** Writing *)

(** The number of digits before the decimal point of [num / den]. *)
Definition decimal_point (num den : Z) : Z :=
  let est := (Z.log2 num - Z.log2 den) * 30103 / 100000 in
  let below dp := if 0 <=? dp then num <? den * 10 ^ dp else num * 10 ^ (- dp) <? den in
  if below (est - 1) then est - 1 else if below est then est else if below (est + 1) then est + 1 else est + 2.

(** The fewest digits between the neighbours of a float64, nearest to it: the
    value, its lower and its upper bound are fractions over [den]. *)
Fixpoint shortest_from (fuel : nat) (n dp num lo hi den : Z) (even : bool) : Z * Z :=
  match fuel with
  | O => (0, 0)
  | S f =>
      let k := dp - n in
      let unit_n := if 0 <=? k then 10 ^ k * den else den in
      let scale := if 0 <=? k then 1 else 10 ^ (- k) in
      let q := num * scale / unit_n in
      let above x := if even then lo * scale <=? x * unit_n else lo * scale <? x * unit_n in
      let under x := if even then x * unit_n <=? hi * scale else x * unit_n <? hi * scale in
      match above q, under (q + 1) with
      | true, true => (round_half_even (num * scale) unit_n, n)
      | true, false => (q, n)
      | false, true => (q + 1, n)
      | false, false => shortest_from f (n + 1) dp num lo hi den even
      end
  end.

Fixpoint trim_zeros (fuel : nat) (q : Z) : Z :=
  match fuel with
  | O => q
  | S f => if (0 <? q) && (q mod 10 =? 0) then trim_zeros f (q / 10) else q
  end.

(** The digits of a positive float64 and where its decimal point is. *)
Definition shortest (mant x : Z) : string * Z :=
  let '(unit4, den) := if 2 <=? x then (2 ^ (x - 2), 1) else (1, 2 ^ (2 - x)) in
  let num := 4 * mant * unit4 in
  let lo := (if (mant =? 2 ^ 52) && (-1074 <? x) then 4 * mant - 1 else 4 * mant - 2) * unit4 in
  let hi := (4 * mant + 2) * unit4 in
  let dp := decimal_point num den in
  let '(q, n) := shortest_from 17 1 dp num lo hi den (Z.even mant) in
  let carry := Z.of_nat (String.length (Itoa q)) - n in
  (Itoa (trim_zeros 18 q), dp + carry).

Definition zeros (n : Z) : string := repeated (Z.to_nat n) "0".

(** The exponent as %e writes it. *)
Definition exp_text (e : Z) : string :=
  (if e <? 0 then "e-" else "e+") +:+ (if Z.abs e <? 10 then "0" else "") +:+ Itoa (Z.abs e).

(** strconv.FormatFloat(f, 'g', -1, 64). *)
Definition FormatFloat (neg : bool) (mant x : Z) : string :=
  (if neg then "-" else "") +:+
  (if mant =? 0 then "0"
   else let '(ds, dp) := shortest mant x in
        let nd := Z.of_nat (String.length ds) in
        let e := dp - 1 in
        if (e <? -4) || (6 <=? e) then
          take_bytes 1 ds +:+ (if 1 <? nd then "." +:+ drop_bytes 1 ds else "") +:+ exp_text e
        else if dp <=? 0 then "0." +:+ zeros (- dp) +:+ ds
        else if nd <=? dp then ds +:+ zeros (dp - nd)
        else take_bytes (Z.to_nat dp) ds +:+ "." +:+ drop_bytes (Z.to_nat dp) ds).

Definition float_text (t : string) : option string :=
  match ParseFloat t with Some (neg, mant, x) => Some (FormatFloat neg mant x) | None => None end.

Example float_texts :
  map float_text ["1.0"; "1e0"; "0.1"; "123456789.0"; "1e21"; "5e-324"; "1.7976931348623157e308"; "1e309"; "-0.0"; "2e-7"; "100000.0"; "0.30000000000000004"; "9007199254740993.0"]
  = [Some "1"; Some "1"; Some "0.1"; Some "1.23456789e+08"; Some "1e+21"; Some "5e-324"; Some "1.7976931348623157e+308"; None; Some "-0"; Some "2e-07"; Some "100000";
     Some "0.30000000000000004"; Some "9.007199254740992e+15"].
Proof. vm_compute. reflexivity. Qed.
