(* ===== verification/Json3.v ===== *)
(** * The json3 policy (internal/sharesync/json3.go)

    The parser of JSON settings files, which keeps each token as it is spelt, and
    the writer of a merged one. The parser walks text that json.Valid accepts and
    indexes it without bounds checks: running past its end is a panic ([None]),
    and its loops take fuel; [parseJSON_reads] shows neither happens. *)

From S2P Require Import Prelude GoStrings GoText Sha256 Entry Mergers Merge3 Json JsonLaws GoFloat DocMerge.
Local Open Scope string_scope.
Local Open Scope Z_scope.
Local Open Scope list_scope.

(** ** Identities *)

Definition jsonLiteral (text : string) : string :=
  if existsb (String.eqb text) ["true"; "false"; "null"] then "l" +:+ text
  else if negb (ContainsAny text ".eE") then
    match Atoi text with
    | Some n => if (- 2 ^ 53 <? n) && (n <? 2 ^ 53)
                then let '(neg, mant, x) := float_of_int n in "n" +:+ FormatFloat neg mant x
                else "n" +:+ text
    | None => "n" +:+ text
    end
  else match ParseFloat text with
       | Some (neg, mant, x) => "n" +:+ FormatFloat neg mant x
       | None => "n" +:+ text
       end.

(** ** The parser *)

(** jsonParser.string's loop, from past its first byte. *)
Fixpoint p_body (s : string) : option (string * string) :=
  match s with
  | EmptyString => None
  | String a s1 =>
      if ascii_eqb a quote then Some (String a "", s1)
      else if ascii_eqb a backslash then
        match s1 with
        | String b s2 => cons_fst (String a (String b "")) (p_body s2)
        | EmptyString => None
        end
      else cons_fst (String a "") (p_body s1)
  end.

Definition p_string (s : string) : option (string * string) :=
  match s with
  | String a s1 => cons_fst (String a "") (p_body s1)
  | EmptyString => None
  end.

(** A number or literal: up to what ends it. *)
Fixpoint p_token (s : string) : string * string :=
  match s with
  | String a s' => if stop a then ("", s) else let '(t, r) := p_token s' in (String a t, r)
  | EmptyString => ("", "")
  end.

(** jsonParser.value, with its two loops. *)
Fixpoint p_value (fuel : nat) (s : string) : option (value * string) :=
  match fuel with
  | O => None
  | S g =>
      match skip_ws s with
      | EmptyString => None
      | String a s1 =>
          if ascii_eqb a "{"%char then p_members g [] s1
          else if ascii_eqb a "["%char then p_elems g [] s1
          else if ascii_eqb a quote then
            match p_string (String a s1) with
            | Some (raw, r) => Some (VScalar raw "" ("s" +:+ unquote raw), r)
            | None => None
            end
          else let '(text, r) := p_token (String a s1) in Some (VScalar text "" (jsonLiteral text), r)
      end
  end
with p_members (fuel : nat) (obj : list (string * (string * value))) (s : string) : option (value * string) :=
  match fuel with
  | O => None
  | S g =>
      match skip_ws s with
      | EmptyString => None
      | String a s1 =>
          if ascii_eqb a "}"%char then Some (VObject obj, s1)
          else match p_string (if ascii_eqb a ","%char then skip_ws s1 else String a s1) with
               | None => None
               | Some (raw, r) =>
                   match p_value g (drop_bytes 1 (skip_ws r)) with
                   | None => None
                   | Some (v, r2) => p_members g (set_field (unquote raw) raw v obj) r2
                   end
               end
      end
  end
with p_elems (fuel : nat) (arr : list value) (s : string) : option (value * string) :=
  match fuel with
  | O => None
  | S g =>
      match skip_ws s with
      | EmptyString => None
      | String a s1 =>
          if ascii_eqb a "]"%char then Some (VArray arr, s1)
          else if ascii_eqb a ","%char then p_elems g arr s1
          else match p_value g (String a s1) with
               | None => None
               | Some (v, r) => p_elems g (arr ++ [v]) r
               end
      end
  end.

(** parseJSON: [None] would be a panic, or never to return. *)
Definition parseJSON (data : string) : option (result string value) :=
  if negb (Valid data) then
    Some (Err (if String.eqb (TrimSpace data) "" then "an empty file" else "not valid JSON"))
  else match p_value (read_fuel data) data with
       | Some (v, _) => Some (Ok v)
       | None => None
       end.

(** ** The writer *)

Fixpoint writeJSON (v : value) : string :=
  match v with
  | VObject fields =>
      "{" +:+ Join (map (fun f => match f with
                                  | (k, (raw, w)) => (if String.eqb raw "" then Marshal_string k else raw) +:+ ":" +:+ writeJSON w
                                  end) fields) "," +:+ "}"
  | VArray elems => "[" +:+ Join (map writeJSON elems) "," +:+ "]"
  | VScalar text _ _ => text
  end.

Definition is_blank (a : ascii) : bool := ascii_eqb a " "%char || (code a =? 9).

Fixpoint blanks (s : string) : string :=
  match s with
  | String a s' => if is_blank a then String a (blanks s') else ""
  | EmptyString => ""
  end.

(** bytes.TrimRight of JSON's white space. *)
Definition trim_right_ws (s : string) : string := rev_string (skip_ws (rev_string s)).

Definition jsonIndent (like : string) : option string :=
  match IndexByte like nl with
  | None => None
  | Some i =>
      if (i =? String.length (trim_right_ws like))%nat then None
      else let indent := blanks (drop_bytes (S i) like) in
           Some (if String.eqb indent "" then "  " else indent)
  end.

Definition json_render (merged : value) (like : string) (_ : value) : result string string :=
  let out := writeJSON merged in
  match (match jsonIndent like with
         | Some indent => match Indent out indent with Some p => Ok p | None => Err "invalid JSON" end
         | None => Ok out
         end) with
  | Err e => Err e
  | Ok out => Ok (if HasSuffix like (String nl "") then out +:+ String nl "" else out)
  end.

#[export] Instance jsonFormat : docFormat := {|
  df_name := "JSON";
  df_parse := fun data => default (Err "panic") (parseJSON data);
  df_seed := fun v => isEmptyObject (Some v);
  df_render := json_render
|}.

Definition JSON3 : Merger := DocPolicy.

(** ** What is parsed *)

(** The value of a tree. *)
Fixpoint to_value (t : jtree) : value :=
  match t with
  | JtLit text => VScalar text "" (jsonLiteral text)
  | JtStr raw => VScalar raw "" ("s" +:+ unquote raw)
  | JtArr es => VArray (map to_value es)
  | JtObj ms => VObject (foldl (fun fs m => match m with (k, v) => set_field (unquote k) k v fs end) []
                           (map (fun m => match m with (k, v) => (k, to_value v) end) ms))
  end.

Definition add_members (obj : list (string * (string * value))) (ms : list (string * jtree)) : list (string * (string * value)) :=
  foldl (fun fs m => match m with (k, v) => set_field (unquote k) k v fs end) obj (map (fun m => match m with (k, v) => (k, to_value v) end) ms).

Lemma p_body_reads s t r : string_body s = Some (t, r) -> p_body s = Some (t, r).
Proof.
  remember (String.length s) as n eqn:Hn. assert (String.length s <= n)%nat as Hle by lia. clear Hn. revert s t r Hle.
  assert (forall h s', is_hex h = true -> p_body (String h s') = cons_fst (String h "") (p_body s')) as Hhex.
  { intros h s' Hh. cbn [p_body]. destruct (ascii_eqb h quote) eqn:E1; [by apply ascii_eqb_eq in E1 as ->|].
    destruct (ascii_eqb h backslash) eqn:E2; [by apply ascii_eqb_eq in E2 as ->|]. done. }
  induction n as [|n IH]; intros [|a s] t r Hle; cbn [String.length] in Hle; try done; [lia|]. cbn [string_body].
  destruct (ascii_eqb a quote) eqn:Hq; [cbn [p_body]; by rewrite Hq|]. destruct (ascii_eqb a backslash) eqn:Hb.
  - destruct s as [|b s]; [done|]. cbn [p_body]. rewrite Hq, Hb. destruct (simple_escape b) eqn:Hsi.
    + intros (t' & E & ->)%cons_fst_Some. simpl in Hle. apply IH in E; [|lia]. by rewrite E.
    + destruct (ascii_eqb b "u"%char) eqn:Hu; [|done]. destruct s as [|h1 [|h2 [|h3 [|h4 s]]]]; try done. destruct (_ && is_hex h4) eqn:Hh; [|done].
      bool_hyps. intros (t' & E & ->)%cons_fst_Some. simpl in Hle. rewrite !Hhex by done. apply IH in E; [|lia]. by rewrite E.
  - cbn [p_body]. rewrite Hq, Hb. destruct (code a <? 32); [done|]. intros (t' & E & ->)%cons_fst_Some. apply IH in E; [|lia]. by rewrite E.
Qed.

Lemma p_string_reads s t r : string_token s = Some (t, r) -> p_string s = Some (t, r).
Proof.
  destruct s as [|a s]; [done|]. cbn [string_token p_string]. destruct (ascii_eqb a quote); [|done].
  intros (t' & E & ->)%cons_fst_Some. by rewrite (p_body_reads _ _ _ E).
Qed.

Lemma p_token_join t r : all_bytes (fun a => negb (stop a)) t = true -> starts stop r -> p_token (t +:+ r) = (t, r).
Proof.
  intros Ht Hr. induction t as [|a t IH]; simpl in *.
  - destruct r as [|a r]; [done|]. simpl in *. by rewrite Hr.
  - apply andb_true_iff in Ht as [->%negb_true_iff Ht]. by rewrite IH.
Qed.

Lemma lit_plain t : lit_ok t -> all_bytes (fun a => negb (stop a)) t = true.
Proof.
  assert (forall d, all_digits d = true -> all_bytes (fun a => negb (stop a)) d = true) as Hd.
  { induction d as [|a d IH]; simpl; [done|]. rewrite andb_true_iff. intros [Ha Hd]. rewrite IH by done. destruct (stop a) eqn:E; [|done].
    apply stop_not_digit in E. congruence. }
  intros [->|[->|[->|(m & i & f & e & -> & Hm & Hi & Hf & He)]]]; [done..|]. rewrite !all_bytes_app, !andb_true_iff. split_and!.
  - by destruct Hm as [-> | ->].
  - destruct Hi as [->|[[_ ?] _]]; auto.
  - destruct Hf as [->|(d & -> & _ & ?)]; [done|]. simpl. auto.
  - destruct He as [->|(a & sg & d & -> & [->| ->] & Hsg & _ & ?)]; [done|..]; simpl; rewrite all_bytes_app, (Hd d) by done; by destruct Hsg as [->|[->| ->]].
Qed.

Lemma p_members_ws g obj s : p_members g obj (skip_ws s) = p_members g obj s.
Proof. destruct g; [done|]. cbn [p_members]. by rewrite skip_ws_idem. Qed.

Lemma p_elems_ws g arr s : p_elems g arr (skip_ws s) = p_elems g arr s.
Proof. destruct g; [done|]. cbn [p_elems]. by rewrite skip_ws_idem. Qed.

Lemma p_value_ws g s : p_value g (skip_ws s) = p_value g s.
Proof. destruct g; [done|]. cbn [p_value]. by rewrite skip_ws_idem. Qed.

(** A comma before a key is passed over. *)
Lemma p_members_comma g obj s r : skip_ws s = String ","%char r -> is_Some (string_token (skip_ws r)) -> p_members g obj s = p_members g obj (skip_ws r).
Proof.
  intros Es [x Hx]. destruct g as [|g]; [done|]. cbn [p_members]. rewrite Es, skip_ws_idem.
  destruct (skip_ws r) as [|a r']; [done|]. cbn [string_token] in Hx. destruct (ascii_eqb a quote) eqn:E; [|done]. by apply ascii_eqb_eq in E as ->.
Qed.

(** The parser follows the reading: it takes the value read and leaves the same rest,
    within twice the bytes read. *)
Definition follows {A B} (read : nat -> Z -> string -> option (A * string)) (p : nat -> B -> string -> option (value * string))
    (to : B -> A -> value) (after : string -> Prop) (f : nat) : Prop :=
  forall d s x r, read f d s = Some (x, r) -> after r ->
    forall b g, (2 * (String.length s - String.length r) <= g)%nat -> p g b s = Some (to b x, r).

Notation follows_value := (follows read_value (fun g (_ : unit) => p_value g) (fun _ => to_value) (starts stop)).
Notation follows_members := (follows read_members p_members (fun obj ms => VObject (add_members obj ms)) (fun _ => True)).
Notation follows_elems := (follows read_elems p_elems (fun arr es => VArray (arr ++ map to_value es)) (fun _ => True)).

Lemma follows_value_step f : follows_members f -> follows_elems f -> follows_value (S f).
Proof.
  intros IHm IHe d s t r Hr Hst _ g Hg. assert (String.length r < String.length s)%nat as Hlt by (by apply read_consumes in Hr as [? _]).
  destruct g as [|g]; [lia|]. revert Hr. cbn [read_value p_value]. pose proof (skip_ws_length s) as Hl. destruct (skip_ws s) as [|a s1] eqn:Es; [done|]. cbn [String.length] in Hl.
  destruct (ascii_eqb a "{"%char) eqn:Eo; [|destruct (ascii_eqb a "["%char) eqn:Ea; [|destruct (ascii_eqb a quote) eqn:Eq]].
  - destruct (maxNestingDepth <=? d); [done|]. pose proof (skip_ws_length s1) as Hl1. rewrite <- p_members_ws. destruct (skip_ws s1) as [|b s2] eqn:Es1; [done|]. cbn [String.length] in Hl1.
    destruct (ascii_eqb b "}"%char) eqn:Eb.
    + intros [= <- <-]. destruct g as [|g]; [lia|]. cbn [p_members]. rewrite skip_ws_solid by (by eapply skip_ws_first). by rewrite Eb.
    + destruct (read_members f (d + 1) (String b s2)) as [[ms r']|] eqn:Em; [|done]. intros [= <- <-]. by apply (IHm _ _ _ _ Em); [|simpl; lia].
  - destruct (maxNestingDepth <=? d); [done|]. pose proof (skip_ws_length s1) as Hl1. rewrite <- p_elems_ws. destruct (skip_ws s1) as [|b s2] eqn:Es1; [done|]. cbn [String.length] in Hl1.
    destruct (ascii_eqb b "]"%char) eqn:Eb.
    + intros [= <- <-]. destruct g as [|g]; [lia|]. cbn [p_elems]. rewrite skip_ws_solid by (by eapply skip_ws_first). by rewrite Eb.
    + destruct (read_elems f (d + 1) (String b s2)) as [[es r']|] eqn:Em; [|done]. intros [= <- <-]. by apply (IHe _ _ _ _ Em); [|simpl; lia].
  - destruct (string_body s1) as [[b r']|] eqn:Eb; [|done]. intros [= <- <-]. cbn [p_string]. by rewrite (p_body_reads _ _ _ Eb).
  - destruct (literal (String a s1)) as [[b r']|] eqn:Eb; [|done]. intros [= <- <-]. apply literal_split in Eb as [Hok ->].
    rewrite p_token_join; [done|by apply lit_plain|done].
Qed.

Lemma after_close s c r : skip_ws s = String c r -> stop c = true -> starts stop s.
Proof. destruct s as [|a s]; [done|]. simpl. destruct (is_ws a) eqn:E; [by unfold stop; rewrite E|]. by intros [= -> ->]. Qed.

Lemma follows_members_step f : follows_value f -> follows_members f -> follows_members (S f).
Proof.
  intros IHv IHm d s ms r Hr _ obj g Hg. assert (String.length r < String.length s)%nat as Hlt by (by apply read_consumes in Hr as [? _]).
  destruct g as [|g]; [lia|]. revert Hr. cbn [read_members p_members]. destruct (string_token s) as [[k r0]|] eqn:Ek; [|done].
  pose proof (p_string_reads _ _ _ Ek) as Hp. pose proof Ek as ((b & Eb & _) & Hs & _)%string_token_split.
  assert (skip_ws s = s) as -> by (rewrite Hs, Eb; done). assert (exists s', s = String quote s') as [s' Es] by (rewrite Hs, Eb; simpl; eauto).
  rewrite Es at 1. change (ascii_eqb quote "}"%char) with false. change (ascii_eqb quote ","%char) with false. cbn match. rewrite <- Es, Hp.
  assert (String.length s = String.length k + String.length r0)%nat as Hls by (rewrite Hs at 1; apply length_append_s). assert (0 < String.length k)%nat by (rewrite Eb; simpl; lia).
  pose proof (skip_ws_length r0) as Hl0. destruct (skip_ws r0) as [|c r1] eqn:E0; [done|]. destruct (ascii_eqb c ":"%char) eqn:Ec; [|done]. cbn [negb drop_bytes].
  destruct (read_value f d r1) as [[v r2]|] eqn:Ev; [|done]. pose proof (skip_ws_length r2) as Hl2. pose proof (IHv _ _ _ _ Ev) as Hv. apply read_consumes in Ev as (V1 & _).
  destruct (skip_ws r2) as [|c' r3] eqn:E2; [done|]. cbn [String.length] in *. destruct (ascii_eqb c' "}"%char) eqn:Ecl.
  - intros [= <- <-]. rewrite Hv; [|eapply after_close; [done|]; by apply ascii_eqb_eq in Ecl as ->|done|lia]. destruct g as [|g]; [lia|]. cbn [p_members]. by rewrite E2, Ecl.
  - destruct (ascii_eqb c' ","%char) eqn:Eco; [|done]. apply ascii_eqb_eq in Eco as ->. destruct (read_members f d (skip_ws r3)) as [[ms' r4]|] eqn:Em; [|done].
    intros [= <- <-]. pose proof (skip_ws_length r3). rewrite Hv; [|by eapply after_close|done|].
    + rewrite (p_members_comma _ _ _ r3 E2) by (destruct f; [done|]; cbn [read_members] in Em; destruct (string_token (skip_ws r3)); [by eexists|done]). rewrite (IHm _ _ _ _ Em); [done|done|].
      apply read_consumes in Em as (M1 & _). lia.
    + apply read_consumes in Em as (M1 & _). lia.
Qed.

Lemma follows_elems_step f : follows_value f -> follows_elems f -> follows_elems (S f).
Proof.
  intros IHv IHe d s es r Hr _ arr g Hg. assert (String.length r < String.length s)%nat as Hlt by (by apply read_consumes in Hr as [? _]).
  destruct g as [|g]; [lia|]. revert Hr. cbn [read_elems p_elems]. destruct (read_value f d s) as [[v r2]|] eqn:Ev; [|done].
  pose proof (IHv _ _ _ _ Ev) as Hv. pose proof Ev as (V1 & _)%read_consumes. pose proof (skip_ws_length r2) as Hl2.
  assert (exists a s1, skip_ws s = String a s1 /\ ascii_eqb a "]"%char = false /\ ascii_eqb a ","%char = false) as (a & s1 & Es & Ha & Hb).
  { destruct f; [done|]. cbn [read_value] in Ev. destruct (skip_ws s) as [|a s1] eqn:Es; [done|]. exists a, s1. split; [done|].
    destruct (ascii_eqb a "]"%char) eqn:E1; [apply ascii_eqb_eq in E1 as ->; done|]. destruct (ascii_eqb a ","%char) eqn:E3; [apply ascii_eqb_eq in E3 as ->; done|done]. }
  rewrite Es, Ha, Hb, <- Es, p_value_ws. destruct (skip_ws r2) as [|c' r3] eqn:E2; [done|]. cbn [String.length] in *. destruct (ascii_eqb c' "]"%char) eqn:Ecl.
  - intros [= <- <-]. rewrite Hv; [|eapply after_close; [done|]; by apply ascii_eqb_eq in Ecl as ->|done|lia]. destruct g as [|g]; [lia|]. cbn [p_elems]. by rewrite E2, Ecl.
  - destruct (ascii_eqb c' ","%char) eqn:Eco; [|done]. apply ascii_eqb_eq in Eco as ->. destruct (read_elems f d r3) as [[es' r4]|] eqn:Em; [|done].
    intros [= <- <-]. pose proof Em as (M1 & _)%read_consumes. rewrite Hv; [|by eapply after_close|done|lia]. destruct g as [|g]; [lia|]. cbn [p_elems]. rewrite E2.
    change (ascii_eqb ","%char "]"%char) with false. change (ascii_eqb ","%char ","%char) with true. cbn match. rewrite (IHe _ _ _ _ Em); [|done|lia].
    cbn [map]. by rewrite <- app_assoc.
Qed.

Lemma parser_follows f : follows_value f /\ follows_members f /\ follows_elems f.
Proof. induction f as [|f (? & ? & ?)]; [done|]. auto using follows_value_step, follows_members_step, follows_elems_step. Qed.

(** The parser gives the value of the tree the text is read as. *)
Lemma parseJSON_reads data : parseJSON data = Some (match json_read data with
  | Some t => Ok (to_value t)
  | None => Err (if String.eqb (TrimSpace data) "" then "an empty file" else "not valid JSON")
  end).
Proof.
  unfold parseJSON, Valid. destruct (json_read data) as [t|] eqn:E; [|done]. cbn [negb]. unfold json_read in E.
  destruct (read_value (read_fuel data) 0 data) as [[t' r]|] eqn:Er; [|done]. pose proof (skip_ws_split r) as (w & Hw & Hws). destruct (skip_ws r); [|done]. simplify_eq.
  rewrite (proj1 (parser_follows _) _ _ _ _ Er) with (b := tt); [done| |unfold read_fuel; lia]. by apply ws_stop.
Qed.
