(* ===== verification/Json3Laws.v ===== *)
(** * Merged settings documents read back (internal/sharesync/json3.go)

    Values the JSON parser makes, and what merging makes of them, are written as
    JSON that reads back as the same values. *)

From S2P Require Import Prelude GoStrings GoText Sha256 Entry Mergers Merge3 Json JsonLaws GoFloat DocMerge Json3.
Local Open Scope string_scope.
Local Open Scope Z_scope.
Local Open Scope list_scope.

Notation field := (string * (string * value))%type.

(** Induction on values with the lists of their parts. *)
Section value_induction.
Context (P : value -> Prop) (Hs : forall t n s, P (VScalar t n s))
  (Ho : forall fs, Forall (fun f : field => P f.2.2) fs -> P (VObject fs)) (Ha : forall es, Forall P es -> P (VArray es)).

Fixpoint value_nested (v : value) : P v :=
  match v with
  | VScalar t n s => Hs t n s
  | VObject fs => Ho fs ((fix go fs : Forall (fun f : field => P f.2.2) fs := match fs with [] => Forall_nil_2 _ | f :: fs' => Forall_cons_2 _ _ _ (value_nested f.2.2) (go fs') end) fs)
  | VArray es => Ha es ((fix go es : Forall P es := match es with [] => Forall_nil_2 _ | e :: es' => Forall_cons_2 _ _ _ (value_nested e) (go es') end) es)
  end.
End value_induction.

(** The tree writeJSON writes. *)
Fixpoint of_value (v : value) : jtree :=
  match v with
  | VObject fields => JtObj (map (fun f => match f with (k, (raw, w)) => (if String.eqb raw "" then Marshal_string k else raw, of_value w) end) fields)
  | VArray elems => JtArr (map of_value elems)
  | VScalar text _ _ => if HasPrefix text (String quote "") then JtStr text else JtLit text
  end.

Lemma compact_arr n es : print compact_layout n (JtArr es) = "[" +:+ Join (map (print compact_layout (S n)) es) "," +:+ "]".
Proof. by destruct es. Qed.

Lemma compact_obj n ms : print compact_layout n (JtObj ms) = "{" +:+ Join (map (member_text compact_layout (S n)) ms) "," +:+ "}".
Proof. by destruct ms. Qed.

Lemma writeJSON_print v n : writeJSON v = print compact_layout n (of_value v).
Proof.
  revert n. induction v as [t nv s|fs IH|es IH] using value_nested; intros n; cbn [writeJSON of_value].
  - by destruct (HasPrefix _ _).
  - rewrite compact_obj, map_map. do 3 f_equal. apply map_ext_Forall. eapply Forall_impl; [exact IH|]. intros [k [raw w]] Hw. simpl. by rewrite <- Hw.
  - rewrite compact_arr, map_map. do 3 f_equal. apply map_ext_Forall. eapply Forall_impl; [exact IH|]. intros w Hw. apply Hw.
Qed.

(** A value as the parser makes them, nested at most [n] deep: tokens spelt as JSON,
    scalars and keys those of their tokens, keys once each. *)
Fixpoint json_value (n : nat) (v : value) : Prop :=
  match v, n with
  | VScalar text native scalar, _ =>
      native = "" /\ ((lit_ok text /\ scalar = jsonLiteral text) \/ (str_ok text /\ scalar = "s" +:+ unquote text))
  | VArray elems, S n => fold_right (fun e P => json_value n e /\ P) True elems
  | VObject fields, S n =>
      NoDup (keys_of fields) /\
      fold_right (fun f P => match f with (k, (raw, w)) => (str_ok raw /\ k = unquote raw /\ json_value n w) /\ P end) True fields
  | _, O => False
  end.

Definition json_field (n : nat) (f : field) : Prop := str_ok f.2.1 /\ f.1 = unquote f.2.1 /\ json_value n f.2.2.

Lemma json_value_arr n es : json_value (S n) (VArray es) <-> Forall (json_value n) es.
Proof. cbn [json_value]. induction es as [|e es IH]; simpl; [by rewrite Forall_nil|]. by rewrite Forall_cons, IH. Qed.

Lemma json_value_obj n fs : json_value (S n) (VObject fs) <-> NoDup (keys_of fs) /\ Forall (json_field n) fs.
Proof. cbn [json_value]. apply Morphisms_Prop.and_iff_morphism; [done|]. induction fs as [|[k [raw w]] fs IH]; simpl; [by rewrite Forall_nil|]. by rewrite Forall_cons, IH. Qed.

Lemma json_scalar n t nv s : json_value n (VScalar t nv s) -> nv = "" /\ ((lit_ok t /\ s = jsonLiteral t) \/ (str_ok t /\ s = "s" +:+ unquote t)).
Proof. by destruct n. Qed.

(** ** Parsed values *)

Lemma set_field_keys k raw v fs : keys_of (set_field k raw v fs) = if decide (k ∈ keys_of fs) then keys_of fs else keys_of fs ++ [k].
Proof.
  induction fs as [|[k' [raw' v']] fs IH]; cbn [set_field keys_of map]; [by rewrite decide_False by set_solver|].
  destruct (String.eqb_spec k k') as [->|Hne]; [by rewrite decide_True by set_solver|]. unfold keys_of in IH. rewrite map_cons, IH. cbn [fst].
  destruct (decide (k ∈ map fst fs)) as [|]; [by rewrite decide_True by set_solver|by rewrite decide_False by set_solver].
Qed.

Lemma set_field_json n k raw v fs : json_field n (k, (raw, v)) -> NoDup (keys_of fs) -> Forall (json_field n) fs ->
  NoDup (keys_of (set_field k raw v fs)) /\ Forall (json_field n) (set_field k raw v fs).
Proof.
  intros Hf Hnd Hfs. split.
  - rewrite set_field_keys. case_decide; [done|]. apply NoDup_app. split_and!; [done|set_solver|apply NoDup_singleton].
  - clear Hnd. induction Hfs as [|[k' [raw' v']] fs Hf' Hfs IH]; cbn [set_field]; [by constructor|].
    destruct (String.eqb_spec k k') as [->|]; constructor; try done. destruct Hf as (Hr & Hk & Hv). cbn [fst snd] in *.
    destruct Hr as (b & -> & Hb). cbn. split_and!; [by exists b|done|done].
Qed.

Lemma list_max_Forall {A} (g : A -> nat) xs n : (list_max (map g xs) <= n)%nat <-> Forall (fun x => g x <= n)%nat xs.
Proof. induction xs as [|x xs IH]; [split; [by constructor|simpl; lia]|]. rewrite map_cons, list_max_cons, Forall_cons, <- IH. lia. Qed.

Lemma to_value_json t n : tree_ok t -> (tree_depth t <= n)%nat -> json_value n (to_value t).
Proof.
  revert n. induction t as [t|raw|es IH|ms IH] using jtree_nested; intros n Hok Hd.
  - destruct n; cbn [to_value json_value]; auto.
  - destruct n; cbn [to_value json_value]; auto.
  - cbn [tree_depth] in Hd. destruct n as [|n]; [lia|]. cbn [to_value]. apply json_value_arr. apply tree_ok_arr in Hok. apply Forall_map.
    assert (Forall (fun e => tree_depth e <= n)%nat es) as Hds by (apply list_max_Forall; lia).
    rewrite Forall_forall in *. intros e He. apply IH; auto.
  - cbn [tree_depth] in Hd. destruct n as [|n]; [lia|]. cbn [to_value]. apply json_value_obj. apply tree_ok_obj in Hok.
    assert (Forall (fun m => tree_depth m.2 <= n)%nat ms) as Hds.
    { apply list_max_Forall. erewrite map_ext; [apply le_S_n, Hd|]. by intros []. }
    assert (forall acc, NoDup (keys_of acc) /\ Forall (json_field n) acc ->
      NoDup (keys_of (add_members acc ms)) /\ Forall (json_field n) (add_members acc ms)) as Hadd; [|by apply Hadd; split; constructor].
    clear Hd. induction ms as [|[k v] ms IHms]; intros acc [Hnd Hacc]; [done|].
    apply Forall_cons in Hok as [[Hk Hv] Hoks], Hds as [Hdv Hds], IH as [IHv IHs]. cbn [fst snd] in *.
    apply (IHms IHs Hoks Hds). apply set_field_json; [|done|done]. split_and!; [done|done|by apply IHv].
Qed.

(** ** Written values *)

Lemma lit_not_quoted t : lit_ok t -> HasPrefix t (String quote "") = false.
Proof.
  intros (a & t' & -> & Ha)%lit_first. unfold HasPrefix. cbn [String.prefix]. destruct (ascii_dec quote a) as [E|]; [|done].
  subst a. by destruct Ha as [?|[?|[?|[?|?]]]].
Qed.

Lemma str_quoted t : str_ok t -> HasPrefix t (String quote "") = true.
Proof. intros (b & -> & _). unfold HasPrefix. cbn [String.prefix]. destruct (ascii_dec quote quote); [|done]. by destruct b. Qed.

Lemma str_nonempty t : str_ok t -> String.eqb t "" = false.
Proof. by intros (b & -> & _). Qed.

Lemma set_field_new k raw v fs : k ∉ keys_of fs -> set_field k raw v fs = fs ++ [(k, (raw, v))].
Proof.
  induction fs as [|[k' [raw' v']] fs IH]; intros Hk; [done|]. cbn [set_field]. cbn [keys_of map fst] in Hk.
  rewrite (proj2 (String.eqb_neq k k')) by set_solver. cbn [app]. rewrite IH; [done|]. unfold keys_of. set_solver.
Qed.

Definition key_member (f : field) : string * jtree := match f with (k, (raw, w)) => (if String.eqb raw "" then Marshal_string k else raw, of_value w) end.

(** Fields with keys of their own are added in order. *)
Lemma add_members_fields n fs : NoDup (keys_of fs) -> Forall (json_field n) fs -> Forall (fun f : field => to_value (of_value f.2.2) = f.2.2) fs ->
  forall acc, (forall k, k ∈ keys_of acc -> k ∉ keys_of fs) -> add_members acc (map key_member fs) = acc ++ fs.
Proof.
  induction fs as [|[k [raw w]] fs IH]; intros Hnd Hj Hto acc Hdis; [by rewrite app_nil_r|].
  apply NoDup_cons in Hnd as [Hk Hnd]. apply Forall_cons in Hj as [(Hr & Hu & Hw) Hj], Hto as [Hto1 Hto]. cbn [fst snd] in *.
  unfold add_members. cbn [map foldl key_member]. rewrite (str_nonempty raw Hr), Hto1, <- Hu.
  change (add_members (set_field k raw w acc) (map key_member fs) = acc ++ (k, (raw, w)) :: fs).
  rewrite set_field_new by (intros Hin; apply (Hdis k Hin); simpl; set_solver). rewrite IH; [by rewrite <- app_assoc|done|done|done|].
  intros k'. unfold keys_of in *. rewrite map_app. cbn [map fst] in *. rewrite elem_of_app, list_elem_of_singleton.
  intros [Hin| ->]; [|done]. intros Hin'. apply (Hdis k' Hin). by right.
Qed.

Lemma of_value_json n v : json_value n v -> to_value (of_value v) = v /\ tree_ok (of_value v) /\ (tree_depth (of_value v) <= n)%nat.
Proof.
  revert n. induction v as [t nv s|fs IH|es IH] using value_nested; intros n.
  - intros Hj. destruct (json_scalar _ _ _ _ Hj) as [-> [[Ht ->]|[Ht ->]]]; cbn [of_value].
    + rewrite lit_not_quoted by done. split_and!; [done|done|simpl; lia].
    + rewrite str_quoted by done. split_and!; [done|done|simpl; lia].
  - destruct n as [|n]; [done|]. rewrite json_value_obj. intros [Hnd Hj]. cbn [of_value].
    assert (Forall (fun f : field => to_value (of_value f.2.2) = f.2.2 /\ tree_ok (of_value f.2.2) /\ (tree_depth (of_value f.2.2) <= n)%nat) fs) as Hall.
    { rewrite Forall_forall in *. intros f Hf. apply (IH f Hf), Hj, Hf. }
    split_and!.
    + change (VObject (add_members [] (map key_member fs)) = VObject fs). f_equal. eapply (add_members_fields n); [done|done| |by intros k Hk%elem_of_nil].
      eapply Forall_impl; [exact Hall|]. naive_solver.
    + apply tree_ok_obj, Forall_map. rewrite Forall_forall in *. intros [k [raw w]] Hf. specialize (Hj _ Hf) as (Hr & _). cbn [fst snd] in *. rewrite (str_nonempty _ Hr).
      split; [done|]. by apply (Hall _ Hf).
    + cbn [tree_depth]. apply le_n_S, list_max_Forall, Forall_map. rewrite Forall_forall in *. intros [k [raw w]] Hf. by apply (Hall _ Hf).
  - destruct n as [|n]; [done|]. rewrite json_value_arr. intros Hj. cbn [of_value].
    assert (Forall (fun e => to_value (of_value e) = e /\ tree_ok (of_value e) /\ (tree_depth (of_value e) <= n)%nat) es) as Hall.
    { rewrite Forall_forall in *. intros e He. apply (IH e He), Hj, He. }
    split_and!.
    + cbn [to_value]. rewrite map_map. f_equal. rewrite <- (map_id es) at 2. apply map_ext_Forall. eapply Forall_impl; [exact Hall|]. naive_solver.
    + apply tree_ok_arr, Forall_map. eapply Forall_impl; [exact Hall|]. naive_solver.
    + cbn [tree_depth]. apply le_n_S, list_max_Forall, Forall_map. eapply Forall_impl; [exact Hall|]. naive_solver.
Qed.

(** ** Merged values *)

Lemma sublist_Forall {A} (P : A -> Prop) (xs ys : list A) : xs `sublist_of` ys -> Forall P ys -> Forall P xs.
Proof. induction 1; rewrite ?Forall_cons; naive_solver. Qed.

Definition ojson (n : nat) (v : option value) : Prop := match v with Some v => json_value n v | None => True end.

Lemma get_json n k fs v : Forall (json_field n) fs -> get k fs = Some v -> json_value n v /\ str_ok (get_raw k fs) /\ k = unquote (get_raw k fs).
Proof.
  induction fs as [|[k' [raw w]] fs IH]; [done|]. rewrite Forall_cons. intros [(Hr & Hu & Hv) Hfs]. cbn [get get_raw fst snd] in *.
  destruct (String.eqb_spec k k') as [->|]; [by intros [= ->]|by apply IH].
Qed.

Lemma get_ojson n k fs : Forall (json_field n) fs -> ojson n (get k fs).
Proof. intros Hfs. destruct (get k fs) eqn:E; [|done]. by eapply get_json. Qed.

Lemma add_all_json n R fc fi ks out : Forall (json_field n) fc -> Forall (json_field n) fi ->
  (forall k m, R k = Some m -> json_value n m /\ (is_Some (get k fc) \/ is_Some (get k fi))) ->
  NoDup (keys_of out) /\ Forall (json_field n) out -> NoDup (keys_of (add_all R fc fi ks out)) /\ Forall (json_field n) (add_all R fc fi ks out).
Proof.
  intros Hc Hi HR. revert out. induction ks as [|k ks IH]; intros out Hout; [done|]. apply IH. unfold add_pure.
  destruct (get k out); [done|]. destruct (R k) as [m|] eqn:Em; [|done]. apply HR in Em as [Hm Hk]. destruct Hout as [Hnd Hj]. apply set_field_json; [|done|done].
  unfold raw_of. destruct (get k fc) as [v|] eqn:Ec.
  - eapply get_json in Ec as (_ & ? & ?); [|done]. done.
  - destruct Hk as [[? ?]|[v Ev]]; [done|]. eapply get_json in Ev as (_ & ? & ?); [|done]. done.
Qed.

Lemma merged_some_side w f b c i m : merged w f b c i = Some m -> is_Some c \/ is_Some i.
Proof. destruct c, i; eauto. destruct f; done. Qed.

Lemma merged_json w f : forall n b c i m, (odepth c < f)%nat -> merged w f b c i = Some m -> ojson n c -> ojson n i -> json_value n m.
Proof.
  induction f as [|f IH]; intros n b c i m Hd; [done|]. unfold merged. cbn [merge].
  destruct (same c i) eqn:E1; [by intros ->|]. destruct (same b c) eqn:E2; [by intros ->|]. destruct (same b i) eqn:E3; [by intros ->|].
  destruct c as [[t1 n1 s1|fc|ec]|]; [..|by intros ->]; (destruct i as [[t2 n2 s2|fi|ei]|]; [..|by intros [= <-]]); try by (destruct w; intros [= <-]).
  - destruct (merge_objects_pure w f (fields_of b) fc fi "" []) as [cs ->]; [intros; by apply merge_pure|done|].
    intros [= <-] Hc Hi. destruct n as [|n]; [done|]. cbn [ojson] in Hc, Hi. apply json_value_obj in Hc as [_ Hc], Hi as [_ Hi]. apply json_value_obj.
    apply add_all_json; [done|done| |by split; constructor]. intros k m Hm. split.
    + eapply IH; [|exact Hm|by apply get_ojson..]. pose proof (odepth_get k fc). simpl in Hd. lia.
    + by eapply merged_some_side.
  - intros [= <-] Hc Hi. destruct n as [|n]; [done|]. cbn [ojson] in Hc, Hi. apply json_value_arr in Hc, Hi. apply json_value_arr. unfold mergeSets.
    destruct (add_elems_sub (keep_elem (elems_of b) ec ei) ec []) as (e1 & H1 & ->). destruct (add_elems_sub (keep_elem (elems_of b) ec ei) ei ([] ++ e1)) as (e2 & H2 & ->).
    rewrite !Forall_app. split_and!; [done|..]; eapply sublist_Forall; eauto.
Qed.

(** ** Rendering *)

Lemma blanks_ws s : all_bytes is_ws (blanks s) = true.
Proof. induction s as [|a s IH]; [done|]. cbn [blanks]. destruct (is_blank a) eqn:E; [|done]. cbn [all_bytes]. rewrite IH, andb_true_r.
  unfold is_blank in E. apply orb_true_iff in E as [->%ascii_eqb_eq|E]; [done|]. unfold is_ws. rewrite E. by rewrite orb_true_r. Qed.

Lemma jsonIndent_ws like indent : jsonIndent like = Some indent -> all_bytes is_ws indent = true.
Proof. unfold jsonIndent. destruct (IndexByte like nl); [|done]. destruct (_ =? _)%nat; [done|]. intros [= <-]. destruct (String.eqb _ _); [done|apply blanks_ws]. Qed.

Notation deepest := (Z.to_nat maxNestingDepth).

Lemma parseJSON_ok data v : parseJSON data = Some (Ok v) <-> exists t, json_read data = Some t /\ v = to_value t.
Proof. rewrite parseJSON_reads. destruct (json_read data); naive_solver. Qed.

Lemma parseJSON_json data v : parseJSON data = Some (Ok v) -> json_value deepest v.
Proof. rewrite parseJSON_ok. intros (t & [Hok Hd]%json_read_ok & ->). apply to_value_json; [done|lia]. Qed.

(** What is rendered parses as what was rendered. *)
Lemma json_render_parses v like cur : json_value deepest v -> exists out, json_render v like cur = Ok out /\ parseJSON out = Some (Ok v).
Proof.
  intros (Hto & Hok & Hd)%of_value_json. unfold json_render. rewrite (writeJSON_print v 0%nat). set (t := of_value v) in *. assert (0 <= maxNestingDepth) by done.
  assert (exists ly, white ly /\ match jsonIndent like with
    | Some indent => match Indent (print compact_layout 0 t) indent with Some p => Ok p | None => Err "invalid JSON" end
    | None => Ok (print compact_layout 0 t) end = Ok (print ly 0 t)) as (ly & Hly & ->).
  { destruct (jsonIndent like) as [indent|] eqn:Ei; [|by exists compact_layout; split; [apply white_compact|]].
    exists (indent_layout indent). split; [by eapply white_indent, jsonIndent_ws|]. unfold Indent.
    destruct (print_back compact_layout white_compact t 0%nat 0 "" "") as [f Hf]; [done|lia|done|done|]. rewrite append_nil_r in Hf. cbn [String.append] in Hf.
    apply read_enough in Hf. rewrite Hf. cbn [skip_ws]. by rewrite append_nil_r. }
  eexists. split; [done|]. apply parseJSON_ok. exists t. split; [|done].
  destruct (HasSuffix like (String nl "")).
  - apply (json_read_print ly Hly t "" (String nl "")); [done|lia|done|done].
  - rewrite <- (append_nil_r (print ly 0 t)). apply (json_read_print ly Hly t "" ""); [done|lia|done|done].
Qed.

(** The base a merge has, when it is JSON. *)
Definition parsed_base (b : option string) : option value :=
  match b with
  | Some bd => match parseJSON bd with Some (Ok v) => Some v | _ => None end
  | None => None
  end.

(** C7: the JSON settings policy, for a change that is no fast forward, with a
    file current and both contents and the base at hand, whatever bytes they
    are. A file that is not JSON waits on its side ([ErrIncomplete]). The seed
    document [{}] never replaces the current file, whatever a merge would give.
    A current file that is the seed, or not JSON, is replaced. Otherwise the
    two documents merge, against the base when it is JSON, and the policy
    decides the merge: it keeps the current copy or accepts the incoming one
    when that is the merge already, and else writes a file that parses as the
    merged document, token for token and in its order; only a merge to the
    empty object falls back to the newer copy. *)
Theorem json3_merges_read_back inp cv data curData b :
  in_fast inp = false -> in_current inp = Some cv -> ekind (v_entry cv) = File -> ekind (v_entry (in_incoming inp)) = File ->
  Content (in_incoming inp) = Ok data -> Content cv = Ok curData -> Base inp = Ok b ->
  if negb (Valid data) then m_merge JSON3 inp = Err ErrIncomplete
  else exists inc r, parseJSON data = Some (Ok inc) /\ m_merge JSON3 inp = Ok r /\
    if isEmptyObject (Some inc) then decision r = Keep
    else if negb (Valid curData) then decision r = Accept
    else exists cur, parseJSON curData = Some (Ok cur) /\
      if isEmptyObject (Some cur) then decision r = Accept
      else exists m cs, merge3 (newer (v_entry (in_incoming inp)) (v_entry cv)) (parsed_base b) (Some cur) (Some inc) = Some (Some m, cs) /\
        (decision r = Keep /\ same (Some m) (Some cur) = true \/
         decision r = Accept /\ same (Some m) (Some inc) = true \/
         decision r = Merged /\ parseJSON (m_content r) = Some (Ok m) \/
         isEmptyObject (Some m) = true /\ decision r = decision (newestWins inp)).
Proof.
  intros Hf Hc Hk Hi Hd Hcd Hb. unfold Valid. pose proof (mergeDocument_guards_content (F := jsonFormat) inp cv data Hc Hk Hi Hd) as Hg.
  cbn in Hg. rewrite parseJSON_reads in Hg.
  change (m_merge JSON3 inp) with (Doc_Merge inp). unfold Doc_Merge.
  destruct (json_read data) as [ti|] eqn:Ei; cbn in Hg; cbn [negb]; [|by rewrite Hg].
  assert (parseJSON data = Some (Ok (to_value ti))) as Pi by (apply parseJSON_ok; eauto).
  exists (to_value ti). destruct (isEmptyObject (Some (to_value ti))) eqn:Hsi.
  { destruct (Hg Hsi) as (r & Hr & Hdec & _). exists r. rewrite Hr. done. }
  destruct (mergeDocument_replaces (F := jsonFormat) inp cv data (to_value ti) curData) as (rr & Hrr & Hracc); [try done..|].
  { cbn. by rewrite Pi. }
  cbn in Hrr. rewrite parseJSON_reads in Hrr.
  destruct (json_read curData) as [tc|] eqn:Ec; cbn in Hrr; cbn [negb]; [|exists rr; rewrite Hrr by done; done].
  assert (parseJSON curData = Some (Ok (to_value tc))) as Pc by (apply parseJSON_ok; eauto).
  destruct (isEmptyObject (Some (to_value tc))) eqn:Hsc.
  { exists rr. rewrite Hrr by exact Hsc. split_and!; [done..|]. exists (to_value tc). by rewrite Hsc. }
  set (inc := to_value ti) in *. set (cur := to_value tc) in *.
  destruct (mergeDocument_three_way (F := jsonFormat) inp cv data inc curData cur b) as (m & cs & r & Hm & Hr & Hkeep & Hacc & Hwr);
    [done..|by cbn; rewrite Pi|done|done|by cbn; rewrite Pc|done|done|].
  assert (match b with Some bd => match df_parse (docFormat := jsonFormat) bd with Ok v => Some v | Err _ => None end | None => None end = parsed_base b) as Hbase.
  { destruct b as [bd|]; [|done]. cbn. by destruct (parseJSON bd) as [[]|]. }
  rewrite Hbase in Hm. exists r. rewrite Hr. split_and!; [done..|]. exists cur. rewrite Hsc. split; [done|]. exists m, cs. split; [done|].
  destruct (same (Some m) (Some cur)) eqn:E1; [left; auto|]. destruct (same (Some m) (Some inc)) eqn:E2; [right; left; auto|]. right. right.
  specialize (Hwr eq_refl eq_refl). destruct (isEmptyObject (Some m)); [by right|]. left.
  assert (json_value deepest m) as Hj.
  { apply merge3_value_spec in Hm. eapply (merged_json _ (S (odepth (Some cur))) deepest _ (Some cur) (Some inc)); [lia|by symmetry; exact Hm|by eapply parseJSON_json..]. }
  destruct (json_render_parses m curData cur Hj) as (out & Ho & Hp). cbn [df_render jsonFormat] in Hwr. rewrite Ho in Hwr. destruct Hwr as [-> ->]. done.
Qed.

Module Json3Examples.

Definition q (s : string) : string := String quote (s +:+ String quote "").
Definition doc (a : string) : string := "{" +:+ q "theme" +:+ ": " +:+ q a +:+ ", " +:+ q "n" +:+ ": [1, 2.0]}".
Definition cur_doc : string := "{" +:+ String nl ("  " +:+ q "theme" +:+ ": " +:+ q "dark" +:+ "," +:+ String nl ("  " +:+ q "n" +:+ ": [1.0, 2, 3]" +:+ String nl ("}" +:+ String nl ""))).
Definition inc_doc : string := "{" +:+ q "theme" +:+ ":" +:+ q "light" +:+ "," +:+ q "n" +:+ ":[1,2]," +:+ q "x\u0041" +:+ ":{}}".

Definition file_of (mtime : Z) (data : string) : Version :=
  MkVersion (MkEntry File 420 (Z.of_nat (String.length data)) mtime (hashOf data) "" []) 1 "s" (Some (Ok data)).

Definition both : MergeInput := MkMergeInput "r" "settings.json" (MkSideInfo "b" "loc" false) false 1 (Some (file_of 1 cur_doc)) (file_of 2 inc_doc) (Some (Ok (Some (doc "light")))).

Lemma both_merged : match m_merge JSON3 both with Ok r => decision r | Err _ => Undecided end = Merged.
Proof. vm_compute. reflexivity. Qed.

Lemma docs_not_empty : (match parseJSON inc_doc with Some (Ok v) => isEmptyObject (Some v) | _ => true end, match parseJSON cur_doc with Some (Ok v) => isEmptyObject (Some v) | _ => true end) = (false, false).
Proof. vm_compute. reflexivity. Qed.

Lemma json3_merges_read_back_witness :
  exists m r, m_merge JSON3 both = Ok r /\ decision r = Merged /\ parseJSON (m_content r) = Some (Ok m).
Proof.
  pose proof (json3_merges_read_back both (file_of 1 cur_doc) inc_doc cur_doc (Some (doc "light"))) as H.
  specialize (H eq_refl eq_refl eq_refl eq_refl ltac:(vm_compute; reflexivity) ltac:(vm_compute; reflexivity) eq_refl).
  assert (Valid inc_doc = true /\ Valid cur_doc = true) as [Hv1 Hv2] by (vm_compute; split; reflexivity).
  rewrite Hv1, Hv2 in H. cbn [negb] in H. destruct H as (inc & r & Hi & Hr & H).
  pose proof docs_not_empty as He. rewrite Hi in He. destruct (isEmptyObject (Some inc)); [discriminate He|].
  destruct H as (cur & Hc & H). rewrite Hc in He. destruct (isEmptyObject (Some cur)); [discriminate He|]. destruct H as (m & cs & _ & Hdec).
  exists m, r. pose proof both_merged as Hm. rewrite Hr in Hm. split; [exact Hr|]. split; [exact Hm|].
  destruct Hdec as [[E _]|[[E _]|[[_ E]|[_ E]]]]; [congruence|congruence|exact E|]. rewrite Hm in E. vm_compute in E. discriminate E.
Defined.
End Json3Examples.
