(* ===== verification/Credential.v ===== *)
(** * The credential policy (internal/sharesync/credential.go)

    What the hub makes of a change to a login file: which files are whole logins,
    which are logins cleared by their agent, and whose login a location keeps.
    json.Unmarshal into the struct of tokens is written out on the tree of the
    text: a field takes the members whose names fold to its own, null empties a
    pointer, and a member of another type makes the whole an error. *)

From S2P Require Import Prelude GoStrings GoText Entry SyncPolicy Mergers Json.
Local Open Scope string_scope.
Local Open Scope Z_scope.
Local Open Scope list_scope.

(** ** Logins *)

(** wholeLogin. *)
Definition wholeLogin (name data : string) : bool :=
  if String.eqb (TrimSpace data) "" then false
  else if HasSuffix name ".json" then match json_read data with Some (JtObj _) => true | _ => false end
  else true.

(** encoding/json's foldName, for comparing with an ASCII name: letters in upper
    case, and the two runes outside ASCII that fold to a letter of it. *)
Fixpoint foldName (s : string) : string :=
  match s with
  | EmptyString => ""
  | String a s1 =>
      let upper := String (if in_range 97 122 (code a) then byte (code a - 32) else a) (foldName s1) in
      match s1 with
      | String b s2 =>
          if (code a =? 197) && (code b =? 191) then String "S"%char (foldName s2)
          else match s2 with
               | String c s3 => if (code a =? 226) && (code b =? 132) && (code c =? 170) then String "K"%char (foldName s3) else upper
               | EmptyString => upper
               end
      | EmptyString => upper
      end
  end.

Definition names_field (k field : string) : bool := String.eqb (foldName (unquote k)) (foldName field).

Record oauth := MkOAuth { accessToken : option string; refreshToken : option string }.

(** A member decoded into a pointer to a string; [None] is an error. *)
Definition decode_string (t : jtree) : option (option string) :=
  match t with
  | JtStr raw => Some (Some (unquote raw))
  | JtLit text => if String.eqb text "null" then Some None else None
  | _ => None
  end.

Definition decode_token (o : option oauth) (m : string * jtree) : option oauth :=
  match o with
  | None => None
  | Some o =>
      let '(k, v) := m in
      if names_field k "accessToken" then match decode_string v with Some s => Some (MkOAuth s (refreshToken o)) | None => None end
      else if names_field k "refreshToken" then match decode_string v with Some s => Some (MkOAuth (accessToken o) s) | None => None end
      else Some o
  end.

(** A member decoded into the pointer to the tokens: what a repeated one holds is
    decoded over what is there. *)
Definition decode_oauth (cur : option oauth) (t : jtree) : option (option oauth) :=
  match t with
  | JtObj ms => match foldl decode_token (Some (default (MkOAuth None None) cur)) ms with Some o => Some (Some o) | None => None end
  | JtLit text => if String.eqb text "null" then Some None else None
  | _ => None
  end.

Definition decode_member (doc : option (option oauth)) (m : string * jtree) : option (option oauth) :=
  match doc with
  | None => None
  | Some cur => let '(k, v) := m in if names_field k "claudeAiOauth" then decode_oauth cur v else Some cur
  end.

(** json.Unmarshal of the document; [None] is an error. *)
Definition decode_login (data : string) : option (option oauth) :=
  match json_read data with
  | Some (JtObj ms) => foldl decode_member (Some None) ms
  | Some (JtLit text) => if String.eqb text "null" then Some None else None
  | _ => None
  end.

Definition is_empty (s : option string) : bool := match s with Some s => String.eqb s "" | None => false end.

(** clearedLogin. *)
Definition clearedLogin (data : string) : bool :=
  match decode_login data with
  | Some (Some o) => is_empty (accessToken o) && is_empty (refreshToken o)
  | _ => false
  end.

(** ** The policy *)

Definition no_conflict (res : MergeResult) : MergeResult := MkMergeResult (decision res) (m_content res) false (reason res).

(** The end of Merge: the current login is a file and the incoming one is not newer. *)
Definition against_current (inp : MergeInput) (cur : Version) : result sync_error MergeResult :=
  let id := side_id (in_side inp) in
  match Content cur with
  | Err ErrTooLarge => Ok (decided Keep false ("an older login from " +:+ id))
  | Err e => Err e
  | Ok curData =>
      if clearedLogin curData || negb (wholeLogin (in_path inp) curData)
      then Ok (decided Accept false ("a login from " +:+ id +:+ " replaces a cleared one"))
      else Ok (decided Keep false ("an older login from " +:+ id))
  end.

(** Credential.Merge once the incoming login is at hand. *)
Definition merge_login (inp : MergeInput) (data : string) : result sync_error MergeResult :=
  let id := side_id (in_side inp) in
  let inc := v_entry (in_incoming inp) in
  if negb (wholeLogin (in_path inp) data) then Err ErrIncomplete
  else
    let live := match in_current inp with Some cur => bool_decide (ekind (v_entry cur) = File) | None => false end in
    if live && clearedLogin data then
      Ok (decided Keep false ("the login " +:+ id +:+ " cleared after losing a token refresh never signs the location's other copies out"))
    else match in_fast inp, in_current inp with
         | true, _ | _, None => Ok (decided Accept false "")
         | false, Some cur =>
             if negb (Live (v_entry cur)) then
               if 0 <? in_baseRev inp then Ok (decided Keep false ("a change on " +:+ id +:+ " to a login logged out since"))
               else Ok (decided Accept false ("a login on " +:+ id +:+ " after a logout"))
             else if negb live then Ok (no_conflict (newestWins inp))
             else if newer inc (v_entry cur) then Ok (decided Accept false ("a newer login from " +:+ id))
             else against_current inp cur
         end.

Definition Credential_Merge (inp : MergeInput) : result sync_error MergeResult :=
  let id := side_id (in_side inp) in
  let inc := v_entry (in_incoming inp) in
  if negb (Live inc) || negb (bool_decide (ekind inc = File)) then
    let res := newestWins inp in
    let res := if negb (Live inc) && bool_decide (decision res = Accept)
               then MkMergeResult (decision res) (m_content res) (conflict res) ("a logout on " +:+ id) else res in
    Ok (no_conflict res)
  else match Content (in_incoming inp) with
       | Err ErrTooLarge => Ok (no_conflict (newestWins inp))
       | Err e => Err e
       | Ok data => merge_login inp data
       end.

Definition CredentialPolicy : Merger := MkMerger ScopeLocation LanePriority 1 Credential_Merge.

(** LoginPaths. *)
Definition LoginPaths (table : Table) (root name : string) : bool :=
  let table := match table with [] => Defaults | _ => table end in
  match Table_PolicyFor table (path_Join root name) with
  | Some policy => bool_decide (policy = Credential)
  | None => false
  end.

(** ** Properties *)

Lemma newestWins_decides inp : decision (newestWins inp) = Accept \/ decision (newestWins inp) = Keep.
Proof. unfold newestWins. repeat case_match; auto. Qed.

Lemma Credential_decides inp r : Credential_Merge inp = Ok r -> (decision r = Accept \/ decision r = Keep) /\ conflict r = false.
Proof.
  pose proof (newestWins_decides inp) as Hn. unfold Credential_Merge, merge_login, against_current.
  repeat case_match; intros [= <-]; cbn; auto.
Qed.

#[export] Instance Credential_laws : MergerLaws CredentialPolicy.
Proof. split; intros inp r [[]%or_comm _]%Credential_decides; congruence. Qed.

(** A file that is a login at its path. *)
Definition is_login (name : string) (v : Version) : bool :=
  bool_decide (ekind (v_entry v) = File) && match Content v with Ok data => wholeLogin name data && negb (clearedLogin data) | Err _ => false end.

(** A change to a login: a delete, or a file that is not too large to read. *)
Record login_change := MkLoginChange { lg_side : SideInfo; lg_fast : bool; lg_base : Z; lg_version : Version }.

Definition login_input (root name : string) (cur : Version) (ch : login_change) : MergeInput :=
  MkMergeInput root name (lg_side ch) (lg_fast ch) (lg_base ch) (Some cur) (lg_version ch) None.

Definition small_file (v : Version) : Prop := ekind (v_entry v) = File /\ Content v <> Err ErrTooLarge.

(** What a location holds after a change. *)
Definition login_next (root name : string) (cur : Version) (ch : login_change) : Version :=
  match Credential_Merge (login_input root name cur ch) with
  | Ok r => if bool_decide (decision r = Accept) then lg_version ch else cur
  | Err _ => cur
  end.

Definition logins (root name : string) (cur : Version) (chs : list login_change) : Version := foldl (login_next root name) cur chs.

Section location.
Context (root name : string).

(** A login faces a file: only another login takes its place, and one made elsewhere
    only when it is newer. *)
Lemma login_next_file cur ch : is_login name cur = true -> small_file (lg_version ch) ->
  login_next root name cur ch = if is_login name (lg_version ch) && (lg_fast ch || newer (v_entry (lg_version ch)) (v_entry cur)) then lg_version ch else cur.
Proof.
  unfold is_login. rewrite andb_true_iff, bool_decide_eq_true. intros [Hk Hcur] [Hf Hsm]. unfold login_next, Credential_Merge. cbn [login_input in_incoming in_side in_current].
  rewrite (bool_decide_eq_true_2 (ekind (v_entry (lg_version ch)) = File)) by done. assert (Live (v_entry (lg_version ch)) = true) as -> by (apply Live_spec; by rewrite Hf).
  cbn [negb orb andb]. destruct (Content (lg_version ch)) as [data|e]; [|by destruct e].
  unfold merge_login. cbn [login_input in_incoming in_side in_current in_path in_fast in_baseRev]. rewrite (bool_decide_eq_true_2 _ Hk).
  destruct (wholeLogin name data); [|done]. cbn [negb andb]. destruct (clearedLogin data); [by cbn|]. cbn [negb andb].
  destruct (lg_fast ch); [done|]. assert (Live (v_entry cur) = true) as -> by (apply Live_spec; by rewrite Hk). cbn [negb orb].
  destruct (newer (v_entry (lg_version ch)) (v_entry cur)); [done|]. unfold against_current. cbn [login_input in_path in_side].
  destruct (Content cur) as [curData|]; [|done]. apply andb_true_iff in Hcur as [-> ->%negb_true_iff]. done.
Qed.

Lemma login_next_delete cur ch : Live (v_entry (lg_version ch)) = false -> lg_fast ch = false -> login_next root name cur ch = cur.
Proof. intros Hl Hf. unfold login_next, Credential_Merge. cbn [login_input in_incoming]. rewrite Hl. cbn [negb orb]. unfold newestWins. cbn. by rewrite Hf, Hl. Qed.

(** A logout made on the current login. *)
Definition logout (ch : login_change) : Prop := Live (v_entry (lg_version ch)) = false /\ lg_fast ch = true.

Definition plain_change (ch : login_change) : Prop := small_file (lg_version ch) \/ Live (v_entry (lg_version ch)) = false /\ lg_fast ch = false.

Lemma logins_kept chs cur : is_login name cur = true -> Forall plain_change chs ->
  is_login name (logins root name cur chs) = true /\ logins root name cur chs ∈ cur :: map lg_version chs.
Proof.
  revert cur. induction chs as [|ch chs IH]; intros cur Hc Hp; [split; [done|by left]|]. apply Forall_cons in Hp as [Hp Hps].
  assert (is_login name (login_next root name cur ch) = true /\ login_next root name cur ch ∈ [cur; lg_version ch]) as [H1 H2].
  { destruct Hp as [Hf|[Hl Hf]]; [|rewrite login_next_delete by done; split; [done|by left]]. rewrite login_next_file by done.
    destruct (is_login name (lg_version ch)) eqn:E; [|split; [done|by left]]. cbn [andb]. destruct (_ || _); split; try done; rewrite !elem_of_cons; auto. }
  destruct (IH _ H1 Hps) as [H3 H4]. split; [done|]. cbn [map]. unfold logins in *. cbn [foldl]. rewrite !elem_of_cons in *. destruct H4 as [->|?]; [|by auto]. destruct H2 as [?|[?|[]%elem_of_nil]]; auto.
Qed.

Lemma logins_newest chs cur : is_login name cur = true -> Forall plain_change chs -> Forall (fun ch => lg_fast ch = false) chs ->
  newer (v_entry cur) (v_entry (logins root name cur chs)) = false /\
  Forall (fun ch => is_login name (lg_version ch) = true -> newer (v_entry (lg_version ch)) (v_entry (logins root name cur chs)) = false) chs.
Proof.
  revert cur. induction chs as [|ch chs IH]; intros cur Hc Hp Hnf; [split; [apply newer_irrefl|done]|].
  apply Forall_cons in Hp as [Hp Hps], Hnf as [Hf Hfs]. unfold logins. cbn [foldl]. change (foldl (login_next root name) ?x chs) with (logins root name x chs).
  assert (login_next root name cur ch = cur /\ (is_login name (lg_version ch) = true -> newer (v_entry (lg_version ch)) (v_entry cur) = false) \/
          login_next root name cur ch = lg_version ch /\ is_login name (lg_version ch) = true /\ newer (v_entry (lg_version ch)) (v_entry cur) = true) as [[E Hn]|[E [Hl Hn]]].
  { destruct Hp as [Hs|[Hl _]].
    - rewrite login_next_file, Hf by done. cbn [orb]. destruct (is_login name (lg_version ch)); [|by left]. cbn [andb]. destruct (newer _ _) eqn:En; auto.
    - left. rewrite login_next_delete by done. split; [done|]. unfold is_login. rewrite andb_true_iff, bool_decide_eq_true. intros [Hk _].
      exfalso. apply Live_false in Hl. congruence. }
  - rewrite E. destruct (IH cur Hc Hps Hfs) as [H1 H2]. split; [done|]. constructor; [|done]. intros Hl. eapply newer_negtrans; [by apply Hn|done].
  - rewrite E. destruct (IH _ Hl Hps Hfs) as [H1 H2]. split; [|by constructor]. eapply newer_negtrans; [by apply newer_asym|done].
Qed.

Lemma logged_out_stays chs cur : Live (v_entry cur) = false -> Forall (fun ch => lg_fast ch = false /\ 0 < lg_base ch /\ plain_change ch) chs -> logins root name cur chs = cur.
Proof.
  intros Hc. induction chs as [|ch chs IH]; intros Hp; [done|]. apply Forall_cons in Hp as [(Hf & Hb & Hp) Hps]. unfold logins. cbn [foldl].
  assert (login_next root name cur ch = cur) as ->; [|by apply IH]. destruct Hp as [[Hk Hs]|[Hl _]]; [|by apply login_next_delete].
  unfold login_next, Credential_Merge. cbn [login_input in_incoming in_side in_current]. rewrite (bool_decide_eq_true_2 _ Hk).
  assert (Live (v_entry (lg_version ch)) = true) as -> by (apply Live_spec; by rewrite Hk). cbn [negb orb].
  destruct (Content (lg_version ch)) as [data|e]; [|by destruct e]. unfold merge_login. cbn [login_input in_incoming in_side in_current in_path in_fast in_baseRev].
  destruct (wholeLogin name data); [|done]. cbn [negb]. rewrite (bool_decide_eq_false_2 (ekind (v_entry cur) = File)) by (apply Live_false in Hc; congruence).
  cbn [andb]. rewrite Hf, Hc. cbn [negb]. by rewrite (proj2 (Z.ltb_lt _ _) Hb).
Qed.
End location.

(** C6: a location never loses its login to its stale copies. For whatever its copies
    report in regular files of a size that is read, and in deletes not made on the
    current login, in whatever order (files caught half written, logins an agent
    cleared, deletes and refreshes of stale copies, failing fetches), it holds a whole
    login throughout, one of those reported; when none was made on the current one it
    is the newest of all, so the copies agree whatever order they report in; and once
    logged out, no file or delete a copy made on the login before brings it back. A
    symlink, a folder or a file too large to be read in the login's place is not
    covered: there the newer of the two states wins, login or not. *)
Theorem credential_never_lost root name cur chs :
  Forall plain_change chs ->
  (is_login name cur = true ->
     let final := logins root name cur chs in
     is_login name final = true /\ final ∈ cur :: map lg_version chs /\
     (Forall (fun ch => lg_fast ch = false) chs ->
        forall v, v ∈ cur :: map lg_version chs -> is_login name v = true -> newer (v_entry v) (v_entry final) = false)) /\
  (Live (v_entry cur) = false -> Forall (fun ch => lg_fast ch = false /\ 0 < lg_base ch) chs -> logins root name cur chs = cur).
Proof.
  intros Hp. split.
  - intros Hc final. destruct (logins_kept root name chs cur Hc Hp) as [H1 H2]. split_and!; [done|done|]. intros Hnf v [->|Hin]%elem_of_cons Hl.
    + by apply (logins_newest root name chs cur).
    + apply list_elem_of_fmap in Hin as (ch & -> & Hin). destruct (logins_newest root name chs cur Hc Hp Hnf) as [_ Hall]. rewrite Forall_forall in Hall. auto.
  - intros Hl Hb. apply logged_out_stays; [done|]. rewrite Forall_forall in *. intros ch Hch. specialize (Hb _ Hch). specialize (Hp _ Hch). tauto.
Qed.

Module CredentialExamples.

Definition q (s : string) : string := String Json.quote (s +:+ String Json.quote "").
Definition login_text (access refresh : string) : string :=
  "{" +:+ q "claudeAiOauth" +:+ ": {" +:+ q "accessToken" +:+ ": " +:+ q access +:+ ", " +:+ q "refreshToken" +:+ ": " +:+ q refresh +:+ "}}".

Definition version (mtime : Z) (data : string) : Version :=
  MkVersion (MkEntry File 384 (Z.of_nat (String.length data)) mtime "" "" []) 1 "laptop" (Some (Ok data)).
Definition gone : Version := MkVersion (MkEntry Gone 0 0 9 "" "" []) 2 "pod" None.
Definition stale (v : Version) : login_change := MkLoginChange (MkSideInfo "pod" "cloud" false) false 1 v.

Definition first : Version := version 1 (login_text "a1" "r1").
Definition second : Version := version 3 (login_text "a2" "r2").
Definition reported : list login_change := [stale (version 5 (login_text "" "")); stale (version 6 "{"); stale second; stale gone; stale (version 2 (login_text "a0" "r0"))].

Example cleared_and_cut :
  clearedLogin (login_text "" "") = true /\ wholeLogin ".credentials.json" "{" = false /\ clearedLogin ("{" +:+ q "CLAUDEAIOAUTH" +:+ ":null}") = false.
Proof. vm_compute. done. Qed.

Lemma credential_never_lost_witness :
  logins "claude" ".credentials.json" first reported = second /\ is_login ".credentials.json" first = true /\
  is_login ".credentials.json" (logins "claude" ".credentials.json" first reported) = true /\
  newer (v_entry first) (v_entry (logins "claude" ".credentials.json" first reported)) = false /\
  logins "claude" ".credentials.json" gone [stale second] = gone.
Proof.
  assert (Forall plain_change reported) as Hp.
  { unfold reported. rewrite !Forall_cons. split_and!; [left|left|left|right|left|apply Forall_nil_2]; split; try reflexivity; vm_compute; discriminate. }
  destruct (credential_never_lost "claude" ".credentials.json" first reported Hp) as [H _].
  destruct H as (H1 & H2 & H3); [vm_compute; reflexivity|]. split; [vm_compute; reflexivity|]. split; [vm_compute; reflexivity|]. split; [exact H1|]. split.
  - apply H3; [repeat constructor|by left|vm_compute; reflexivity].
  - apply (credential_never_lost "claude" ".credentials.json" gone [stale second]); [|reflexivity|repeat constructor].
    apply Forall_cons_2; [|apply Forall_nil_2]. left. split; [reflexivity|vm_compute; discriminate].
Defined.
End CredentialExamples.
