(* ===== verification/Journal.v ===== *)
(** * The state journal (internal/sharesync/journal.go)

    A journal keeps keyed records in a snapshot file and a log. The two files
    are byte strings on a [disk]; every system call the code makes consumes
    one [outcome], so each error path runs. A failing write has put a part of
    its bytes on disk. How a line is written as JSON is an interface
    ([journal_codec]) with what the code relies on: a line holds no newline,
    and reads back as it was written. *)

From S2P Require Import Prelude GoStrings Entry.
Local Open Scope string_scope.
Local Open Scope Z_scope.
Local Open Scope list_scope.

Definition journalVersion : Z := 1.
Definition metaKey : string := "".

Record journalHead := MkHead { h_version : Z; h_seq : Z }.

(** One record, in the snapshot or the log; a removed record has no value. *)
Record journalLine (V : Type) := MkLine { l_seq : Z; l_key : string; l_del : bool; l_val : option V }.
Arguments MkLine {V}.
Arguments l_seq {V}.
Arguments l_key {V}.
Arguments l_del {V}.
Arguments l_val {V}.

(** The texts a value holds. *)
Class has_texts (V : Type) := val_texts : V -> list string.

Definition utf8 {V} `{has_texts V} (v : V) : Prop := Forall (fun s => ValidString s = true) (val_texts v).

Lemma all_utf8 (l : list string) : forallb ValidString l = true -> Forall (fun s => ValidString s = true) l.
Proof. induction l as [|s l IH]; simpl; [done|]. intros [? ?]%andb_true_iff. constructor; auto. Qed.

(** A record JSON carries unchanged: its key and the texts of its value are UTF-8. *)
Definition readable {V} `{has_texts V} (key : string) (v : option V) : Prop :=
  ValidString key = true /\ (forall w, v = Some w -> utf8 w).

(** json.Marshal and json.Unmarshal of the two line types: encoding/json puts U+FFFD for
    bytes that are not UTF-8, so only [readable] lines read back as they are. *)
Class journal_codec (V : Type) `{has_texts V} := {
  enc_head : journalHead -> string;
  dec_head : string -> option journalHead;
  enc_line : journalLine V -> string;
  dec_line : string -> option (journalLine V);
  dec_enc_head h : dec_head (enc_head h) = Some h;
  dec_enc_line l : readable (l_key l) (l_val l) -> dec_line (enc_line l) = Some l;
  enc_head_line h : contains_byte (enc_head h) nl = false;
  enc_line_line l : contains_byte (enc_line l) nl = false;
  enc_line_nonempty l : enc_line l <> ""
}.

(** ** The disk *)

Inductive outcome := Good | Bad (written : nat).

Record disk := MkDisk {
  d_snap : option string;   (* the snapshot file *)
  d_log : option string;    (* its log *)
  d_aside : list string;    (* corrupt snapshots moved aside *)
  d_faults : list outcome   (* the outcomes of the system calls to come; then all succeed *)
}.

Definition set_snap (d : disk) (s : option string) : disk := MkDisk s (d_log d) (d_aside d) (d_faults d).
Definition set_log (d : disk) (s : option string) : disk := MkDisk (d_snap d) s (d_aside d) (d_faults d).

Definition syscall (d : disk) : outcome * disk :=
  match d_faults d with
  | [] => (Good, d)
  | o :: fs => (o, MkDisk (d_snap d) (d_log d) (d_aside d) fs)
  end.

(** A call whose failure ends the operation with [bad]. *)
Definition attempt {A} (d : disk) (bad : disk -> A) (k : disk -> A) : A :=
  let '(o, d') := syscall d in
  match o with Good => k d' | Bad _ => bad d' end.

Fixpoint zeros (n : nat) : string := match n with O => "" | S n' => String nul (zeros n') end.

(** A file written at an offset, and cut or extended to a length. *)
Definition write_at (file : string) (off : nat) (data : string) : string :=
  take_bytes off file +:+ zeros (off - String.length file) +:+ data
    +:+ drop_bytes (off + String.length data) file.

Definition truncate (file : string) (n : nat) : string :=
  take_bytes n file +:+ zeros (n - String.length file).

Inductive journal_error := ErrNewerState | errCorrupt | ErrClosed | ErrIO.

(** ** The journal *)

Record journal (V : Type) := MkJournal {
  j_log : bool;     (* the log is open *)
  j_off : nat;      (* its file offset *)
  j_size : nat;
  j_seq : Z;        (* uint64 *)
  j_logged : nat;
  j_pending : list (journalLine V)
}.
Arguments MkJournal {V}.
Arguments j_log {V}.
Arguments j_off {V}.
Arguments j_size {V}.
Arguments j_seq {V}.
Arguments j_logged {V}.
Arguments j_pending {V}.

Section journal.
Context {V : Type} `{HT : has_texts V} `{C : !journal_codec V}.

Implicit Types (j : journal V) (d : disk) (recs : gmap string (option V)).

(** readSnapshot's loop over the lines after the header. *)
Fixpoint read_lines (lines : list string) recs : option (gmap string (option V)) :=
  match lines with
  | [] => Some recs
  | line :: rest =>
      if String.eqb line "" then read_lines rest recs
      else match dec_line line with
           | None => None
           | Some rec => read_lines rest (<[l_key rec := l_val rec]> recs)
           end
  end.

Definition readSnapshot (data : option string)
    : result journal_error (journalHead * gmap string (option V)) :=
  match data with
  | None => Ok (MkHead 0 0, ∅)
  | Some data =>
      match split_byte nl data with
      | [] => Err errCorrupt
      | first :: rest =>
          match dec_head first with
          | None => Err errCorrupt
          | Some head =>
              if journalVersion <? h_version head then Err ErrNewerState
              else if h_version head <? 1 then Err errCorrupt
              else match read_lines rest ∅ with
                   | None => Err errCorrupt
                   | Some recs => Ok (head, recs)
                   end
          end
      end
  end.

(** replay's loop over the lines that end in a newline: the newest seq, the
    lines read, their length, and the records. *)
Fixpoint replay_lines (lines : list string) (seq : Z) (jseq : Z) (logged good : nat) recs
    : Z * nat * nat * gmap string (option V) :=
  match lines with
  | [] => (jseq, logged, good, recs)
  | line :: rest =>
      match dec_line line with
      | None => (jseq, logged, good, recs)
      | Some rec =>
          if l_seq rec =? 0 then (jseq, logged, good, recs)
          else
            let good := (good + S (String.length line))%nat in
            let logged := S logged in
            if l_seq rec <=? seq then replay_lines rest seq jseq logged good recs
            else
              let recs := if l_del rec then delete (l_key rec) recs
                          else <[l_key rec := l_val rec]> recs in
              replay_lines rest seq (Z.max jseq (l_seq rec)) logged good recs
      end
  end.

Definition complete_lines (s : string) : list string := removelast (split_byte nl s).

Definition replay (log : option string) (seq jseq : Z) recs :=
  match log with
  | None => (jseq, 0%nat, 0%nat, recs)
  | Some s => replay_lines (complete_lines s) seq jseq 0 0 recs
  end.

(** openJournal's tail: replay, open the log, drop a torn tail. *)
Definition open_log (d : disk) (head : journalHead) recs
    : result journal_error (journal V * gmap string (option V)) * disk :=
  attempt d (fun d => (Err ErrIO, d)) (fun d => (* open for replay *)
  let '(jseq, logged, good, recs) := replay (d_log d) (h_seq head) (h_seq head) recs in
  attempt d (fun d => (Err ErrIO, d)) (fun d => (* open for writing, O_CREATE *)
  let d := set_log d (Some (default "" (d_log d))) in
  attempt d (fun d => (Err ErrIO, d)) (fun d =>
  let d := set_log d (Some (truncate (default "" (d_log d)) good)) in
  attempt d (fun d => (Err ErrIO, d)) (fun d => (* seek *)
  (Ok (MkJournal true good good jseq logged [], recs), d))))).

Definition openJournal (d : disk) : result journal_error (journal V * gmap string (option V)) * disk :=
  attempt d (fun d => (Err ErrIO, d)) (fun d => (* mkdir *)
  attempt d (fun d => (Err ErrIO, d)) (fun d => (* read the snapshot *)
  match readSnapshot (d_snap d) with
  | Err errCorrupt =>
      attempt d (fun d => (Err errCorrupt, d)) (fun d => (* rename *)
      let d := MkDisk None (d_log d) (d_aside d ++ [default "" (d_snap d)]) (d_faults d) in
      let '(o, d) := syscall d in
      let d := match o with Good => set_log d None | Bad _ => d end in
      open_log d (MkHead 0 0) ∅)
  | Err e => (Err e, d)
  | Ok (head, recs) => open_log d head recs
  end)).

Definition with_pending j (p : list (journalLine V)) : journal V :=
  MkJournal (j_log j) (j_off j) (j_size j) (j_seq j) (j_logged j) p.

(** put and del; the value is one json.Marshal accepts. *)
Definition put j (k : string) (v : V) : journal V :=
  with_pending j (j_pending j ++ [MkLine 0 k false (Some v)]).

Definition del j (k : string) : journal V :=
  with_pending j (j_pending j ++ [MkLine 0 k true None]).

(** The lines of a batch with their seqs, and their bytes. *)
Fixpoint number (seq : Z) (ls : list (journalLine V)) : list (journalLine V) :=
  match ls with
  | [] => []
  | l :: ls' => let q := u64 (seq + 1) in MkLine q (l_key l) (l_del l) (l_val l) :: number q ls'
  end.

Definition line_bytes (s : string) : string := s +:+ String nl "".
Definition concat_lines (ss : list string) : string := Join (map line_bytes ss) "".
Definition batch_bytes (ls : list (journalLine V)) : string := concat_lines (map enc_line ls).

Definition commit j d : option journal_error * journal V * disk :=
  match j_pending j with
  | [] => (None, j, d)
  | _ =>
      if negb (j_log j) then (Some ErrClosed, j, d)
      else
        let n := length (j_pending j) in
        let buf := batch_bytes (number (j_seq j) (j_pending j)) in
        let file := default "" (d_log d) in
        let '(o, d) := syscall d in
        match o with
        | Good =>
            (None, MkJournal true (j_off j + String.length buf) (j_size j + String.length buf)
               (u64 (j_seq j + Z.of_nat n)) (j_logged j + n) [],
             set_log d (Some (write_at file (j_off j) buf)))
        | Bad w =>
            let part := take_bytes w buf in
            let file := write_at file (j_off j) part in
            let d := set_log d (Some file) in
            let j := MkJournal true (j_off j + String.length part) (j_size j) (j_seq j) (j_logged j) [] in
            attempt d (fun d => (Some ErrIO, j, d)) (fun d =>
            let d := set_log d (Some (truncate file (j_size j))) in
            attempt d (fun d => (Some ErrIO, j, d)) (fun d =>
            (Some ErrIO, MkJournal true (j_size j) (j_size j) (j_seq j) (j_logged j) [], d)))
        end
  end.

Definition due j (size : nat) : bool := (Nat.max 1024 (2 * size) <? j_logged j)%nat.

(** The snapshot of a set of records. *)
Definition snapshot_keys (recs : gmap string V) : list (string * V) :=
  SortFunc (fun a b => Compare (fst a) (fst b)) (map_to_list recs).

Definition snapshot_bytes (seq : Z) (recs : gmap string V) : string :=
  concat_lines (enc_head (MkHead journalVersion seq) ::
                map (fun kv => enc_line (MkLine 0 (fst kv) false (Some (snd kv)))) (snapshot_keys recs)).

Definition compact j d (recs : gmap string V) : option journal_error * journal V * disk :=
  if negb (j_log j) then (Some ErrClosed, j, d)
  else
    let '(err, j, d) := commit j d in
    match err with
    | Some e => (Some e, j, d)
    | None =>
        attempt d (fun d => (Some ErrIO, j, d)) (fun d => (* atomicfile.Write *)
        let d := set_snap d (Some (snapshot_bytes (j_seq j) recs)) in
        attempt d (fun d => (Some ErrIO, j, d)) (fun d =>
        let d := set_log d (Some (truncate (default "" (d_log d)) 0)) in
        attempt d (fun d => (Some ErrIO, j, d)) (fun d =>
        (None, MkJournal true 0 0 (j_seq j) 0 (j_pending j), d))))
    end.

Definition close j d : option journal_error * journal V * disk :=
  if negb (j_log j) then (None, j, d)
  else
    let '(err, j, d) := commit j d in
    let '(o, d) := syscall d in
    let err := match err, o with None, Bad _ => Some ErrIO | _, _ => err end in
    (err, MkJournal false (j_off j) (j_size j) (j_seq j) (j_logged j) (j_pending j), d).

(** ** Bytes *)

Lemma take_bytes_app a b : take_bytes (String.length a) (a +:+ b) = a.
Proof. induction a as [|x a IH]; simpl; [by destruct b|]. by rewrite IH. Qed.

Lemma drop_bytes_all s n : (String.length s <= n)%nat -> drop_bytes n s = "".
Proof. revert n. induction s as [|x s IH]; intros [|n] Hn; simpl in *; try done; [lia|]. apply IH. lia. Qed.

Lemma length_append a b : String.length (a +:+ b) = (String.length a + String.length b)%nat.
Proof. induction a; simpl; auto. Qed.

Lemma write_at_end file data : write_at file (String.length file) data = file +:+ data.
Proof.
  unfold write_at. rewrite Nat.sub_diag, drop_bytes_all by lia. simpl.
  rewrite append_nil_r. f_equal. rewrite <- (append_nil_r file) at 2. apply take_bytes_app.
Qed.

Lemma truncate_app a b : truncate (a +:+ b) (String.length a) = a.
Proof.
  unfold truncate. rewrite length_append, take_bytes_app.
  replace (String.length a - _)%nat with 0%nat by lia. apply append_nil_r.
Qed.

Lemma truncate_all a : truncate a (String.length a) = a.
Proof. rewrite <- (append_nil_r a) at 1. apply truncate_app. Qed.

(** ** Lines *)

Lemma concat_cons x xs : Join (x :: xs) "" = x +:+ Join xs "".
Proof. destruct xs; [symmetry; apply append_nil_r|]. by rewrite Join_cons. Qed.

Lemma concat_lines_cons s ss : concat_lines (s :: ss) = s +:+ String nl (concat_lines ss).
Proof. unfold concat_lines. simpl map. rewrite concat_cons. unfold line_bytes. by rewrite append_assoc. Qed.

Lemma concat_lines_app ss ss' : concat_lines (ss ++ ss') = concat_lines ss +:+ concat_lines ss'.
Proof.
  induction ss as [|s ss IH]; [done|]. simpl. rewrite !concat_lines_cons, IH.
  by rewrite append_assoc.
Qed.

Lemma split_concat_lines ss t :
  Forall (fun s => contains_byte s nl = false) ss -> contains_byte t nl = false ->
  split_byte nl (concat_lines ss +:+ t) = ss ++ [t].
Proof.
  intros Hss Ht. induction Hss as [|s ss Hs Hss IH]; [by apply split_byte_none|].
  rewrite concat_lines_cons, append_assoc. simpl. rewrite split_byte_app by done. by rewrite IH.
Qed.

Lemma complete_concat_lines ss t :
  Forall (fun s => contains_byte s nl = false) ss -> contains_byte t nl = false ->
  complete_lines (concat_lines ss +:+ t) = ss.
Proof. intros. unfold complete_lines. rewrite split_concat_lines by done. apply removelast_last. Qed.

Lemma enc_lines_ok (ls : list (journalLine V)) :
  Forall (fun s => contains_byte s nl = false) (map enc_line ls).
Proof. induction ls; simpl; constructor; auto using enc_line_line. Qed.

Lemma batch_bytes_app (a b : list (journalLine V)) : batch_bytes (a ++ b) = batch_bytes a +:+ batch_bytes b.
Proof. unfold batch_bytes. by rewrite map_app, concat_lines_app. Qed.

Lemma contains_take c n s : contains_byte s c = false -> contains_byte (take_bytes n s) c = false.
Proof.
  revert n. induction s as [|x s IH]; intros [|n]; simpl; try done.
  intros [-> ?]%orb_false_iff. simpl. auto.
Qed.

(** Any part of a batch on disk is some of its lines and a cut one. *)
Lemma take_batch w (ls : list (journalLine V)) :
  exists m t, take_bytes w (batch_bytes ls) = batch_bytes (take m ls) +:+ t /\
    contains_byte t nl = false /\ (m <= length ls)%nat.
Proof.
  revert w. induction ls as [|l ls IH]; intros w.
  { exists 0%nat, "". by destruct w. }
  unfold batch_bytes in *. simpl map. rewrite concat_lines_cons.
  pose proof (enc_line_line l) as Hl.
  destruct (decide (w <= String.length (enc_line l))%nat) as [Hw|Hw].
  - exists 0%nat, (take_bytes w (enc_line l)). split_and!; [|by apply contains_take|lia]. simpl.
    generalize (enc_line l) as s, Hw. clear. intros s. revert w.
    induction s as [|x s IHs]; intros [|w] Hw; simpl in *; try done; [lia|]. rewrite IHs by lia. done.
  - destruct (IH (w - S (String.length (enc_line l)))%nat) as (m & t & E & Ht & Hm).
    exists (S m), t. split_and!; [|done|simpl; lia]. simpl. rewrite concat_lines_cons, append_assoc. simpl.
    rewrite <- E. generalize (enc_line l) as s, (concat_lines (map enc_line ls)) as r, Hw. clear.
    intros s r. revert w. induction s as [|x s IHs]; intros [|w] Hw; simpl in *; try lia.
    + by rewrite Nat.sub_0_r.
    + rewrite IHs by lia. done.
Qed.

(** ** What the disk holds *)

Definition line_ok (l : journalLine V) : Prop :=
  readable (l_key l) (l_val l) /\ 0 < l_seq l < 2 ^ 64.

Definition apply_line recs (l : journalLine V) : gmap string (option V) :=
  if l_del l then delete (l_key l) recs else <[l_key l := l_val l]> recs.

(** The lines newer than a snapshot, applied to it. *)
Definition apply_after (q : Z) recs (ls : list (journalLine V)) : gmap string (option V) :=
  foldl (fun r l => if l_seq l <=? q then r else apply_line r l) recs ls.

Definition newest (q s : Z) (ls : list (journalLine V)) : Z :=
  foldl (fun s l => if l_seq l <=? q then s else Z.max s (l_seq l)) s ls.

Lemma replay_lines_spec ls q jseq logged good recs :
  Forall line_ok ls ->
  replay_lines (map enc_line ls) q jseq logged good recs =
  (newest q jseq ls, (logged + length ls)%nat, (good + String.length (batch_bytes ls))%nat, apply_after q recs ls).
Proof.
  unfold newest, apply_after. intros Hls. revert jseq logged good recs.
  induction Hls as [|l ls [Hk Hq] Hls IH]; intros jseq logged good recs.
  - simpl. by rewrite !Nat.add_0_r.
  - simpl. rewrite dec_enc_line by done. rewrite (proj2 (Z.eqb_neq _ _)) by lia.
    unfold batch_bytes. simpl map. rewrite concat_lines_cons, length_append. simpl.
    destruct (l_seq l <=? q); rewrite IH; unfold batch_bytes;
      repeat match goal with |- (_, _) = (_, _) => apply (f_equal2 pair) | |- _ = _ => first [done | lia] end.
Qed.

(** The files hold the records [recs]: what the next open will find. *)
Definition Holds d recs : Prop :=
  exists head recs0 ls t,
    readSnapshot (d_snap d) = Ok (head, recs0) /\ 0 <= h_seq head < 2 ^ 64 /\
    default "" (d_log d) = batch_bytes ls +:+ t /\ contains_byte t nl = false /\
    Forall line_ok ls /\ recs = apply_after (h_seq head) recs0 ls.

(** An open journal beside its files: the log ends where the next line goes. *)
Definition Repr j d recs : Prop :=
  exists head recs0 ls,
    readSnapshot (d_snap d) = Ok (head, recs0) /\ 0 <= h_seq head <= j_seq j /\ j_seq j < 2 ^ 64 /\
    d_log d = Some (batch_bytes ls) /\ Forall line_ok ls /\ Forall (fun l => l_seq l <= j_seq j) ls /\
    recs = apply_after (h_seq head) recs0 ls /\
    j_log j = true /\ j_off j = j_size j /\ j_size j = String.length (batch_bytes ls).

Lemma Repr_Holds j d recs : Repr j d recs -> Holds d recs.
Proof.
  intros (head & recs0 & ls & ? & ? & ? & Hlog & ? & ? & ? & _). exists head, recs0, ls, "".
  rewrite Hlog, append_nil_r. simpl. split_and!; try done; lia.
Qed.

Lemma newest_bounds q s ls :
  q <= s < 2 ^ 64 -> Forall line_ok ls ->
  s <= newest q s ls < 2 ^ 64 /\ Forall (fun l => l_seq l <= newest q s ls) ls.
Proof.
  unfold newest. intros Hs Hls. revert s Hs. induction Hls as [|l ls [_ Hl] Hls IH]; intros s Hs; simpl; [split; [lia|constructor]|].
  case_match eqn:E; bool_hyps.
  - destruct (IH s Hs) as [H1 H2]. split; [lia|]. constructor; [lia|done].
  - destruct (IH (Z.max s (l_seq l))) as [H1 H2]; [lia|]. split; [lia|]. constructor; [lia|done].
Qed.

Lemma attempt_good {A} d (bad k : disk -> A) : d_faults d = [] -> attempt d bad k = k d.
Proof. intros H. unfold attempt, syscall. by rewrite H. Qed.

Lemma open_log_spec d head recs0 ls t :
  d_faults d = [] -> 0 <= h_seq head < 2 ^ 64 ->
  default "" (d_log d) = batch_bytes ls +:+ t -> contains_byte t nl = false -> Forall line_ok ls ->
  exists j, open_log d head recs0 =
      (Ok (j, apply_after (h_seq head) recs0 ls), set_log d (Some (batch_bytes ls))) /\
    h_seq head <= j_seq j < 2 ^ 64 /\ Forall (fun l => l_seq l <= j_seq j) ls /\
    j_log j = true /\ j_off j = j_size j /\ j_size j = String.length (batch_bytes ls) /\
    j_pending j = [] /\ j_logged j = length ls.
Proof.
  intros Hf Hh Hlog Ht Hls. unfold open_log. rewrite attempt_good by done.
  assert (replay (d_log d) (h_seq head) (h_seq head) recs0 =
    (newest (h_seq head) (h_seq head) ls, length ls, String.length (batch_bytes ls),
     apply_after (h_seq head) recs0 ls)) as ->.
  { unfold replay. destruct (d_log d) as [s|]; simpl in Hlog.
    - rewrite Hlog. unfold batch_bytes at 1. rewrite complete_concat_lines by auto using enc_lines_ok.
      by rewrite replay_lines_spec.
    - destruct ls as [|l ls]; [done|]. exfalso. unfold batch_bytes in Hlog. simpl in Hlog.
      rewrite concat_lines_cons in Hlog. by destruct (enc_line l). }
  rewrite !attempt_good by done. simpl. rewrite Hlog, truncate_app.
  destruct (newest_bounds (h_seq head) (h_seq head) ls) as [Hn1 Hn2]; [lia|done|].
  eexists. split; [done|]. simpl. done.
Qed.

Lemma reopen d recs :
  Holds d recs -> d_faults d = [] ->
  exists j d', openJournal d = (Ok (j, recs), d') /\ Repr j d' recs /\ j_pending j = [] /\
    d_aside d' = d_aside d /\ d_faults d' = [].
Proof.
  intros (head & recs0 & ls & t & Hsnap & Hh & Hlog & Ht & Hls & ->) Hf.
  unfold openJournal. rewrite !attempt_good by done. rewrite Hsnap.
  destruct (open_log_spec d head recs0 ls t) as (j & -> & Hj); [done..|].
  destruct Hj as (? & ? & ? & ? & ? & ? & ?).
  eexists _, _. split; [done|]. split_and!; try done. exists head, recs0, ls. split_and!; try done; lia.
Qed.

(** *** Batches *)

Definition apply_batch recs (ls : list (journalLine V)) : gmap string (option V) := foldl apply_line recs ls.

(** Every record of a batch reads back. *)
Definition all_readable (ls : list (journalLine V)) : Prop := Forall (fun l => readable (l_key l) (l_val l)) ls.

Lemma number_spec q ls :
  0 <= q -> q + Z.of_nat (length ls) < 2 ^ 64 -> all_readable ls ->
  Forall line_ok (number q ls) /\
  Forall (fun l => q < l_seq l <= q + Z.of_nat (length ls)) (number q ls).
Proof.
  intros Hq Hlen Hv. revert q Hq Hlen. induction Hv as [|l ls Hl Hv IH]; intros q Hq Hlen; [by split|].
  cbn [number]. simpl length in *. rewrite u64_small by lia.
  destruct (IH (q + 1)) as [H1 H2]; [lia..|]. split; constructor; auto.
  - split; simpl; [done|lia].
  - simpl. lia.
  - eapply Forall_impl; [exact H2|]. intros x Hx. cbv beta in *. lia.
Qed.

Lemma number_take m q ls : take m (number q ls) = number q (take m ls).
Proof. revert m q. induction ls as [|l ls IH]; intros [|m] q; simpl; try done. by rewrite IH. Qed.

Lemma length_number q ls : length (number q ls) = length ls.
Proof. revert q. induction ls; intros q; simpl; auto. Qed.

Lemma apply_number h q recs ls :
  h <= q -> 0 <= q -> q + Z.of_nat (length ls) < 2 ^ 64 ->
  apply_after h recs (number q ls) = apply_batch recs ls.
Proof.
  unfold apply_after, apply_batch. revert q recs. induction ls as [|l ls IH]; intros q recs Hh Hq Hlen; [done|].
  cbn [number foldl]. simpl length in *. rewrite u64_small by lia. simpl l_seq.
  rewrite (proj2 (Z.leb_gt _ _)) by lia. rewrite IH by lia. done.
Qed.

Lemma apply_after_app h recs a b : apply_after h recs (a ++ b) = apply_after h (apply_after h recs a) b.
Proof. apply foldl_app. Qed.

Lemma syscall_files d : d_snap (syscall d).2 = d_snap d /\ d_log (syscall d).2 = d_log d.
Proof. unfold syscall. by destruct (d_faults d). Qed.

(** The state after a batch's lines reached the disk in full. *)
Lemma commit_appended j d recs ls' :
  Repr j d recs -> all_readable ls' -> j_seq j + Z.of_nat (length ls') < 2 ^ 64 ->
  let buf := batch_bytes (number (j_seq j) ls') in
  forall d' log lg p, d_snap d' = d_snap d -> log = default "" (d_log d) +:+ buf -> d_log d' = Some log ->
  Repr (MkJournal true (j_off j + String.length buf) (j_size j + String.length buf)
          (u64 (j_seq j + Z.of_nat (length ls'))) lg p) d' (apply_batch recs ls').
Proof.
  intros (head & recs0 & ls & Hsnap & Hh & Hq & Hlog & Hls & Hle & -> & Ho & Hoff & Hsize) Hv Hroom buf d' log lg p
    Hs' -> Hl'.
  destruct (number_spec (j_seq j) ls') as [Hn1 Hn2]; [lia..|done|].
  exists head, recs0, (ls ++ number (j_seq j) ls'). simpl. rewrite u64_small by lia.
  rewrite Hs', Hl', Hlog. simpl. rewrite batch_bytes_app, length_append, apply_after_app, apply_number by lia.
  split_and!; try done; try lia.
  - by apply Forall_app_2.
  - apply Forall_app_2; eapply Forall_impl; try eassumption; intros ? ?; cbv beta in *; lia.
  - unfold buf. lia.
Qed.

(** ... and in part. *)
Lemma commit_torn j d recs ls' w :
  Repr j d recs -> all_readable ls' -> j_seq j + Z.of_nat (length ls') < 2 ^ 64 ->
  exists m, (m <= length ls')%nat /\ forall d', d_snap d' = d_snap d ->
    d_log d' = Some (default "" (d_log d) +:+ take_bytes w (batch_bytes (number (j_seq j) ls'))) ->
    Holds d' (apply_batch recs (take m ls')).
Proof.
  intros (head & recs0 & ls & Hsnap & Hh & Hq & Hlog & Hls & Hle & -> & Ho & Hoff & Hsize) Hv Hroom.
  destruct (number_spec (j_seq j) ls') as [Hn1 Hn2]; [lia..|done|].
  destruct (take_batch w (number (j_seq j) ls')) as (m & t & -> & Ht & Hm). rewrite length_number in Hm.
  exists m. split; [done|]. intros d' Hs' Hl'.
  exists head, recs0, (ls ++ number (j_seq j) (take m ls')), t. rewrite Hs', Hl', Hlog. simpl.
  pose proof (length_take_le ls' m Hm). rewrite apply_after_app, apply_number by lia.
  rewrite number_take, batch_bytes_app, append_assoc. split_and!; try done; try lia.
  apply Forall_app_2; [done|]. rewrite <- number_take. by apply Forall_take.
Qed.

Lemma Repr_log j d recs :
  Repr j d recs -> exists file, d_log d = Some file /\ j_off j = String.length file /\ j_size j = String.length file.
Proof. intros (head & recs0 & ls & ? & ? & ? & ? & ? & ? & ? & ? & ? & ?). eexists. split_and!; eauto; congruence. Qed.

(** The log put back as it was. *)
Lemma commit_undone j d recs d' n :
  Repr j d recs -> d_snap d' = d_snap d -> d_log d' = d_log d -> n = j_size j ->
  Repr (MkJournal true n n (j_seq j) (j_logged j) []) d' recs.
Proof.
  intros (head & recs0 & ls & Hs & ? & ? & Hl & ? & ? & ? & ? & ? & ?) Hs' Hl' ->.
  exists head, recs0, ls. rewrite Hs', Hl'. simpl. split_and!; try done; lia.
Qed.

Lemma commit_spec j d recs :
  Repr j d recs -> all_readable (j_pending j) -> j_seq j + Z.of_nat (length (j_pending j)) < 2 ^ 64 ->
  let '(r, j', d') := commit j d in
  j_pending j' = [] /\
  match r with
  | None => Repr j' d' (apply_batch recs (j_pending j))
  | Some _ => Repr j' d' recs \/ exists m, (m <= length (j_pending j))%nat /\ Holds d' (apply_batch recs (take m (j_pending j)))
  end.
Proof.
  intros HR Hv Hroom. destruct (Repr_log _ _ _ HR) as (file & Hfile & Hoff & Hsize).
  pose proof HR as (_ & _ & _ & _ & _ & _ & _ & _ & _ & _ & Hopen & _).
  unfold commit. destruct (j_pending j) as [|l ls] eqn:Hp; [done|]. rewrite <- Hp in *. rewrite Hopen. simpl negb. cbv iota.
  pose proof (syscall_files d) as [Hs1 Hl1]. destruct (syscall d) as [o d1]. simpl in Hs1, Hl1.
  rewrite Hfile. simpl default. rewrite Hoff, write_at_end. destruct o as [|w].
  - split; [done|]. rewrite <- Hoff at 1. eapply commit_appended; eauto; simpl; rewrite ?Hfile; done.
  - destruct (commit_torn j d recs (j_pending j) w HR Hv Hroom) as (m & Hm & Htorn).
    rewrite write_at_end. rewrite Hfile in Htorn. simpl in Htorn.
    unfold attempt at 1. set (d2 := set_log d1 _).
    pose proof (syscall_files d2) as [Hs2 Hl2]. destruct (syscall d2) as [[|w2] d3]; simpl in Hs2, Hl2.
    2: { subst d2. simpl in *. split; [done|]. right. exists m. split; [done|]. apply Htorn; congruence. }
    rewrite Hsize, truncate_app. unfold attempt. set (d4 := set_log d3 _).
    pose proof (syscall_files d4) as [Hs4 Hl4]. destruct (syscall d4) as [[|w4] d5];
      subst d4 d2; simpl in *; (split; [done|]).
    + left. apply (commit_undone j d recs); [exact HR|congruence..].
    + right. exists 0%nat. split; [lia|]. rewrite take_0. simpl. apply (Repr_Holds (MkJournal true (j_size j) (j_size j) (j_seq j) (j_logged j) [])).
      apply (commit_undone j d recs); [exact HR|congruence..].
Qed.

(** *** Snapshots *)

Lemma read_lines_spec (kvs : list (string * V)) recs :
  Forall (fun kv => readable kv.1 (Some kv.2)) kvs ->
  read_lines (map (fun kv => enc_line (MkLine 0 kv.1 false (Some kv.2))) kvs ++ [""]) recs =
  Some (foldl (fun r kv => <[kv.1 := Some kv.2]> r) recs kvs).
Proof.
  intros Hv. revert recs. induction Hv as [|[k v] kvs Hk Hv IH]; intros recs; [done|].
  cbn [map app read_lines foldl].
  rewrite (proj2 (String.eqb_neq _ _)) by apply enc_line_nonempty.
  rewrite dec_enc_line by done. simpl. apply IH.
Qed.

Lemma foldl_insert_map (l : list (string * V)) :
  NoDup l.*1 -> foldl (fun r kv => <[kv.1 := Some kv.2]> r) (∅ : gmap string (option V)) l = Some <$> list_to_map l.
Proof.
  intros Hnd. rewrite (list_to_map_proper l (reverse l)) by (done || by rewrite reverse_Permutation).
  clear Hnd. rewrite <- (reverse_involutive l) at 1. generalize (reverse l). clear l. intros l.
  induction l as [|[k v] l IH]; [symmetry; apply (fmap_empty (M := gmap string))|].
  rewrite reverse_cons, foldl_app. simpl. by rewrite IH, (fmap_insert (M := gmap string)).
Qed.

Lemma readSnapshot_bytes q (recs : gmap string V) :
  map_Forall (fun k v => readable k (Some v)) recs ->
  readSnapshot (Some (snapshot_bytes q recs)) = Ok (MkHead journalVersion q, Some <$> recs).
Proof.
  intros Hv. unfold readSnapshot, snapshot_bytes.
  rewrite <- (append_nil_r (concat_lines _)), split_concat_lines; [|constructor; [apply enc_head_line|]|done].
  2: { induction (snapshot_keys recs); simpl; constructor; auto using enc_line_line. }
  cbn [app]. rewrite dec_enc_head. simpl.
  assert (snapshot_keys recs ≡ₚ map_to_list recs) as Hperm by apply SortFunc_perm.
  rewrite read_lines_spec.
  - rewrite foldl_insert_map by (rewrite Hperm; apply NoDup_fst_map_to_list).
    rewrite (list_to_map_proper _ (map_to_list recs)) by (done || rewrite Hperm; apply NoDup_fst_map_to_list).
    by rewrite list_to_map_to_list.
  - rewrite Hperm. apply Forall_forall. intros [k v] Hkv%elem_of_map_to_list. by apply (Hv k v).
Qed.

Lemma apply_after_old q recs ls : Forall (fun l => l_seq l <= q) ls -> apply_after q recs ls = recs.
Proof.
  unfold apply_after. intros H. revert recs. induction H as [|l ls Hl H IH]; intros recs; [done|]. simpl.
  rewrite (proj2 (Z.leb_le _ _)) by done. apply IH.
Qed.

Lemma compact_spec j d recs (snap : gmap string V) :
  Repr j d recs -> all_readable (j_pending j) -> j_seq j + Z.of_nat (length (j_pending j)) < 2 ^ 64 ->
  map_Forall (fun k v => readable k (Some v)) snap ->
  let '(r, j', d') := compact j d snap in
  match r with
  | None => Repr j' d' (Some <$> snap) /\ j_pending j' = []
  | Some _ => Holds d' (Some <$> snap) \/ exists m, Holds d' (apply_batch recs (take m (j_pending j)))
  end.
Proof.
  intros HR Hv Hroom Hsv. pose proof (commit_spec j d recs HR Hv Hroom) as Hc.
  pose proof HR as (_ & _ & _ & _ & _ & _ & _ & _ & _ & _ & Hopen & _).
  unfold compact. rewrite Hopen. simpl negb. cbv iota.
  destruct (commit j d) as [[[e|] j1] d1]; destruct Hc as [Hp Hc].
  { right. destruct Hc as [Hc|(m & _ & Hc)]; [|by exists m]. exists 0%nat. rewrite take_0. by eapply Repr_Holds. }
  pose proof (Repr_Holds _ _ _ Hc) as Hh.
  destruct Hc as (head & recs0 & ls & Hsnap & Hq & Hq' & Hlog & Hls & Hle & Hrecs & Ho & Hoff & Hsize).
  unfold attempt at 1. pose proof (syscall_files d1) as [Hs2 Hl2]. destruct (syscall d1) as [[|w] d2]; simpl in Hs2, Hl2.
  2: { right. exists (length (j_pending j)). rewrite firstn_all. unfold Holds in *. by rewrite Hs2, Hl2. }
  set (d3 := set_snap d2 _). unfold attempt at 1.
  pose proof (syscall_files d3) as [Hs4 Hl4]. destruct (syscall d3) as [[|w] d4]; simpl in Hs4, Hl4.
  2: { left. exists (MkHead journalVersion (j_seq j1)), (Some <$> snap), ls, "".
       rewrite Hs4, Hl4, Hl2, Hlog, append_nil_r, readSnapshot_bytes by done. simpl.
       rewrite apply_after_old by done. split_and!; try done; lia. }
  set (d5 := set_log d4 _). unfold attempt.
  pose proof (syscall_files d5) as [Hs6 Hl6]. destruct (syscall d5) as [[|w] d6]; simpl in Hs6, Hl6.
  - split; [|done]. exists (MkHead journalVersion (j_seq j1)), (Some <$> snap), [].
    rewrite Hs6, Hl6, Hs4, readSnapshot_bytes by done. simpl. split_and!; try done; lia.
  - left. exists (MkHead journalVersion (j_seq j1)), (Some <$> snap), [], "".
    rewrite Hs6, Hl6, Hs4, readSnapshot_bytes by done. simpl. split_and!; try done; lia.
Qed.

End journal.

(** ** A codec of countable values *)

Fixpoint bits (p : positive) : string :=
  match p with
  | xH => ""
  | xO p' => String "0"%char (bits p')
  | xI p' => String "1"%char (bits p')
  end.

Fixpoint unbits (s : string) : positive :=
  match s with
  | EmptyString => xH
  | String a s' => if ascii_eqb a "0"%char then xO (unbits s') else xI (unbits s')
  end.

Lemma unbits_bits p : unbits (bits p) = p.
Proof. induction p as [p IH|p IH|]; simpl; [by rewrite IH..|done]. Qed.

Lemma bits_line p : contains_byte (bits p) nl = false.
Proof. induction p as [p IH|p IH|]; simpl; done. Qed.

#[export] Program Instance countable_codec {V} `{Countable V} `{has_texts V} : journal_codec V := {
  enc_head h := bits (encode (h_version h, h_seq h));
  dec_head s := match decode (A := Z * Z) (unbits s) with Some (v, q) => Some (MkHead v q) | None => None end;
  enc_line l := "L" +:+ bits (encode (l_seq l, l_key l, l_del l, l_val l));
  dec_line s := match CutPrefix s "L" with
                | Some b => match decode (A := Z * string * bool * option V) (unbits b) with
                            | Some (q, k, d, v) => Some (MkLine q k d v)
                            | None => None
                            end
                | None => None
                end
}.
Next Obligation. intros V ??? [v q]. by rewrite unbits_bits, decode_encode. Qed.
Next Obligation.
  intros V ??? [q k d v] _. cbn [l_seq l_key l_del l_val].
  generalize (decode_encode (A := Z * string * bool * option V) (q, k, d, v)).
  generalize (encode (A := Z * string * bool * option V) (q, k, d, v)). intros p Hp.
  simpl. by rewrite CutPrefix_nil, unbits_bits, Hp.
Qed.
Next Obligation. intros V ??? h. apply bits_line. Qed.
Next Obligation. intros V ??? l. simpl. apply bits_line. Qed.
Next Obligation. done. Qed.

(** ** Durability *)

Section durability.
Context {V : Type} `{HT : has_texts V} `{C : !journal_codec V}.
Implicit Types (j : journal V) (d : disk) (recs : gmap string (option V)).

(** The disk as a process that starts now finds it. *)
Definition after_crash (d : disk) : disk := MkDisk (d_snap d) (d_log d) (d_aside d) [].

Lemma Holds_crash d recs : Holds d recs -> Holds (after_crash d) recs.
Proof. done. Qed.

Definition reopens d recs : Prop :=
  exists j' d', openJournal (after_crash d) = (Ok (j', recs), d') /\ Repr j' d' recs.

Lemma Holds_reopens d recs : Holds d recs -> reopens d recs.
Proof. intros H%Holds_crash. destruct (reopen _ _ H eq_refl) as (j' & d' & ? & ? & _). by exists j', d'. Qed.

(** What a journal committed is found by the next open: a successful commit
    leaves files that open to the records with the whole batch applied, and the
    open journal ready for the next batch. *)
Theorem commit_durable j d recs j' d' :
  Repr j d recs -> all_readable (j_pending j) -> j_seq j + Z.of_nat (length (j_pending j)) < 2 ^ 64 ->
  commit j d = (None, j', d') ->
  reopens d' (apply_batch recs (j_pending j)) /\ Repr j' d' (apply_batch recs (j_pending j)).
Proof.
  intros HR Hv Hroom Hc. pose proof (commit_spec j d recs HR Hv Hroom) as Hs. rewrite Hc in Hs.
  destruct Hs as [_ Hs]. split; [|done]. by eapply Holds_reopens, Repr_Holds.
Qed.

(** C28: a failed or torn commit loses nothing: whatever part of the batch
    reached the disk, and whether or not it could be cut off again, the next
    open finds every earlier record and the first lines of the batch, whose keys and
    texts are UTF-8. When it was cut off (the truncate and the seek succeed) it finds exactly the earlier
    records and the journal goes on. *)
Theorem commit_torn_safe j d recs e j' d' :
  Repr j d recs -> all_readable (j_pending j) -> j_seq j + Z.of_nat (length (j_pending j)) < 2 ^ 64 ->
  commit j d = (Some e, j', d') ->
  (exists m, (m <= length (j_pending j))%nat /\ reopens d' (apply_batch recs (take m (j_pending j)))) /\
  (forall w fs, d_faults d = Bad w :: Good :: Good :: fs -> Repr j' d' recs).
Proof.
  intros HR Hv Hroom Hc. pose proof (commit_spec j d recs HR Hv Hroom) as Hs. rewrite Hc in Hs.
  destruct Hs as [_ Hs]. split.
  - destruct Hs as [Hs|(m & Hm & Hs)]; [exists 0%nat; rewrite take_0; split; [lia|]|exists m; split; [done|]];
      eauto using Holds_reopens, Repr_Holds.
  - intros w fs Hf. destruct (Repr_log _ _ _ HR) as (file & Hfile & Hoff & Hsize).
    revert Hc. unfold commit, attempt, syscall. rewrite Hf, Hfile. simpl.
    destruct (j_pending j); [done|]. destruct (negb (j_log j)) eqn:Ho.
    { destruct HR as (? & ? & ? & ? & ? & ? & ? & ? & ? & ? & Hopen & ?). by rewrite Hopen in Ho. }
    intros [= <- <- <-]. rewrite Hsize, Hoff, write_at_end, truncate_app.
    apply (commit_undone j d recs); done.
Qed.

(** Compacting never loses the state: a successful compaction leaves files
    that open to exactly the snapshot's records; one that fails or is cut short
    at any step leaves files that open to the snapshot's records or to the
    journaled ones, never to a mix. *)
Theorem compact_crash_safe j d recs (snap : gmap string V) r j' d' :
  Repr j d recs -> all_readable (j_pending j) -> j_seq j + Z.of_nat (length (j_pending j)) < 2 ^ 64 ->
  map_Forall (fun k v => readable k (Some v)) snap ->
  compact j d snap = (r, j', d') ->
  match r with
  | None => reopens d' (Some <$> snap) /\ Repr j' d' (Some <$> snap)
  | Some _ => reopens d' (Some <$> snap) \/ exists m, reopens d' (apply_batch recs (take m (j_pending j)))
  end.
Proof.
  intros HR Hv Hroom Hsv Hc. pose proof (compact_spec j d recs snap HR Hv Hroom Hsv) as Hs. rewrite Hc in Hs.
  destruct r as [e|].
  - destruct Hs as [Hs|[m Hs]]; [left|right; exists m]; by apply Holds_reopens.
  - destruct Hs as [Hs _]. split; [|done]. by eapply Holds_reopens, Repr_Holds.
Qed.

End durability.
