(* ===== verification/Examples.v ===== *)
(** * Runs of the merges and of the journal

    Concrete inputs on which the hypotheses of the theorems about merging and
    journaling hold, evaluated. *)

From S2P Require Import Prelude GoStrings Sha256 Entry SyncPolicy Mergers Merge3 DocMerge Journal.
Local Open Scope string_scope.
Local Open Scope Z_scope.
Local Open Scope list_scope.

Definition nl1 (s : string) : string := s +:+ String nl "".

(** A file entry of a content. *)
Definition file_of (data : string) (mtime : Z) : Entry :=
  MkEntry File 420 (Z.of_nat (String.length data)) mtime (hashOf data) "" [].

Definition version_of (data : string) (mtime rev : Z) : Version :=
  MkVersion (file_of data mtime) rev "laptop" (Some (Ok data)).

Definition side_a : SideInfo := MkSideInfo "a" "loc-a" false.
Definition side_b : SideInfo := MkSideInfo "b" "loc-b" false.

(** ** Mirror *)

Lemma mirror_order_independent_witness :
  arrivals side_a "f" (file_of "x" 1) [file_of "y" 3; file_of "z" 2]
  = arrivals side_a "f" (file_of "z" 2) [file_of "x" 1; file_of "y" 3].
Proof.
  apply mirror_order_independent.
  - repeat constructor.
  - apply (bool_decide_unpack _). by vm_compute.
  - intros x y Hx Hy. rewrite !elem_of_cons, elem_of_nil in Hx, Hy.
    destruct Hx as [->|[->|[->|[]]]], Hy as [->|[->|[->|[]]]]; vm_compute; congruence.
Defined.

Definition concurrent (cur inc : Version) : MergeInput :=
  MkMergeInput ".claude" "f" side_a false 0 (Some cur) inc None.

(** ** Append-union *)

Definition log_a : string := nl1 "one" +:+ nl1 "two".
Definition log_b : string := nl1 "one" +:+ nl1 "three".

Lemma unionLines_converges_witness :
  unionLines (unionLines log_a log_b) log_b = unionLines log_a log_b /\
  unionLines log_a log_b = nl1 "one" +:+ nl1 "two" +:+ nl1 "three".
Proof. split; [apply (unionLines_converges log_a log_b); reflexivity|by vm_compute]. Defined.

Lemma AppendUnion_Merge_union_witness :
  exists r, AppendUnion_Merge (concurrent (version_of log_a 1 1) (version_of log_b 2 0)) = Ok r /\ conflict r = false /\
    outcome_content log_a log_b r = unionLines log_a log_b.
Proof.
  exact (AppendUnion_Merge_union (concurrent (version_of log_a 1 1) (version_of log_b 2 0)) (version_of log_a 1 1)
    eq_refl eq_refl eq_refl eq_refl).
Defined.

(** ** Three-way merges *)

Definition scalar (s : string) : value := VScalar s s s.
Definition obj (fs : list (string * value)) : value := VObject (map (fun kv => (kv.1, (kv.1, kv.2))) fs).

Definition doc_base : value := obj [("x", scalar "1"); ("y", scalar "1")].
Definition doc_cur : list (string * (string * value)) := [("x", ("x", scalar "2")); ("y", ("y", scalar "1"))].
Definition doc_inc : list (string * (string * value)) := [("x", ("x", scalar "1")); ("y", ("y", scalar "3"))].

Lemma merge3_objects_keywise_witness :
  exists out cs, merge3 true (Some doc_base) (Some (VObject doc_cur)) (Some (VObject doc_inc)) = Some (Some (VObject out), cs) /\
    get "x" out = Some (scalar "2") /\ get "y" out = Some (scalar "3").
Proof.
  destruct (merge3_objects_keywise true (Some doc_base) doc_cur doc_inc) as (out & cs & Hm & Hk);
    [by vm_compute|by vm_compute|by vm_compute|].
  exists out, cs. split; [exact Hm|]. split.
  - apply (proj1 (proj2 (proj2 (Hk "x")))). by vm_compute.
  - apply (proj1 (proj2 (Hk "y"))); by vm_compute.
Defined.

Lemma merge3_winner_only_at_conflicts_witness :
  merge3 true (Some doc_base) (Some (VObject doc_cur)) (Some (VObject doc_inc))
  = merge3 false (Some doc_base) (Some (VObject doc_cur)) (Some (VObject doc_inc)).
Proof.
  rewrite (merge3_winner_only_at_conflicts false (Some doc_base) (Some (VObject doc_cur)) (Some (VObject doc_inc))
    (Some (VObject [("x", ("x", scalar "2")); ("y", ("y", scalar "3"))]))) by (by vm_compute).
  by vm_compute.
Defined.

(** ** Documents *)

(** A format of one field: the text is its value. *)
#[local] Instance note_format : docFormat := {
  df_name := "note";
  df_parse s := if String.eqb s "" then Err "empty" else if String.eqb s "{}" then Ok newObject else Ok (obj [(s, scalar s)]);
  df_seed v := isEmptyObject (Some v);
  df_render m _ _ := Ok (match m with VObject fs => Join (keys_of fs) "," | _ => "" end)
}.

Lemma mergeDocument_three_way_witness :
  exists r, mergeDocument (concurrent (version_of "n" 1 1) (version_of "m" 2 0)) = Some (Ok r) /\
    decision r = Merged /\ m_content r = "n,m".
Proof.
  destruct (mergeDocument_three_way (F := note_format) (concurrent (version_of "n" 1 1) (version_of "m" 2 0)) (version_of "n" 1 1)
    "m" (obj [("m", scalar "m")]) "n" (obj [("n", scalar "n")]) None eq_refl eq_refl eq_refl eq_refl eq_refl eq_refl
    eq_refl eq_refl eq_refl eq_refl eq_refl) as (m & cs & r & Hm & Hr & _ & _ & Hd).
  exists r. split; [done|].
  assert (m = VObject [("n", ("n", scalar "n")); ("m", ("m", scalar "m"))]) as ->.
  { vm_compute in Hm. injection Hm as <- <-. done. }
  apply Hd; by vm_compute.
Defined.

(** ** The journal *)

Definition new_disk : disk := MkDisk None None [] [].

#[local] Instance string_texts : has_texts string := fun s => [s].

Definition j0 : journal string := MkJournal true 0 0 0 0 [].
Definition d0 : disk := MkDisk None (Some "") [] [].

Lemma new_journal_Repr (fs : list outcome) : Repr (V := string) j0 (MkDisk None (Some "") [] fs) ∅.
Proof. eexists _, _, []. split_and!; first done; simpl; try done; lia. Qed.

Definition j1 : journal string := put (put j0 "k" "v") "l" "w".

Lemma j1_keys : all_readable (j_pending j1).
Proof. do 2 (constructor; [split; [done|]; intros w [= <-]; by repeat constructor|]). constructor. Qed.

(** A new journal opens empty and takes a batch. *)
Example new_journal_opens : openJournal (V := string) new_disk = (Ok (j0, ∅), d0).
Proof. by vm_compute. Qed.

Lemma commit_durable_witness :
  reopens (commit j1 d0).2 (apply_batch (∅ : gmap string (option string)) (j_pending j1)).
Proof.
  apply (commit_durable j1 d0 ∅ (commit j1 d0).1.2 (commit j1 d0).2).
  - apply new_journal_Repr.
  - apply j1_keys.
  - simpl. lia.
  - by vm_compute.
Defined.

(** A disk that fails the write after seven bytes, and then works again. *)
Definition torn_disk : disk := MkDisk None (Some "") [] [Bad 7; Good; Good].

Lemma commit_torn_safe_witness :
  (exists m, (m <= 2)%nat /\
     reopens (commit j1 torn_disk).2 (apply_batch (∅ : gmap string (option string)) (take m (j_pending j1)))) /\
  Repr (commit j1 torn_disk).1.2 (commit j1 torn_disk).2 (∅ : gmap string (option string)).
Proof.
  enough ((exists m, (m <= 2)%nat /\
     reopens (commit j1 torn_disk).2 (apply_batch (∅ : gmap string (option string)) (take m (j_pending j1)))) /\
    (forall w fs, d_faults torn_disk = Bad w :: Good :: Good :: fs ->
       Repr (commit j1 torn_disk).1.2 (commit j1 torn_disk).2 (∅ : gmap string (option string)))) as [H1 H2].
  { split; [exact H1|exact (H2 7%nat [] eq_refl)]. }
  apply (commit_torn_safe j1 torn_disk ∅ ErrIO (commit j1 torn_disk).1.2 (commit j1 torn_disk).2).
  - apply new_journal_Repr.
  - apply j1_keys.
  - simpl. lia.
  - by vm_compute.
Defined.

Definition snap1 : gmap string string := {[ "k" := "v" ]}.

Lemma compact_crash_safe_witness :
  reopens (compact j1 d0 snap1).2 (Some <$> snap1) /\
  (reopens (compact j1 (MkDisk None (Some "") [] [Good; Good; Bad 0]) snap1).2 (Some <$> snap1) \/
   exists m, reopens (compact j1 (MkDisk None (Some "") [] [Good; Good; Bad 0]) snap1).2
     (apply_batch (∅ : gmap string (option string)) (take m (j_pending j1)))).
Proof.
  assert (map_Forall (fun k v => readable k (Some v)) snap1) as Hs by (apply map_Forall_singleton; split; [done|]; intros w [= <-]; by repeat constructor).
  split.
  - apply (compact_crash_safe j1 d0 ∅ snap1 None (compact j1 d0 snap1).1.2 (compact j1 d0 snap1).2).
    + apply new_journal_Repr.
    + apply j1_keys.
    + simpl. lia.
    + done.
    + by vm_compute.
  - set (d := MkDisk None (Some "") [] [Good; Good; Bad 0]).
    apply (compact_crash_safe j1 d ∅ snap1 (Some ErrIO) (compact j1 d snap1).1.2 (compact j1 d snap1).2).
    + apply new_journal_Repr.
    + apply j1_keys.
    + simpl. lia.
    + done.
    + by vm_compute.
Defined.
