(* ===== verification/HubState.v ===== *)
(** * The hub's state of one root (internal/sharesync/hub_root.go, hub_dispatch.go)

    The record of a root, the hub's view of each attached side, and the
    operations a root runs with its lock held. Each takes the clock's reading
    [now]; the reads of the clock within one locked operation are one instant.
    What a side's dispatcher is woken by (poke) and the log are left out. *)

From S2P Require Import Prelude GoStrings Sha256 Entry SyncPolicy Mergers Journal.
Local Open Scope string_scope.
Local Open Scope Z_scope.
Local Open Scope list_scope.

(** ** Keys and records *)

Record key := MkKey { k_loc : string; k_path : string }.

#[export] Instance key_eq_dec : EqDecision key.
Proof. solve_decision. Defined.
#[export] Program Instance key_countable : Countable key :=
  inj_countable' (fun k => (k_loc k, k_path k)) (fun p => MkKey p.1 p.2) _.
Next Obligation. by intros []. Qed.

Definition journalKey (k : key) : string := k_loc k +:+ String nul (k_path k).

Definition parseKey (s : string) : option key :=
  match cut_byte nul s with
  | Some (loc, p) => if validPath p then Some (MkKey loc p) else None
  | None => None
  end.

Record histRev := MkHist { hi_rev : Z; hi_hash : string }.

Record hubEntry := MkHub {
  he_entry : Entry;
  he_rev : Z;        (* uint64 *)
  he_origin : string;
  he_base : Z;
  he_at : Z;
  he_hist : list histRev
}.

Record hubMeta := MkMeta { me_epoch : string; me_rev : Z; me_forgot : Z }.

(** What the root's journal records. *)
Inductive hubRecord := RecMeta (m : hubMeta) | RecEntry (e : hubEntry).

(** The texts of a record: of an entry its hashes and link target, the side it came
    from and the hashes of its history; of the meta data the epoch. *)
#[export] Instance hubRecord_texts : has_texts hubRecord := fun r =>
  match r with
  | RecMeta m => [me_epoch m]
  | RecEntry e => entry_texts (he_entry e) ++ he_origin e :: map hi_hash (he_hist e)
  end.

(** ** A side in a root (hub_dispatch.go) *)

Record retry := MkRetry { rt_until : Z; rt_n : Z }.
Record refusal := MkRefusal { rf_rev : Z; rf_reason : string }.

(** A time of the clock; [None] is the zero time.Time. *)
Definition time : Type := option Z.

Record sideRoot := MkSide {
  sr_info : SideInfo;
  sr_held : gmap string Z;
  sr_dirty : gmap string Z;
  sr_inflight : gmap string Z;
  sr_reports : gmap string Z;
  sr_backoff : gmap string retry;
  sr_blocked : gmap string refusal;
  sr_paused : string;
  sr_retryAt : time;
  sr_lastErr : string;
  sr_only : option (string -> bool)
}.

Definition newSideRoot (s : SideInfo) : sideRoot := MkSide s ∅ ∅ ∅ ∅ ∅ ∅ "" None "" None.

Definition set_held (sr : sideRoot) (h : gmap string Z) : sideRoot :=
  MkSide (sr_info sr) h (sr_dirty sr) (sr_inflight sr) (sr_reports sr) (sr_backoff sr) (sr_blocked sr)
    (sr_paused sr) (sr_retryAt sr) (sr_lastErr sr) (sr_only sr).
Definition set_dirty (sr : sideRoot) (d : gmap string Z) : sideRoot :=
  MkSide (sr_info sr) (sr_held sr) d (sr_inflight sr) (sr_reports sr) (sr_backoff sr) (sr_blocked sr)
    (sr_paused sr) (sr_retryAt sr) (sr_lastErr sr) (sr_only sr).
Definition set_inflight (sr : sideRoot) (i : gmap string Z) : sideRoot :=
  MkSide (sr_info sr) (sr_held sr) (sr_dirty sr) i (sr_reports sr) (sr_backoff sr) (sr_blocked sr)
    (sr_paused sr) (sr_retryAt sr) (sr_lastErr sr) (sr_only sr).
Definition set_reports (sr : sideRoot) (r : gmap string Z) : sideRoot :=
  MkSide (sr_info sr) (sr_held sr) (sr_dirty sr) (sr_inflight sr) r (sr_backoff sr) (sr_blocked sr)
    (sr_paused sr) (sr_retryAt sr) (sr_lastErr sr) (sr_only sr).
Definition set_backoff (sr : sideRoot) (b : gmap string retry) : sideRoot :=
  MkSide (sr_info sr) (sr_held sr) (sr_dirty sr) (sr_inflight sr) (sr_reports sr) b (sr_blocked sr)
    (sr_paused sr) (sr_retryAt sr) (sr_lastErr sr) (sr_only sr).
Definition set_blocked (sr : sideRoot) (b : gmap string refusal) : sideRoot :=
  MkSide (sr_info sr) (sr_held sr) (sr_dirty sr) (sr_inflight sr) (sr_reports sr) (sr_backoff sr) b
    (sr_paused sr) (sr_retryAt sr) (sr_lastErr sr) (sr_only sr).
Definition set_pause (sr : sideRoot) (why : string) (at_ : time) : sideRoot :=
  MkSide (sr_info sr) (sr_held sr) (sr_dirty sr) (sr_inflight sr) (sr_reports sr) (sr_backoff sr)
    (sr_blocked sr) why at_ (sr_lastErr sr) (sr_only sr).
Definition set_lastErr (sr : sideRoot) (e : string) : sideRoot :=
  MkSide (sr_info sr) (sr_held sr) (sr_dirty sr) (sr_inflight sr) (sr_reports sr) (sr_backoff sr)
    (sr_blocked sr) (sr_paused sr) (sr_retryAt sr) e (sr_only sr).
Definition set_only (sr : sideRoot) (o : option (string -> bool)) : sideRoot :=
  MkSide (sr_info sr) (sr_held sr) (sr_dirty sr) (sr_inflight sr) (sr_reports sr) (sr_backoff sr)
    (sr_blocked sr) (sr_paused sr) (sr_retryAt sr) (sr_lastErr sr) o.

Definition keeps (sr : sideRoot) (p : string) : bool :=
  match sr_only sr with None => true | Some f => f p end.

(** A key first seen keeps the time it was seen at. *)
Definition mark_since (p : string) (now : Z) (d : gmap string Z) : gmap string Z :=
  match d !! p with Some _ => d | None => <[p := now]> d end.

Definition mark (sr : sideRoot) (p : string) (now : Z) : sideRoot :=
  if negb (keeps sr p) then sr else set_dirty sr (mark_since p now (sr_dirty sr)).

Definition second : Z := 1000000000.

(** later: the backoff doubles from [base] to 30s. *)
Definition later (sr : sideRoot) (p : string) (now base : Z) : sideRoot :=
  let r := default (MkRetry 0 0) (sr_backoff sr !! p) in
  let n := rt_n r + 1 in
  let d := wrap64 (Z.shiftl base (Z.min (n - 1) 10)) in
  let sr := set_backoff sr (<[p := MkRetry (now + Z.min d (30 * second)) n]> (sr_backoff sr)) in
  set_dirty sr (mark_since p now (sr_dirty sr)).

(** ** A root *)

Record hubConf := MkConf {
  cf_table : Table;
  cf_policies : Policy -> option Merger;
  cf_NormalDelay : Z;
  cf_BulkDelay : Z;
  cf_PauseRetry : Z;
  cf_TombstoneTTL : Z;
  cf_MaxConflicts : nat;
  cf_MaxBatch : nat
}.

(** A blob: its content, and when it was written. *)
Record blob := MkBlob { bl_data : string; bl_time : Z }.

Record hubRoot := MkHubRoot {
  hr_name : string;
  hr_cap : Z;
  hr_epoch : string;
  hr_rev : Z;                           (* uint64 *)
  hr_forgot : Z;
  hr_entries : gmap key hubEntry;
  hr_children : gmap string Z;
  hr_total : Z;                         (* int64 *)
  hr_holds : gset (string * string);    (* side and path *)
  hr_sides : gmap string sideRoot;
  hr_journal : journal hubRecord;
  hr_disk : disk;                       (* the journal's files *)
  hr_blobs : gmap string blob;
  hr_broken : option journal_error;
  hr_writer : string
}.

Definition set_tree (r : hubRoot) (es : gmap key hubEntry) (ch : gmap string Z) (tot : Z) : hubRoot :=
  MkHubRoot (hr_name r) (hr_cap r) (hr_epoch r) (hr_rev r) (hr_forgot r) es ch tot (hr_holds r) (hr_sides r)
    (hr_journal r) (hr_disk r) (hr_blobs r) (hr_broken r) (hr_writer r).
Definition set_rev (r : hubRoot) (rev : Z) : hubRoot :=
  MkHubRoot (hr_name r) (hr_cap r) (hr_epoch r) rev (hr_forgot r) (hr_entries r) (hr_children r) (hr_total r)
    (hr_holds r) (hr_sides r) (hr_journal r) (hr_disk r) (hr_blobs r) (hr_broken r) (hr_writer r).
Definition set_forgot (r : hubRoot) (f : Z) : hubRoot :=
  MkHubRoot (hr_name r) (hr_cap r) (hr_epoch r) (hr_rev r) f (hr_entries r) (hr_children r) (hr_total r)
    (hr_holds r) (hr_sides r) (hr_journal r) (hr_disk r) (hr_blobs r) (hr_broken r) (hr_writer r).
Definition set_holds (r : hubRoot) (h : gset (string * string)) : hubRoot :=
  MkHubRoot (hr_name r) (hr_cap r) (hr_epoch r) (hr_rev r) (hr_forgot r) (hr_entries r) (hr_children r)
    (hr_total r) h (hr_sides r) (hr_journal r) (hr_disk r) (hr_blobs r) (hr_broken r) (hr_writer r).
Definition set_sides (r : hubRoot) (s : gmap string sideRoot) : hubRoot :=
  MkHubRoot (hr_name r) (hr_cap r) (hr_epoch r) (hr_rev r) (hr_forgot r) (hr_entries r) (hr_children r)
    (hr_total r) (hr_holds r) s (hr_journal r) (hr_disk r) (hr_blobs r) (hr_broken r) (hr_writer r).
Definition set_journal (r : hubRoot) (j : journal hubRecord) (d : disk) : hubRoot :=
  MkHubRoot (hr_name r) (hr_cap r) (hr_epoch r) (hr_rev r) (hr_forgot r) (hr_entries r) (hr_children r)
    (hr_total r) (hr_holds r) (hr_sides r) j d (hr_blobs r) (hr_broken r) (hr_writer r).
Definition set_blobs (r : hubRoot) (b : gmap string blob) : hubRoot :=
  MkHubRoot (hr_name r) (hr_cap r) (hr_epoch r) (hr_rev r) (hr_forgot r) (hr_entries r) (hr_children r)
    (hr_total r) (hr_holds r) (hr_sides r) (hr_journal r) (hr_disk r) b (hr_broken r) (hr_writer r).

Definition set_broken (r : hubRoot) (b : option journal_error) : hubRoot :=
  MkHubRoot (hr_name r) (hr_cap r) (hr_epoch r) (hr_rev r) (hr_forgot r) (hr_entries r) (hr_children r)
    (hr_total r) (hr_holds r) (hr_sides r) (hr_journal r) (hr_disk r) (hr_blobs r) b (hr_writer r).

(** One side's record changed, when the side is there. *)
Definition on_side (r : hubRoot) (id : string) (f : sideRoot -> sideRoot) : hubRoot :=
  set_sides r (alter f id (hr_sides r)).

Section root.
Context (cfg : hubConf) `{C : !journal_codec hubRecord}.

Definition merger (root : hubRoot) (p : string) : option Merger :=
  match Table_PolicyFor (cf_table cfg) (path_Join (hr_name root) p) with
  | None | Some LocationLocal => None
  | Some policy => cf_policies cfg policy
  end.

Definition locationScoped (root : hubRoot) (p : string) : bool :=
  match merger root p with
  | Some m => bool_decide (m_scope m = ScopeLocation)
  | None => false
  end.

Definition keyFor (root : hubRoot) (p loc : string) : option (key * Merger) :=
  match merger root p with
  | None => None
  | Some m =>
      if bool_decide (m_scope m = ScopeLocation) then Some (MkKey loc p, m) else Some (MkKey "" p, m)
  end.

(** ** The tallies *)

Definition child_out (parent : string) (ch : gmap string Z) : gmap string Z :=
  let n := default 0 (ch !! parent) - 1 in
  if n <=? 0 then delete parent ch else <[parent := n]> ch.

Definition child_in (parent : string) (ch : gmap string Z) : gmap string Z :=
  <[parent := default 0 (ch !! parent) + 1]> ch.

Definition live_hub (e : option hubEntry) : bool :=
  match e with Some e => Live (he_entry e) | None => false end.

Definition size_of (e : option hubEntry) : Z :=
  match e with Some e => esize (he_entry e) | None => 0 end.

Definition count (ch : gmap string Z) (total : Z) (old e : option hubEntry) (k : key)
    : gmap string Z * Z :=
  let parent := path_Dir (k_path k) in
  let '(ch, total) := if live_hub old then (child_out parent ch, wrap64 (total - size_of old)) else (ch, total) in
  if live_hub e then (child_in parent ch, wrap64 (total + size_of e)) else (ch, total).

Definition liveSize (e : option hubEntry) : Z := if live_hub e then size_of e else 0.

Definition overCap (root : hubRoot) (size : Z) (cur : option hubEntry) : bool :=
  let delta := wrap64 (size - liveSize cur) in
  (0 <? hr_cap root) && (0 <? delta) && (hr_cap root <? wrap64 (hr_total root + delta)).

(** ** The journal and compaction *)

Definition putMeta (root : hubRoot) : option journal_error * hubRoot :=
  let j := put (hr_journal root) metaKey (RecMeta (MkMeta (hr_epoch root) (hr_rev root) (hr_forgot root))) in
  let '(err, j, d) := commit j (hr_disk root) in
  (err, set_journal root j d).

Definition anyHolds (root : hubRoot) (p : string) : bool :=
  existsb (fun s => match sr_held s.2 !! p with Some _ => true | None => false end)
    (map_to_list (hr_sides root)).

Definition blobs_gc (blobs : gmap string blob) (keep : gset string) (before : Z) : gmap string blob :=
  filter (fun hb => hb.1 ∈ keep \/ before <= bl_time hb.2) blobs.

(** The blobs a state names. *)
Definition names_of (e : hubEntry) : list string :=
  (if String.eqb (he_origin e) "" && bool_decide (ekind (he_entry e) = File) then [ehash (he_entry e)] else [])
    ++ map hi_hash (he_hist e).

Definition forgettable (root : hubRoot) (cutoff : Z) (k : key) (e : hubEntry) : bool :=
  negb (Live (he_entry e)) && (he_at e <? cutoff) && negb (anyHolds root (k_path k)).

Definition hour : Z := 3600 * second.

Definition root_compact (now : Z) (root : hubRoot) : option journal_error * hubRoot :=
  let cutoff := now - cf_TombstoneTTL cfg in
  let gone := map_to_list (filter (fun ke => forgettable root cutoff ke.1 ke.2 = true) (hr_entries root)) in
  let kept := filter (fun ke => forgettable root cutoff ke.1 ke.2 = false) (hr_entries root) in
  let j := foldl (fun j ke => del j (journalKey ke.1)) (hr_journal root) gone in
  let forgot := foldl (fun f ke => Z.max f (he_rev ke.2)) (hr_forgot root) gone in
  let root := set_forgot (set_tree root kept (hr_children root) (hr_total root)) forgot in
  let recs : gmap string hubRecord :=
    <[metaKey := RecMeta (MkMeta (hr_epoch root) (hr_rev root) forgot)]>
      (list_to_map (map (fun ke => (journalKey ke.1, RecEntry ke.2)) (map_to_list kept))) in
  let keep : gset string := list_to_set (map_to_list kept ≫= fun ke => names_of ke.2) in
  let '(err, j, d) := compact j (hr_disk root) recs in
  let root := set_journal root j d in
  match err with
  | Some e => (Some e, root)
  | None => (None, set_blobs root (blobs_gc (hr_blobs root) keep (now - hour)))
  end.

(** ** Setting a state *)

Definition for_side (k : key) (except id : string) (sr : sideRoot) : bool :=
  negb (String.eqb id except
        || negb (String.eqb (k_loc k) "") && negb (String.eqb (location (sr_info sr)) (k_loc k))).

Definition markDirty (now : Z) (root : hubRoot) (k : key) (except : string) : hubRoot :=
  set_sides root (map_imap (fun id sr =>
    Some (if for_side k except id sr then mark sr (k_path k) now else sr)) (hr_sides root)).

(** The journaled state put in place, and its sides marked. *)
Definition landed (now : Z) (root : hubRoot) (k : key) (ne : hubEntry) (except : string) : hubRoot :=
  let '(ch, total) := count (hr_children root) (hr_total root) (hr_entries root !! k) (Some ne) k in
  markDirty now (set_tree root (<[k := ne]> (hr_entries root)) ch total) k except.

Definition setEntry (now : Z) (root : hubRoot) (k : key) (e : Entry) (origin : string) (base : Z)
    (hist : list histRev) (except : string) : result journal_error hubEntry * hubRoot :=
  let root := set_rev root (u64 (hr_rev root + 1)) in
  let ne := MkHub e (hr_rev root) origin base now hist in
  let '(err, j, d) := commit (put (hr_journal root) (journalKey k) (RecEntry ne)) (hr_disk root) in
  let root := set_journal root j d in
  match err with
  | Some err => (Err err, set_rev root (u64 (hr_rev root - 1)))
  | None =>
      let root := landed now root k ne except in
      let root := if due (hr_journal root) (size (hr_entries root)) then (root_compact now root).2 else root in
      (Ok ne, root)
  end.

End root.
