(* ===== verification/HubCommit.v ===== *)
(** * Planning and committing a change (internal/sharesync/hub_root.go)

    A reported change is planned with the root's lock held ([prepare]), decided
    without it, and committed with it again ([commitPlan]) unless the path or
    the tree's shape around it changed in between. *)

From S2P Require Import Prelude GoStrings Sha256 Entry SyncPolicy Mergers Journal HubState.
Local Open Scope string_scope.
Local Open Scope Z_scope.
Local Open Scope list_scope.

(** ** The tree's shape *)

Record shapeCheck := MkShape {
  sh_keep : bool;
  sh_conflict : bool;
  sh_reason : string;
  sh_resurrect : list string;
  sh_modes : list Z
}.

Definition shape_equal (s o : shapeCheck) : bool :=
  Bool.eqb (sh_keep s) (sh_keep o) && Bool.eqb (sh_conflict s) (sh_conflict o)
  && String.eqb (Join (sh_resurrect s) (String nul "")) (Join (sh_resurrect o) (String nul "")).

Definition refuse (reason : string) : shapeCheck := MkShape true true reason [] [].

(** checkShape's loop over the folders above a change. *)
Fixpoint shape_walk (es : gmap key hubEntry) (dirs : list string) (s : shapeCheck) : shapeCheck :=
  match dirs with
  | [] => s
  | a :: rest =>
      let e := es !! MkKey "" a in
      if negb (live_hub e) then
        let mode := match e with
                    | Some e => if negb (emode (he_entry e) =? 0) then emode (he_entry e) else 493
                    | None => 493
                    end in
        shape_walk es rest
          (MkShape (sh_keep s) (sh_conflict s) (sh_reason s) (sh_resurrect s ++ [a]) (sh_modes s ++ [mode]))
      else match e with
           | Some e =>
               if negb (bool_decide (ekind (he_entry e) = Dir))
               then refuse (a +:+ " is a " +:+ Kind_String (ekind (he_entry e)) +:+ " now")
               else shape_walk es rest s
           | None => shape_walk es rest s
           end
  end.

Definition checkShape (root : hubRoot) (c : Change) (cur : option hubEntry) : shapeCheck :=
  let children := default 0 (hr_children root !! c_path c) in
  let s := MkShape false false "" [] [] in
  if negb (Live (c_entry c)) then
    match cur with
    | Some e =>
        if bool_decide (ekind (he_entry e) = Dir) && (0 <? children)
        then MkShape true false "the folder holds content the delete had not seen" [] []
        else s
    | None => s
    end
  else if negb (bool_decide (ekind (c_entry c) = Dir)) && (0 <? children)
  then refuse "a folder with content stands there"
  else shape_walk (hr_entries root) (ancestors (c_path c)) s.

(** ** Planning *)

Record plan := MkPlan {
  pl_key : key;
  pl_merger : Merger;
  pl_side : SideInfo;
  pl_change : Change;
  pl_base : Z;
  pl_cur : option hubEntry;
  pl_fast : bool;
  pl_shape : shapeCheck
}.

Definition answer (c : Change) (s : AckStatus) (rev : Z) : Ack := MkAck (c_path c) rev s (c_entry c).

(** held: the side holds cur's state. *)
Definition held_at (sr : sideRoot) (p : string) (cur : hubEntry) : sideRoot :=
  if Live (he_entry cur) then set_held sr (<[p := he_rev cur]> (sr_held sr))
  else set_held sr (delete p (sr_held sr)).

(** A refused change: the side holds content the hub does not, or nothing. *)
Definition refused_at (now : Z) (c : Change) (sr : sideRoot) : sideRoot :=
  let sr := if Live (c_entry c) then set_held sr (<[c_path c := 0]> (sr_held sr))
            else set_held sr (delete (c_path c) (sr_held sr)) in
  mark sr (c_path c) now.

Definition fast_forward (root : hubRoot) (side : SideInfo) (base : Z) (cur : option hubEntry) : bool :=
  match cur with
  | None => true
  | Some e => (base =? he_rev e)
              || String.eqb (he_origin e) (side_id side) && (base =? he_base e)
              || String.eqb (hr_writer root) (side_id side)
  end.

(** The side has spoken for the path: its backoff ends and its report counts. *)
Definition spoken (p : string) (sr : sideRoot) : sideRoot :=
  let sr := set_backoff sr (delete p (sr_backoff sr)) in
  set_reports sr (<[p := u64 (default 0 (sr_reports sr !! p) + 1)]> (sr_reports sr)).

Definition prepare (now : Z) (root : hubRoot) (k : key) (m : Merger) (side : SideInfo) (c : Change) (base : Z)
    : (plan + Ack) * hubRoot :=
  match hr_broken root with
  | Some _ => (inr (answer c Deferred 0), root)
  | None =>
      let id := side_id side in
      let root := on_side root id (spoken (c_path c)) in
      let hk := (id, c_path c) in
      let root := set_holds root (hr_holds root ∖ {[hk]}) in
      let cur := hr_entries root !! k in
      match cur with
      | Some e =>
          if Same (he_entry e) (c_entry c) then
            (inr (answer c Accepted (he_rev e)), on_side root id (fun sr => held_at sr (c_path c) e))
          else if negb (String.eqb (hr_writer root) "") && negb (String.eqb id (hr_writer root)) then
            (inr (answer c Superseded 0), on_side root id (refused_at now c))
          else if bool_decide (ekind (c_entry c) = File) && overCap root (esize (c_entry c)) cur then
            (inr (answer c Deferred 0), set_holds root ({[hk]} ∪ hr_holds root))
          else
            (inl (MkPlan k m side c base cur (fast_forward root side base cur) (checkShape root c cur)), root)
      | None =>
          if negb (Live (c_entry c)) then (inr (answer c Accepted 0), root)
          else if negb (String.eqb (hr_writer root) "") && negb (String.eqb id (hr_writer root)) then
            (inr (answer c Superseded 0), on_side root id (refused_at now c))
          else if bool_decide (ekind (c_entry c) = File) && overCap root (esize (c_entry c)) None then
            (inr (answer c Deferred 0), set_holds root ({[hk]} ∪ hr_holds root))
          else
            (inl (MkPlan k m side c base None (fast_forward root side base None) (checkShape root c None)), root)
      end
  end.

(** What decide prepared for the commit. *)
Record planExtra := MkExtra { px_conflict : string; px_merged : Entry; px_hist : string }.

(** ** Committing *)

Section commit.
Context (cfg : hubConf) `{C : !journal_codec hubRecord}.

(** unvouch: the rev of the state becomes its base too. *)
Definition unvouch (root : hubRoot) (k : key) (e : hubEntry) (side : string) : hubRoot :=
  if negb (String.eqb (he_origin e) side) || (he_base e =? he_rev e) then root
  else
    let e := MkHub (he_entry e) (he_rev e) (he_origin e) (he_rev e) (he_at e) (he_hist e) in
    let root := set_tree root (<[k := e]> (hr_entries root)) (hr_children root) (hr_total root) in
    let '(_, j, d) := Journal.commit (put (hr_journal root) (journalKey k) (RecEntry e)) (hr_disk root) in
    set_journal root j d.

Definition names (root : hubRoot) (hash : string) : bool :=
  existsb (fun ke => bool_decide (hash ∈ names_of ke.2)) (map_to_list (hr_entries root)).

(** blobStore.remove. *)
Definition blobs_remove (blobs : gmap string blob) (hash : string) : gmap string blob :=
  if validHash hash then delete hash blobs else blobs.

Definition forget (root : hubRoot) (before kept : list histRev) : hubRoot :=
  set_blobs root (foldl (fun blobs hr =>
    if bool_decide (hi_hash hr ∈ map hi_hash kept) || names root (hi_hash hr) then blobs
    else blobs_remove blobs (hi_hash hr)) (hr_blobs root) before).

(** resurrect's loop: the folders with their modes. *)
Fixpoint resurrect_dirs (now : Z) (root : hubRoot) (side : string) (dirs : list (string * Z))
    : option journal_error * hubRoot :=
  match dirs with
  | [] => (None, root)
  | (a, mode) :: rest =>
      match setEntry cfg now root (MkKey "" a) (entry_of Dir (fileMode Dir mode)) side 0 [] "" with
      | (Err e, root) => (Some e, root)
      | (Ok _, root) => resurrect_dirs now root side rest
      end
  end.

Definition resurrect (now : Z) (root : hubRoot) (p : plan) : option journal_error * hubRoot :=
  resurrect_dirs now root (side_id (pl_side p)) (zip (sh_resurrect (pl_shape p)) (sh_modes (pl_shape p))).

(** The path did not change since it was planned: the same rev, or still none. *)
Definition unchanged (now cur : option hubEntry) : bool :=
  match now, cur with
  | None, None => true
  | Some n, Some c => he_rev n =? he_rev c
  | _, _ => false
  end.

(** commitPlan; no answer means retry. *)
Definition commitPlan (now : Z) (root : hubRoot) (p : plan) (res : MergeResult) (extra : planExtra)
    : option Ack * hubRoot :=
  let c := pl_change p in
  let id := side_id (pl_side p) in
  match hr_broken root with
  | Some _ => (Some (answer c Deferred 0), root)
  | None =>
      let cur := hr_entries root !! pl_key p in
      let merged := bool_decide (decision res = Merged) in
      if negb (unchanged cur (pl_cur p)) then (None, root)
      else if negb (shape_equal (checkShape root c cur) (pl_shape p)) then (None, root)
      else
        let sz := if merged then esize (px_merged extra) else esize (c_entry c) in
        if negb (bool_decide (decision res = Keep)) && (bool_decide (ekind (c_entry c) = File) || merged)
           && overCap root sz cur
        then (Some (answer c Deferred 0), set_holds root ({[ (id, c_path c) ]} ∪ hr_holds root))
        else if bool_decide (decision res = Keep) then
          let root := on_side root id (refused_at now c) in
          match cur with
          | None => (Some (answer c Superseded 0), root)
          | Some e =>
              if pl_fast p then (Some (answer c Superseded 0), unvouch root (pl_key p) e id)
              else (Some (answer c Superseded (he_rev e)), root)
          end
        else
          match resurrect now root p with
          | (Some _, root) => (Some (answer c Deferred 0), root)
          | (None, root) =>
              let '(entry, origin, except) := if merged then (px_merged extra, "", "") else (c_entry c, id, id) in
              let before := match cur with Some e => he_hist e | None => [] end in
              let hist :=
                if negb (String.eqb (px_hist extra) "") then
                  let h := before ++ [MkHist (u64 (hr_rev root + 1)) (px_hist extra)] in
                  drop (length h - m_history (pl_merger p)) h
                else before in
              let hist := if Live entry then hist else [] in
              match setEntry cfg now root (pl_key p) entry origin (c_base c) hist except with
              | (Err _, root) => (Some (answer c Deferred 0), root)
              | (Ok ne, root) =>
                  let root := if bool_decide (m_scope (pl_merger p) = ScopeLocation)
                              then forget root before hist else root in
                  if merged then
                    (Some (answer c Superseded (he_rev ne)),
                     on_side root id (fun sr => set_held sr (<[c_path c := 0]> (sr_held sr))))
                  else
                    (Some (answer c Accepted (he_rev ne)), on_side root id (fun sr => held_at sr (c_path c) ne))
              end
          end
  end.

End commit.
