(* ===== verification/HubInvariants.v ===== *)
(** * The tree a root keeps (internal/sharesync/hub_root.go)

    Every operation of a root keeps its entries a tree (each live entry in a
    live folder), its folder and size tallies equal to what the entries say,
    and its revs unique. *)

From S2P Require Import Prelude GoStrings Sha256 Entry Paths SyncPolicy Mergers Journal HubState HubCommit.
Local Open Scope string_scope.
Local Open Scope Z_scope.
Local Open Scope list_scope.

(** ** The invariant *)

Definition parent (k : key) : string := path_Dir (k_path k).

Definition dir_at (es : gmap key hubEntry) (a : string) : Prop :=
  exists d, es !! MkKey "" a = Some d /\ ekind (he_entry d) = Dir.

(** What an entry adds to the tally of folder [p], and to the root's size. *)
Definition child_of (p : string) (k : key) (e : hubEntry) : Z :=
  if Live (he_entry e) && String.eqb (parent k) p then 1 else 0.
Definition bytes_at (_ : key) (e : hubEntry) : Z := liveSize (Some e).

Record TreeInv (es : gmap key hubEntry) (ch : gmap string Z) (total : Z) : Prop := {
  inv_valid k e : es !! k = Some e -> validPath (k_path k) = true /\ check (he_entry e) = None;
  inv_tree k e : es !! k = Some e -> Live (he_entry e) = true -> parent k = "." \/ dir_at es (parent k);
  inv_children p : default 0 (ch !! p) = map_sum (child_of p) es;
  inv_total : total = wrap64 (map_sum bytes_at es)
}.

Definition Inv (root : hubRoot) : Prop := TreeInv (hr_entries root) (hr_children root) (hr_total root).

(** ** Counting *)

Lemma child_of_nonneg p k e : 0 <= child_of p k e.
Proof. unfold child_of. case_match; lia. Qed.

Lemma child_of_at p k (e : option hubEntry) :
  at_key (child_of p) k e = if live_hub e && String.eqb (parent k) p then 1 else 0.
Proof. by destruct e. Qed.

Lemma bytes_at_key k (e : option hubEntry) : at_key bytes_at k e = liveSize e.
Proof. by destruct e. Qed.

Lemma child_out_spec parent ch p :
  1 <= default 0 (ch !! parent) ->
  default 0 (child_out parent ch !! p) = default 0 (ch !! p) - (if String.eqb parent p then 1 else 0).
Proof.
  intros Hn. unfold child_out. case_match eqn:E; bool_hyps; destruct (String.eqb_spec parent p) as [->|Hp].
  - rewrite lookup_delete_eq. simpl. lia.
  - rewrite lookup_delete_ne by done. lia.
  - rewrite lookup_insert_eq. simpl. lia.
  - rewrite lookup_insert_ne by done. lia.
Qed.

Lemma child_in_spec parent ch p :
  default 0 (child_in parent ch !! p) = default 0 (ch !! p) + (if String.eqb parent p then 1 else 0).
Proof.
  unfold child_in. destruct (String.eqb_spec parent p) as [->|Hp].
  - by rewrite lookup_insert_eq.
  - rewrite lookup_insert_ne by done. lia.
Qed.

Lemma count_children ch total old e k p :
  (live_hub old = true -> 1 <= default 0 (ch !! parent k)) ->
  default 0 ((count ch total old e k).1 !! p) =
  default 0 (ch !! p) - at_key (child_of p) k old + at_key (child_of p) k e.
Proof.
  intros Hold. rewrite !child_of_at. unfold count. fold (parent k).
  destruct (live_hub old) eqn:Ho, (live_hub e); simpl; rewrite ?child_in_spec, ?child_out_spec by auto; lia.
Qed.

Lemma count_total ch total old e k :
  wrap64 total = total ->
  (count ch total old e k).2 = wrap64 (total - liveSize old + liveSize e).
Proof.
  intros Ht. unfold count, liveSize. destruct (live_hub old), (live_hub e); simpl;
    rewrite ?wrap64_add_l, ?Z.sub_0_r, ?Z.add_0_r; congruence.
Qed.

Lemma wrap64_idem z : wrap64 (wrap64 z) = wrap64 z.
Proof. apply wrap64_small, wrap64_range. Qed.

(** ** Setting one entry *)

(** A live entry below a path makes the path's tally positive. *)
Lemma no_children es ch total p :
  TreeInv es ch total -> default 0 (ch !! p) <= 0 ->
  forall k e, es !! k = Some e -> Live (he_entry e) = true -> parent k <> p.
Proof.
  intros HI Hz k e Hk Hl Hp. rewrite (inv_children _ _ _ HI) in Hz.
  assert (0 <= map_sum (child_of p) es) by (apply map_sum_nonneg; intros; apply child_of_nonneg).
  assert (child_of p k e = 0) as H0.
  { eapply map_sum_zero_inv; [intros; apply child_of_nonneg| |done]. lia. }
  unfold child_of in H0. by rewrite Hl, Hp, String.eqb_refl in H0.
Qed.

Lemma TreeInv_set es ch total k e :
  TreeInv es ch total ->
  validPath (k_path k) = true -> check (he_entry e) = None ->
  (Live (he_entry e) = true -> parent k = "." \/ dir_at es (parent k)) ->
  (k_loc k = "" -> ekind (he_entry e) <> Dir ->
     forall k' e', es !! k' = Some e' -> Live (he_entry e') = true -> parent k' <> k_path k) ->
  TreeInv (<[k := e]> es) (count ch total (es !! k) (Some e) k).1 (count ch total (es !! k) (Some e) k).2.
Proof.
  intros HI Hv Hc Hpar Hbelow.
  assert (live_hub (es !! k) = true -> 1 <= default 0 (ch !! parent k)) as Hold.
  { intros Hl. destruct (es !! k) as [o|] eqn:Ek; [|done]. simpl in Hl.
    rewrite (inv_children _ _ _ HI). rewrite (map_sum_delete _ _ k o) by done.
    assert (0 <= map_sum (child_of (parent k)) (delete k es)) by (apply map_sum_nonneg; intros; apply child_of_nonneg).
    unfold child_of at 1. rewrite Hl, String.eqb_refl. simpl. lia. }
  assert (parent k <> k_path k) as Hneq by (apply path_Dir_neq, validPath_elems; done).
  split.
  - intros k' e'. destruct (decide (k = k')) as [<-|Hk'].
    + rewrite lookup_insert_eq. by intros [= <-].
    + rewrite lookup_insert_ne by done. apply (inv_valid _ _ _ HI).
  - assert (forall k' a, dir_at es a -> a = parent k' -> (exists e', es !! k' = Some e' /\ Live (he_entry e') = true) \/ k' = k -> dir_at (<[k:=e]> es) a) as Hdir.
    { intros k' a (d & Hd & Hdk) -> Hk'. destruct (decide (k = MkKey "" (parent k'))) as [Ek|Ek].
      - exists e. rewrite <- Ek, lookup_insert_eq. split; [done|].
        destruct (decide (ekind (he_entry e) = Dir)) as [?|Hnd]; [done|]. exfalso.
        pose proof (f_equal k_loc Ek) as El. pose proof (f_equal k_path Ek) as Ep. simpl in El, Ep.
        destruct Hk' as [(e' & He' & Hl')| ->]; [|congruence].
        by apply (Hbelow El Hnd k' e' He' Hl').
      - exists d. by rewrite lookup_insert_ne by done. }
    intros k' e' Hk' Hl'. destruct (decide (k = k')) as [<-|Hne].
    + rewrite lookup_insert_eq in Hk'. injection Hk' as <-. destruct (Hpar Hl') as [?|Hd]; [by left|].
      right. eapply (Hdir k); eauto.
    + rewrite lookup_insert_ne in Hk' by done. destruct (inv_tree _ _ _ HI k' e' Hk' Hl') as [?|Hd]; [by left|].
      right. eapply (Hdir k'); eauto.
  - intros p. rewrite count_children by done. rewrite map_sum_insert, (inv_children _ _ _ HI). done.
  - rewrite count_total by (rewrite (inv_total _ _ _ HI); apply wrap64_idem).
    rewrite map_sum_insert, bytes_at_key, (inv_total _ _ _ HI).
    rewrite <- Z.add_opp_r, <- Z.add_assoc, wrap64_add_l. f_equal. unfold bytes_at. lia.
Qed.

(** Dropping tombstones. *)
Lemma TreeInv_filter es ch total (P : key * hubEntry -> Prop) `{!forall x, base.Decision (P x)} :
  (forall k e, es !! k = Some e -> ~ P (k, e) -> Live (he_entry e) = false) ->
  TreeInv es ch total -> TreeInv (filter P es) ch total.
Proof.
  intros Hdead HI. split.
  - intros k e [Hk _]%map_lookup_filter_Some. by apply (inv_valid _ _ _ HI).
  - intros k e [Hk _]%map_lookup_filter_Some Hl. destruct (inv_tree _ _ _ HI k e Hk Hl) as [?|(d & Hd & Hdk)]; [by left|].
    right. exists d. split; [|done]. apply map_lookup_filter_Some. split; [done|].
    destruct (decide (P (MkKey "" (parent k), d))) as [?|Hn]; [done|].
    specialize (Hdead _ _ Hd Hn). apply Live_false in Hdead. congruence.
  - intros p. rewrite (inv_children _ _ _ HI), map_sum_filter; [done|].
    intros k e Hk HP. unfold child_of. by rewrite (Hdead _ _ Hk HP).
  - rewrite (inv_total _ _ _ HI), map_sum_filter; [done|].
    intros k e Hk HP. unfold bytes_at, liveSize. simpl. by rewrite (Hdead _ _ Hk HP).
Qed.

(** ** What an operation leaves of the tree *)

(** The same tree: only sides, holds, journal or blobs differ. *)
Definition same_tree (r r' : hubRoot) : Prop :=
  hr_entries r' = hr_entries r /\ hr_children r' = hr_children r /\ hr_total r' = hr_total r.

Lemma same_tree_Inv r r' : same_tree r r' -> Inv r -> Inv r'.
Proof. unfold Inv. by intros (-> & -> & ->). Qed.

(** [es'] is [es] without some of its tombstones. *)
Definition pruned (es es' : gmap key hubEntry) : Prop :=
  (forall k e, es' !! k = Some e -> es !! k = Some e) /\
  (forall k e, es !! k = Some e -> Live (he_entry e) = true -> es' !! k = Some e).

Lemma pruned_refl es : pruned es es.
Proof. by split. Qed.

Lemma pruned_dir es es' a : pruned es es' -> dir_at es a -> dir_at es' a.
Proof.
  intros [_ H] (d & Hd & Hk). exists d. split; [|done]. apply H; [done|]. apply Live_spec. by rewrite Hk.
Qed.

Section operations.
Context (cfg : hubConf) `{C : !journal_codec hubRecord}.

Lemma root_compact_tree now root :
  Inv root ->
  let root' := (root_compact cfg now root).2 in
  Inv root' /\ pruned (hr_entries root) (hr_entries root') /\
  hr_sides root' = hr_sides root /\ hr_rev root' = hr_rev root /\ hr_broken root' = hr_broken root /\
  hr_holds root' = hr_holds root /\ hr_name root' = hr_name root.
Proof.
  intros HI. unfold root_compact.
  set (P := fun ke : key * hubEntry => forgettable root (now - cf_TombstoneTTL cfg) ke.1 ke.2 = false).
  assert (forall k e, hr_entries root !! k = Some e -> ~ P (k, e) -> Live (he_entry e) = false) as Hdead.
  { intros k e _ HP. unfold P in HP. apply not_false_iff_true in HP. simpl in HP.
    unfold forgettable in HP. bool_hyps. done. }
  pose proof (TreeInv_filter _ _ _ P Hdead HI) as HF.
  assert (pruned (hr_entries root) (filter P (hr_entries root))) as Hp.
  { split; [by intros k e [? _]%map_lookup_filter_Some|]. intros k e Hk Hl.
    apply map_lookup_filter_Some. split; [done|]. destruct (decide (P (k, e))) as [?|Hn]; [done|].
    by rewrite (Hdead _ _ Hk Hn) in Hl. }
  destruct (compact _ _ _) as [[[e|] j] d]; by split_and!.
Qed.

(** setEntry: nothing of the tree changes when the state could not be recorded;
    otherwise the entry is set and only tombstones may go. *)
Lemma setEntry_err now root k e o b h ex err root' :
  setEntry cfg now root k e o b h ex = (Err err, root') ->
  same_tree root root' /\ hr_sides root' = hr_sides root /\ hr_broken root' = hr_broken root /\
  (0 <= hr_rev root < 2 ^ 64 -> hr_rev root' = hr_rev root).
Proof.
  unfold setEntry. destruct (commit _ _) as [[[e'|] j] d]; [|by case_match].
  intros [= <- <-]. split_and!; try done. simpl. intros Hr. unfold u64.
  rewrite Zminus_mod_idemp_l. replace (hr_rev root + 1 - 1) with (hr_rev root) by lia. by apply Z.mod_small.
Qed.

Lemma setEntry_ok now root k e o b h ex ne root' :
  setEntry cfg now root k e o b h ex = (Ok ne, root') ->
  ne = MkHub e (u64 (hr_rev root + 1)) o b now h /\
  exists root1,
    hr_entries root1 = <[k := ne]> (hr_entries root) /\
    hr_children root1 = (count (hr_children root) (hr_total root) (hr_entries root !! k) (Some ne) k).1 /\
    hr_total root1 = (count (hr_children root) (hr_total root) (hr_entries root !! k) (Some ne) k).2 /\
    hr_sides root1 = hr_sides (markDirty now root k ex) /\
    hr_rev root1 = u64 (hr_rev root + 1) /\ hr_broken root1 = hr_broken root /\ hr_holds root1 = hr_holds root /\
    hr_name root1 = hr_name root /\
    (root' = root1 \/ root' = (root_compact cfg now root1).2).
Proof.
  unfold setEntry. destruct (commit _ _) as [[[e'|] j] d]; [done|].
  match goal with |- context [landed now ?r k ?n ex] => remember (landed now r k n ex) as root1 eqn:E end.
  intros Heq. assert (root' = root1 \/ root' = (root_compact cfg now root1).2) as Hroot.
  { destruct (due _ _); injection Heq as _ <-; auto. }
  assert (ne = MkHub e (u64 (hr_rev root + 1)) o b now h) as -> by (by injection Heq as <- _).
  split; [done|]. exists root1. clear Heq. unfold landed in E. simpl in E.
  destruct (count _ _ _ _ _) as [ch total]. subst root1. by split_and!.
Qed.

Lemma setEntry_Inv now root k e o b h ex ne root' :
  Inv root -> setEntry cfg now root k e o b h ex = (Ok ne, root') ->
  validPath (k_path k) = true -> check e = None ->
  (Live e = true -> parent k = "." \/ dir_at (hr_entries root) (parent k)) ->
  (k_loc k = "" -> ekind e <> Dir ->
     forall k' e', hr_entries root !! k' = Some e' -> Live (he_entry e') = true -> parent k' <> k_path k) ->
  Inv root' /\ pruned (<[k := ne]> (hr_entries root)) (hr_entries root') /\ hr_broken root' = hr_broken root.
Proof.
  intros HI Hs Hv Hc Hpar Hbelow.
  destruct (setEntry_ok _ _ _ _ _ _ _ _ _ _ Hs) as (Hne & root1 & He & Hch & Ht & Hsd & Hr & Hb & _ & _ & Hroot).
  assert (Inv root1) as HI1.
  { unfold Inv. rewrite He, Hch, Ht. subst ne. by apply TreeInv_set. }
  destruct Hroot as [->| ->].
  - rewrite He. split_and!; [done|apply pruned_refl|done].
  - destruct (root_compact_tree now root1 HI1) as (? & Hp & _ & _ & Hb' & _). rewrite <- He. split_and!; [done..|congruence].
Qed.

(** ** Folders brought back *)

Lemma fileMode_dir_check m : check (entry_of Dir (fileMode Dir m)) = None.
Proof.
  unfold check. simpl. rewrite <- Z.land_assoc, Z.land_diag, Z.eqb_refl. done.
Qed.

Lemma dir_at_insert es k ne a :
  dir_at es a -> (k = MkKey "" a -> ekind (he_entry ne) = Dir) -> dir_at (<[k := ne]> es) a.
Proof.
  intros (d & Hd & Hk) Hne. destruct (decide (k = MkKey "" a)) as [->|E].
  - exists ne. rewrite lookup_insert_eq. auto.
  - exists d. by rewrite lookup_insert_ne.
Qed.

Lemma resurrect_dirs_spec now side ds root r root' :
  Inv root -> Forall (fun a => validPath a = true) ds.*1 ->
  (forall l1 a l2, ds.*1 = l1 ++ a :: l2 ->
     path_Dir a = "." \/ path_Dir a ∈ l1 \/ dir_at (hr_entries root) (path_Dir a)) ->
  resurrect_dirs cfg now root side ds = (r, root') ->
  Inv root' /\ hr_broken root' = hr_broken root /\
  (r = None ->
    (forall a, a ∈ ds.*1 -> dir_at (hr_entries root') a) /\
    (forall a, dir_at (hr_entries root) a -> dir_at (hr_entries root') a) /\
    (forall k e, hr_entries root' !! k = Some e -> Live (he_entry e) = true ->
       hr_entries root !! k = Some e \/ (k_loc k = "" /\ k_path k ∈ ds.*1))).
Proof.
  revert root. induction ds as [|[a mode] ds IH]; intros root HI Hv Hchain; simpl.
  { intros [= <- <-]. split_and!; try done. intros _. split_and!; try done; [by intros ? ?%elem_of_nil|auto]. }
  destruct (setEntry _ _ _ _ _ _ _ _ _) as [[ne|e] root1] eqn:Es.
  2: { intros [= <- <-]. apply setEntry_err in Es as (Hst & _ & Hb & _). split_and!; try done.
       by eapply same_tree_Inv. }
  intros Hrest. inversion Hv as [|?? Hva Hvs]; subst.
  pose proof (setEntry_ok _ _ _ _ _ _ _ _ _ _ Es) as (Hne & _).
  destruct (setEntry_Inv _ _ _ _ _ _ _ _ _ _ HI Es) as (HI1 & Hp & Hb1); [done|apply fileMode_dir_check|..].
  { intros _. destruct (Hchain [] a ds.*1 eq_refl) as [?|[?%elem_of_nil|?]]; [by left|done|by right]. }
  { done. }
  assert (dir_at (hr_entries root1) a) as Ha.
  { eapply pruned_dir; [done|]. exists ne. rewrite lookup_insert_eq. by subst ne. }
  assert (forall x, dir_at (hr_entries root) x -> dir_at (hr_entries root1) x) as Hkeep.
  { intros x Hx. eapply pruned_dir; [done|]. apply dir_at_insert; [done|]. intros _. by subst ne. }
  destruct (IH root1 HI1 Hvs) as (HI' & Hb' & Hres); [|done|].
  { intros l1 x l2 Hx. destruct (Hchain (a :: l1) x l2) as [?|[[->|?]%elem_of_cons|?]]; [by simpl; f_equal|..]; auto. }
  split_and!; [done|congruence|]. intros ->. destruct (Hres eq_refl) as (H1 & H2 & H3). split_and!.
  - intros x [->|?]%elem_of_cons; auto.
  - auto.
  - intros k e Hk Hl. destruct (H3 k e Hk Hl) as [Hk1|[? ?]]; [|right; split; [done|by right]].
    destruct Hp as [Hp _]. apply Hp in Hk1. destruct (decide (k = MkKey "" a)) as [->|Hka].
    + right. split; [done|]. simpl. left.
    + rewrite lookup_insert_ne in Hk1 by done. by left.
Qed.
(** ** The shape verdict *)

Definition dead_at (es : gmap key hubEntry) (a : string) : bool := negb (live_hub (es !! MkKey "" a)).

Lemma shape_walk_spec es dirs s :
  sh_keep s = false -> sh_conflict s = false -> length (sh_modes s) = length (sh_resurrect s) ->
  let s' := shape_walk es dirs s in
  length (sh_modes s') = length (sh_resurrect s') /\
  (sh_keep s' = true -> sh_resurrect s' = []) /\
  (sh_keep s' = false ->
     sh_conflict s' = false /\
     sh_resurrect s' = sh_resurrect s ++ List.filter (dead_at es) dirs /\
     forall a, a ∈ dirs -> dead_at es a = false -> dir_at es a).
Proof.
  revert s. induction dirs as [|a dirs IH]; intros s Hk Hc Hm; simpl.
  { rewrite app_nil_r. split_and!; try done; [congruence|]. intros _. split_and!; try done. by intros ? ?%elem_of_nil. }
  unfold dead_at at 1. destruct (live_hub (es !! MkKey "" a)) eqn:Hl; simpl.
  - destruct (es !! MkKey "" a) as [e|] eqn:He; [|done].
    destruct (decide (ekind (he_entry e) = Dir)) as [Hd|Hd];
      [rewrite bool_decide_eq_true_2 by done|rewrite bool_decide_eq_false_2 by done]; simpl; [|done].
    destruct (IH s Hk Hc Hm) as (H1 & H2 & H3). split_and!; [done..|]. intros Hk'.
    destruct (H3 Hk') as (H4 & H5 & H6). split_and!; [done..|]. intros x [->|Hx]%elem_of_cons Hx'; [|by apply H6].
    by exists e.
  - match goal with |- context [shape_walk es dirs ?s1] => destruct (IH s1) as (H1 & H2 & H3) end; simpl; try done.
    { rewrite !length_app, Hm. done. }
    split_and!; [done..|]. intros Hk'. destruct (H3 Hk') as (H4 & H5 & H6). simpl in H5.
    split_and!; [done| |].
    + rewrite H5, <- app_assoc. done.
    + intros x [->|Hx]%elem_of_cons Hx'; [|by apply H6]. unfold dead_at in Hx'. by rewrite Hl in Hx'.
Qed.

Lemma filter_split {A} (f : A -> bool) l m1 a m2 :
  List.filter f l = m1 ++ a :: m2 ->
  exists l1 l2, l = l1 ++ a :: l2 /\ m1 = List.filter f l1 /\ f a = true.
Proof.
  revert m1. induction l as [|x l IH]; intros m1; simpl; [by destruct m1|].
  destruct (f x) eqn:Ex.
  - destruct m1 as [|y m1]; intros [= <- E].
    + exists [], l. done.
    + destruct (IH m1 E) as (l1 & l2 & -> & -> & ?). exists (x :: l1), l2. simpl. by rewrite Ex.
  - intros E. destruct (IH m1 E) as (l1 & l2 & -> & -> & ?). exists (x :: l1), l2. simpl. by rewrite Ex.
Qed.

Lemma In_filter {A} (f : A -> bool) l x : x ∈ List.filter f l <-> x ∈ l /\ f x = true.
Proof. by rewrite !list_elem_of_In, filter_In. Qed.

(** *** Verdicts compared *)

Definition plain_name (a : string) : Prop := a <> "" /\ contains_byte a nul = false.

Lemma Join_nul_inj l l' :
  Forall plain_name l -> Forall plain_name l' ->
  Join l (String nul "") = Join l' (String nul "") -> l = l'.
Proof.
  assert (forall l, Forall plain_name l -> l <> [] -> Join l (String nul "") <> "") as Hne.
  { intros m Hm Hn. destruct m as [|x m]; [done|]. inversion Hm as [|?? [Hx _]]; subst.
    destruct m; [done|]. rewrite Join_cons by done. by destruct x. }
  assert (forall m, Forall plain_name m -> Forall (fun e => contains_byte e nul = false) m) as Hc.
  { intros m Hm. eapply Forall_impl; [done|]. by intros ? []. }
  intros Hl Hl' E. destruct (decide (l = [])) as [->|Hn], (decide (l' = [])) as [->|Hn']; try done.
  - by destruct (Hne l' Hl' Hn').
  - by destruct (Hne l Hl Hn).
  - rewrite <- (split_join nul l), <- (split_join nul l') by auto. by rewrite E.
Qed.

Lemma validPath_plain a : validPath a = true -> plain_name a.
Proof. unfold validPath. intros H. bool_hyps. split; [|done]. by intros ->. Qed.

(** *** The verdict, case by case *)

(** A verdict that lets a change through: nothing live below a path that will
    hold no folder, folders or nothing above it, and which folders come back. *)
Lemma checkShape_pass root c cur :
  sh_keep (checkShape root c cur) = false ->
  (Live (c_entry c) = true -> ekind (c_entry c) <> Dir -> default 0 (hr_children root !! c_path c) <= 0) /\
  (Live (c_entry c) = false -> forall e, cur = Some e -> ekind (he_entry e) = Dir ->
     default 0 (hr_children root !! c_path c) <= 0) /\
  (Live (c_entry c) = true ->
     forall a, a ∈ ancestors (c_path c) -> dead_at (hr_entries root) a = false -> dir_at (hr_entries root) a) /\
  sh_resurrect (checkShape root c cur) =
    (if Live (c_entry c) then List.filter (dead_at (hr_entries root)) (ancestors (c_path c)) else []).
Proof.
  unfold checkShape. destruct (Live (c_entry c)) eqn:Hl; simpl.
  - destruct (decide (ekind (c_entry c) = Dir)) as [Hd|Hd];
      [rewrite bool_decide_eq_true_2 by done|rewrite bool_decide_eq_false_2 by done]; simpl.
    2: case_match eqn:Hz; [done|]; bool_hyps.
    all: intros Hk; destruct (shape_walk_spec (hr_entries root) (ancestors (c_path c)) (MkShape false false "" [] []))
           as (_ & _ & H3); try done; destruct (H3 Hk) as (_ & H4 & H5); split_and!; done.
  - destruct cur as [e|]; simpl; [|intros _; by split_and!].
    destruct (decide (ekind (he_entry e) = Dir)) as [Hd|Hd];
      [rewrite bool_decide_eq_true_2 by done|rewrite bool_decide_eq_false_2 by done]; simpl.
    + case_match eqn:Hz; [done|]. bool_hyps. intros _. split_and!; try done. 
    + intros _. split_and!; try done. intros _ e' [= <-]. done.
Qed.

Lemma checkShape_wf root c cur :
  validPath (c_path c) = true ->
  let s := checkShape root c cur in
  length (sh_modes s) = length (sh_resurrect s) /\ Forall (fun a => validPath a = true) (sh_resurrect s).
Proof.
  intros Hv. unfold checkShape. destruct (Live (c_entry c)); simpl.
  - case_match; [done|].
    destruct (shape_walk_spec (hr_entries root) (ancestors (c_path c)) (MkShape false false "" [] []))
      as (H1 & H2 & H3); try done. split; [done|].
    destruct (sh_keep (shape_walk _ _ _)) eqn:Hk; [by rewrite H2|].
    destruct (H3 eq_refl) as (_ & -> & _). apply Forall_forall. intros a [Ha _]%In_filter.
    by eapply ancestors_validPath.
  - repeat case_match; done.
Qed.

(** ** Plans and decisions *)

Record wf_plan (p : plan) : Prop := {
  wf_path : validPath (c_path (pl_change p)) = true;
  wf_entry : check (c_entry (pl_change p)) = None;
  wf_key : k_path (pl_key p) = c_path (pl_change p);
  wf_modes : length (sh_modes (pl_shape p)) = length (sh_resurrect (pl_shape p));
  wf_resurrect : Forall (fun a => validPath a = true) (sh_resurrect (pl_shape p));
  wf_cur h : pl_cur p = Some h -> check (he_entry h) = None
}.

(** A decision as decide makes it: a refused shape keeps, and a merge is of a
    file into a file. *)
Record wf_decision (p : plan) (res : MergeResult) (extra : planExtra) : Prop := {
  wf_keep : sh_keep (pl_shape p) = true -> decision res = Keep;
  wf_merged : decision res = Merged ->
    ekind (c_entry (pl_change p)) = File /\ ekind (px_merged extra) = File /\ check (px_merged extra) = None
}.

Lemma on_side_tree root id f : same_tree root (on_side root id f).
Proof. by split_and!. Qed.

Lemma unvouch_Inv root k e id : Inv root -> hr_entries root !! k = Some e -> Inv (unvouch root k e id).
Proof.
  intros HI Hk. unfold unvouch. case_match; [done|].
  set (e' := MkHub _ _ _ _ _ _). destruct (Journal.commit _ _) as [[? j] d]. unfold Inv. simpl.
  assert (forall f, (forall k, f k e' = f k e) -> map_sum f (<[k:=e']> (hr_entries root)) = map_sum f (hr_entries root)) as Hsum.
  { intros f Hf. rewrite map_sum_insert, Hk. simpl. rewrite Hf. lia. }
  assert (forall a, dir_at (hr_entries root) a -> dir_at (<[k:=e']> (hr_entries root)) a) as Hdir.
  { intros a Ha. apply dir_at_insert; [done|]. intros ->. destruct Ha as (d' & Hd' & ?). simpl. congruence. }
  split.
  - intros k' x. destruct (decide (k = k')) as [<-|Hne].
    + rewrite lookup_insert_eq. intros [= <-]. by apply (inv_valid _ _ _ HI k e).
    + rewrite lookup_insert_ne by done. apply (inv_valid _ _ _ HI).
  - intros k' x. destruct (decide (k = k')) as [<-|Hne].
    + rewrite lookup_insert_eq. intros [= <-] Hl. destruct (inv_tree _ _ _ HI k e Hk Hl); auto.
    + rewrite lookup_insert_ne by done. intros Hx Hl. destruct (inv_tree _ _ _ HI k' x Hx Hl); auto.
  - intros p. rewrite Hsum by done. apply (inv_children _ _ _ HI).
  - rewrite Hsum by done. apply (inv_total _ _ _ HI).
Qed.

(** A verdict equal to the plan's names the same folders. *)
Lemma shape_equal_resurrect root p cur :
  wf_plan p -> shape_equal (checkShape root (pl_change p) cur) (pl_shape p) = true ->
  sh_keep (checkShape root (pl_change p) cur) = sh_keep (pl_shape p) /\
  sh_resurrect (checkShape root (pl_change p) cur) = sh_resurrect (pl_shape p).
Proof.
  intros Hwf Heq. unfold shape_equal in Heq. bool_hyps.
  match goal with H : Bool.eqb (sh_keep _) _ = true |- _ => apply eqb_prop in H as -> end. split; [done|].
  destruct (checkShape_wf root (pl_change p) cur (wf_path p Hwf)) as [_ Hv].
  apply Join_nul_inj; [..|done]; eapply Forall_impl; try exact (wf_resurrect p Hwf); try exact Hv; apply validPath_plain.
Qed.

(** Nothing live is below a path whose verdict lets a non-folder stand there. *)
Lemma pass_no_children root p cur :
  Inv root -> wf_plan p -> hr_entries root !! pl_key p = cur ->
  sh_keep (checkShape root (pl_change p) cur) = false ->
  ekind (c_entry (pl_change p)) <> Dir -> k_loc (pl_key p) = "" ->
  forall k e, hr_entries root !! k = Some e -> Live (he_entry e) = true -> parent k <> c_path (pl_change p).
Proof.
  intros HI Hwf Hcur Hk Hnd Hloc k e He Hl Hpar.
  destruct (checkShape_pass _ _ _ Hk) as (Hlive & Hdel & _).
  destruct (Live (c_entry (pl_change p))) eqn:Hlc.
  - by apply (no_children _ _ _ _ HI (Hlive eq_refl Hnd) k e He Hl).
  - destruct (inv_tree _ _ _ HI k e He Hl) as [Hdot|(d & Hd & Hdk)].
    + apply (valid_elems_not_dot (c_path (pl_change p))); [|congruence]. apply validPath_elems, (wf_path p Hwf).
    + rewrite Hpar, <- (wf_key p Hwf) in Hd. rewrite <- Hloc in Hd. destruct (pl_key p) as [l q] eqn:Ek. simpl in Hd.
      rewrite Hcur in Hd. by apply (no_children _ _ _ _ HI (Hdel eq_refl d Hd Hdk) k e He Hl).
Qed.
Lemma zip_fst {A B} (l : list A) (l' : list B) : length l' = length l -> (zip l l').*1 = l.
Proof. intros. apply fst_zip. lia. Qed.

(** The folders that come back can each be set when their turn comes. *)
Lemma resurrect_ready root p cur :
  wf_plan p -> sh_keep (checkShape root (pl_change p) cur) = false ->
  shape_equal (checkShape root (pl_change p) cur) (pl_shape p) = true ->
  let rs := (zip (sh_resurrect (pl_shape p)) (sh_modes (pl_shape p))).*1 in
  rs = (if Live (c_entry (pl_change p))
        then List.filter (dead_at (hr_entries root)) (ancestors (c_path (pl_change p))) else []) /\
  Forall (fun a => validPath a = true) rs /\
  (forall a, a ∈ rs -> a ∈ ancestors (c_path (pl_change p))) /\
  (forall l1 a l2, rs = l1 ++ a :: l2 ->
     path_Dir a = "." \/ path_Dir a ∈ l1 \/ dir_at (hr_entries root) (path_Dir a)).
Proof.
  intros Hwf Hk Heq. set (c := pl_change p) in *. cbv zeta.
  rewrite zip_fst by apply (wf_modes p Hwf).
  destruct (shape_equal_resurrect root p cur Hwf Heq) as [_ Hrs]. fold c in Hrs.
  destruct (checkShape_pass _ _ _ Hk) as (_ & _ & Hlive & Hlist). rewrite Hrs in Hlist.
  split; [done|]. split; [apply (wf_resurrect p Hwf)|]. rewrite Hlist.
  assert (valid_elems (c_path c) = true) as Hve by (apply validPath_elems, (wf_path p Hwf)).
  destruct (Live (c_entry c)); [|split; [by intros ? ?%elem_of_nil|intros []; done]].
  split; [by intros a [? _]%In_filter|].
  intros l1 a l2 E. destruct (filter_split _ _ _ _ _ E) as (m1 & m2 & Hanc & -> & Hdead).
  destruct (ancestors_chain _ Hve m1 a m2 Hanc) as [?|Hin]; [by left|right].
  destruct (dead_at (hr_entries root) (path_Dir a)) eqn:Hd; [left; by apply In_filter|right].
  apply Hlive; [done| |done]. rewrite Hanc. apply elem_of_app. by left.
Qed.

(** ... and then every folder above the change is one. *)
Lemma resurrect_spec now root p cur r root' :
  Inv root -> wf_plan p ->
  sh_keep (checkShape root (pl_change p) cur) = false ->
  shape_equal (checkShape root (pl_change p) cur) (pl_shape p) = true ->
  resurrect cfg now root p = (r, root') ->
  Inv root' /\ hr_broken root' = hr_broken root /\
  (r = None ->
    (Live (c_entry (pl_change p)) = true ->
       forall a, a ∈ ancestors (c_path (pl_change p)) -> dir_at (hr_entries root') a) /\
    (forall k e, hr_entries root' !! k = Some e -> Live (he_entry e) = true ->
       hr_entries root !! k = Some e \/ k_path k ∈ ancestors (c_path (pl_change p)))).
Proof.
  intros HI Hwf Hk Heq Hres.
  destruct (resurrect_ready root p cur Hwf Hk Heq) as (Hlist & Hv & Hsub & Hchain).
  destruct (checkShape_pass _ _ _ Hk) as (_ & _ & Hlive & _). unfold resurrect in Hres.
  destruct (resurrect_dirs_spec _ _ _ _ _ _ HI Hv Hchain Hres) as (HI' & Hb & Hdone).
  split_and!; [done..|]. intros ->. destruct (Hdone eq_refl) as (H1 & H2 & H3). split.
  - intros Hl a Ha. rewrite Hl in Hlist. destruct (dead_at (hr_entries root) a) eqn:Hd.
    + apply H1. rewrite Hlist. by apply In_filter.
    + apply H2, Hlive; done.
  - intros k e Hke Hl. destruct (H3 k e Hke Hl) as [?|[_ Hin]]; auto.
Qed.

Lemma ancestor_parent_ne s a : valid_elems s = true -> a ∈ ancestors s -> path_Dir a <> s.
Proof.
  intros Hv Ha E. destruct (ancestors_valid s a Hv Ha) as [Hva Hd].
  destruct (path_Dir_cases a Hva) as [Hdot|(_ & Hdep & _)].
  - by apply (valid_elems_not_dot s Hv); congruence.
  - rewrite E in Hdep. lia.
Qed.

(** ** The outcomes of a commit *)

Definition plan_cur (root : hubRoot) (p : plan) : option hubEntry := hr_entries root !! pl_key p.

(** The entry a decision sets, who it is from, and the side it is not sent to. *)
Definition sets (p : plan) (res : MergeResult) (extra : planExtra) : Entry * string * string :=
  if bool_decide (decision res = Merged) then (px_merged extra, "", "")
  else (c_entry (pl_change p), side_id (pl_side p), side_id (pl_side p)).

Definition set_size (p : plan) (res : MergeResult) (extra : planExtra) : Z :=
  if bool_decide (decision res = Merged) then esize (px_merged extra) else esize (c_entry (pl_change p)).

(** The guards a change has passed before anything is set. *)
Record passed (root : hubRoot) (p : plan) (res : MergeResult) (extra : planExtra) : Prop := {
  pa_shape : shape_equal (checkShape root (pl_change p) (plan_cur root p)) (pl_shape p) = true;
  pa_keep : decision res <> Keep;
  pa_cap : ekind (c_entry (pl_change p)) = File \/ decision res = Merged ->
           overCap root (set_size p res extra) (plan_cur root p) = false
}.

Inductive commits (now : Z) (root : hubRoot) (p : plan) (res : MergeResult) (extra : planExtra)
    : option Ack -> hubRoot -> Prop :=
| commits_retry : commits now root p res extra None root
| commits_hold h : commits now root p res extra (Some (answer (pl_change p) Deferred 0)) (set_holds root h)
| commits_keep rev root' :
    decision res = Keep ->
    (let side := on_side root (side_id (pl_side p)) (refused_at now (pl_change p)) in
     root' = side \/
     exists e, plan_cur root p = Some e /\ root' = unvouch side (pl_key p) e (side_id (pl_side p))) ->
    commits now root p res extra (Some (answer (pl_change p) Superseded rev)) root'
| commits_unmade err root1 :
    passed root p res extra -> resurrect cfg now root p = (Some err, root1) ->
    commits now root p res extra (Some (answer (pl_change p) Deferred 0)) root1
| commits_unset root1 entry origin except hist err root2 :
    passed root p res extra -> resurrect cfg now root p = (None, root1) ->
    sets p res extra = (entry, origin, except) ->
    setEntry cfg now root1 (pl_key p) entry origin (c_base (pl_change p)) hist except = (Err err, root2) ->
    commits now root p res extra (Some (answer (pl_change p) Deferred 0)) root2
| commits_set root1 entry origin except hist ne root2 blobs status :
    passed root p res extra -> resurrect cfg now root p = (None, root1) ->
    sets p res extra = (entry, origin, except) ->
    setEntry cfg now root1 (pl_key p) entry origin (c_base (pl_change p)) hist except = (Ok ne, root2) ->
    status = (if bool_decide (decision res = Merged) then Superseded else Accepted) ->
    commits now root p res extra (Some (answer (pl_change p) status (he_rev ne)))
      (on_side (set_blobs root2 blobs) (side_id (pl_side p))
         (if bool_decide (decision res = Merged)
          then fun sr => set_held sr (<[c_path (pl_change p) := 0]> (sr_held sr))
          else fun sr => held_at sr (c_path (pl_change p)) ne)).

Lemma set_holds_id root : set_holds root (hr_holds root) = root.
Proof. by destruct root. Qed.
Lemma set_blobs_id root : set_blobs root (hr_blobs root) = root.
Proof. by destruct root. Qed.

Lemma commitPlan_commits now root p res extra ack root' :
  commitPlan cfg now root p res extra = (ack, root') -> commits now root p res extra ack root'.
Proof.
  unfold commitPlan. destruct (hr_broken root).
  { intros [= <- <-]. rewrite <- (set_holds_id root) at 2. constructor. }
  fold (plan_cur root p). fold (set_size p res extra). fold (sets p res extra).
  destruct (negb (unchanged _ _)); [intros [= <- <-]; constructor|].
  destruct (negb (shape_equal _ _)) eqn:Hsh; [intros [= <- <-]; constructor|]. apply negb_false_iff in Hsh.
  destruct (negb _ && _ && overCap _ _ _) eqn:Hcap; [intros [= <- <-]; constructor|].
  destruct (decide (decision res = Keep)) as [Hk|Hk];
    [rewrite bool_decide_eq_true_2 by done|rewrite bool_decide_eq_false_2 in * by done].
  { destruct (plan_cur root p) as [e|] eqn:He; [destruct (pl_fast p)|]; intros [= <- <-];
      constructor; simpl; eauto. }
  assert (passed root p res extra) as Hp.
  { split; [done..|]. intros Hf. simpl in Hcap. apply andb_false_iff in Hcap as [Hc|Hc]; [|done].
    apply orb_false_iff in Hc as [H1 H2]. apply bool_decide_eq_false in H1, H2. tauto. }
  destruct (resurrect cfg now root p) as [[err|] root1] eqn:Hres; [intros [= <- <-]; by econstructor|].
  destruct (sets p res extra) as [[entry origin] except] eqn:Hsets.
  match goal with |- context [setEntry ?a ?b ?c ?d ?e ?f ?g ?h ?i] =>
    destruct (setEntry a b c d e f g h i) as [[ne|err] root2] eqn:Hset end; [|intros [= <- <-]; by econstructor].
  match goal with |- context [if bool_decide (m_scope _ = _) then forget ?a ?b ?c else _] =>
    set (root3 := if bool_decide (m_scope (pl_merger p) = ScopeLocation) then forget a b c else a) end.
  assert (exists blobs, root3 = set_blobs root2 blobs) as [blobs ->].
  { unfold root3, forget. destruct (bool_decide (m_scope _ = _)); [by eexists|].
    exists (hr_blobs root2). by rewrite set_blobs_id. }
  pose proof (commits_set now root p res extra root1 entry origin except _ ne root2 blobs _ Hp Hres Hsets Hset eq_refl) as Hc.
  destruct (bool_decide (decision res = Merged)); intros [= <- <-]; exact Hc.
Qed.

(** What passed the guards was let through by the shape. *)
Lemma passed_keep root p res extra :
  wf_plan p -> wf_decision p res extra -> passed root p res extra ->
  sh_keep (checkShape root (pl_change p) (plan_cur root p)) = false.
Proof.
  intros Hwf Hwd Hp. destruct (shape_equal_resurrect root p _ Hwf (pa_shape _ _ _ _ Hp)) as [-> _].
  apply not_true_iff_false. intros H. by apply (pa_keep _ _ _ _ Hp), (wf_keep _ _ _ Hwd).
Qed.

Lemma sets_spec p res extra entry origin except :
  wf_plan p -> wf_decision p res extra -> sets p res extra = (entry, origin, except) ->
  check entry = None /\ Live entry = Live (c_entry (pl_change p)) /\
  (ekind entry <> Dir -> ekind (c_entry (pl_change p)) <> Dir) /\
  esize entry = set_size p res extra.
Proof.
  intros Hwf Hwd. unfold sets, set_size. case_bool_decide as Hm; intros [= <- <- <-].
  - destruct (wf_merged _ _ _ Hwd Hm) as (Hf & Hf' & Hc'). unfold Live. by rewrite Hf, Hf'.
  - split_and!; auto. apply (wf_entry p Hwf).
Qed.

(** A tree before a commit is a tree after it, whatever was decided and
    whatever the journal's files answered. *)
Lemma commitPlan_Inv now root p res extra :
  Inv root -> wf_plan p -> wf_decision p res extra -> Inv (commitPlan cfg now root p res extra).2.
Proof.
  intros HI Hwf Hwd. destruct (commitPlan cfg now root p res extra) as [ack root'] eqn:Hcp. simpl.
  assert (valid_elems (c_path (pl_change p)) = true) as Hve by (apply validPath_elems, (wf_path p Hwf)).
  destruct (commitPlan_commits _ _ _ _ _ _ _ Hcp)
    as [|h|rev root' Hk [->|(e & He & ->)]|err root1 Hp Hres|root1 entry o ex hist err root2 Hp Hres Hs Hset
       |root1 entry o ex hist ne root2 blobs st Hp Hres Hs Hset _]; try done.
  - by apply unvouch_Inv.
  - by destruct (resurrect_spec _ _ _ _ _ _ HI Hwf (passed_keep _ _ _ _ Hwf Hwd Hp) (pa_shape _ _ _ _ Hp) Hres).
  - destruct (resurrect_spec _ _ _ _ _ _ HI Hwf (passed_keep _ _ _ _ Hwf Hwd Hp) (pa_shape _ _ _ _ Hp) Hres) as [HI1 _].
    apply setEntry_err in Hset as (Hst & _). by eapply same_tree_Inv.
  - pose proof (passed_keep _ _ _ _ Hwf Hwd Hp) as Hk.
    destruct (resurrect_spec _ _ _ _ _ _ HI Hwf Hk (pa_shape _ _ _ _ Hp) Hres) as (HI1 & _ & Hdone).
    destruct (Hdone eq_refl) as [Hanc Hold]. destruct (sets_spec _ _ _ _ _ _ Hwf Hwd Hs) as (Hce & Hle & Hde & _).
    eapply (same_tree_Inv root2); [done|].
    eapply setEntry_Inv; [exact HI1|exact Hset|..]; rewrite ?(wf_key p Hwf); [apply (wf_path p Hwf)|done|..].
    + intros Hl. unfold parent. rewrite (wf_key p Hwf).
      destruct (parent_ancestor _ Hve) as [?|Hin]; [by left|right]. apply Hanc; [congruence|done].
    + intros Hloc Hnd k' e' Hk' Hl'. destruct (Hold k' e' Hk' Hl') as [Hk0|Hin]; [|by apply ancestor_parent_ne].
      exact (pass_no_children root p _ HI Hwf eq_refl Hk (Hde Hnd) Hloc k' e' Hk0 Hl').
Qed.

(** Planning changes no tree, and its plans are well formed. *)
Lemma prepare_spec now root k m side c base pl root' :
  Inv root -> prepare now root k m side c base = (pl, root') ->
  same_tree root root' /\
  (validPath (c_path c) = true -> check (c_entry c) = None -> k_path k = c_path c ->
   forall p, pl = inl p -> wf_plan p /\ pl_merger p = m /\ pl_change p = c /\ pl_key p = k /\ pl_side p = side).
Proof.
  intros HI. unfold prepare. destruct (hr_broken root); [by intros [= <- <-]|].
  set (root1 := set_holds _ _). change (hr_entries root1) with (hr_entries root).
  assert (same_tree root root1) as Hst by (by split_and!).
  destruct (hr_entries root !! k) as [e|] eqn:He;
    repeat (match goal with |- context [if ?b then _ else _] => destruct b; [by intros [= <- <-]|] end);
    intros [= <- <-]; (split; [done|]); intros Hv Hc Hk p [= <-]; (split; [|done]);
    (match goal with |- context [checkShape root1 c ?cur] => destruct (checkShape_wf root1 c cur Hv) end; split; try done).
  simpl. intros h [= <-]. by apply (inv_valid _ _ _ HI k e).
Qed.
End operations.

(** In a root's tree everything live is reachable: each folder above a live
    entry is a live folder of the root, all the way up. *)
Theorem live_entry_reachable root k e :
  Inv root -> hr_entries root !! k = Some e -> Live (he_entry e) = true ->
  forall a, a ∈ ancestors (k_path k) -> dir_at (hr_entries root) a.
Proof.
  intros HI Hk Hl. destruct (inv_valid _ _ _ HI k e Hk) as [Hv%validPath_elems _].
  assert (parent k = "." \/ dir_at (hr_entries root) (parent k)) as Hp by by eapply inv_tree.
  unfold parent in Hp. revert Hp. generalize (k_path k), Hv. clear k e Hk Hl Hv. apply (path_ind (fun s => _ -> forall a, a ∈ ancestors s -> _)).
  - intros s Hv Hd _ a. rewrite ancestors_unfold, Hd by done. by intros ?%elem_of_nil.
  - intros s Hv Hv' Hnd IH [?|Hp] a; [done|]. rewrite ancestors_unfold, (proj2 (String.eqb_neq _ _)) by done.
    intros [Ha| ->%list_elem_of_singleton]%elem_of_app; [|done]. apply IH; [|done].
    destruct Hp as (d & Hd & Hk). apply (inv_tree _ _ _ HI _ _ Hd). apply Live_spec. by rewrite Hk.
Qed.
