(* ===== verification/HubProcess.v ===== *)
(** * Deciding a change (internal/sharesync/hub_root.go: process, decide,
      keepConflict; hub.go: openContent, hostRoom; stores.go: conflictStore)

    A change is decided without the root's lock. What the outside answers (the
    sides' content, the disk) is a [hubEnv] per attempt; what other operations
    do to the root between its locked steps is a function [gap]. *)

From S2P Require Import Prelude GoStrings Sha256 Entry SyncPolicy Mergers Journal HubState HubCommit HubInvariants.
Local Open Scope string_scope.
Local Open Scope Z_scope.
Local Open Scope list_scope.

(** ** The conflict store *)

Record Conflict := MkConflict {
  cn_id : string;
  cn_time : Z;
  cn_root : string;
  cn_path : string;
  cn_location : string;
  cn_side : string;
  cn_entry : Entry;
  cn_reason : string;
  cn_data : string      (* the file beside it *)
}.

(** conflictStore.save and prune: the newest [max] copies stay, by id. *)
Definition conflicts_prune (max : nat) (all : list Conflict) : list Conflict :=
  let sorted := SortFunc (fun a b => Compare (cn_id a) (cn_id b)) all in
  drop (length sorted - max) sorted.

Definition conflicts_save (max : nat) (store : list Conflict) (c : Conflict) : list Conflict :=
  conflicts_prune max (store ++ [c]).

Definition conflicts_remove (store : list Conflict) (id : string) : list Conflict :=
  List.filter (fun c => negb (String.eqb (cn_id c) id)) store.

(** ** The outside *)

Record hubEnv := MkEnv {
  ev_now : Z;
  ev_fetch : string -> string -> Entry -> Z -> result sync_error (result sync_error string);
                                   (* a side's Fetch: refused, or opened and then read to its end or to an error *)
  ev_put : string -> bool;         (* a blob file can be written *)
  ev_read : string -> bool;        (* a blob file can be opened and read *)
  ev_space : option (Z * Z);       (* the daemon host's disk: total and free bytes *)
  ev_reserve : Z;                  (* the bytes of it kept free *)
  ev_save : result sync_error string (* the id of the next conflict copy, or why it cannot be kept *)
}.

Definition hostRoom (env : hubEnv) (size : Z) : bool :=
  match ev_space env with
  | None => true
  | Some (total, free) =>
      if total <=? 0 then true else negb (wrap64 (free - size) <? ev_reserve env)
  end.

(** blobStore.has, open and put. *)
Definition blob_has (root : hubRoot) (hash : string) : bool :=
  validHash hash && match hr_blobs root !! hash with Some _ => true | None => false end.

Definition blob_open (env : hubEnv) (root : hubRoot) (hash : string) (offset : Z) : option string :=
  if validHash hash && ev_read env hash then
    match hr_blobs root !! hash with
    | Some b => Some (drop_bytes (Z.to_nat offset) (bl_data b))
    | None => None
    end
  else None.

Definition blob_put (env : hubEnv) (root : hubRoot) (data : string) : option string * hubRoot :=
  let hash := hashOf data in
  if blob_has root hash then (Some hash, root)
  else if ev_put env hash then (Some hash, set_blobs root (<[hash := MkBlob data (ev_now env)]> (hr_blobs root)))
  else (None, root).

(** ** openContent *)

(** A side's file opened and read to its end. *)
Definition fetch_all (env : hubEnv) (side p : string) (e : Entry) : result sync_error string :=
  let? read := ev_fetch env side p e 0 in read.

Definition holder_cmp (origin : string) (a b : sideRoot) : comparison :=
  if String.eqb (side_id (sr_info a)) origin then Lt
  else if String.eqb (side_id (sr_info b)) origin then Gt
  else Compare (side_id (sr_info a)) (side_id (sr_info b)).

Definition holds_rev (k : key) (rev : Z) (except : string) (hs : string * sideRoot) : bool :=
  let '(id, sr) := hs in
  negb (String.eqb id except || negb (default 0 (sr_held sr !! k_path k) =? rev) || (rev =? 0)
        || negb (String.eqb (k_loc k) "") && negb (String.eqb (location (sr_info sr)) (k_loc k))).

Definition holders (root : hubRoot) (k : key) (rev : Z) (except : string) : list sideRoot :=
  let origin := match hr_entries root !! k with
                | Some cur => if he_rev cur =? rev then he_origin cur else ""
                | None => ""
                end in
  SortFunc (holder_cmp origin) (map snd (List.filter (holds_rev k rev except) (map_to_list (hr_sides root)))).

(** The first side that opens the content serves it; a read that fails later is
    not made good by another side. *)
Fixpoint first_fetch (env : hubEnv) (hs : list sideRoot) (p : string) (e : Entry) (offset : Z)
    : result sync_error string :=
  match hs with
  | [] => Err ErrNoSource
  | s :: hs' =>
      match ev_fetch env (side_id (sr_info s)) p e offset with
      | Ok read => read
      | Err _ => first_fetch env hs' p e offset
      end
  end.

Definition openContent (env : hubEnv) (root : hubRoot) (k : key) (e : Entry) (rev offset : Z) (except : string)
    : result sync_error string :=
  if negb (bool_decide (ekind e = File)) then Err ErrNoSource
  else match (if blob_has root (ehash e) then blob_open env root (ehash e) offset else None) with
       | Some data => Ok data
       | None => first_fetch env (holders root k rev except) (k_path k) e offset
       end.

(** ** keepConflict *)

(** The verifier: content of another size or hash fails at its end. *)
Definition verified (e : Entry) (data : string) : result sync_error string :=
  if (Z.of_nat (String.length data) =? esize e) && String.eqb (hashOf data) (ehash e) then Ok data else Err ErrStale.

(** The losing version of a decision, who has it, and its content. *)
Definition loser (env : hubEnv) (root : hubRoot) (p : plan) (res : MergeResult)
    : option (Entry * string * result sync_error string) :=
  match decision res with
  | Accept =>
      match pl_cur p with
      | None => None
      | Some cur => Some (he_entry cur, he_origin cur,
                          openContent env root (pl_key p) (he_entry cur) (he_rev cur) 0 "")
      end
  | _ =>
      let c := pl_change p in
      Some (c_entry c, side_id (pl_side p), fetch_all env (side_id (pl_side p)) (c_path c) (c_entry c))
  end.

(** The content a loser's conflict copy holds; [Ok None] keeps none. *)
Definition loser_content (env : hubEnv) (e : Entry) (open : result sync_error string)
    : result sync_error (option string) :=
  match ekind e with
  | File =>
      if negb (hostRoom env (esize e)) then Err ErrNoSpace
      else let? data := open in let? data := verified e data in Ok (Some data)
  | Symlink => Ok (Some (etarget e))
  | _ => Ok None
  end.

Section process.
Context (cfg : hubConf) `{C : !journal_codec hubRecord}.

Definition keepConflict (env : hubEnv) (store : list Conflict) (root : hubRoot) (p : plan) (res : MergeResult)
    : result sync_error (string * list Conflict) :=
  match loser env root p res with
  | None => Ok ("", store)
  | Some (e, side, open) =>
      match loser_content env e open with
      | Err err => Err err
      | Ok None => Ok ("", store)
      | Ok (Some data) =>
          match ev_save env with
          | Err err => Err err
          | Ok id =>
              Ok (id, conflicts_save (cf_MaxConflicts cfg) store
                        (MkConflict id (ev_now env) (hr_name root) (c_path (pl_change p)) (k_loc (pl_key p))
                           side e (reason res) data))
          end
      end
  end.

(** ** decide *)

Definition history_content (env : hubEnv) (root : hubRoot) (cur : hubEntry) (base : Z)
    : result sync_error (option string) :=
  match find (fun hr => hi_rev hr =? base) (he_hist cur) with
  | None => Ok None
  | Some hr =>
      match blob_open env root (hi_hash hr) 0 with
      | None => Ok None
      | Some data => Ok (Some (take_bytes (Z.to_nat (MaxMergeSize + 1)) data))
      end
  end.

Definition merge_input (env : hubEnv) (root : hubRoot) (p : plan) : MergeInput :=
  let c := pl_change p in
  let side := side_id (pl_side p) in
  MkMergeInput (hr_name root) (c_path c) (pl_side p) (pl_fast p) (pl_base p)
    (match pl_cur p with
     | None => None
     | Some cur => Some (MkVersion (he_entry cur) (he_rev cur) (he_origin cur)
                           (Some (openContent env root (pl_key p) (he_entry cur) (he_rev cur) 0 "")))
     end)
    (MkVersion (c_entry c) 0 side (Some (fetch_all env side (c_path c) (c_entry c))))
    (match pl_cur p with
     | Some cur =>
         if (0 <? m_history (pl_merger p))%nat && (0 <? pl_base p)
         then Some (history_content env root cur (pl_base p)) else None
     | None => None
     end).

(** The entry of a merged file. *)
Definition merged_entry (env : hubEnv) (p : plan) (content : string) : Entry :=
  let c := c_entry (pl_change p) in
  let e := MkEntry File (fileMode File (emode c)) (Z.of_nat (String.length content))
             (Z.max (emtime c) (ev_now env)) (hashOf content) "" [] in
  match pl_cur p with
  | None => e
  | Some h =>
      let cur := he_entry h in
      let e := with_mtime e (Z.max (emtime e) (emtime cur)) in
      if bool_decide (ekind cur = File) && (esize cur <? esize e)
         && String.eqb (hashOf (take_bytes (Z.to_nat (esize cur)) content)) (ehash cur)
      then grownFrom e cur else e
  end.

Definition no_entry : Entry := entry_of Gone 0.

(** What the policy, or the shape, decides. *)
Definition verdict (env : hubEnv) (root : hubRoot) (p : plan) : result sync_error MergeResult :=
  if sh_keep (pl_shape p)
  then Ok (decided Keep (sh_conflict (pl_shape p)) (sh_reason (pl_shape p)))
  else m_merge (pl_merger p) (merge_input env root p).

(** The merged content stored: its entry, and the hash its history keeps. *)
Definition store_merged (env : hubEnv) (root : hubRoot) (p : plan) (res : MergeResult)
    : result sync_error (Entry * string) * hubRoot :=
  match decision res with
  | Merged =>
      match blob_put env root (m_content res) with
      | (None, root) => (Err ErrWrite, root)
      | (Some hash, root) =>
          let e := merged_entry env p (m_content res) in
          (Ok (e, if (0 <? m_history (pl_merger p))%nat && (esize e <=? MaxMergeSize) then hash else ""), root)
      end
  | Accept | Keep => (Ok (no_entry, ""), root)
  | Undecided => (Err ErrUndecided, root)
  end.

(** The incoming content of an accepted change, kept for its policy's history. *)
Definition store_history (env : hubEnv) (root : hubRoot) (p : plan) (res : MergeResult) (hist : string)
    : result sync_error string * hubRoot :=
  let c := c_entry (pl_change p) in
  if bool_decide (decision res = Accept) && (0 <? m_history (pl_merger p))%nat
     && bool_decide (ekind c = File) && (esize c <=? MaxMergeSize)
  then match Content (in_incoming (merge_input env root p)) with
       | Err e => (Err e, root)
       | Ok data => match blob_put env root data with
                    | (None, root) => (Err ErrWrite, root)
                    | (Some hash, root) => (Ok hash, root)
                    end
       end
  else (Ok hist, root).

Definition hub_decide (env : hubEnv) (store : list Conflict) (root : hubRoot) (p : plan)
    : result sync_error (MergeResult * planExtra) * list Conflict * hubRoot :=
  match verdict env root p with
  | Err e => (Err e, store, root)
  | Ok res =>
      match store_merged env root p res with
      | (Err e, root) => (Err e, store, root)
      | (Ok (merged, hist), root) =>
          match (if conflict res then keepConflict env store root p res else Ok ("", store)) with
          | Err e => (Err e, store, root)
          | Ok (id, store) =>
              match store_history env root p res hist with
              | (Err e, root) => (Err e, store, root)
              | (Ok hist, root) => (Ok (res, MkExtra id merged hist), store, root)
              end
          end
      end
  end.

(** ** process *)

Definition drop_copy (store : list Conflict) (id : string) : list Conflict :=
  if String.eqb id "" then store else conflicts_remove store id.

(** The loop of process, [n] attempts left; [gap] is what happens to the root
    between its locked steps. *)
Fixpoint attempts (n : nat) (envs : nat -> hubEnv) (gap : nat -> hubRoot -> hubRoot)
    (store : list Conflict) (root : hubRoot) (k : key) (m : Merger) (side : SideInfo) (c : Change) (base : Z)
    : Ack * list Conflict * hubRoot :=
  match n with
  | O => (answer c Deferred 0, store, root)
  | S n' =>
      let env := envs n in
      match prepare (ev_now env) root k m side c base with
      | (inr ack, root) => (ack, store, root)
      | (inl p, root) =>
          match hub_decide env store (gap (2 * n)%nat root) p with
          | (Err _, store, root) => (answer c Deferred 0, store, root)
          | (Ok (res, extra), store, root) =>
              match commitPlan cfg (ev_now env) (gap (2 * n + 1)%nat root) p res extra with
              | (Some ack, root) =>
                  let store := if bool_decide (a_status ack = Deferred)
                               then drop_copy store (px_conflict extra) else store in
                  (ack, store, root)
              | (None, root) =>
                  attempts n' envs gap (drop_copy store (px_conflict extra)) root k m side c base
              end
          end
      end
  end.

Definition process (envs : nat -> hubEnv) (gap : nat -> hubRoot -> hubRoot) (store : list Conflict)
    (root : hubRoot) (side : SideInfo) (c : Change) (stale : bool) : Ack * list Conflict * hubRoot :=
  if negb (validPath (c_path c)) || (match check (c_entry c) with Some _ => true | None => false end)
  then (answer c Ignored 0, store, root)
  else match keyFor cfg root (c_path c) (location side) with
       | None => (answer c Ignored 0, store, root)
       | Some (k, m) =>
           if loginsOnly side && negb (bool_decide (m_scope m = ScopeLocation))
           then (answer c Ignored 0, store, root)
           else attempts 4 envs gap store root k m side c (if stale then 0 else c_base c)
       end.

End process.

(** ** Deciding well *)

Lemma fileMode_file_idem m : fileMode File (fileMode File m) = fileMode File m.
Proof. simpl. by rewrite <- Z.land_assoc, Z.land_diag. Qed.

Lemma check_file e :
  ekind e = File -> check e = None <->
  emode e = fileMode File (emode e) /\ 0 <= esize e /\ validHash (ehash e) = true /\
  (length (egrew e) <= maxGrew)%nat /\ forallb (grown_ok (esize e)) (egrew e) = true.
Proof.
  intros Hk. unfold check. rewrite Hk.
  destruct (emode e =? fileMode File (emode e)) eqn:E1; simpl negb; cbv iota; [|split; [done|]; intros [? _]; bool_hyps; done].
  destruct (esize e <? 0) eqn:E2; [bool_hyps; split; [done|lia]|].
  destruct (validHash (ehash e)) eqn:E3; simpl; [|split; [done|intros (_ & _ & ? & _); done]].
  destruct (_ <? length (egrew e))%nat eqn:E4.
  - apply Nat.ltb_lt in E4. split; [done|]. intros (_ & _ & _ & ? & _). lia.
  - apply Nat.ltb_ge in E4. bool_hyps. destruct (forallb _ _); split; try done; naive_solver.
Qed.

Lemma grown_ok_spec n p :
  grown_ok n p = true <-> 0 <= pre_size p < n /\ validHash (pre_hash p) = true.
Proof. unfold grown_ok. rewrite negb_true_iff, !orb_false_iff, negb_false_iff, Z.ltb_ge, Z.geb_leb, Z.leb_gt. tauto. Qed.

Lemma grownFrom_ok e prev :
  check prev = None -> ekind prev = File -> esize prev < esize e ->
  (length (egrew (grownFrom e prev)) <= maxGrew)%nat /\
  forallb (grown_ok (esize e)) (egrew (grownFrom e prev)) = true.
Proof.
  intros Hc Hk Hlt. apply (check_file prev Hk) in Hc as (_ & Hs & Hh & Hl & Hg).
  assert (forallb (grown_ok (esize e)) (egrew prev ++ [MkPrefix (esize prev) (ehash prev)]) = true) as Hall.
  { rewrite forallb_app, andb_true_iff. split.
    - apply forallb_forall. intros x Hx. apply (proj1 (forallb_forall _ _) Hg) in Hx.
      rewrite grown_ok_spec in *. naive_solver lia.
    - simpl. rewrite andb_true_r, grown_ok_spec. simpl. split; [lia|done]. }
  unfold grownFrom. simpl egrew. set (g := egrew prev ++ _) in *.
  destruct (maxGrew <? length g)%nat eqn:E.
  - apply Nat.ltb_lt in E. split; [rewrite length_drop; lia|].
    rewrite <- (take_drop (length g - maxGrew) g), forallb_app in Hall. by apply andb_true_iff in Hall as [_ ?].
  - apply Nat.ltb_ge in E. done.
Qed.

Lemma merged_entry_file env p content : ekind (merged_entry env p content) = File.
Proof. unfold merged_entry. by repeat case_match. Qed.

Lemma merged_entry_check env p content : wf_plan p -> check (merged_entry env p content) = None.
Proof.
  intros Hwf. apply check_file; [apply merged_entry_file|]. unfold merged_entry.
  destruct (pl_cur p) as [h|] eqn:Hcur.
  2: { cbn [emode esize ehash egrew]. rewrite fileMode_file_idem. split_and!; auto with fleet; simpl; lia. }
  case_match eqn:E.
  - bool_hyps. pose proof (wf_cur p Hwf h Hcur) as Hc.
    match goal with |- context [grownFrom ?e _] => destruct (grownFrom_ok e (he_entry h)) as [Hg1 Hg2]; [done..|] end.
    split_and!; [|..|done|done]; simpl; auto with fleet; [by rewrite <- Z.land_assoc, Z.land_diag|lia].
  - cbn [emode esize ehash egrew with_mtime]. rewrite fileMode_file_idem. split_and!; auto with fleet; simpl; lia.
Qed.

Section correct.
Context (cfg : hubConf) `{C : !journal_codec hubRecord}.

Lemma blob_put_tree env root data : same_tree root (blob_put env root data).2.
Proof. unfold blob_put. repeat case_match; by split_and!. Qed.

Lemma same_tree_trans a b c : same_tree a b -> same_tree b c -> same_tree a c.
Proof. unfold same_tree. intros (-> & -> & ->). done. Qed.

Lemma store_merged_spec env root p res r root' :
  store_merged env root p res = (r, root') ->
  same_tree root root' /\
  match r with
  | Ok (e, _) => decision res <> Undecided /\ (decision res = Merged -> e = merged_entry env p (m_content res))
  | Err _ => True
  end.
Proof.
  unfold store_merged. pose proof (blob_put_tree env root (m_content res)) as Hb.
  destruct (decision res); [by intros [= <- <-]..|].
  destruct (blob_put env root (m_content res)) as [[h|] root1]; intros [= <- <-]; done.
Qed.

Lemma store_history_spec env root p res h r root' :
  store_history env root p res h = (r, root') -> same_tree root root'.
Proof.
  unfold store_history. case_match; [|by intros [= <- <-]]. case_match; [|by intros [= <- <-]].
  pose proof (blob_put_tree env root a) as Hb. destruct (blob_put env root a) as [[?|] root1]; by intros [= <- <-].
Qed.

(** A decision is well formed and the tree is untouched by the deciding. *)
Lemma hub_decide_spec env store root p r store' root' :
  hub_decide cfg env store root p = (r, store', root') ->
  same_tree root root' /\
  (wf_plan p -> MergerLaws (pl_merger p) -> forall res extra, r = Ok (res, extra) -> wf_decision p res extra).
Proof.
  unfold hub_decide. destruct (verdict env root p) as [res|e] eqn:Hv; [|by intros [= <- <- <-]].
  destruct (store_merged env root p res) as [[[merged hist]|e] root1] eqn:Hm;
    destruct (store_merged_spec _ _ _ _ _ _ Hm) as [Ht Hme]; [|by intros [= <- <- <-]].
  destruct (if conflict res then _ else _) as [[id store1]|e]; [|by intros [= <- <- <-]].
  destruct (store_history env root1 p res hist) as [[h|e] root2] eqn:Hh; apply store_history_spec in Hh;
    intros [= <- <- <-]; (split; [by eapply same_tree_trans|]); [|done].
  intros Hwf Hlaws res' extra [= <- <-]. unfold verdict in Hv. split.
  - intros Hk. rewrite Hk in Hv. by injection Hv as <-.
  - intros Hd. destruct (sh_keep (pl_shape p)); [by injection Hv as <-|].
    destruct (merged_file _ _ Hv Hd) as [Hf _]. destruct Hme as [_ Hme]. simpl. rewrite Hme by done.
    split_and!; [done|apply merged_entry_file|by apply merged_entry_check].
Qed.

(** What the hub relies on: every policy keeps the laws of a merger. *)
Class PoliciesLawful : Prop :=
  policies_lawful pol m : cf_policies cfg pol = Some m -> MergerLaws m.

Lemma keyFor_spec root p loc k m :
  keyFor cfg root p loc = Some (k, m) ->
  k_path k = p /\ (exists pol, cf_policies cfg pol = Some m) /\
  (k_loc k = "" \/ k_loc k = loc).
Proof.
  unfold keyFor, merger. destruct (Table_PolicyFor _ _) as [pol|]; [|done].
  destruct pol; try done; (destruct (cf_policies cfg _) as [m'|] eqn:E; [|done]); case_match; intros [= <- <-]; eauto.
Qed.

(** Other operations keep the tree. *)
Definition keeps_tree (gap : nat -> hubRoot -> hubRoot) : Prop := forall n r, Inv r -> Inv (gap n r).

Lemma attempts_Inv n envs gap store root k m side c base :
  Inv root -> keeps_tree gap -> MergerLaws m ->
  validPath (c_path c) = true -> check (c_entry c) = None -> k_path k = c_path c ->
  Inv (attempts cfg n envs gap store root k m side c base).2.
Proof.
  intros HI Hgap Hm Hv Hc Hk. revert store root HI. induction n as [|n IH]; intros store root HI; [done|].
  cbn [attempts]. set (env := envs (S n)).
  destruct (prepare (ev_now env) root k m side c base) as [[p|ack] root1] eqn:Hp;
    destruct (prepare_spec _ _ _ _ _ _ _ _ _ HI Hp) as [Hst Hwf]; [|by eapply same_tree_Inv].
  destruct (Hwf Hv Hc Hk p eq_refl) as (Hwp & Hpm & _ & _ & _).
  pose proof (Hgap (2 * S n)%nat root1 (same_tree_Inv _ _ Hst HI)) as HI1.
  destruct (hub_decide cfg env store (gap (2 * S n)%nat root1) p) as [[[[res extra]|e] store1] root2] eqn:Hd;
    destruct (hub_decide_spec _ _ _ _ _ _ _ Hd) as [Ht Hwd]; [|by eapply same_tree_Inv].
  pose proof (Hgap (2 * S n + 1)%nat root2 (same_tree_Inv _ _ Ht HI1)) as HI2.
  rewrite <- Hpm in Hm. specialize (Hwd Hwp Hm _ _ eq_refl).
  pose proof (commitPlan_Inv cfg (ev_now env) _ p res extra HI2 Hwp Hwd) as HI3.
  destruct (commitPlan _ _ _ _ _ _) as [[ack|] root3]; [done|]. by apply IH.
Qed.

Lemma process_Inv `{!PoliciesLawful} envs gap store root side c stale :
  Inv root -> keeps_tree gap -> Inv (process cfg envs gap store root side c stale).2.
Proof.
  intros HI Hgap. unfold process. case_match eqn:E; [done|]. apply orb_false_iff in E as [Hv Hc].
  apply negb_false_iff in Hv. destruct (check (c_entry c)) eqn:Hck; [done|].
  destruct (keyFor cfg root (c_path c) (location side)) as [[k m]|] eqn:Hkf; [|done].
  destruct (keyFor_spec _ _ _ _ _ Hkf) as (Hk & (pol & Hpol) & _).
  case_match; [done|]. apply attempts_Inv; auto. by eapply policies_lawful.
Qed.

(** Every answer is about the change it answers. *)
Lemma prepare_answer now root k m side c base a root' :
  prepare now root k m side c base = (inr a, root') -> a_path a = c_path c /\ a_entry a = c_entry c.
Proof.
  unfold prepare. destruct (hr_broken root); [by intros [= <- <-]|]. set (root1 := set_holds _ _).
  destruct (hr_entries root1 !! k);
    repeat (match goal with |- context [if ?b then _ else _] => destruct b; [by intros [= <- <-]|] end); done.
Qed.

Lemma prepare_change now root k m side c base p root' :
  prepare now root k m side c base = (inl p, root') -> pl_change p = c.
Proof.
  unfold prepare. destruct (hr_broken root); [done|]. set (root1 := set_holds _ _).
  destruct (hr_entries root1 !! k);
    repeat (match goal with |- context [if ?b then _ else _] => destruct b; [by intros [=]|] end); by intros [= <- <-].
Qed.

Lemma commitPlan_answer now root p res extra a root' :
  commitPlan cfg now root p res extra = (Some a, root') ->
  a_path a = c_path (pl_change p) /\ a_entry a = c_entry (pl_change p).
Proof. intros H%commitPlan_commits. by inversion H. Qed.

Lemma attempts_answer n envs gap store root k m side c base :
  let a := (attempts cfg n envs gap store root k m side c base).1.1 in a_path a = c_path c /\ a_entry a = c_entry c.
Proof.
  revert store root. induction n as [|n IH]; intros store root; [done|]. cbn [attempts].
  destruct (prepare _ root k m side c base) as [[p|a] root1] eqn:Hp; [|simpl; by eapply prepare_answer].
  apply prepare_change in Hp as <-.
  destruct (hub_decide _ _ _ _ _) as [[[[res extra]|e] store1] root2]; [|done].
  destruct (commitPlan _ _ _ _ _ _) as [[a|] root3] eqn:Hc; [|by apply IH]. simpl. by eapply commitPlan_answer.
Qed.

Lemma process_answer envs gap store root side c stale :
  let a := (process cfg envs gap store root side c stale).1.1 in a_path a = c_path c /\ a_entry a = c_entry c.
Proof.
  unfold process. destruct (_ || _); [done|]. destruct (keyFor _ _ _ _) as [[k m]|]; [|done].
  destruct (_ && _); [done|]. apply attempts_answer.
Qed.

End correct.

(** ** Conflict copies *)

Section conflicts.
Context (cfg : hubConf).

(** The version a decision makes lose. *)
Definition loser_entry (p : plan) (res : MergeResult) : option Entry :=
  match decision res with
  | Accept => he_entry <$> pl_cur p
  | _ => Some (c_entry (pl_change p))
  end.

(** A conflict copy is a faithful one of the version. *)
Definition faithful_copy (copy : Conflict) (e : Entry) : Prop :=
  cn_entry copy = e /\
  match ekind e with
  | File => hashOf (cn_data copy) = ehash e /\ Z.of_nat (String.length (cn_data copy)) = esize e
  | _ => cn_data copy = etarget e
  end.

(** The newest copy survives the pruning. *)
Lemma conflicts_save_newest max store c :
  (0 < max)%nat -> Forall (fun o => Compare (cn_id o) (cn_id c) = Lt) store ->
  c ∈ conflicts_save max store c.
Proof.
  intros Hmax Hold. unfold conflicts_save, conflicts_prune.
  set (cmp := fun a b => Compare (cn_id a) (cn_id b)). set (l := SortFunc cmp (store ++ [c])).
  assert (forall x y, cmp y x = CompOpp (cmp x y)) as Ha by (intros; apply Compare_antisym).
  assert (forall x y z, cmp x y <> Gt -> cmp y z <> Gt -> cmp x z <> Gt) as Ht by (intros x y z; apply Compare_trans_le).
  assert (l ≡ₚ store ++ [c]) as Hperm by apply SortFunc_perm.
  assert (c ∈ l) as (l1 & l2 & Hl)%list_elem_of_split by (rewrite Hperm; apply elem_of_app; right; by left).
  assert (l2 = []) as ->.
  { destruct l2 as [|y l2]; [done|]. exfalso.
    assert (store ≡ₚ l1 ++ y :: l2) as Hst.
    { apply (Permutation_app_inv_r [c]). rewrite <- Hperm, Hl, <- Permutation_middle.
      rewrite (Permutation_app_comm (l1 ++ y :: l2)). done. }
    assert (cmp y c = Lt) as Hlt.
    { rewrite Hst in Hold. rewrite Forall_forall in Hold. apply Hold, elem_of_app. right. by left. }
    assert (cmp c y <> Gt) as Hgt.
    { apply (StronglySorted_before cmp l); [by apply SortFunc_sorted|]. exists l1, [], l2. done. }
    rewrite Ha, Hlt in Hgt. done. }
  rewrite Hl, drop_app_le; [apply elem_of_app; right; by left|]. rewrite length_app. simpl. lia.
Qed.

Lemma loser_content_faithful env e open o :
  ekind e = File \/ ekind e = Symlink -> loser_content env e open = Ok o ->
  exists data, o = Some data /\ forall id t r q l s w, faithful_copy (MkConflict id t r q l s e w data) e.
Proof.
  unfold loser_content, faithful_copy. intros [Hk|Hk]; rewrite Hk; [|intros [= <-]; by eauto].
  destruct (hostRoom env (esize e)); [|done]. simpl.
  intros (d & _ & (d' & Hv & [= <-])%rbind_ok)%rbind_ok. exists d'. split; [done|]. intros.
  unfold verified in Hv. case_match eqn:E; [|done]. injection Hv as <-. bool_hyps. done.
Qed.

(** C26: a decision between two concurrent versions loses neither: when it is to keep the
    losing one, deciding succeeds only with a conflict copy of it in the store, its
    content checked against the loser's size and hash. The store keeps at least one
    copy, and the new copy's id sorts after those stored, as ids made of the time do
    while the clock does not go back; after it did, the copy just saved can be the one
    pruned. *)
Theorem conflict_copy_kept env store root p res extra store' root' e :
  hub_decide cfg env store root p = (Ok (res, extra), store', root') ->
  conflict res = true -> loser_entry p res = Some e -> ekind e = File \/ ekind e = Symlink ->
  (0 < cf_MaxConflicts cfg)%nat ->
  (forall id, ev_save env = Ok id -> Forall (fun o => Compare (cn_id o) id = Lt) store) ->
  exists copy, copy ∈ store' /\ cn_id copy = px_conflict extra /\ cn_path copy = c_path (pl_change p) /\
    faithful_copy copy e.
Proof.
  intros Hd Hc Hl Hk Hmax Hnew. revert Hd. unfold hub_decide.
  destruct (verdict env root p) as [r|]; [|done].
  destruct (store_merged env root p r) as [[[merged hist]|err] root1]; [|done].
  destruct (if conflict r then _ else _) as [[id st]|err] eqn:Hkc; [|done].
  destruct (store_history _ _ _ _ _) as [[h|err] root2]; [|done]. intros [= -> <- <- <-]. simpl.
  rewrite Hc in Hkc. unfold keepConflict in Hkc.
  assert (exists side open, loser env root1 p res = Some (e, side, open)) as (side & open & Hlo).
  { unfold loser, loser_entry in *. destruct (decision res); try (simplify_eq; by eauto).
    destruct (pl_cur p); simplify_eq/=. eauto. }
  rewrite Hlo in Hkc.
  destruct (loser_content env e open) as [o|err] eqn:Hlc; [|done].
  destruct (loser_content_faithful env e open o Hk Hlc) as (data & -> & Hf).
  destruct (ev_save env) as [id'|err] eqn:Hsave; [|done]. injection Hkc as <- <-.
  eexists. split; [apply conflicts_save_newest; [done|by apply Hnew]|]. done.
Qed.
End conflicts.
