(* ===== verification/HubAnswers.v ===== *)
(** * What the hub's answers mean (internal/sharesync/hub_root.go)

    An accepted change is the path's state, under a rev no other state of the
    root has or had; a refused one leaves the state standing. *)

From S2P Require Import Prelude GoStrings Sha256 Entry SyncPolicy Mergers Journal HubState HubCommit HubInvariants HubProcess.
Local Open Scope string_scope.
Local Open Scope Z_scope.
Local Open Scope list_scope.

Section answers.
Context (cfg : hubConf) `{C : !journal_codec hubRecord}.

(** ** The state just set *)

Lemma root_compact_fresh now root k e :
  0 <= cf_TombstoneTTL cfg -> hr_entries root !! k = Some e -> now <= he_at e ->
  hr_entries (root_compact cfg now root).2 !! k = Some e.
Proof.
  intros Httl Hk Hat.
  assert (hr_entries (root_compact cfg now root).2 =
    filter (fun ke => forgettable root (now - cf_TombstoneTTL cfg) ke.1 ke.2 = false) (hr_entries root)) as ->.
  { unfold root_compact. by destruct (compact _ _ _) as [[[?|] j] d]. }
  apply map_lookup_filter_Some. split; [done|]. simpl. unfold forgettable.
  rewrite (proj2 (Z.ltb_ge _ _)) by lia. by rewrite andb_false_r.
Qed.

Lemma setEntry_lookup now root k e o b h ex ne root' :
  0 <= cf_TombstoneTTL cfg -> setEntry cfg now root k e o b h ex = (Ok ne, root') ->
  hr_entries root' !! k = Some ne.
Proof.
  intros Httl Hs. destruct (setEntry_ok _ _ _ _ _ _ _ _ _ _ _ Hs) as (Hne & root1 & He & _ & _ & _ & _ & _ & _ & _ & Hroot).
  assert (hr_entries root1 !! k = Some ne) as Hk by (by rewrite He, lookup_insert_eq).
  destruct Hroot as [->| ->]; [done|]. apply root_compact_fresh; [done..|]. by subst ne.
Qed.

(** ** Revs *)

(** Every state's rev was handed out, and no two states share one. *)
Record RevInv (root : hubRoot) : Prop := {
  rev_range : 0 <= hr_rev root < 2 ^ 64;
  rev_bound k e : hr_entries root !! k = Some e -> 0 < he_rev e <= hr_rev root;
  rev_unique k k' e e' : hr_entries root !! k = Some e -> hr_entries root !! k' = Some e' ->
    he_rev e = he_rev e' -> k = k'
}.

Lemma RevInv_sub root root' :
  hr_rev root' = hr_rev root -> (forall k e, hr_entries root' !! k = Some e -> exists e0, hr_entries root !! k = Some e0 /\ he_rev e0 = he_rev e) ->
  RevInv root -> RevInv root'.
Proof.
  intros Hr Hsub [H1 H2 H3]. split; rewrite ?Hr; [done|..].
  - intros k e Hk. destruct (Hsub k e Hk) as (e0 & H0 & <-). eauto.
  - intros k k' e e' Hk Hk' E. destruct (Hsub _ _ Hk) as (e0 & H0 & E0). destruct (Hsub _ _ Hk') as (e1 & H1' & E1).
    eapply H3; eauto. congruence.
Qed.

Lemma RevInv_same root root' :
  hr_rev root' = hr_rev root -> hr_entries root' = hr_entries root -> RevInv root -> RevInv root'.
Proof. intros Hr He. apply RevInv_sub; [done|]. rewrite He. eauto. Qed.

Lemma root_compact_rev now root : RevInv root -> RevInv (root_compact cfg now root).2.
Proof.
  intros HR. eapply RevInv_sub; [..|exact HR].
  - unfold root_compact. by destruct (compact _ _ _) as [[[?|] j] d].
  - intros k e Hk. exists e. split; [|done].
    unfold root_compact in Hk. destruct (compact _ _ _) as [[[?|] j] d]; simpl in Hk;
      by apply map_lookup_filter_Some in Hk as [? _].
Qed.

Lemma setEntry_rev now root k e o b h ex r root' :
  RevInv root -> hr_rev root + 1 < 2 ^ 64 -> setEntry cfg now root k e o b h ex = (r, root') ->
  RevInv root' /\ hr_rev root <= hr_rev root' <= hr_rev root + 1 /\
  (forall ne, r = Ok ne -> he_rev ne = hr_rev root + 1 /\ hr_rev root' = hr_rev root + 1).
Proof.
  intros HR Hroom Hs. pose proof (rev_range _ HR) as Hrange. destruct r as [ne|err].
  - destruct (setEntry_ok _ _ _ _ _ _ _ _ _ _ _ Hs) as (Hne & root1 & He & _ & _ & _ & Hr & _ & _ & _ & Hroot).
    rewrite u64_small in Hr, Hne by lia.
    assert (RevInv root1) as HR1.
    { split; rewrite ?Hr; [lia|..].
      - intros k' e'. rewrite He. destruct (base.decide (k = k')) as [<-|Hk].
        + rewrite lookup_insert_eq. intros [= <-]. subst ne. simpl. lia.
        + rewrite lookup_insert_ne by done. intros H%(rev_bound _ HR). lia.
      - intros k1 k2 e1 e2. rewrite He.
        destruct (base.decide (k = k1)) as [<-|Hk1], (base.decide (k = k2)) as [<-|Hk2];
          rewrite ?lookup_insert_eq, ?lookup_insert_ne by done; try done.
        + intros [= <-] H2%(rev_bound _ HR) E. subst ne. simpl in E. lia.
        + intros H1%(rev_bound _ HR) [= <-] E. subst ne. simpl in E. lia.
        + apply (rev_unique _ HR). }
    assert (RevInv root' /\ hr_rev root' = hr_rev root + 1) as [HR' Hr'].
    { destruct Hroot as [->| ->]; [done|]. split; [by apply root_compact_rev|].
      rewrite <- Hr. unfold root_compact. by destruct (compact _ _ _) as [[[?|] j] d]. }
    split_and!; [done|lia..|]. intros ne' [= <-]. subst ne. done.
  - apply setEntry_err in Hs as ((He & _) & _ & _ & Hr). specialize (Hr Hrange).
    split_and!; [|lia..|done]. eapply RevInv_sub; [exact Hr|..|exact HR]. rewrite He. eauto.
Qed.

Lemma resurrect_dirs_rev now side ds root r root' :
  RevInv root -> hr_rev root + Z.of_nat (length ds) < 2 ^ 64 ->
  resurrect_dirs cfg now root side ds = (r, root') ->
  RevInv root' /\ hr_rev root <= hr_rev root' <= hr_rev root + Z.of_nat (length ds).
Proof.
  revert root. induction ds as [|[a mode] ds IH]; intros root HR Hroom; simpl.
  { intros [= <- <-]. split; [done|lia]. }
  simpl length in Hroom. destruct (setEntry _ _ _ _ _ _ _ _ _) as [r1 root1] eqn:Es.
  destruct (setEntry_rev _ _ _ _ _ _ _ _ _ _ HR ltac:(lia) Es) as (HR1 & Hle & _).
  destruct r1; [|intros [= <- <-]; split; [done|lia]].
  intros Hrest. destruct (IH root1 HR1 ltac:(lia) Hrest). split; [done|lia].
Qed.

Lemma unvouch_rev root k e id : hr_entries root !! k = Some e -> RevInv root -> RevInv (unvouch root k e id).
Proof.
  intros Hk HR. unfold unvouch. case_match; [done|]. destruct (Journal.commit _ _) as [[? j] d].
  eapply RevInv_sub; [..|exact HR]; [done|]. simpl. intros k' e'.
  destruct (base.decide (k = k')) as [<-|Hne]; [rewrite lookup_insert_eq; intros [= <-]; by exists e|].
  rewrite lookup_insert_ne by done. eauto.
Qed.

(** A root never hands a rev out twice: after any commit no two states share
    a rev, every rev is at most the root's, and an accepted or merged change
    has a rev above every rev before it (while the 64-bit counter has room). *)
Theorem commitPlan_revs now root p res extra ack root' :
  RevInv root -> hr_rev root + Z.of_nat (length (sh_resurrect (pl_shape p))) + 1 < 2 ^ 64 ->
  commitPlan cfg now root p res extra = (ack, root') ->
  RevInv root' /\ hr_rev root <= hr_rev root' /\
  (forall a, ack = Some a -> a_status a = Accepted \/ (a_status a = Superseded /\ decision res = Merged) ->
     hr_rev root < a_rev a <= hr_rev root').
Proof.
  intros HR Hroom Hcp.
  assert (length (zip (sh_resurrect (pl_shape p)) (sh_modes (pl_shape p))) <= length (sh_resurrect (pl_shape p)))%nat as Hz
    by (rewrite length_zip_with; lia).
  destruct (commitPlan_commits _ _ _ _ _ _ _ _ Hcp)
    as [|h|rev root' Hk Hr|err root1 Hp Hres|root1 entry o ex hist err root2 Hp Hres Hs Hset
       |root1 entry o ex hist ne root2 blobs st Hp Hres Hs Hset ->].
  - split_and!; [done|lia|done].
  - split_and!; [by apply (RevInv_same root)|simpl; lia|by intros a [= <-] [?|[??]]].
  - assert (RevInv root' /\ hr_rev root' = hr_rev root) as [? ?].
    { destruct Hr as [->|(e & He & ->)]; [split; [by apply (RevInv_same root)|done]|]. split.
      - apply unvouch_rev; [done|]. by apply (RevInv_same root).
      - unfold unvouch. case_match; [done|]. by destruct (Journal.commit _ _) as [[? ?] ?]. }
    split_and!; [done|lia|]. intros a [= <-] [?|[_ ?]]; [done|congruence].
  - apply resurrect_dirs_rev in Hres as [HR1 Hle]; [|done|lia]. split_and!; [done|lia|by intros a [= <-] [?|[??]]].
  - apply resurrect_dirs_rev in Hres as [HR1 Hle]; [|done|lia].
    destruct (setEntry_rev _ _ _ _ _ _ _ _ _ _ HR1 ltac:(lia) Hset) as (HR2 & Hle2 & _).
    split_and!; [done|lia|by intros a [= <-] [?|[??]]].
  - apply resurrect_dirs_rev in Hres as [HR1 Hle]; [|done|lia].
    destruct (setEntry_rev _ _ _ _ _ _ _ _ _ _ HR1 ltac:(lia) Hset) as (HR2 & Hle2 & Hok).
    destruct (Hok ne eq_refl) as [Hn Hr2].
    split_and!; [by apply (RevInv_same root2)|simpl; lia|intros a [= <-] _; simpl; lia].
Qed.
(** ** Answers *)

Lemma on_side_lookup root id f sr :
  hr_sides (on_side root id f) !! id = Some sr -> exists sr0, hr_sides root !! id = Some sr0 /\ sr = f sr0.
Proof.
  simpl. rewrite lookup_alter_eq. destruct (hr_sides root !! id); simpl; [|done]. intros [= <-]. eauto.
Qed.

(** What the hub knows a side holds of a path. *)
Definition holds_as (root : hubRoot) (id p : string) (h : option Z) : Prop :=
  forall sr, hr_sides root !! id = Some sr -> sr_held sr !! p = h.

(** The hub will look at the path for the side. *)
Definition will_send (root : hubRoot) (id p : string) : Prop :=
  forall sr, hr_sides root !! id = Some sr -> keeps sr p = true -> is_Some (sr_dirty sr !! p).

Lemma mark_since_some p now d : is_Some (mark_since p now d !! p).
Proof. unfold mark_since. destruct (d !! p) eqn:E; [by rewrite E|rewrite lookup_insert_eq]; eauto. Qed.

Lemma mark_dirty sr p now : keeps sr p = true -> is_Some (sr_dirty (mark sr p now) !! p).
Proof. unfold mark. intros ->. simpl. apply mark_since_some. Qed.

Lemma mark_held sr p now : sr_held (mark sr p now) = sr_held sr.
Proof. unfold mark. by case_match. Qed.

Lemma mark_keeps sr p now q : keeps (mark sr p now) q = keeps sr q.
Proof. unfold mark. by destruct (negb (keeps sr p)). Qed.

Lemma refused_side now root c id :
  holds_as (on_side root id (refused_at now c)) id (c_path c) (if Live (c_entry c) then Some 0 else None) /\
  will_send (on_side root id (refused_at now c)) id (c_path c).
Proof.
  split; intros sr (sr0 & _ & ->)%on_side_lookup; unfold refused_at.
  - rewrite mark_held. case_match; simpl; [apply lookup_insert_eq|apply lookup_delete_eq].
  - rewrite mark_keeps. apply mark_dirty.
Qed.

Lemma held_side root p id ne :
  holds_as (on_side root id (fun sr => held_at sr p ne)) id p (if Live (he_entry ne) then Some (he_rev ne) else None).
Proof.
  intros sr (sr0 & _ & ->)%on_side_lookup. unfold held_at.
  case_match; simpl; [apply lookup_insert_eq|apply lookup_delete_eq].
Qed.

Lemma unvouch_entry root k e id :
  hr_entries root !! k = Some e ->
  exists e', hr_entries (unvouch root k e id) !! k = Some e' /\ he_entry e' = he_entry e /\ he_rev e' = he_rev e /\
    hr_sides (unvouch root k e id) = hr_sides root /\
    (he_origin e = id -> he_base e' = he_rev e).
Proof.
  intros Hk. unfold unvouch. case_match eqn:E.
  - exists e. split_and!; try done. intros Ho. rewrite Ho, String.eqb_refl in E. simpl in E. by apply Z.eqb_eq in E.
  - destruct (Journal.commit _ _) as [[? j] d]. simpl. rewrite lookup_insert_eq. eexists. by split_and!.
Qed.

(** A path's content as sides see it, with its rev: none for a deleted one,
    whose tombstone compaction may forget. *)
Definition live_state (e : option hubEntry) : option (Entry * Z) :=
  match e with Some e => if Live (he_entry e) then Some (he_entry e, he_rev e) else None | None => None end.

(** What stands elsewhere than in [keys], and what each side holds, is as it was. *)
Definition untouched (keys : list key) (root root' : hubRoot) : Prop :=
  (forall k, k ∉ keys -> live_state (hr_entries root' !! k) = live_state (hr_entries root !! k)) /\
  (forall id sr', hr_sides root' !! id = Some sr' -> exists sr, hr_sides root !! id = Some sr /\ sr_held sr' = sr_held sr).

Lemma untouched_trans ks ks' r1 r2 r3 : untouched ks r1 r2 -> untouched ks' r2 r3 -> untouched (ks ++ ks') r1 r3.
Proof.
  intros [H1 H2] [H3 H4]. split.
  - intros k Hk. rewrite H3, H1; [done|..]; intros ?; apply Hk, elem_of_app; auto.
  - intros id sr3 Hs. destruct (H4 _ _ Hs) as (sr2 & Hs2 & ->). by destruct (H2 _ _ Hs2) as (sr1 & ? & ->); eauto.
Qed.

Lemma untouched_mono ks ks' r1 r2 : ks ⊆ ks' -> untouched ks r1 r2 -> untouched ks' r1 r2.
Proof. intros Hsub [H1 H2]. split; [|done]. intros k Hk. apply H1. auto. Qed.

Lemma untouched_same root root' : hr_entries root' = hr_entries root -> hr_sides root' = hr_sides root -> untouched [] root root'.
Proof. intros He Hs. split; [by rewrite He|]. rewrite Hs. eauto. Qed.

Lemma root_compact_untouched now root : untouched [] root (root_compact cfg now root).2.
Proof.
  assert (hr_sides (root_compact cfg now root).2 = hr_sides root /\ hr_entries (root_compact cfg now root).2 =
    filter (fun ke => forgettable root (now - cf_TombstoneTTL cfg) ke.1 ke.2 = false) (hr_entries root)) as [Hs He].
  { unfold root_compact. by destruct (compact _ _ _) as [[[?|] j] d]. }
  split; rewrite ?Hs, ?He; [|eauto]. intros k _. rewrite map_lookup_filter.
  destruct (hr_entries root !! k) as [e|]; simpl; [|done]. unfold guard. case_decide as Hf; [done|].
  simpl. unfold forgettable in Hf. by destruct (Live (he_entry e)).
Qed.

Lemma setEntry_untouched now root k e o b h ex r root' :
  setEntry cfg now root k e o b h ex = (r, root') -> untouched (if r is Ok _ then [k] else []) root root'.
Proof.
  intros Hs. destruct r as [ne|err].
  - destruct (setEntry_ok _ _ _ _ _ _ _ _ _ _ _ Hs) as (_ & root1 & He & _ & _ & Hsd & _ & _ & _ & _ & Hroot).
    assert (untouched [k] root root1) as H1.
    { split; [intros k' Hk'; rewrite He, lookup_insert_ne; [done|]; intros ->; apply Hk', list_elem_of_singleton; done|].
      intros id sr'. rewrite Hsd. unfold markDirty. simpl. rewrite map_lookup_imap.
      destruct (hr_sides root !! id) as [sr|]; simpl; [|done]. intros [= <-]. exists sr. split; [done|]. case_match; [apply mark_held|done]. }
    destruct Hroot as [->| ->]; [done|]. exact (untouched_trans [k] [] _ _ _ H1 (root_compact_untouched now root1)).
  - apply setEntry_err in Hs as ((He & _) & Hsd & _). by apply untouched_same.
Qed.

Lemma resurrect_untouched now side ds root r root' :
  resurrect_dirs cfg now root side ds = (r, root') -> untouched (map (fun d => MkKey "" d.1) ds) root root'.
Proof.
  revert root. induction ds as [|[a mode] ds IH]; intros root; simpl.
  { intros [= <- <-]. by apply untouched_same. }
  destruct (setEntry _ _ _ _ _ _ _ _ _) as [r1 root1] eqn:Es. apply setEntry_untouched in Es. destruct r1 as [ne|err].
  - intros Hr. exact (untouched_trans [_] _ _ _ _ Es (IH _ Hr)).
  - intros [= <- <-]. eapply untouched_mono; [|exact Es]. by intros ? ?%elem_of_nil.
Qed.

Lemma resurrect_plan_untouched now root p r root' :
  resurrect cfg now root p = (r, root') -> untouched (map (MkKey "") (sh_resurrect (pl_shape p))) root root'.
Proof.
  intros H. eapply untouched_mono; [|by eapply resurrect_untouched]. intros k ([a m] & -> & Hin%list_elem_of_In)%list_elem_of_fmap.
  apply list_elem_of_fmap. exists a. split; [done|]. apply list_elem_of_In. by eapply in_combine_l.
Qed.

(** C13: the answer to a change says what became of it. Accepted: the change is
    the path's state at the acked rev, and the hub counts the side as holding
    it. Superseded: the path's state is the merged file at the acked rev, or
    the state that stood before (same content, same rev), the side counts as
    holding unknown content (or none, for a refused delete) and is sent the
    state. Deferred: nothing of any path but folders gone above the change that
    it was to bring back has changed, neither its content nor its rev, and no
    side counts as holding anything else than before. No answer: nothing
    happened and the change is planned again. *)
Theorem commitPlan_answers now root p res extra ack root' :
  0 <= cf_TombstoneTTL cfg -> commitPlan cfg now root p res extra = (ack, root') ->
  let c := pl_change p in let id := side_id (pl_side p) in let k := pl_key p in
  match ack with
  | None => root' = root
  | Some a =>
      match a_status a with
      | Accepted => exists e, hr_entries root' !! k = Some e /\ he_entry e = c_entry c /\ he_rev e = a_rev a /\
          he_origin e = id /\ holds_as root' id (c_path c) (if Live (c_entry c) then Some (a_rev a) else None)
      | Superseded =>
          (decision res = Merged /\ exists e, hr_entries root' !! k = Some e /\ he_entry e = px_merged extra /\
             he_rev e = a_rev a /\ he_origin e = "" /\ holds_as root' id (c_path c) (Some 0)) \/
          (decision res = Keep /\
             (fun e => (he_entry e, he_rev e)) <$> hr_entries root' !! k =
               (fun e => (he_entry e, he_rev e)) <$> hr_entries root !! k /\
             holds_as root' id (c_path c) (if Live (c_entry c) then Some 0 else None) /\
             will_send root' id (c_path c))
      | Deferred => untouched (map (MkKey "") (sh_resurrect (pl_shape p))) root root'
      | Ignored => False
      end
  end.
Proof.
  intros Httl Hcp. cbv zeta. destruct (refused_side now root (pl_change p) (side_id (pl_side p))) as [Hh Hw].
  destruct (commitPlan_commits _ _ _ _ _ _ _ _ Hcp)
    as [|h|rev root' Hk [->|(e & He & ->)]|err root1 Hp Hres|root1 entry o ex hist err root2 Hp Hres Hs Hset
       |root1 entry o ex hist ne root2 blobs st Hp Hres Hs Hset ->]; [done|..]; simpl.
  - apply (untouched_mono []); [by intros ? ?%elem_of_nil|by apply untouched_same].
  - by right.
  - right. destruct (unvouch_entry (on_side root (side_id (pl_side p)) (refused_at now (pl_change p)))
      (pl_key p) e (side_id (pl_side p)) He) as (e' & He' & Hee & Hre & Hsd & _).
    unfold plan_cur in He. unfold holds_as, will_send in *. rewrite He', Hsd, He. simpl. by rewrite Hee, Hre.
  - by eapply resurrect_plan_untouched.
  - rewrite <- (app_nil_r (map _ _)). eapply untouched_trans; [by eapply resurrect_plan_untouched|]. exact (setEntry_untouched _ _ _ _ _ _ _ _ _ _ Hset).
  - pose proof (setEntry_lookup _ _ _ _ _ _ _ _ _ _ Httl Hset) as Hlk.
    destruct (setEntry_ok _ _ _ _ _ _ _ _ _ _ _ Hset) as (Hne & _).
    unfold sets in Hs. case_bool_decide as Hm; injection Hs as <- <- <-; simpl.
    + left. split; [done|]. exists ne. split_and!; try done; [by subst ne..|].
      intros sr (sr0 & _ & ->)%on_side_lookup. apply lookup_insert_eq.
    + exists ne. split_and!; try done; [by subst ne..|].
      pose proof (held_side (set_blobs root2 blobs) (c_path (pl_change p)) (side_id (pl_side p)) ne) as Hhs.
      subst ne. exact Hhs.
Qed.
(** ** The size cap *)

(** The bytes a root's live entries add up to. *)
Definition root_bytes (root : hubRoot) : Z := map_sum bytes_at (hr_entries root).

(** Sizes as sides report them: only files have one. *)
Definition flat (e : Entry) : Prop := Live e = true -> ekind e <> File -> esize e = 0.

Definition Flat (root : hubRoot) : Prop := forall k e, hr_entries root !! k = Some e -> flat (he_entry e).

Lemma liveSize_nonneg e : flat (he_entry e) -> check (he_entry e) = None -> 0 <= liveSize (Some e).
Proof.
  intros Hf Hc. unfold liveSize, live_hub, size_of. destruct (Live (he_entry e)) eqn:Hl; [|lia].
  destruct (base.decide (ekind (he_entry e) = File)); [by apply check_size|rewrite Hf by done; lia].
Qed.

Lemma Flat_liveSize root k : Inv root -> Flat root -> 0 <= liveSize (hr_entries root !! k).
Proof.
  intros HI HF. destruct (hr_entries root !! k) as [e|] eqn:E; [|done].
  apply liveSize_nonneg; [by eapply HF|]. by apply (inv_valid _ _ _ HI k e).
Qed.

Lemma pruned_liveSize es es' k : pruned es es' -> liveSize (es' !! k) = liveSize (es !! k).
Proof.
  intros [H1 H2]. destruct (es' !! k) as [e|] eqn:E; [by rewrite (H1 _ _ E)|].
  destruct (es !! k) as [e|] eqn:E'; [|done]. unfold liveSize, live_hub.
  destruct (Live (he_entry e)) eqn:Hl; [|done]. rewrite (H2 _ _ E' Hl) in E. done.
Qed.

Lemma root_compact_bytes now root : root_bytes (root_compact cfg now root).2 = root_bytes root.
Proof.
  unfold root_bytes.
  assert (hr_entries (root_compact cfg now root).2 =
    filter (fun ke => forgettable root (now - cf_TombstoneTTL cfg) ke.1 ke.2 = false) (hr_entries root)) as ->.
  { unfold root_compact. by destruct (compact _ _ _) as [[[?|] j] d]. }
  apply map_sum_filter. intros k e _ H%not_false_iff_true. simpl in H. unfold forgettable in H. bool_hyps.
  unfold bytes_at, liveSize. simpl. by rewrite H.
Qed.

Lemma setEntry_bytes now root k e o b h ex ne root' :
  setEntry cfg now root k e o b h ex = (Ok ne, root') ->
  root_bytes root' = root_bytes root - liveSize (hr_entries root !! k) + liveSize (Some ne) /\
  hr_cap root' = hr_cap root /\ (Flat root -> flat e -> Flat root').
Proof.
  intros Hs.
  assert (hr_cap root' = hr_cap root) as Hcap.
  { revert Hs. unfold setEntry, landed, root_compact. repeat case_match; intros [= _ <-]; simplify_eq; done. }
  destruct (setEntry_ok _ _ _ _ _ _ _ _ _ _ _ Hs) as (Hne & root1 & He & _ & _ & _ & _ & _ & _ & _ & Hroot).
  assert (root_bytes root1 = root_bytes root - liveSize (hr_entries root !! k) + liveSize (Some ne)) as Hb1.
  { unfold root_bytes. rewrite He, map_sum_insert, bytes_at_key. done. }
  assert (Flat root -> flat e -> Flat root1) as HF1.
  { intros HF Hf k' e'. rewrite He. destruct (base.decide (k = k')) as [<-|Hk'].
    - rewrite lookup_insert_eq. intros [= <-]. by subst ne.
    - rewrite lookup_insert_ne by done. apply HF. }
  destruct Hroot as [->| ->]; [done|]. rewrite root_compact_bytes. split_and!; [done..|].
  intros HF Hf k' e' Hk'. apply (HF1 HF Hf k'). unfold root_compact in Hk'.
  destruct (compact _ _ _) as [[[?|] j] d]; simpl in Hk'; by apply map_lookup_filter_Some in Hk' as [? _].
Qed.

(** Bringing folders back adds no bytes, here or elsewhere. *)
Lemma resurrect_dirs_bytes now side ds root r root' k :
  Inv root -> Flat root -> Forall (fun a => validPath a = true) ds.*1 ->
  (forall l1 a l2, ds.*1 = l1 ++ a :: l2 ->
     path_Dir a = "." \/ path_Dir a ∈ l1 \/ dir_at (hr_entries root) (path_Dir a)) ->
  k_path k ∉ ds.*1 ->
  resurrect_dirs cfg now root side ds = (r, root') ->
  root_bytes root' <= root_bytes root /\ hr_cap root' = hr_cap root /\ Flat root' /\
  liveSize (hr_entries root' !! k) = liveSize (hr_entries root !! k).
Proof.
  revert root. induction ds as [|[a mode] ds IH]; intros root HI HF Hv Hchain Hnk.
  { intros [= <- <-]. split_and!; try done. }
  intros Hres. pose proof Hres as Hres'. simpl in Hres.
  destruct (setEntry _ _ _ _ _ _ _ _ _) as [[ne|e] root1] eqn:Es.
  2: { injection Hres as <- <-. pose proof Es as Hcap. apply setEntry_err in Es as ((He & _) & _).
       unfold root_bytes, Flat. rewrite He. split_and!; try done.
       revert Hcap. unfold setEntry. repeat case_match; intros [= _ <-]; done. }
  destruct (setEntry_bytes _ _ _ _ _ _ _ _ _ _ Es) as (Hb & Hc & HF1). specialize (HF1 HF).
  destruct (setEntry_ok _ _ _ _ _ _ _ _ _ _ _ Es) as (Hne & _).
  inversion Hv as [|?? Hva Hvs]; subst.
  destruct (setEntry_Inv _ _ _ _ _ _ _ _ _ _ _ HI Es) as (HI1 & Hp & _); [done|apply fileMode_dir_check| |done|].
  { intros _. destruct (Hchain [] a ds.*1 eq_refl) as [?|[?%elem_of_nil|?]]; [by left|done|by right]. }
  destruct (IH root1) as (Hb' & Hc' & HF' & Hl'); try done.
  - by apply HF1.
  - intros l1 x l2 Hx. destruct (Hchain (a :: l1) x l2) as [?|[[->|?]%elem_of_cons|Hd]]; [by simpl; f_equal|..]; auto.
    + right. right. eapply pruned_dir; [done|]. eexists. by rewrite lookup_insert_eq.
    + right. right. eapply pruned_dir; [done|]. by apply dir_at_insert.
  - intros ?. apply Hnk. by right.
  - pose proof (Flat_liveSize root (MkKey "" a) HI HF). unfold liveSize at 2 in Hb. simpl in Hb.
    split_and!; [lia|congruence|done|]. rewrite Hl', (pruned_liveSize _ _ _ Hp), lookup_insert_ne; [done|].
    intros <-. apply Hnk. left.
Qed.
Lemma not_own_ancestor s : valid_elems s = true -> s ∉ ancestors s.
Proof. intros Hv Ha. destruct (ancestors_valid s s Hv Ha). lia. Qed.

Lemma unvouch_bytes root k e id :
  hr_entries root !! k = Some e ->
  forall f, let root' := unvouch (on_side root id f) k e id in
  root_bytes root <= hr_cap root -> root_bytes root' <= hr_cap root /\ hr_cap root' = hr_cap root.
Proof.
  intros He f. cbv zeta. unfold unvouch. case_match; [done|].
  destruct (Journal.commit _ _) as [[? ?] ?]. unfold root_bytes. simpl.
  rewrite map_sum_insert, He. set (e' := MkHub _ _ _ _ _ _).
  change (bytes_at k e') with (bytes_at k e). cbn [at_key]. intros. split; [lia|done].
Qed.

Lemma setEntry_err_bytes now root k e o b h ex err root' :
  setEntry cfg now root k e o b h ex = (Err err, root') ->
  root_bytes root' = root_bytes root /\ hr_cap root' = hr_cap root.
Proof.
  intros Hs. pose proof Hs as ((He & _) & _)%setEntry_err. unfold root_bytes. rewrite He. split; [done|].
  revert Hs. unfold setEntry. repeat case_match; intros [= _ <-]; done.
Qed.

Lemma resurrect_bytes now root p res extra r root1 :
  Inv root -> Flat root -> wf_plan p -> wf_decision p res extra -> passed root p res extra ->
  resurrect cfg now root p = (r, root1) ->
  root_bytes root1 <= root_bytes root /\ hr_cap root1 = hr_cap root /\
  liveSize (hr_entries root1 !! pl_key p) = liveSize (plan_cur root p).
Proof.
  intros HI HF Hwf Hwd Hp Hres. pose proof (passed_keep _ _ _ _ Hwf Hwd Hp) as Hk.
  destruct (resurrect_ready root p _ Hwf Hk (pa_shape _ _ _ _ Hp)) as (_ & Hv & Hsub & Hchain).
  assert (k_path (pl_key p) ∉ (zip (sh_resurrect (pl_shape p)) (sh_modes (pl_shape p))).*1) as Hnin.
  { rewrite (wf_key p Hwf). intros Hin%Hsub. apply (not_own_ancestor (c_path (pl_change p))); [|done].
    apply validPath_elems, (wf_path p Hwf). }
  destruct (resurrect_dirs_bytes _ _ _ _ _ _ (pl_key p) HI HF Hv Hchain Hnin Hres) as (? & ? & _ & ?). done.
Qed.

(** The cap guard's sum is the true one. *)
Lemma passed_bytes root p res extra entry o ex :
  Inv root -> Flat root -> wf_plan p -> wf_decision p res extra -> passed root p res extra ->
  flat (c_entry (pl_change p)) ->
  0 < hr_cap root < 2 ^ 62 -> root_bytes root <= hr_cap root ->
  esize (c_entry (pl_change p)) < 2 ^ 62 -> esize (px_merged extra) < 2 ^ 62 ->
  sets p res extra = (entry, o, ex) ->
  root_bytes root - liveSize (plan_cur root p) <= hr_cap root /\
  (Live entry = true -> root_bytes root - liveSize (plan_cur root p) + esize entry <= hr_cap root).
Proof.
  intros HI HF Hwf Hwd Hp Hfl Hcap Hunder Hs1 Hs2 Hs.
  pose proof (Flat_liveSize root (pl_key p) HI HF) as Hold. fold (plan_cur root p) in Hold.
  split; [lia|]. intros Hl. destruct (sets_spec _ _ _ _ _ _ Hwf Hwd Hs) as (Hce & _ & _ & Hsz).
  assert (liveSize (plan_cur root p) <= root_bytes root) as Hle.
  { unfold root_bytes. rewrite <- bytes_at_key with (k := pl_key p). unfold plan_cur in *.
    destruct (hr_entries root !! pl_key p) as [e|] eqn:He; simpl.
    - rewrite (map_sum_delete _ _ _ _ He). assert (0 <= map_sum bytes_at (delete (pl_key p) (hr_entries root))); [|lia].
      apply map_sum_nonneg. intros k v [_ Hv]%lookup_delete_Some. unfold bytes_at. rewrite <- Hv. by apply Flat_liveSize.
    - apply map_sum_nonneg. intros k v Hv. unfold bytes_at. rewrite <- Hv. by apply Flat_liveSize. }
  destruct (base.decide (ekind (c_entry (pl_change p)) = File \/ decision res = Merged)) as [Hf|Hf].
  - pose proof (pa_cap _ _ _ _ Hp Hf) as Hover. rewrite <- Hsz in Hover.
    assert (0 <= esize entry < 2 ^ 62) as Hrange.
    { split; [|rewrite Hsz; unfold set_size; case_match; lia]. apply check_size; [done|].
      unfold sets in Hs. case_bool_decide as Hm; injection Hs as <- _ _; [by apply (wf_merged _ _ _ Hwd)|tauto]. }
    unfold overCap in Hover. rewrite (inv_total _ _ _ HI) in Hover. fold (root_bytes root) in Hover.
    rewrite (wrap64_small (root_bytes root)), (wrap64_small (esize entry - _)) in Hover by lia.
    rewrite (wrap64_small (_ + _)) in Hover by lia.
    rewrite (proj2 (Z.ltb_lt 0 (hr_cap root))) in Hover by lia. simpl in Hover.
    apply andb_false_iff in Hover as [H|H]; bool_hyps; lia.
  - assert (entry = c_entry (pl_change p)) as -> by (unfold sets in Hs; rewrite bool_decide_eq_false_2 in Hs by tauto; congruence).
    rewrite Hfl by tauto. lia.
Qed.

(** C27: a commit never takes a root past its size cap: under the cap before, it
    is under the cap after, as long as the sizes involved add up within 64 bits
    and only files report a size. *)
Theorem commitPlan_cap now root p res extra :
  Inv root -> Flat root -> wf_plan p -> wf_decision p res extra -> flat (c_entry (pl_change p)) ->
  0 < hr_cap root < 2 ^ 62 -> root_bytes root <= hr_cap root ->
  esize (c_entry (pl_change p)) < 2 ^ 62 -> esize (px_merged extra) < 2 ^ 62 ->
  let root' := (commitPlan cfg now root p res extra).2 in
  root_bytes root' <= hr_cap root /\ hr_cap root' = hr_cap root.
Proof.
  intros HI HF Hwf Hwd Hfl Hcap Hunder Hs1 Hs2.
  destruct (commitPlan cfg now root p res extra) as [ack root'] eqn:Hcp. simpl.
  destruct (commitPlan_commits _ _ _ _ _ _ _ _ Hcp)
    as [|h|rev root' Hk [->|(e & He & ->)]|err root1 Hp Hres|root1 entry o ex hist err root2 Hp Hres Hs Hset
       |root1 entry o ex hist ne root2 blobs st Hp Hres Hs Hset _]; try done.
  - by apply unvouch_bytes.
  - destruct (resurrect_bytes _ _ _ _ _ _ _ HI HF Hwf Hwd Hp Hres) as (? & ? & _). split; [lia|done].
  - destruct (resurrect_bytes _ _ _ _ _ _ _ HI HF Hwf Hwd Hp Hres) as (? & ? & _).
    destruct (setEntry_err_bytes _ _ _ _ _ _ _ _ _ _ Hset) as [-> ->]. split; [lia|done].
  - destruct (resurrect_bytes _ _ _ _ _ _ _ HI HF Hwf Hwd Hp Hres) as (Hb & Hc & Hl).
    destruct (setEntry_bytes _ _ _ _ _ _ _ _ _ _ Hset) as (Hb2 & Hc2 & _).
    destruct (setEntry_ok _ _ _ _ _ _ _ _ _ _ _ Hset) as (Hne & _).
    change (root_bytes root2 <= hr_cap root /\ hr_cap root2 = hr_cap root). split; [|congruence].
    rewrite Hb2, Hl. pose proof (passed_bytes _ _ _ _ _ _ _ HI HF Hwf Hwd Hp Hfl Hcap Hunder Hs1 Hs2 Hs) as [Hp1 Hp2].
    assert (liveSize (Some ne) = if Live entry then esize entry else 0) as -> by (by subst ne).
    destruct (Live entry); [specialize (Hp2 eq_refl)|]; lia.
Qed.
End answers.
