(* ===== verification/HubDispatch.v ===== *)
(** * Sending sides what they lack (internal/sharesync/hub_dispatch.go)

    For each attached side the hub keeps the paths to look at; the dispatcher
    collects the ops due into batches by lane, and takes the side's results.
    The invariant [accounted] says that whatever a side lacks is on its way:
    waiting to be looked at, in a batch, or refused by the side at that rev. *)

From S2P Require Import Prelude GoStrings Sha256 Entry SyncPolicy Mergers Journal HubState HubCommit HubInvariants HubProcess HubAnswers.
Local Open Scope string_scope.
Local Open Scope Z_scope.
Local Open Scope list_scope.

(** ** Times *)

Definition Before (now : Z) (t : time) : bool := match t with None => false | Some u => now <? u end.

Definition earliest (a b : time) : time :=
  match a, b with
  | None, _ => b
  | _, None => a
  | Some x, Some y => if y <? x then b else a
  end.

Definition millisecond : Z := 1000000.

(** ** The dispatcher's side of a side *)

Record hubSide := MkHubSide {
  hs_info : SideInfo;
  hs_downUntil : time;
  hs_downN : Z;
  hs_downErr : string
}.

Definition unreachable (s : hubSide) (now : Z) (err : string) : hubSide :=
  let n := hs_downN s + 1 in
  let d := Z.min (wrap64 (Z.shiftl (250 * millisecond) (Z.min (n - 1) 10))) (30 * second) in
  MkHubSide (hs_info s) (Some (now + d)) n err.

Definition reached (s : hubSide) : hubSide := MkHubSide (hs_info s) (hs_downUntil s) 0 "".

Section dispatch.
Context (cfg : hubConf) `{C : !journal_codec hubRecord}.

Definition opFor (root : hubRoot) (sr : sideRoot) (p : string) : option Op :=
  match keyFor cfg root p (location (sr_info sr)) with
  | None => None
  | Some (k, _) =>
      if negb (keeps sr p) then None
      else
        let held := sr_held sr !! p in
        match hr_entries root !! k with
        | None =>
            match held with
            | Some _ => Some (MkOp p (hr_forgot root) (entry_of Gone 0))
            | None => None
            end
        | Some e =>
            if Live (he_entry e) then
              match held with
              | Some h => if negb (h =? he_rev e) then Some (MkOp p (he_rev e) (he_entry e)) else None
              | None => Some (MkOp p (he_rev e) (he_entry e))
              end
            else match held with
                 | Some _ => Some (MkOp p (he_rev e) (he_entry e))
                 | None => None
                 end
        end
  end.

Definition laneFor (root : hubRoot) (op : Op) : Lane :=
  let auto := if bool_decide (ekind (o_entry op) = File) && (BulkSize <? esize (o_entry op))
              then LaneBulk else LaneNormal in
  match merger cfg root (o_path op) with
  | Some m => match m_lane m with LaneAuto => auto | lane => lane end
  | None => auto
  end.

Definition delay (lane : Lane) : Z :=
  match lane with
  | LanePriority => 0
  | LaneBulk => cf_BulkDelay cfg
  | _ => cf_NormalDelay cfg
  end.

Definition lanes : list Lane := [LanePriority; LaneNormal; LaneBulk].

(** ** collect *)

(** What collect's loop makes of one dirty path. *)
Inductive due_now := Settled | Waits (t : time) | Sends (lane : Lane) (op : Op).

(** The loop's body for path [p], dirty since [since]: the verdict, and the
    side's backoffs and refusals after it. *)
Definition look_at (root : hubRoot) (sr : sideRoot) (now : Z) (flush : bool) (p : string) (since : Z)
    : due_now * sideRoot :=
  match opFor root sr p with
  | None =>
      (Settled, set_backoff (set_dirty sr (delete p (sr_dirty sr))) (delete p (sr_backoff sr)))
  | Some op =>
      let refused := match sr_blocked sr !! p with Some r => rf_rev r =? o_rev op | None => false end in
      if refused then (Settled, set_dirty sr (delete p (sr_dirty sr)))
      else
        let sr := set_blocked sr (delete p (sr_blocked sr)) in
        let until := match sr_backoff sr !! p with Some r => Some (rt_until r) | None => None end in
        if Before now until then (Waits until, sr)
        else if negb (String.eqb (sr_paused sr) "") && bool_decide (ekind (o_entry op) = File)
                && Before now (sr_retryAt sr)
        then (Waits (sr_retryAt sr), sr)
        else
          let lane := laneFor root op in
          let due := Some (since + delay lane) in
          if negb flush && Before now due then (Waits due, sr) else (Sends lane op, sr)
  end.

(** The loop over the dirty paths that are in no batch. *)
Fixpoint look_at_all (root : hubRoot) (now : Z) (flush : bool) (ps : list (string * Z)) (sr : sideRoot)
    (next : time) (out : list (Lane * Op)) : sideRoot * time * list (Lane * Op) :=
  match ps with
  | [] => (sr, next, out)
  | (p, since) :: rest =>
      match sr_inflight sr !! p with
      | Some _ => look_at_all root now flush rest sr next out
      | None =>
          match look_at root sr now flush p since with
          | (Settled, sr) => look_at_all root now flush rest sr next out
          | (Waits t, sr) => look_at_all root now flush rest sr (earliest next t) out
          | (Sends lane op, sr) => look_at_all root now flush rest sr next (out ++ [(lane, op)])
          end
      end
  end.

Definition lane_ops (out : list (Lane * Op)) (lane : Lane) : list Op :=
  sortOps (map snd (List.filter (fun lo => bool_decide (lo.1 = lane)) out)).

(** The batches of one lane: MaxBatch ops at most in each. *)
Fixpoint chunks {A} (fuel : nat) (n : nat) (ops : list A) : list (list A) :=
  match fuel, ops with
  | S f, _ :: _ => take n ops :: chunks f n (drop n ops)
  | _, _ => []
  end.

(** An op is in flight from its batch's making, with the side's report count. *)
Definition fly (sr : sideRoot) (op : Op) : sideRoot :=
  let p := o_path op in
  set_dirty (set_inflight sr (<[p := default 0 (sr_reports sr !! p)]> (sr_inflight sr))) (delete p (sr_dirty sr)).

Definition lane_batches (root : hubRoot) (out : list (Lane * Op)) (lane : Lane) : list Batch :=
  let ops := lane_ops out lane in
  map (MkBatch (hr_name root) (hr_epoch root) lane) (chunks (length ops) (cf_MaxBatch cfg) ops).

Definition collect (root : hubRoot) (id : string) (now : Z) (flush : bool) : list Batch * time * hubRoot :=
  match hr_sides root !! id, hr_broken root with
  | Some sr, None =>
      let '(sr, next, out) := look_at_all root now flush (map_to_list (sr_dirty sr)) sr None [] in
      let batches := flat_map (lane_batches root out) lanes in
      let sr := foldl fly sr (flat_map b_ops batches) in
      (batches, next, set_sides root (<[id := sr]> (hr_sides root)))
  | _, _ => ([], None, root)
  end.

(** ** finish *)

Definition sent_at (sr : sideRoot) (p : string) : Z := default 0 (sr_inflight sr !! p).

(** The results by path: the last one given for it. *)
Definition result_for (results : list Result) (op : Op) : ResultStatus * string :=
  match find (fun r => String.eqb (res_path r) (o_path op)) (rev results) with
  | Some r => if res_rev r =? o_rev op then (res_status r, res_reason r) else (Failed, "no result")
  | None => (Failed, "no result")
  end.

(** What one op's result makes of the side; [sent] is the report count the op
    was sent at. *)
Definition finish_op (now : Z) (results : list Result) (sent : Z) (sr : sideRoot) (op : Op) : sideRoot :=
  let p := o_path op in
  let '(status, reason) := result_for results op in
  match status with
  | Applied =>
      let sr :=
        if Live (o_entry op) then
          match sr_held sr !! p with
          | Some h => if h <=? o_rev op then set_held sr (<[p := o_rev op]> (sr_held sr)) else sr
          | None => set_held sr (<[p := o_rev op]> (sr_held sr))
          end
        else set_held sr (delete p (sr_held sr)) in
      let sr := set_backoff sr (delete p (sr_backoff sr)) in
      let sr := match sr_dirty sr !! p with
                | Some _ => sr
                | None => set_reports sr (delete p (sr_reports sr))
                end in
      if bool_decide (ekind (o_entry op) = File) && negb (String.eqb (sr_paused sr) "")
      then set_pause sr "" None else sr
  | Changed =>
      if negb (default 0 (sr_reports sr !! p) =? sent) then mark sr p now
      else later sr p now (20 * millisecond)
  | Stale => later sr p now (20 * millisecond)
  | NoSpace =>
      let at_ := now + cf_PauseRetry cfg in
      let sr := set_pause sr (if String.eqb reason "" then "disk full" else reason) (Some at_) in
      let sr := set_backoff sr (<[p := MkRetry at_ 0]> (sr_backoff sr)) in
      mark sr p now
  | Refused => set_blocked sr (<[p := MkRefusal (o_rev op) reason]> (sr_blocked sr))
  | Failed => later (set_lastErr sr (p +:+ ": " +:+ reason)) p now second
  end.

(** An op whose batch went unanswered. *)
Definition unanswered (now : Z) (sr : sideRoot) (op : Op) : sideRoot :=
  let p := o_path op in
  let sr := if Live (o_entry op) then set_held sr (<[p := 0]> (sr_held sr)) else sr in
  set_dirty sr (mark_since p now (sr_dirty sr)).

Definition landed_ops (sr : sideRoot) (ops : list Op) : sideRoot :=
  set_inflight sr (foldl (fun m op => delete (o_path op) m) (sr_inflight sr) ops).

Definition finish_side (now : Z) (ops : list Op) (answer : result string (list Result)) (sr : sideRoot) : sideRoot :=
  let sent := sent_at sr in
  let sr := landed_ops sr ops in
  match answer with
  | Err err => set_lastErr (foldl (unanswered now) sr ops) err
  | Ok results => foldl (fun sr op => finish_op now results (sent (o_path op)) sr op) sr ops
  end.

Definition finish (root : hubRoot) (id : string) (now : Z) (b : Batch) (answer : result string (list Result)) : hubRoot :=
  on_side root id (finish_side now (b_ops b) answer).

(** contentFor: the content of the state an op names. *)
Definition contentFor (env : hubEnv) (root : hubRoot) (side : SideInfo) (op : Op) (offset : Z)
    : result sync_error string :=
  match keyFor cfg root (o_path op) (location side) with
  | None => Err ErrStale
  | Some (k, _) =>
      match hr_entries root !! k with
      | None => Err ErrStale
      | Some e =>
          if negb (he_rev e =? o_rev op) then
            if bool_decide (ekind (o_entry op) = File) && blob_has root (ehash (o_entry op)) then
              match blob_open env root (ehash (o_entry op)) offset with
              | Some data => Ok data
              | None => Err ErrFetch
              end
            else Err ErrStale
          else openContent env root k (he_entry e) (he_rev e) offset (side_id side)
      end
  end.

(** ** Nothing owed is forgotten *)

(** The hub has no state of the path for the side: never had, or has forgotten
    its delete, whose rev moves on as others are forgotten. *)
Definition unknown (root : hubRoot) (sr : sideRoot) (p : string) : Prop :=
  exists k m, keyFor cfg root p (location (sr_info sr)) = Some (k, m) /\ hr_entries root !! k = None.

(** Refused by the side, at the very rev it is owed when it has one. *)
Definition refused_op (root : hubRoot) (sr : sideRoot) (op : Op) : Prop :=
  exists r, sr_blocked sr !! o_path op = Some r /\ (rf_rev r = o_rev op \/ unknown root sr (o_path op)).

(** Whatever the side lacks is waiting to be looked at, in a batch, or refused. *)
Definition accounted (root : hubRoot) (sr : sideRoot) : Prop :=
  forall p op, opFor root sr p = Some op ->
    is_Some (sr_dirty sr !! p) \/ is_Some (sr_inflight sr !! p) \/ refused_op root sr op.

Definition Accounted (root : hubRoot) : Prop :=
  forall id sr, hr_sides root !! id = Some sr -> accounted root sr.

(** opFor depends on what the side holds and keeps, and on the path's state. *)
Definition same_view (sr sr' : sideRoot) : Prop :=
  sr_info sr' = sr_info sr /\ sr_only sr' = sr_only sr /\ sr_held sr' = sr_held sr.

Lemma opFor_view root sr sr' p : same_view sr sr' -> opFor root sr' p = opFor root sr p.
Proof. unfold opFor, keeps. by intros (-> & -> & ->). Qed.

Lemma opFor_path root sr p op : opFor root sr p = Some op -> o_path op = p.
Proof. unfold opFor. repeat case_match; intros; simplify_eq; done. Qed.

Lemma same_view_refl sr : same_view sr sr.
Proof. done. Qed.
Lemma same_view_trans a b c : same_view a b -> same_view b c -> same_view a c.
Proof. unfold same_view. intros (-> & -> & ->). done. Qed.

(** *** The loop's body *)

Lemma look_at_spec root sr now flush p since v sr' :
  look_at root sr now flush p since = (v, sr') ->
  same_view sr sr' /\ sr_inflight sr' = sr_inflight sr /\ sr_reports sr' = sr_reports sr /\
  match v with
  | Settled =>
      sr_dirty sr' = delete p (sr_dirty sr) /\ sr_blocked sr' = sr_blocked sr /\
      (forall op, opFor root sr p = Some op -> refused_op root sr op)
  | Waits _ => sr_dirty sr' = sr_dirty sr /\ sr_blocked sr' = delete p (sr_blocked sr) /\ is_Some (opFor root sr p)
  | Sends lane op =>
      sr_dirty sr' = sr_dirty sr /\ sr_blocked sr' = delete p (sr_blocked sr) /\
      opFor root sr p = Some op /\ lane = laneFor root op
  end.
Proof.
  unfold look_at. destruct (opFor root sr p) as [op|] eqn:Ho.
  2: { intros [= <- <-]. done. }
  destruct (match sr_blocked sr !! p with Some r => rf_rev r =? o_rev op | None => false end) eqn:Hb.
  { intros [= <- <-]. split_and!; try done. intros op' [= <-]. unfold refused_op.
    rewrite (opFor_path _ _ _ _ Ho). destruct (sr_blocked sr !! p) as [r|]; [|done]. bool_hyps. eauto. }
  repeat (match goal with |- context [if ?b then _ else _] => destruct b end); intros [= <- <-]; split_and!; try done; eauto.
Qed.

Lemma look_at_accounted root sr now flush p since v sr' :
  look_at root sr now flush p since = (v, sr') -> is_Some (sr_dirty sr !! p) ->
  accounted root sr -> accounted root sr'.
Proof.
  intros Hl Hd Hacc q op. destruct (look_at_spec _ _ _ _ _ _ _ _ Hl) as (Hv & Hi & _ & Hcase).
  rewrite (opFor_view _ _ _ _ Hv), Hi. intros Hq. unfold refused_op, unknown. rewrite (proj1 Hv). pose proof (opFor_path _ _ _ _ Hq) as Hqp.
  destruct (decide (q = p)) as [->|Hne].
  - destruct v; destruct Hcase as (Hd' & Hb' & Hrest); rewrite Hd', Hb'; auto.
    right. right. by apply Hrest.
  - destruct (Hacc q op Hq) as [H|[H|H]]; [left|by right; left|right; right].
    + destruct v; destruct Hcase as (Hd' & _); rewrite Hd'; rewrite ?lookup_delete_ne by congruence; done.
    + unfold refused_op, unknown in H. rewrite Hqp in *.
      destruct v; destruct Hcase as (_ & Hb' & _); rewrite Hb'; rewrite ?lookup_delete_ne by congruence; done.
Qed.

(** An op collected: owed now, its path still waiting and in no batch. *)
Definition collected (root : hubRoot) (sr : sideRoot) (lo : Lane * Op) : Prop :=
  let '(lane, op) := lo in
  opFor root sr (o_path op) = Some op /\ lane = laneFor root op /\
  is_Some (sr_dirty sr !! o_path op) /\ sr_inflight sr !! o_path op = None.

Lemma look_at_all_spec root now flush ps sr next out sr' next' out' :
  look_at_all root now flush ps sr next out = (sr', next', out') ->
  NoDup ps.*1 -> (forall p, p ∈ ps.*1 -> is_Some (sr_dirty sr !! p)) ->
  accounted root sr -> Forall (collected root sr) out -> NoDup (map (fun lo => o_path lo.2) out) ->
  (forall lo, lo ∈ out -> o_path lo.2 ∉ ps.*1) ->
  accounted root sr' /\ same_view sr sr' /\ sr_inflight sr' = sr_inflight sr /\ sr_reports sr' = sr_reports sr /\
  Forall (collected root sr') out' /\ NoDup (map (fun lo => o_path lo.2) out').
Proof.
  revert sr next out. induction ps as [|[p since] ps IH]; intros sr next out; simpl.
  { intros [= <- <- <-] _ _ Hacc Hout Hnd _. split_and!; try done. }
  intros Hrun [Hp Hps]%NoDup_cons Hd Hacc Hout Hnd Hfresh.
  assert (forall q, q ∈ ps.*1 -> is_Some (sr_dirty sr !! q)) as Hd' by (intros; apply Hd; by right).
  assert (forall lo, lo ∈ out -> o_path lo.2 ∉ ps.*1) as Hfresh'.
  { intros lo Hlo Hin. apply (Hfresh lo Hlo). by right. }
  destruct (sr_inflight sr !! p) eqn:Hfly; [by apply (IH _ _ _ Hrun)|].
  destruct (look_at root sr now flush p since) as [v sr1] eqn:Hl.
  pose proof (look_at_accounted _ _ _ _ _ _ _ _ Hl (Hd p (list_elem_of_here _ _)) Hacc) as Hacc1.
  destruct (look_at_spec _ _ _ _ _ _ _ _ Hl) as (Hv & Hi & Hr & Hcase).
  assert (forall q, q ∈ ps.*1 -> is_Some (sr_dirty sr1 !! q)) as Hd1.
  { intros q Hq. destruct v; destruct Hcase as (-> & _); auto.
    rewrite lookup_delete_ne; [auto|]. intros ->. done. }
  assert (Forall (collected root sr1) out) as Hout1.
  { apply Forall_forall. intros [lane op] Hlo. rewrite Forall_forall in Hout.
    destruct (Hout _ Hlo) as (H1 & H2 & H3 & H4). unfold collected. rewrite (opFor_view _ _ _ _ Hv), Hi. split_and!; try done.
    assert (p <> o_path op). { intros ->. apply (Hfresh _ Hlo). left. }
    destruct v; destruct Hcase as (-> & _); try done. by rewrite lookup_delete_ne. }
  assert (forall sr2 n2 o2, look_at_all root now flush ps sr1 n2 o2 = (sr', next', out') ->
    Forall (collected root sr1) o2 -> NoDup (map (fun lo => o_path lo.2) o2) ->
    (forall lo, lo ∈ o2 -> o_path lo.2 ∉ ps.*1) -> sr2 = sr1 ->
    accounted root sr' /\ same_view sr sr' /\ sr_inflight sr' = sr_inflight sr /\ sr_reports sr' = sr_reports sr /\
    Forall (collected root sr') out' /\ NoDup (map (fun lo => o_path lo.2) out')) as Hgo.
  { intros sr2 n2 o2 Hr2 Ho2 Hnd2 Hf2 _. destruct (IH _ _ _ Hr2 Hps Hd1 Hacc1 Ho2 Hnd2 Hf2) as (? & Hv2 & Hi2 & Hrp2 & ? & ?).
    split_and!; try done; [by eapply same_view_trans|congruence..]. }
  destruct v as [|t|lane op]; [by eapply Hgo..|].
  destruct Hcase as (Hd1' & _ & Hop & Hlane). pose proof (opFor_path _ _ _ _ Hop) as Hpath.
  eapply Hgo; [exact Hrun|..|done].
  - apply Forall_app_2; [done|]. repeat constructor; rewrite ?(opFor_view _ _ _ _ Hv), ?Hpath, ?Hd1', ?Hi; auto.
    apply Hd. left.
  - rewrite map_app. simpl. apply NoDup_app. split_and!; [done| |apply NoDup_singleton].
    intros x Hx ->%list_elem_of_singleton. apply list_elem_of_fmap in Hx as (lo & E & Hlo).
    apply (Hfresh lo Hlo). rewrite <- E, Hpath. left.
  - intros lo [Hlo| ->%list_elem_of_singleton]%elem_of_app; [by apply Hfresh'|]. simpl. by rewrite Hpath.
Qed.
(** *** Batches *)

Lemma chunks_concat {A} fuel n (ops : list A) :
  (0 < n)%nat -> (length ops <= fuel)%nat ->
  concat (chunks fuel n ops) = ops /\ Forall (fun c => c <> [] /\ (length c <= n)%nat) (chunks fuel n ops).
Proof.
  intros Hn. revert ops. induction fuel as [|fuel IH]; intros [|op ops] Hf; simpl; try done; [simpl in Hf; lia|].
  destruct n as [|n]; [lia|]. simpl. simpl in Hf.
  destruct (IH (drop n ops)) as [H1 H2]; [rewrite length_drop; lia|]. split.
  - by rewrite H1, take_drop.
  - constructor; [|done]. split; [done|]. simpl. rewrite length_take. lia.
Qed.

Lemma batches_ops root out lane :
  (0 < cf_MaxBatch cfg)%nat -> flat_map b_ops (lane_batches root out lane) = lane_ops out lane.
Proof.
  intros Hn. unfold lane_batches. set (ops := lane_ops out lane).
  destruct (chunks_concat (length ops) (cf_MaxBatch cfg) ops Hn ltac:(lia)) as [H _].
  transitivity (concat (chunks (length ops) (cf_MaxBatch cfg) ops)); [|done]. clear H.
  generalize (chunks (length ops) (cf_MaxBatch cfg) ops). intros cs.
  induction cs as [|c cs IH]; simpl; [done|]. by rewrite IH.
Qed.

Lemma laneFor_lanes root op : laneFor root op ∈ lanes.
Proof.
  unfold laneFor, lanes. rewrite !elem_of_cons.
  repeat case_match; tauto.
Qed.

Lemma lane_split (out : list (Lane * Op)) :
  (forall lo, lo ∈ out -> lo.1 ∈ lanes) ->
  flat_map (fun lane => List.filter (fun lo : Lane * Op => bool_decide (lo.1 = lane)) out) lanes ≡ₚ out.
Proof.
  intros Hin. unfold lanes in *. simpl. rewrite app_nil_r.
  induction out as [|[lane op] out IH]; [done|].
  assert (forall lo, lo ∈ out -> lo.1 ∈ [LanePriority; LaneNormal; LaneBulk]) as Hin' by (intros; apply Hin; by right).
  specialize (IH Hin'). specialize (Hin (lane, op) (list_elem_of_here _ _)). simpl in Hin.
  rewrite !elem_of_cons, elem_of_nil in Hin.
  etransitivity; [|apply Permutation_cons; [done|exact IH]].
  destruct Hin as [->|[->|[->|[]]]]; simpl; [done|symmetry; apply Permutation_middle|].
  rewrite !app_assoc. symmetry. apply Permutation_middle.
Qed.

Lemma collected_ops root out :
  (0 < cf_MaxBatch cfg)%nat -> (forall lo, lo ∈ out -> lo.1 ∈ lanes) ->
  flat_map b_ops (flat_map (lane_batches root out) lanes) ≡ₚ map snd out.
Proof.
  intros Hn Hin. rewrite <- (lane_split out Hin) at 2. generalize lanes. intros ls.
  induction ls as [|l ls IH]; simpl; [done|]. rewrite flat_map_app, map_app, <- IH.
  rewrite batches_ops by done. apply Permutation_app; [apply SortFunc_perm|done].
Qed.

(** *** Taking off *)

Lemma fly_spec ops sr :
  let sr' := foldl fly sr ops in
  same_view sr sr' /\ sr_blocked sr' = sr_blocked sr /\
  (forall p, is_Some (sr_dirty sr' !! p) <-> is_Some (sr_dirty sr !! p) /\ p ∉ map o_path ops) /\
  (forall p, is_Some (sr_inflight sr' !! p) <-> is_Some (sr_inflight sr !! p) \/ p ∈ map o_path ops).
Proof.
  revert sr. induction ops as [|op ops IH]; intros sr; simpl.
  { split_and!; try done; intros p; rewrite elem_of_nil; tauto. }
  destruct (IH (fly sr op)) as (H1 & H2 & H3 & H4). split_and!; [done..| |].
  - intros p. rewrite H3. simpl. rewrite not_elem_of_cons. destruct (decide (p = o_path op)) as [->|Hp].
    + rewrite lookup_delete_eq, is_Some_alt. tauto.
    + rewrite lookup_delete_ne by done. tauto.
  - intros p. rewrite H4. simpl. rewrite elem_of_cons. destruct (decide (p = o_path op)) as [->|Hp].
    + rewrite lookup_insert_eq. split; [by right; left|by left].
    + rewrite lookup_insert_ne by done. tauto.
Qed.

Lemma fly_accounted root ops sr : accounted root sr -> accounted root (foldl fly sr ops).
Proof.
  intros Hacc p op. destruct (fly_spec ops sr) as (Hv & Hb & Hd & Hi). rewrite (opFor_view _ _ _ _ Hv). intros Hop.
  rewrite Hd, Hi. unfold refused_op, unknown. rewrite (proj1 Hv), Hb. destruct (decide (p ∈ map o_path ops)); [tauto|].
  destruct (Hacc p op Hop) as [?|[?|?]]; tauto.
Qed.

Lemma keyFor_root root root' p loc : hr_name root' = hr_name root -> keyFor cfg root' p loc = keyFor cfg root p loc.
Proof. unfold keyFor, merger. by intros ->. Qed.

Lemma refused_root root root' sr op :
  hr_name root' = hr_name root -> hr_entries root' = hr_entries root -> refused_op root sr op -> refused_op root' sr op.
Proof. intros Hn He. unfold refused_op, unknown, keyFor, merger. by rewrite Hn, He. Qed.

Lemma opFor_root root root' sr p :
  hr_entries root' = hr_entries root -> hr_name root' = hr_name root -> hr_forgot root' = hr_forgot root ->
  opFor root' sr p = opFor root sr p.
Proof. unfold opFor, keyFor, merger. by intros -> -> ->. Qed.

(** Everything collect does to a side, and what it sends. *)
Lemma collect_spec root id now flush sr batches next root' :
  (0 < cf_MaxBatch cfg)%nat -> hr_sides root !! id = Some sr -> hr_broken root = None -> accounted root sr ->
  collect root id now flush = (batches, next, root') ->
  let ops := flat_map b_ops batches in
  exists sr', hr_sides root' = <[id := sr']> (hr_sides root) /\ hr_entries root' = hr_entries root /\
    hr_name root' = hr_name root /\ hr_forgot root' = hr_forgot root /\
    accounted root sr' /\ same_view sr sr' /\
    NoDup (map o_path ops) /\
    (forall op, op ∈ ops -> opFor root sr (o_path op) = Some op /\ sr_inflight sr !! o_path op = None /\
       is_Some (sr_inflight sr' !! o_path op) /\ sr_dirty sr' !! o_path op = None).
Proof.
  intros Hn Hsr Hb Hacc. unfold collect. rewrite Hsr, Hb.
  destruct (look_at_all root now flush (map_to_list (sr_dirty sr)) sr None []) as [[sr1 next1] out] eqn:Hl.
  intros [= <- <- <-].
  destruct (look_at_all_spec _ _ _ _ _ _ _ _ _ _ Hl) as (Hacc1 & Hv1 & Hi1 & _ & Hcol & Hnd); try done.
  { apply NoDup_fst_map_to_list. }
  { intros p (x & -> & Hx)%list_elem_of_fmap. destruct x as [p s']. apply elem_of_map_to_list in Hx. by exists s'. }
  { constructor. }
  { by intros ? ?%elem_of_nil. }
  rewrite Forall_forall in Hcol.
  assert (flat_map b_ops (flat_map (lane_batches root out) lanes) ≡ₚ map snd out) as Hperm.
  { apply collected_ops; [done|]. intros [lane op] Hlo. destruct (Hcol _ Hlo) as (_ & -> & _). apply laneFor_lanes. }
  set (ops := flat_map b_ops _) in *. exists (foldl fly sr1 ops). cbv zeta.
  destruct (fly_spec ops sr1) as (Hv2 & _ & Hd2 & Hi2).
  split_and!; try done; [by apply fly_accounted|by eapply same_view_trans| |].
  - rewrite Hperm, map_map. done.
  - intros op Hop. pose proof Hop as Hop'. rewrite Hperm in Hop'. apply list_elem_of_fmap in Hop' as ([lane op'] & -> & Hlo). simpl in *.
    destruct (Hcol _ Hlo) as (H1 & _ & _ & H4). rewrite (opFor_view _ _ _ _ Hv1) in H1. rewrite Hi1 in H4.
    assert (o_path op' ∈ map o_path ops) by (by apply list_elem_of_fmap_2).
    split_and!; [done..| |]; [by apply Hi2; right|].
    apply eq_None_not_Some. rewrite Hd2. tauto.
Qed.

(** *** Exactly what is due *)

(** An op owed is due: the side has not refused it, its backoff is over, a side
    short of space is not asked to take files before its pause ends, and the
    lane's delay since the path was marked has passed, or is not waited for. *)
Definition ready (root : hubRoot) (sr : sideRoot) (now : Z) (flush : bool) (op : Op) (since : Z) : Prop :=
  (forall r, sr_blocked sr !! o_path op = Some r -> rf_rev r <> o_rev op) /\
  (forall r, sr_backoff sr !! o_path op = Some r -> rt_until r <= now) /\
  (sr_paused sr = "" \/ ekind (o_entry op) <> File \/ forall t, sr_retryAt sr = Some t -> t <= now) /\
  (flush = true \/ since + delay (laneFor root op) <= now).

(** The times that can hold an op back. *)
Definition held_until (root : hubRoot) (sr : sideRoot) (flush : bool) (op : Op) (since t : Z) : Prop :=
  (exists r, sr_backoff sr !! o_path op = Some r /\ rt_until r = t) \/
  (sr_paused sr <> "" /\ ekind (o_entry op) = File /\ sr_retryAt sr = Some t) \/
  (flush = false /\ t = since + delay (laneFor root op)).

Lemma look_at_verdict root sr now flush p since op :
  opFor root sr p = Some op ->
  match (look_at root sr now flush p since).1 with
  | Settled => exists r, sr_blocked sr !! p = Some r /\ rf_rev r = o_rev op
  | Waits t => ~ ready root sr now flush op since /\ exists u, t = Some u /\ now < u /\ held_until root sr flush op since u
  | Sends lane op' => op' = op /\ lane = laneFor root op /\ ready root sr now flush op since
  end.
Proof.
  intros Ho. pose proof (opFor_path _ _ _ _ Ho) as Hp. unfold look_at, ready, held_until. rewrite Ho, Hp.
  destruct (match sr_blocked sr !! p with Some r => rf_rev r =? o_rev op | None => false end) eqn:Hb.
  { simpl. destruct (sr_blocked sr !! p) as [r|]; [|done]. bool_hyps. eauto. }
  cbv zeta. cbn [sr_backoff sr_paused sr_retryAt set_blocked].
  match goal with |- context [if Before now ?u then (Waits ?u, _) else _] => destruct (Before now u) eqn:Hbo end.
  { simpl in *. destruct (sr_backoff sr !! p) as [r|]; simpl in *; [|done]. bool_hyps.
    split; [intros (_ & H & _); specialize (H r eq_refl); lia|]. eexists. split_and!; [done|lia|eauto]. }
  destruct (negb (String.eqb (sr_paused sr) "") && bool_decide (ekind (o_entry op) = File) && Before now (sr_retryAt sr)) eqn:Hpa.
  { simpl in *. apply andb_true_iff in Hpa as [[Hpa Hf]%andb_true_iff Hr]. apply bool_decide_eq_true in Hf. apply negb_true_iff, String.eqb_neq in Hpa.
    destruct (sr_retryAt sr) as [t|] eqn:Et; [|done]. simpl in Hr. bool_hyps.
    split; [intros (_ & _ & [?|[?|H]] & _); [done|done|specialize (H t eq_refl); lia]|]. eexists. split_and!; [done|lia|eauto]. }
  destruct (negb flush && _) eqn:Hdue; simpl in *.
  { bool_hyps. split; [intros (_ & _ & _ & [?|?]); [congruence|lia]|]. eexists. split_and!; [done|lia|]. right. right. split; [by destruct flush|done]. }
  split_and!; try done.
  - intros r Hr. rewrite Hr in Hb. bool_hyps. done.
  - intros r Hr. rewrite Hr in Hbo. simpl in Hbo. bool_hyps. lia.
  - destruct (String.eqb_spec (sr_paused sr) ""); [by left|]. right. destruct (decide (ekind (o_entry op) = File)); [|by left]. right.
    intros t Ht. rewrite Ht, bool_decide_eq_true_2 in Hpa by done. simpl in Hpa. bool_hyps. lia.
  - destruct flush; [by left|right]. simpl in Hdue. bool_hyps. lia.
Qed.

(** What the verdict on a path depends on. *)
Definition same_due (p : string) (sr sr' : sideRoot) : Prop :=
  same_view sr sr' /\ sr_blocked sr' !! p = sr_blocked sr !! p /\ sr_backoff sr' !! p = sr_backoff sr !! p /\
  sr_paused sr' = sr_paused sr /\ sr_retryAt sr' = sr_retryAt sr /\ sr_inflight sr' = sr_inflight sr.

Lemma look_at_same root sr sr' now flush p since :
  same_due p sr sr' -> (look_at root sr' now flush p since).1 = (look_at root sr now flush p since).1.
Proof.
  intros (Hv & Hb & Hbo & Hp & Hr & _). unfold look_at. rewrite (opFor_view _ _ _ _ Hv), Hb.
  destruct (opFor root sr p) as [op|]; [|done]. simpl. rewrite Hbo, Hp, Hr. by repeat case_match.
Qed.

Lemma look_at_other root sr now flush p since q : q <> p -> same_due q sr (look_at root sr now flush p since).2.
Proof.
  intros Hq. unfold look_at. repeat case_match; split_and!; simpl; try done; rewrite ?lookup_delete_ne by done; done.
Qed.

Lemma look_at_all_exact root now flush ps sr next out sr' next' out' :
  look_at_all root now flush ps sr next out = (sr', next', out') -> NoDup ps.*1 ->
  (forall lane op, (lane, op) ∈ out' <-> (lane, op) ∈ out \/
     exists p since, (p, since) ∈ ps /\ sr_inflight sr !! p = None /\ (look_at root sr now flush p since).1 = Sends lane op) /\
  (forall t, next = Some t \/ (exists p since, (p, since) ∈ ps /\ sr_inflight sr !! p = None /\ (look_at root sr now flush p since).1 = Waits (Some t)) ->
     exists n, next' = Some n /\ n <= t).
Proof.
  revert sr next out. induction ps as [|[p since] ps IH]; intros sr next out; simpl.
  { intros [= <- <- <-] _. split; [intros lane op; split; [auto|by intros [?|(? & ? & ?%elem_of_nil & _)]]|].
    intros t [->|(? & ? & ?%elem_of_nil & _)]; [eauto with lia|done]. }
  intros Hrun [Hp Hps]%NoDup_cons.
  assert (forall q s, (q, s) ∈ ps -> q <> p) as Hne.
  { intros q s Hq ->. apply Hp, list_elem_of_fmap. by exists (p, s). }
  destruct (sr_inflight sr !! p) eqn:Hfly.
  { destruct (IH _ _ _ Hrun Hps) as [H1 H2]. split.
    - intros lane op. rewrite H1. setoid_rewrite elem_of_cons. naive_solver.
    - intros t Ht. apply H2. destruct Ht as [?|(q & s & [[= -> ->]|Hq]%elem_of_cons & Hi & Hl)]; [auto|congruence|eauto 10]. }
  pose proof (fun q => look_at_other root sr now flush p since q) as Hoth.
  destruct (look_at root sr now flush p since) as [v sr1] eqn:Hl. simpl in Hoth.
  assert (forall q s v', (q, s) ∈ ps -> (sr_inflight sr1 !! q = None /\ (look_at root sr1 now flush q s).1 = v') <->
    (sr_inflight sr !! q = None /\ (look_at root sr now flush q s).1 = v')) as Hsame.
  { intros q s v' Hq. pose proof (Hoth q (Hne q s Hq)) as Hs. rewrite (look_at_same root sr sr1) by done. by destruct Hs as (_ & _ & _ & _ & _ & ->). }
  assert (forall n2 o2, look_at_all root now flush ps sr1 n2 o2 = (sr', next', out') ->
    (forall lane op, (lane, op) ∈ o2 <-> (lane, op) ∈ out \/ v = Sends lane op) ->
    (forall t, next = Some t \/ v = Waits (Some t) -> exists n, n2 = Some n /\ n <= t) ->
    (forall lane op, (lane, op) ∈ out' <-> (lane, op) ∈ out \/ exists q s, (q, s) ∈ (p, since) :: ps /\ sr_inflight sr !! q = None /\ (look_at root sr now flush q s).1 = Sends lane op) /\
    (forall t, next = Some t \/ (exists q s, (q, s) ∈ (p, since) :: ps /\ sr_inflight sr !! q = None /\ (look_at root sr now flush q s).1 = Waits (Some t)) -> exists n, next' = Some n /\ n <= t)) as Hgo.
  { intros n2 o2 Hr2 Ho2 Hn2. destruct (IH _ _ _ Hr2 Hps) as [H1 H2]. split.
    - intros lane op. rewrite H1, Ho2. split.
      + intros [[?|Hv]|(q & s & Hq & Hs%Hsame)]; [auto| |by right; exists q, s; split; [right|]|done].
        right. exists p, since. rewrite Hl. split_and!; [left|done|done].
      + intros [?|(q & s & [[= -> ->]|Hq]%elem_of_cons & Hi & Hs)]; [auto|rewrite Hl in Hs; auto|].
        right. exists q, s. split; [done|]. by apply Hsame.
    - intros t Ht. assert ((next = Some t \/ v = Waits (Some t)) \/ exists q s, (q, s) ∈ ps /\ sr_inflight sr1 !! q = None /\ (look_at root sr1 now flush q s).1 = Waits (Some t)) as [Hc|Hc].
      { destruct Ht as [?|(q & s & [[= -> ->]|Hq]%elem_of_cons & Hi & Hs)]; [auto|rewrite Hl in Hs; auto|].
        right. exists q, s. split; [done|]. by apply Hsame. }
      + destruct (Hn2 t Hc) as (n & -> & Hle). destruct (H2 n (or_introl eq_refl)) as (n' & -> & ?). exists n'. split; [done|lia].
      + apply H2. by right. }
  destruct v as [|w|lane op].
  - eapply Hgo; [exact Hrun|naive_solver|]. intros t [->|?]; [eauto with lia|done].
  - eapply Hgo; [exact Hrun|naive_solver|]. intros t. unfold earliest.
    destruct next as [n|], w as [u|]; intros [[= ->]|[= ->]]; try (case_match; bool_hyps); eauto with lia.
  - eapply Hgo; [exact Hrun| |intros t [->|?]; [eauto with lia|done]].
    intros l o. rewrite elem_of_app, list_elem_of_singleton. naive_solver.
Qed.

Lemma lane_ops_elem out lane op : op ∈ lane_ops out lane <-> (lane, op) ∈ out.
Proof.
  unfold lane_ops. assert (sortOps (map snd (List.filter (fun lo : Lane * Op => bool_decide (lo.1 = lane)) out)) ≡ₚ
    map snd (List.filter (fun lo => bool_decide (lo.1 = lane)) out)) as -> by apply SortFunc_perm.
  rewrite list_elem_of_fmap. split.
  - intros ([l o] & -> & [Hin Hl]%In_filter). simpl in *. by apply bool_decide_eq_true in Hl as ->.
  - intros Hin. exists (lane, op). split; [done|]. apply In_filter. split; [done|]. by apply bool_decide_eq_true.
Qed.

(** A batch as the side gets it: some ops of one lane, MaxBatch at most. *)
Definition fit_batch (root : hubRoot) (b : Batch) : Prop :=
  b_ops b <> [] /\ (length (b_ops b) <= cf_MaxBatch cfg)%nat /\ forall op, op ∈ b_ops b -> laneFor root op = b_lane b.

Lemma lane_batches_fit root out lane b :
  (0 < cf_MaxBatch cfg)%nat -> (forall l op, (l, op) ∈ out -> l = laneFor root op) -> b ∈ lane_batches root out lane -> fit_batch root b.
Proof.
  intros Hn Hlane (c & -> & Hc)%list_elem_of_fmap. set (ops := lane_ops out lane) in *.
  destruct (chunks_concat (length ops) (cf_MaxBatch cfg) ops Hn ltac:(lia)) as [Hcat Hall]. rewrite Forall_forall in Hall.
  destruct (Hall c Hc) as [H1 H2]. split_and!; [done..|]. simpl. intros op Hop.
  assert (op ∈ ops) as Hin. { rewrite <- Hcat. apply list_elem_of_In, in_concat. exists c. by split; apply list_elem_of_In. }
  apply lane_ops_elem in Hin. by rewrite (Hlane _ _ Hin).
Qed.

(** The batches and the time to look again, exactly. *)
Lemma collect_exact root id now flush sr batches next root' :
  (0 < cf_MaxBatch cfg)%nat -> hr_sides root !! id = Some sr -> hr_broken root = None ->
  collect root id now flush = (batches, next, root') ->
  (forall op, op ∈ flat_map b_ops batches <-> exists since, sr_dirty sr !! o_path op = Some since /\
     sr_inflight sr !! o_path op = None /\ opFor root sr (o_path op) = Some op /\ ready root sr now flush op since) /\
  (forall b, b ∈ batches -> fit_batch root b) /\
  (forall p since op, sr_dirty sr !! p = Some since -> sr_inflight sr !! p = None -> opFor root sr p = Some op ->
     op ∈ flat_map b_ops batches \/ refused_op root sr op \/
     exists n t, next = Some n /\ n <= t /\ now < t /\ held_until root sr flush op since t).
Proof.
  intros Hn Hsr Hb. unfold collect. rewrite Hsr, Hb.
  destruct (look_at_all root now flush (map_to_list (sr_dirty sr)) sr None []) as [[sr1 next1] out] eqn:Hl. intros Hc.
  assert (batches = flat_map (lane_batches root out) lanes /\ next = next1) as [-> ->] by (split; congruence).
  destruct (look_at_all_exact _ _ _ _ _ _ _ _ _ _ Hl (NoDup_fst_map_to_list _)) as [Hout Hnext].
  assert (forall lane op, (lane, op) ∈ out <-> lane = laneFor root op /\ exists since, sr_dirty sr !! o_path op = Some since /\
     sr_inflight sr !! o_path op = None /\ opFor root sr (o_path op) = Some op /\ ready root sr now flush op since) as Hiff.
  { intros lane op. rewrite Hout. split.
    - intros [?%elem_of_nil|(p & since & Hd%elem_of_map_to_list & Hi & Hs)]; [done|].
      destruct (opFor root sr p) as [o|] eqn:Ho; [|unfold look_at in Hs; by rewrite Ho in Hs].
      pose proof (look_at_verdict root sr now flush p since o Ho) as Hv. rewrite Hs in Hv. destruct Hv as (-> & -> & Hr).
      pose proof (opFor_path _ _ _ _ Ho) as <-. eauto 10.
    - intros (-> & since & Hd & Hi & Ho & Hr). right. exists (o_path op), since. rewrite elem_of_map_to_list. split_and!; [done..|].
      pose proof (look_at_verdict root sr now flush _ since op Ho) as Hv. destruct (look_at _ _ _ _ _ _).1 as [|t|l o].
      + destruct Hv as (r & Hbl & E). by destruct (proj1 Hr r Hbl).
      + by destruct Hv.
      + by destruct Hv as (-> & -> & _). }
  assert (forall op, op ∈ flat_map b_ops (flat_map (lane_batches root out) lanes) <-> op ∈ map snd out) as Hops.
  { intros op. assert (flat_map b_ops (flat_map (lane_batches root out) lanes) ≡ₚ map snd out) as ->; [|done].
    apply collected_ops; [done|]. intros [lane o] Hlo. apply Hiff in Hlo as [-> _]. apply laneFor_lanes. }
  assert (forall op, op ∈ map snd out <-> exists lane, (lane, op) ∈ out) as Hsnd.
  { intros op. rewrite list_elem_of_fmap. split; [intros ([l o] & -> & ?); eauto|intros (l & ?); by exists (l, op)]. }
  split_and!.
  - intros op. rewrite Hops, Hsnd. split; [intros (l & [_ ?]%Hiff); done|intros H; exists (laneFor root op); by apply Hiff].
  - intros b Hb'. apply list_elem_of_In, in_flat_map in Hb' as (lane & Hlane & Hin). apply list_elem_of_In in Hin.
    eapply lane_batches_fit; [done| |done]. by intros l op [? _]%Hiff.
  - intros p since op Hd Hi Ho. pose proof (opFor_path _ _ _ _ Ho) as Hp. subst p.
    pose proof (look_at_verdict root sr now flush _ since op Ho) as Hv. destruct (look_at _ _ _ _ _ _).1 as [|t|l o] eqn:Hs.
    + right. left. destruct Hv as (r & ? & ?). exists r. auto.
    + right. right. destruct Hv as (_ & u & -> & ? & ?). destruct (Hnext u) as (n & -> & ?); [|by exists n, u].
      right. exists (o_path op), since. by rewrite elem_of_map_to_list.
    + left. destruct Hv as (-> & -> & Hr). rewrite Hops, Hsnd. exists (laneFor root op). apply Hiff. eauto 10.
Qed.

(** C22: collecting sends exactly what is due and forgets nothing. The ops of
    the batches are precisely those a path marked and in no batch owes the side
    and that are due: not refused by it, no backoff, pause or lane delay still
    running. Each brings the side to the path's state as it is now; no path is
    in two batches at once; a batch has ops of one lane, MaxBatch at most. A
    marked path that is owed and not sent is refused at that rev, or the time
    to look again is no later than the one it waits for. What the side lacks
    stays accounted for. *)
Theorem collect_accounts root id now flush sr batches next root' :
  (0 < cf_MaxBatch cfg)%nat -> hr_sides root !! id = Some sr -> hr_broken root = None -> Accounted root ->
  collect root id now flush = (batches, next, root') ->
  let ops := flat_map b_ops batches in
  Accounted root' /\ NoDup (map o_path ops) /\
  (forall op, op ∈ ops <-> exists since, sr_dirty sr !! o_path op = Some since /\
     sr_inflight sr !! o_path op = None /\ opFor root sr (o_path op) = Some op /\ ready root sr now flush op since) /\
  (forall b, b ∈ batches -> fit_batch root b) /\
  (forall p since op, sr_dirty sr !! p = Some since -> sr_inflight sr !! p = None -> opFor root sr p = Some op ->
     op ∈ ops \/ refused_op root sr op \/
     exists n t, next = Some n /\ n <= t /\ now < t /\ held_until root sr flush op since t).
Proof.
  intros Hn Hsr Hb HA Hc. cbv zeta.
  destruct (collect_spec _ _ _ _ _ _ _ _ Hn Hsr Hb (HA _ _ Hsr) Hc) as (sr' & Hs & He & Hnm & Hf & Hacc & Hv & Hnd & Hops).
  split_and!; [|done|by destruct (collect_exact _ _ _ _ _ _ _ _ Hn Hsr Hb Hc) as (? & ? & ?)..].
  intros id' sr2. rewrite Hs. intros Hid' p op. rewrite (opFor_root root root') by done.
  destruct (decide (id = id')) as [<-|Hne].
  - rewrite lookup_insert_eq in Hid'. injection Hid' as <-. intros Hop.
    destruct (Hacc _ _ Hop) as [?|[?|?]]; eauto using refused_root.
  - rewrite lookup_insert_ne in Hid' by done. intros Hop.
    destruct (HA _ _ Hid' _ _ Hop) as [?|[?|?]]; eauto using refused_root.
Qed.
(** ** Results *)

(** Between its batch's making and the side's answer, nothing but new states
    of the path happened to an op: either the path waits again, or the side is
    still owed exactly this op. *)
Definition undisturbed (root : hubRoot) (sr : sideRoot) (op : Op) : Prop :=
  is_Some (sr_dirty sr !! o_path op) \/
  (unknown root sr (o_path op) /\ Live (o_entry op) = false) \/
  (opFor root sr (o_path op) = Some op /\
   (forall h, sr_held sr !! o_path op = Some h -> Live (o_entry op) = true -> h <= o_rev op)).

(** Two sides that agree on a path. *)
Definition agree_at (p : string) (sr sr' : sideRoot) : Prop :=
  sr_info sr' = sr_info sr /\ sr_only sr' = sr_only sr /\ sr_held sr' !! p = sr_held sr !! p /\
  sr_dirty sr' !! p = sr_dirty sr !! p /\ sr_inflight sr' !! p = sr_inflight sr !! p /\
  sr_blocked sr' !! p = sr_blocked sr !! p.

Lemma agree_refl p sr : agree_at p sr sr.
Proof. by split_and!. Qed.

Lemma agree_trans p a b c : agree_at p a b -> agree_at p b c -> agree_at p a c.
Proof. unfold agree_at. intros (-> & -> & -> & -> & -> & ->). done. Qed.

Lemma opFor_agree root sr sr' p : agree_at p sr sr' -> opFor root sr' p = opFor root sr p.
Proof. unfold opFor, keeps. by intros (-> & -> & -> & _). Qed.

Definition accounted_at (root : hubRoot) (sr : sideRoot) (p : string) : Prop :=
  forall op, opFor root sr p = Some op ->
    is_Some (sr_dirty sr !! p) \/ is_Some (sr_inflight sr !! p) \/ refused_op root sr op.

Lemma accounted_agree root sr sr' p : agree_at p sr sr' -> accounted_at root sr p -> accounted_at root sr' p.
Proof.
  intros Ha Hacc op. rewrite (opFor_agree _ _ _ _ Ha). intros Hop. specialize (Hacc op Hop).
  unfold refused_op, unknown in *. rewrite (opFor_path _ _ _ _ Hop) in *. destruct Ha as (-> & _ & _ & -> & -> & ->). done.
Qed.

Lemma undisturbed_agree root sr sr' op : agree_at (o_path op) sr sr' -> undisturbed root sr op -> undisturbed root sr' op.
Proof. intros Ha. unfold undisturbed, unknown. rewrite (opFor_agree _ _ _ _ Ha). by destruct Ha as (-> & _ & -> & -> & _). Qed.

Lemma mark_since_other p q now d : q <> p -> mark_since p now d !! q = d !! q.
Proof. intros. unfold mark_since. case_match; [done|]. by rewrite lookup_insert_ne. Qed.

Lemma mark_agree sr p q now : q <> p -> agree_at q sr (mark sr p now).
Proof. intros. unfold mark. case_match; [apply agree_refl|]. split_and!; try done. by apply mark_since_other. Qed.

Lemma later_agree sr p q now base : q <> p -> agree_at q sr (later sr p now base).
Proof. intros. unfold later. split_and!; try done. by apply mark_since_other. Qed.

Lemma later_dirty sr p now base : is_Some (sr_dirty (later sr p now base) !! p).
Proof. apply mark_since_some. Qed.

(** One result touches its own path only. *)
Lemma finish_op_agree now results sent sr op q :
  q <> o_path op -> agree_at q sr (finish_op now results sent sr op).
Proof.
  intros Hq. unfold finish_op. destruct (result_for results op) as [st why]. destruct st.
  - repeat case_match; split_and!; simpl; try done; rewrite ?lookup_insert_ne, ?lookup_delete_ne by done; done.
  - case_match; [by apply mark_agree|by apply later_agree].
  - by apply later_agree.
  - eapply agree_trans; [|by apply mark_agree]. by split_and!.
  - split_and!; simpl; try done. by rewrite lookup_insert_ne.
  - eapply agree_trans; [|by apply later_agree]. by split_and!.
Qed.

Lemma applied_held now sr op why :
  (forall h, sr_held sr !! o_path op = Some h -> Live (o_entry op) = true -> h <= o_rev op) ->
  forall results sent, result_for results op = (Applied, why) ->
  let sr' := finish_op now results sent sr op in
  sr_info sr' = sr_info sr /\ sr_only sr' = sr_only sr /\
  sr_held sr' !! o_path op = if Live (o_entry op) then Some (o_rev op) else None.
Proof.
  intros Hle results sent Hr. unfold finish_op. rewrite Hr. destruct (Live (o_entry op)) eqn:Hl.
  - destruct (sr_held sr !! o_path op) as [h|] eqn:Hh; [rewrite (proj2 (Z.leb_le h (o_rev op))) by auto|];
      repeat case_match; simpl; rewrite lookup_insert_eq; done.
  - repeat case_match; simpl; rewrite lookup_delete_eq; done.
Qed.

(** An op owed and applied is owed no more. *)
Lemma applied_settles root sr s op :
  opFor root sr (o_path op) = Some op -> sr_info s = sr_info sr -> sr_only s = sr_only sr ->
  sr_held s !! o_path op = (if Live (o_entry op) then Some (o_rev op) else None) ->
  opFor root s (o_path op) = None.
Proof.
  unfold opFor, keeps. intros Hop -> -> ->. destruct (keyFor _ _ _ _) as [[k m]|]; [|done].
  destruct (negb _); [done|].
  destruct (hr_entries root !! k) as [e|]; [destruct (Live (he_entry e)) eqn:Hl|].
  - assert (o_rev op = he_rev e /\ o_entry op = he_entry e) as [-> ->]
      by (destruct op; simpl in *; repeat case_match; by simplify_eq).
    by rewrite Hl, Z.eqb_refl.
  - assert (o_entry op = he_entry e) as -> by (destruct op; simpl in *; repeat case_match; by simplify_eq).
    by rewrite Hl.
  - assert (o_entry op = entry_of Gone 0) as -> by (destruct op; simpl in *; repeat case_match; by simplify_eq). done.
Qed.

(** ... and leaves it accounted for. *)
Lemma finish_op_marks now results sent sr op st why :
  result_for results op = (st, why) -> keeps sr (o_path op) = true ->
  st = Changed \/ st = Stale \/ st = NoSpace \/ st = Failed ->
  is_Some (sr_dirty (finish_op now results sent sr op) !! o_path op).
Proof.
  intros Hr Hk Hst. unfold finish_op. rewrite Hr. destruct st; try (exfalso; intuition congruence).
  - case_match; [by apply mark_dirty|apply later_dirty].
  - apply later_dirty.
  - by apply mark_dirty.
  - apply later_dirty.
Qed.

Lemma finish_op_dirty now results sent sr op :
  is_Some (sr_dirty sr !! o_path op) -> is_Some (sr_dirty (finish_op now results sent sr op) !! o_path op).
Proof.
  intros Hd. unfold finish_op. destruct (result_for results op) as [st why]; destruct st.
  - destruct (sr_dirty sr !! o_path op) eqn:E; [|by destruct Hd]. repeat case_match; simpl in *; rewrite ?E; eauto; congruence.
  - case_match; [|apply later_dirty]. unfold mark. case_match; [done|]. apply mark_since_some.
  - apply later_dirty.
  - unfold mark. case_match; [done|]. apply mark_since_some.
  - done.
  - apply later_dirty.
Qed.

Lemma finish_op_keeps now results sent sr op :
  keeps (finish_op now results sent sr op) (o_path op) = keeps sr (o_path op) /\
  sr_info (finish_op now results sent sr op) = sr_info sr.
Proof.
  unfold finish_op, mark, later. destruct (result_for results op) as [st why]; destruct st; by repeat case_match.
Qed.

Lemma opFor_keeps root sr p op : opFor root sr p = Some op -> keeps sr p = true.
Proof. unfold opFor. destruct (keyFor _ _ _ _) as [[k m]|]; [|done]. by destruct (keeps sr p). Qed.

Lemma finish_op_accounted root now results sent sr op :
  undisturbed root sr op -> accounted_at root (finish_op now results sent sr op) (o_path op).
Proof.
  intros Hu op' Hop'. pose proof (opFor_keeps _ _ _ _ Hop') as Hk. pose proof (opFor_path _ _ _ _ Hop') as Hp'.
  destruct (finish_op_keeps now results sent sr op) as [Hke Hin]. rewrite Hke in Hk.
  destruct Hu as [Hd|Hu]; [left; by apply finish_op_dirty|].
  destruct (result_for results op) as [st why] eqn:Hr.
  destruct (decide (st = Applied)) as [->|Ha]; [|destruct (decide (st = Refused)) as [->|Hf]].
  - exfalso. destruct Hu as [[(k & m & Hkf & Hno) Hdead]|[Hop Hle]].
    + destruct (applied_held now sr op why ltac:(congruence) results sent Hr) as (_ & _ & Hh).
      unfold opFor in Hop'. rewrite Hin, Hkf, Hke, Hk, Hno, Hh, Hdead in Hop'. done.
    + destruct (applied_held now sr op why Hle results sent Hr) as (Hi & Ho & Hh).
      rewrite (applied_settles root sr _ op Hop Hi Ho Hh) in Hop'. done.
  - right. right. unfold refused_op. rewrite Hp'. unfold finish_op. rewrite Hr. simpl.
    rewrite lookup_insert_eq. eexists. split; [done|]. destruct Hu as [[Hun _]|[Hop _]]; [by right|left].
    unfold finish_op in Hop'. rewrite Hr in Hop'. rewrite (opFor_view root sr) in Hop' by done. simpl. congruence.
  - left. eapply finish_op_marks; [done..|]. destruct st; tauto.
Qed.

(** *** A whole batch *)

Lemma fold_agree {B} (f : sideRoot -> B -> sideRoot) (path : B -> string) bs sr q :
  (forall sr b, q <> path b -> agree_at q sr (f sr b)) -> q ∉ map path bs -> agree_at q sr (foldl f sr bs).
Proof.
  intros Hf. revert sr. induction bs as [|b bs IH]; intros sr Hq; simpl; [apply agree_refl|].
  simpl in Hq. apply not_elem_of_cons in Hq as [Hb Hbs]. eapply agree_trans; [by apply Hf|by apply IH].
Qed.

Lemma finish_ops_accounted root now results sent ops sr :
  NoDup (map o_path ops) -> Forall (undisturbed root sr) ops ->
  let sr' := foldl (fun sr op => finish_op now results (sent (o_path op)) sr op) sr ops in
  (forall p, p ∈ map o_path ops -> accounted_at root sr' p) /\
  (forall p, p ∉ map o_path ops -> agree_at p sr sr').
Proof.
  revert sr. induction ops as [|op ops IH]; intros sr; simpl.
  { intros _ _. split; [by intros ? ?%elem_of_nil|intros; apply agree_refl]. }
  intros [Hn Hnd]%NoDup_cons Hu. inversion Hu as [|?? Hop Hops]; subst.
  set (sr1 := finish_op now results (sent (o_path op)) sr op).
  destruct (IH sr1 Hnd) as [H1 H2].
  { rewrite Forall_forall in *. intros op' Hop'. eapply undisturbed_agree; [|by apply Hops].
    apply finish_op_agree. intros E. apply Hn. rewrite <- E. by apply list_elem_of_fmap_2. }
  split.
  - intros p [->|Hp]%elem_of_cons; [|by apply H1]. eapply accounted_agree; [by apply H2|]. by apply finish_op_accounted.
  - intros p [Hp Hps]%not_elem_of_cons. eapply agree_trans; [by apply finish_op_agree|by apply H2].
Qed.

Lemma landed_ops_inflight sr ops p :
  sr_inflight (landed_ops sr ops) !! p = if decide (p ∈ map o_path ops) then None else sr_inflight sr !! p.
Proof.
  unfold landed_ops. cbn [sr_inflight set_inflight]. generalize (sr_inflight sr).
  induction ops as [|op ops IH]; intros m; cbn [map foldl].
  - case_decide as H; [by apply elem_of_nil in H|done].
  - rewrite IH. destruct (decide (p ∈ o_path op :: map o_path ops)) as [Hin|Hin]; rewrite elem_of_cons in Hin;
      destruct (decide (p ∈ map o_path ops)); try tauto.
    + destruct Hin as [->|?]; [apply lookup_delete_eq|done].
    + apply lookup_delete_ne. intros <-. tauto.
Qed.

Lemma unanswered_agree now sr op q : q <> o_path op -> agree_at q sr (unanswered now sr op).
Proof.
  intros Hq. unfold unanswered. destruct (Live (o_entry op)); split_and!; simpl; try done;
    rewrite ?lookup_insert_ne, ?mark_since_other by done; done.
Qed.

Lemma unanswered_accounted now ops sr :
  let sr' := foldl (unanswered now) sr ops in
  (forall p, p ∈ map o_path ops -> is_Some (sr_dirty sr' !! p)) /\
  (forall p, p ∉ map o_path ops -> agree_at p sr sr').
Proof.
  pose proof (unanswered_agree now) as Hag.
  cbv zeta. split; [|intros p Hp; apply (fold_agree _ o_path); [intros; by apply Hag|done]].
  revert sr. induction ops as [|op ops IH]; intros sr p; simpl; [by intros ?%elem_of_nil|].
  intros Hp. destruct (decide (p ∈ map o_path ops)) as [Hin|Hin]; [by apply IH|].
  apply elem_of_cons in Hp as [->|?]; [|done].
  destruct (fold_agree (unanswered now) o_path ops (unanswered now sr op) (o_path op)) as (_ & _ & _ & -> & _); [by intros; apply Hag|done|].
  unfold unanswered. destruct (Live (o_entry op)); apply mark_since_some.
Qed.

Lemma finish_side_accounted root now ops answer sr :
  NoDup (map o_path ops) -> (forall results, answer = Ok results -> Forall (undisturbed root sr) ops) ->
  accounted root sr -> accounted root (finish_side now ops answer sr).
Proof.
  intros Hnd Hu Hacc.
  assert (forall p, p ∉ map o_path ops -> accounted_at root (landed_ops sr ops) p) as Hout.
  { intros p Hp op Hop. destruct (Hacc p op Hop) as [?|[?|?]]; [by left| |by right; right].
    right. left. rewrite landed_ops_inflight, decide_False by done. done. }
  unfold finish_side. destruct answer as [results|err].
  - destruct (finish_ops_accounted root now results (sent_at sr) ops (landed_ops sr ops) Hnd) as [H1 H2].
    { eapply Forall_impl; [by eapply Hu|]. done. }
    intros p. destruct (decide (p ∈ map o_path ops)) as [Hp|Hp]; [by apply H1|].
    eapply accounted_agree; [by apply H2|]. by apply Hout.
  - destruct (unanswered_accounted now ops (landed_ops sr ops)) as [H1 H2].
    intros p. destruct (decide (p ∈ map o_path ops)) as [Hp|Hp].
    + intros op _. left. by apply H1.
    + eapply (accounted_agree _ (landed_ops sr ops)); [|by apply Hout].
      eapply agree_trans; [by apply H2|]. by split_and!.
Qed.

(** What an answer makes of an op: in no batch any more, and held at its rev or
    a later one (gone, for a delete), refused at its rev, or marked again; with
    no answer the side may hold anything, and the path is marked again. *)
Definition finish_outcome (answer : result string (list Result)) (sr : sideRoot) (op : Op) : Prop :=
  let p := o_path op in
  sr_inflight sr !! p = None /\
  match answer with
  | Err _ => is_Some (sr_dirty sr !! p) /\ (Live (o_entry op) = true -> sr_held sr !! p = Some 0)
  | Ok results =>
      match (result_for results op).1 with
      | Applied => if Live (o_entry op) then exists h, sr_held sr !! p = Some h /\ o_rev op <= h else sr_held sr !! p = None
      | Refused => exists r, sr_blocked sr !! p = Some r /\ rf_rev r = o_rev op
      | _ => keeps sr p = true -> is_Some (sr_dirty sr !! p)
      end
  end.

Lemma outcome_agree answer sr sr' op : agree_at (o_path op) sr sr' -> finish_outcome answer sr op -> finish_outcome answer sr' op.
Proof. unfold finish_outcome, keeps. by intros (_ & -> & -> & -> & -> & ->). Qed.

Lemma finish_op_inflight now results sent sr op : sr_inflight (finish_op now results sent sr op) = sr_inflight sr.
Proof. unfold finish_op, mark, later. destruct (result_for results op) as [st why]; destruct st; by repeat case_match. Qed.

Lemma finish_op_outcome now results sent sr op :
  sr_inflight sr !! o_path op = None -> finish_outcome (Ok results) (finish_op now results sent sr op) op.
Proof.
  intros Hi. unfold finish_outcome. rewrite finish_op_inflight, (proj1 (finish_op_keeps now results sent sr op)). split; [done|].
  destruct (result_for results op) as [st why] eqn:Hr. simpl. destruct st; try (intros Hk; eapply finish_op_marks; [done..|tauto]).
  - unfold finish_op. rewrite Hr. destruct (Live (o_entry op)); [destruct (sr_held sr !! o_path op) as [h|] eqn:Hh; [destruct (h <=? o_rev op) eqn:E|]|];
      repeat case_match; simpl; rewrite ?lookup_insert_eq, ?lookup_delete_eq, ?Hh; try done; bool_hyps; eexists; (split; [done|lia]).
  - unfold finish_op. rewrite Hr. simpl. rewrite lookup_insert_eq. eauto.
Qed.

Lemma unanswered_outcome now err sr op :
  sr_inflight sr !! o_path op = None -> finish_outcome (Err err) (unanswered now sr op) op.
Proof.
  intros Hi. unfold finish_outcome, unanswered. destruct (Live (o_entry op)); simpl; split_and!; try done; try apply mark_since_some.
  intros _. apply lookup_insert_eq.
Qed.

Lemma fold_outcome answer (f : sideRoot -> Op -> sideRoot) ops sr :
  (forall sr op q, q <> o_path op -> agree_at q sr (f sr op)) ->
  (forall sr op, op ∈ ops -> sr_inflight sr !! o_path op = None -> finish_outcome answer (f sr op) op) ->
  NoDup (map o_path ops) -> (forall op, op ∈ ops -> sr_inflight sr !! o_path op = None) ->
  forall op, op ∈ ops -> finish_outcome answer (foldl f sr ops) op.
Proof.
  intros Hag Hf. revert sr. induction ops as [|o ops IH]; intros sr; simpl; [by intros _ _ ? ?%elem_of_nil|].
  intros [Hn Hnd]%NoDup_cons Hi op [->|Hop]%elem_of_cons.
  - eapply outcome_agree; [apply (fold_agree _ o_path); [intros; by apply Hag|done]|]. apply Hf, Hi; left.
  - apply IH; [intros; apply Hf; [by right|done]|done| |done]. intros o' Ho'.
    assert (o_path o' <> o_path o) as Hne. { intros E. apply Hn. rewrite <- E. by apply list_elem_of_fmap_2. }
    destruct (Hag sr o (o_path o') Hne) as (_ & _ & _ & _ & -> & _). apply Hi. by right.
Qed.

Lemma finish_side_outcome now ops answer sr :
  NoDup (map o_path ops) ->
  (forall op, op ∈ ops -> finish_outcome answer (finish_side now ops answer sr) op) /\
  (forall p, p ∉ map o_path ops -> agree_at p sr (finish_side now ops answer sr)).
Proof.
  intros Hnd. assert (forall op, op ∈ ops -> sr_inflight (landed_ops sr ops) !! o_path op = None) as Hi.
  { intros op Hop. rewrite landed_ops_inflight, decide_True; [done|]. by apply list_elem_of_fmap_2. }
  assert (forall p, p ∉ map o_path ops -> agree_at p sr (landed_ops sr ops)) as Hl.
  { intros p Hp. split_and!; try done. by rewrite landed_ops_inflight, decide_False. }
  unfold finish_side. destruct answer as [results|err]; split.
  - apply fold_outcome; [intros; by apply finish_op_agree|intros; by apply finish_op_outcome|done..].
  - intros p Hp. eapply agree_trans; [by apply Hl|]. apply (fold_agree _ o_path); [intros; by apply finish_op_agree|done].
  - intros op Hop. eapply (outcome_agree _ (foldl (unanswered now) (landed_ops sr ops) ops)); [by split_and!|].
    revert op Hop. apply fold_outcome; [intros; by apply unanswered_agree|intros; by apply unanswered_outcome|done..].
  - intros p Hp. eapply agree_trans; [by apply Hl|]. eapply agree_trans; [|by split_and!].
    apply (fold_agree _ o_path); [intros; by apply unanswered_agree|done].
Qed.

End dispatch.
