(* ===== verification/HubDelivery.v ===== *)
(** * Delivery: no change is forgotten (internal/sharesync/hub_root.go, hub_dispatch.go)

    Every operation of a root that changes a path's state, or what the hub
    knows a side holds, leaves each side's missing states accounted for; and a
    round of collecting, sending and answering brings a side up to date. *)

From S2P Require Import Prelude GoStrings Sha256 Entry SyncPolicy Mergers Journal HubState HubCommit HubInvariants HubProcess HubAnswers HubDispatch.
Local Open Scope string_scope.
Local Open Scope Z_scope.
Local Open Scope list_scope.

Section delivery.
Context (cfg : hubConf) `{C : !journal_codec hubRecord}.

(** ** Setting a state *)

Lemma root_compact_sides now root :
  hr_sides (root_compact cfg now root).2 = hr_sides root /\ hr_name (root_compact cfg now root).2 = hr_name root.
Proof. unfold root_compact. by destruct (compact _ _ _) as [[[?|] j] d]. Qed.

Lemma root_compact_lookup now root k :
  hr_entries (root_compact cfg now root).2 !! k = hr_entries root !! k \/
  (hr_entries (root_compact cfg now root).2 !! k = None /\
   exists e, hr_entries root !! k = Some e /\ Live (he_entry e) = false /\ anyHolds root (k_path k) = false).
Proof.
  assert (hr_entries (root_compact cfg now root).2 =
    filter (fun ke => forgettable root (now - cf_TombstoneTTL cfg) ke.1 ke.2 = false) (hr_entries root)) as ->.
  { unfold root_compact. by destruct (compact _ _ _) as [[[?|] j] d]. }
  destruct (hr_entries root !! k) as [e|] eqn:He.
  - destruct (forgettable root (now - cf_TombstoneTTL cfg) k e) eqn:Hf.
    + right. split.
      * apply map_lookup_filter_None. right. intros x Hx. rewrite He in Hx. injection Hx as <-. simpl. congruence.
      * exists e. unfold forgettable in Hf. bool_hyps. done.
    + left. apply map_lookup_filter_Some. done.
  - left. apply map_lookup_filter_None. by left.
Qed.

Lemma anyHolds_false root id sr p :
  anyHolds root p = false -> hr_sides root !! id = Some sr -> sr_held sr !! p = None.
Proof.
  unfold anyHolds. intros Hf Hs. destruct (sr_held sr !! p) as [h|] eqn:Hh; [|done]. exfalso.
  assert (existsb (fun s : string * sideRoot => match sr_held s.2 !! p with Some _ => true | None => false end)
    (map_to_list (hr_sides root)) = true) as Ht; [|congruence].
  apply existsb_exists. exists (id, sr). split; [|by simpl; rewrite Hh].
  apply list_elem_of_In, elem_of_map_to_list. done.
Qed.

(** What a side is owed of a path, before and after: the same, or a delete the
    hub no longer knows the rev of. *)
Definition owed_same (root root' : hubRoot) (sr sr' : sideRoot) (p : string) : Prop :=
  agree_at p sr sr' /\ hr_name root' = hr_name root /\
  (opFor cfg root' sr' p = opFor cfg root sr p /\ (unknown cfg root sr p -> unknown cfg root' sr' p) \/
   opFor cfg root' sr' p = None \/
   unknown cfg root sr p /\ unknown cfg root' sr' p).

Lemma owed_same_accounted root root' sr sr' p :
  owed_same root root' sr sr' p -> accounted_at cfg root sr p -> accounted_at cfg root' sr' p.
Proof.
  intros (Ha & Hn & Ho) Hacc op Hop. pose proof (opFor_path _ _ _ _ _ Hop) as Hpath.
  destruct Ha as (Hi & Hon & Hh & Hd & Hf & Hb). unfold refused_op. rewrite Hd, Hf, Hpath, Hb.
  destruct Ho as [[Ho Hu]|[Ho|[Hu Hu']]]; [|congruence|].
  - rewrite Ho in Hop. destruct (Hacc op Hop) as [?|[?|(r & Hr & Hrr)]]; [tauto..|]. right. right.
    rewrite Hpath in *. exists r. split; [done|]. destruct Hrr; [by left|right; auto].
  - destruct Hu as (k & m & Hkf & Hno). destruct Hu' as (k' & m' & Hkf' & Hno').
    rewrite (keyFor_root cfg root root') in Hkf' by done. rewrite Hi in Hkf'.
    assert (opFor cfg root sr p = Some (MkOp p (hr_forgot root) (entry_of Gone 0))) as Hop0.
    { unfold opFor, keeps in *. rewrite (keyFor_root cfg root root'), Hi, Hkf in Hop by done.
      rewrite Hkf, Hno. rewrite Hkf in Hkf'. injection Hkf' as <- <-. rewrite Hno', Hon, Hh in Hop.
      destruct (negb _); [done|]. by destruct (sr_held sr !! p). }
    destruct (Hacc _ Hop0) as [?|[?|(r & Hr & _)]]; [tauto..|]. right. right. exists r. split; [done|]. right.
    exists k', m'. rewrite (keyFor_root cfg root root'), Hi by done. done.
Qed.

Lemma owed_same_undisturbed root root' sr sr' op :
  owed_same root root' sr sr' (o_path op) -> undisturbed cfg root sr op -> undisturbed cfg root' sr' op \/
  opFor cfg root' sr' (o_path op) = None.
Proof.
  intros (Ha & Hn & Ho) Hu. destruct Ha as (Hi & Hon & Hh & Hd & Hf & Hb). unfold undisturbed. rewrite Hd, Hh.
  destruct Ho as [[Ho Hun]|[Ho|[Hun Hun']]]; [|by right|].
  - left. rewrite Ho. destruct Hu as [?|[[? ?]|?]]; auto.
  - left. destruct Hu as [?|[[? ?]|[Hop _]]]; [by auto|by auto|]. right. left. split; [done|].
    destruct Hun as (k & m & Hkf & Hno). unfold opFor in Hop. rewrite Hkf, Hno in Hop.
    destruct (negb _); [done|]. destruct (sr_held sr !! o_path op); [|done]. destruct op; simpl in *. by simplify_eq.
Qed.

Lemma keyFor_path root p loc k m : keyFor cfg root p loc = Some (k, m) -> k_path k = p.
Proof. intros H. by destruct (keyFor_spec _ _ _ _ _ _ H). Qed.

(** Compacting owes nobody anything new. *)
Lemma root_compact_owed now root id sr p :
  hr_sides root !! id = Some sr -> owed_same root (root_compact cfg now root).2 sr sr p.
Proof.
  intros Hs. destruct (root_compact_sides now root) as [_ Hn].
  split; [apply agree_refl|]. split; [done|].
  unfold unknown, opFor. rewrite (keyFor_root _ _ _ _ _ Hn).
  destruct (keyFor cfg root p (location (sr_info sr))) as [[k m]|] eqn:Hkf.
  2: { left. split; [done|]. by intros (? & ? & ? & _). }
  destruct (root_compact_lookup now root k) as [Hl|(Hl & e & He & Hdead & Hany)].
  - destruct (hr_entries root !! k) as [e|] eqn:He.
    + left. rewrite Hl. split; [done|]. intros (k' & m' & [= <- <-] & Hno). congruence.
    + right. right. split; eauto.
  - right. left. rewrite (keyFor_path _ _ _ _ _ Hkf) in Hany. rewrite Hl, (anyHolds_false _ _ _ _ Hany Hs).
    by destruct (negb _).
Qed.

(** The side as a state just set finds and leaves it. *)
Lemma landed_side now root k ne ex id sr' :
  hr_sides (landed now root k ne ex) !! id = Some sr' ->
  exists sr, hr_sides root !! id = Some sr /\
    sr' = if for_side k ex id sr then mark sr (k_path k) now else sr.
Proof.
  unfold landed. destruct (count _ _ _ _ _). simpl. rewrite map_lookup_imap.
  destruct (hr_sides root !! id) as [sr|]; simpl; [|done]. intros [= <-]. eauto.
Qed.

Lemma landed_owed now root k ne ex id sr sr' p :
  hr_sides root !! id = Some sr -> sr' = (if for_side k ex id sr then mark sr (k_path k) now else sr) ->
  id <> ex \/ p <> k_path k ->
  owed_same root (landed now root k ne ex) sr sr' p \/ is_Some (sr_dirty sr' !! p) \/ keeps sr' p = false.
Proof.
  intros Hs -> Hex.
  assert (forall sr0, sr_info sr0 = sr_info sr -> agree_at p sr sr0 ->
    (forall k' m, keyFor cfg root p (location (sr_info sr)) = Some (k', m) -> k' <> k) ->
    owed_same root (landed now root k ne ex) sr sr0 p) as Hsame.
  { intros sr0 Hi Ha Hk.
    assert (hr_name (landed now root k ne ex) = hr_name root) as Hn by (unfold landed; by destruct (count _ _ _ _ _)).
    assert (hr_forgot (landed now root k ne ex) = hr_forgot root) as Hfo by (unfold landed; by destruct (count _ _ _ _ _)).
    assert (hr_entries (landed now root k ne ex) = <[k := ne]> (hr_entries root)) as He
      by (unfold landed; by destruct (count _ _ _ _ _)).
    split; [done|]. split; [done|]. left. destruct Ha as (_ & Ho & Hh & _).
    unfold unknown, opFor, keeps. rewrite (keyFor_root _ _ _ _ _ Hn), Hi, Ho, Hh, He, Hfo.
    destruct (keyFor cfg root p (location (sr_info sr))) as [[k' m]|]; [|split; [done|by intros (? & ? & ? & _)]].
    assert (k <> k') by (intros ->; by apply (Hk k' m)). rewrite lookup_insert_ne by done. split; [done|].
    intros (k1 & m1 & [= <- <-] & Hno). exists k', m. by rewrite lookup_insert_ne. }
  destruct (base.decide (p = k_path k)) as [->|Hp].
  - destruct (for_side k ex id sr) eqn:Hf.
    + right. destruct (keeps sr (k_path k)) eqn:Hk; [left; by apply mark_dirty|right; by rewrite mark_keeps].
    + left. apply Hsame; [done|apply agree_refl|]. intros k' m Hkf ->.
      destruct Hex as [Hex|Hex]; [|done]. unfold for_side in Hf. apply negb_false_iff, orb_true_iff in Hf as [Hf|Hf]; bool_hyps; [done|].
      destruct (keyFor_spec _ _ _ _ _ _ Hkf) as (_ & _ & [?|?]); congruence.
  - left. assert (agree_at p sr (if for_side k ex id sr then mark sr (k_path k) now else sr)) as Ha
      by (case_match; [by apply mark_agree|apply agree_refl]).
    apply Hsame; [apply Ha|done|]. intros k' m Hkf ->. by rewrite (keyFor_path _ _ _ _ _ Hkf) in Hp.
Qed.
(** The parts of a root opFor reads. *)
Definition same_owing (root root' : hubRoot) : Prop :=
  hr_entries root' = hr_entries root /\ hr_name root' = hr_name root /\ hr_forgot root' = hr_forgot root.

Lemma same_owing_owed root root' sr p : same_owing root root' -> owed_same root root' sr sr p.
Proof.
  intros (He & Hn & Hf). split; [apply agree_refl|]. split; [done|]. left. split; [by apply opFor_root|].
  unfold unknown. rewrite (keyFor_root _ _ _ _ _ Hn), He. done.
Qed.

Lemma setEntry_landed now root k e o b h ex ne root' :
  setEntry cfg now root k e o b h ex = (Ok ne, root') ->
  exists root0, same_owing root root0 /\ hr_sides root0 = hr_sides root /\
    let r := landed now root0 k ne ex in root' = r \/ root' = (root_compact cfg now r).2.
Proof.
  unfold setEntry. destruct (commit _ _) as [[[e'|] j] d]; [done|].
  match goal with |- context [landed now ?r k ?n ex] => set (root0 := r) end. intros Heq.
  exists root0. split; [done|]. split; [done|]. cbv zeta. destruct (due _ _); injection Heq as <- <-; auto.
Qed.

(** What is accounted for stays so when a state is set, for every side and path
    but the path at the side the state came from. *)
Lemma setEntry_accounted now root k e o b h ex ne root' id sr' :
  setEntry cfg now root k e o b h ex = (Ok ne, root') -> hr_sides root' !! id = Some sr' ->
  exists sr, hr_sides root !! id = Some sr /\ sr' = (if for_side k ex id sr then mark sr (k_path k) now else sr) /\
    hr_name root' = hr_name root /\
    forall p, id <> ex \/ p <> k_path k -> accounted_at cfg root sr p -> accounted_at cfg root' sr' p.
Proof.
  intros Hs Hid. destruct (setEntry_landed _ _ _ _ _ _ _ _ _ _ Hs) as (root0 & Ho & Hsd & Hr).
  set (r := landed now root0 k ne ex) in *.
  assert (hr_sides r !! id = Some sr') as Hidr.
  { destruct Hr as [->| ->]; [done|]. by rewrite (proj1 (root_compact_sides now r)) in Hid. }
  destruct (landed_side _ _ _ _ _ _ _ Hidr) as (sr & Hsr & Hsr'). rewrite Hsd in Hsr.
  exists sr. split; [done|]. split; [done|]. split.
  { transitivity (hr_name r); [destruct Hr as [->| ->]; [done|apply root_compact_sides]|].
    unfold r, landed. destruct (count _ _ _ _ _). apply Ho. }
  intros p Hex Hacc. assert (accounted_at cfg r sr' p) as Haccr.
  { apply (owed_same_accounted root root0) with (sr' := sr) in Hacc; [|by apply same_owing_owed].
    destruct (landed_owed now root0 k ne ex id sr sr' p) as [?|[?|Hk]]; [by rewrite Hsd|done|done|..].
    - by eapply owed_same_accounted.
    - by intros op _; left.
    - intros op Hop. apply opFor_keeps in Hop. congruence. }
  destruct Hr as [->| ->]; [done|]. eapply owed_same_accounted; [|exact Haccr]. by eapply root_compact_owed.
Qed.

Lemma setEntry_Accounted now root k e o b h ex r root' :
  setEntry cfg now root k e o b h ex = (r, root') -> hr_sides root !! ex = None ->
  Accounted cfg root -> Accounted cfg root' /\ hr_sides root' !! ex = None /\ hr_name root' = hr_name root /\
    (forall id sr', hr_sides root' !! id = Some sr' -> exists sr, hr_sides root !! id = Some sr /\ sr_info sr' = sr_info sr).
Proof.
  intros Hs Hex HA. destruct r as [ne|err].
  - assert (forall id sr', hr_sides root' !! id = Some sr' -> exists sr, hr_sides root !! id = Some sr /\
      sr_info sr' = sr_info sr /\ hr_name root' = hr_name root /\ accounted cfg root' sr') as Hall.
    { intros id sr' Hid. destruct (setEntry_accounted _ _ _ _ _ _ _ _ _ _ _ _ Hs Hid) as (sr & Hsr & -> & Hn & Hacc).
      exists sr. split_and!; [done|unfold mark; by repeat case_match|done|]. intros p. apply (Hacc p); [|exact (HA id sr Hsr p)].
      left. intros ->. congruence. }
    destruct (setEntry_landed _ _ _ _ _ _ _ _ _ _ Hs) as (root0 & (_ & Hn0 & _) & Hsd & Hr).
    assert (hr_name root' = hr_name root /\ hr_sides root' !! ex = None) as [Hn Hn'].
    { set (r := landed now root0 k ne ex) in *.
      assert (hr_sides r !! ex = None /\ hr_name r = hr_name root) as [Hx Hy].
      { unfold r, landed. destruct (count _ _ _ _ _). simpl. rewrite map_lookup_imap, Hsd, Hex. done. }
      destruct (root_compact_sides now r) as [H1 H2]. destruct Hr as [->| ->]; [done|]. rewrite H1, H2. done. }
    split_and!; try done.
    + intros id sr' Hid. by destruct (Hall id sr' Hid) as (? & _ & _ & _ & ?).
    + intros id sr' Hid. destruct (Hall id sr' Hid) as (sr & ? & ? & _). eauto.
  - pose proof (setEntry_err _ _ _ _ _ _ _ _ _ _ _ Hs) as ((He & _) & Hsd & _).
    assert (hr_name root' = hr_name root /\ hr_forgot root' = hr_forgot root) as [Hn Hf].
    { revert Hs. unfold setEntry. repeat case_match; by intros [= _ <-]. }
    rewrite Hsd. split_and!; try done; [|by eauto]. intros id sr. rewrite Hsd. intros Hid p.
    apply (owed_same_accounted root root' sr sr p); [by apply same_owing_owed|exact (HA id sr Hid p)].
Qed.

Lemma resurrect_Accounted now side ds root r root' :
  resurrect_dirs cfg now root side ds = (r, root') -> hr_sides root !! "" = None ->
  Accounted cfg root -> Accounted cfg root' /\ hr_sides root' !! "" = None /\ hr_name root' = hr_name root /\
    (forall id sr', hr_sides root' !! id = Some sr' -> exists sr, hr_sides root !! id = Some sr /\ sr_info sr' = sr_info sr).
Proof.
  revert root. induction ds as [|[a mode] ds IH]; intros root; simpl.
  { intros [= <- <-] ??. split_and!; eauto. }
  destruct (setEntry _ _ _ _ _ _ _ _ _) as [r1 root1] eqn:Es. intros Hr Hex HA.
  destruct (setEntry_Accounted _ _ _ _ _ _ _ _ _ _ Es Hex HA) as (HA1 & Hex1 & Hn1 & Hin1).
  destruct r1; [|injection Hr as <- <-; done].
  destruct (IH root1 Hr Hex1 HA1) as (HA2 & Hex2 & Hn2 & Hin2). split_and!; [done..|congruence|].
  intros id sr2 Hid. destruct (Hin2 id sr2 Hid) as (sr1 & H1 & E1). destruct (Hin1 id sr1 H1) as (sr & H0 & E0).
  exists sr. split; [done|congruence].
Qed.
(** ** Committing *)

Lemma for_side_own root p k m ex id sr :
  keyFor cfg root p (location (sr_info sr)) = Some (k, m) -> id <> ex -> for_side k ex id sr = true.
Proof.
  intros Hkf Hid. unfold for_side. rewrite (proj2 (String.eqb_neq _ _)) by done. simpl.
  destruct (keyFor_spec _ _ _ _ _ _ Hkf) as (_ & _ & [->| ->]); [done|]. rewrite String.eqb_refl. by rewrite andb_false_r.
Qed.

(** Changing what one side holds of one path. *)
Lemma on_side_Accounted root id f p :
  Accounted cfg root ->
  (forall sr q, q <> p -> agree_at q sr (f sr)) ->
  (forall sr, hr_sides root !! id = Some sr -> accounted_at cfg root (f sr) p) ->
  Accounted cfg (on_side root id f).
Proof.
  intros HA Hag Hp id' sr'. simpl. destruct (base.decide (id = id')) as [<-|Hne].
  - rewrite lookup_alter_eq. destruct (hr_sides root !! id) as [sr|] eqn:Hsr; [|done]. intros [= <-] q.
    apply (owed_same_accounted root (on_side root id f) (f sr) (f sr) q); [by apply same_owing_owed|].
    destruct (base.decide (q = p)) as [->|Hq]; [by apply Hp|].
    apply (accounted_agree _ _ sr); [by apply Hag|exact (HA id sr Hsr q)].
  - rewrite lookup_alter_ne by done. intros Hid' q.
    apply (owed_same_accounted root (on_side root id f) sr' sr' q); [by apply same_owing_owed|exact (HA id' sr' Hid' q)].
Qed.

Lemma refused_agree now c sr q : q <> c_path c -> agree_at q sr (refused_at now c sr).
Proof.
  intros Hq. unfold refused_at. eapply agree_trans; [|by apply mark_agree].
  case_match; split_and!; simpl; try done; rewrite ?lookup_insert_ne, ?lookup_delete_ne by done; done.
Qed.

Lemma marked_accounted root sr p now : accounted_at cfg root (mark sr p now) p.
Proof. intros op Hop%opFor_keeps. left. apply mark_dirty. by rewrite mark_keeps in Hop. Qed.

(** A side that holds a path's state is owed nothing of it. *)
Lemma held_settles root sr p k m e :
  keyFor cfg root p (location (sr_info sr)) = Some (k, m) -> hr_entries root !! k = Some e ->
  opFor cfg root (held_at sr p e) p = None.
Proof.
  intros Hkf He. unfold opFor, held_at.
  destruct (Live (he_entry e)) eqn:Hl; simpl; rewrite Hkf, He, Hl; destruct (negb _); try done.
  - by rewrite lookup_insert_eq, Z.eqb_refl.
  - by rewrite lookup_delete_eq.
Qed.

(** A plan of a change by an attached side. *)
Record wf_reporter (root : hubRoot) (p : plan) : Prop := {
  rp_key : keyFor cfg root (c_path (pl_change p)) (location (pl_side p)) = Some (pl_key p, pl_merger p);
  rp_info sr : hr_sides root !! side_id (pl_side p) = Some sr -> sr_info sr = pl_side p;
  rp_ids : hr_sides root !! "" = None
}.

Lemma set_blobs_Accounted root b : Accounted cfg root -> Accounted cfg (set_blobs root b).
Proof.
  intros HA id sr Hid q. apply (owed_same_accounted root _ sr sr q); [by apply same_owing_owed|exact (HA id sr Hid q)].
Qed.

Lemma unvouch_Accounted root k e id :
  hr_entries root !! k = Some e -> Accounted cfg root -> Accounted cfg (unvouch root k e id).
Proof.
  intros He HA id' sr. unfold unvouch. case_match; [apply HA|]. destruct (Journal.commit _ _) as [[? ?] ?]. simpl.
  intros Hid q. eapply (owed_same_accounted root _ sr sr q); [|exact (HA id' sr Hid q)].
  split; [apply agree_refl|]. split; [done|]. left. unfold unknown, opFor. simpl.
  rewrite !(keyFor_root cfg root _ q) by done.
  destruct (keyFor cfg root q _) as [[k' m]|] eqn:Hkf; [|split; [done|by intros (? & ? & ? & _)]].
  destruct (base.decide (k = k')) as [<-|Hne].
  - rewrite lookup_insert_eq, He. split; [done|]. intros (? & ? & [= <- <-] & ?). congruence.
  - rewrite lookup_insert_ne by done. split; [done|]. intros (? & ? & [= <- <-] & ?). eexists _, _.
    split; [done|]. by rewrite lookup_insert_ne.
Qed.

(** The reporting side of a change just set: it holds it, or is sent the merge. *)
Lemma set_Accounted now root1 p res extra entry o ex hist ne root2 blobs :
  0 <= cf_TombstoneTTL cfg -> Accounted cfg root1 -> wf_reporter root1 p -> sets p res extra = (entry, o, ex) ->
  side_id (pl_side p) <> "" ->
  setEntry cfg now root1 (pl_key p) entry o (c_base (pl_change p)) hist ex = (Ok ne, root2) ->
  Accounted cfg (on_side (set_blobs root2 blobs) (side_id (pl_side p))
         (if bool_decide (decision res = Merged)
          then fun sr => set_held sr (<[c_path (pl_change p) := 0]> (sr_held sr))
          else fun sr => held_at sr (c_path (pl_change p)) ne)).
Proof.
  intros Httl HA [Hkf Hinfo Hids] Hsets Hid Hset. set (q := c_path (pl_change p)) in *.
  pose proof (keyFor_path _ _ _ _ _ Hkf) as Hkp.
  assert (forall id sr', hr_sides root2 !! id = Some sr' -> exists sr, hr_sides root1 !! id = Some sr /\
    sr' = (if for_side (pl_key p) ex id sr then mark sr q now else sr) /\ hr_name root2 = hr_name root1 /\
    forall x, id <> ex \/ x <> q -> accounted_at cfg root1 sr x -> accounted_at cfg root2 sr' x) as Hside.
  { intros id sr' H. rewrite <- Hkp. by eapply setEntry_accounted. }
  assert (forall id sr' x, hr_sides root2 !! id = Some sr' -> id <> ex \/ x <> q -> accounted_at cfg root2 sr' x) as Hacc.
  { intros id sr' x Hs Hx. destruct (Hside id sr' Hs) as (sr & Hsr & _ & _ & Ha). apply Ha; [done|]. exact (HA id sr Hsr x). }
  intros id' sr'. simpl. destruct (base.decide (side_id (pl_side p) = id')) as [<-|Hne].
  2: { rewrite lookup_alter_ne by done. intros Hs x.
       apply (owed_same_accounted root2 _ sr' sr' x); [by apply same_owing_owed|].
       apply Hacc with id'; [done|]. left. unfold sets in Hsets. intros ->. case_match; simplify_eq.
       destruct (Hside _ _ Hs) as (sr & Hsr & _). congruence. }
  rewrite lookup_alter_eq. destruct (hr_sides root2 !! _) as [sr2|] eqn:Hs2; [|done]. intros [= <-].
  destruct (Hside _ _ Hs2) as (sr & Hsr & Hsr2 & Hn & _). intros x. unfold sets in Hsets.
  match goal with |- forall op, opFor cfg ?r ?s x = _ -> _ => apply (owed_same_accounted root2 r s s x) end; [by apply same_owing_owed|].
  destruct (base.decide (x = q)) as [->|Hx].
  2: { apply (accounted_agree _ _ sr2); [|by apply Hacc with (side_id (pl_side p)); [|right]].
       destruct (bool_decide (decision res = Merged)); [|unfold held_at; destruct (Live (he_entry ne))]; split_and!; simpl; try done;
         rewrite ?lookup_insert_ne, ?lookup_delete_ne by done; done. }
  assert (sr_info sr2 = pl_side p) as Hi2 by (rewrite Hsr2, <- (Hinfo _ Hsr); unfold mark; by repeat case_match).
  case_bool_decide as Hm; injection Hsets as <- <- <-.
  - rewrite Hsr2. rewrite (for_side_own root1 q _ (pl_merger p)) by (rewrite ?(Hinfo _ Hsr); done).
    intros op Hop%opFor_keeps. left. change (keeps (mark sr q now) q = true) in Hop. simpl. apply mark_dirty.
    by rewrite mark_keeps in Hop.
  - intros op Hop. rewrite (held_settles root2 sr2 q (pl_key p) (pl_merger p) ne) in Hop; [done| |by eapply setEntry_lookup].
    rewrite (keyFor_root cfg root1 root2), Hi2 by done. done.
Qed.

(** C14: committing a change forgets nobody: after it, whatever any attached side
    lacks of any path (the new state, a merged file, a folder brought back, the
    state a refused change is to be undone with) is waiting to be sent, in a
    batch or refused by the side. *)
Theorem commitPlan_accounts now root p res extra :
  0 <= cf_TombstoneTTL cfg -> Accounted cfg root -> wf_reporter root p -> side_id (pl_side p) <> "" ->
  Accounted cfg (commitPlan cfg now root p res extra).2.
Proof.
  intros Httl HA Hrp Hid. destruct (commitPlan cfg now root p res extra) as [ack root'] eqn:Hcp. simpl.
  assert (Accounted cfg (on_side root (side_id (pl_side p)) (refused_at now (pl_change p)))) as Hside.
  { apply on_side_Accounted with (c_path (pl_change p)); [done|intros; by apply refused_agree|]. intros. apply marked_accounted. }
  destruct (commitPlan_commits _ _ _ _ _ _ _ _ Hcp)
    as [|h|rev root' Hk [->|(e & He & ->)]|err root1 Hp Hres|root1 entry o ex hist err root2 Hp Hres Hs Hset
       |root1 entry o ex hist ne root2 blobs st Hp Hres Hs Hset _].
  - done.
  - intros id sr Hs q. apply (owed_same_accounted root _ sr sr q); [by apply same_owing_owed|exact (HA id sr Hs q)].
  - done.
  - by apply unvouch_Accounted.
  - by destruct (resurrect_Accounted _ _ _ _ _ _ Hres (rp_ids _ _ Hrp) HA).
  - destruct (resurrect_Accounted _ _ _ _ _ _ Hres (rp_ids _ _ Hrp) HA) as (HA1 & _ & _ & _).
    pose proof (setEntry_err _ _ _ _ _ _ _ _ _ _ _ Hset) as ((He & _) & Hsd & _).
    assert (same_owing root1 root2) as Hso.
    { split; [done|]. revert Hset. unfold setEntry. repeat case_match; by intros [= _ <-]. }
    intros id sr. rewrite Hsd. intros Hid' q. apply (owed_same_accounted root1 _ sr sr q); [by apply same_owing_owed|].
    exact (HA1 id sr Hid' q).
  - destruct (resurrect_Accounted _ _ _ _ _ _ Hres (rp_ids _ _ Hrp) HA) as (HA1 & Hids1 & Hn1 & Hin1).
    eapply set_Accounted; [done|exact HA1| |done..]. split; [|intros sr Hsr|done].
    + rewrite (keyFor_root cfg root root1) by done. apply (rp_key _ _ Hrp).
    + destruct (Hin1 _ _ Hsr) as (sr0 & H0 & ->). by apply (rp_info _ _ Hrp).
Qed.
(** ** A round of delivery *)

(** A side with nothing holding its ops back. *)
Record ready (sr : sideRoot) : Prop := {
  rd_inflight : sr_inflight sr = ∅;
  rd_blocked : sr_blocked sr = ∅;
  rd_backoff : sr_backoff sr = ∅;
  rd_paused : sr_paused sr = ""
}.

(** The revs a side holds are no newer than the states it is owed. *)
Definition held_sane (root : hubRoot) (sr : sideRoot) : Prop :=
  forall p op h, opFor cfg root sr p = Some op -> sr_held sr !! p = Some h -> Live (o_entry op) = true -> h <= o_rev op.

Lemma look_at_ready root sr now p since op :
  ready sr -> opFor cfg root sr p = Some op ->
  exists sr', look_at cfg root sr now true p since = (Sends (laneFor cfg root op) op, sr') /\ ready sr' /\ same_view sr sr'.
Proof.
  intros [Hi Hb Hbo Hp] Hop. unfold look_at. rewrite Hop, Hb, lookup_empty. simpl. rewrite Hbo, lookup_empty. simpl.
  rewrite Hp. simpl. eexists. split; [done|]. split; [|done]. split; simpl; [done| |done..]. by rewrite delete_empty.
Qed.

Lemma look_at_settled root sr now p since :
  ready sr -> opFor cfg root sr p = None ->
  exists sr', look_at cfg root sr now true p since = (Settled, sr') /\ ready sr' /\ same_view sr sr'.
Proof.
  intros [Hi Hb Hbo Hp] Hop. unfold look_at. rewrite Hop. eexists. split; [done|]. split; [|done].
  split; simpl; [done..| |done]. by rewrite Hbo, delete_empty.
Qed.

(** Every path that lacks something is sent. *)
Lemma look_at_all_sends root now ps sr next out sr' next' out' :
  look_at_all cfg root now true ps sr next out = (sr', next', out') -> ready sr ->
  (forall lo, lo ∈ out -> lo ∈ out') /\
  (forall p op, p ∈ ps.*1 -> opFor cfg root sr p = Some op -> (laneFor cfg root op, op) ∈ out').
Proof.
  revert sr next out. induction ps as [|[p since] ps IH]; intros sr next out; simpl.
  { intros [= <- <- <-] _. split; [done|by intros ?? ?%elem_of_nil]. }
  intros Hrun Hrd. rewrite (rd_inflight _ Hrd), lookup_empty in Hrun.
  destruct (opFor cfg root sr p) as [op0|] eqn:Hop.
  - destruct (look_at_ready root sr now p since op0 Hrd Hop) as (sr1 & Hl & Hrd1 & Hv). rewrite Hl in Hrun.
    destruct (IH _ _ _ Hrun Hrd1) as [H1 H2]. split.
    + intros lo Hlo. apply H1, elem_of_app. by left.
    + intros q op [->|Hq]%elem_of_cons Ho.
      * rewrite Hop in Ho. injection Ho as <-. apply H1, elem_of_app. right. by left.
      * eapply H2; [done|]. by rewrite (opFor_view _ _ _ _ _ Hv).
  - destruct (look_at_settled root sr now p since Hrd Hop) as (sr1 & Hl & Hrd1 & Hv). rewrite Hl in Hrun.
    destruct (IH _ _ _ Hrun Hrd1) as [H1 H2]. split; [done|].
    intros q op [->|Hq]%elem_of_cons Ho; [congruence|]. eapply H2; [done|]. by rewrite (opFor_view _ _ _ _ _ Hv).
Qed.

(** What opFor reads of a side at a path. *)
Definition sees (p : string) (sr sr' : sideRoot) : Prop :=
  sr_info sr' = sr_info sr /\ sr_only sr' = sr_only sr /\ sr_held sr' !! p = sr_held sr !! p.

Lemma opFor_sees root sr sr' p : sees p sr sr' -> opFor cfg root sr' p = opFor cfg root sr p.
Proof. unfold opFor, keeps. by intros (-> & -> & ->). Qed.

Lemma sees_trans p a b c : sees p a b -> sees p b c -> sees p a c.
Proof. unfold sees. intros (-> & -> & ->). done. Qed.

(** A side that did everything it was sent. *)
Definition all_applied (b : Batch) : list Result :=
  map (fun op => MkResult (o_path op) (o_rev op) Applied "") (b_ops b).

Lemma result_for_applied ops op :
  NoDup (map o_path ops) -> op ∈ ops ->
  result_for (map (fun op => MkResult (o_path op) (o_rev op) Applied "") ops) op = (Applied, "").
Proof.
  intros Hnd Hop. unfold result_for.
  set (rs := map _ ops). destruct (find (fun r => String.eqb (res_path r) (o_path op)) (rev rs)) as [r|] eqn:Hf.
  - apply find_some in Hf as [Hin He]. apply in_rev in Hin. apply String.eqb_eq in He.
    apply in_map_iff in Hin as (op' & <- & Hop'). simpl in *.
    assert (op' = op) as ->; [|by rewrite Z.eqb_refl].
    apply list_elem_of_In in Hop'. apply list_elem_of_lookup in Hop as [i Hi], Hop' as [j Hj].
    assert (i = j) as ->; [|congruence]. apply (NoDup_lookup (map o_path ops) i j (o_path op)); [done|..];
      rewrite list_lookup_fmap, ?Hi, ?Hj; simpl; congruence.
  - exfalso. eapply find_none in Hf; [|rewrite <- in_rev; apply in_map, list_elem_of_In; exact Hop].
    simpl in Hf. by rewrite String.eqb_refl in Hf.
Qed.

Definition deliver (now : Z) (sr : sideRoot) (b : Batch) : sideRoot :=
  finish_side cfg now (b_ops b) (Ok (all_applied b)) sr.

(** Applied ops settle, each its own path. *)
Lemma finish_applied root now results sent ops sr :
  NoDup (map o_path ops) -> (forall op, op ∈ ops -> result_for results op = (Applied, "")) ->
  (forall op, op ∈ ops -> opFor cfg root sr (o_path op) = Some op /\
    (forall h, sr_held sr !! o_path op = Some h -> Live (o_entry op) = true -> h <= o_rev op)) ->
  let sr' := foldl (fun sr op => finish_op cfg now results (sent (o_path op)) sr op) sr ops in
  (forall op, op ∈ ops -> opFor cfg root sr' (o_path op) = None) /\
  (forall p, p ∉ map o_path ops -> sees p sr sr').
Proof.
  revert sr. induction ops as [|op ops IH]; intros s; cbn [map foldl].
  { intros _ _ _. split; [by intros ? ?%elem_of_nil|done]. }
  intros [Hn Hnd]%NoDup_cons Hres Hop. set (s1 := finish_op cfg now results (sent (o_path op)) s op).
  assert (forall q, q <> o_path op -> sees q s s1) as Hag.
  { intros q Hq. destruct (finish_op_agree cfg now results (sent (o_path op)) s op q Hq) as (? & ? & ? & _). done. }
  destruct (IH s1 Hnd) as [H1 H2]; [intros; apply Hres; by right|..].
  { intros op' Hop'. assert (o_path op' <> o_path op) as Hne by (intros E; apply Hn; rewrite <- E; by apply list_elem_of_fmap_2).
    rewrite (opFor_sees root s s1) by auto. destruct (Hag _ Hne) as (_ & _ & ->). apply Hop. by right. }
  split.
  - intros op' [->|Hop']%elem_of_cons; [|by apply H1]. rewrite (opFor_sees root s1) by (by apply H2).
    destruct (Hop op (list_elem_of_here _ _)) as [Ho Hle].
    destruct (applied_held cfg now s op "" Hle results (sent (o_path op)) (Hres op (list_elem_of_here _ _))) as (Hi & Hon & Hh).
    by eapply applied_settles.
  - intros p [Hp Hps]%not_elem_of_cons. eapply sees_trans; [by apply Hag|by apply H2].
Qed.

Lemma deliver_spec root now b sr :
  NoDup (map o_path (b_ops b)) ->
  (forall op, op ∈ b_ops b -> opFor cfg root sr (o_path op) = Some op) -> held_sane root sr ->
  (forall op, op ∈ b_ops b -> opFor cfg root (deliver now sr b) (o_path op) = None) /\
  (forall p, p ∉ map o_path (b_ops b) -> sees p sr (deliver now sr b)).
Proof.
  intros Hnd Hops Hsane.
  destruct (finish_applied root now (all_applied b) (sent_at sr) (b_ops b) (landed_ops sr (b_ops b)) Hnd) as [H1 H2].
  - intros. by apply result_for_applied.
  - intros op Hop. rewrite (opFor_sees root sr) by done. split; [by apply Hops|].
    intros h Hh. eapply Hsane; [by apply Hops|done].
  - split; [done|]. intros p Hp. by apply H2.
Qed.

Lemma deliver_all root now bs sr :
  NoDup (map o_path (flat_map b_ops bs)) ->
  (forall op, op ∈ flat_map b_ops bs -> opFor cfg root sr (o_path op) = Some op) -> held_sane root sr ->
  let sr' := foldl (deliver now) sr bs in
  (forall op, op ∈ flat_map b_ops bs -> opFor cfg root sr' (o_path op) = None) /\
  (forall p, p ∉ map o_path (flat_map b_ops bs) -> sees p sr sr').
Proof.
  revert sr. induction bs as [|b bs IH]; intros sr; cbn [flat_map foldl map].
  { intros _ _ _. split; [by intros ? ?%elem_of_nil|done]. }
  rewrite map_app. intros (Hn1 & Hdisj & Hn2)%NoDup_app Hops Hsane.
  destruct (deliver_spec root now b sr Hn1) as [H1 H2]; [intros; apply Hops, elem_of_app; by left|done|].
  destruct (IH (deliver now sr b) Hn2) as [H3 H4].
  { intros op Hop. rewrite (opFor_sees root sr); [apply Hops, elem_of_app; by right|]. apply H2.
    intros Hin. apply (Hdisj _ Hin). by apply list_elem_of_fmap_2. }
  { intros p op h Ho Hh Hl. destruct (decide (p ∈ map o_path (b_ops b))) as [Hp|Hp].
    - apply list_elem_of_fmap in Hp as (op' & -> & Hop'). rewrite (H1 _ Hop') in Ho. done.
    - rewrite (opFor_sees root sr) in Ho by (by apply H2). destruct (H2 p Hp) as (_ & _ & E). rewrite E in Hh. by eapply Hsane. }
  split.
  - intros op [Hop|Hop]%elem_of_app; [|by apply H3].
    rewrite (opFor_sees root (deliver now sr b)); [by apply H1|]. apply H4. apply Hdisj. by apply list_elem_of_fmap_2.
  - intros p Hp. rewrite elem_of_app in Hp. eapply sees_trans; [apply H2; tauto|apply H4; tauto].
Qed.

(** C16: a round of delivery brings a side up to date: a side nothing holds back, that
    counts as holding no rev above that of the state it is owed, sent everything that
    is due in a flush and applying it all, lacks nothing afterwards of any path. The
    condition on revs can fail after a hub lost its newest revs and a side attached
    with a later one: the side is then owed the path again. *)
Theorem round_delivers root id now now' sr batches next root1 :
  (0 < cf_MaxBatch cfg)%nat -> hr_sides root !! id = Some sr -> hr_broken root = None ->
  accounted cfg root sr -> ready sr -> held_sane root sr ->
  collect cfg root id now true = (batches, next, root1) ->
  exists sr1, hr_sides root1 !! id = Some sr1 /\
    forall p, opFor cfg root (foldl (deliver now') sr1 batches) p = None.
Proof.
  intros Hn Hsr Hb Hacc Hrd Hsane Hc. pose proof Hc as Hc'.
  destruct (collect_spec _ _ _ _ _ _ _ _ _ Hn Hsr Hb Hacc Hc) as (sr1 & Hs & _ & _ & _ & _ & Hv & Hnd & Hops).
  exists sr1. split; [by rewrite Hs, lookup_insert_eq|].
  destruct (deliver_all root now' batches sr1 Hnd) as [H1 H2].
  { intros op Hop. rewrite (opFor_view _ _ _ _ _ Hv). by apply Hops. }
  { intros p op h. rewrite (opFor_view _ _ _ _ _ Hv). destruct Hv as (_ & _ & ->). apply Hsane. }
  intros p. destruct (decide (p ∈ map o_path (flat_map b_ops batches))) as [Hp|Hp].
  { apply list_elem_of_fmap in Hp as (op & -> & Hop). by apply H1. }
  rewrite (opFor_sees root sr1) by (by apply H2). rewrite (opFor_view _ _ _ _ _ Hv).
  destruct (opFor cfg root sr p) as [op|] eqn:Hop; [|done]. exfalso. apply Hp.
  destruct (Hacc p op Hop) as [Hd|[Hi|(r & Hr & _)]];
    [|rewrite (rd_inflight _ Hrd), lookup_empty in Hi; by destruct Hi|by rewrite (rd_blocked _ Hrd), lookup_empty in Hr].
  unfold collect in Hc'. rewrite Hsr, Hb in Hc'.
  destruct (look_at_all _ _ _ _ _ _ _ _) as [[sr2 next2] out] eqn:Hl. injection Hc' as <- <- <-.
  destruct (look_at_all_sends _ _ _ _ _ _ _ _ _ Hl Hrd) as [_ Hsend].
  destruct (look_at_all_spec _ _ _ _ _ _ _ _ _ _ _ Hl) as (_ & _ & _ & _ & Hcol & _);
    [apply NoDup_fst_map_to_list| |done|constructor|constructor|by intros ? ?%elem_of_nil|].
  { intros q (x & -> & Hx)%list_elem_of_fmap. destruct x as [q s']. apply elem_of_map_to_list in Hx. by exists s'. }
  rewrite Forall_forall in Hcol.
  apply list_elem_of_fmap. exists op. split; [by rewrite (opFor_path _ _ _ _ _ Hop)|].
  assert (op ∈ flat_map b_ops (flat_map (lane_batches cfg root out) lanes)) as Hin; [|exact Hin].
  rewrite collected_ops; [|done|].
  2: { intros [lane o] Hlo. destruct (Hcol _ Hlo) as (_ & -> & _). apply laneFor_lanes. }
  apply list_elem_of_fmap. exists (laneFor cfg root op, op). split; [done|]. apply (Hsend p); [|done].
  destruct Hd as [s' Hs']. apply list_elem_of_fmap. exists (p, s'). split; [done|]. by apply elem_of_map_to_list.
Qed.
End delivery.
