(* ===== verification/HubApi.v ===== *)
(** * The hub's operations (internal/sharesync/hub.go, hub_root.go: openHubRoot)

    The hub over all its roots: opening a root's state, attaching and detaching
    sides, taking reports, and what a flush waits for. The dispatchers run
    beside these operations and are modelled by [collect] and [finish]. *)

From S2P Require Import Prelude GoStrings Sha256 Entry SyncPolicy Mergers Journal HubState HubCommit HubInvariants HubProcess HubAnswers HubDispatch HubDelivery.
Local Open Scope string_scope.
Local Open Scope Z_scope.
Local Open Scope list_scope.

Section api.
Context (cfg : hubConf) `{C : !journal_codec hubRecord}.

(** ** Opening a root *)

(** Policies.covers: every policy a root of the table can give a path in [name]
    has an implementation. *)
Definition policies_of (r : Root) : list Policy := root_default r :: map r_policy (root_rules r).

Definition policy_covered (p : Policy) : bool :=
  match p with
  | LocationLocal => true
  | _ => match cf_policies cfg p with Some _ => true | None => false end
  end.

Definition covers (name : string) : bool :=
  forallb (fun r => negb (within (root_path r) name || within name (root_path r))
                    || forallb policy_covered (policies_of r)) (cf_table cfg).

(** The state of a root being read from its journal. *)
Record loading := MkLoading {
  ld_entries : gmap key hubEntry;
  ld_children : gmap string Z;
  ld_total : Z;
  ld_rev : Z;
  ld_meta : hubMeta
}.

Definition load_record (l : loading) (kv : string * option hubRecord) : loading :=
  let '(k, val) := kv in
  if String.eqb k metaKey then
    match val with
    | Some (RecMeta m) => MkLoading (ld_entries l) (ld_children l) (ld_total l) (ld_rev l) m
    | _ => l
    end
  else match parseKey k, val with
       | Some pk, Some (RecEntry e) =>
           match check (he_entry e) with
           | None =>
               let '(ch, total) := count (ld_children l) (ld_total l) None (Some e) pk in
               MkLoading (<[pk := e]> (ld_entries l)) ch total (Z.max (ld_rev l) (he_rev e)) (ld_meta l)
           | Some _ => l
           end
       | _, _ => l
       end.

Definition load (raw : gmap string (option hubRecord)) : loading :=
  foldl load_record (MkLoading ∅ ∅ 0 0 (MkMeta "" 0 0)) (map_to_list raw).

(** openHubRoot; [fresh] is the epoch newEpoch would make. *)
Definition openHubRoot (name writer fresh : string) (d : disk) (blobs : gmap string blob)
    : option (result journal_error hubRoot) :=
  match Table_Root (cf_table cfg) name with
  | Some (tableRoot, _) =>
      if negb (validPath name) || negb (covers name) then None
      else
        let broken e := MkHubRoot name (root_cap tableRoot) "" 0 0 ∅ ∅ 0 ∅ ∅
                          (MkJournal false 0 0 0 0 []) (openJournal (V := hubRecord) d).2 blobs (Some e) writer in
        match openJournal d with
        | (Err ErrNewerState, _) => Some (Ok (broken ErrNewerState))
        | (Err e, _) => Some (Err e)
        | (Ok (j, raw), d) =>
            let l := load raw in
            let m := ld_meta l in
            let root epoch := MkHubRoot name (root_cap tableRoot) epoch (Z.max (ld_rev l) (me_rev m)) (me_forgot m)
                                (ld_entries l) (ld_children l) (ld_total l) ∅ ∅ j d blobs None writer in
            if String.eqb (me_epoch m) "" then
              match putMeta (root fresh) with
              | (Some e, _) => Some (Err e)
              | (None, root) => Some (Ok root)
              end
            else Some (Ok (root (me_epoch m)))
        end
  | None => None
  end.

(** ** Attach *)

(** One path a side says it holds: the state it is recorded at, and whether it
    is to be taken as a change the hub has not seen. *)
Definition attach_held (matching : bool) (rs : hubRoot * sideRoot * bool * list Held) (held : Held)
    : hubRoot * sideRoot * bool * list Held :=
  let '(root, sr, regressed, stale) := rs in
  let p := held_path held in
  if negb (validPath p) || (match check (held_entry held) with Some _ => true | None => false end)
     || negb (Live (held_entry held)) || negb (keeps sr p)
  then rs
  else
    let cur := match keyFor cfg root p (location (sr_info sr)) with
               | Some (k, _) => hr_entries root !! k
               | None => None
               end in
    let unseen root regressed :=
      (root, set_held sr (<[p := 0]> (sr_held sr)), regressed, stale ++ [held]) in
    if negb matching then unseen root regressed
    else if hr_rev root <? held_rev held then unseen (set_rev root (held_rev held)) true
    else match cur with
         | Some e =>
             if (he_rev e =? held_rev held) && negb (Same (he_entry e) (held_entry held))
             then unseen root regressed
             else (root, set_held sr (<[p := held_rev held]> (sr_held sr)), regressed, stale)
         | None => (root, set_held sr (<[p := held_rev held]> (sr_held sr)), regressed, stale)
         end.

(** The marks of an attached side: what it lacks, and what it holds. *)
Definition attach_mark (now : Z) (root : hubRoot) (info : SideInfo) (sr : sideRoot) : sideRoot :=
  let sr := foldl (fun sr ke =>
              let '(k, e) := ke in
              if negb (String.eqb (k_loc k) "") && negb (String.eqb (k_loc k) (location info)) then sr
              else if Live (he_entry e) && negb (match sr_held sr !! k_path k with
                                                 | Some rev => rev =? he_rev e
                                                 | None => false
                                                 end)
              then mark sr (k_path k) now else sr) sr (map_to_list (hr_entries root)) in
  foldl (fun sr ph => mark sr ph.1 now) sr (map_to_list (sr_held sr)).

(** Attach's part under one root's lock. *)
Definition attach_root (now : Z) (root : hubRoot) (info : SideInfo) (rh : RootHello) : hubRoot * list Held :=
  let sr := newSideRoot info in
  let sr := if loginsOnly info then set_only sr (Some (locationScoped cfg root)) else sr in
  match hr_broken root with
  | Some _ => (set_sides root (<[side_id info := sr]> (hr_sides root)), [])
  | None =>
      let matching := negb (String.eqb (rh_epoch rh) "") && String.eqb (rh_epoch rh) (hr_epoch root) in
      let '(root, sr, regressed, stale) := foldl (attach_held matching) (root, sr, false, []) (rh_held rh) in
      let root := if regressed then (putMeta root).2 else root in
      let sr := attach_mark now root info sr in
      (set_sides root (<[side_id info := sr]> (hr_sides root)), stale)
  end.

(** An unseen path taken as a change: whatever came of it, the side then holds
    it at a rev the hub cannot vouch for, and is sent its state. *)
Definition unvouched (now : Z) (p : string) (sr : sideRoot) : sideRoot :=
  mark (set_held sr (<[p := 0]> (sr_held sr))) p now.

Fixpoint attach_stale (envs : nat -> nat -> hubEnv) (now : Z) (store : list Conflict) (root : hubRoot) (info : SideInfo)
    (stale : list Held) : list Conflict * hubRoot :=
  match stale with
  | [] => (store, root)
  | held :: rest =>
      let p := held_path held in
      let '(_, store, root) :=
        process cfg (envs (length rest)) (fun _ r => r) store root info (MkChange p 0 (held_entry held)) true in
      attach_stale envs now store (on_side root (side_id info) (unvouched now p)) info rest
  end.

(** ** The hub *)

Record Hub := MkHubState {
  hub_roots : list hubRoot;            (* in order *)
  hub_sides : gmap string hubSide;
  hub_conflicts : list Conflict;
  hub_closed : bool
}.

Definition detach_root (id : string) (root : hubRoot) : hubRoot :=
  set_holds (set_sides root (delete id (hr_sides root))) (filter (fun hk => hk.1 <> id) (hr_holds root)).

Definition Detach (h : Hub) (id : string) : Hub :=
  match hub_sides h !! id with
  | None => h
  | Some _ =>
      MkHubState (map (detach_root id) (hub_roots h)) (delete id (hub_sides h)) (hub_conflicts h) (hub_closed h)
  end.

(** The last hello of a root's name. *)
Definition hello_for (hello : list RootHello) (name : string) : RootHello :=
  default (MkRootHello "" "" []) (find (fun rh => String.eqb (rh_root rh) name) (rev hello)).

Fixpoint attach_roots (envs : nat -> nat -> hubEnv) (now : Z) (info : SideInfo) (store : list Conflict)
    (rs : list (hubRoot * list Held)) : list Conflict * list hubRoot :=
  match rs with
  | [] => (store, [])
  | (root, stale) :: rest =>
      let '(store, root) := attach_stale envs now store root info stale in
      let '(store, roots) := attach_roots envs now info store rest in
      (store, root :: roots)
  end.

Definition Attach (envs : nat -> nat -> hubEnv) (now : Z) (h : Hub) (info : SideInfo) (hello : list RootHello)
    : option (Hub * list (string * string)) :=
  if String.eqb (side_id info) "" then None
  else
    let h := Detach h (side_id info) in
    if hub_closed h then None
    else
      let attached := map (fun root => attach_root now root info (hello_for hello (hr_name root))) (hub_roots h) in
      let '(store, roots) := attach_roots envs now info (hub_conflicts h) attached in
      Some (MkHubState roots (<[side_id info := MkHubSide info None 0 ""]> (hub_sides h)) store false,
            map (fun root => (hr_name root, hr_epoch root)) (hub_roots h)).

(** ** Report *)

Fixpoint report_changes (envs : nat -> nat -> hubEnv) (gap : nat -> hubRoot -> hubRoot) (store : list Conflict)
    (root : hubRoot) (side : SideInfo) (stale : bool) (cs : list Change) : list Ack * list Conflict * hubRoot :=
  match cs with
  | [] => ([], store, root)
  | c :: rest =>
      let '(ack, store, root) := process cfg (envs (length rest)) gap store root side c stale in
      let '(acks, store, root) := report_changes envs gap store root side stale rest in
      (ack :: acks, store, root)
  end.

(** Report to one root. *)
Definition report_root (envs : nat -> nat -> hubEnv) (gap : nat -> hubRoot -> hubRoot) (store : list Conflict)
    (root : hubRoot) (side : SideInfo) (r : Report) : Reply * list Conflict * hubRoot :=
  let changes := sortChanges (r_changes r) in
  match hr_broken root with
  | Some _ => (MkReply (hr_epoch root) (map (fun c => answer c Deferred 0) changes), store, root)
  | None =>
      let stale := negb (String.eqb (r_epoch r) (hr_epoch root)) in
      let '(acks, store, root') := report_changes envs gap store root side stale changes in
      (MkReply (hr_epoch root) acks, store, root')
  end.

(** ** Kick *)

Definition kick_root (id : string) (root : hubRoot) : hubRoot :=
  on_side root id (fun sr => set_backoff (set_pause sr "" None) ∅).

Definition Kick (h : Hub) (id : string) : Hub :=
  match hub_sides h !! id with
  | None => h
  | Some s =>
      MkHubState (map (kick_root id) (hub_roots h)) (<[id := MkHubSide (hs_info s) None 0 (hs_downErr s)]> (hub_sides h))
        (hub_conflicts h) (hub_closed h)
  end.

(** ** What a flush waits for *)

Record owed := MkOwed { ow_rev : Z; ow_live : bool }.

(** Hub.owed in one root: what the side is to get now of the paths [want] keeps. *)
Definition owed_root (root : hubRoot) (id : string) (want : string -> bool) : gmap string owed :=
  match hr_sides root !! id, hr_broken root with
  | Some sr, None =>
      foldl (fun o p => if want p then
                          match opFor cfg root sr p with
                          | Some op => <[p := MkOwed (o_rev op) (Live (o_entry op))]> o
                          | None => o
                          end
                        else o) ∅
        (map fst (map_to_list (sr_dirty sr)) ++ map fst (map_to_list (sr_inflight sr)))
  | _, _ => ∅
  end.

Definition waits (o : gmap string owed) (sr : sideRoot) (p : string) : bool :=
  match o !! p with
  | None => false
  | Some ow =>
      match sr_held sr !! p with
      | Some held => negb (negb (held =? 0) && (ow_rev ow <=? held))
      | None => ow_live ow
      end
  end.

(** Hub.pending for one side of one root: how many ops are to send, and whether
    one of them can move. *)
Definition pending_side (root : hubRoot) (sr : sideRoot) (want : string -> bool) (owes : option (gmap string owed))
    : Z * bool :=
  let waiting p := match owes with None => true | Some o => waits o sr p end in
  let dirty := List.filter (fun p => want p && waiting p &&
                 match opFor cfg root sr p with
                 | None => false
                 | Some op => negb (match sr_blocked sr !! p with
                                    | Some r => rf_rev r =? o_rev op
                                    | None => false
                                    end)
                 end) (map fst (map_to_list (sr_dirty sr))) in
  let flying := List.filter (fun p => want p && waiting p) (map fst (map_to_list (sr_inflight sr))) in
  (Z.of_nat (length dirty + length flying),
   existsb (fun p => String.eqb (sr_paused sr) ""
                     || match opFor cfg root sr p with
                        | Some op => negb (bool_decide (ekind (o_entry op) = File))
                        | None => false
                        end) dirty
   || negb (bool_decide (flying = []))).

(** The changes of a root waiting for its cap. *)
Definition held_back (root : hubRoot) (want : string -> bool) : Z :=
  Z.of_nat (length (List.filter (fun hk => want hk.2) (elements (hr_holds root)))).

(** Hub.pending of one root: the sides behind with how many ops each, whether
    anything can move, and the changes waiting for the cap. *)
Definition pending_root (root : hubRoot) (only : option string) (want : string -> bool)
    (owes : option (gmap string owed)) (down : string -> bool) : list (string * Z) * bool * Z :=
  match hr_broken root with
  | Some _ => ([], false, 0)
  | None =>
      let sides := SortFunc (fun a b => Compare a.1 b.1)
                     (List.filter (fun s => match only with None => true | Some id => String.eqb s.1 id end)
                        (map_to_list (hr_sides root))) in
      let counts := map (fun s => (s.1, pending_side root s.2 want owes)) sides in
      let behind := List.filter (fun ic => negb (ic.2.1 =? 0)) counts in
      (map (fun ic => (ic.1, ic.2.1)) behind,
       existsb (fun ic => ic.2.2 && negb (down ic.1)) behind,
       held_back root want)
  end.

(** The flush's loop looks at what is pending: it is done, cannot go on, or
    waits for the dispatchers. [owes] is, by root, what one side was owed when
    its flush began; [behind] are the sides whose rescan failed and counts. *)
Inductive flush_look := Flushed | FlushFails | FlushWaits.

Definition flush_pass (roots : list hubRoot) (only : option string) (want : string -> string -> bool)
    (owes : option (string -> gmap string owed)) (down : string -> bool) (behind : list string) : flush_look :=
  let looks := map (fun root => pending_root root only (want (hr_name root))
                                  ((fun o => o (hr_name root)) <$> owes) down) roots in
  let listed := existsb (fun l => negb (bool_decide (l.1.1 = [])) || negb (l.2 =? 0)) looks in
  let stuck := negb (existsb (fun l => l.1.2) looks) in
  if negb listed && bool_decide (behind = []) then Flushed
  else if stuck then FlushFails else FlushWaits.

(** The sides, by name. *)
Definition sideList (h : Hub) : list string := SortFunc Compare (map fst (map_to_list (hub_sides h))).

Definition hub_root (h : Hub) (name : string) : option hubRoot :=
  find (fun root => String.eqb (hr_name root) name) (hub_roots h).

(** A flush of one side counts that side's rescan only; [rescan] is what each
    side answers when it is asked to scan its tree. *)
Definition asked_for (only : option string) (id : string) : bool :=
  match only with None => true | Some side => String.eqb id side end.

Definition unreached (rescan : string -> bool) (only : option string) (ids : list string) : list string :=
  List.filter (fun id => negb (rescan id) && asked_for only id) ids.

Definition down_sides (rescan : string -> bool) (ids : list string) (id : string) : bool :=
  existsb (String.eqb id) ids && negb (rescan id).

(** What the one side is owed when the rescans are in. *)
Definition flush_owes (h : Hub) (only : option string) (want : string -> string -> bool) : option (string -> gmap string owed) :=
  (fun id name => match hub_root h name with Some root => owed_root root id (want name) | None => ∅ end) <$> only.

Inductive flush_end := FlushDone | FlushError | FlushNotAttached.

(** The loop: a look every tick, until it is done, nothing can move, or the
    caller's time is over. The hub goes on meanwhile: [hubs n] is the hub at
    the n-th look, [over n] says the caller's time is over after it. *)
Fixpoint flush_loop (fuel n : nat) (over : nat -> bool) (hubs : nat -> Hub) (only : option string)
    (want : string -> string -> bool) (owes : option (string -> gmap string owed)) (down : string -> bool)
    (behind : list string) : option flush_end :=
  match fuel with
  | O => None
  | S f =>
      match flush_pass (hub_roots (hubs n)) only want owes down behind with
      | Flushed => Some FlushDone
      | FlushFails => Some FlushError
      | FlushWaits => if over n then Some FlushError else flush_loop f (S n) over hubs only want owes down behind
      end
  end.

(** flush: [h0] is the hub whose sides are asked to rescan, [h1] the one they
    have all been asked in. *)
Definition flush (fuel : nat) (rescan : string -> bool) (over : nat -> bool) (h0 h1 : Hub) (hubs : nat -> Hub)
    (only : option string) (want : string -> string -> bool) : option flush_end :=
  let ids := sideList h0 in
  flush_loop fuel 0 over hubs only want (flush_owes h1 only want) (down_sides rescan ids) (unreached rescan only ids).

Definition Flush (fuel : nat) (rescan : string -> bool) (over : nat -> bool) (h0 h1 : Hub) (hubs : nat -> Hub) : option flush_end :=
  flush fuel rescan over h0 h1 hubs None (fun _ _ => true).

Definition FlushSide (fuel : nat) (rescan : string -> bool) (over : nat -> bool) (h h0 h1 : Hub) (hubs : nat -> Hub)
    (side : string) (want : string -> string -> bool) : option flush_end :=
  match hub_sides h !! side with
  | None => Some FlushNotAttached
  | Some _ => flush fuel rescan over h0 h1 hubs (Some side) want
  end.

(** ** Close *)

(** One root of a closing hub: a root that has its journal compacts and closes
    it; the others are broken already. *)
Definition close_root (now : Z) (root : hubRoot) : list journal_error * hubRoot :=
  match hr_broken root with
  | Some _ => ([], root)
  | None =>
      let '(e1, root) := root_compact cfg now root in
      let '(e2, j, d) := close (hr_journal root) (hr_disk root) in
      let root := set_journal root j d in
      (omap id [e1; e2],
       MkHubRoot (hr_name root) (hr_cap root) (hr_epoch root) (hr_rev root) (hr_forgot root) (hr_entries root)
         (hr_children root) (hr_total root) (hr_holds root) (hr_sides root) (hr_journal root) (hr_disk root)
         (hr_blobs root) (Some ErrClosed) (hr_writer root))
  end.

Definition Close (now : Z) (h : Hub) : list journal_error * Hub :=
  if hub_closed h then ([], h)
  else
    let h := foldl Detach h (map fst (map_to_list (hub_sides h))) in
    let closed := map (close_root now) (hub_roots h) in
    (flat_map fst closed, MkHubState (map snd closed) (hub_sides h) (hub_conflicts h) true).

(** ** Attaching *)

Lemma foldl_mark_view {B} (f : sideRoot -> B -> sideRoot) bs sr :
  (forall sr b, f sr b = sr \/ exists p now, f sr b = mark sr p now) ->
  let sr' := foldl f sr bs in
  same_view sr sr' /\ sr_inflight sr' = sr_inflight sr /\ (forall p, is_Some (sr_dirty sr !! p) -> is_Some (sr_dirty sr' !! p)).
Proof.
  intros Hf. revert sr. induction bs as [|b bs IH]; intros sr; simpl; [done|].
  destruct (IH (f sr b)) as (Hv & Hi & Hd).
  assert (same_view sr (f sr b) /\ sr_inflight (f sr b) = sr_inflight sr /\
    (forall p, is_Some (sr_dirty sr !! p) -> is_Some (sr_dirty (f sr b) !! p))) as (Hv1 & Hi1 & Hd1).
  { destruct (Hf sr b) as [->|(p & now & ->)]; [done|]. unfold mark. destruct (negb _); [done|]. split_and!; try done.
    intros q Hq. simpl. unfold mark_since. destruct (sr_dirty sr !! p) eqn:E; [done|].
    destruct (base.decide (p = q)) as [<-|?]; [by rewrite lookup_insert_eq|by rewrite lookup_insert_ne]. }
  split_and!; [by eapply same_view_trans|congruence|auto].
Qed.

(** A step that marks a path leaves it marked at the end. *)
Lemma foldl_mark_dirty {B} (f : sideRoot -> B -> sideRoot) bs sr b p now :
  (forall sr b, f sr b = sr \/ exists p now, f sr b = mark sr p now) ->
  b ∈ bs -> keeps sr p = true -> (forall s, same_view sr s -> f s b = mark s p now) ->
  is_Some (sr_dirty (foldl f sr bs) !! p).
Proof.
  intros Hf Hb Hk Hm. apply list_elem_of_split in Hb as (l1 & l2 & ->). rewrite foldl_app. simpl.
  destruct (foldl_mark_view f l1 sr Hf) as (Hv & _ & _). rewrite Hm by done.
  apply (foldl_mark_view f l2 _ Hf). apply mark_dirty. unfold keeps in *. destruct Hv as (_ & -> & _). done.
Qed.

(** Marking an attached side accounts for everything it lacks. *)
Lemma attach_mark_accounted now root info sr :
  sr_info sr = info -> accounted cfg root (attach_mark now root info sr).
Proof.
  intros Hi p op. unfold attach_mark.
  set (f := fun (sr : sideRoot) (ke : key * hubEntry) => let '(k, e) := ke in _).
  set (g := fun (sr : sideRoot) (ph : string * Z) => mark sr ph.1 now).
  assert (forall s b, f s b = s \/ exists p now, f s b = mark s p now) as Hf.
  { intros s [k e]. unfold f. repeat case_match; eauto. }
  assert (forall s b, g s b = s \/ exists p now, g s b = mark s p now) as Hg by (intros s b; right; eauto).
  set (sr1 := foldl f sr (map_to_list (hr_entries root))).
  destruct (foldl_mark_view f (map_to_list (hr_entries root)) sr Hf) as (Hv1 & _ & _). fold sr1 in Hv1.
  destruct (foldl_mark_view g (map_to_list (sr_held sr1)) sr1 Hg) as (Hv2 & _ & Hd2).
  rewrite (opFor_view _ _ _ _ _ Hv2), (opFor_view _ _ _ _ _ Hv1). intros Hop. left.
  pose proof (opFor_keeps _ _ _ _ _ Hop) as Hk.
  destruct (sr_held sr !! p) as [h|] eqn:Hh.
  - apply (foldl_mark_dirty g _ sr1 (p, h) p now Hg); [|unfold keeps in *; destruct Hv1 as (_ & -> & _); done|done].
    apply elem_of_map_to_list. destruct Hv1 as (_ & _ & ->). done.
  - apply Hd2. unfold opFor in Hop. rewrite Hh, Hk in Hop. simpl in Hop.
    destruct (keyFor cfg root p (location (sr_info sr))) as [[k m]|] eqn:Hkf; [|done].
    destruct (hr_entries root !! k) as [e|] eqn:He; [|done]. destruct (Live (he_entry e)) eqn:Hl; [|done].
    destruct (keyFor_spec _ _ _ _ _ _ Hkf) as (Hkp & _ & Hloc). rewrite Hi in Hloc.
    apply (foldl_mark_dirty f _ sr (k, e) p now Hf); [by apply elem_of_map_to_list|done|].
    intros s (_ & _ & Hsh). unfold f. rewrite Hkp, Hsh, Hh, Hl. simpl.
    destruct Hloc as [->| ->]; [done|]. rewrite String.eqb_refl, andb_false_r. done.
Qed.

Lemma attach_held_info matching hs root sr reg stale root' sr' reg' stale' :
  foldl (attach_held matching) (root, sr, reg, stale) hs = (root', sr', reg', stale') ->
  sr_info sr' = sr_info sr /\ hr_entries root' = hr_entries root /\ hr_sides root' = hr_sides root /\
  hr_name root' = hr_name root /\ hr_forgot root' = hr_forgot root.
Proof.
  revert root sr reg stale. induction hs as [|h hs IH]; intros root sr reg stale; [by intros [= <- <- <- <-]|].
  cbn [foldl]. destruct (attach_held matching (root, sr, reg, stale) h) as [[[root1 sr1] reg1] stale1] eqn:E.
  intros H. destruct (IH _ _ _ _ H) as (H1 & H2 & H3 & H4 & H5). revert E. unfold attach_held.
  repeat case_match; intros [= <- <- <- <-]; done.
Qed.

(** C25: a side that attaches is told everything it lacks: whatever it says it
    holds, at whatever revs, each path whose state it does not have is marked
    for it. *)
Theorem attach_root_accounts now root info rh sr :
  hr_broken root = None ->
  hr_sides (attach_root now root info rh).1 !! side_id info = Some sr ->
  accounted cfg (attach_root now root info rh).1 sr.
Proof.
  intros Hb. unfold attach_root. rewrite Hb.
  set (sr0 := if loginsOnly info then _ else _).
  assert (sr_info sr0 = info) as Hi by (unfold sr0; by case_match).
  destruct (foldl _ _ _) as [[[root1 sr1] reg] stale] eqn:E. simpl. rewrite lookup_insert_eq. intros [= <-].
  destruct (attach_held_info _ _ _ _ _ _ _ _ _ _ E) as (Hi1 & _).
  set (root2 := if reg then _ else _).
  intros p op Hop.
  apply (attach_mark_accounted now root2 info sr1 ltac:(congruence) p op Hop).
Qed.

(** ** Reporting *)

Lemma report_changes_answers envs gap store root side stale cs :
  map (fun a => (a_path a, a_entry a)) (report_changes envs gap store root side stale cs).1.1
  = map (fun c => (c_path c, c_entry c)) cs.
Proof.
  revert store root. induction cs as [|c cs IH]; intros store root; [done|]. cbn [report_changes].
  pose proof (process_answer cfg (envs (length cs)) gap store root side c stale) as Ha.
  destruct (process _ _ _ _ _ _ _ _) as [[a store1] root1]. specialize (IH store1 root1).
  destruct (report_changes _ _ _ _ _ _ _) as [[acks store2] root2]. simpl in *. destruct Ha as [-> ->]. by rewrite IH.
Qed.

Lemma report_changes_Inv `{!PoliciesLawful cfg} envs gap store root side stale cs :
  Inv root -> keeps_tree gap -> Inv (report_changes envs gap store root side stale cs).2.
Proof.
  intros HI Hg. revert store root HI. induction cs as [|c cs IH]; intros store root HI; [done|]. cbn [report_changes].
  pose proof (process_Inv cfg (envs (length cs)) gap store root side c stale HI Hg) as HI1.
  destruct (process _ _ _ _ _ _ _ _) as [[a store1] root1]. specialize (IH store1 root1 HI1).
  destruct (report_changes _ _ _ _ _ _ _) as [[acks store2] root2]. done.
Qed.

Lemma report_root_Inv `{!PoliciesLawful cfg} envs gap store root side r :
  Inv root -> keeps_tree gap -> Inv (report_root envs gap store root side r).2.
Proof.
  intros HI Hg. unfold report_root. destruct (hr_broken root); [done|]. set (stale := negb _).
  pose proof (report_changes_Inv envs gap store root side stale (sortChanges (r_changes r)) HI Hg) as Hi.
  by destruct (report_changes _ _ _ _ _ _ _) as [[acks store1] root1].
Qed.

(** C1: a report is answered change by change: the reply carries one answer per
    reported change, about the path and the state that were reported, in the
    order the hub applies them, and the root is a tree afterwards. *)
Theorem report_answers_every_change `{!PoliciesLawful cfg} envs gap store root side r :
  Inv root -> keeps_tree gap ->
  let '(reply, _, root') := report_root envs gap store root side r in
  map (fun a => (a_path a, a_entry a)) (reply_acks reply)
    = map (fun c => (c_path c, c_entry c)) (sortChanges (r_changes r)) /\
  sortChanges (r_changes r) ≡ₚ r_changes r /\ Inv root'.
Proof.
  intros HI Hg. pose proof (report_root_Inv envs gap store root side r HI Hg) as Hi. revert Hi.
  unfold report_root. destruct (hr_broken root).
  - intros Hi. split_and!; [|apply SortFunc_perm|done]. simpl. by rewrite map_map.
  - set (stale := negb _).
    pose proof (report_changes_answers envs gap store root side stale (sortChanges (r_changes r))) as Ha.
    destruct (report_changes _ _ _ _ _ _ _) as [[acks store1] root1]. intros Hi. split_and!; [done|apply SortFunc_perm|done].
Qed.

(** ** Flushing *)

Definition waiting (owes : option (gmap string owed)) (sr : sideRoot) (p : string) : bool :=
  match owes with None => true | Some o => waits o sr p end.

Lemma filter_nil_false {B} (f : B -> bool) l x : List.filter f l = [] -> x ∈ l -> f x = false.
Proof.
  intros Hf Hx. destruct (f x) eqn:E; [|done]. apply list_elem_of_In in Hx.
  pose proof (proj2 (filter_In f x l) (conj Hx E)) as H. by rewrite Hf in H.
Qed.

Lemma existsb_none {B} (f : B -> bool) l x : existsb f l = false -> x ∈ l -> f x = false.
Proof.
  intros Hf Hx. destruct (f x) eqn:E; [|done]. rewrite <- Hf. symmetry. apply existsb_exists. exists x.
  split; [by apply list_elem_of_In|done].
Qed.

Lemma elem_of_map_keys {B} (m : gmap string B) p : is_Some (m !! p) -> p ∈ map fst (map_to_list m).
Proof. intros [b Hb]. apply list_elem_of_fmap. exists (p, b). split; [done|]. by apply elem_of_map_to_list. Qed.

(** A side that counts nothing to send has nothing waiting but refused ops. *)
Lemma pending_side_none root sr want owes p op :
  accounted cfg root sr -> (pending_side root sr want owes).1 = 0 ->
  want p = true -> waiting owes sr p = true -> opFor cfg root sr p = Some op -> refused_op cfg root sr op.
Proof.
  intros Hacc Hn Hw Hwt Hop. unfold pending_side in Hn. cbn [fst] in Hn.
  match type of Hn with Z.of_nat (length ?d + length ?f) = _ =>
    assert (d = []) as Hd by (apply length_zero_iff_nil; lia); assert (f = []) as Hf by (apply length_zero_iff_nil; lia) end.
  destruct (Hacc p op Hop) as [Hp|[Hp|Hp]]; [| |done].
  - apply (filter_nil_false _ _ p) in Hd; [|by apply elem_of_map_keys]. unfold waiting in Hwt. cbv beta in *.
    rewrite Hw, Hwt, Hop in Hd. simpl in Hd. apply negb_false_iff in Hd.
    destruct (sr_blocked sr !! p) as [r|] eqn:Hb; [|done]. exists r. rewrite (opFor_path _ _ _ _ _ Hop).
    split; [done|]. left. by apply Z.eqb_eq.
  - apply (filter_nil_false _ _ p) in Hf; [|by apply elem_of_map_keys]. unfold waiting in Hwt. cbv beta in *.
    by rewrite Hw, Hwt in Hf.
Qed.

Lemma pending_root_none root only want owes down id sr p op :
  hr_broken root = None -> Accounted cfg root -> (pending_root root only want owes down).1.1 = [] ->
  hr_sides root !! id = Some sr -> (only = None \/ only = Some id) ->
  want p = true -> waiting owes sr p = true -> opFor cfg root sr p = Some op -> refused_op cfg root sr op.
Proof.
  intros Hb HA Hp Hs Hid. unfold pending_root in Hp. rewrite Hb in Hp. cbn [fst] in Hp.
  apply fmap_nil_inv in Hp. eapply pending_side_none; [by eapply HA|].
  apply (filter_nil_false _ _ (id, pending_side root sr want owes)) in Hp.
  - apply negb_false_iff, Z.eqb_eq in Hp. done.
  - apply list_elem_of_fmap. exists (id, sr). split; [done|]. rewrite SortFunc_perm.
    apply list_elem_of_In, filter_In. split; [by apply list_elem_of_In, elem_of_map_to_list|].
    destruct Hid as [->| ->]; [done|]. apply String.eqb_refl.
Qed.

Lemma held_back_none root want id p :
  held_back root want = 0 -> want p = true -> (id, p) ∉ hr_holds root.
Proof.
  unfold held_back. intros H Hw Hin.
  assert (List.filter (fun hk : string * string => want hk.2) (elements (hr_holds root)) = []) as Hf by (apply length_zero_iff_nil; lia).
  apply (filter_nil_false _ _ (id, p)) in Hf; [simpl in Hf; congruence|by apply elem_of_elements].
Qed.

Lemma flush_pass_leaves roots only want owes down behind root :
  flush_pass roots only want owes down behind = Flushed -> root ∈ roots -> hr_broken root = None ->
  Accounted cfg root ->
  behind = [] /\
  (forall id p, want (hr_name root) p = true -> (id, p) ∉ hr_holds root) /\
  (forall id sr p op, hr_sides root !! id = Some sr -> (only = None \/ only = Some id) -> want (hr_name root) p = true ->
     waiting ((fun o => o (hr_name root)) <$> owes) sr p = true -> opFor cfg root sr p = Some op ->
     refused_op cfg root sr op).
Proof.
  unfold flush_pass. intros Hf Hin Hb HA. destruct (negb _ && _) eqn:E in Hf; [clear Hf|by destruct (negb _) in Hf].
  bool_hyps. rename H into Hl. split; [done|].
  apply (existsb_none _ _ (pending_root root only (want (hr_name root)) ((fun o => o (hr_name root)) <$> owes) down)) in Hl;
    [|apply list_elem_of_fmap; by exists root].
  apply orb_false_iff in Hl as [H1 H2]. apply negb_false_iff, bool_decide_eq_true in H1.
  apply negb_false_iff, Z.eqb_eq in H2. split.
  - intros id p Hw. unfold pending_root in H2. rewrite Hb in H2. by eapply held_back_none.
  - intros id sr p op Hs Hid Hw Hwt Hop. by eapply pending_root_none.
Qed.

(** The state a flush of one side waits for is one the side was owed: what the
    flush no longer waits for, the side has at that rev or a newer one, or no
    longer has when it was to be deleted. *)
Lemma waits_spec o (sr : sideRoot) p ow :
  o !! p = Some ow -> waits o sr p = false ->
  match sr_held sr !! p with Some h => h <> 0 /\ ow_rev ow <= h | None => ow_live ow = false end.
Proof. unfold waits. intros ->. destruct (sr_held sr !! p); [|done]. intros H. bool_hyps. lia. Qed.

(** What a side is owed at the flush's beginning is what waits or is on its way. *)
Lemma owed_root_lookup root id sr want p op :
  hr_sides root !! id = Some sr -> hr_broken root = None -> opFor cfg root sr p = Some op -> want p = true ->
  is_Some (sr_dirty sr !! p) \/ is_Some (sr_inflight sr !! p) ->
  owed_root root id want !! p = Some (MkOwed (o_rev op) (Live (o_entry op))).
Proof.
  intros Hs Hb Hop Hw Hin. unfold owed_root. rewrite Hs, Hb.
  assert (p ∈ map fst (map_to_list (sr_dirty sr)) ++ map fst (map_to_list (sr_inflight sr))) as Hp.
  { apply elem_of_app. destruct Hin; [left|right]; by apply elem_of_map_keys. }
  revert Hp. generalize (map fst (map_to_list (sr_dirty sr)) ++ map fst (map_to_list (sr_inflight sr))). intros l.
  induction l as [|q l IH] using rev_ind; [by intros ?%elem_of_nil|]. rewrite foldl_app. simpl.
  destruct (decide (q = p)) as [->|Hne]; [intros _; rewrite Hw, Hop; apply lookup_insert_eq|].
  intros [Hp|E%list_elem_of_singleton]%elem_of_app; [|by rewrite E in Hne].
  repeat case_match; rewrite ?lookup_insert_ne by done; auto.
Qed.

Lemma flush_loop_done fuel n over hubs only want owes down behind :
  flush_loop fuel n over hubs only want owes down behind = Some FlushDone ->
  exists m, (n <= m < n + fuel)%nat /\ flush_pass (hub_roots (hubs m)) only want owes down behind = Flushed.
Proof.
  revert n. induction fuel as [|f IH]; intros n; simpl; [done|].
  destruct (flush_pass (hub_roots (hubs n)) only want owes down behind) eqn:E; [intros _; exists n; split; [lia|done]|done|].
  destruct (over n); [done|]. intros (m & ? & ?)%IH. exists m. split; [lia|done].
Qed.

(** The side has what it was owed of a path: that rev or a newer one, or no
    copy when it was to be deleted. *)
Definition got (sr : sideRoot) (op : Op) : Prop :=
  match sr_held sr !! o_path op with Some h => h <> 0 /\ o_rev op <= h | None => Live (o_entry op) = false end.

(** C24: a flush that returns without an error has delivered, whatever the hub
    and its sides did meanwhile. At the look it ended at, no change of a path
    asked for waits for its root's cap; and a flush of every side had every
    side rescan, and no side lacks the state of any path but one it refused at
    that very state; a flush of one side had that side rescan (others may have
    failed to), and of each path asked for that the side was owed once the
    rescans were in and had not refused, it has that state or a newer one, or
    the path's state as it is at the end, or refused that. *)
Theorem flush_leaves_nothing fuel rescan over h0 h1 hubs only want :
  flush fuel rescan over h0 h1 hubs only want = Some FlushDone ->
  (forall id, id ∈ sideList h0 -> asked_for only id = true -> rescan id = true) /\
  exists n, forall root, root ∈ hub_roots (hubs n) -> hr_broken root = None -> Accounted cfg root ->
    (forall id p, want (hr_name root) p = true -> (id, p) ∉ hr_holds root) /\
    match only with
    | None => forall id sr p op, hr_sides root !! id = Some sr -> want (hr_name root) p = true ->
        opFor cfg root sr p = Some op -> refused_op cfg root sr op
    | Some id => forall root1 sr1 sr p op,
        hub_root h1 (hr_name root) = Some root1 -> hr_broken root1 = None -> Accounted cfg root1 ->
        hr_sides root1 !! id = Some sr1 -> hr_sides root !! id = Some sr -> want (hr_name root) p = true ->
        opFor cfg root1 sr1 p = Some op -> ~ refused_op cfg root1 sr1 op ->
        got sr op \/ opFor cfg root sr p = None \/ exists op', opFor cfg root sr p = Some op' /\ refused_op cfg root sr op'
    end.
Proof.
  unfold flush. intros (n & _ & Hf)%flush_loop_done. split.
  { intros id Hid Ha. assert (unreached rescan only (sideList h0) = []) as Hu.
    { unfold flush_pass in Hf. destruct (negb _ && _) eqn:E in Hf; [by bool_hyps|by destruct (negb _) in Hf]. }
    apply (filter_nil_false _ _ id) in Hu; [|done]. cbv beta in Hu. rewrite Ha, andb_true_r in Hu. by apply negb_false_iff in Hu. }
  exists n. intros root Hin Hb HA. destruct (flush_pass_leaves _ _ _ _ _ _ _ Hf Hin Hb HA) as (_ & H1 & H2). split; [done|].
  destruct only as [id|]; [|intros id sr p op Hs Hw Hop; by eapply (H2 id); eauto].
  intros root1 sr1 sr p op Hr1 Hb1 HA1 Hs1 Hs Hw Hop Hnr.
  assert (o_path op = p) as Hp by (by eapply opFor_path).
  assert (owed_root root1 id (want (hr_name root)) !! p = Some (MkOwed (o_rev op) (Live (o_entry op)))) as Ho.
  { eapply owed_root_lookup; [done..|]. destruct (HA1 _ _ Hs1 _ _ Hop) as [?|[?|?]]; auto. done. }
  destruct (waits (owed_root root1 id (want (hr_name root))) sr p) eqn:Hwt.
  - right. destruct (opFor cfg root sr p) as [op'|] eqn:Hop'; [right|by left]. exists op'. split; [done|].
    eapply (H2 id sr p); eauto. simpl. by rewrite Hr1.
  - left. apply (waits_spec _ _ _ _ Ho) in Hwt. unfold got. by rewrite Hp.
Qed.
End api.
