(* ===== verification/HubStatus.v ===== *)
(** * The hub's status (internal/sharesync/status.go; hub.go: capReason, sizeString)

    The snapshot people see: what each root holds, what each side still lacks, and
    why sync is paused. The text of a journal's error and the reason the host is
    full are given. *)

From S2P Require Import Prelude GoStrings GoText Sha256 Entry SyncPolicy Mergers Json GoFloat Journal HubState HubCommit HubInvariants HubProcess HubDispatch HubApi.
Local Open Scope string_scope.
Local Open Scope Z_scope.
Local Open Scope list_scope.

(** ** Sizes as text *)

(** float64(n) as an integer. *)
Definition float_value (n : Z) : Z :=
  match nearest n 1 with
  | Some (mant, x) => if 0 <=? x then mant * 2 ^ x else mant / 2 ^ (- x)
  | None => n
  end.

(** fmt's %.4g of [num / den], which is at least 1 and below 1025. *)
Definition four_digits (num den : Z) : string :=
  let dp := decimal_point num den in
  let q := if dp <=? 4 then round_half_even (num * 10 ^ (4 - dp)) den else round_half_even num (den * 10 ^ (dp - 4)) in
  let dp := if q =? 10 ^ 4 then dp + 1 else dp in
  let ds := Itoa (trim_zeros 5 q) in
  let nd := Z.of_nat (String.length ds) in
  if nd <=? dp then ds +:+ GoFloat.zeros (dp - nd) else take_bytes (Z.to_nat dp) ds +:+ "." +:+ drop_bytes (Z.to_nat dp) ds.

Definition unit_of (n : nat) : string := String.substring n 1 "KMGTPE".

(** The loop of sizeString: the divisor and the unit. *)
Fixpoint size_unit (fuel : nat) (m div : Z) (exp : nat) : Z * nat :=
  match fuel with
  | O => (div, exp)
  | S f => if 1024 <=? m then size_unit f (Z.quot m 1024) (div * 1024) (S exp) else (div, exp)
  end.

Definition sizeString (n : Z) : string :=
  if n <? 1024 then Itoa n +:+ " B"
  else let '(div, exp) := size_unit 6 (Z.quot n 1024) 1024 0 in
       four_digits (float_value n) div +:+ " " +:+ unit_of exp +:+ "iB".

Example sizeStrings : map sizeString [0; 1023; 1024; 1536; 1048575; 268435456; 1073741825; 9223372036854775807; -5]
  = ["0 B"; "1023 B"; "1 KiB"; "1.5 KiB"; "1024 KiB"; "256 MiB"; "1 GiB"; "8 EiB"; "-5 B"].
Proof. vm_compute. reflexivity. Qed.

Definition capReason (root : hubRoot) : string := hr_name root +:+ " is over its " +:+ sizeString (hr_cap root) +:+ " cap".

(** ** The snapshot *)

Record SideStatus := MkSideStatus {
  ss_Side : string;
  ss_Location : string;
  ss_Pending : Z;
  ss_PendingBytes : Z;
  ss_Paused : string;
  ss_Refused : list string;
  ss_LastError : string
}.

Record RootStatus := MkRootStatus {
  rs_Root : string;
  rs_Rev : Z;
  rs_Files : Z;
  rs_Bytes : Z;
  rs_Cap : Z;
  rs_Paused : string;
  rs_Warnings : list string;
  rs_Broken : string;
  rs_Sides : list SideStatus
}.

Record HubStatus := MkHubStatus { st_Roots : list RootStatus; st_HostPaused : string }.

(** int64 additions in turn. *)
Definition sum64 (xs : list Z) : Z := foldl (fun a x => wrap64 (a + x)) 0 xs.

Section status.
Context (cfg : hubConf) `{C : !journal_codec hubRecord} (error_text : journal_error -> string).

(** The ops the status counts as still to send: a marked path's, unless the side
    refused it. *)
Definition to_send (root : hubRoot) (sr : sideRoot) (p : string) : option Op :=
  match opFor cfg root sr p with
  | None => None
  | Some op =>
      match sr_blocked sr !! p with
      | Some r => if rf_rev r =? o_rev op then None else Some op
      | None => Some op
      end
  end.

Definition pending_ops (root : hubRoot) (sr : sideRoot) : list Op := omap (to_send root sr) (map fst (map_to_list (sr_dirty sr))).

Definition refusal_text (pr : string * refusal) : string := pr.1 +:+ ": " +:+ rf_reason pr.2.

Definition side_status (root : hubRoot) (id : string) (sr : sideRoot) : SideStatus :=
  let ops := pending_ops root sr in
  MkSideStatus id (location (sr_info sr)) (Z.of_nat (length ops + size (sr_inflight sr)))
    (sum64 (omap (fun op => if bool_decide (ekind (o_entry op) = File) then Some (esize (o_entry op)) else None) ops))
    (sr_paused sr) (SortFunc Compare (map refusal_text (map_to_list (sr_blocked sr)))) (sr_lastErr sr).

Definition warnings_of (root : hubRoot) : list SizeWarning :=
  match Table_Root (cf_table cfg) (hr_name root) with Some (r, _) => root_warnings r | None => [] end.

Definition file_entries (root : hubRoot) : list (key * hubEntry) :=
  List.filter (fun ke => bool_decide (ekind (he_entry ke.2) = File)) (map_to_list (hr_entries root)).

(** The warning of a part of the root that holds more than its size. *)
Definition warning_text (root : hubRoot) (w : SizeWarning) : option string :=
  let held := sum64 (map (fun ke => esize (he_entry ke.2)) (List.filter (fun ke => SizeWarning_Matches w (k_path ke.1)) (file_entries root))) in
  if w_size w <? held
  then Some (hr_name root +:+ "/" +:+ w_pattern w +:+ " holds " +:+ sizeString held +:+ " (over " +:+ sizeString (w_size w) +:+ ")")
  else None.

Definition root_status (root : hubRoot) : RootStatus :=
  MkRootStatus (hr_name root) (hr_rev root) (Z.of_nat (length (file_entries root))) (hr_total root) (hr_cap root)
    (if decide (hr_holds root = ∅) then "" else capReason root)
    (omap (warning_text root) (warnings_of root))
    (match hr_broken root with Some ErrClosed | None => "" | Some e => error_text e end)
    (SortFunc (fun a b => Compare (ss_Side a) (ss_Side b)) (map (fun x => side_status root x.1 x.2) (map_to_list (hr_sides root)))).

(** Hub.Status; [hostFull] is why conflict copies wait. *)
Definition Status (hostFull : option string) (h : Hub) : HubStatus :=
  MkHubStatus (map root_status (hub_roots h)) (default "" hostFull).

(** PauseReasons. *)
Definition add_reason (out : list string) (reason : string) : list string :=
  if negb (String.eqb reason "") && negb (bool_decide (reason ∈ out)) then out ++ [reason] else out.

Definition root_reasons (r : RootStatus) : list string := rs_Paused r :: rs_Broken r :: map ss_Paused (rs_Sides r).

Definition PauseReasons (st : HubStatus) : list string :=
  foldl add_reason [] (st_HostPaused st :: flat_map root_reasons (st_Roots st)).

(** ** What it says is so *)

Lemma add_reasons rs : forall out, NoDup out -> "" ∉ out ->
  NoDup (foldl add_reason out rs) /\ forall x, x ∈ foldl add_reason out rs <-> x ∈ out \/ x ∈ rs /\ x <> "".
Proof.
  induction rs as [|r rs IH]; intros out Hnd He; cbn [foldl]; [split; [done|]; set_solver|].
  assert (NoDup (add_reason out r) /\ "" ∉ add_reason out r /\ forall x, x ∈ add_reason out r <-> x ∈ out \/ x = r /\ x <> "") as (H1 & H2 & H3).
  { unfold add_reason. destruct (String.eqb_spec r "") as [->|Hr]; cbn [negb andb]; [split_and!; [done|done|set_solver]|].
    destruct (bool_decide_reflect (r ∈ out)) as [Hin|Hin]; cbn [negb]; [split_and!; [done|done|set_solver]|].
    split_and!; [apply NoDup_app; split_and!; [done|set_solver|apply NoDup_singleton]|set_solver|set_solver]. }
  destruct (IH _ H1 H2) as [H4 H5]. split; [done|]. intros x. rewrite H5, H3, elem_of_cons. intuition congruence.
Qed.

Lemma PauseReasons_exact st : NoDup (PauseReasons st) /\
  forall x, x ∈ PauseReasons st <-> x <> "" /\ (x = st_HostPaused st \/ exists r, r ∈ st_Roots st /\ x ∈ root_reasons r).
Proof.
  destruct (add_reasons (st_HostPaused st :: flat_map root_reasons (st_Roots st)) []) as [H1 H2]; [constructor|set_solver|].
  split; [exact H1|]. intros x. unfold PauseReasons. rewrite H2, elem_of_cons, elem_of_nil.
  assert (x ∈ flat_map root_reasons (st_Roots st) <-> exists r, r ∈ st_Roots st /\ x ∈ root_reasons r) as ->.
  { rewrite list_elem_of_In, in_flat_map. split; intros (r & Hr & Hx); exists r; rewrite ?list_elem_of_In in *; done. }
  tauto.
Qed.

(** A side with nothing pending lacks only what it refused, and that is shown. *)
Lemma nothing_pending root id sr p op : accounted cfg root sr -> ss_Pending (side_status root id sr) = 0 -> opFor cfg root sr p = Some op ->
  exists r, sr_blocked sr !! p = Some r /\ refusal_text (p, r) ∈ ss_Refused (side_status root id sr).
Proof.
  intros Hacc Hp Hop. cbn [ss_Pending side_status] in Hp. assert (pending_ops root sr = []) as Hn by (apply length_zero_iff_nil; lia).
  assert (exists r, sr_blocked sr !! p = Some r) as [r Hr].
  { destruct (Hacc p op Hop) as [Hd|[Hi|(r & Hr & _)]]; [|exfalso|rewrite (opFor_path _ _ _ _ _ Hop) in Hr; eauto].
    - destruct (sr_blocked sr !! p) as [r|] eqn:Eb; [eauto|]. exfalso. assert (op ∈ pending_ops root sr) as Hin; [|rewrite Hn in Hin; by apply elem_of_nil in Hin].
      apply list_elem_of_omap. exists p. split; [by apply elem_of_map_keys|]. unfold to_send. by rewrite Hop, Eb.
    - assert (size (sr_inflight sr) = 0%nat) as Hs by lia. apply map_size_empty_inv in Hs. rewrite Hs, lookup_empty in Hi. by destruct Hi. }
  exists r. split; [done|]. cbn [ss_Refused side_status]. rewrite SortFunc_perm. apply list_elem_of_fmap. exists (p, r). split; [done|]. by apply elem_of_map_to_list.
Qed.
End status.

(** The status tells the truth: every side attached to a root is shown, once; a side
    shown with nothing pending has of every path the state of the root, except those
    it refused, which are shown with why, so one with nothing refused either lacks
    nothing; the bytes shown are those of the root's live entries (in int64); and
    the reasons sync is paused are listed exactly, each once. *)
Theorem status_tells cfg `{C : !journal_codec hubRecord} error_text hostFull h root :
  root ∈ hub_roots h -> Inv root -> Accounted cfg root ->
  let st := Status cfg error_text hostFull h in
  let rs := root_status cfg error_text root in
  rs ∈ st_Roots st /\ rs_Bytes rs = wrap64 (map_sum bytes_at (hr_entries root)) /\
  map ss_Side (rs_Sides rs) ≡ₚ map fst (map_to_list (hr_sides root)) /\
  (forall ss, ss ∈ rs_Sides rs -> exists sr, hr_sides root !! ss_Side ss = Some sr /\
     (ss_Pending ss = 0 -> forall p op, opFor cfg root sr p = Some op -> exists reason, (p +:+ ": " +:+ reason) ∈ ss_Refused ss) /\
     (ss_Pending ss = 0 -> ss_Refused ss = [] -> forall p, opFor cfg root sr p = None)) /\
  NoDup (PauseReasons st) /\
  (forall x, x ∈ PauseReasons st <-> x <> "" /\ (x = default "" hostFull \/ exists r, r ∈ st_Roots st /\ x ∈ root_reasons r)).
Proof.
  intros Hin HI HA st rs. split_and!.
  - apply list_elem_of_fmap. by exists root.
  - apply HI.
  - subst rs. cbn [rs_Sides root_status]. rewrite SortFunc_perm, map_map. done.
  - subst rs. cbn [rs_Sides root_status]. intros ss. rewrite SortFunc_perm, list_elem_of_fmap. intros ([id sr] & -> & Hs%elem_of_map_to_list). exists sr. split; [done|].
    assert (forall p op, ss_Pending (side_status cfg root id sr) = 0 -> opFor cfg root sr p = Some op ->
      exists reason, (p +:+ ": " +:+ reason) ∈ ss_Refused (side_status cfg root id sr)) as Hr.
    { intros p op Hp Hop. destruct (nothing_pending cfg root id sr p op (HA _ _ Hs) Hp Hop) as (r & _ & Ht). by exists (rf_reason r). }
    split; [by intros; eapply Hr|]. intros Hp Hn p. cbn [fst snd] in *. destruct (opFor cfg root sr p) as [op|] eqn:Hop; [|done].
    destruct (Hr p op Hp Hop) as [reason Hx]. rewrite Hn in Hx. by apply elem_of_nil in Hx.
  - apply PauseReasons_exact.
  - apply (proj2 (PauseReasons_exact st)).
Qed.
