(* ===== verification/HubDurable.v ===== *)
(** * The hub's state across restarts (internal/sharesync/hub_root.go: openHubRoot, setEntry, compact)

    What the journal of a root says of it, and that opening a root reads back
    the state a root had, with its folder and size tallies. *)

From S2P Require Import Prelude GoStrings GoText Sha256 Entry SyncPolicy Mergers Journal HubState HubCommit HubInvariants HubProcess HubAnswers HubDispatch HubDelivery HubApi.
Local Open Scope string_scope.
Local Open Scope Z_scope.
Local Open Scope list_scope.

(** ** Journal keys *)

(** A key the journal can carry. *)
Definition tidy (k : key) : Prop :=
  validPath (k_path k) = true /\ contains_byte (k_loc k) nul = false /\ ValidString (journalKey k) = true.

Lemma parse_journalKey k : tidy k -> parseKey (journalKey k) = Some k.
Proof. intros (Hv & Hl & _). unfold parseKey, journalKey. rewrite cut_byte_app, Hv by done. by destruct k. Qed.

Lemma parseKey_Some s k : parseKey s = Some k -> s = journalKey k /\ validPath (k_path k) = true.
Proof.
  unfold parseKey. destruct (cut_byte nul s) as [[l p]|] eqn:E; [|done]. case_match; [|done]. intros [= <-].
  by apply cut_byte_Some in E as [-> _].
Qed.

Lemma metaKey_unparsed : parseKey metaKey = None.
Proof. done. Qed.

(** ** Reading a journal's records *)

(** A record of an entry. *)
Definition recorded (kv : string * option hubRecord) (k : key) (e : hubEntry) : Prop :=
  parseKey kv.1 = Some k /\ kv.2 = Some (RecEntry e) /\ check (he_entry e) = None.

Lemma load_record_cases l kv :
  (exists k e, recorded kv k e /\
     let c := count (ld_children l) (ld_total l) None (Some e) k in
     load_record l kv = MkLoading (<[k := e]> (ld_entries l)) c.1 c.2 (Z.max (ld_rev l) (he_rev e)) (ld_meta l)) \/
  ((forall k e, ~ recorded kv k e) /\
     exists m, load_record l kv = MkLoading (ld_entries l) (ld_children l) (ld_total l) (ld_rev l) m /\
       m = match kv with (s, Some (RecMeta m)) => if String.eqb s metaKey then m else ld_meta l | _ => ld_meta l end).
Proof.
  destruct kv as [s v]. unfold load_record, recorded. simpl. destruct (String.eqb s metaKey) eqn:E.
  { apply String.eqb_eq in E as ->. right. rewrite metaKey_unparsed. split; [by intros ?? (? & _)|].
    destruct l. destruct v as [[m|e]|]; eauto. }
  destruct (parseKey s) as [k|] eqn:Hk.
  2: { right. split; [by intros ?? (? & _)|]. exists (ld_meta l). destruct l, v as [[m|e]|]; done. }
  destruct v as [[m|e]|].
  - right. split; [by intros ?? (_ & ? & _)|]. exists (ld_meta l). by destruct l.
  - destruct (check (he_entry e)) eqn:Hc.
    + right. split; [intros ?? (_ & ? & ?); simplify_eq|]. exists (ld_meta l). by destruct l.
    + left. exists k, e. split; [done|]. by destruct (count _ _ _ _ _).
  - right. split; [by intros ?? (_ & ? & _)|]. exists (ld_meta l). by destruct l.
Qed.

(** What reading a list of records has found. *)
Record loaded (ls : list (string * option hubRecord)) (l : loading) : Prop := {
  lo_entries k e : ld_entries l !! k = Some e <-> exists kv, kv ∈ ls /\ recorded kv k e;
  lo_children p : default 0 (ld_children l !! p) = map_sum (child_of p) (ld_entries l);
  lo_total : ld_total l = wrap64 (map_sum bytes_at (ld_entries l));
  lo_rev k e : ld_entries l !! k = Some e -> he_rev e <= ld_rev l;
  lo_meta m : (metaKey, Some (RecMeta m)) ∈ ls -> ld_meta l = m
}.

Lemma loaded_nil : loaded [] (MkLoading ∅ ∅ 0 0 (MkMeta "" 0 0)).
Proof.
  split; simpl.
  - intros k e. rewrite lookup_empty. split; [done|]. by intros (? & ?%elem_of_nil & _).
  - intros p. by rewrite lookup_empty, map_sum_empty.
  - by rewrite map_sum_empty.
  - intros k e. by rewrite lookup_empty.
  - by intros m ?%elem_of_nil.
Qed.

Lemma recorded_key kv kv' k e e' : recorded kv k e -> recorded kv' k e' -> kv.1 = kv'.1.
Proof. intros ([-> _]%parseKey_Some & _) ([-> _]%parseKey_Some & _). done. Qed.

Lemma recorded_fun kv k k' e e' : recorded kv k e -> recorded kv k' e' -> k = k' /\ e = e'.
Proof. intros (H1 & H2 & _) (H1' & H2' & _). rewrite H1 in H1'. rewrite H2 in H2'. by simplify_eq. Qed.

Lemma loaded_snoc ls kv l : NoDup (map fst (ls ++ [kv])) -> loaded ls l -> loaded (ls ++ [kv]) (load_record l kv).
Proof.
  intros Hnd [He Hch Ht Hr Hm]. rewrite map_app in Hnd. apply NoDup_app in Hnd as (_ & Hnew & _).
  assert (forall kv', kv' ∈ ls -> kv'.1 <> kv.1) as Hne.
  { intros kv' Hin Heq. apply (Hnew kv'.1); [by apply list_elem_of_fmap_2|]. rewrite Heq. by left. }
  destruct (load_record_cases l kv) as [(k & e & Hrec & ->)|(Hno & m & -> & Hmeta)].
  - assert (ld_entries l !! k = None) as Hk.
    { apply eq_None_not_Some. intros [e' (kv' & Hin & Hrec')%He]. apply (Hne kv' Hin). by eapply recorded_key. }
    split; cbn [ld_entries ld_children ld_total ld_rev ld_meta].
    + intros k' e'. rewrite lookup_insert_Some, He. split.
      * intros [[<- <-]|[Hk' (kv' & Hin & Hrec')]]; [exists kv|exists kv']; rewrite elem_of_app, ?list_elem_of_singleton; auto.
      * intros (kv' & [Hin|Hin]%elem_of_app & Hrec').
        -- right. split; [|eauto]. intros ->. apply (Hne kv' Hin). by eapply recorded_key.
        -- apply list_elem_of_singleton in Hin as ->. left. by eapply recorded_fun.
    + intros p. rewrite count_children by done. rewrite map_sum_insert, Hk, Hch. done.
    + rewrite count_total; [|by rewrite Ht, wrap64_idem]. rewrite map_sum_insert, Hk, Ht. simpl.
      rewrite !Z.sub_0_r, wrap64_add_l. done.
    + intros k' e' [[<- <-]|[_ H%Hr]]%lookup_insert_Some; lia.
    + intros m [Hin|Hin]%elem_of_app; [auto|]. apply list_elem_of_singleton in Hin as <-. by destruct Hrec.
  - split; cbn [ld_entries ld_children ld_total ld_rev ld_meta]; try done.
    + intros k e. rewrite He. split; intros (kv' & Hin & Hrec).
      * exists kv'. rewrite elem_of_app. auto.
      * apply elem_of_app in Hin as [Hin| ->%list_elem_of_singleton]; [eauto|]. by apply Hno in Hrec.
    + intros m' [Hin|Hin]%elem_of_app.
      * rewrite Hmeta. destruct kv as [s [[m0|e0]|]]; [|by apply Hm..].
        destruct (String.eqb s metaKey) eqn:E; [|by apply Hm]. apply String.eqb_eq in E as ->.
        by destruct (Hne _ Hin).
      * apply list_elem_of_singleton in Hin as <-. by rewrite String.eqb_refl in Hmeta.
Qed.

Lemma load_loaded raw : loaded (map_to_list raw) (load raw).
Proof.
  unfold load. pose proof (NoDup_fst_map_to_list raw) as Hnd. revert Hnd. generalize (map_to_list raw) as ls.
  intros ls. induction ls as [|kv ls IH] using rev_ind; intros Hnd; [apply loaded_nil|].
  rewrite foldl_app. apply loaded_snoc; [done|]. apply IH. rewrite fmap_app in Hnd. by apply NoDup_app in Hnd as (? & _).
Qed.

(** ** What a journal says of a root *)

(** The records are those of the entries, and of the root's epoch and horizon. *)
Record journals (recs : gmap string (option hubRecord)) (root : hubRoot) : Prop := {
  js_entries s k : parseKey s = Some k -> recs !! s = Some ∘ RecEntry <$> hr_entries root !! k;
  js_tidy k e : hr_entries root !! k = Some e -> tidy k /\ utf8 (RecEntry e);
  js_epoch : ValidString (hr_epoch root) = true;
  js_meta : exists m, recs !! metaKey = Some (Some (RecMeta m)) /\ me_epoch m = hr_epoch root /\ me_forgot m = hr_forgot root
}.

Lemma journals_load recs root :
  journals recs root -> Inv root -> ld_entries (load recs) = hr_entries root.
Proof.
  intros [Hes Htidy _ _] HI. apply map_eq. intros k. apply option_eq. intros e.
  rewrite (lo_entries _ _ (load_loaded recs)). split.
  - intros ([s v] & Hin%elem_of_map_to_list & Hk & Hv & _). simpl in *. rewrite (Hes s k Hk), Hv in Hin.
    destruct (hr_entries root !! k); naive_solver.
  - intros He. exists (journalKey k, Some (RecEntry e)). pose proof (parse_journalKey _ (proj1 (Htidy _ _ He))) as Hp. split.
    + apply elem_of_map_to_list. rewrite (Hes _ _ Hp), He. done.
    + split_and!; [done..|]. by apply (inv_valid _ _ _ HI k e He).
Qed.

Section durable.
Context (cfg : hubConf) `{C : !journal_codec hubRecord}.

(** A root the table gives a policy for. *)
Definition served (name : string) (tr : Root) : Prop :=
  (exists rest, Table_Root (cf_table cfg) name = Some (tr, rest)) /\ validPath name = true /\ covers cfg name = true.

(** C12: a restart reads the root back: opening the files whose records are those of a
    root (all texts of its entries UTF-8, symlink targets too, as JSON keeps no others)
    gives a root with exactly its entries, its epoch and its horizon, a rev no state is
    ahead of, and the folder and size tallies of its tree. *)
Theorem reopen_restores_root root recs name writer fresh tr blobs :
  Inv root -> journals recs root -> hr_epoch root <> "" -> reopens (hr_disk root) recs -> served name tr ->
  exists root', openHubRoot cfg name writer fresh (after_crash (hr_disk root)) blobs = Some (Ok root') /\
    hr_entries root' = hr_entries root /\ hr_epoch root' = hr_epoch root /\ hr_forgot root' = hr_forgot root /\
    hr_broken root' = None /\ (forall k e, hr_entries root' !! k = Some e -> he_rev e <= hr_rev root') /\ Inv root'.
Proof.
  intros HI Hj Hep (j & d & Hopen & _) ((rest & Htr) & Hv & Hcov). unfold openHubRoot.
  rewrite Htr, Hv, Hcov, Hopen. simpl. destruct (js_meta _ _ Hj) as (m & Hm & He & Hf).
  pose proof (load_loaded recs) as Hl. pose proof (journals_load _ _ Hj HI) as Hes.
  assert (ld_meta (load recs) = m) as -> by (by apply (lo_meta _ _ Hl), elem_of_map_to_list).
  rewrite He. destruct (String.eqb (hr_epoch root) "") eqn:E; [by apply String.eqb_eq in E|].
  eexists. split; [done|]. cbn [hr_entries hr_epoch hr_forgot hr_broken hr_rev]. split_and!; try done.
  - intros k e Hk%(lo_rev _ _ Hl). lia.
  - destruct HI as [H1 H2 _ _]. unfold Inv. cbn [hr_entries hr_children hr_total].
    split; [by rewrite Hes|by rewrite Hes|apply (lo_children _ _ Hl)|apply (lo_total _ _ Hl)].
Qed.

(** ** Setting a state durably *)

(** An open root whose files and journal are in step with it. *)
Definition Durable (root : hubRoot) : Prop :=
  exists recs, Repr (hr_journal root) (hr_disk root) recs /\ j_pending (hr_journal root) = [] /\ journals recs root.

(** The files open to every state of the root, and to nothing live besides. *)
Definition survives (root : hubRoot) : Prop :=
  exists recs, reopens (hr_disk root) recs /\
    (forall k e, hr_entries root !! k = Some e -> recs !! journalKey k = Some (Some (RecEntry e))) /\
    (forall s k e, parseKey s = Some k -> recs !! s = Some (Some (RecEntry e)) -> Live (he_entry e) = true ->
       hr_entries root !! k = Some e).

Lemma survives_journals root recs : reopens (hr_disk root) recs -> journals recs root -> survives root.
Proof.
  intros Hr [He Ht _ _]. exists recs. split_and!; [done| |].
  - intros k e Hk. rewrite (He _ k) by (eapply parse_journalKey, (fun H => proj1 (Ht _ _ H)); done). by rewrite Hk.
  - intros s k e Hs Hv _. rewrite (He s k Hs) in Hv. destruct (hr_entries root !! k); naive_solver.
Qed.

Lemma Durable_survives root : Durable root -> survives root.
Proof. intros (recs & HR & _ & Hj). eapply survives_journals; [by eapply Holds_reopens, Repr_Holds|done]. Qed.

Lemma journals_put recs root root' k e :
  journals recs root -> tidy k -> utf8 (RecEntry e) -> hr_entries root' = <[k := e]> (hr_entries root) ->
  hr_epoch root' = hr_epoch root -> hr_forgot root' = hr_forgot root ->
  journals (<[journalKey k := Some (RecEntry e)]> recs) root'.
Proof.
  intros [He Ht Hev Hm] Hk Hu Hes Hep Hf. split.
  - intros s k' Hs. rewrite Hes. destruct (parseKey_Some _ _ Hs) as [-> Hv].
    destruct (base.decide (k' = k)) as [->|Hne]; [by rewrite !lookup_insert_eq|].
    rewrite !lookup_insert_ne; [by apply He|done|]. intros Heq. rewrite <- Heq, parse_journalKey in Hs by done. congruence.
  - intros k' e'. rewrite Hes. intros [[<- <-]|[_ ?]]%lookup_insert_Some; [done|]. by eapply Ht.
  - by rewrite Hep.
  - rewrite Hep, Hf. rewrite lookup_insert_ne; [done|]. intros Heq. pose proof (parse_journalKey _ Hk) as Hp.
    by rewrite Heq, metaKey_unparsed in Hp.
Qed.

(** *** Compacting *)

Definition gone_lines (gone : list (key * hubEntry)) : list (journalLine hubRecord) :=
  map (fun ke => MkLine 0 (journalKey ke.1) true None) gone.

Lemma foldl_del gone (j : journal hubRecord) :
  let j' := foldl (fun j ke => del j (journalKey ke.1)) j gone in
  j_pending j' = j_pending j ++ gone_lines gone /\ j' = with_pending j (j_pending j').
Proof.
  revert j. induction gone as [|ke gone IH]; intros j; simpl; [rewrite app_nil_r; by destruct j|].
  destruct (IH (del j (journalKey ke.1))) as [Hp Hw]. split; [|by rewrite Hw at 1].
  rewrite Hp. unfold del, with_pending. simpl. by rewrite <- app_assoc.
Qed.

(** Deleting records the snapshot drops leaves the others. *)
Lemma apply_gone_lookup recs gone s :
  (forall ke, ke ∈ gone -> journalKey ke.1 <> s) -> apply_batch recs (gone_lines gone) !! s = recs !! s.
Proof.
  revert recs. induction gone as [|ke gone IH]; intros recs Hg; [done|]. cbn [gone_lines map apply_batch foldl].
  transitivity (delete (journalKey ke.1) recs !! s).
  - apply (IH (delete (journalKey ke.1) recs)). intros ke' Hin. apply Hg. by right.
  - apply lookup_delete_ne, Hg. by left.
Qed.

Lemma apply_gone_sub recs gone s v :
  apply_batch recs (gone_lines gone) !! s = Some v -> recs !! s = Some v.
Proof.
  revert recs. induction gone as [|ke gone IH]; intros recs; [done|]. cbn [gone_lines map apply_batch foldl].
  intros H. apply (IH (apply_line recs (MkLine 0 (journalKey ke.1) true None))) in H. unfold apply_line in H. simpl in H. by apply lookup_delete_Some in H as [_ ?].
Qed.

Definition entry_records (kept : gmap key hubEntry) : gmap string hubRecord :=
  list_to_map (map (fun ke => (journalKey ke.1, RecEntry ke.2)) (map_to_list kept)).

Lemma entry_records_lookup kept s k :
  (forall k e, kept !! k = Some e -> tidy k) -> parseKey s = Some k ->
  entry_records kept !! s = RecEntry <$> kept !! k.
Proof.
  intros Ht Hs. destruct (parseKey_Some _ _ Hs) as [-> _]. unfold entry_records.
  destruct (kept !! k) as [e|] eqn:He; simpl.
  - apply elem_of_list_to_map.
    + rewrite map_map. apply NoDup_fmap_2_strong; [|apply NoDup_map_to_list].
      intros [k1 e1] [k2 e2] H1%elem_of_map_to_list H2%elem_of_map_to_list Heq. simpl in Heq.
      pose proof (parse_journalKey _ (Ht _ _ H1)) as P1. pose proof (parse_journalKey _ (Ht _ _ H2)) as P2.
      rewrite Heq, P2 in P1. injection P1 as ->. rewrite H1 in H2. by injection H2 as ->.
    + apply list_elem_of_fmap. exists (k, e). split; [done|]. by apply elem_of_map_to_list.
  - apply not_elem_of_list_to_map. rewrite <- list_fmap_compose. intros ([k' e'] & Heq & Hin%elem_of_map_to_list)%list_elem_of_fmap.
    simpl in Heq. rewrite Heq, (parse_journalKey _ (Ht _ _ Hin)) in Hs. congruence.
Qed.

Lemma entry_records_valid kept s v :
  (forall k e, kept !! k = Some e -> tidy k /\ utf8 (RecEntry e)) -> entry_records kept !! s = Some v -> readable s (Some v).
Proof.
  intros Ht ([k e] & [= -> ->] & Hin%elem_of_map_to_list)%elem_of_list_to_map_2%list_elem_of_fmap.
  destruct (Ht k e Hin) as [(_ & _ & ?) ?]. split; [done|]. by intros w [= <-].
Qed.

(** How many lines the journal can number before its counter wraps. *)
Definition seq_room (root : hubRoot) (n : nat) : Prop := j_seq (hr_journal root) + Z.of_nat n < 2 ^ 64.

Lemma snapshot_journals root' m :
  (forall k e, hr_entries root' !! k = Some e -> tidy k /\ utf8 (RecEntry e)) -> ValidString (hr_epoch root') = true -> me_epoch m = hr_epoch root' -> me_forgot m = hr_forgot root' ->
  journals (Some <$> <[metaKey := RecMeta m]> (entry_records (hr_entries root'))) root'.
Proof.
  intros Ht Hev He Hf. split; [|done|done|].
  - intros s k Hs. rewrite lookup_fmap, lookup_insert_ne by (intros <-; by rewrite metaKey_unparsed in Hs).
    rewrite (entry_records_lookup _ s k (fun k e H => proj1 (Ht k e H)) Hs). by destruct (hr_entries root' !! k).
  - exists m. by rewrite lookup_fmap, lookup_insert_eq.
Qed.

Lemma snapshot_valid kept m :
  (forall k e, kept !! k = Some e -> tidy k /\ utf8 (RecEntry e)) -> utf8 m ->
  map_Forall (fun k v => readable k (Some v)) (<[metaKey := m]> (entry_records kept)).
Proof.
  intros Ht Hm s v [[<- <-]|[_ Hs]]%lookup_insert_Some; [split; [by vm_compute|by intros w [= <-]]|]. by eapply entry_records_valid.
Qed.

Lemma snapshot_survives root m :
  (forall k e, hr_entries root !! k = Some e -> tidy k /\ utf8 (RecEntry e)) -> ValidString (hr_epoch root) = true -> me_epoch m = hr_epoch root -> me_forgot m = hr_forgot root ->
  Holds (hr_disk root) (Some <$> <[metaKey := RecMeta m]> (entry_records (hr_entries root))) -> survives root.
Proof.
  intros Ht Hev He Hf HH. apply survives_journals with (Some <$> <[metaKey := RecMeta m]> (entry_records (hr_entries root))).
  - by apply Holds_reopens.
  - by apply snapshot_journals.
Qed.

Lemma journals_gone recs root gone m kept s k e :
  journals recs root -> kept ⊆ hr_entries root ->
  (forall ke, ke ∈ gone -> kept !! ke.1 = None /\ tidy ke.1) ->
  let recs' := apply_batch recs (take m (gone_lines gone)) in
  (kept !! k = Some e -> recs' !! journalKey k = Some (Some (RecEntry e))) /\
  (parseKey s = Some k -> recs' !! s = Some (Some (RecEntry e)) -> hr_entries root !! k = Some e).
Proof.
  intros Hj Hsub Hg. unfold gone_lines. rewrite firstn_map. fold (gone_lines (firstn m gone)). split.
  - intros Hk. pose proof (lookup_weaken _ _ _ _ Hk Hsub) as Hk'.
    pose proof (parse_journalKey _ (proj1 (js_tidy _ _ Hj _ _ Hk'))) as Hp.
    rewrite apply_gone_lookup; [by rewrite (js_entries _ _ Hj _ _ Hp), Hk'|].
    intros ke Hin%elem_of_take Heq. destruct Hin as (i & Hi & _). apply list_elem_of_lookup_2, Hg in Hi as [Hn Ht].
    rewrite <- Heq, (parse_journalKey _ Ht) in Hp. injection Hp as Hp. congruence.
  - intros Hs Hr%apply_gone_sub. rewrite (js_entries _ _ Hj _ _ Hs) in Hr. destruct (hr_entries root !! k); naive_solver.
Qed.

Lemma root_compact_durable now root :
  Durable root -> seq_room root (size (hr_entries root)) ->
  let '(err, root') := root_compact cfg now root in
  survives root' /\ (err = None -> Durable root').
Proof.
  intros (recs & HR & Hp & Hj) Hroom. unfold root_compact.
  set (cutoff := now - _). 
  set (kept := filter (fun ke => forgettable root cutoff ke.1 ke.2 = false) (hr_entries root)).
  set (gone := map_to_list (filter (fun ke => forgettable root cutoff ke.1 ke.2 = true) (hr_entries root))).
  set (forgot := foldl _ (hr_forgot root) gone).
  set (root1 := set_forgot _ forgot). fold (entry_records kept).
  set (snap := <[metaKey := _]> (entry_records kept)).
  destruct (foldl_del gone (hr_journal root)) as [Hpd Hw]. set (j := foldl _ (hr_journal root) gone) in *.
  rewrite Hp, app_nil_l in Hpd.
  assert (kept ⊆ hr_entries root) as Hsub by apply map_filter_subseteq.
  assert (forall k e, kept !! k = Some e -> tidy k /\ utf8 (RecEntry e)) as Ht.
  { intros k e Hk. eapply (js_tidy _ _ Hj), lookup_weaken; done. }
  assert (forall ke, ke ∈ gone -> hr_entries root !! ke.1 = Some ke.2 /\ forgettable root cutoff ke.1 ke.2 = true) as Hgone.
  { intros [k e] Hin%elem_of_map_to_list. by apply map_lookup_filter_Some in Hin. }
  assert (forall ke, ke ∈ gone -> kept !! ke.1 = None /\ tidy ke.1) as Hg.
  { intros [k e] [He Hfg]%Hgone. split; [|by eapply (js_tidy _ _ Hj _ _ He)]. apply map_lookup_filter_None. right.
    intros e' He'. simpl in *. rewrite He in He'. injection He' as <-. congruence. }
  assert (let '(r, j', d') := compact j (hr_disk root) snap in
    match r with
    | None => Repr j' d' (Some <$> snap) /\ j_pending j' = []
    | Some _ => Holds d' (Some <$> snap) \/ exists m, Holds d' (apply_batch recs (take m (gone_lines gone)))
    end) as Hc.
  { rewrite <- Hpd. apply compact_spec; [by rewrite Hw| | |apply snapshot_valid; [done|repeat constructor; apply (js_epoch _ _ Hj)]].
    - rewrite Hpd. apply Forall_map, Forall_forall. intros ke Hin. apply Hg in Hin as [_ (_ & _ & ?)]. by split.
    - rewrite Hpd. unfold gone_lines. rewrite length_map, Hw. unfold with_pending, gone. cbn [j_seq].
      rewrite length_map_to_list. unfold seq_room in Hroom.
      pose proof (map_size_filter (fun ke => forgettable root cutoff ke.1 ke.2 = true) (hr_entries root)). lia. }
  destruct (compact j (hr_disk root1) snap) as [[[e|] j'] d'] eqn:Ec; change (hr_disk root1) with (hr_disk root) in Ec;
    rewrite Ec in Hc.
  - split; [|done]. destruct Hc as [Hc|[m Hc]].
    + apply (snapshot_survives (set_journal root1 j' d') (MkMeta (hr_epoch root) (hr_rev root) forgot)); try done; apply (js_epoch _ _ Hj).
    + exists (apply_batch recs (take m (gone_lines gone))). split; [by apply Holds_reopens|].
      pose proof (fun s k e => journals_gone recs root gone m kept s k e Hj Hsub Hg) as Hr. split.
      * intros k e0. apply (Hr "" k e0).
      * intros s k e0 Hs Hl Hlive. apply map_lookup_filter_Some. split; [by apply (Hr s k e0)|].
        unfold forgettable. simpl. by rewrite Hlive.
  - destruct Hc as [Hc Hp']. assert (Durable (set_blobs (set_journal root1 j' d')
      (blobs_gc (hr_blobs root1) (list_to_set (map_to_list kept ≫= fun ke => names_of ke.2)) (now - hour)))) as HD.
    { exists (Some <$> snap). split_and!; [done..|].
      match goal with |- journals _ ?r => apply (snapshot_journals r (MkMeta (hr_epoch root) (hr_rev root) forgot)) end; try done; apply (js_epoch _ _ Hj). }
    split; [by apply Durable_survives|done].
Qed.

Lemma commit_seq (j : journal hubRecord) d j' d' :
  commit j d = (None, j', d') -> 0 <= j_seq j -> j_seq j + Z.of_nat (length (j_pending j)) < 2 ^ 64 ->
  j_seq j' = j_seq j + Z.of_nat (length (j_pending j)).
Proof.
  unfold commit. destruct (j_pending j) as [|l ls] eqn:E; [intros [= <- <-]; simpl; lia|].
  destruct (negb (j_log j)); [done|]. destruct (syscall d) as [[|w] d1].
  - intros [= <- <-] H0 H1. cbn [j_seq]. apply u64_small. lia.
  - unfold attempt. repeat (destruct (syscall _) as [[|] ?]); done.
Qed.

(** The journal's line of a state committed. *)
Lemma commit_put root k ne j' d' recs :
  Repr (hr_journal root) (hr_disk root) recs -> j_pending (hr_journal root) = [] -> ValidString (journalKey k) = true -> utf8 (RecEntry ne) ->
  seq_room root 1 ->
  commit (put (hr_journal root) (journalKey k) (RecEntry ne)) (hr_disk root) = (None, j', d') ->
  Repr j' d' (<[journalKey k := Some (RecEntry ne)]> recs) /\ j_pending j' = [] /\
  j_seq j' = j_seq (hr_journal root) + 1.
Proof.
  intros HR Hp Hv Hu Hroom Hc. set (j := put _ _ _) in Hc.
  assert (j_pending j = [MkLine 0 (journalKey k) false (Some (RecEntry ne))]) as Hpj by (simpl; by rewrite Hp).
  assert (all_readable (j_pending j)) as Hkv by (rewrite Hpj; repeat constructor; [done|by intros w [= <-]]).
  assert (j_seq j + Z.of_nat (length (j_pending j)) < 2 ^ 64) as Hrj by (rewrite Hpj; exact Hroom).
  assert (Repr j (hr_disk root) recs) as HRj by done.
  pose proof (commit_spec j (hr_disk root) recs HRj Hkv Hrj) as Hs. rewrite Hc in Hs. destruct Hs as [Hp' HR'].
  rewrite Hpj in HR'. split_and!; [done..|]. rewrite (commit_seq _ _ _ _ Hc); [by rewrite Hpj| |done].
  destruct HR as (? & ? & ? & _ & ? & _). simpl. lia.
Qed.

Lemma landed_state now root k ne except :
  let root' := landed now root k ne except in
  hr_entries root' = <[k := ne]> (hr_entries root) /\ hr_epoch root' = hr_epoch root /\ hr_forgot root' = hr_forgot root /\
  hr_journal root' = hr_journal root /\ hr_disk root' = hr_disk root.
Proof. unfold landed. by destruct (count _ _ _ _ _). Qed.

End durable.
