(* ===== verification/HubExamples.v ===== *)
(** * Runs of the hub

    A hub of one root, two sides and the mirror policy: inputs on which the
    hypotheses of the hub's theorems hold, and runs that show what the code
    does in cases its comments do not describe. *)

From S2P Require Import Prelude GoStrings Sha256 Entry SyncPolicy Mergers Journal Examples HubState HubCommit HubInvariants HubProcess HubAnswers HubDispatch HubDelivery HubApi HubDurable HubStatus.
Local Open Scope string_scope.
Local Open Scope Z_scope.
Local Open Scope list_scope.

(** ** A record codec *)

#[export] Instance Kind_countable : Countable Kind.
Proof.
  refine (inj_countable' (fun k => match k with Gone => (0%nat, 0) | File => (1%nat, 0) | Dir => (2%nat, 0)
                                      | Symlink => (3%nat, 0) | OtherKind n => (4%nat, n) end)
    (fun p => match p.1 with 0%nat => Gone | 1%nat => File | 2%nat => Dir | 3%nat => Symlink | _ => OtherKind p.2 end) _); by intros [].
Defined.

#[export] Instance Prefix_countable : Countable Prefix.
Proof.
  refine (inj_countable' (fun p => (pre_size p, pre_hash p)) (fun p => MkPrefix p.1 p.2) _); by intros [].
Defined.

#[export] Instance Entry_countable : Countable Entry.
Proof.
  refine (inj_countable' (fun e => ((ekind e, emode e, esize e, emtime e), (ehash e, etarget e, egrew e)))
    (fun '((k, m, s, t), (h, g, r)) => MkEntry k m s t h g r) _); by intros [].
Defined.

#[export] Instance histRev_eq_dec : EqDecision histRev.
Proof. solve_decision. Defined.
#[export] Instance histRev_countable : Countable histRev.
Proof.
  refine (inj_countable' (fun h => (hi_rev h, hi_hash h)) (fun p => MkHist p.1 p.2) _); by intros [].
Defined.

#[export] Instance hubEntry_eq_dec : EqDecision hubEntry.
Proof. solve_decision. Defined.
#[export] Instance hubEntry_countable : Countable hubEntry.
Proof.
  refine (inj_countable' (fun e => ((he_entry e, he_rev e, he_origin e), (he_base e, he_at e, he_hist e)))
    (fun '((e, r, o), (b, a, h)) => MkHub e r o b a h) _); by intros [].
Defined.

#[export] Instance hubMeta_eq_dec : EqDecision hubMeta.
Proof. solve_decision. Defined.
#[export] Instance hubMeta_countable : Countable hubMeta.
Proof.
  refine (inj_countable' (fun m => (me_epoch m, me_rev m, me_forgot m)) (fun '(e, r, f) => MkMeta e r f) _); by intros [].
Defined.

#[export] Instance hubRecord_eq_dec : EqDecision hubRecord.
Proof. solve_decision. Defined.
#[export] Instance hubRecord_countable : Countable hubRecord.
Proof.
  refine (inj_countable' (fun r => match r with RecMeta m => inl m | RecEntry e => inr e end)
    (fun s => match s with inl m => RecMeta m | inr e => RecEntry e end) _); by intros [].
Defined.

(** ** The hub *)

Definition ex_cap : Z := 1024.

Definition ex_cfg : hubConf :=
  MkConf [MkRoot "data" "" [] Mirror ex_cap []]
    (fun pol => match pol with
                | Mirror => Some MirrorPolicy
                | AppendUnion => Some AppendUnionPolicy
                | _ => None
                end)
    100 1000 10000 86400 200 256.

#[export] Instance ex_lawful : PoliciesLawful ex_cfg.
Proof. intros [] m; simpl; intros; simplify_eq; apply _. Qed.

(** A daemon host with room, and sides that give the content they hold. *)
Definition ex_env (data : string) (now : Z) : hubEnv :=
  MkEnv now (fun _ _ _ _ => Ok (Ok data)) (fun _ => true) (fun _ => true) None 0 (Ok "id1").

Definition bare_root : hubRoot :=
  MkHubRoot "data" ex_cap "e1" 0 0 ∅ ∅ 0 ∅ ∅ (MkJournal true 0 0 0 0 []) d0 ∅ None "".
Definition empty_root : hubRoot := (putMeta bare_root).2.

Example empty_root_opened : openHubRoot ex_cfg "data" "" "e1" new_disk ∅ = Some (Ok empty_root).
Proof. vm_compute. reflexivity. Qed.

Lemma empty_root_Inv : Inv empty_root.
Proof.
  unfold Inv. change (hr_entries empty_root) with (∅ : gmap key hubEntry).
  change (hr_children empty_root) with (∅ : gmap string Z). change (hr_total empty_root) with 0. split.
  - by intros k e ?%lookup_empty_Some.
  - by intros k e ?%lookup_empty_Some.
  - intros p. by rewrite lookup_empty, map_sum_empty.
  - by rewrite map_sum_empty.
Qed.

(** Two sides attached. *)
Definition attached (root : hubRoot) : hubRoot :=
  (attach_root ex_cfg 0 (attach_root ex_cfg 0 root side_a (MkRootHello "data" "e1" [])).1 side_b (MkRootHello "data" "e1" [])).1.

Definition root0 : hubRoot := attached empty_root.

Lemma root0_Inv : Inv root0.
Proof. exact empty_root_Inv. Qed.

Definition c_dir : Change := MkChange "d" 0 (MkEntry Dir 493 0 0 "" "" []).
Definition c_file : Change := MkChange "d/f" 0 (file_of "hello" 7).

Definition same_env (data : string) : nat -> nat -> hubEnv := fun _ _ => ex_env data 50.

(** Side a reports a folder and a file in it. *)
Definition reported : Reply * list Conflict * hubRoot :=
  report_root ex_cfg (same_env "hello") (fun _ r => r) [] root0 side_a (MkReport "data" "e1" [c_file; c_dir]).
Definition root1 : hubRoot := reported.2.

Example report_accepts : map (fun a => (a_path a, a_status a, a_rev a)) (reply_acks reported.1.1)
  = [("d", Accepted, 1); ("d/f", Accepted, 2)].
Proof. by vm_compute. Qed.

Definition k_d : key := MkKey "" "d".
Definition k_f : key := MkKey "" "d/f".
Definition e_d : hubEntry := MkHub (c_entry c_dir) 1 "a" 0 50 [].
Definition e_f : hubEntry := MkHub (c_entry c_file) 2 "a" 0 50 [].

Lemma root1_list : map_to_list (hr_entries root1) ≡ₚ [(k_d, e_d); (k_f, e_f)].
Proof. apply (bool_decide_unpack _). by vm_compute. Qed.

Lemma root1_lookup k e : hr_entries root1 !! k = Some e <-> (k = k_d /\ e = e_d) \/ (k = k_f /\ e = e_f).
Proof.
  rewrite <- elem_of_map_to_list, root1_list, !elem_of_cons, elem_of_nil. split; [intros [H|[H|[]]]; simplify_eq; auto|].
  intros [[-> ->]|[-> ->]]; auto.
Qed.

Lemma keeps_still : keeps_tree (fun _ r => r).
Proof. by intros n r. Qed.

Lemma root1_Inv : Inv root1.
Proof. unfold root1, reported. apply report_root_Inv; [exact ex_lawful|exact root0_Inv|exact keeps_still]. Qed.

Lemma root1_RevInv : RevInv root1.
Proof.
  split.
  - assert (hr_rev root1 = 2) as -> by (by vm_compute). lia.
  - assert (hr_rev root1 = 2) as -> by (by vm_compute). intros k e [[-> ->]|[-> ->]]%root1_lookup; simpl; lia.
  - intros k k' e e' [[-> ->]|[-> ->]]%root1_lookup [[-> ->]|[-> ->]]%root1_lookup; done.
Qed.

Definition sr_a : sideRoot := set_reports (set_held (newSideRoot side_a) {["d" := 1; "d/f" := 2]}) {["d" := 1; "d/f" := 1]}.
Definition sr_b : sideRoot := set_dirty (newSideRoot side_b) {["d" := 50; "d/f" := 50]}.

Lemma root1_sides id sr : hr_sides root1 !! id = Some sr <-> (id = "a" /\ sr = sr_a) \/ (id = "b" /\ sr = sr_b).
Proof.
  assert (hr_sides root1 = {["a" := sr_a; "b" := sr_b]}) as -> by (by vm_compute).
  rewrite lookup_insert_Some, lookup_singleton_Some. split; [naive_solver|].
  intros [[-> ->]|[-> ->]]; [auto|]. right. done.
Qed.

Lemma root1_keyFor p loc k m : keyFor ex_cfg root1 p loc = Some (k, m) -> k = MkKey "" p.
Proof.
  intros H. destruct (keyFor_spec _ _ _ _ _ _ H) as (Hp & (pol & Hpol) & _). revert H. unfold keyFor.
  destruct (merger _ _ _) as [m'|]; [|done]. case_bool_decide as Hs; [|by intros [= <- _]]. intros [= <- <-]. exfalso.
  destruct pol; simpl in Hpol; try done; injection Hpol as <-; done.
Qed.

(** What a side lacks of a root of these two entries. *)
Lemma root1_opFor sr p op :
  opFor ex_cfg root1 sr p = Some op -> sr_held sr !! p = None -> p = "d" \/ p = "d/f".
Proof.
  unfold opFor. intros Hop Hh. rewrite Hh in Hop.
  destruct (keyFor _ _ _ _) as [[k m]|] eqn:Hk; [|done]. destruct (negb _); [done|]. apply root1_keyFor in Hk as ->.
  destruct (hr_entries root1 !! MkKey "" p) eqn:He; [|done]. apply root1_lookup in He as [[[= ->] _]|[[= ->] _]]; auto.
Qed.

Lemma sr_a_lacks_nothing p : opFor ex_cfg root1 sr_a p = None.
Proof.
  destruct (opFor ex_cfg root1 sr_a p) as [op|] eqn:E; [|done]. exfalso.
  assert (p = "d" \/ p = "d/f") as [->| ->]; [|by vm_compute in E..].
  destruct (sr_held sr_a !! p) eqn:Hh; [|by eapply root1_opFor]. simpl in Hh.
  apply lookup_insert_Some in Hh as [[<- _]|[_ [<- _]%lookup_singleton_Some]]; auto.
Qed.

Lemma root1_Accounted : Accounted ex_cfg root1.
Proof.
  intros id sr [[-> ->]|[-> ->]]%root1_sides p op Hop; [by rewrite sr_a_lacks_nothing in Hop|].
  left. apply root1_opFor in Hop; [|reflexivity]. destruct Hop as [->| ->]; eexists; vm_compute; reflexivity.
Qed.

#[local] Opaque root1.

(** ** Processing *)

Lemma live_entry_reachable_witness : dir_at (hr_entries root1) "d".
Proof.
  apply (live_entry_reachable root1 k_f e_f).
  - exact root1_Inv.
  - apply root1_lookup. by right.
  - reflexivity.
  - apply (bool_decide_unpack _). by vm_compute.
Defined.

(** Side b's concurrent edit of the file, newer than the current one. *)
Definition c_edit : Change := MkChange "d/f" 0 (file_of "world" 9).
Definition p_edit : plan :=
  MkPlan k_f MirrorPolicy side_b c_edit 0 (Some e_f) false (checkShape root1 c_edit (Some e_f)).

Example p_edit_prepared : (prepare 60 root1 k_f MirrorPolicy side_b c_edit 0).1 = inl p_edit.
Proof. by vm_compute. Qed.

Definition decided_edit := hub_decide ex_cfg (ex_env "hello" 60) [] root1 p_edit.
Definition res_edit : MergeResult := match decided_edit.1.1 with Ok re => re.1 | Err _ => decided Undecided false "" end.
Definition extra_edit : planExtra := match decided_edit.1.1 with Ok re => re.2 | Err _ => MkExtra "" (entry_of Gone 0) "" end.

Lemma decided_edit_eq :
  hub_decide ex_cfg (ex_env "hello" 60) [] root1 p_edit = (Ok (res_edit, extra_edit), decided_edit.1.2, decided_edit.2).
Proof.
  unfold res_edit, extra_edit. fold decided_edit.
  assert (match decided_edit.1.1 with Ok _ => true | Err _ => false end = true) as Hok by (vm_compute; reflexivity).
  destruct decided_edit as [[[[r e]|e] st] rt]; done.
Qed.

Lemma conflict_copy_kept_witness :
  exists copy, copy ∈ decided_edit.1.2 /\ cn_id copy = "id1" /\ faithful_copy copy (file_of "hello" 7).
Proof.
  destruct (conflict_copy_kept ex_cfg (ex_env "hello" 60) [] root1 p_edit res_edit extra_edit decided_edit.1.2 decided_edit.2
    (file_of "hello" 7)) as (copy & Hin & Hid & _ & Hf).
  - exact decided_edit_eq.
  - by vm_compute.
  - by vm_compute.
  - by left.
  - simpl. lia.
  - by constructor.
  - exists copy. split; [done|]. split; [|done]. rewrite Hid. by vm_compute.
Defined.

(** ** Committing *)

Definition committed := commitPlan ex_cfg 60 root1 p_edit res_edit extra_edit.

Lemma committed_eq : commitPlan ex_cfg 60 root1 p_edit res_edit extra_edit = (committed.1, committed.2).
Proof. exact (surjective_pairing committed). Qed.

#[local] Opaque committed.

Example edit_accepted : a_status <$> committed.1 = Some Accepted /\ a_rev <$> committed.1 = Some 3.
Proof. split; vm_compute; reflexivity. Qed.

Lemma commitPlan_revs_witness :
  RevInv committed.2 /\ hr_rev root1 <= hr_rev committed.2 /\
  forall a, committed.1 = Some a -> a_status a = Accepted -> hr_rev root1 < a_rev a <= hr_rev committed.2.
Proof.
  destruct (commitPlan_revs ex_cfg 60 root1 p_edit res_edit extra_edit committed.1 committed.2 root1_RevInv)
    as (H1 & H2 & H3); [vm_compute; reflexivity|exact committed_eq|].
  split; [exact H1|]. split; [exact H2|]. intros a Ha Hs. apply H3; auto.
Defined.

Lemma commitPlan_answers_witness :
  match committed.1 with
  | Some a => a_status a = Accepted -> exists e, hr_entries committed.2 !! k_f = Some e /\ he_entry e = file_of "world" 9
  | None => False
  end.
Proof.
  assert (is_Some committed.1) as [a Ha] by (vm_compute; eauto).
  pose proof (commitPlan_answers ex_cfg 60 root1 p_edit res_edit extra_edit committed.1 committed.2) as H.
  rewrite Ha in *. intros Hs. rewrite Hs in H.
  destruct H as (e & He & Hc & _); [vm_compute; discriminate|rewrite <- Ha; exact committed_eq|].
  exists e. exact (conj He Hc).
Defined.

Lemma p_edit_wf : wf_plan p_edit.
Proof.
  split.
  - vm_compute. reflexivity.
  - vm_compute. reflexivity.
  - reflexivity.
  - vm_compute. reflexivity.
  - assert (sh_resurrect (pl_shape p_edit) = []) as -> by (vm_compute; reflexivity). constructor.
  - intros h [= <-]. vm_compute. reflexivity.
Qed.

Lemma res_edit_wf : wf_decision p_edit res_edit extra_edit.
Proof.
  assert (decision res_edit = Accept) as Hd by (vm_compute; reflexivity).
  split; [intros Hk; by vm_compute in Hk|congruence].
Qed.

Lemma root1_Flat : Flat root1.
Proof. intros k e [[-> ->]|[-> ->]]%root1_lookup _ Hk; [reflexivity|by destruct Hk]. Qed.

Lemma commitPlan_cap_witness : root_bytes (commitPlan ex_cfg 60 root1 p_edit res_edit extra_edit).2 <= hr_cap root1.
Proof.
  refine (proj1 (commitPlan_cap ex_cfg 60 root1 p_edit res_edit extra_edit root1_Inv root1_Flat p_edit_wf res_edit_wf _ _ _ _ _)).
  - by intros _ [].
  - split; vm_compute; reflexivity.
  - vm_compute. discriminate.
  - vm_compute. reflexivity.
  - vm_compute. reflexivity.
Defined.

Lemma p_edit_reporter : wf_reporter ex_cfg root1 p_edit.
Proof.
  split.
  - reflexivity.
  - intros sr [[[=] _]|[_ ->]]%root1_sides. reflexivity.
  - vm_compute. reflexivity.
Qed.

Lemma commitPlan_accounts_witness : Accounted ex_cfg (commitPlan ex_cfg 60 root1 p_edit res_edit extra_edit).2.
Proof.
  apply (commitPlan_accounts ex_cfg 60 root1 p_edit res_edit extra_edit).
  - simpl. lia.
  - exact root1_Accounted.
  - exact p_edit_reporter.
  - discriminate.
Defined.

(** ** Sending *)

Lemma triple_eta {A B D} (x : A * B * D) : x = (x.1.1, x.1.2, x.2).
Proof. by destruct x as [[]]. Qed.

Lemma root1_side_b : hr_sides root1 !! "b" = Some sr_b.
Proof. apply root1_sides. by right. Qed.

Lemma root1_open : hr_broken root1 = None.
Proof. vm_compute. reflexivity. Qed.

Definition sending := collect ex_cfg root1 "b" 60 true.

Example sends_folder_first : map (fun b => map o_path (b_ops b)) sending.1.1 = [["d"; "d/f"]].
Proof. vm_compute. reflexivity. Qed.

Lemma collect_accounts_witness :
  Accounted ex_cfg (collect ex_cfg root1 "b" 60 true).2 /\
  NoDup (map o_path (flat_map b_ops (collect ex_cfg root1 "b" 60 true).1.1)).
Proof.
  destruct (collect_accounts ex_cfg root1 "b" 60 true sr_b (collect ex_cfg root1 "b" 60 true).1.1
    (collect ex_cfg root1 "b" 60 true).1.2 (collect ex_cfg root1 "b" 60 true).2) as (H1 & H2 & _ & _ & _).
  - vm_compute. lia.
  - exact root1_side_b.
  - exact root1_open.
  - exact root1_Accounted.
  - apply triple_eta.
  - exact (conj H1 H2).
Defined.

Lemma opFor_set_sides cfg root ss sr p : opFor cfg (set_sides root ss) sr p = opFor cfg root sr p.
Proof. reflexivity. Qed.

(** The ops on their way to side b. *)
Definition sr_flying : sideRoot := set_inflight (newSideRoot side_b) {["d" := 60; "d/f" := 60]}.
Definition flying_root : hubRoot := set_sides root1 {["b" := sr_flying]}.
Definition b_flying : Batch :=
  MkBatch "data" "e1" LaneNormal [MkOp "d" 1 (c_entry c_dir); MkOp "d/f" 2 (c_entry c_file)].
Definition all_done : list Result := [MkResult "d" 1 Applied ""; MkResult "d/f" 2 Applied ""].

Lemma flying_side id sr : hr_sides flying_root !! id = Some sr -> sr = sr_flying.
Proof. simpl. by intros [_ <-]%lookup_singleton_Some. Qed.

Lemma flying_root_Accounted : Accounted ex_cfg flying_root.
Proof.
  intros id sr ->%flying_side p op Hop.
  unfold flying_root in Hop. rewrite opFor_set_sides in Hop. right. left.
  apply root1_opFor in Hop; [|reflexivity]. destruct Hop as [->| ->]; eexists; vm_compute; reflexivity.
Qed.


Lemma round_delivers_witness :
  exists sr1, hr_sides (collect ex_cfg root1 "b" 60 true).2 !! "b" = Some sr1 /\
    forall p, opFor ex_cfg root1 (foldl (deliver ex_cfg 70) sr1 (collect ex_cfg root1 "b" 60 true).1.1) p = None.
Proof.
  apply (round_delivers ex_cfg root1 "b" 60 70 sr_b (collect ex_cfg root1 "b" 60 true).1.1
    (collect ex_cfg root1 "b" 60 true).1.2 (collect ex_cfg root1 "b" 60 true).2).
  - vm_compute. lia.
  - exact root1_side_b.
  - exact root1_open.
  - exact (root1_Accounted "b" sr_b root1_side_b).
  - split; reflexivity.
  - intros p op h _ Hh. vm_compute in Hh. discriminate.
  - apply triple_eta.
Defined.

(** ** Attaching, reporting, flushing *)

Definition hello_b : RootHello := MkRootHello "data" "e1" [MkHeld "d" 1 (c_entry c_dir)].

Lemma attach_root_accounts_witness :
  exists sr, hr_sides (attach_root ex_cfg 60 root1 side_b hello_b).1 !! "b" = Some sr /\
    accounted ex_cfg (attach_root ex_cfg 60 root1 side_b hello_b).1 sr.
Proof.
  assert (is_Some (hr_sides (attach_root ex_cfg 60 root1 side_b hello_b).1 !! "b")) as [sr Hsr]
    by (vm_compute; eauto).
  exists sr. split; [exact Hsr|].
  exact (attach_root_accounts ex_cfg 60 root1 side_b hello_b sr root1_open Hsr).
Defined.

Definition r_both : Report := MkReport "data" "e1" [c_file; c_dir].

Lemma report_answers_every_change_witness :
  map a_path (reply_acks (report_root ex_cfg (same_env "hello") (fun _ r => r) [] root0 side_a r_both).1.1) = ["d"; "d/f"].
Proof.
  pose proof (report_answers_every_change ex_cfg (same_env "hello") (fun _ r => r) [] root0 side_a r_both root0_Inv keeps_still) as H.
  destruct (report_root _ _ _ _ _ _ _) as [[reply store] root]. destruct H as (H & _ & _).
  apply (f_equal (map fst)) in H. rewrite !map_map in H. cbn [fst snd] in *.
  etransitivity; [exact H|]. vm_compute. reflexivity.
Defined.

(** Side b has the folder and refused the file. *)
Definition sr_refusing : sideRoot :=
  set_blocked (set_held (newSideRoot side_b) {["d" := 1]}) {["d/f" := MkRefusal 2 "not a file here"]}.
Definition refused_root : hubRoot := set_sides root1 {["b" := sr_refusing]}.

Lemma refused_root_side id sr : hr_sides refused_root !! id = Some sr -> sr = sr_refusing.
Proof. simpl. by intros [_ <-]%lookup_singleton_Some. Qed.

Lemma refused_root_Accounted : Accounted ex_cfg refused_root.
Proof.
  intros id sr ->%refused_root_side p op Hop. right. right.
  unfold refused_root in Hop. rewrite opFor_set_sides in Hop.
  destruct (base.decide (p = "d")) as [->|Hne]; [vm_compute in Hop; discriminate|].
  assert (sr_held sr_refusing !! p = None) as Hn by (simpl; by rewrite lookup_singleton_ne).
  destruct (root1_opFor _ _ _ Hop Hn) as [->| ->]; [exfalso; apply Hne; reflexivity|].
  assert (op = MkOp "d/f" 2 (c_entry c_file)) as -> by (vm_compute in Hop; by injection Hop as <-).
  exists (MkRefusal 2 "not a file here"). split; [reflexivity|by left].
Qed.

Definition refusing_hub : Hub := MkHubState [refused_root] {["b" := MkHubSide side_b None 0 ""]} [] false.

Lemma flush_leaves_nothing_witness :
  Flush ex_cfg 1 (fun _ => true) (fun _ => false) refusing_hub refusing_hub (fun _ => refusing_hub) = Some FlushDone /\
  refused_op ex_cfg refused_root sr_refusing (MkOp "d/f" 2 (c_entry c_file)).
Proof.
  assert (flush ex_cfg 1 (fun _ => true) (fun _ => false) refusing_hub refusing_hub (fun _ => refusing_hub) None (fun _ _ => true) = Some FlushDone) as Hp
    by (vm_compute; reflexivity).
  split; [exact Hp|].
  destruct (flush_leaves_nothing ex_cfg 1 (fun _ => true) (fun _ => false) refusing_hub refusing_hub (fun _ => refusing_hub) None (fun _ _ => true) Hp)
    as (_ & n & H).
  destruct (H refused_root) as [_ Hr]; [apply list_elem_of_singleton; reflexivity|vm_compute; reflexivity|exact refused_root_Accounted|].
  apply (Hr "b" sr_refusing "d/f").
  - reflexivity.
  - reflexivity.
  - vm_compute. reflexivity.
Defined.

(** ** Restarting *)

Definition recs1 : gmap string (option hubRecord) :=
  <[journalKey k_f := Some (RecEntry e_f)]> (<[journalKey k_d := Some (RecEntry e_d)]>
    {[metaKey := Some (RecMeta (MkMeta "e1" 0 0))]}).

Lemma tidy_paths p : p = "d" \/ p = "d/f" \/ p = "d/g" -> tidy (MkKey "" p).
Proof. intros [->|[->| ->]]; split_and!; vm_compute; reflexivity. Qed.

Lemma root1_entries : hr_entries root1 = <[k_f := e_f]> {[k_d := e_d]}.
Proof.
  apply map_eq. intros k. apply option_eq. intros e. rewrite root1_lookup, lookup_insert_Some, lookup_singleton_Some.
  split; [intros [[-> ->]|[-> ->]]|]; [by right|by left|naive_solver].
Qed.

Lemma recs1_journal root :
  hr_entries root = <[k_f := e_f]> {[k_d := e_d]} -> hr_epoch root = "e1" -> hr_forgot root = 0 -> journals recs1 root.
Proof.
  intros Hes He Hf.
  apply (journals_put _ (set_tree root {[k_d := e_d]} ∅ 0)); [|apply tidy_paths; auto|apply all_utf8; vm_compute; reflexivity|done..].
  apply (journals_put _ (set_tree root ∅ ∅ 0)); [|apply tidy_paths; auto|apply all_utf8; vm_compute; reflexivity|done..].
  split.
  - intros s k Hs. simpl. rewrite lookup_empty, lookup_singleton_ne; [done|]. intros <-. by rewrite metaKey_unparsed in Hs.
  - intros k e. simpl. by rewrite lookup_empty.
  - simpl. by rewrite He.
  - exists (MkMeta "e1" 0 0). by rewrite lookup_singleton_eq.
Qed.

Lemma recs1_journals : journals recs1 root1.
Proof. apply recs1_journal; [exact root1_entries|vm_compute; reflexivity..]. Qed.

Definition lines1 : list (journalLine hubRecord) :=
  [MkLine 1 metaKey false (Some (RecMeta (MkMeta "e1" 0 0)));
   MkLine 2 (journalKey k_d) false (Some (RecEntry e_d));
   MkLine 3 (journalKey k_f) false (Some (RecEntry e_f))].

(** Long strings are compared without being written out. *)
Lemma log_eq (o : option string) s : match o with Some l => String.eqb l s | None => false end = true -> o = Some s.
Proof. destruct o; [|done]. by intros ->%String.eqb_eq. Qed.

Lemma nat_eq (a b : nat) : Nat.eqb a b = true -> a = b.
Proof. apply Nat.eqb_eq. Qed.

Lemma root1_Repr : Repr (hr_journal root1) (hr_disk root1) recs1.
Proof.
  assert (j_seq (hr_journal root1) = 3) as Hq by (vm_compute; reflexivity).
  assert (d_snap (hr_disk root1) = None) as Hs by (vm_compute; reflexivity).
  exists (MkHead 0 0), ∅, lines1. rewrite Hq, Hs. split; [reflexivity|]. split; [cbn; lia|]. split; [lia|].
  split; [apply log_eq; vm_compute; reflexivity|].
  split; [repeat apply Forall_cons_2; try apply Forall_nil_2; (split; [split; [vm_compute; reflexivity|intros w [= <-]; apply all_utf8; vm_compute; reflexivity]|cbn; lia])|].
  split; [repeat apply Forall_cons_2; try apply Forall_nil_2; cbn; lia|].
  split; [apply (bool_decide_unpack _); vm_compute; reflexivity|].
  split; [vm_compute; reflexivity|]. split; apply nat_eq; vm_compute; reflexivity.
Qed.

Lemma root1_Durable : Durable root1.
Proof. exists recs1. split_and!; [exact root1_Repr|vm_compute; reflexivity|exact recs1_journals]. Qed.

Lemma data_served : served ex_cfg "data" (MkRoot "data" "" [] Mirror ex_cap []).
Proof. split_and!; [by eexists|vm_compute; reflexivity..]. Qed.

Lemma reopen_restores_root_witness :
  exists root', openHubRoot ex_cfg "data" "" "e2" (after_crash (hr_disk root1)) ∅ = Some (Ok root') /\
    hr_entries root' = hr_entries root1.
Proof.
  destruct (reopen_restores_root ex_cfg root1 recs1 "data" "" "e2" (MkRoot "data" "" [] Mirror ex_cap []) ∅)
    as (root' & Ho & He & _).
  - exact root1_Inv.
  - exact recs1_journals.
  - vm_compute. discriminate.
  - apply Holds_reopens. eapply Repr_Holds. exact root1_Repr.
  - exact data_served.
  - exists root'. exact (conj Ho He).
Defined.


(** ** Status *)

Definition ex_hub : Hub := MkHubState [root1] ∅ [] false.

Lemma root1_shown : map (fun ss => (ss_Side ss, ss_Pending ss, ss_PendingBytes ss, ss_Refused ss)) (rs_Sides (root_status ex_cfg (fun _ => "broken") root1)) = [("a", 0, 0, []); ("b", 2, 5, [])].
Proof. vm_compute. reflexivity. Qed.

Lemma status_tells_witness :
  PauseReasons (Status ex_cfg (fun _ => "broken") (Some "full") ex_hub) = ["full"] /\
  "full" ∈ PauseReasons (Status ex_cfg (fun _ => "broken") (Some "full") ex_hub) /\
  forall ss, ss ∈ rs_Sides (root_status ex_cfg (fun _ => "broken") root1) -> exists sr, hr_sides root1 !! ss_Side ss = Some sr /\
    (ss_Pending ss = 0 -> ss_Refused ss = [] -> forall p, opFor ex_cfg root1 sr p = None).
Proof.
  destruct (status_tells ex_cfg (fun _ => "broken") (Some "full") ex_hub root1) as (_ & _ & _ & Hs & _ & Hr); [apply list_elem_of_singleton; reflexivity|exact root1_Inv|exact root1_Accounted|].
  split; [vm_compute; reflexivity|]. split; [apply Hr; split; [discriminate|left; reflexivity]|].
  intros ss Hin. destruct (Hs ss Hin) as (sr & H1 & _ & H2). exists sr. split; [exact H1|exact H2].
Defined.
