(* ===== verification/HubFindings.v ===== *)
(** * Runs of the hub that go against its comments

    Sequences of the hub's operations, evaluated, that end where the comments
    of the code say they do not. *)

From S2P Require Import Prelude GoStrings Sha256 Entry SyncPolicy Mergers Journal Examples HubState HubCommit HubInvariants HubProcess HubAnswers HubDispatch HubDelivery HubApi HubDurable HubExamples.
Local Open Scope string_scope.
Local Open Scope Z_scope.
Local Open Scope list_scope.

(** Steps of a run over one root: a side reports a change, and a side is sent
    what is due to it; [answered] is when its answer to a batch comes in. *)
Definition says (data : string) (now : Z) (root : hubRoot) (side : SideInfo) (c : Change) : hubRoot :=
  (process ex_cfg (fun _ => ex_env data now) (fun _ r => r) [] root side c false).2.

Definition sent (now : Z) (root : hubRoot) (id : string) : list Batch * hubRoot :=
  let '(batches, _, root) := collect ex_cfg root id now true in (batches, root).

Definition answered (now : Z) (root : hubRoot) (id : string) (batches : list Batch) : hubRoot :=
  foldl (fun root b => finish ex_cfg root id now b (Ok (all_applied b))) root batches.

Definition delivered (now : Z) (root : hubRoot) (id : string) : hubRoot :=
  let '(batches, root) := sent now root id in answered now root id batches.

Definition gone : Entry := entry_of Gone 0.

(** Side a deletes a file both sides have. Side b applies the delete, makes the
    file anew and reports it; the hub takes the report, and only then b's
    answer to the batch. Later side a deletes the new file too. *)
Definition recreated : hubRoot :=
  let root := delivered 60 root1 "b" in
  let root := says "" 70 root side_a (MkChange "d/f" 2 gone) in
  let '(batches, root) := sent 71 root "b" in
  let root := says "again" 72 root side_b (MkChange "d/f" 3 (file_of "again" 72)) in
  answered 73 root "b" batches.

Definition deleted_again : hubRoot :=
  let root := delivered 80 recreated "a" in
  says "" 81 root side_a (MkChange "d/f" 4 gone).

Definition state_at (root : hubRoot) (p : string) : option (Kind * Z) :=
  (fun e => (ekind (he_entry e), he_rev e)) <$> hr_entries root !! MkKey "" p.

Definition held_by (root : hubRoot) (id p : string) : option Z :=
  match hr_sides root !! id with Some sr => sr_held sr !! p | None => None end.

Definition owed_to (root : hubRoot) (id p : string) : option Z :=
  match hr_sides root !! id with Some sr => o_rev <$> opFor ex_cfg root sr p | None => None end.

(** The answer to a delete makes the hub forget a newer copy of the side: the
    delete was applied and the file made anew and accepted before the answer
    came in, the hub then records the side as holding nothing, and a later
    delete of the file is never sent to it, a side that has the file. *)
Theorem finish_forgets_recreated_file :
  state_at recreated "d/f" = Some (File, 4) /\ held_by recreated "b" "d/f" = None /\
  state_at deleted_again "d/f" = Some (Gone, 5) /\ owed_to deleted_again "b" "d/f" = None.
Proof. split_and!; vm_compute; reflexivity. Qed.

(** A file said to be of 2^63-1 bytes. *)
Definition huge_file : Entry := MkEntry File 420 (2 ^ 63 - 1) 9 (hashOf "") "" [].
Definition crowded : hubRoot := says "" 60 root1 side_b (MkChange "big" 0 huge_file).

(** The cap check adds in int64: a file said to be of 2^63-1 bytes is
    accepted by a root that holds anything, whatever its cap, where one of
    1020 bytes is not. *)
Theorem overCap_wraps_around :
  hr_total root1 = 5 /\ hr_cap root1 = 1024 /\ overCap root1 1020 None = true /\
  state_at crowded "big" = Some (File, 3) /\ hr_total crowded < 0.
Proof. split_and!; vm_compute; reflexivity. Qed.

(** A folder whose report gives it a size. *)
Definition heavy_dir : Change := MkChange "e" 0 (MkEntry Dir 493 (- 2 ^ 40) 0 "" "" []).
Definition light : hubRoot := says "" 60 root1 side_b heavy_dir.

(** The size a folder's report carries is counted: a folder reported with a
    negative size is accepted, and makes the total negative, so that files
    above the cap go through. *)
Theorem folder_size_bypasses_cap :
  state_at light "e" = Some (Dir, 3) /\ hr_total light = 5 - 2 ^ 40 /\ overCap light (2 ^ 39) None = false.
Proof. split_and!; vm_compute; reflexivity. Qed.

(** A hub that lost its newest state (it is at rev 2), and a side that holds two
    paths at revs the hub has not given: 9 and 5. *)
Definition regressed (held : list Held) : hubRoot * list Held :=
  attach_root ex_cfg 60 root1 side_b (MkRootHello "data" "e1" held).

Definition held_g : Held := MkHeld "d/g" 9 (file_of "g" 1).
Definition held_f : Held := MkHeld "d/f" 5 (file_of "newer" 20).

(** How a side's paths at revs the hub never gave are taken depends on their
    order: each is to be taken as a change the hub has not seen, but a path
    after one with a higher rev is trusted instead, and its content at the side
    is owed an overwrite with the hub's older one. *)
Theorem attach_regress_depends_on_order :
  map held_path (regressed [held_f; held_g]).2 = ["d/f"; "d/g"] /\
  map held_path (regressed [held_g; held_f]).2 = ["d/g"] /\
  held_by (regressed [held_g; held_f]).1 "b" "d/f" = Some 5 /\
  owed_to (regressed [held_g; held_f]).1 "b" "d/f" = Some 2.
Proof. split_and!; vm_compute; reflexivity. Qed.
