(* ===== verification/GoTime.v ===== *)
(** * Instants as text

    What the code uses of Go's time formatting: the UTC calendar of an instant
    (nanoseconds since the Unix epoch), RFC 3339 and the compact form of file
    names; and that text in the compact form sorts as the instants do. *)

From S2P Require Import Prelude GoStrings GoText Entry.
Local Open Scope string_scope.
Local Open Scope Z_scope.

(** ** The calendar *)

Definition second_ns : Z := 10 ^ 9.

(** Days from 0001-01-01 to the first day of year [y]. *)
Definition days_before_year (y : Z) : Z := 365 * (y - 1) + (y - 1) / 4 - (y - 1) / 100 + (y - 1) / 400.

(** The year of a day counted from 0001-01-01: near a 400th of its cycles, then corrected. *)
Definition year_of (d : Z) : Z :=
  let y := d * 400 / 146097 + 1 in
  if d <? days_before_year y then y - 1 else if days_before_year (y + 1) <=? d then y + 1 else y.

Definition leap (y : Z) : bool := (y mod 4 =? 0) && (negb (y mod 100 =? 0) || (y mod 400 =? 0)).

Definition month_lengths (y : Z) : list Z := [31; if leap y then 29 else 28; 31; 30; 31; 30; 31; 31; 30; 31; 30; 31].

(** The month and day of the [d]th day of the months from [m] on. *)
Fixpoint month_day (lens : list Z) (m d : Z) : Z * Z :=
  match lens with
  | [] => (m, d + 1)
  | len :: rest => if d <? len then (m, d + 1) else month_day rest (m + 1) (d - len)
  end.

Record civil := MkCivil { cv_year : Z; cv_month : Z; cv_day : Z; cv_hour : Z; cv_min : Z; cv_sec : Z }.

Definition utc (ns : Z) : civil :=
  let secs := ns / second_ns in
  let d := secs / 86400 + days_before_year 1970 in
  let s := secs mod 86400 in
  let y := year_of d in
  let '(m, day) := month_day (month_lengths y) 1 (d - days_before_year y) in
  MkCivil y m day (s / 3600) (s / 60 mod 60) (s mod 60).

(** ** Text *)

Fixpoint zeros (n : nat) : string := match n with O => "" | S n => String "0"%char (zeros n) end.

(** A number that is not negative, padded with zeros to a width. *)
Definition pad (w : nat) (z : Z) : string := zeros (w - String.length (Itoa z)) +:+ Itoa z.

Definition RFC3339 (ns : Z) : string :=
  let c := utc ns in
  pad 4 (cv_year c) +:+ "-" +:+ pad 2 (cv_month c) +:+ "-" +:+ pad 2 (cv_day c) +:+ "T" +:+
  pad 2 (cv_hour c) +:+ ":" +:+ pad 2 (cv_min c) +:+ ":" +:+ pad 2 (cv_sec c) +:+ "Z".

(** The layout 20060102T150405Z. *)
Definition stamp (ns : Z) : string :=
  let c := utc ns in
  pad 4 (cv_year c) +:+ pad 2 (cv_month c) +:+ pad 2 (cv_day c) +:+ "T" +:+ pad 2 (cv_hour c) +:+ pad 2 (cv_min c) +:+ pad 2 (cv_sec c) +:+ "Z".

Example stamp_leap_day : stamp (1709208000 * second_ns) = "20240229T120000Z".
Proof. vm_compute. reflexivity. Qed.
Example rfc_new_year : RFC3339 (1735689599 * second_ns + 5) = "2024-12-31T23:59:59Z".
Proof. vm_compute. reflexivity. Qed.

(** ** Padded numbers sort by value *)

Lemma digits_zeros n s : digits_value (zeros n +:+ s) 0 = digits_value s 0.
Proof. induction n as [|n IH]; [done|]. exact IH. Qed.

Lemma zeros_digits n s : all_digits s = true -> all_digits (zeros n +:+ s) = true.
Proof. intros Hs. by induction n. Qed.

Lemma length_zeros n : String.length (zeros n) = n.
Proof. induction n; simpl; congruence. Qed.

Lemma length_pretty w : forall n s, (n < 10 ^ N.of_nat w)%N -> (String.length (pretty_N_go n s) <= w + String.length s)%nat.
Proof.
  induction w as [|w IH]; intros n s Hn.
  - assert (n = 0%N) as -> by (simpl in Hn; lia). by rewrite pretty_N_go_0.
  - destruct (base.decide (0 < n)%N) as [H0|H0]; [|assert (n = 0%N) as -> by lia; rewrite pretty_N_go_0; lia].
    rewrite pretty_N_go_step by done. etrans; [apply IH|simpl; lia]. apply N.Div0.div_lt_upper_bound. by rewrite Nat2N.inj_succ, N.pow_succ_r' in Hn.
Qed.

Lemma length_Itoa w z : (0 < w)%nat -> 0 <= z < 10 ^ Z.of_nat w -> (String.length (Itoa z) <= w)%nat.
Proof.
  intros Hw [H0 Hz]. destruct z as [|p|p]; [simpl; lia| |lia]. pose proof (length_pretty w (N.pos p) "") as H. simpl in H. rewrite Nat.add_0_r in H. apply H.
  apply N2Z.inj_lt. rewrite N2Z.inj_pow, nat_N_Z. done.
Qed.

Lemma length_pad w z : (0 < w)%nat -> 0 <= z < 10 ^ Z.of_nat w -> String.length (pad w z) = w.
Proof. intros Hw Hz. unfold pad. rewrite length_append_s, length_zeros. pose proof (length_Itoa w z Hw Hz). lia. Qed.

Lemma pad_digits w z : 0 <= z -> all_digits (pad w z) = true.
Proof. intros Hz. by apply zeros_digits, Itoa_digits. Qed.

Lemma pad_value w z : 0 <= z -> digits_value (pad w z) 0 = Some z.
Proof.
  intros Hz. unfold pad. rewrite digits_zeros. destruct (Itoa_first z Hz) as (d & r & E & _ & Hu). unfold unsigned_value in Hu. rewrite E in Hu |- *. done.
Qed.

Lemma digit_bounds a : is_digit a = true -> 0 <= code a - 48 <= 9.
Proof. unfold is_digit. intros [?%Z.leb_le ?%Z.leb_le]%andb_true_iff. lia. Qed.

Lemma digits_below a : forall b x y va vb, String.length a = String.length b -> digits_value a x = Some va -> digits_value b y = Some vb -> x < y -> va < vb.
Proof.
  induction a as [|c a IH]; intros [|c' b] x y va vb Hl Ha Hb Hxy; simpl in *; try done; [by simplify_eq|].
  destruct (is_digit c) eqn:E, (is_digit c') eqn:E'; try done. apply digit_bounds in E, E'. eapply IH; [injection Hl as Hl; exact Hl|exact Ha|exact Hb|lia].
Qed.

Lemma Compare_digits a : forall b x va vb, String.length a = String.length b -> digits_value a x = Some va -> digits_value b x = Some vb -> Compare a b = (va ?= vb).
Proof.
  induction a as [|c a IH]; intros [|c' b] x va vb Hl Ha Hb; simpl in *; try done; [simplify_eq; by rewrite Z.compare_refl|].
  destruct (is_digit c) eqn:E, (is_digit c') eqn:E'; try done. injection Hl as Hl. destruct (Z.compare_spec (code c) (code c')) as [Ec|Hlt|Hgt].
  - rewrite Ec in Ha. by eapply IH.
  - symmetry. apply Z.compare_lt_iff. eapply (digits_below a b); [done|exact Ha|exact Hb|lia].
  - symmetry. apply Z.compare_gt_iff. eapply (digits_below b a); [done|exact Hb|exact Ha|lia].
Qed.

Lemma Compare_pad w a b : (0 < w)%nat -> 0 <= a < 10 ^ Z.of_nat w -> 0 <= b < 10 ^ Z.of_nat w -> Compare (pad w a) (pad w b) = (a ?= b).
Proof. intros Hw Ha Hb. eapply Compare_digits; [by rewrite !length_pad|apply pad_value; lia|apply pad_value; lia]. Qed.

Lemma pad_inj w a b : 0 <= a -> 0 <= b -> pad w a = pad w b -> a = b.
Proof. intros Ha Hb E. apply (f_equal (fun s => digits_value s 0)) in E. rewrite !pad_value in E by done. by injection E. Qed.

Definition then_cmp (c d : comparison) : comparison := match c with Eq => d | _ => c end.

Lemma Compare_app a : forall a' b b', String.length a = String.length a' -> Compare (a +:+ b) (a' +:+ b') = then_cmp (Compare a a') (Compare b b').
Proof.
  induction a as [|x a IH]; intros [|x' a'] b b' Hl; try done. simpl. injection Hl as Hl. destruct (code x ?= code x'); [by apply IH|done|done].
Qed.

(** ** The calendar keeps the order of instants *)

Ltac euclid := Z.to_euclidean_division_equations; lia.

Lemma year_mono y y' : y < y' -> days_before_year y + 365 <= days_before_year y'.
Proof. unfold days_before_year. intros H. euclid. Qed.

Lemma year_of_spec d : 0 <= d -> days_before_year (year_of d) <= d < days_before_year (year_of d + 1).
Proof.
  intros Hd. unfold year_of. cbv zeta. set (y := d * 400 / 146097 + 1).
  assert (days_before_year (y - 1) <= d < days_before_year (y + 2)) as [H1 H2] by (unfold y, days_before_year; euclid).
  destruct (Z.ltb_spec d (days_before_year y)); [replace (y - 1 + 1) with y by lia; lia|]. destruct (Z.leb_spec (days_before_year (y + 1)) d); [|lia].
  replace (y + 1 + 1) with (y + 2) by lia. lia.
Qed.

Definition total (lens : list Z) : Z := foldr Z.add 0 lens.

Lemma leap_iff y : leap y = true <-> y mod 4 = 0 /\ (y mod 100 <> 0 \/ y mod 400 = 0).
Proof. unfold leap. rewrite andb_true_iff, orb_true_iff, negb_true_iff, !Z.eqb_eq, Z.eqb_neq. tauto. Qed.

Lemma year_length y : total (month_lengths y) = days_before_year (y + 1) - days_before_year y.
Proof.
  assert (total (month_lengths y) = 365 + (if leap y then 1 else 0)) as -> by (unfold month_lengths, total; cbn [foldr]; destruct (leap y); lia).
  unfold days_before_year. replace (y + 1 - 1) with y by lia. pose proof (leap_iff y) as H. destruct (leap y).
  - destruct H as [H _]. specialize (H eq_refl). euclid.
  - assert (~ (y mod 4 = 0 /\ (y mod 100 <> 0 \/ y mod 400 = 0))) as Hn by (intros ?; by destruct H as [_ H]; specialize (H H0)). euclid.
Qed.

Lemma month_day_bounds lens : Forall (fun len => 0 < len <= 31) lens -> forall m d, 0 <= d < total lens ->
  m <= fst (month_day lens m d) < m + Z.of_nat (length lens) /\ 1 <= snd (month_day lens m d) <= 31.
Proof.
  induction 1 as [|len lens Hl _ IH]; intros m d Hd; [unfold total in Hd; simpl in Hd; lia|]. change (total (len :: lens)) with (len + total lens) in Hd. cbn [month_day]. destruct (Z.ltb_spec d len); [simpl; lia|].
  destruct (IH (m + 1) (d - len)) as [H1 H2]; [lia|]. cbn [length]. lia.
Qed.

Lemma month_day_lt lens : forall m d d', 0 <= d < d' ->
  fst (month_day lens m d) < fst (month_day lens m d') \/
  fst (month_day lens m d) = fst (month_day lens m d') /\ snd (month_day lens m d) < snd (month_day lens m d').
Proof.
  assert (forall lens m d, m <= fst (month_day lens m d)) as Hge.
  { clear. induction lens as [|len lens IH]; intros m d; simpl; [lia|]. destruct (_ <? _); simpl; [lia|]. specialize (IH (m + 1) (d - len)). lia. }
  induction lens as [|len lens IH]; intros m d d' Hd; cbn [month_day]; [simpl; lia|]. destruct (Z.ltb_spec d len) as [H1|H1], (Z.ltb_spec d' len) as [H2|H2]; simpl.
  - right. lia.
  - left. specialize (Hge lens (m + 1) (d' - len)). lia.
  - lia.
  - apply IH. lia.
Qed.

Lemma month_lengths_ok y : Forall (fun len => 0 < len <= 31) (month_lengths y).
Proof. unfold month_lengths. repeat constructor; try lia; destruct (leap y); lia. Qed.

(** The instants whose year has four digits. *)
Definition in_years (ns : Z) : Prop := 0 <= ns / second_ns / 86400 + days_before_year 1970 /\ cv_year (utc ns) <= 9999.

Record civil_ok (c : civil) : Prop := {
  co_year : 0 <= cv_year c < 10 ^ 4;
  co_month : 0 <= cv_month c < 10 ^ 2;
  co_day : 0 <= cv_day c < 10 ^ 2;
  co_hour : 0 <= cv_hour c < 10 ^ 2;
  co_min : 0 <= cv_min c < 10 ^ 2;
  co_sec : 0 <= cv_sec c < 10 ^ 2
}.

Lemma utc_eq ns : let d := ns / second_ns / 86400 + days_before_year 1970 in let s := (ns / second_ns) mod 86400 in
  let md := month_day (month_lengths (year_of d)) 1 (d - days_before_year (year_of d)) in
  utc ns = MkCivil (year_of d) (fst md) (snd md) (s / 3600) (s / 60 mod 60) (s mod 60).
Proof. cbv zeta. unfold utc. cbv zeta. by destruct (month_day _ _ _). Qed.

Lemma utc_ok ns : in_years ns -> civil_ok (utc ns).
Proof.
  intros [Hd Hy]. rewrite utc_eq in *. cbn [cv_year] in Hy. set (d := ns / second_ns / 86400 + days_before_year 1970) in *.
  pose proof (year_of_spec d Hd) as Hys. pose proof (year_length (year_of d)) as Hyl.
  destruct (month_day_bounds _ (month_lengths_ok (year_of d)) 1 (d - days_before_year (year_of d))) as [Hm Hday]; [lia|]. cbn [length month_lengths] in Hm.
  assert (1 <= year_of d) by (unfold days_before_year in Hys; euclid).
  pose proof (Z.mod_pos_bound (ns / second_ns) 86400 ltac:(lia)). split; cbn [cv_year cv_month cv_day cv_hour cv_min cv_sec]; [lia|lia|lia|euclid|euclid|euclid].
Qed.

Definition civil_cmp (a b : civil) : comparison :=
  then_cmp (cv_year a ?= cv_year b) (then_cmp (cv_month a ?= cv_month b) (then_cmp (cv_day a ?= cv_day b)
    (then_cmp (cv_hour a ?= cv_hour b) (then_cmp (cv_min a ?= cv_min b) (cv_sec a ?= cv_sec b))))).

Lemma then_lt a b c : a < b \/ a = b /\ c = Lt -> then_cmp (a ?= b) c = Lt.
Proof. intros [H|[-> ->]]; [by rewrite (proj2 (Z.compare_lt_iff _ _) H)|by rewrite Z.compare_refl]. Qed.

Lemma utc_order ns ns' : 0 <= ns / second_ns / 86400 + days_before_year 1970 -> ns / second_ns < ns' / second_ns -> civil_cmp (utc ns) (utc ns') = Lt.
Proof.
  intros Hd Hlt. rewrite !utc_eq. unfold civil_cmp. cbn [cv_year cv_month cv_day cv_hour cv_min cv_sec].
  set (s := ns / second_ns) in *. set (s' := ns' / second_ns) in *. set (d := s / 86400 + days_before_year 1970) in *. set (d' := s' / 86400 + days_before_year 1970).
  assert (d <= d') as Hdd by (unfold d, d'; euclid). pose proof (year_of_spec d Hd) as Hy. pose proof (year_of_spec d' ltac:(lia)) as Hy'.
  assert (year_of d <= year_of d') as Hyy.
  { destruct (Z.le_gt_cases (year_of d) (year_of d')) as [|Hg]; [done|]. assert (year_of d' + 1 <= year_of d) as Hle by lia. exfalso.
    destruct (Z.eq_dec (year_of d' + 1) (year_of d)) as [E|Hne]; [rewrite E in Hy'; lia|]. pose proof (year_mono (year_of d' + 1) (year_of d) ltac:(lia)). lia. }
  apply then_lt. destruct (Z.eq_dec (year_of d) (year_of d')) as [Ey|Hne]; [right|left; lia]. split; [done|]. rewrite <- Ey in *.
  destruct (Z.eq_dec d d') as [Ed|Hned].
  - rewrite <- Ed. apply then_lt. right. split; [done|]. apply then_lt. right. split; [done|]. assert (s mod 86400 < s' mod 86400) as Hs by (unfold d, d' in Ed; euclid).
    pose proof (Z.mod_pos_bound s 86400 ltac:(lia)). pose proof (Z.mod_pos_bound s' 86400 ltac:(lia)). generalize dependent (s mod 86400). generalize dependent (s' mod 86400). intros b Hb a Hab Ha.
    apply then_lt. destruct (Z.eq_dec (a / 3600) (b / 3600)) as [E|?]; [right; split; [done|]|left; euclid].
    apply then_lt. destruct (Z.eq_dec (a / 60 mod 60) (b / 60 mod 60)) as [E'|?]; [right; split; [done|]|left; euclid]. apply Z.compare_lt_iff. euclid.
  - destruct (month_day_lt (month_lengths (year_of d)) 1 (d - days_before_year (year_of d)) (d' - days_before_year (year_of d)) ltac:(lia)) as [H|[H1 H2]]; apply then_lt; [by left|].
    right. split; [done|]. apply then_lt. by left.
Qed.

Lemma length_stamp ns : in_years ns -> String.length (stamp ns) = 16%nat.
Proof.
  intros H%utc_ok. destruct H. unfold stamp. cbv zeta. rewrite !length_append_s, !length_pad by (done || lia). done.
Qed.

(** Stamps of different seconds sort as the seconds do. *)
Lemma stamp_order ns ns' : in_years ns -> in_years ns' -> ns / second_ns < ns' / second_ns -> Compare (stamp ns) (stamp ns') = Lt.
Proof.
  intros H H' Hlt. pose proof (utc_order ns ns' (proj1 H) Hlt) as Hc. apply utc_ok in H, H'. destruct H, H'. unfold stamp. cbv zeta.
  rewrite !Compare_app by (rewrite ?length_pad by (done || lia); done). rewrite !Compare_pad by (done || lia).
  unfold civil_cmp in Hc. change (Compare "T" "T") with Eq. change (Compare "Z" "Z") with Eq. cbn [then_cmp].
  destruct (cv_year (utc ns) ?= _); [|done|done]. cbn [then_cmp] in *. destruct (cv_month (utc ns) ?= _); [|done|done]. cbn [then_cmp] in *.
  destruct (cv_day (utc ns) ?= _); [|done|done]. cbn [then_cmp] in *. destruct (cv_hour (utc ns) ?= _); [|done|done]. cbn [then_cmp] in *.
  destruct (cv_min (utc ns) ?= _); [|done|done]. cbn [then_cmp] in *. by rewrite Hc.
Qed.
