(* ===== verification/Cron.v ===== *)
(** * Cron schedules (internal/fleet/cron.go)

    The five-field cron expressions of schedule and bash triggers: parsing, the
    minutes a schedule fires in, and that a written expression fires when its
    fields say. Go's int is 64 bits wide: the stepping loop wraps. *)

From S2P Require Import Prelude GoStrings GoText.
Local Open Scope string_scope.
Local Open Scope Z_scope.
Local Open Scope list_scope.

(** A parsed field: the values it matches; [*] matches every value. *)
Record cronField := MkField { cf_star : bool; cf_vals : gset Z }.

Definition field_matches (f : cronField) (v : Z) : bool :=
  if cf_star f then true else bool_decide (v ∈ cf_vals f).

Record CronSchedule := MkCron {
  cr_minute : cronField;
  cr_hour : cronField;
  cr_dom : cronField;
  cr_month : cronField;
  cr_dow : cronField
}.

Inductive cron_error :=
| FieldCount (n : nat)
| EmptyField
| EmptyElement
| NoValues
| InvalidStep (s : string)
| InvalidNumber (s : string)
| OutOfRange (v : Z)
| Descending
| Endless.  (* the loop's fuel ran out; [parseCronPart_ends]: never *)

Definition cronAtoi (s : string) (min max : Z) : result cron_error Z :=
  match Atoi (TrimSpace s) with
  | None => Err (InvalidNumber s)
  | Some v => if (v <? min) || (max <? v) then Err (OutOfRange v) else Ok v
  end.

(** The loop [for v := low; v <= high; v += step]. *)
Fixpoint step_from (fuel : nat) (v high step : Z) (vals : gset Z) : option (gset Z) :=
  match fuel with
  | O => None
  | S f => if v <=? high then step_from f (wrap64 (v + step)) high step ({[v]} ∪ vals) else Some vals
  end.

Definition step_fuel : nat := 512.

(** The bounds a range specification gives with a step. *)
Definition cron_range (spec : string) (step min max : Z) : result cron_error (Z * Z) :=
  if String.eqb spec "*" then Ok (min, max)
  else match cut_byte "-"%char spec with
       | Some (a, b) =>
           let? l := cronAtoi a min max in
           let? h := cronAtoi b min max in
           if h <? l then Err Descending else Ok (l, h)
       | None =>
           let? v := cronAtoi spec min max in
           Ok (v, if negb (step =? 1) then max else v)
       end.

Definition parseCronPart (part : string) (min max : Z) (vals : gset Z) : result cron_error (gset Z) :=
  if String.eqb part "" then Err EmptyElement
  else
    let? sp := match cut_byte slash part with
               | Some (spec, stepStr) =>
                   match Atoi stepStr with
                   | Some s => if s <=? 0 then Err (InvalidStep stepStr) else Ok (spec, s)
                   | None => Err (InvalidStep stepStr)
                   end
               | None => Ok (part, 1)
               end in
    let? lh := cron_range sp.1 sp.2 min max in
    match step_from step_fuel lh.1 lh.2 sp.2 vals with
    | Some vals => Ok vals
    | None => Err Endless
    end.

Fixpoint parse_parts (parts : list string) (min max : Z) (vals : gset Z) : result cron_error (gset Z) :=
  match parts with
  | [] => Ok vals
  | p :: rest => let? vals := parseCronPart (TrimSpace p) min max vals in parse_parts rest min max vals
  end.

(** The day-of-week field, the one whose maximum is 7: Sunday is 0 too. *)
Definition fold_sunday (max : Z) (vals : gset Z) : gset Z :=
  if max =? 7 then (if bool_decide (7 ∈ vals) then {[0]} ∪ vals else vals) ∖ {[7]} else vals.

Definition parseCronField (field : string) (min max : Z) : result cron_error cronField :=
  let field := TrimSpace field in
  if String.eqb field "" then Err EmptyField
  else if String.eqb field "*" then Ok (MkField true ∅)
  else
    let? vals := parse_parts (split_byte ","%char field) min max ∅ in
    if bool_decide (vals = ∅) then Err NoValues
    else Ok (MkField false (fold_sunday max vals)).

Definition ParseCron (spec : string) : result cron_error CronSchedule :=
  match Fields spec with
  | [f0; f1; f2; f3; f4] =>
      let? minute := parseCronField f0 0 59 in
      let? hour := parseCronField f1 0 23 in
      let? dom := parseCronField f2 1 31 in
      let? month := parseCronField f3 1 12 in
      let? dow := parseCronField f4 0 7 in
      Ok (MkCron minute hour dom month dow)
  | fs => Err (FieldCount (length fs))
  end.

(** What of a time.Time a schedule looks at. *)
Record clock := MkClock { ck_minute : Z; ck_hour : Z; ck_day : Z; ck_month : Z; ck_weekday : Z }.

Definition Cron_Matches (s : CronSchedule) (t : clock) : bool :=
  if negb (field_matches (cr_minute s) (ck_minute t)) || negb (field_matches (cr_hour s) (ck_hour t))
     || negb (field_matches (cr_month s) (ck_month t))
  then false
  else
    let domMatch := field_matches (cr_dom s) (ck_day t) in
    let dowMatch := field_matches (cr_dow s) (ck_weekday t) in
    if negb (cf_star (cr_dom s)) && negb (cf_star (cr_dow s)) then domMatch || dowMatch else domMatch && dowMatch.

Definition ValidateCron (spec : string) : option cron_error :=
  match ParseCron spec with Ok _ => None | Err e => Some e end.

(** ** The loop *)

(** Without wrapping, the loop collects the steps from [v] up to [high]. *)
Lemma step_from_spec fuel v high step vals :
  0 < step -> 0 <= v -> high < 2 ^ 62 -> step < 2 ^ 62 -> (Z.to_nat (high - v + 1) < fuel)%nat -> v < 2 ^ 62 + 2 ^ 62 ->
  exists out, step_from fuel v high step vals = Some out /\
    forall x, x ∈ out <-> x ∈ vals \/ (v <= x <= high /\ (x - v) mod step = 0).
Proof.
  intros Hs Hv Hh Hst. revert v vals Hv. induction fuel as [|fuel IH]; intros v vals Hv Hf Hv2; [lia|]. simpl.
  destruct (v <=? high) eqn:E; bool_hyps.
  - rewrite wrap64_small by lia. destruct (IH (v + step) ({[v]} ∪ vals)) as (out & -> & Hout); [lia..|].
    exists out. split; [done|]. intros x. rewrite Hout, elem_of_union, elem_of_singleton.
    assert ((x - (v + step)) mod step = (x - v) mod step) as ->.
    { replace (x - (v + step)) with (x - v + (-1) * step) by lia. apply Z_mod_plus_full. }
    split.
    + intros [[->|Hx]|[Hx Hm]]; [right|by left|right]; [|split; [lia|done]]. split; [lia|]. by rewrite Z.sub_diag.
    + intros [Hx|[Hx Hm]]; [by left; right|].
      destruct (base.decide (x = v)) as [->|Hne]; [by left; left|]. right. split; [|done].
      assert (step <= x - v); [|lia]. destruct (Z.lt_ge_cases (x - v) step) as [Hlt|]; [|done].
      rewrite Z.mod_small in Hm by lia. lia.
  - exists vals. split; [done|]. intros x. split; [by left|]. intros [?|[? _]]; [done|lia].
Qed.

Lemma step_from_past fuel v high step vals : high < v -> (0 < fuel)%nat -> is_Some (step_from fuel v high step vals).
Proof. intros Hv Hf. destruct fuel as [|fuel]; [lia|]. simpl. rewrite (proj2 (Z.leb_gt _ _)) by done. done. Qed.

Lemma step_from_next fuel v high step vals :
  v <= high -> step_from (S fuel) v high step vals = step_from fuel (wrap64 (v + step)) high step ({[v]} ∪ vals).
Proof. intros Hv. simpl. by rewrite (proj2 (Z.leb_le _ _)). Qed.

Lemma wrap64_above z : 2 ^ 63 <= z < 2 ^ 64 -> wrap64 z = z - 2 ^ 64.
Proof. intros Hz. unfold wrap64. replace (z + 2 ^ 63) with (z - 2 ^ 63 + 1 * 2 ^ 64) by lia.
  rewrite Z_mod_plus_full, Z.mod_small by lia. lia. Qed.

(** A step so large that it wraps goes down by twice its distance to 2^63, and
    past the top from below 0. *)
Lemma step_from_wraps step high fuel v vals :
  2 ^ 63 - 64 <= step < 2 ^ 63 -> 0 <= high < 64 -> v <= high -> -128 <= v -> (2 * Z.to_nat (v + 128) + 2 < fuel)%nat ->
  is_Some (step_from fuel v high step vals).
Proof.
  intros Hs Hh. revert v vals. induction fuel as [fuel IH] using lt_wf_ind. intros v vals Hv Hlo Hf.
  destruct fuel as [|fuel]; [lia|]. rewrite step_from_next by done.
  destruct (Z.lt_ge_cases (v + step) (2 ^ 63)) as [Hlt|Hge].
  - rewrite wrap64_small by lia. apply step_from_past; lia.
  - rewrite wrap64_above by lia. destruct fuel as [|fuel]; [lia|]. rewrite step_from_next by lia.
    rewrite wrap64_small by lia. apply IH; lia.
Qed.

Lemma step_from_ends low high step vals :
  0 < step < 2 ^ 63 -> 0 <= low -> 0 <= high < 64 -> is_Some (step_from step_fuel low high step vals).
Proof.
  intros Hs Hl Hh. destruct (Z.lt_ge_cases high low) as [Hgt|Hle]; [apply step_from_past; [done|unfold step_fuel; lia]|].
  destruct (Z.lt_ge_cases step (2 ^ 62)) as [Hsmall|Hbig].
  { destruct (step_from_spec step_fuel low high step vals) as (out & -> & _); [lia..|unfold step_fuel; lia|lia|done]. }
  destruct (Z.lt_ge_cases step (2 ^ 63 - 64)) as [Hmid|Hlarge].
  - unfold step_fuel. rewrite step_from_next by done. rewrite wrap64_small by lia. apply step_from_past; lia.
  - apply step_from_wraps; unfold step_fuel; lia.
Qed.

#[local] Arguments step_from : simpl never.

(** ** Parsing ends *)

Lemma rbind_err {E A B} (r : result E A) (f : A -> result E B) e :
  rbind r f = Err e -> r = Err e \/ exists a, r = Ok a /\ f a = Err e.
Proof. destruct r; simpl; [eauto|intros [= ->]; auto]. Qed.

Lemma cronAtoi_range s min max v : cronAtoi s min max = Ok v -> min <= v <= max.
Proof. unfold cronAtoi. destruct (Atoi _); [|done]. destruct (_ || _) eqn:E; [done|]. intros [= ->]. bool_hyps. lia. Qed.

Lemma cronAtoi_err s min max e : cronAtoi s min max = Err e -> e <> Endless.
Proof. unfold cronAtoi. destruct (Atoi _); [|by intros [= <-]]. destruct (_ || _); [by intros [= <-]|done]. Qed.

Lemma cron_range_spec spec step min max :
  0 <= min <= max -> max < 64 ->
  match cron_range spec step min max with
  | Ok (l, h) => 0 <= l /\ 0 <= h < 64
  | Err e => e <> Endless
  end.
Proof.
  intros Hm HM. unfold cron_range. destruct (String.eqb spec "*"); [lia|]. destruct (cut_byte _ _) as [[a b]|].
  - destruct (cronAtoi a min max) as [l|e] eqn:Ea; simpl; [|by apply cronAtoi_err in Ea].
    destruct (cronAtoi b min max) as [h|e] eqn:Eb; simpl; [|by apply cronAtoi_err in Eb].
    apply cronAtoi_range in Ea, Eb. destruct (h <? l); [done|lia].
  - destruct (cronAtoi spec min max) as [v|e] eqn:Ev; simpl; [|by apply cronAtoi_err in Ev].
    apply cronAtoi_range in Ev. destruct (negb _); lia.
Qed.

Lemma Atoi_range s n : Atoi s = Some n -> - 2 ^ 63 <= n < 2 ^ 63.
Proof.
  unfold Atoi. set (v := match s with "" => None | String _ _ => _ end). destruct v as [m|]; [|done].
  destruct (_ && _) eqn:E; [|done]. intros [= ->]. bool_hyps. lia.
Qed.

Lemma parseCronPart_ends part min max vals :
  0 <= min <= max -> max < 64 -> parseCronPart part min max vals <> Err Endless.
Proof.
  intros Hm HM. unfold parseCronPart. destruct (String.eqb part ""); [done|].
  destruct (match cut_byte slash part with Some _ => _ | None => _ end) as [[spec step]|e] eqn:Es.
  2: { simpl. intros [= ->]. revert Es. destruct (cut_byte slash part) as [[??]|]; [|done].
       destruct (Atoi _); [destruct (_ <=? 0)|]; done. }
  assert (0 < step < 2 ^ 63) as Hst.
  { revert Es. destruct (cut_byte slash part) as [[a b]|]; [|intros [= _ <-]; lia].
    destruct (Atoi b) as [n|] eqn:En; [|done]. apply Atoi_range in En.
    destruct (n <=? 0) eqn:E0; [done|]. intros [= _ <-]. bool_hyps. lia. }
  simpl. pose proof (cron_range_spec spec step min max Hm HM) as Hr.
  destruct (cron_range spec step min max) as [[l h]|e]; simpl; [|congruence].
  destruct (step_from_ends l h step vals) as [out ->]; [lia..|done].
Qed.

Lemma parse_parts_ends parts min max vals :
  0 <= min <= max -> max < 64 -> parse_parts parts min max vals <> Err Endless.
Proof.
  intros Hm HM. revert vals. induction parts as [|p parts IH]; intros vals; simpl; [done|].
  intros [H|(v & _ & H)]%rbind_err; [by apply parseCronPart_ends in H|by apply IH in H].
Qed.

Lemma parseCronField_ends field min max :
  0 <= min <= max -> max < 64 -> parseCronField field min max <> Err Endless.
Proof.
  intros Hm HM. unfold parseCronField. destruct (String.eqb _ ""); [done|]. destruct (String.eqb _ "*"); [done|].
  intros [H|(v & _ & H)]%rbind_err; [by apply parse_parts_ends in H|]. by case_bool_decide.
Qed.

(** Parsing a cron expression always ends: whatever the text, steps near the
    top of int64 that make the stepping wrap included, each field's loop stops
    within its fuel. *)
Theorem ParseCron_ends spec : ParseCron spec <> Err Endless.
Proof.
  unfold ParseCron. destruct (Fields spec) as [|f0 [|f1 [|f2 [|f3 [|f4 [|f5 fs]]]]]]; try done.
  intros [H|(? & _ & H)]%rbind_err; [by apply parseCronField_ends in H|].
  apply rbind_err in H as [H|(? & _ & H)]; [by apply parseCronField_ends in H|].
  apply rbind_err in H as [H|(? & _ & H)]; [by apply parseCronField_ends in H|].
  apply rbind_err in H as [H|(? & _ & H)]; [by apply parseCronField_ends in H|].
  apply rbind_err in H as [H|(? & _ & H)]; [by apply parseCronField_ends in H|done].
Qed.

(** ** Expressions as they are written *)

(** One list element: [*], [a] or [a-b], each with or without a step. *)
Inductive cron_span := Every | At (a : Z) | Between (a b : Z).
Record cron_part := MkPart { cp_span : cron_span; cp_step : option Z }.

Definition print_span (s : cron_span) : string :=
  match s with
  | Every => "*"
  | At a => Itoa a
  | Between a b => Itoa a +:+ "-" +:+ Itoa b
  end.

Definition print_part (p : cron_part) : string :=
  match cp_step p with
  | None => print_span (cp_span p)
  | Some s => print_span (cp_span p) +:+ "/" +:+ Itoa s
  end.

(** The values an element stands for: [a] alone is [a], and with a step it goes
    from [a] to the field's maximum. *)
Definition span_range (p : cron_part) (min max : Z) : Z * Z :=
  match cp_span p, cp_step p with
  | Every, _ => (min, max)
  | At a, None => (a, a)
  | At a, Some _ => (a, max)
  | Between a b, _ => (a, b)
  end.

Definition stands_for (p : cron_part) (min max v : Z) : Prop :=
  let '(l, h) := span_range p min max in l <= v <= h /\ (v - l) mod default 1 (cp_step p) = 0.

Definition wf_part (p : cron_part) (min max : Z) : Prop :=
  match cp_span p with
  | Every => True
  | At a => min <= a <= max /\ cp_step p <> Some 1
  | Between a b => min <= a <= b /\ b <= max
  end /\ match cp_step p with None => True | Some s => 0 < s < 2 ^ 62 end.

Lemma cronAtoi_Itoa a min max : 0 <= min -> max < 2 ^ 63 -> min <= a <= max -> cronAtoi (Itoa a) min max = Ok a.
Proof.
  intros H0 H1 Ha. unfold cronAtoi. rewrite graph_trimmed by (apply all_digits_graph, Itoa_digits; lia).
  rewrite Atoi_Itoa by lia. rewrite (proj2 (Z.ltb_ge _ _)), (proj2 (Z.ltb_ge _ _)) by lia. done.
Qed.

Lemma Itoa_free a c : 0 <= a -> is_digit c = false -> contains_byte (Itoa a) c = false.
Proof. intros Ha. apply all_digits_free, Itoa_digits, Ha. Qed.

Lemma digits_not_star s : all_digits s = true -> String.eqb s "*" = false.
Proof. intros Hs. apply String.eqb_neq. intros ->. done. Qed.

(** A span is read back with the bounds it stands for. *)
Lemma cron_range_print p min max :
  0 <= min <= max -> max < 2 ^ 62 -> wf_part p min max ->
  cron_range (print_span (cp_span p)) (default 1 (cp_step p)) min max = Ok (span_range p min max).
Proof.
  intros Hm HM [Hs Ht]. unfold cron_range, span_range. destruct (cp_span p) as [|a|a b]; unfold print_span.
  - done.
  - destruct Hs as [Ha H1]. rewrite digits_not_star by (apply Itoa_digits; lia).
    rewrite cut_byte_None by (apply Itoa_free; [lia|done]). rewrite cronAtoi_Itoa by lia. simpl.
    destruct (cp_step p) as [s|]; simpl; [|done]. destruct (s =? 1) eqn:E; [|done]. bool_hyps. congruence.
  - assert (String.eqb (Itoa a +:+ "-" +:+ Itoa b) "*" = false) as ->.
    { apply String.eqb_neq. intros E. apply (f_equal (fun s => contains_byte s "-"%char)) in E. simpl in E.
      rewrite contains_byte_app in E. simpl in E. by rewrite orb_true_r in E. }
    change ("-" +:+ Itoa b) with (String "-"%char (Itoa b)).
    rewrite cut_byte_app by (apply Itoa_free; [lia|done]). rewrite !cronAtoi_Itoa by lia. simpl.
    rewrite (proj2 (Z.ltb_ge _ _)) by lia. done.
Qed.

Lemma print_span_free s min max c :
  0 <= min -> match s with Every => True | At a => min <= a <= max | Between a b => min <= a <= b end ->
  is_digit c = false -> c <> "*"%char -> c <> "-"%char -> contains_byte (print_span s) c = false.
Proof.
  intros Hm Hs Hd H1 H2.
  assert (forall x, c <> x -> contains_byte (String x "") c = false) as Hx.
  { intros x Hne. cbn [contains_byte]. destruct (ascii_eqb x c) eqn:E; [|done]. apply ascii_eqb_eq in E. congruence. }
  destruct s as [|a|a b]; unfold print_span.
  - by apply Hx.
  - apply Itoa_free; [lia|done].
  - rewrite !contains_byte_app, !Itoa_free by (lia || done). by rewrite Hx.
Qed.

Lemma wf_part_span p min max : wf_part p min max ->
  match cp_span p with Every => True | At a => min <= a <= max | Between a b => min <= a <= b end.
Proof. intros [H _]. destruct (cp_span p); [done|lia|lia]. Qed.

Lemma print_part_nonempty p min max : 0 <= min -> wf_part p min max -> print_part p <> "".
Proof.
  intros Hm Hwf%wf_part_span E. assert (print_span (cp_span p) = "") as E'.
  { unfold print_part in E. destruct (cp_step p); [|done]. by destruct (print_span _). }
  destruct (cp_span p) as [|a|a b]; simpl in *; [done| |].
  - destruct (Itoa_first a) as (? & ? & Hi & _); [lia|]. congruence.
  - destruct (Itoa_first a) as (? & ? & Hi & _); [lia|]. by rewrite Hi in E'.
Qed.

(** An element of a field is read as what it stands for. *)
Lemma parseCronPart_print p min max vals :
  0 <= min <= max -> max < 64 -> wf_part p min max ->
  exists out, parseCronPart (print_part p) min max vals = Ok out /\
    forall v, v ∈ out <-> v ∈ vals \/ stands_for p min max v.
Proof.
  intros Hm HM Hwf. unfold parseCronPart.
  rewrite (proj2 (String.eqb_neq _ _)) by (by eapply print_part_nonempty; [|done]; lia).
  assert (match cut_byte slash (print_part p) with
          | Some (spec, stepStr) => match Atoi stepStr with
             | Some s => if s <=? 0 then Err (InvalidStep stepStr) else Ok (spec, s)
             | None => Err (InvalidStep stepStr) end
          | None => Ok (print_part p, 1) end = Ok (print_span (cp_span p), default 1 (cp_step p))) as ->.
  { pose proof (print_span_free (cp_span p) min max slash) as Hf. unfold print_part.
    pose proof (wf_part_span _ _ _ Hwf) as Hsp. destruct Hwf as [_ Ht]. destruct (cp_step p) as [s|].
    - change ("/" +:+ Itoa s) with (String slash (Itoa s)).
      rewrite cut_byte_app by (apply Hf; done || lia).
      rewrite Atoi_Itoa by lia. rewrite (proj2 (Z.leb_gt _ _)) by lia. done.
    - rewrite cut_byte_None by (apply Hf; done || lia). done. }
  simpl. rewrite cron_range_print by (done || lia). simpl.
  unfold stands_for. destruct (span_range p min max) as [l h] eqn:Er. simpl.
  assert (0 < default 1 (cp_step p) < 2 ^ 62) as Hst by (destruct Hwf as [_ Ht]; destruct (cp_step p); simpl in *; lia).
  assert (0 <= l /\ h < 64) as [Hl Hh].
  { destruct Hwf as [Hs _]. unfold span_range in Er. destruct (cp_span p), (cp_step p); injection Er as <- <-; lia. }
  destruct (step_from_spec step_fuel l h (default 1 (cp_step p)) vals) as (out & -> & Hout);
    [lia..|unfold step_fuel; lia| |]; [|by exists out].
  destruct Hwf as [Hs _]. unfold span_range in Er. destruct (cp_span p), (cp_step p); injection Er as <- <-; lia.
Qed.

(** A field: [*], or a list of elements. *)
Inductive cron_field := Star | Elems (ps : list cron_part).

Definition print_field (f : cron_field) : string :=
  match f with Star => "*" | Elems ps => Join (map print_part ps) "," end.

Definition wf_field (f : cron_field) (min max : Z) : Prop :=
  match f with
  | Star => True
  | Elems ps => ps <> [] /\ ps <> [MkPart Every None] /\ Forall (fun p => wf_part p min max) ps
  end.

(** The values a field matches; in the day-of-week field 7 is Sunday, as 0 is. *)
Definition means (f : cron_field) (min max v : Z) : Prop :=
  match f with
  | Star => True
  | Elems ps => Exists (fun p => stands_for p min max v \/ (max = 7 /\ v = 0 /\ stands_for p min max 7)) ps
  end.

Lemma parse_parts_print ps min max vals :
  0 <= min <= max -> max < 64 -> Forall (fun p => wf_part p min max) ps ->
  (forall p, wf_part p min max -> all_graph (print_part p) = true) ->
  exists out, parse_parts (map print_part ps) min max vals = Ok out /\
    forall v, v ∈ out <-> v ∈ vals \/ Exists (fun p => stands_for p min max v) ps.
Proof.
  intros Hm HM Hps Hg. revert vals. induction Hps as [|p ps Hp Hps IH]; intros vals; simpl.
  { exists vals. split; [done|]. intros v. rewrite Exists_nil. tauto. }
  rewrite graph_trimmed by auto. destruct (parseCronPart_print p min max vals Hm HM Hp) as (o1 & -> & H1). simpl.
  destruct (IH o1) as (o2 & -> & H2). exists o2. split; [done|]. intros v. rewrite H2, H1, Exists_cons. tauto.
Qed.

Lemma print_part_graph p min max : 0 <= min -> wf_part p min max -> all_graph (print_part p) = true.
Proof.
  intros Hm Hwf. pose proof (wf_part_span _ _ _ Hwf) as Hs. destruct Hwf as [_ Ht].
  assert (all_graph (print_span (cp_span p)) = true) as Hsp.
  { destruct (cp_span p); unfold print_span; [done|by apply all_digits_graph, Itoa_digits; lia|].
    rewrite !all_graph_app, !(all_digits_graph (Itoa _)) by (apply Itoa_digits; lia). done. }
  unfold print_part. destruct (cp_step p); [|done].
  rewrite !all_graph_app, Hsp, (all_digits_graph (Itoa _)) by (apply Itoa_digits; lia). done.
Qed.

Lemma print_part_comma p min max : 0 <= min -> wf_part p min max -> contains_byte (print_part p) ","%char = false.
Proof.
  intros Hm Hwf. pose proof (wf_part_span _ _ _ Hwf) as Hs. destruct Hwf as [_ Ht].
  assert (contains_byte (print_span (cp_span p)) ","%char = false) as Hsp by (by eapply print_span_free).
  unfold print_part. destruct (cp_step p); [|done]. rewrite !contains_byte_app, Hsp, Itoa_free by (done || lia). done.
Qed.

Lemma all_graph_Join ss : Forall (fun s => all_graph s = true) ss -> all_graph (Join ss ",") = true.
Proof.
  induction 1 as [|s ss Hs Hss IH]; [done|]. destruct ss as [|s' ss]; [done|].
  rewrite Join_cons by done. by rewrite !all_graph_app, Hs, IH.
Qed.

Lemma print_field_word f min max :
  0 <= min -> wf_field f min max -> print_field f <> "" /\ all_graph (print_field f) = true.
Proof.
  intros Hm Hwf. destruct f as [|ps]; simpl; [done|]. destruct Hwf as (Hne & _ & Hps). split.
  - destruct Hps as [|p ps Hp Hps]; [done|]. pose proof (print_part_nonempty p min max Hm Hp) as Hpn. simpl map.
    destruct (map print_part ps) eqn:E; [done|]. rewrite Join_cons by done. by destruct (print_part p) eqn:Ep.
  - apply all_graph_Join, Forall_map. eapply Forall_impl; [exact Hps|]. intros p Hp. exact (print_part_graph p min max Hm Hp).
Qed.

Lemma print_part_star p min max : 0 <= min -> wf_part p min max -> print_part p = "*" -> p = MkPart Every None.
Proof.
  intros Hm Hwf E. pose proof (wf_part_span _ _ _ Hwf) as Hs. destruct p as [sp st]. unfold print_part in E. simpl in *.
  destruct st as [s|].
  { apply (f_equal (fun s => contains_byte s slash)) in E. rewrite contains_byte_app in E. simpl in E.
    by rewrite orb_true_r in E. }
  destruct sp as [|a|a b]; [done|..]; exfalso.
  - assert (all_digits (Itoa a) = true) as Hd by (apply Itoa_digits; lia). unfold print_span in E. by rewrite E in Hd.
  - apply (f_equal (fun s => contains_byte s "-"%char)) in E. unfold print_span in E. rewrite contains_byte_app in E.
    simpl in E. by rewrite orb_true_r in E.
Qed.

Lemma fold_sunday_spec max vals v :
  v ∈ fold_sunday max vals <-> (v ∈ vals \/ (max = 7 /\ v = 0 /\ 7 ∈ vals)) /\ ~ (max = 7 /\ v = 7).
Proof.
  unfold fold_sunday. destruct (max =? 7) eqn:E; bool_hyps; [|naive_solver].
  rewrite elem_of_difference, elem_of_singleton. case_bool_decide; [rewrite elem_of_union, elem_of_singleton|]; naive_solver.
Qed.

Definition is_star (f : cron_field) : bool := match f with Star => true | Elems _ => false end.

Lemma stands_for_some p min max : 0 <= min <= max -> wf_part p min max -> exists v, stands_for p min max v.
Proof.
  intros Hm [Hs Ht]. exists (span_range p min max).1. unfold stands_for. destruct (span_range p min max) as [l h] eqn:E.
  simpl. rewrite Z.sub_diag. split; [|done]. unfold span_range in E.
  destruct (cp_span p), (cp_step p); injection E as <- <-; lia.
Qed.

Lemma print_elems_star ps min max : 0 <= min -> wf_field (Elems ps) min max -> String.eqb (print_field (Elems ps)) "*" = false.
Proof.
  intros Hm (Hne & Hns & Hps). apply String.eqb_neq. unfold print_field. destruct Hps as [|p ps Hp Hps]; [done|].
  destruct ps as [|p' ps]; [intros E%(print_part_star _ min max); [congruence|done..]|].
  simpl map. rewrite Join_cons by done. intros E. apply (f_equal (fun s => contains_byte s ","%char)) in E.
  rewrite contains_byte_app in E. simpl in E. by rewrite orb_true_r in E.
Qed.

(** A written field is read as what it means, for the values its clock shows. *)
Lemma parseCronField_print f min max :
  0 <= min <= max -> max < 64 -> wf_field f min max ->
  exists cf, parseCronField (print_field f) min max = Ok cf /\ cf_star cf = is_star f /\
    forall v, (max = 7 -> v <> 7) -> field_matches cf v = true <-> means f min max v.
Proof.
  intros Hm HM Hwf. destruct (print_field_word f min max) as [Hne Hg]; [lia|done|].
  unfold parseCronField. rewrite graph_trimmed by done. rewrite (proj2 (String.eqb_neq _ _)) by done.
  destruct f as [|ps]; [by exists (MkField true ∅)|]. rewrite (print_elems_star ps min max) by (done || lia).
  destruct Hwf as (Hps0 & _ & Hps).
  destruct (parse_parts_print ps min max ∅) as (vals & Hp & Hv); [lia..|done|intros p Hpw; exact (print_part_graph p min max (proj1 Hm) Hpw)|].
  unfold print_field. rewrite split_join;
    [|by destruct ps|apply Forall_map; eapply Forall_impl; [exact Hps|]; intros p Hpw; exact (print_part_comma p min max (proj1 Hm) Hpw)].
  rewrite Hp. simpl. case_bool_decide as Hempty.
  { exfalso. destruct Hps as [|p ps Hpw Hps]; [done|]. destruct (stands_for_some p min max) as [v Hs]; [done..|].
    assert (v ∈ vals) as Hin by (apply Hv; right; by constructor). rewrite Hempty in Hin. by apply elem_of_empty in Hin. }
  eexists. split; [done|]. split; [done|]. intros v Hv7. unfold field_matches. simpl.
  rewrite bool_decide_eq_true, fold_sunday_spec, !Hv, !elem_of_empty. rewrite !Exists_exists. split.
  - intros [[[[]|(p & Hin & Hs)]|(H7 & H0 & [[]|(p & Hin & Hs)])] _]; exists p; auto.
  - intros (p & Hin & [Hs|(H7 & H0 & Hs)]); (split; [|naive_solver]); [left; right|right; split_and!; try done; right]; eauto.
Qed.

(** An expression of five fields. *)
Record cron_expr := MkExpr { ex_minute : cron_field; ex_hour : cron_field; ex_dom : cron_field; ex_month : cron_field; ex_dow : cron_field }.

Definition print_expr (c : cron_expr) : string :=
  Join (map print_field [ex_minute c; ex_hour c; ex_dom c; ex_month c; ex_dow c]) " ".

Definition wf_expr (c : cron_expr) : Prop :=
  wf_field (ex_minute c) 0 59 /\ wf_field (ex_hour c) 0 23 /\ wf_field (ex_dom c) 1 31 /\
  wf_field (ex_month c) 1 12 /\ wf_field (ex_dow c) 0 7.

(** When an expression fires: at its minutes, hours and months, on a day either
    of its day fields means when both are restricted, else on one both mean. *)
Definition fires (c : cron_expr) (t : clock) : Prop :=
  means (ex_minute c) 0 59 (ck_minute t) /\ means (ex_hour c) 0 23 (ck_hour t) /\
  means (ex_month c) 1 12 (ck_month t) /\
  let dom := means (ex_dom c) 1 31 (ck_day t) in
  let dow := means (ex_dow c) 0 7 (ck_weekday t) in
  if is_star (ex_dom c) || is_star (ex_dow c) then dom /\ dow else dom \/ dow.

(** C32: a cron expression fires as it is written: each expression of stars, values,
    ranges, lists and steps, in canonical spelling (single spaces, numbers without
    leading zeros) and with the fields' bounds kept, parses, and the schedule matches
    exactly the minutes the expression means, the day-of-month or day-of-week rule and
    Sunday as 0 and 7 included. Left out are a/1, which is read as the one value a, and
    steps of 2^62 and more, whose sums overflow. *)
Theorem cron_fires_as_written c t :
  wf_expr c -> 0 <= ck_weekday t <= 6 ->
  exists s, ParseCron (print_expr c) = Ok s /\ (Cron_Matches s t = true <-> fires c t).
Proof.
  intros (H1 & H2 & H3 & H4 & H5) Hw. unfold ParseCron, print_expr.
  rewrite Fields_Join.
  2: { apply Forall_cons_2; [by apply (print_field_word _ 0 59)|]. apply Forall_cons_2; [by apply (print_field_word _ 0 23)|].
       apply Forall_cons_2; [by apply (print_field_word _ 1 31)|]. apply Forall_cons_2; [by apply (print_field_word _ 1 12)|].
       apply Forall_cons_2; [by apply (print_field_word _ 0 7)|]. by apply Forall_nil_2. }
  destruct (parseCronField_print _ 0 59 ltac:(lia) ltac:(lia) H1) as (m & Em & _ & Hm).
  destruct (parseCronField_print _ 0 23 ltac:(lia) ltac:(lia) H2) as (h & Eh & _ & Hh).
  destruct (parseCronField_print _ 1 31 ltac:(lia) ltac:(lia) H3) as (d & Ed & Sd & Hd).
  destruct (parseCronField_print _ 1 12 ltac:(lia) ltac:(lia) H4) as (mo & Emo & _ & Hmo).
  destruct (parseCronField_print _ 0 7 ltac:(lia) ltac:(lia) H5) as (w & Ew & Sw & Hwd).
  cbn [map]. rewrite Em. cbn [rbind]. rewrite Eh. cbn [rbind]. rewrite Ed. cbn [rbind]. rewrite Emo. cbn [rbind]. rewrite Ew. eexists. split; [done|].
  unfold Cron_Matches, fires. cbn [cr_minute cr_hour cr_dom cr_month cr_dow]. rewrite Sd, Sw.
  specialize (Hm (ck_minute t) ltac:(lia)). specialize (Hh (ck_hour t) ltac:(lia)).
  specialize (Hd (ck_day t) ltac:(lia)). specialize (Hmo (ck_month t) ltac:(lia)). specialize (Hwd (ck_weekday t) ltac:(lia)).
  destruct (field_matches m _); simpl; [|split; [done|intros (H & _); by apply Hm in H]].
  destruct (field_matches h _); simpl; [|split; [done|intros (_ & H & _); by apply Hh in H]].
  destruct (field_matches mo _); simpl; [|split; [done|intros (_ & _ & H & _); by apply Hmo in H]].
  destruct (field_matches d _), (field_matches w _), (is_star (ex_dom c)), (is_star (ex_dow c)); simpl; tauto || naive_solver.
Qed.

(** ** Steps the parser misreads *)

Definition at_minute (m : Z) : clock := MkClock m 0 1 1 0.

Definition fires_at (spec : string) (m : Z) : bool :=
  match ParseCron spec with Ok s => Cron_Matches s (at_minute m) | Err _ => false end.

(** Two steps are not read as the comments say: [5/1] is read as [5] alone
    (not every minute from 5), and a step near 2^63 wraps the loop below its
    start, so that [5/9223372036854775807] fires at minutes 3 and 1 too. *)
Theorem cron_steps_misread :
  fires_at "5/1 * * * *" 5 = true /\ fires_at "5/1 * * * *" 6 = false /\ fires_at "5/2 * * * *" 7 = true /\
  fires_at "5/9223372036854775807 * * * *" 3 = true /\ fires_at "5/9223372036854775807 * * * *" 1 = true.
Proof. split_and!; vm_compute; reflexivity. Qed.

Lemma cron_fires_as_written_witness :
  exists s, ParseCron "*/15 9-17 * * 1,7" = Ok s /\ Cron_Matches s (MkClock 30 9 14 6 0) = true.
Proof.
  pose (c := MkExpr (Elems [MkPart Every (Some 15)]) (Elems [MkPart (Between 9 17) None]) Star Star
               (Elems [MkPart (At 1) None; MkPart (At 7) None])).
  assert (wf_expr c) as Hwf.
  { split_and!; try done; simpl; split_and!; try done; repeat apply Forall_cons_2; try apply Forall_nil_2; split; simpl; split_and?; try done; try lia. }
  destruct (cron_fires_as_written c (MkClock 30 9 14 6 0) Hwf ltac:(simpl; lia)) as (s & Hs & Hm).
  exists s. split; [exact Hs|]. apply Hm. split; [|split; [|split; [exact I|]]].
  - apply Exists_cons_hd. left. split; [simpl; lia|reflexivity].
  - apply Exists_cons_hd. left. split; [simpl; lia|reflexivity].
  - split; [exact I|]. apply Exists_cons_tl, Exists_cons_hd. right. split; [reflexivity|]. split; [reflexivity|].
    split; [simpl; lia|reflexivity].
Defined.
