(* ===== verification/ShellQuote.v ===== *)
(** * Shell quoting (internal/shellquote, internal/fleet/automation.go: SubstituteAgentCommand)

    Quoting for /bin/sh and the placeholders of agent commands, against a
    reader of shell words: unquoted plain characters, single quotes and
    backslash escapes; anything the shell treats specially makes the reader
    give up. *)

From S2P Require Import Prelude GoStrings GoText.
Local Open Scope string_scope.
Local Open Scope Z_scope.
Local Open Scope list_scope.

Definition quote : ascii := "'"%char.
Definition backslash : ascii := "\"%char.

(** strings.ReplaceAll of a single quote by the close, escaped quote, reopen
    sequence. *)
Definition escaped_quote : string := String quote (String backslash (String quote (String quote ""))).

Fixpoint EscapeSingle (s : string) : string :=
  match s with
  | EmptyString => ""
  | String a s' => if ascii_eqb a quote then escaped_quote +:+ EscapeSingle s' else String a (EscapeSingle s')
  end.

Definition Single (value : string) : string := String quote (EscapeSingle value) +:+ String quote "".

(** A rune of more than one byte is never plain, nor is any of its bytes. *)
Definition isPlainWordRune (c : ascii) : bool :=
  in_range 97 122 (code c) || in_range 65 90 (code c) || in_range 48 57 (code c) || contains_byte "_-./+" c.

Fixpoint all_plain (s : string) : bool :=
  match s with EmptyString => true | String a s' => isPlainWordRune a && all_plain s' end.

Definition CommandWord (value : string) : string :=
  if String.eqb value "" then Single value
  else if all_plain value then value else Single value.

(** ** Agent commands *)

Definition DefaultAgentCommand : string := "claude --system-prompt '${SYS_PROMPT}' '${PROMPT}'".

(** strings.Replacer.Replace: at each place the first pair whose old text is
    there, else one byte further. The old texts are not empty. *)
Fixpoint first_pair (pairs : list (string * string)) (s : string) : option (string * string) :=
  match pairs with
  | [] => None
  | (old, new) :: rest => match CutPrefix s old with
                          | Some r => Some (new, r)
                          | None => first_pair rest s
                          end
  end.

Fixpoint replace_from (fuel : nat) (pairs : list (string * string)) (s : string) : string :=
  match fuel with
  | O => ""
  | S f => match first_pair pairs s with
           | Some (new, r) => new +:+ replace_from f pairs r
           | None => match s with
                     | EmptyString => ""
                     | String a s' => String a (replace_from f pairs s')
                     end
           end
  end.

Definition Replace (pairs : list (string * string)) (s : string) : string := replace_from (S (String.length s)) pairs s.

Definition SubstituteAgentCommand (command prompt systemPrompt : string) : string :=
  Replace [("${SYS_PROMPT}", EscapeSingle systemPrompt); ("${PROMPT}", EscapeSingle prompt)] command.

(** ** A reader of shell words *)

(** Between words, in a word outside quotes, and inside single quotes. *)
Inductive lex_state := Between | InWord (w : string) | InQuotes (w : string).

Definition add_byte (w : string) (a : ascii) : string := w +:+ String a "".

Fixpoint lex (s : string) (st : lex_state) : option (list string) :=
  match s with
  | EmptyString =>
      match st with
      | Between => Some []
      | InWord w => Some [w]
      | InQuotes _ => None
      end
  | String a s' =>
      match st with
      | InQuotes w => if ascii_eqb a quote then lex s' (InWord w) else lex s' (InQuotes (add_byte w a))
      | _ =>
          let w := match st with InWord w => w | _ => "" end in
          if ascii_eqb a quote then lex s' (InQuotes w)
          else if ascii_eqb a " "%char then
            match st with
            | InWord w => cons w <$> lex s' Between
            | _ => lex s' Between
            end
          else if ascii_eqb a backslash then
            match s' with
            | String b s'' => if ascii_eqb b nl then None else lex s'' (InWord (add_byte w b))
            | EmptyString => None
            end
          else if isPlainWordRune a then lex s' (InWord (add_byte w a))
          else None
      end
  end.

(** The words /bin/sh reads from a line. *)
Definition sh_words (s : string) : option (list string) := lex s Between.

(** ** Quoting *)

Lemma add_byte_app w a s : add_byte w a +:+ s = w +:+ String a s.
Proof. unfold add_byte. by rewrite append_assoc. Qed.

(** Escaped text inside quotes is read as the text. *)
Lemma lex_escaped v s w : lex (EscapeSingle v +:+ s) (InQuotes w) = lex s (InQuotes (w +:+ v)).
Proof.
  revert w. induction v as [|a v IH]; intros w; [by rewrite append_nil_r|]. cbn [EscapeSingle].
  destruct (ascii_eqb a quote) eqn:E.
  - apply ascii_eqb_eq in E as ->. rewrite append_assoc.
    transitivity (lex (EscapeSingle v +:+ s) (InQuotes (add_byte w quote))); [reflexivity|].
    rewrite IH. by rewrite add_byte_app.
  - change (String a (EscapeSingle v) +:+ s) with (String a (EscapeSingle v +:+ s)). cbn [lex]. rewrite E, IH.
    by rewrite add_byte_app.
Qed.

Lemma lex_single v s : lex (Single v +:+ s) Between = lex s (InWord v).
Proof.
  unfold Single. rewrite append_assoc. transitivity (lex (EscapeSingle v +:+ String quote s) (InQuotes "")); [reflexivity|].
  by rewrite lex_escaped.
Qed.

Lemma plain_not_special a :
  isPlainWordRune a = true -> ascii_eqb a quote = false /\ ascii_eqb a " "%char = false /\ ascii_eqb a backslash = false.
Proof. destruct a as [[] [] [] [] [] [] [] []]; vm_compute; done. Qed.

Lemma lex_plain v s w : all_plain v = true -> lex (v +:+ s) (InWord w) = lex s (InWord (w +:+ v)).
Proof.
  revert w. induction v as [|a v IH]; intros w; [by rewrite append_nil_r|]. cbn [all_plain].
  intros [Ha Hv]%andb_true_iff. destruct (plain_not_special a Ha) as (H1 & H2 & H3).
  change (String a v +:+ s) with (String a (v +:+ s)). cbn [lex]. rewrite H1, H2, H3, Ha, IH by done. by rewrite add_byte_app.
Qed.

Lemma lex_plain_word v s : v <> "" -> all_plain v = true -> lex (v +:+ s) Between = lex s (InWord v).
Proof.
  destruct v as [|a v]; [done|]. intros _ [Ha Hv]%andb_true_iff. destruct (plain_not_special a Ha) as (H1 & H2 & H3).
  change (String a v +:+ s) with (String a (v +:+ s)). cbn [lex]. rewrite H1, H2, H3, Ha, lex_plain by done. done.
Qed.

Lemma lex_command_word v s : lex (CommandWord v +:+ s) Between = lex s (InWord v).
Proof.
  unfold CommandWord. destruct (String.eqb v "") eqn:E; [apply lex_single|]. apply String.eqb_neq in E.
  destruct (all_plain v) eqn:Ev; [by apply lex_plain_word|apply lex_single].
Qed.

(** A quoting of a word by either function. *)
Inductive quoting : string -> string -> Prop :=
| quoting_single v : quoting v (Single v)
| quoting_command v : quoting v (CommandWord v).

Lemma lex_quoting v q s : quoting v q -> lex (q +:+ s) Between = lex s (InWord v).
Proof. intros []; [apply lex_single|apply lex_command_word]. Qed.

(** Quoting is read back: a line of words quoted by Single or CommandWord, in
    any mix, is read by the shell as exactly those words, whatever bytes they
    hold. *)
Theorem quoted_words_read_back ws qs :
  Forall2 quoting ws qs -> sh_words (Join qs " ") = Some ws.
Proof.
  unfold sh_words. induction 1 as [|w q ws qs Hq Hqs IH]; [done|]. destruct Hqs as [|w' q' ws qs Hq' Hqs].
  - change (Join [q] " ") with q. rewrite <- (append_nil_r q). by rewrite (lex_quoting w q) by done.
  - rewrite Join_cons by done. rewrite (lex_quoting w q) by done.
    change (" " +:+ ?x) with (String " "%char x). cbn [lex]. simpl ascii_eqb. cbv iota. by rewrite IH.
Qed.

(** ** Substitution *)

Definition solid_pairs (pairs : list (string * string)) : Prop := Forall (fun p => p.1 <> "") pairs.

Lemma first_pair_length pairs s new r :
  solid_pairs pairs -> first_pair pairs s = Some (new, r) -> (String.length r < String.length s)%nat.
Proof.
  induction 1 as [|[o n] pairs Ho _ IH]; simpl; [done|]. destruct (CutPrefix s o) eqn:E; [|auto].
  intros [= _ ->]. apply CutPrefix_length in E. simpl in Ho. destruct o; [done|]. simpl in E. lia.
Qed.

(** Fuel above the length is enough. *)
Lemma replace_fuel pairs n m s :
  solid_pairs pairs -> (String.length s < n)%nat -> (String.length s < m)%nat ->
  replace_from n pairs s = replace_from m pairs s.
Proof.
  intros Hp. revert m s. induction n as [|n IH]; intros m s Hn Hm; [lia|]. destruct m as [|m]; [lia|]. simpl.
  destruct (first_pair pairs s) as [[new r]|] eqn:E.
  - pose proof (first_pair_length _ _ _ _ Hp E). f_equal. apply IH; lia.
  - destruct s as [|a s]; [done|]. simpl in *. f_equal. apply IH; lia.
Qed.

Lemma Replace_match pairs s new r :
  solid_pairs pairs -> first_pair pairs s = Some (new, r) -> Replace pairs s = new +:+ Replace pairs r.
Proof.
  intros Hp E. pose proof (first_pair_length _ _ _ _ Hp E) as Hl. unfold Replace at 1. cbn [replace_from]. rewrite E.
  f_equal. unfold Replace. apply replace_fuel; [done|lia..].
Qed.

Lemma Replace_byte pairs a s : first_pair pairs (String a s) = None -> Replace pairs (String a s) = String a (Replace pairs s).
Proof. intros E. unfold Replace at 1. cbn [String.length replace_from]. by rewrite E. Qed.

Definition placeholders (prompt sys : string) : list (string * string) :=
  [("${SYS_PROMPT}", EscapeSingle sys); ("${PROMPT}", EscapeSingle prompt)].

Lemma placeholders_solid prompt sys : solid_pairs (placeholders prompt sys).
Proof. by repeat constructor. Qed.

Lemma no_placeholder prompt sys a s : a <> "$"%char -> first_pair (placeholders prompt sys) (String a s) = None.
Proof.
  intros Ha. assert (ascii_eqb "$"%char a = false) as E.
  { destruct (ascii_eqb _ a) eqn:E; [|done]. apply ascii_eqb_eq in E. congruence. }
  unfold placeholders. cbn [first_pair CutPrefix]. by rewrite E.
Qed.

Lemma Replace_text prompt sys w s :
  contains_byte w "$"%char = false ->
  Replace (placeholders prompt sys) (w +:+ s) = w +:+ Replace (placeholders prompt sys) s.
Proof.
  induction w as [|a w IH]; [done|]. cbn [contains_byte]. intros [Ha Hw]%orb_false_iff.
  change (String a w +:+ s) with (String a (w +:+ s)). rewrite Replace_byte; [by rewrite IH|].
  apply no_placeholder. intros ->. by rewrite ascii_eqb_refl in Ha.
Qed.

(** A command as its author writes it: plain words, and the placeholders in
    single quotes. *)
Inductive template_word := Lit (w : string) | SysPrompt | UserPrompt.

Definition print_word (t : template_word) : string :=
  match t with
  | Lit w => w
  | SysPrompt => "'${SYS_PROMPT}'"
  | UserPrompt => "'${PROMPT}'"
  end.

Definition meant (prompt sys : string) (t : template_word) : string :=
  match t with Lit w => w | SysPrompt => sys | UserPrompt => prompt end.

Definition wf_word (t : template_word) : Prop :=
  match t with Lit w => w <> "" /\ all_plain w = true | _ => True end.

Definition filled (prompt sys : string) (t : template_word) : string :=
  match t with Lit w => w | SysPrompt => Single sys | UserPrompt => Single prompt end.

Lemma plain_no_dollar w : all_plain w = true -> contains_byte w "$"%char = false.
Proof.
  induction w as [|a w IH]; simpl; [done|]. intros [Ha Hw]%andb_true_iff. rewrite IH by done. rewrite orb_false_r.
  revert Ha. destruct a as [[] [] [] [] [] [] [] []]; vm_compute; done.
Qed.

Lemma Replace_word prompt sys t s :
  wf_word t -> Replace (placeholders prompt sys) (print_word t +:+ s) = filled prompt sys t +:+ Replace (placeholders prompt sys) s.
Proof.
  assert (forall s, Replace (placeholders prompt sys) (String quote s) = String quote (Replace (placeholders prompt sys) s)) as Hq
    by (intros; by apply Replace_byte, no_placeholder).
  intros Hw. destruct t as [w| |]; simpl print_word; simpl filled.
  - destruct Hw as [_ Hw]. by apply Replace_text, plain_no_dollar.
  - change ("'${SYS_PROMPT}'" +:+ s) with (String quote ("${SYS_PROMPT}" +:+ String quote s)). rewrite Hq.
    rewrite (Replace_match _ _ (EscapeSingle sys) (String quote s)) by (apply placeholders_solid || reflexivity).
    rewrite Hq. unfold Single. by rewrite append_assoc.
  - change ("'${PROMPT}'" +:+ s) with (String quote ("${PROMPT}" +:+ String quote s)). rewrite Hq.
    rewrite (Replace_match _ _ (EscapeSingle prompt) (String quote s)) by (apply placeholders_solid || reflexivity).
    rewrite Hq. unfold Single. by rewrite append_assoc.
Qed.

Lemma Replace_line prompt sys ts :
  Forall wf_word ts ->
  Replace (placeholders prompt sys) (Join (map print_word ts) " ") = Join (map (filled prompt sys) ts) " ".
Proof.
  induction 1 as [|t ts Ht Hts IH]; [done|]. destruct ts as [|t' ts].
  - simpl map. change (Join [?x] " ") with x. rewrite <- (append_nil_r (print_word t)), Replace_word by done.
    change (Replace _ "") with "". apply append_nil_r.
  - simpl map in *. rewrite !Join_cons by done. rewrite Replace_word by done. f_equal.
    rewrite Replace_text by done. by rewrite IH.
Qed.

Lemma lex_filled prompt sys t s :
  wf_word t -> lex (filled prompt sys t +:+ s) Between = lex s (InWord (meant prompt sys t)).
Proof. destruct t as [w| |]; simpl; [intros [??]; by apply lex_plain_word|intros; apply lex_single..]. Qed.

(** A prompt cannot inject: a command of plain words and placeholders in
    single quotes (the default command is one), filled with any prompt and any
    system prompt, is read by the shell as the words of the command with each
    placeholder one word, the prompt exactly. *)
Theorem substituted_command_words prompt sys ts :
  Forall wf_word ts ->
  sh_words (SubstituteAgentCommand (Join (map print_word ts) " ") prompt sys) = Some (map (meant prompt sys) ts).
Proof.
  intros Hts. unfold SubstituteAgentCommand. fold (placeholders prompt sys). rewrite Replace_line by done.
  unfold sh_words. induction Hts as [|t ts Ht Hts IH]; [done|]. destruct Hts as [|t' ts Ht' Hts].
  - simpl map. change (Join [?x] " ") with x. rewrite <- (append_nil_r (filled _ _ _)). by rewrite lex_filled by done.
  - simpl map in *. rewrite Join_cons by done. rewrite lex_filled by done.
    change (" " +:+ ?x) with (String " "%char x). cbn [lex]. simpl ascii_eqb. cbv iota. by rewrite IH.
Qed.

Example default_command : DefaultAgentCommand =
  Join (map print_word [Lit "claude"; Lit "--system-prompt"; SysPrompt; UserPrompt]) " ".
Proof. reflexivity. Qed.

Lemma substituted_command_words_witness :
  sh_words (SubstituteAgentCommand DefaultAgentCommand "it's; rm -rf ~ ${SYS_PROMPT}" "be `good`") =
    Some ["claude"; "--system-prompt"; "be `good`"; "it's; rm -rf ~ ${SYS_PROMPT}"].
Proof.
  apply (substituted_command_words "it's; rm -rf ~ ${SYS_PROMPT}" "be `good`"
    [Lit "claude"; Lit "--system-prompt"; SysPrompt; UserPrompt]).
  by repeat constructor.
Defined.

Lemma quoted_words_read_back_witness :
  sh_words (Join [CommandWord "/usr/bin/fleet"; Single "it's"; CommandWord "a b"] " ") = Some ["/usr/bin/fleet"; "it's"; "a b"].
Proof. apply quoted_words_read_back. repeat constructor. Defined.
