(* ===== verification/JsonPath.v ===== *)
(** * JSON paths of webhook filters (internal/fleet/automation_match.go)

    The small path language that selects a value of an event body: its strict
    reader, the lookup, and the comparison with the expected text. *)

From S2P Require Import Prelude GoStrings GoText.
Local Open Scope string_scope.
Local Open Scope Z_scope.
Local Open Scope list_scope.

(** ** Reading a path *)

Inductive token := TKey (k : string) | TIndex (n : Z).

(** A bare key runs to the next separator. *)
Fixpoint bare_key (s : string) : string * string :=
  match s with
  | EmptyString => ("", "")
  | String a s' => if ascii_eqb a "."%char || ascii_eqb a "["%char then ("", s)
                   else let '(k, r) := bare_key s' in (String a k, r)
  end.

Fixpoint last_of (s : string) (d : ascii) : ascii :=
  match s with EmptyString => d | String a s' => last_of s' a end.

Fixpoint drop_last (s : string) : string :=
  match s with
  | EmptyString => ""
  | String a EmptyString => ""
  | String a s' => String a (drop_last s')
  end.

(** The text between brackets: a quoted key, or an index. *)
Definition bracketed (inner : string) : option token :=
  match inner with
  | EmptyString => None
  | String q rest =>
      if ascii_eqb q "'"%char || ascii_eqb q (byte 34) then
        match rest with
        | EmptyString => None
        | _ => if ascii_eqb (last_of rest q) q then Some (TKey (drop_last rest)) else None
        end
      else TIndex <$> Atoi inner
  end.

Fixpoint tokenize (fuel : nat) (s : string) (expectKey : bool) (toks : list token) : option (list token) :=
  match fuel with
  | O => None
  | S f =>
      match s with
      | EmptyString => if expectKey then None else match toks with [] => None | _ => Some toks end
      | String a s' =>
          if ascii_eqb a "."%char then if expectKey then None else tokenize f s' true toks
          else if ascii_eqb a "["%char then
            if expectKey then None
            else match cut_byte "]"%char s' with
                 | None => None
                 | Some (inner, rest) =>
                     match bracketed (TrimSpace inner) with
                     | None => None
                     | Some t => tokenize f rest expectKey (toks ++ [t])
                     end
                 end
          else let '(k, rest) := bare_key s in tokenize f rest false (toks ++ [TKey k])
      end
  end.

Definition tokenizeJSONPath (path : string) : option (list token) :=
  let s := TrimSpace path in
  let s := default s (CutPrefix s "$") in
  tokenize (S (String.length s)) s false [].

Definition ValidateJSONPath (path : string) : bool :=
  match tokenizeJSONPath path with Some _ => true | None => false end.

(** A decoded body; a number keeps its text. *)
Inductive json :=
| JNull | JBool (b : bool) | JNumber (text : string) | JString (s : string)
| JArray (elems : list json) | JObject (fields : list (string * json)).

Fixpoint json_get (k : string) (fields : list (string * json)) : option json :=
  match fields with
  | [] => None
  | (k', v) :: rest => if String.eqb k k' then Some v else json_get k rest
  end.

Definition json_step (cur : json) (t : token) : option json :=
  match t, cur with
  | TKey k, JObject fields => json_get k fields
  | TIndex n, JArray elems => if n <? 0 then None else elems !! Z.to_nat n
  | _, _ => None
  end.

Definition json_walk (toks : list token) (data : json) : option json :=
  foldl (fun cur t => match cur with Some v => json_step v t | None => None end) (Some data) toks.

Definition jsonPathLookup (data : json) (path : string) : option json :=
  match tokenizeJSONPath path with
  | Some toks => json_walk toks data
  | None => None
  end.

Definition jsonValueEquals (v : json) (expected : string) : bool :=
  match v with
  | JString s => String.eqb s expected
  | JBool b => String.eqb (if b then "true" else "false") expected
  | JNumber t => String.eqb t expected
  | _ => false
  end.

(** A path in any of its spellings. *)
Inductive segment := SDot (k : string) | SQuoted (q : ascii) (k : string) | SIndex (n : Z).

Definition seg_token (g : segment) : token :=
  match g with SDot k => TKey k | SQuoted _ k => TKey k | SIndex n => TIndex n end.

Definition seg_text (g : segment) : string :=
  match g with
  | SDot k => String "."%char k
  | SQuoted q k => String "["%char (String q (k +:+ String q "]"))
  | SIndex n => String "["%char (Itoa n +:+ "]")
  end.

Definition path_text (gs : list segment) : string := String "$"%char (String.concat "" (map seg_text gs)).

Definition seg_ok (g : segment) : Prop :=
  match g with
  | SDot k => k <> "" /\ all_graph k = true /\ contains_byte k "."%char = false /\ contains_byte k "["%char = false
  | SQuoted q k => (q = "'"%char \/ q = byte 34) /\ contains_byte k "]"%char = false
  | SIndex n => 0 <= n < 2 ^ 63
  end.

Lemma bare_key_spec k s :
  contains_byte k "."%char = false -> contains_byte k "["%char = false ->
  (s = "" \/ exists r, s = String "."%char r \/ s = String "["%char r) -> bare_key (k +:+ s) = (k, s).
Proof.
  intros Hd Hb Hs. induction k as [|a k IH]; simpl.
  - destruct Hs as [->|(r & [->| ->])]; done.
  - simpl in Hd, Hb. apply orb_false_iff in Hd as [Ha Hd], Hb as [Hc Hb]. rewrite IH by done.
    by rewrite Ha, Hc.
Qed.

(** Fuel above the length of the text is enough. *)
Lemma bare_key_rest s : let '(k, r) := bare_key s in s = k +:+ r.
Proof.
  induction s as [|a s IH]; simpl; [done|]. destruct (_ || _); [done|]. destruct (bare_key s). simpl. by rewrite <- IH.
Qed.

Lemma tokenize_enough f f' s e toks :
  (String.length s < f)%nat -> (String.length s < f')%nat -> tokenize f s e toks = tokenize f' s e toks.
Proof.
  revert f' s e toks. induction f as [|f IH]; intros f' s e toks Hf Hf'; [lia|]. destruct f' as [|f']; [lia|]. simpl.
  destruct s as [|a s]; [done|]. simpl in Hf, Hf'. destruct (ascii_eqb a ".") eqn:Ed; [destruct e; [done|]; apply IH; lia|].
  destruct (ascii_eqb a "[") eqn:Eb.
  - destruct e; [done|]. destruct (cut_byte "]" s) as [[inner rest]|] eqn:Ec; [|done]. apply cut_byte_Some in Ec as [-> _].
    rewrite length_append_s in Hf, Hf'. simpl in Hf, Hf'. destruct (bracketed _); [|done]. apply IH; lia.
  - cbn [bare_key]. rewrite Ed, Eb. simpl. pose proof (bare_key_rest s) as Hr. destruct (bare_key s) as [k r].
    rewrite Hr, length_append_s in Hf, Hf'. apply IH; lia.
Qed.

Lemma last_of_app k q d : last_of (k +:+ String q "") d = q.
Proof. revert d. induction k as [|a k IH]; intros d; simpl; [done|]. apply IH. Qed.

Lemma drop_last_app k q : drop_last (k +:+ String q "") = k.
Proof. induction k as [|a k IH]; simpl; [done|]. rewrite IH. by destruct k. Qed.

Lemma trimmed_ends a s b : graph a = true -> graph b = true -> TrimSpace (String a (s +:+ String b "")) = String a (s +:+ String b "").
Proof.
  intros Ha Hb. apply TrimSpace_trimmed. split; [by apply strip_graph|].
  rewrite rev_string_cons, rev_string_append. simpl. by apply strip_rev_graph.
Qed.

Lemma bracketed_quoted q k : q = "'"%char \/ q = byte 34 ->
  bracketed (TrimSpace (String q (k +:+ String q ""))) = Some (TKey k).
Proof.
  intros Hq. rewrite trimmed_ends by (destruct Hq as [->| ->]; done). unfold bracketed.
  replace (ascii_eqb q "'" || ascii_eqb q (byte 34)) with true by (destruct Hq as [->| ->]; done).
  destruct (k +:+ String q "") eqn:E; [by destruct k|]. rewrite <- E, last_of_app, ascii_eqb_refl, drop_last_app. done.
Qed.

Lemma bracketed_index n : 0 <= n < 2 ^ 63 -> bracketed (TrimSpace (Itoa n)) = Some (TIndex n).
Proof.
  intros Hn. rewrite graph_trimmed by (apply all_digits_graph, Itoa_digits; lia).
  destruct (Itoa_first n) as (d & r & Hi & Hd & _); [lia|]. unfold bracketed. rewrite Hi.
  replace (ascii_eqb d "'" || ascii_eqb d (byte 34)) with false.
  - by rewrite <- Hi, Atoi_Itoa.
  - symmetry. apply orb_false_iff. split; apply not_true_iff_false; intros ->%ascii_eqb_eq; done.
Qed.

(** A segment's text starts with a separator and ends in a printing byte. *)
Lemma seg_text_first g gs : exists r, String.concat "" (map seg_text (g :: gs)) = String "."%char r \/
  String.concat "" (map seg_text (g :: gs)) = String "["%char r.
Proof. destruct g, gs; simpl; eexists; ((left; reflexivity) || (right; reflexivity)). Qed.

Lemma string_concat_cons x xs : String.concat "" (x :: xs) = x +:+ String.concat "" xs.
Proof. destruct xs; simpl; [|done]. by rewrite append_nil_r. Qed.

Lemma tokenize_bracket f inner rest toks t :
  contains_byte inner "]"%char = false -> bracketed (TrimSpace inner) = Some t ->
  tokenize (S f) (String "["%char (inner +:+ String "]"%char rest)) false toks = tokenize f rest false (toks ++ [t]).
Proof. intros Hi Hb. simpl. by rewrite cut_byte_app, Hb. Qed.

Lemma quoted_free q k : (q = "'"%char \/ q = byte 34) -> contains_byte k "]"%char = false ->
  contains_byte (String q (k +:+ String q "")) "]"%char = false.
Proof. intros Hq Hk. simpl. rewrite contains_byte_app, Hk. simpl. by destruct Hq as [->| ->]. Qed.

Lemma tokenize_segments gs f toks :
  Forall seg_ok gs -> toks <> [] \/ gs <> [] ->
  (String.length (String.concat "" (map seg_text gs)) < f)%nat ->
  tokenize f (String.concat "" (map seg_text gs)) false toks = Some (toks ++ map seg_token gs).
Proof.
  revert f toks. induction gs as [|g gs IH]; intros f toks Hok Hne Hf.
  { destruct f; [lia|]. simpl. rewrite app_nil_r. destruct toks; [|done]. by destruct Hne. }
  apply Forall_cons in Hok as [Hg Hgs]. destruct f as [|f]; [lia|].
  assert (toks ++ [seg_token g] <> []) as Hne' by (by destruct toks).
  replace (toks ++ map seg_token (g :: gs)) with ((toks ++ [seg_token g]) ++ map seg_token gs) by (by rewrite <- app_assoc).
  cbn [map] in *. rewrite string_concat_cons in *. rewrite length_append_s in Hf.
  set (rest := String.concat "" (map seg_text gs)) in *.
  destruct g as [k|q k|n]; cbn [seg_ok seg_token] in *.
  - destruct Hg as (Hk & _ & Hd & Hb). simpl in Hf. destruct f as [|f]; [lia|]. simpl.
    destruct k as [|a k]; [done|].
    assert (bare_key (String a k +:+ rest) = (String a k, rest)) as Hbk.
    { apply bare_key_spec; [done..|]. destruct gs as [|g gs]; [by left|right; apply seg_text_first]. }
    cbn [String.append] in *. rewrite Hbk. simpl in Hd, Hb. apply orb_false_iff in Hd as [-> _], Hb as [-> _].
    apply IH; [done|by left|]. simpl in Hf. lia.
  - destruct Hg as [Hq Hk]. assert (seg_text (SQuoted q k) +:+ rest = String "["%char (String q (k +:+ String q "") +:+ String "]"%char rest)) as ->
      by (simpl; by rewrite !append_assoc).
    erewrite tokenize_bracket; [|by apply quoted_free|by apply bracketed_quoted]. apply IH; [done|by left|]. simpl in Hf. lia.
  - assert (seg_text (SIndex n) +:+ rest = String "["%char (Itoa n +:+ String "]"%char rest)) as -> by (simpl; by rewrite append_assoc).
    erewrite tokenize_bracket; [|apply all_digits_free; [apply Itoa_digits; lia|done]|by apply bracketed_index].
    apply IH; [done|by left|]. simpl in Hf. lia.
Qed.

Lemma string_snoc (k : string) : k <> "" -> exists k' b, k = k' +:+ String b "".
Proof.
  intros Hk. destruct (rev_string k) as [|b r] eqn:E.
  - rewrite <- (rev_string_involutive k), E in Hk. done.
  - exists (rev_string r), b. by rewrite <- rev_string_cons, <- E, rev_string_involutive.
Qed.

Lemma path_ends gs : Forall seg_ok gs -> exists s b, path_text gs = s +:+ String b "" /\ graph b = true.
Proof.
  intros Hok. unfold path_text. induction gs as [|g gs _] using rev_ind; [by exists "", "$"%char|].
  apply Forall_app in Hok as [_ Hg]. apply Forall_inv in Hg. rewrite map_app.
  assert (forall xs y, String.concat "" (xs ++ [y]) = String.concat "" xs +:+ y) as Hc.
  { induction xs as [|x xs IH]; intros y; [done|]. cbn [app]. by rewrite !string_concat_cons, IH, append_assoc. }
  cbn [map]. rewrite Hc. set (p := String.concat "" _). destruct g as [k|q k|n]; cbn [seg_text].
  - destruct Hg as (Hk & Hgr & _). destruct (string_snoc k Hk) as (k' & b & ->). exists (String "$"%char (p +:+ String "."%char k')), b.
    rewrite all_graph_app in Hgr. apply andb_true_iff in Hgr as [_ Hb]. simpl in Hb. rewrite andb_true_r in Hb. split; [|done].
    simpl. by rewrite append_assoc.
  - exists (String "$"%char (p +:+ String "["%char (String q (k +:+ String q "")))), "]"%char. split; [|done].
    simpl. rewrite append_assoc. simpl. by rewrite append_assoc.
  - exists (String "$"%char (p +:+ String "["%char (Itoa n))), "]"%char. split; [|done]. simpl. by rewrite append_assoc.
Qed.

Lemma path_trimmed gs : Forall seg_ok gs -> TrimSpace (path_text gs) = path_text gs.
Proof.
  intros Hok. destruct (path_ends gs Hok) as (s & b & Hp & Hb). rewrite Hp. unfold path_text in Hp. destruct s as [|a s].
  - by injection Hp as <- Hc.
  - injection Hp as <- _. by apply trimmed_ends.
Qed.

Lemma tokenize_path gs : Forall seg_ok gs -> gs <> [] -> tokenizeJSONPath (path_text gs) = Some (map seg_token gs).
Proof.
  intros Hok Hne. unfold tokenizeJSONPath. rewrite path_trimmed by done.
  unfold path_text. cbn [CutPrefix]. rewrite ascii_eqb_refl. cbn [default].
  set (t := String.concat _ _). replace (CutPrefix t "") with (Some t) by (by destruct t). cbn [default].
  apply (tokenize_segments gs _ []); [done|by right|]. simpl. unfold t. lia.
Qed.

(** ** What a path selects *)

Inductive selects : json -> list token -> json -> Prop :=
| selects_here v : selects v [] v
| selects_key fields k v toks w : json_get k fields = Some v -> selects v toks w -> selects (JObject fields) (TKey k :: toks) w
| selects_elem elems n v toks w : 0 <= n -> elems !! Z.to_nat n = Some v -> selects v toks w ->
    selects (JArray elems) (TIndex n :: toks) w.

Lemma json_walk_None toks :
  foldl (fun cur t => match cur with Some v => json_step v t | None => None end) None toks = None.
Proof. by induction toks. Qed.

Lemma json_walk_cons t toks data :
  json_walk (t :: toks) data = match json_step data t with Some v => json_walk toks v | None => None end.
Proof. unfold json_walk. simpl. destruct (json_step data t); [done|apply json_walk_None]. Qed.

Lemma json_walk_selects toks data v : json_walk toks data = Some v <-> selects data toks v.
Proof.
  revert data. induction toks as [|t toks IH]; intros data.
  - split; [intros [= ->]; constructor|by inversion 1].
  - rewrite json_walk_cons. split.
    + destruct (json_step data t) as [w|] eqn:E; [|done]. intros H%IH.
      destruct t as [k|n], data; simpl in E; try done; [by econstructor|]. destruct (Z.ltb_spec n 0); [done|]. by econstructor.
    + inversion 1; subst; simpl.
      * simplify_option_eq. by apply IH.
      * destruct (Z.ltb_spec n 0); [lia|]. simplify_option_eq. by apply IH.
Qed.

Lemma jsonPathLookup_selects gs data v : Forall seg_ok gs -> gs <> [] ->
  jsonPathLookup data (path_text gs) = Some v <-> selects data (map seg_token gs) v.
Proof. intros Hok Hne. unfold jsonPathLookup. rewrite tokenize_path by done. apply json_walk_selects. Qed.
