(* ===== verification/Automation.v ===== *)
(** * Automation settings (internal/fleet: automation.go, automation_match.go, automation_mutate.go, deploy_target.go, backend_type.go)

    The agents and triggers of a fleet: their validation, the edits of the three
    editors, and what a webhook event fires. The regular expressions and the
    decoding of event bodies are parameters: [compile] is regexp.Compile and
    Match, [decode] is a json.Decoder with UseNumber. A nil slice is the empty
    list. *)

From S2P Require Import Prelude GoStrings GoText Cron ShellQuote JsonPath.
Local Open Scope string_scope.
Local Open Scope Z_scope.
Local Open Scope list_scope.

(** ** Data *)

Definition maxAutomationListLen : nat := 128.

Definition TriggerSchedule : string := "schedule".
Definition TriggerWebhook : string := "webhook".
Definition TriggerBash : string := "bash".

Definition IsCron (t : string) : bool := String.eqb t TriggerSchedule || String.eqb t TriggerBash.

Definition WebhookFilterRegex : string := "regex".
Definition WebhookFilterJSONPath : string := "jsonpath".

Definition BackendDevcontainer : string := "devcontainer".
Definition BackendCoder : string := "coder".
Definition BackendCodespaces : string := "codespaces".
Definition BackendKubernetes : string := "kubernetes".

Definition ParseBackendType (value : string) : option string :=
  if String.eqb value BackendDevcontainer then Some BackendDevcontainer
  else if String.eqb value BackendCoder then Some BackendCoder
  else if String.eqb value BackendCodespaces then Some BackendCodespaces
  else if String.eqb value BackendKubernetes then Some BackendKubernetes
  else None.

Definition ValidateBackendType (b : string) : bool := match ParseBackendType b with Some _ => true | None => false end.

Record Agent := MkAgent {
  ag_name : string;
  ag_command : string;
  ag_systemPrompt : string;
  ag_backend : string;
  ag_kubeCluster : string
}.

Record DeployTarget := MkTarget { dt_backend : string; dt_kubeCluster : string }.
#[export] Instance DeployTarget_eq_dec : EqDecision DeployTarget.
Proof. solve_decision. Defined.

Definition Agent_DeployTarget (a : Agent) : DeployTarget :=
  if String.eqb (ag_backend a) "" then MkTarget BackendDevcontainer ""
  else if negb (String.eqb (ag_backend a) BackendKubernetes) then MkTarget (ag_backend a) ""
  else MkTarget (ag_backend a) (ag_kubeCluster a).

Record Trigger := MkTrigger {
  tr_name : string;
  tr_type : string;
  tr_agentNames : list string;
  tr_prompt : string;
  tr_cron : string;
  tr_script : string;
  tr_webhookName : string;
  tr_filterType : string;
  tr_regex : string;
  tr_jsonPath : string;
  tr_jsonValue : string;
  tr_disabled : bool
}.

Inductive auto_error :=
| AgentNameEmpty | BackendInvalid | ClusterMissing | ClusterInvalid
| TooManyAgents | DuplicateAgent (n : string)
| TriggerNameEmpty | NoAgents | UnknownAgent (n : string)
| CronInvalid (e : cron_error) | ScriptEmpty | WebhookNameEmpty
| RegexEmpty | RegexInvalid | JSONPathEmpty | JSONPathInvalid | FilterInvalid | TypeInvalid
| TooManyTriggers | DuplicateTrigger (n : string)
| AgentExists (n : string) | AgentNotFound (n : string) | AgentReferenced (n by_ : string)
| TriggerExists (n : string) | TriggerNotFound (n : string) | AgentNotConnected (n cluster : string).

(** ** Lists of named items *)

(** The loop over raw items that rejects a name seen before. *)
Fixpoint norm_list {X} (norm : X -> result auto_error X) (name : X -> string) (dup : string -> auto_error)
    (seen : list string) (raws : list X) : result auto_error (list X) :=
  match raws with
  | [] => Ok []
  | raw :: rest =>
      let? x := norm raw in
      if bool_decide (name x ∈ seen) then Err (dup (name x))
      else let? xs := norm_list norm name dup (name x :: seen) rest in Ok (x :: xs)
  end.

Definition index_of {X} (name : X -> string) (xs : list X) (n : string) : option nat :=
  fst <$> list_find (fun x => name x = n) xs.


Definition remove_at {X} (xs : list X) (i : nat) : list X := take i xs ++ drop (S i) xs.

(** Another item of the list has the name. *)
Definition taken {X} (name : X -> string) (xs : list X) (i : nat) (n : string) : bool :=
  existsb (fun x => String.eqb (name x) n) (remove_at xs i).

Lemma norm_list_fix {X} norm (name : X -> string) dup seen xs :
  Forall (fun x => norm x = Ok x) xs -> NoDup (map name xs) -> (forall x, x ∈ xs -> name x ∉ seen) ->
  norm_list norm name dup seen xs = Ok xs.
Proof.
  revert seen. induction xs as [|x xs IH]; intros seen Hall Hnd Hs; [done|].
  inversion Hall; inversion Hnd; subst. simpl. rewrite H1. simpl.
  rewrite bool_decide_eq_false_2 by (apply Hs; set_solver). rewrite IH; try done.
  intros y Hy [E|?]%elem_of_cons; [|set_solver]. rewrite list_elem_of_fmap in *. naive_solver.
Qed.

Lemma norm_list_inv {X} norm (name : X -> string) dup seen xs ys :
  (forall x y, norm x = Ok y -> norm y = Ok y) ->
  norm_list norm name dup seen xs = Ok ys ->
  Forall (fun x => norm x = Ok x) ys /\ NoDup (map name ys) /\ (forall y, y ∈ ys -> name y ∉ seen).
Proof.
  intros Hidem. revert seen ys. induction xs as [|x xs IH]; intros seen ys; simpl.
  { intros [= <-]. repeat split; [constructor..|set_solver]. }
  intros (y & Hy & H)%rbind_ok. destruct (bool_decide _) eqn:E; [done|].
  apply rbind_ok in H as (zs & Hz & [= <-]). apply IH in Hz as (Hall & Hnd & Hs). bool_hyps.
  split; [constructor; eauto|]. split; [|set_solver].
  simpl. constructor; [|done]. intros (z & Hz & Hin)%list_elem_of_fmap. apply (Hs z Hin). rewrite <- Hz. set_solver.
Qed.

Lemma index_of_None {X} (name : X -> string) xs n : index_of name xs n = None <-> n ∉ map name xs.
Proof.
  unfold index_of. rewrite fmap_None, list_find_None, Forall_forall, list_elem_of_fmap. naive_solver.
Qed.

Lemma index_of_Some {X} (name : X -> string) xs n i :
  index_of name xs n = Some i -> exists x, xs !! i = Some x /\ name x = n.
Proof. unfold index_of. intros ([j x] & Hf & [= ->])%fmap_Some. apply list_find_Some in Hf. naive_solver. Qed.

Lemma taken_false {X} (name : X -> string) xs i n : taken name xs i n = false <-> n ∉ map name (remove_at xs i).
Proof.
  unfold taken. rewrite <- not_true_iff_false, existsb_exists, list_elem_of_fmap.
  setoid_rewrite <- list_elem_of_In. setoid_rewrite String.eqb_eq. naive_solver.
Qed.

Lemma remove_at_Permutation {X} (xs : list X) i x : xs !! i = Some x -> xs ≡ₚ x :: remove_at xs i.
Proof. intros H. unfold remove_at. rewrite <- delete_take_drop. by apply delete_Permutation. Qed.

Lemma insert_Permutation_at {X} (xs : list X) i x y : xs !! i = Some x -> <[i := y]> xs ≡ₚ y :: remove_at xs i.
Proof.
  intros H. rewrite insert_take_drop by (by eapply lookup_lt_Some). unfold remove_at. by rewrite Permutation_middle.
Qed.

Lemma name_at {X} (name : X -> string) xs i x n :
  xs !! i = Some x -> n ∈ map name xs <-> n = name x \/ n ∈ map name (remove_at xs i).
Proof. intros H. rewrite <- elem_of_cons. by rewrite (remove_at_Permutation xs i x H) at 1. Qed.

Lemma name_insert {X} (name : X -> string) xs i x y n :
  xs !! i = Some x -> n ∈ map name (<[i := y]> xs) <-> n = name y \/ n ∈ map name (remove_at xs i).
Proof. intros H. rewrite <- elem_of_cons. by rewrite (insert_Permutation_at xs i x y H). Qed.

(** Items that are normal, their names distinct. *)
Definition named {X} (ok : X -> Prop) (name : X -> string) (xs : list X) : Prop := Forall ok xs /\ NoDup (map name xs).

#[local] Instance named_Permutation {X} (ok : X -> Prop) (name : X -> string) : Proper ((≡ₚ) ==> iff) (named ok name).
Proof. intros xs ys H. unfold named. by rewrite H. Qed.

Lemma named_cons {X} (ok : X -> Prop) name x xs : named ok name (x :: xs) <-> ok x /\ name x ∉ map name xs /\ named ok name xs.
Proof. unfold named. simpl. rewrite Forall_cons, NoDup_cons. naive_solver. Qed.

Lemma named_add {X} (ok : X -> Prop) name xs x :
  named ok name xs -> ok x -> index_of name xs (name x) = None -> named ok name (xs ++ [x]).
Proof. intros Hn Hx Hi%index_of_None. rewrite <- Permutation_cons_append, named_cons. done. Qed.

Lemma named_remove {X} (ok : X -> Prop) name xs i x : xs !! i = Some x -> named ok name xs -> named ok name (remove_at xs i).
Proof. intros Hi H. rewrite (remove_at_Permutation _ _ _ Hi) in H. apply named_cons in H. tauto. Qed.

Lemma named_update {X} (ok : X -> Prop) name xs i x y :
  xs !! i = Some x -> named ok name xs -> ok y -> taken name xs i (name y) = false -> named ok name (<[i := y]> xs).
Proof.
  intros Hi Hn Hy Ht%taken_false. rewrite (insert_Permutation_at _ _ _ _ Hi), named_cons.
  eauto using named_remove.
Qed.

Section automation.
Context (compile : string -> option (string -> bool)).

(** ** Validation *)

Definition NormalizeAgent (a : Agent) : result auto_error Agent :=
  let name := TrimSpace (ag_name a) in
  if String.eqb name "" then Err AgentNameEmpty
  else
    let command := TrimSpace (ag_command a) in
    let command := if String.eqb command "" then TrimSpace DefaultAgentCommand else command in
    let backend := if String.eqb (ag_backend a) "" then BackendDevcontainer else ag_backend a in
    if negb (ValidateBackendType backend) then Err BackendInvalid
    else
      let cluster := TrimSpace (ag_kubeCluster a) in
      let agent cluster := MkAgent name command (ag_systemPrompt a) backend cluster in
      if negb (String.eqb backend BackendKubernetes) then Ok (agent "")
      else if String.eqb cluster "" then Err ClusterMissing
      else if ContainsAny cluster (String " "%char (String (byte 9) (String nl "/"))) then Err ClusterInvalid
      else Ok (agent cluster).

Definition NormalizeAgents (raws : list Agent) : result auto_error (list Agent) :=
  if (maxAutomationListLen <? length raws)%nat then Err TooManyAgents
  else norm_list NormalizeAgent ag_name DuplicateAgent [] raws.

(** The references of a trigger: blanks and repeats dropped. *)
Fixpoint norm_refs (known : list string) (seen : list string) (names : list string) : result auto_error (list string) :=
  match names with
  | [] => Ok []
  | name :: rest =>
      let name := TrimSpace name in
      if String.eqb name "" then norm_refs known seen rest
      else if bool_decide (name ∈ seen) then norm_refs known seen rest
      else if negb (bool_decide (name ∈ known)) then Err (UnknownAgent name)
      else let? names := norm_refs known (name :: seen) rest in Ok (name :: names)
  end.

(** The fields of a trigger's type: the others are cleared. *)
Definition norm_kind (t : Trigger) : result auto_error Trigger :=
  let fields cron script hook filter regex path value :=
    MkTrigger (tr_name t) (tr_type t) (tr_agentNames t) (tr_prompt t) cron script hook filter regex path value (tr_disabled t) in
  if String.eqb (tr_type t) TriggerSchedule then
    let cron := TrimSpace (tr_cron t) in
    match ValidateCron cron with
    | Some e => Err (CronInvalid e)
    | None => Ok (fields cron "" "" "" "" "" "")
    end
  else if String.eqb (tr_type t) TriggerBash then
    let cron := TrimSpace (tr_cron t) in
    match ValidateCron cron with
    | Some e => Err (CronInvalid e)
    | None =>
        let script := TrimSpace (tr_script t) in
        if String.eqb script "" then Err ScriptEmpty else Ok (fields cron script "" "" "" "" "")
    end
  else if String.eqb (tr_type t) TriggerWebhook then
    let hook := TrimSpace (tr_webhookName t) in
    if String.eqb hook "" then Err WebhookNameEmpty
    else if String.eqb (tr_filterType t) WebhookFilterRegex then
      let regex := TrimSpace (tr_regex t) in
      if String.eqb regex "" then Err RegexEmpty
      else match compile regex with
           | None => Err RegexInvalid
           | Some _ => Ok (fields "" "" hook (tr_filterType t) regex "" "")
           end
    else if String.eqb (tr_filterType t) WebhookFilterJSONPath then
      let path := TrimSpace (tr_jsonPath t) in
      if String.eqb path "" then Err JSONPathEmpty
      else if negb (ValidateJSONPath path) then Err JSONPathInvalid
      else Ok (fields "" "" hook (tr_filterType t) "" path (TrimSpace (tr_jsonValue t)))
    else Err FilterInvalid
  else Err TypeInvalid.

Definition set_refs (t : Trigger) (name : string) (refs : list string) : Trigger :=
  MkTrigger name (tr_type t) refs (tr_prompt t) (tr_cron t) (tr_script t) (tr_webhookName t) (tr_filterType t)
    (tr_regex t) (tr_jsonPath t) (tr_jsonValue t) (tr_disabled t).

Definition NormalizeTrigger (known : list string) (t : Trigger) : result auto_error Trigger :=
  let name := TrimSpace (tr_name t) in
  if String.eqb name "" then Err TriggerNameEmpty
  else if bool_decide (tr_agentNames t = []) then Err NoAgents
  else
    let? refs := norm_refs known [] (tr_agentNames t) in
    if bool_decide (refs = []) then Err NoAgents else norm_kind (set_refs t name refs).

Definition agentNameSet (agents : list Agent) : list string := map ag_name agents.

Definition NormalizeTriggers (raws : list Trigger) (agents : list Agent) : result auto_error (list Trigger) :=
  if (maxAutomationListLen <? length raws)%nat then Err TooManyTriggers
  else norm_list (NormalizeTrigger (agentNameSet agents)) tr_name DuplicateTrigger [] raws.

(** ** Edits *)

Record FleetSettings := MkSettings { st_agents : list Agent; st_triggers : list Trigger }.

Definition indexOfAgent : list Agent -> string -> option nat := index_of ag_name.
Definition indexOfTrigger : list Trigger -> string -> option nat := index_of tr_name.

Definition FindAgent (agents : list Agent) (name : string) : option Agent :=
  match indexOfAgent agents name with Some i => agents !! i | None => None end.
Definition FindTrigger (triggers : list Trigger) (name : string) : option Trigger :=
  match indexOfTrigger triggers name with Some i => triggers !! i | None => None end.

Definition AddAgent (s : FleetSettings) (a : Agent) : result auto_error FleetSettings :=
  let? norm := NormalizeAgent a in
  match indexOfAgent (st_agents s) (ag_name norm) with
  | Some _ => Err (AgentExists (ag_name norm))
  | None => Ok (MkSettings (st_agents s ++ [norm]) (st_triggers s))
  end.

Definition rename_ref (old new n : string) : string := if String.eqb n old then new else n.

Definition renameAgentInTriggers (triggers : list Trigger) (old new : string) : list Trigger :=
  map (fun t => set_refs t (tr_name t) (map (rename_ref old new) (tr_agentNames t))) triggers.

Definition UpdateAgent (s : FleetSettings) (name : string) (updated : Agent) : result auto_error FleetSettings :=
  match indexOfAgent (st_agents s) name with
  | None => Err (AgentNotFound name)
  | Some i =>
      let? norm := NormalizeAgent updated in
      if taken ag_name (st_agents s) i (ag_name norm) then Err (AgentExists (ag_name norm))
      else
        let old := match st_agents s !! i with Some a => ag_name a | None => "" end in
        Ok (MkSettings (<[i := norm]> (st_agents s))
              (if negb (String.eqb old (ag_name norm)) then renameAgentInTriggers (st_triggers s) old (ag_name norm)
               else st_triggers s))
  end.

Definition DeleteAgent (s : FleetSettings) (name : string) : result auto_error FleetSettings :=
  match indexOfAgent (st_agents s) name with
  | None => Err (AgentNotFound name)
  | Some i =>
      match find (fun t => bool_decide (name ∈ tr_agentNames t)) (st_triggers s) with
      | Some t => Err (AgentReferenced name (tr_name t))
      | None => Ok (MkSettings (remove_at (st_agents s) i) (st_triggers s))
      end
  end.

Definition AddTrigger (s : FleetSettings) (t : Trigger) : result auto_error FleetSettings :=
  let? norm := NormalizeTrigger (agentNameSet (st_agents s)) t in
  match indexOfTrigger (st_triggers s) (tr_name norm) with
  | Some _ => Err (TriggerExists (tr_name norm))
  | None => Ok (MkSettings (st_agents s) (st_triggers s ++ [norm]))
  end.

Definition UpdateTrigger (s : FleetSettings) (name : string) (updated : Trigger) : result auto_error FleetSettings :=
  match indexOfTrigger (st_triggers s) name with
  | None => Err (TriggerNotFound name)
  | Some i =>
      let? norm := NormalizeTrigger (agentNameSet (st_agents s)) updated in
      if taken tr_name (st_triggers s) i (tr_name norm) then Err (TriggerExists (tr_name norm))
      else Ok (MkSettings (st_agents s) (<[i := norm]> (st_triggers s)))
  end.

Definition DeleteTrigger (s : FleetSettings) (name : string) : result auto_error FleetSettings :=
  match indexOfTrigger (st_triggers s) name with
  | None => Err (TriggerNotFound name)
  | Some i => Ok (MkSettings (st_agents s) (remove_at (st_triggers s) i))
  end.

(** An edit of any of the editors. *)
Inductive edit :=
| EAddAgent (a : Agent) | EUpdateAgent (name : string) (a : Agent) | EDeleteAgent (name : string)
| EAddTrigger (t : Trigger) | EUpdateTrigger (name : string) (t : Trigger) | EDeleteTrigger (name : string).

Definition run_edit (s : FleetSettings) (e : edit) : result auto_error FleetSettings :=
  match e with
  | EAddAgent a => AddAgent s a
  | EUpdateAgent n a => UpdateAgent s n a
  | EDeleteAgent n => DeleteAgent s n
  | EAddTrigger t => AddTrigger s t
  | EUpdateTrigger n t => UpdateTrigger s n t
  | EDeleteTrigger n => DeleteTrigger s n
  end.

(** An editor applies its edits in turn and keeps the settings when one fails. *)
Definition try_edit (s : FleetSettings) (e : edit) : FleetSettings :=
  match run_edit s e with Ok s' => s' | Err _ => s end.

(** What the server's validation returns unchanged. *)
Definition normalized (s : FleetSettings) : Prop :=
  NormalizeAgents (st_agents s) = Ok (st_agents s) /\
  NormalizeTriggers (st_triggers s) (st_agents s) = Ok (st_triggers s).

(** *** The server's check of settings sent to it *)

(** The agents and triggers of normalizeFleetSettings. *)
Definition normalizeFleetSettings (s : FleetSettings) : result auto_error FleetSettings :=
  let? agents := NormalizeAgents (st_agents s) in
  let? triggers := NormalizeTriggers (st_triggers s) agents in
  Ok (MkSettings agents triggers).

(** checkAgentClusters; [connected] is whether the daemon has a connection. *)
Fixpoint checkAgentClusters (connected : string -> bool) (prev next : list Agent) : result auto_error unit :=
  match next with
  | [] => Ok tt
  | a :: rest =>
      let target := Agent_DeployTarget a in
      if negb (String.eqb (dt_backend target) BackendKubernetes) then checkAgentClusters connected prev rest
      else if match FindAgent prev (ag_name a) with Some old => bool_decide (Agent_DeployTarget old = target) | None => false end
      then checkAgentClusters connected prev rest
      else if negb (connected (dt_kubeCluster target)) then Err (AgentNotConnected (ag_name a) (dt_kubeCluster target))
      else checkAgentClusters connected prev rest
  end.

(** The agents and triggers of SetFleetSettings, over those the fleet has. *)
Definition SetFleetSettings (connected : string -> bool) (prev sent : FleetSettings) : result auto_error FleetSettings :=
  let? settings := normalizeFleetSettings sent in
  let? _ := checkAgentClusters connected (st_agents prev) (st_agents settings) in
  Ok settings.

(** An agent that may be on its target: not on a cluster, on a connected one, or where
    the fleet has it already. *)
Definition placed (connected : string -> bool) (prev : list Agent) (a : Agent) : Prop :=
  dt_backend (Agent_DeployTarget a) = BackendKubernetes ->
  connected (dt_kubeCluster (Agent_DeployTarget a)) = true \/
  exists old, FindAgent prev (ag_name a) = Some old /\ Agent_DeployTarget old = Agent_DeployTarget a.

(** ** Normal forms *)

#[local] Opaque TrimSpace ValidateCron ValidateJSONPath String.eqb ContainsAny ValidateBackendType.

(** The command and the backend an agent runs with. *)
Definition command_of (s : string) : string :=
  if String.eqb (TrimSpace s) "" then TrimSpace DefaultAgentCommand else TrimSpace s.
Definition backend_of (b : string) : string := if String.eqb b "" then BackendDevcontainer else b.

Lemma command_of_idem s : command_of (command_of s) = command_of s.
Proof.
  unfold command_of. destruct (String.eqb (TrimSpace s) "") eqn:E; rewrite TrimSpace_idem, ?E; [|done].
  by destruct (String.eqb (TrimSpace DefaultAgentCommand) "").
Qed.

Lemma backend_of_idem b : backend_of (backend_of b) = backend_of b.
Proof. unfold backend_of. destruct (String.eqb b "") eqn:E; [done|by rewrite E]. Qed.

Lemma NormalizeAgent_idem a a' : NormalizeAgent a = Ok a' -> NormalizeAgent a' = Ok a'.
Proof.
  unfold NormalizeAgent. fold (command_of (ag_command a)) (backend_of (ag_backend a)).
  fold (command_of (ag_command a')) (backend_of (ag_backend a')).
  destruct (String.eqb (TrimSpace (ag_name a)) "") eqn:En; [done|].
  destruct (ValidateBackendType (backend_of (ag_backend a))) eqn:Eb; [|done].
  destruct (String.eqb (backend_of (ag_backend a)) BackendKubernetes) eqn:Ek; simpl.
  - destruct (String.eqb (TrimSpace (ag_kubeCluster a)) "") eqn:Ec; [done|].
    destruct (ContainsAny _ _) eqn:Ea; [done|]. intros [= <-]. simpl.
    by rewrite !TrimSpace_idem, command_of_idem, backend_of_idem, En, Eb, Ek, Ec, Ea.
  - intros [= <-]. simpl. by rewrite !TrimSpace_idem, command_of_idem, backend_of_idem, En, Eb, Ek.
Qed.

Lemma norm_kind_frame t t' : norm_kind t = Ok t' -> tr_name t' = tr_name t /\ tr_agentNames t' = tr_agentNames t.
Proof.
  unfold norm_kind. intros H. repeat (break_if_in H || break_match_in H); by simplify_eq.
Qed.

(** The fields of the type are in normal form, whatever the name and the references. *)
Lemma norm_kind_idem t t' n refs : norm_kind t = Ok t' -> norm_kind (set_refs t' n refs) = Ok (set_refs t' n refs).
Proof.
  unfold norm_kind. intros H. repeat (break_if_in H || break_match_in H); simplify_eq; simpl;
    rewrite ?TrimSpace_idem; repeat (match goal with E : _ = _ |- _ => rewrite E; clear E end; simpl); done.
Qed.

(** References as validation leaves them. *)
Definition good_refs (known seen refs : list string) : Prop :=
  NoDup refs /\ Forall (fun n => TrimSpace n = n /\ n <> "" /\ n ∈ known /\ n ∉ seen) refs.

Lemma norm_refs_good known seen names refs : norm_refs known seen names = Ok refs -> good_refs known seen refs.
Proof.
  revert seen refs. induction names as [|n names IH]; intros seen refs; simpl.
  { intros [= <-]. split; constructor. }
  destruct (String.eqb (TrimSpace n) "") eqn:?; [apply IH|].
  destruct (bool_decide (TrimSpace n ∈ seen)) eqn:?; [apply IH|].
  destruct (bool_decide (TrimSpace n ∈ known)) eqn:?; simpl; [|done].
  intros (refs' & Hr & [= <-])%rbind_ok. apply IH in Hr as [Hnd Hall]. bool_hyps. split.
  - constructor; [|done]. intros Hin. rewrite Forall_forall in Hall. set_solver.
  - constructor; [by rewrite TrimSpace_idem|]. eapply Forall_impl; [done|]. set_solver.
Qed.

Lemma norm_refs_fix known seen refs : good_refs known seen refs -> norm_refs known seen refs = Ok refs.
Proof.
  revert seen. induction refs as [|n refs IH]; intros seen [Hnd Hall]; [done|]. inversion Hnd; inversion Hall; subst.
  destruct_and!. simpl. rewrite (bool_decide_eq_false_2 (TrimSpace n ∈ seen)), (bool_decide_eq_true_2 (TrimSpace n ∈ known)) by congruence.
  replace (TrimSpace n) with n by done. destruct (String.eqb_spec n ""); [done|]. simpl. rewrite IH; [done|].
  split; [done|]. rewrite !Forall_forall in *. set_solver.
Qed.

(** A trigger as validation leaves it. *)
Record trigger_ok (known : list string) (t : Trigger) : Prop := {
  tok_name : TrimSpace (tr_name t) = tr_name t;
  tok_named : tr_name t <> "";
  tok_some : tr_agentNames t <> [];
  tok_refs : good_refs known [] (tr_agentNames t);
  tok_kind : norm_kind t = Ok t
}.

Lemma set_refs_same t : set_refs t (tr_name t) (tr_agentNames t) = t.
Proof. by destruct t. Qed.

Lemma NormalizeTrigger_ok known t t' : NormalizeTrigger known t = Ok t' -> trigger_ok known t'.
Proof.
  unfold NormalizeTrigger. destruct (String.eqb _ _) eqn:En; [done|].
  destruct (bool_decide (tr_agentNames t = [])) eqn:E1; [done|].
  intros (refs & Hrefs & H)%rbind_ok. destruct (bool_decide (refs = [])) eqn:E2; [done|]. bool_hyps.
  destruct (norm_kind_frame _ _ H) as [Hn Hr]. simpl in Hn, Hr.
  split; rewrite ?Hn, ?Hr; [apply TrimSpace_idem|done|done|by eapply norm_refs_good|].
  pose proof (norm_kind_idem _ _ (tr_name t') (tr_agentNames t') H) as Hi. by rewrite set_refs_same in Hi.
Qed.

Lemma NormalizeTrigger_fix known t : trigger_ok known t -> NormalizeTrigger known t = Ok t.
Proof.
  intros [Hn Hne Hs Hr Hk]. unfold NormalizeTrigger. rewrite Hn. destruct (String.eqb_spec (tr_name t) ""); [done|].
  rewrite (bool_decide_eq_false_2 (tr_agentNames t = [])) by done. rewrite norm_refs_fix by done. simpl.
  by rewrite (bool_decide_eq_false_2 (tr_agentNames t = [])), set_refs_same by done.
Qed.

Lemma trigger_ok_known known known' t :
  (forall n, n ∈ tr_agentNames t -> n ∈ known -> n ∈ known') -> trigger_ok known t -> trigger_ok known' t.
Proof.
  intros Hk [?? ? [Hnd Hall] ?]. split; try done. split; [done|]. rewrite Forall_forall in *. naive_solver.
Qed.

(** ** The settings under edits *)

Definition agents_ok (agents : list Agent) : Prop := named (fun a => NormalizeAgent a = Ok a) ag_name agents.
Definition triggers_ok (agents : list Agent) : list Trigger -> Prop :=
  named (trigger_ok (agentNameSet agents)) tr_name.

(** The settings but for the length of the lists. *)
Definition settings_ok (s : FleetSettings) : Prop :=
  agents_ok (st_agents s) /\ triggers_ok (st_agents s) (st_triggers s).

Lemma NormalizeAgents_iff agents :
  NormalizeAgents agents = Ok agents <-> agents_ok agents /\ (length agents <= maxAutomationListLen)%nat.
Proof.
  unfold NormalizeAgents. destruct (Nat.ltb_spec maxAutomationListLen (length agents)); split; try (intros; done || lia).
  - intros H'. apply norm_list_inv in H' as (? & ? & _); [done|]. apply NormalizeAgent_idem.
  - intros [[Hall Hnd] _]. apply norm_list_fix; set_solver.
Qed.

Lemma NormalizeTriggers_iff triggers agents :
  NormalizeTriggers triggers agents = Ok triggers <->
  triggers_ok agents triggers /\ (length triggers <= maxAutomationListLen)%nat.
Proof.
  unfold NormalizeTriggers. destruct (Nat.ltb_spec maxAutomationListLen (length triggers)); split; try (intros; done || lia).
  - intros H'. apply norm_list_inv in H' as (Hall & ? & _); [|eauto using NormalizeTrigger_fix, NormalizeTrigger_ok].
    split; [split|]; try done. eapply Forall_impl; [exact Hall|]. intros t. apply NormalizeTrigger_ok.
  - intros [[Hall Hnd] _]. apply norm_list_fix; [|done|set_solver]. eapply Forall_impl; [exact Hall|]. intros t. apply NormalizeTrigger_fix.
Qed.

Lemma triggers_ok_known agents agents' triggers :
  (forall t n, t ∈ triggers -> n ∈ tr_agentNames t -> n ∈ agentNameSet agents -> n ∈ agentNameSet agents') ->
  triggers_ok agents triggers -> triggers_ok agents' triggers.
Proof.
  intros Hk [Hall Hnd]. split; [|done]. rewrite Forall_forall in *. intros t Ht.
  eapply trigger_ok_known; [intros n; by apply Hk|by apply Hall].
Qed.

(** Renaming a reference to a name no reference had. *)
Lemma good_refs_rename known known' old new refs :
  TrimSpace new = new -> new <> "" -> new ∈ known' -> new ∉ refs ->
  (forall n, n ∈ known -> n <> old -> n ∈ known') ->
  good_refs known [] refs -> good_refs known' [] (map (rename_ref old new) refs).
Proof.
  intros Ht Hne Hin Hnew Hk [Hnd Hall]. split.
  - apply NoDup_fmap_2_strong; [|done]. unfold rename_ref. intros x y Hx Hy.
    destruct (String.eqb_spec x old), (String.eqb_spec y old); congruence.
  - rewrite Forall_forall in *. intros n (m & -> & Hm)%list_elem_of_fmap. unfold rename_ref.
    destruct (String.eqb_spec m old); [set_solver|]. specialize (Hall m Hm). naive_solver.
Qed.

Lemma rename_nil f (refs : list string) : refs <> [] -> map (f : string -> string) refs <> [].
Proof. by destruct refs. Qed.

Lemma trigger_ok_rename known known' old new t :
  TrimSpace new = new -> new <> "" -> new ∈ known' -> new ∉ tr_agentNames t ->
  (forall n, n ∈ known -> n <> old -> n ∈ known') ->
  trigger_ok known t -> trigger_ok known' (set_refs t (tr_name t) (map (rename_ref old new) (tr_agentNames t))).
Proof.
  intros Ht Hne Hin Hnew Hk [????]. split; simpl; try done; eauto using rename_nil, norm_kind_idem.
  by eapply good_refs_rename.
Qed.

Lemma NormalizeAgent_name a a' : NormalizeAgent a = Ok a' -> TrimSpace (ag_name a') = ag_name a' /\ ag_name a' <> "".
Proof.
  unfold NormalizeAgent. destruct (String.eqb_spec (TrimSpace (ag_name a)) ""); [done|].
  destruct (negb (ValidateBackendType _)); [done|]. destruct (negb _).
  - intros [= <-]. simpl. by rewrite TrimSpace_idem.
  - destruct (String.eqb _ _); [done|]. destruct (ContainsAny _ _); [done|]. intros [= <-]. simpl. by rewrite TrimSpace_idem.
Qed.

Lemma ref_known known t n : trigger_ok known t -> n ∈ tr_agentNames t -> n ∈ known.
Proof. intros [??? [_ Hall] ?] Hn. rewrite Forall_forall in Hall. by apply Hall. Qed.

Lemma AddAgent_ok s a s' : settings_ok s -> AddAgent s a = Ok s' -> settings_ok s'.
Proof.
  intros [Ha Ht] (norm & Hn & H)%rbind_ok. unfold indexOfAgent in H. destruct (index_of _ _ _) eqn:E; [done|].
  injection H as <-. split; simpl; [by apply named_add; [done|eapply NormalizeAgent_idem|]|].
  eapply triggers_ok_known; [|exact Ht]. intros t n _ _. unfold agentNameSet. rewrite map_app. set_solver.
Qed.

Lemma DeleteAgent_ok s n s' : settings_ok s -> DeleteAgent s n = Ok s' -> settings_ok s'.
Proof.
  intros [Ha Ht]. unfold DeleteAgent, indexOfAgent. destruct (index_of _ _ _) as [i|] eqn:E; [|done].
  destruct (find _ _) eqn:Ef; [done|]. intros [= <-]. apply index_of_Some in E as (x & Hx & Hn).
  split; simpl; [by eapply named_remove|]. eapply triggers_ok_known; [|exact Ht]. intros t m Htr Hm.
  unfold agentNameSet. rewrite (name_at _ _ _ _ _ Hx). intros [->|?]; [|done].
  apply list_elem_of_In in Htr. pose proof (find_none _ _ Ef t Htr) as Hf. apply bool_decide_eq_false in Hf. by rewrite Hn in Hm.
Qed.

Lemma UpdateAgent_ok s n a s' : settings_ok s -> UpdateAgent s n a = Ok s' -> settings_ok s'.
Proof.
  intros [Ha Ht]. unfold UpdateAgent, indexOfAgent. destruct (index_of _ _ _) as [i|] eqn:E; [|done].
  intros (norm & Hnorm & H)%rbind_ok. destruct (taken _ _ _ _) eqn:Etk; [done|]. injection H as <-.
  apply index_of_Some in E as (x & Hx & _). rewrite Hx.
  split; simpl; [by eapply named_update; eauto using NormalizeAgent_idem|].
  assert (forall m, m ∈ agentNameSet (st_agents s) -> m <> ag_name x -> m ∈ agentNameSet (<[i := norm]> (st_agents s))) as Hk.
  { intros m. unfold agentNameSet. rewrite (name_insert _ _ _ _ _ _ Hx), (name_at _ _ _ _ _ Hx). tauto. }
  assert (ag_name norm ∈ agentNameSet (<[i := norm]> (st_agents s))) as Hin.
  { apply (name_insert _ _ _ _ _ _ Hx). by left. }
  destruct (String.eqb_spec (ag_name x) (ag_name norm)) as [Eq|Ne]; simpl.
  - eapply triggers_ok_known; [|exact Ht]. intros t m _ _ Hm. destruct (decide (m = ag_name x)) as [->|]; [by rewrite Eq|auto].
  - destruct Ht as [Hall Hnd]. destruct (NormalizeAgent_name _ _ Hnorm) as [Htrim Hne]. unfold renameAgentInTriggers. split.
    + rewrite Forall_map. rewrite Forall_forall in *. intros t Htr. eapply trigger_ok_rename; eauto.
      intros Hr%(ref_known _ _ _ (Hall t Htr)). apply taken_false in Etk. apply (name_at _ _ _ _ _ Hx) in Hr as [?|?]; done.
    + by rewrite map_map.
Qed.

Lemma AddTrigger_ok s t s' : settings_ok s -> AddTrigger s t = Ok s' -> settings_ok s'.
Proof.
  intros [Ha Ht] (norm & Hn & H)%rbind_ok. unfold indexOfTrigger in H. destruct (index_of _ _ _) eqn:E; [done|].
  injection H as <-. split; simpl; [done|]. apply named_add; [done|by eapply NormalizeTrigger_ok|done].
Qed.

Lemma UpdateTrigger_ok s n t s' : settings_ok s -> UpdateTrigger s n t = Ok s' -> settings_ok s'.
Proof.
  intros [Ha Ht]. unfold UpdateTrigger, indexOfTrigger. destruct (index_of _ _ _) as [i|] eqn:E; [|done].
  intros (norm & Hnorm & H)%rbind_ok. destruct (taken _ _ _ _) eqn:Etk; [done|]. injection H as <-.
  apply index_of_Some in E as (x & Hx & _). split; simpl; [done|].
  eapply named_update; [done|done|by eapply NormalizeTrigger_ok|done].
Qed.

Lemma DeleteTrigger_ok s n s' : settings_ok s -> DeleteTrigger s n = Ok s' -> settings_ok s'.
Proof.
  intros [Ha Ht]. unfold DeleteTrigger, indexOfTrigger. destruct (index_of _ _ _) as [i|] eqn:E; [|done].
  intros [= <-]. apply index_of_Some in E as (x & Hx & _). split; simpl; [done|]. by eapply named_remove.
Qed.

#[local] Hint Resolve AddAgent_ok UpdateAgent_ok DeleteAgent_ok AddTrigger_ok UpdateTrigger_ok DeleteTrigger_ok : core.

Lemma try_edits_ok es s : settings_ok s -> settings_ok (foldl try_edit s es).
Proof.
  revert s. induction es as [|e es IH]; intros s Hs; [done|]. apply IH. unfold try_edit.
  destruct (run_edit s e) eqn:E; [|done]. destruct e; simpl in E; eauto.
Qed.

Lemma checkAgentClusters_iff connected prev next : checkAgentClusters connected prev next = Ok tt <-> Forall (placed connected prev) next.
Proof.
  induction next as [|a next IH]; [by split|]. rewrite Forall_cons. cbn [checkAgentClusters]. unfold placed at 1.
  destruct (String.eqb_spec (dt_backend (Agent_DeployTarget a)) BackendKubernetes) as [E|]; cbn [negb]; [|tauto]. destruct (FindAgent prev (ag_name a)) as [old|].
  - case_bool_decide as Et; [rewrite IH; split; [intros; split; [intros _; right; by exists old|done]|tauto]|].
    destruct (connected _); cbn [negb]; [tauto|]. split; [done|]. intros [H _]. destruct (H E) as [?|(o & [= ->] & ?)]; done.
  - destruct (connected _); cbn [negb]; [tauto|]. split; [done|]. intros [H _]. destruct (H E) as [?|(o & ? & _)]; done.
Qed.

Lemma SetFleetSettings_same connected prev s : SetFleetSettings connected prev s = Ok s <-> normalized s /\ Forall (placed connected (st_agents prev)) (st_agents s).
Proof.
  rewrite <- checkAgentClusters_iff. unfold SetFleetSettings, normalizeFleetSettings, normalized. destruct s as [agents triggers]. cbn [st_agents st_triggers]. split.
  - intros (n & (ags & Ea & (trs & Et & [= <-])%rbind_ok)%rbind_ok & (u & Ec & [= -> ->])%rbind_ok)%rbind_ok. destruct u. done.
  - intros [[Ea Et] Ec]. rewrite Ea. cbn [rbind]. rewrite Et. cbn [rbind st_agents]. by rewrite Ec.
Qed.

(** C33: however an editor edits the settings a fleet has, with edits that fail leaving
    them alone, every reference of a trigger finds its agent, and the server takes the
    outcome's agents and triggers unchanged exactly when neither list is over the bound
    and each agent on a cluster is on a connected one or was on it before: no edit
    leaves a name twice, a reference to an agent gone or renamed, or an item the server
    would write otherwise. *)
Theorem edits_stay_accepted connected es s :
  normalized s ->
  let s' := foldl try_edit s es in
  (forall t n, t ∈ st_triggers s' -> n ∈ tr_agentNames t ->
     exists a, FindAgent (st_agents s') n = Some a /\ ag_name a = n) /\
  (SetFleetSettings connected s s' = Ok s' <->
     (length (st_agents s') <= maxAutomationListLen)%nat /\ (length (st_triggers s') <= maxAutomationListLen)%nat /\
     Forall (placed connected (st_agents s)) (st_agents s')).
Proof.
  intros [Ha Ht] s'. apply NormalizeAgents_iff in Ha as [Ha _]. apply NormalizeTriggers_iff in Ht as [Ht _].
  destruct (try_edits_ok es s (conj Ha Ht)) as [Ha' Ht']. fold s' in Ha', Ht'. split.
  - intros t n Htr Hn. destruct Ht' as [Hall _]. rewrite Forall_forall in Hall. apply (ref_known _ _ _ (Hall t Htr)) in Hn.
    unfold FindAgent, indexOfAgent. destruct (index_of _ _ _) as [i|] eqn:E; [by apply index_of_Some in E|].
    by apply index_of_None in E.
  - rewrite SetFleetSettings_same. unfold normalized. rewrite NormalizeAgents_iff, NormalizeTriggers_iff. tauto.
Qed.

(** The text a scalar is compared by. *)
Definition scalar_text (v : json) : option string :=
  match v with
  | JString s => Some s
  | JBool b => Some (if b then "true" else "false")
  | JNumber t => Some t
  | _ => None
  end.

Lemma jsonValueEquals_iff v e : jsonValueEquals v e = true <-> scalar_text v = Some e.
Proof. destruct v; simpl; rewrite ?String.eqb_eq; naive_solver. Qed.

Lemma norm_kind_webhook_path t t' gs :
  tr_type t = TriggerWebhook -> tr_filterType t = WebhookFilterJSONPath -> tr_jsonPath t = path_text gs ->
  Forall seg_ok gs -> norm_kind t = Ok t' ->
  tr_type t' = TriggerWebhook /\ tr_filterType t' = WebhookFilterJSONPath /\ tr_jsonPath t' = path_text gs /\
  tr_jsonValue t' = TrimSpace (tr_jsonValue t).
Proof.
  intros Hty Hf Hp Hok. unfold norm_kind. rewrite Hty, Hf, Hp, path_trimmed by done.
  replace (String.eqb TriggerWebhook TriggerSchedule) with false by (by symmetry; apply String.eqb_neq).
  replace (String.eqb TriggerWebhook TriggerBash) with false by (by symmetry; apply String.eqb_neq).
  replace (String.eqb WebhookFilterJSONPath WebhookFilterRegex) with false by (by symmetry; apply String.eqb_neq).
  rewrite !String.eqb_refl. destruct (String.eqb _ ""); [done|]. destruct (String.eqb _ ""); [done|].
  destruct (negb _); [done|]. intros [= <-]. done.
Qed.

(** ** Events *)

Context (decode : string -> option json).

Definition MatchesWebhook (t : Trigger) (body : string) : bool :=
  if negb (String.eqb (tr_type t) TriggerWebhook) then false
  else if String.eqb (tr_filterType t) WebhookFilterRegex then
    match compile (tr_regex t) with Some m => m body | None => false end
  else if String.eqb (tr_filterType t) WebhookFilterJSONPath then
    match decode body with
    | None => false
    | Some data =>
        match jsonPathLookup data (tr_jsonPath t) with
        | None => false
        | Some v => if String.eqb (tr_jsonValue t) "" then match v with JNull => false | _ => true end
                    else jsonValueEquals v (tr_jsonValue t)
        end
    end
  else false.

(** A webhook trigger filtering by a JSON path, in any of the documented
    spellings of the path, fires on an event exactly when the body is JSON, the
    path selects a value of it, and that value is the expected scalar (a number by
    its text); with no expected value, exactly when it selects something other
    than null. *)
Theorem webhook_fires_as_written known t t' gs body :
  NormalizeTrigger known t = Ok t' -> tr_type t = TriggerWebhook -> tr_filterType t = WebhookFilterJSONPath ->
  tr_jsonPath t = path_text gs -> Forall seg_ok gs -> gs <> [] ->
  MatchesWebhook t' body = true <->
  exists data v, decode body = Some data /\ selects data (map seg_token gs) v /\
    if String.eqb (TrimSpace (tr_jsonValue t)) "" then v <> JNull
    else scalar_text v = Some (TrimSpace (tr_jsonValue t)).
Proof.
  intros Hn Hty Hf Hp Hok Hne. unfold NormalizeTrigger in Hn. destruct (String.eqb _ ""); [done|].
  destruct (bool_decide _); [done|]. apply rbind_ok in Hn as (refs & _ & Hn). destruct (bool_decide _); [done|].
  apply (norm_kind_webhook_path _ _ gs) in Hn as (Hty' & Hf' & Hp' & Hv'); [|done..]. simpl in Hv'.
  unfold MatchesWebhook. rewrite Hty', Hf', Hp', Hv'. rewrite !String.eqb_refl. simpl.
  replace (String.eqb WebhookFilterJSONPath WebhookFilterRegex) with false by (by symmetry; apply String.eqb_neq).
  destruct (decode body) as [data|]; [|naive_solver].
  destruct (jsonPathLookup data (path_text gs)) as [v|] eqn:E.
  - apply jsonPathLookup_selects in E; [|done..]. assert (forall w, selects data (map seg_token gs) w -> w = v) as Hu.
    { intros w Hw. apply json_walk_selects in Hw, E. congruence. }
    destruct (String.eqb _ ""); rewrite ?jsonValueEquals_iff; [destruct v|]; naive_solver.
  - split; [done|]. intros (? & w & [= <-] & Hw & _). apply jsonPathLookup_selects in Hw; [congruence|done..].
Qed.

End automation.

(** ** Examples *)

Module AutomationExamples.
Definition literal (re : string) : option (string -> bool) := if ContainsAny re "(" then None else Some (fun body => String.eqb body re).
Definition event : string := "push".
Definition decode_event (body : string) : option json :=
  if String.eqb body event
  then Some (JObject [("action", JString "opened"); ("labels", JArray [JObject [("id", JNumber "5")]])]) else None.

Definition builder : Agent := MkAgent "builder" (TrimSpace DefaultAgentCommand) "be terse" BackendDevcontainer "".
Definition nightly : Trigger := MkTrigger "nightly" TriggerSchedule ["builder"] "build" "0 3 * * *" "" "" "" "" "" "" false.
Definition labelled : Trigger :=
  MkTrigger " labelled " TriggerWebhook [" runner "; "runner"] "triage" "stale" "" "gh" WebhookFilterJSONPath "" "$.labels[0]['id']" " 5 " false.

Definition settings : FleetSettings := MkSettings [builder] [nightly].
(** A rename, a trigger for the new name, a delete the trigger forbids, a cron that does not parse. *)
Definition edits : list edit :=
  [EUpdateAgent "builder" (MkAgent " runner" "" "be terse" "" "ignored"); EAddTrigger labelled; EDeleteAgent "runner";
   EUpdateTrigger "nightly" (MkTrigger "nightly" TriggerSchedule ["runner"] "" "0 3 * *" "" "" "" "" "" "" false)].
Definition outcome : FleetSettings :=
  MkSettings [MkAgent "runner" (TrimSpace DefaultAgentCommand) "be terse" BackendDevcontainer ""]
    [MkTrigger "nightly" TriggerSchedule ["runner"] "build" "0 3 * * *" "" "" "" "" "" "" false;
     MkTrigger "labelled" TriggerWebhook ["runner"] "triage" "" "" "gh" WebhookFilterJSONPath "" "$.labels[0]['id']" "5" false].

Lemma edits_stay_accepted_witness :
  normalized literal settings /\ foldl (try_edit literal) settings edits = outcome /\
  SetFleetSettings literal (fun _ => false) settings (foldl (try_edit literal) settings edits) = Ok (foldl (try_edit literal) settings edits).
Proof.
  assert (normalized literal settings) as Ha by (split; vm_compute; reflexivity).
  assert (foldl (try_edit literal) settings edits = outcome) as Ho by (vm_compute; reflexivity).
  split; [exact Ha|]. split; [exact Ho|].
  apply (edits_stay_accepted literal (fun _ => false) edits settings Ha). rewrite Ho. split; [vm_compute; lia|]. split; [vm_compute; lia|].
  apply Forall_cons. split; [intros Hb; vm_compute in Hb; discriminate|constructor].
Defined.

(** An agent moved to a cluster that is not connected is refused, one that is there stays. *)
Example moved_refused :
  let there := MkSettings [MkAgent "runner" "run" "" BackendKubernetes "prod"] [] in
  SetFleetSettings literal (fun _ => false) settings (MkSettings [MkAgent "builder" "run" "" BackendKubernetes "prod"] []) = Err (AgentNotConnected "builder" "prod") /\
  SetFleetSettings literal (fun _ => false) there there = Ok there.
Proof. vm_compute. done. Qed.

Definition labels_id : list segment := [SDot "labels"; SIndex 0; SQuoted "'"%char "id"].

Lemma webhook_fires_as_written_witness :
  exists t', NormalizeTrigger literal ["runner"] labelled = Ok t' /\ MatchesWebhook literal decode_event t' event = true.
Proof.
  destruct (NormalizeTrigger literal ["runner"] labelled) as [t'|e] eqn:E; [|vm_compute in E; discriminate].
  exists t'. split; [reflexivity|].
  apply (webhook_fires_as_written literal decode_event ["runner"] labelled t' labels_id event E);
    [reflexivity..|repeat constructor; try done; vm_compute; done|done|].
  exists (default JNull (decode_event event)), (JNumber "5"). split; [reflexivity|]. split; [|reflexivity].
  apply json_walk_selects. vm_compute. reflexivity.
Defined.
End AutomationExamples.
