(* ===== verification/FleetState.v ===== *)
(** * The daemon's records (internal/fleet: fleet.go, instance.go; internal/state/state.go; internal/server: schedule.go, kube_targets.go)

    Fleets with their settings and instances, the agents a trigger resolves to,
    and the quotas of a cluster connection. A fleet of the state is a record:
    the nil pointers a hand-edited state file could hold are left out. Of an
    instance and of a connection the fields the modelled code reads are kept. *)

From S2P Require Import Prelude GoStrings Automation.
Local Open Scope string_scope.
Local Open Scope Z_scope.
Local Open Scope list_scope.

(** ** Instances and fleets *)

Inductive InstanceStatus :=
| StatusCreating | StatusCloning | StatusRunning | StatusStopped | StatusFailed
| StatusStopping | StatusStarting | StatusDeleting | StatusRebuilding.

#[export] Instance InstanceStatus_eq_dec : EqDecision InstanceStatus.
Proof. solve_decision. Defined.

Record Instance_ := MkInstance {
  in_name : string;
  in_containerID : string;
  in_createdAt : Z;
  in_status : InstanceStatus;
  in_error : string;
  in_backend : string;
  in_automated : bool;
  in_kubeCluster : string;
  in_kubeKey : string
}.

Record Fleet := MkFleet { fl_settings : FleetSettings; fl_instances : list Instance_ }.

Definition State := gmap string Fleet.

Fixpoint get_instance (insts : list Instance_) (name : string) : option Instance_ :=
  match insts with
  | [] => None
  | i :: rest => if String.eqb (in_name i) name then Some i else get_instance rest name
  end.

Definition GetInstance (f : Fleet) (name : string) : option Instance_ := get_instance (fl_instances f) name.

Definition AddInstance (f : Fleet) (i : Instance_) : option Fleet :=
  match GetInstance f (in_name i) with
  | Some _ => None
  | None => Some (MkFleet (fl_settings f) (fl_instances f ++ [i]))
  end.

Fixpoint remove_instance (insts : list Instance_) (name : string) : option (list Instance_) :=
  match insts with
  | [] => None
  | i :: rest => if String.eqb (in_name i) name then Some rest else cons i <$> remove_instance rest name
  end.

Definition RemoveInstance (f : Fleet) (name : string) : option Fleet :=
  MkFleet (fl_settings f) <$> remove_instance (fl_instances f) name.

Definition findInstance (st : State) (fleetName instanceName : string) : option Instance_ :=
  match st !! fleetName with
  | None => None
  | Some f => GetInstance f instanceName
  end.

(** The agents of a trigger, in the order of its references, without the ones gone. *)
Definition agents_named (agents : list Agent) (names : list string) : list Agent :=
  omap (FindAgent agents) names.

Definition agentsForTrigger (f : option Fleet) (t : Trigger) : list Agent :=
  match f with
  | None => []
  | Some f => agents_named (st_agents (fl_settings f)) (tr_agentNames t)
  end.

(** ** Quotas of a connection *)

Record KubeCluster := MkKube {
  k_id : string;
  k_displayName : string;
  k_maxInstances : Z;
  k_maxTotalDisk : string;
  k_diskSize : string;
  k_automationMaxPerAgent : option Z
}.

Definition DefaultKubeDiskSize : string := "50Gi".
Definition DefaultKubeAutomationMaxPerAgent : Z := 4.

Definition GetDisplayName (k : KubeCluster) : string :=
  if String.eqb (k_displayName k) "" then k_id k else k_displayName k.

Definition AutomationRunLimit (k : KubeCluster) : Z :=
  match k_automationMaxPerAgent k with
  | None => DefaultKubeAutomationMaxPerAgent
  | Some n => Z.max n 0
  end.

Inductive quota_error :=
| NoConnection (id : string)
| TooManyInstances (name : string) (allowed used : Z)
| TooMuchDisk (name : string) (allowed : string) (count : Z).

(** An instance that counts against its connection: it has objects there. *)
Definition counts_on (id : string) (i : Instance_) : bool :=
  String.eqb (in_kubeCluster i) id && negb (String.eqb (in_kubeKey i) "") &&
  negb (bool_decide (in_status i = StatusDeleting)).

Definition used_in (id : string) (f : Fleet) : Z := Z.of_nat (length (filter (fun i => counts_on id i = true) (fl_instances f))).
Definition used_on (st : State) (id : string) : Z := map_sum (fun _ f => used_in id f) st.

Definition orDefaultString (s def : string) : string := if String.eqb s "" then def else s.

Section quota.
(** The connections on disk, and resource.ParseQuantity: the amount of a quantity. *)
Context (record : string -> option KubeCluster) (ParseQuantity : string -> option Z).

Definition quotaRoom (st : State) (id : string) (extra : Z) : option quota_error :=
  match record id with
  | None => Some (NoConnection id)
  | Some rec =>
      let used := extra + used_on st (k_id rec) in
      if (0 <? k_maxInstances rec) && (k_maxInstances rec <=? used)
      then Some (TooManyInstances (GetDisplayName rec) (k_maxInstances rec) used)
      else if String.eqb (k_maxTotalDisk rec) "" then None
      else match ParseQuantity (k_maxTotalDisk rec), ParseQuantity (orDefaultString (k_diskSize rec) DefaultKubeDiskSize) with
           | Some max, Some disk =>
               let total := disk + Z.max used 0 * disk in
               if max <? total then Some (TooMuchDisk (GetDisplayName rec) (k_maxTotalDisk rec) (used + 1)) else None
           | _, _ => None
           end
  end.

(** Room leaves both quotas kept with one more instance. *)
Lemma quotaRoom_room st id extra rec :
  record id = Some rec -> 0 <= extra -> quotaRoom st id extra = None ->
  (0 < k_maxInstances rec -> used_on st (k_id rec) + extra + 1 <= k_maxInstances rec) /\
  (forall max disk, k_maxTotalDisk rec <> "" -> ParseQuantity (k_maxTotalDisk rec) = Some max ->
     ParseQuantity (orDefaultString (k_diskSize rec) DefaultKubeDiskSize) = Some disk ->
     (used_on st (k_id rec) + extra + 1) * disk <= max).
Proof.
  intros Hr He. unfold quotaRoom. rewrite Hr.
  assert (0 <= used_on st (k_id rec)) as Hu.
  { apply map_sum_nonneg. intros k f _. unfold used_in. lia. }
  destruct ((0 <? k_maxInstances rec) && _) eqn:E; [done|].
  destruct (String.eqb_spec (k_maxTotalDisk rec) "") as [->|Hd].
  - intros _. split; [|done]. intros Hm. apply andb_false_iff in E as [E|E]; lia.
  - intros H. split; [intros Hm; apply andb_false_iff in E as [E|E]; lia|].
    intros max disk _ Hmax Hdisk. rewrite Hmax, Hdisk in H. destruct (Z.ltb_spec max (disk + Z.max (extra + used_on st (k_id rec)) 0 * disk)); [done|]. lia.
Qed.
End quota.

(** ** Lemmas *)

Lemma get_instance_Some insts n i : get_instance insts n = Some i -> i ∈ insts /\ in_name i = n.
Proof.
  induction insts as [|j insts IH]; simpl; [done|]. destruct (String.eqb_spec (in_name j) n).
  - intros [= <-]. set_solver.
  - intros [? ?]%IH. set_solver.
Qed.

Lemma FindAgent_Some agents n a : FindAgent agents n = Some a -> a ∈ agents /\ ag_name a = n.
Proof.
  unfold FindAgent, indexOfAgent. destruct (index_of _ _ _) as [i|] eqn:E; [|done]. intros H.
  apply index_of_Some in E as (x & Hx & Hn). assert (x = a) as -> by congruence. split; [exact (list_elem_of_lookup_2 _ _ _ Hx)|done].
Qed.

Lemma agents_named_names agents names : map ag_name (agents_named agents names) `sublist_of` names.
Proof.
  unfold agents_named. induction names as [|n names IH]; simpl; [constructor|].
  destruct (FindAgent agents n) as [a|] eqn:E; [|by constructor]. apply FindAgent_Some in E as [_ <-]. by constructor.
Qed.

(** The agents of a validated trigger have distinct names. *)
Lemma agentsForTrigger_NoDup compile known f t : trigger_ok compile known t -> NoDup (map ag_name (agentsForTrigger f t)).
Proof.
  intros [??? [Hnd _] ?]. destruct f as [f|]; [|constructor]. simpl.
  eapply sublist_NoDup; [exact Hnd|apply agents_named_names].
Qed.
