(* ===== verification/Limiter.v ===== *)
(** * The automation limiter (internal/server/automation_limits.go)

    What keeps automation on a cluster within the connection's limits: the runs
    of an agent that hold a slot, the creates under way on a connection, the last
    start of each trigger there, and the queues of the runs that wait. Runs are
    shared by pointer between the queues and the firing plans, so they live in a
    heap ([l_heap]) and are named by their index; a method that holds the lock for
    its whole body is one step. Times are nanoseconds; the zero time.Time of a
    result is [None]. *)

From S2P Require Import Prelude GoStrings Entry Automation FleetState.
Local Open Scope string_scope.
Local Open Scope Z_scope.
Local Open Scope list_scope.

Definition nul : ascii := byte 0.
Definition second : Z := 1000000000.
Definition automationQueueMax : Z := 20.
Definition automationQueueTTL : Z := 3600 * second.
Definition DefaultKubeAutomationFireInterval : Z := 30 * second.

(** ** Data *)

Record clusterLimits := MkLimits { cl_name : string; cl_interval : Z; cl_maxPerAgent : Z }.

(** What the limiter asks the daemon: [quota] gives the message of a refusal,
    [login] the text of one ("" when the agent may run). *)
Record runChecks := MkChecks {
  limits : string -> option clusterLimits;
  quota : option (State -> string -> Z -> option string);
  login : option (State -> string -> Agent -> string -> string)
}.

(** Why a run waits or is refused; each names one of the source's texts. *)
Inductive why :=
| WEarlier (agent : string)
| WAgentLimit (agent : string) (n : Z) (cluster : string)
| WInterval (cluster : string) (at_ interval : Z)
| WMessage (text : string)
| WGone (cluster : string)
| WNoAgent (agent : string)
| WNoTrigger (trigger : string)
| WDisabled (trigger : string)
| WNotFired (trigger agent : string)
| WStopped.

(** The message of a check; the empty one means there is nothing to wait for. *)
Definition message (s : string) : option why := if String.eqb s "" then None else Some (WMessage s).

Record triggerEvent := MkEvent {
  ev_kind : string;
  ev_triggerName : string;
  ev_firedAt : Z;
  ev_webhookName : string;
  ev_body : string
}.

Record queuedRun := MkRun {
  r_id : Z;
  r_firing : Z;
  r_fleet : string;
  r_trigger : string;
  r_agent : string;
  r_prompt : string;
  r_cluster : string;
  r_queuedAt : Z;
  r_why : option why;
  r_event : option triggerEvent;
  r_eventLog : string;
  r_pending : bool;
  r_def : Agent
}.

#[export] Instance queuedRun_inhabited : Inhabited queuedRun :=
  populate (MkRun 0 0 "" "" "" "" "" 0 None None "" false (MkAgent "" "" "" "" "")).

Definition reservation (r : queuedRun) : string := String "#"%char (Itoa (r_id r)).

Record startMark := MkMark { m_at : Z; m_firing : Z }.

Record automationLimiter := MkLimiter {
  l_heap : list queuedRun;
  l_seq : Z;
  l_queues : gmap string (list nat);
  l_starts : gmap string startMark;
  l_holds : gmap string (gset string);
  l_holder : gmap string string;
  l_creating : gmap string Z
}.

Definition newAutomationLimiter : automationLimiter := MkLimiter [] 0 ∅ ∅ ∅ ∅ ∅.

Record firingPlan := MkPlan {
  pl_fleet : string;
  pl_trigger : Trigger;
  pl_firing : Z;
  pl_direct : list Agent;
  pl_start : list nat;
  pl_queued : list nat;
  pl_refused : list (string * why);
  pl_dropped : option Z;
  pl_retryAfter : Z;
  pl_marks : gmap string (option startMark)
}.

Definition fired (p : firingPlan) : bool :=
  match pl_dropped p, pl_queued p with None, [] => true | _, _ => false end.

Definition agentKey (fleetName agentName : string) : string := fleetName +:+ String nul agentName.
Definition firedKey (fleetName triggerName : string) : string := fleetName +:+ String nul triggerName.
Definition startKey (fleetName triggerName cluster : string) : string :=
  fleetName +:+ String nul (triggerName +:+ String nul cluster).

Definition splitAgentKey (key : string) : string * string :=
  match cut_byte nul key with Some p => p | None => (key, "") end.

(** ** Fields *)

Definition run (l : automationLimiter) (p : nat) : queuedRun := l_heap l !!! p.
Definition queue (l : automationLimiter) (key : string) : list nat := default [] (l_queues l !! key).
Definition held (l : automationLimiter) (agent : string) : gset string := default ∅ (l_holds l !! agent).
Definition creating (l : automationLimiter) (cluster : string) : Z := default 0 (l_creating l !! cluster).

Definition set_run (p : nat) (f : queuedRun -> queuedRun) (l : automationLimiter) : automationLimiter :=
  MkLimiter (alter f p (l_heap l)) (l_seq l) (l_queues l) (l_starts l) (l_holds l) (l_holder l) (l_creating l).
Definition set_queues (q : gmap string (list nat)) (l : automationLimiter) : automationLimiter :=
  MkLimiter (l_heap l) (l_seq l) q (l_starts l) (l_holds l) (l_holder l) (l_creating l).
Definition set_starts (s : gmap string startMark) (l : automationLimiter) : automationLimiter :=
  MkLimiter (l_heap l) (l_seq l) (l_queues l) s (l_holds l) (l_holder l) (l_creating l).
Definition set_slots (h : gmap string (gset string)) (o : gmap string string) (l : automationLimiter) : automationLimiter :=
  MkLimiter (l_heap l) (l_seq l) (l_queues l) (l_starts l) h o (l_creating l).
Definition set_creating (c : gmap string Z) (l : automationLimiter) : automationLimiter :=
  MkLimiter (l_heap l) (l_seq l) (l_queues l) (l_starts l) (l_holds l) (l_holder l) c.
Definition set_seq (n : Z) (l : automationLimiter) : automationLimiter :=
  MkLimiter (l_heap l) n (l_queues l) (l_starts l) (l_holds l) (l_holder l) (l_creating l).
Definition next_seq (l : automationLimiter) : automationLimiter := set_seq (u64 (l_seq l + 1)) l.

(** A new run, at the end of the heap. *)
Definition alloc (r : queuedRun) (l : automationLimiter) : automationLimiter :=
  MkLimiter (l_heap l ++ [r]) (l_seq l) (l_queues l) (l_starts l) (l_holds l) (l_holder l) (l_creating l).

Definition with_why (w : option why) (r : queuedRun) : queuedRun :=
  MkRun (r_id r) (r_firing r) (r_fleet r) (r_trigger r) (r_agent r) (r_prompt r) (r_cluster r) (r_queuedAt r) w
    (r_event r) (r_eventLog r) (r_pending r) (r_def r).
Definition with_pending (b : bool) (r : queuedRun) : queuedRun :=
  MkRun (r_id r) (r_firing r) (r_fleet r) (r_trigger r) (r_agent r) (r_prompt r) (r_cluster r) (r_queuedAt r) (r_why r)
    (r_event r) (r_eventLog r) b (r_def r).
Definition with_event (e : option triggerEvent) (log : string) (r : queuedRun) : queuedRun :=
  MkRun (r_id r) (r_firing r) (r_fleet r) (r_trigger r) (r_agent r) (r_prompt r) (r_cluster r) (r_queuedAt r) (r_why r)
    e log (r_pending r) (r_def r).
Definition with_cluster (c : string) (r : queuedRun) : queuedRun :=
  MkRun (r_id r) (r_firing r) (r_fleet r) (r_trigger r) (r_agent r) (r_prompt r) c (r_queuedAt r) (r_why r)
    (r_event r) (r_eventLog r) (r_pending r) (r_def r).
Definition with_def (a : Agent) (r : queuedRun) : queuedRun :=
  MkRun (r_id r) (r_firing r) (r_fleet r) (r_trigger r) (r_agent r) (r_prompt r) (r_cluster r) (r_queuedAt r) (r_why r)
    (r_event r) (r_eventLog r) (r_pending r) a.

(** ** Slots *)

Definition holdLocked (agent holder : string) (l : automationLimiter) : automationLimiter :=
  set_slots (<[agent := {[holder]} ∪ held l agent]> (l_holds l)) (<[holder := agent]> (l_holder l)) l.

Definition hold (fleetName agentName holder : string) (l : automationLimiter) : automationLimiter :=
  if String.eqb agentName "" then l else holdLocked (agentKey fleetName agentName) holder l.

Definition releaseLocked (holder : string) (l : automationLimiter) : automationLimiter :=
  match l_holder l !! holder with
  | None => l
  | Some agent =>
      let left := held l agent ∖ {[holder]} in
      set_slots (if bool_decide (left = ∅) then delete agent (l_holds l) else <[agent := left]> (l_holds l))
        (delete holder (l_holder l)) l
  end.

Definition release : string -> automationLimiter -> automationLimiter := releaseLocked.

Definition creatingDoneLocked (cluster : string) (l : automationLimiter) : automationLimiter :=
  set_creating (if 1 <? creating l cluster then <[cluster := creating l cluster - 1]> (l_creating l)
                else delete cluster (l_creating l)) l.

(** ** Deciding a run *)

Definition refusal (c : runChecks) (st : State) (fleetName : string) (ag : Agent) : option why :=
  let cluster := dt_kubeCluster (Agent_DeployTarget ag) in
  match limits c cluster with
  | None => Some (WGone cluster)
  | Some lim => match login c with Some f => message (f st fleetName ag (cl_name lim)) | None => None end
  end.

Definition no_limits : clusterLimits := MkLimits "" 0 0.

(** An earlier run of the agent waits: in the set given, or in the queue. *)
Definition blocked_by (l : automationLimiter) (r : queuedRun) (blocked : option (gset string)) : bool :=
  match blocked with
  | Some b => bool_decide (r_agent r ∈ b)
  | None => existsb (fun q => String.eqb (r_agent (run l q)) (r_agent r) && (r_id (run l q) <? r_id r))
              (queue l (firedKey (r_fleet r) (r_trigger r)))
  end.

Definition quota_wait (c : runChecks) (l : automationLimiter) (st : State) (cluster : string) (extra : Z) : option string :=
  match quota c with Some q => q st cluster (creating l cluster + extra) | None => None end.

Definition waitLocked (c : runChecks) (l : automationLimiter) (st : State) (r : queuedRun) (extra : Z)
    (blocked : option (gset string)) (now : Z) : option why * option Z :=
  let lim := default no_limits (limits c (r_cluster r)) in
  let n := Z.of_nat (size (held l (agentKey (r_fleet r) (r_agent r)))) in
  if blocked_by l r blocked then (Some (WEarlier (r_agent r)), None)
  else if (0 <? cl_maxPerAgent lim) && (cl_maxPerAgent lim <=? n) then (Some (WAgentLimit (r_agent r) n (cl_name lim)), None)
  else match quota_wait c l st (r_cluster r) extra with
  | Some msg => (message msg, None)
  | None =>
      if 0 <? cl_interval lim then
        match l_starts l !! startKey (r_fleet r) (r_trigger r) (r_cluster r) with
        | Some m =>
            if negb (m_firing m =? r_firing r) && (now <? m_at m + cl_interval lim)
            then (Some (WInterval (cl_name lim) (m_at m) (cl_interval lim)), Some (m_at m + cl_interval lim))
            else (None, None)
        | None => (None, None)
        end
      else (None, None)
  end.

(** The marks a plan saves, once per key. *)
Definition save_mark (l : automationLimiter) (sk : string) (marks : gmap string (option startMark)) : gmap string (option startMark) :=
  match marks !! sk with
  | Some _ => marks
  | None => <[sk := l_starts l !! sk]> marks
  end.

Definition reserveLocked (now : Z) (p : nat) (l : automationLimiter) : automationLimiter :=
  let r := run l p in
  let l := set_starts (<[startKey (r_fleet r) (r_trigger r) (r_cluster r) := MkMark now (r_firing r)]> (l_starts l)) l in
  let l := holdLocked (agentKey (r_fleet r) (r_agent r)) (reservation r) l in
  set_creating (<[r_cluster r := creating l (r_cluster r) + 1]> (l_creating l)) l.

Definition start_key (l : automationLimiter) (p : nat) : string :=
  startKey (r_fleet (run l p)) (r_trigger (run l p)) (r_cluster (run l p)).

(** The runs of a plan reserved in turn, the marks they replace saved. *)
Definition reserve_all (now : Z) (ps : list nat) (s : automationLimiter * gmap string (option startMark)) :
    automationLimiter * gmap string (option startMark) :=
  foldl (fun '(l, marks) p => (reserveLocked now p l, save_mark l (start_key l p) marks)) s ps.

Definition firingsLocked (l : automationLimiter) (key : string) : Z :=
  Z.of_nat (size (list_to_set (map (fun p => r_firing (run l p)) (queue l key)) : gset Z)).

Definition sat64 (z : Z) : Z := Z.max (- 2 ^ 63) (Z.min (2 ^ 63 - 1) z).

Fixpoint retryAfterLocked (c : runChecks) (l : automationLimiter) (waiting : list nat) (now : Z) : Z :=
  match waiting with
  | [] => DefaultKubeAutomationFireInterval
  | p :: rest =>
      let r := run l p in
      let lim := default no_limits (limits c (r_cluster r)) in
      if cl_interval lim <=? 0 then retryAfterLocked c l rest now
      else match l_starts l !! startKey (r_fleet r) (r_trigger r) (r_cluster r) with
           | Some m => let left := sat64 (m_at m + cl_interval lim - now) in
                       if second <? left then left else cl_interval lim
           | None => cl_interval lim
           end
  end.

(** ** Planning a firing *)

(** The runs a firing asks for: one per agent on a cluster that is not refused. *)
Record asked := MkAsked { as_l : automationLimiter; as_direct : list Agent; as_refused : list (string * why); as_runs : list nat }.

Definition new_run (l : automationLimiter) (firing : Z) (fleetName : string) (t : Trigger) (ag : Agent) (now : Z) : queuedRun :=
  MkRun (l_seq l) firing fleetName (tr_name t) (ag_name ag) (tr_prompt t) (dt_kubeCluster (Agent_DeployTarget ag)) now None
    None "" true ag.

Definition ask (c : runChecks) (st : State) (fleetName : string) (t : Trigger) (firing now : Z) (a : asked) (ag : Agent) : asked :=
  if negb (String.eqb (dt_backend (Agent_DeployTarget ag)) BackendKubernetes) then
    MkAsked (as_l a) (as_direct a ++ [ag]) (as_refused a) (as_runs a)
  else match refusal c st fleetName ag with
  | Some w => MkAsked (as_l a) (as_direct a) (as_refused a ++ [(ag_name ag, w)]) (as_runs a)
  | None =>
      let l := next_seq (as_l a) in
      MkAsked (alloc (new_run l firing fleetName t ag now) l) (as_direct a) (as_refused a) (as_runs a ++ [length (l_heap l)])
  end.

(** Which of them start now: the others wait, saying why. *)
Record sorted := MkSorted { so_l : automationLimiter; so_extra : gmap string Z; so_start : list nat; so_waiting : list nat }.

Definition sort_run (c : runChecks) (st : State) (now : Z) (s : sorted) (p : nat) : sorted :=
  let r := run (so_l s) p in
  let extra := default 0 (so_extra s !! r_cluster r) in
  match fst (waitLocked c (so_l s) st r extra None now) with
  | Some w => MkSorted (set_run p (with_why (Some w)) (so_l s)) (so_extra s) (so_start s) (so_waiting s ++ [p])
  | None => MkSorted (so_l s) (<[r_cluster r := extra + 1]> (so_extra s)) (so_start s ++ [p]) (so_waiting s)
  end.

Definition planLocked (c : runChecks) (st : State) (fleetName : string) (t : Trigger) (agents : list Agent) (now : Z)
    (l : automationLimiter) : automationLimiter * firingPlan :=
  let l := next_seq l in
  let firing := l_seq l in
  let a := foldl (ask c st fleetName t firing now) (MkAsked l [] [] []) agents in
  let s := foldl (sort_run c st now) (MkSorted (as_l a) ∅ [] []) (as_runs a) in
  let l := so_l s in
  let key := firedKey fleetName (tr_name t) in
  if negb (bool_decide (so_waiting s = [])) && (automationQueueMax <=? firingsLocked l key) then
    (l, MkPlan fleetName t firing [] [] [] [] (Some automationQueueMax) (retryAfterLocked c l (so_waiting s) now) ∅)
  else
    let '(l, marks) := reserve_all now (so_start s) (l, ∅) in
    (set_queues (<[key := queue l key ++ so_waiting s]> (l_queues l)) l,
     MkPlan fleetName t firing (as_direct a) (so_start s) (so_waiting s) (as_refused a) None 0 marks).

(** A firing to plan; without agents, the trigger's as the state has them. *)
Record firingItem := MkItem { fi_fleet : string; fi_trigger : Trigger; fi_agents : option (list Agent) }.

Definition loadOrEmpty (load : option State) : State := default ∅ load.

Definition item_agents (st : State) (it : firingItem) : list Agent :=
  match fi_agents it with
  | Some agents => agents
  | None => agentsForTrigger (st !! fi_fleet it) (fi_trigger it)
  end.

Definition plan (c : runChecks) (load : option State) (items : list firingItem) (now : Z) (l : automationLimiter) :
    automationLimiter * list firingPlan :=
  let st := loadOrEmpty load in
  foldl (fun '(l, plans) it =>
           let '(l, p) := planLocked c st (fi_fleet it) (fi_trigger it) (item_agents st it) now l in (l, plans ++ [p]))
    (l, []) items.

(** ** What becomes of a plan *)

Definition commit (p : firingPlan) (ev : triggerEvent) (eventLog : string) (l : automationLimiter) : automationLimiter :=
  foldl (fun l q => set_run q (fun r => with_pending false (with_event (Some ev) eventLog r)) l) l (pl_start p ++ pl_queued p).

Definition by_id (l : automationLimiter) (p q : nat) : comparison := r_id (run l p) ?= r_id (run l q).

Definition insertLocked (p : nat) (l : automationLimiter) : automationLimiter :=
  let r := run l p in
  let key := firedKey (r_fleet r) (r_trigger r) in
  let l := set_queues (<[key := SortFunc (by_id l) (queue l key ++ [p])]> (l_queues l)) l in
  set_seq (Z.max (Z.max (l_seq l) (r_id r)) (r_firing r)) l.

Definition settle (p : nat) (l : automationLimiter) : automationLimiter :=
  creatingDoneLocked (r_cluster (run l p)) (releaseLocked (reservation (run l p)) l).

Definition postpone_direct (p : firingPlan) (ev : option triggerEvent) (eventLog : string) (now : Z)
    (s : automationLimiter * list nat) (ag : Agent) : automationLimiter * list nat :=
  let '(l, runs) := s in
  let l := next_seq l in
  (alloc (MkRun (l_seq l) (pl_firing p) (pl_fleet p) (tr_name (pl_trigger p)) (ag_name ag) (tr_prompt (pl_trigger p)) ""
            now None ev eventLog false ag) l, runs ++ [length (l_heap l)]).

Definition postpone (p : firingPlan) (ev : option triggerEvent) (eventLog : string) (w : why) (now : Z) (l : automationLimiter) :
    automationLimiter * list nat :=
  let l := foldl (fun l q => settle q l) l (pl_start p) in
  let '(l, runs) := foldl (postpone_direct p ev eventLog now) (l, pl_start p) (pl_direct p) in
  (foldl (fun l q => insertLocked q (set_run q (fun r => with_pending false (with_why (Some w) r)) l)) l runs, runs).

Definition setQueueLocked (key : string) (runs : list nat) (l : automationLimiter) : automationLimiter :=
  set_queues (match runs with [] => delete key (l_queues l) | _ => <[key := runs]> (l_queues l) end) l.

Definition restore_mark (firing : Z) (sk : string) (prev : option startMark) (starts : gmap string startMark) : gmap string startMark :=
  match starts !! sk with
  | Some m => if m_firing m =? firing then match prev with None => delete sk starts | Some m' => <[sk := m']> starts end
              else starts
  | None => starts
  end.

Definition discard_one (p : firingPlan) (l : automationLimiter) : automationLimiter :=
  let l := foldl (fun l q => settle q l) l (pl_start p) in
  let l := set_starts (map_fold (restore_mark (pl_firing p)) (l_starts l) (pl_marks p)) l in
  let key := firedKey (pl_fleet p) (tr_name (pl_trigger p)) in
  setQueueLocked key (filter (fun q => r_firing (run l q) <> pl_firing p) (queue l key)) l.

Definition discard (plans : list firingPlan) (l : automationLimiter) : automationLimiter :=
  foldl (fun l p => discard_one p l) l plans.

(** A create that returned: with its instance, or with none. *)
Definition started (p : nat) (holder : string) (l : automationLimiter) : automationLimiter :=
  let r := run l p in
  let l := settle p l in
  if String.eqb holder "" then l else holdLocked (agentKey (r_fleet r) (r_agent r)) holder l.

Definition requeue (p : nat) (w : why) (l : automationLimiter) : automationLimiter :=
  insertLocked p (set_run p (fun r => with_pending false (with_why (Some w) r)) (settle p l)).

(** ** Draining the queues *)

Record queueDrain := MkDrain {
  d_l : automationLimiter;
  d_start : list nat;
  d_refused : list nat;
  d_expired : list nat;
  d_next : option Z;
  d_blocked : gmap string (gset string);
  d_kept : gmap string (list nat)
}.

Definition noLongerFires (f : Fleet) (r : queuedRun) : option why :=
  match FindTrigger (st_triggers (fl_settings f)) (r_trigger r) with
  | None => Some (WNoTrigger (r_trigger r))
  | Some t => if tr_disabled t then Some (WDisabled (r_trigger r))
              else if bool_decide (r_agent r ∈ tr_agentNames t) then None
              else Some (WNotFired (r_trigger r) (r_agent r))
  end.

Definition drop_refused (p : nat) (w : why) (d : queueDrain) : queueDrain :=
  MkDrain (set_run p (with_why (Some w)) (d_l d)) (d_start d) (d_refused d ++ [p]) (d_expired d) (d_next d) (d_blocked d) (d_kept d).

(** Left waiting in queue [key], the agent's later runs there behind it. *)
Definition keep (key : string) (p : nat) (l : automationLimiter) (next : option Z) (d : queueDrain) : queueDrain :=
  MkDrain l (d_start d) (d_refused d) (d_expired d) next
    (<[key := {[r_agent (run l p)]} ∪ default ∅ (d_blocked d !! key)]> (d_blocked d))
    (<[key := default [] (d_kept d !! key) ++ [p]]> (d_kept d)).

Definition take_start (p : nat) (l : automationLimiter) (d : queueDrain) : queueDrain :=
  MkDrain l (d_start d ++ [p]) (d_refused d) (d_expired d) (d_next d) (d_blocked d) (d_kept d).

Definition sooner (next until : option Z) : option Z :=
  match until with
  | None => next
  | Some u => match next with None => Some u | Some n => if u <? n then Some u else next end
  end.

Definition drain_agent (c : runChecks) (st : State) (now : Z) (key : string) (p : nat) (f : Fleet) (ag : Agent) (d : queueDrain) : queueDrain :=
  let l := d_l d in
  let r := run l p in
  match noLongerFires f r with
  | Some w => drop_refused p w d
  | None =>
      let target := Agent_DeployTarget ag in
      if negb (String.eqb (dt_backend target) BackendKubernetes) then
        let l := set_run p (fun r => with_cluster "" (with_def ag r)) l in
        take_start p (holdLocked (agentKey (r_fleet r) (r_agent r)) (reservation r) l) d
      else
        let l := set_run p (with_cluster (dt_kubeCluster target)) l in
        match refusal c st (r_fleet r) ag with
        | Some w => drop_refused p w (MkDrain l (d_start d) (d_refused d) (d_expired d) (d_next d) (d_blocked d) (d_kept d))
        | None =>
            match waitLocked c l st (run l p) 0 (Some (default ∅ (d_blocked d !! key))) now with
            | (Some w, until) => keep key p (set_run p (with_why (Some w)) l) (sooner (d_next d) until) d
            | (None, _) => take_start p (reserveLocked now p (set_run p (with_def ag) l)) d
            end
        end
  end.

Definition drain (c : runChecks) (st : State) (now : Z) (d : queueDrain) (w : string * nat) : queueDrain :=
  let '(key, p) := w in
  let l := d_l d in
  let r := run l p in
  if r_pending r then keep key p l (d_next d) d
  else if automationQueueTTL <=? now - r_queuedAt r then
    MkDrain l (d_start d) (d_refused d) (d_expired d ++ [p]) (d_next d) (d_blocked d) (d_kept d)
  else match st !! r_fleet r with
  | None => drop_refused p (WNoAgent (r_agent r)) d
  | Some f => match FindAgent (st_agents (fl_settings f)) (r_agent r) with
              | None => drop_refused p (WNoAgent (r_agent r)) d
              | Some ag => drain_agent c st now key p f ag d
              end
  end.

(** Every queue's runs, oldest first; [keys] is the order the map is ranged over. *)
Definition all_waiting (l : automationLimiter) (keys : list string) : list (string * nat) :=
  SortFunc (fun v w => by_id l (snd v) (snd w)) (concat (map (fun k => map (pair k) (queue l k)) keys)).

Definition due (c : runChecks) (load : option State) (keys : list string) (now : Z) (l : automationLimiter) : queueDrain :=
  let st := loadOrEmpty load in
  let d := foldl (drain c st now) (MkDrain l [] [] [] None ∅ ∅) (all_waiting l keys) in
  MkDrain (foldl (fun l k => setQueueLocked k (default [] (d_kept d !! k)) l) (d_l d) keys)
    (d_start d) (d_refused d) (d_expired d) (d_next d) (d_blocked d) (d_kept d).

(** ** The watch list's view *)

Definition queuedRuns (l : automationLimiter) (keys : list string) : list nat :=
  SortFunc (by_id l) (filter (fun p => r_pending (run l p) = false) (concat (map (queue l) keys))).

Definition restoreQueued (runs : list queuedRun) (l : automationLimiter) : automationLimiter :=
  foldl (fun l r => insertLocked (length (l_heap l)) (alloc r l)) l runs.

(** How many runs each agent has queued, and holding a slot. *)
Definition queued_count (l : automationLimiter) (keys : list string) (agent : string) : Z :=
  Z.of_nat (length (filter (fun p => agentKey (r_fleet (run l p)) (r_agent (run l p)) = agent) (concat (map (queue l) keys)))).
Definition running_count (l : automationLimiter) (agent : string) : Z := Z.of_nat (size (held l agent)).
