(* ===== verification/LimiterLedger.v ===== *)
(** * The limiter refines a ledger of runs

    The abstract machine behind the limiter keeps which runs wait, which are
    starting and which are watched, nothing else: the counters of the code (slots
    by agent and by holder, creates by connection) are read off it. A run is
    admitted only when the ledger itself has room for it. The operations of the
    limiter are sequences of ledger steps. *)

From S2P Require Import Prelude GoStrings GoText Entry Automation FleetState Limiter.
Local Open Scope string_scope.
Local Open Scope Z_scope.
Local Open Scope list_scope.

(** ** The ledger *)

Record ledger := MkLedger {
  g_runs : list queuedRun;
  g_wait : gset nat;
  g_start : gset nat;
  g_watch : gmap string string
}.

Definition agent_of (r : queuedRun) : string := agentKey (r_fleet r) (r_agent r).
Definition trigger_of (r : queuedRun) : string := firedKey (r_fleet r) (r_trigger r).

Definition run_in (g : ledger) (p : nat) : queuedRun := g_runs g !!! p.

(** The runs of an agent that are starting or watched, and the starts on a connection. *)
Definition live_of (g : ledger) (agent : string) : Z :=
  Z.of_nat (size (filter (fun p => agent_of (run_in g p) = agent) (g_start g))) +
  Z.of_nat (size (filter (fun '(_, a) => a = agent) (g_watch g))).

Definition starting_on (g : ledger) (cluster : string) : Z :=
  Z.of_nat (size (filter (fun p => r_cluster (run_in g p) = cluster) (g_start g))).

(** Room for run [p] of a cluster agent. *)
Record admissible (c : runChecks) (st : State) (g : ledger) (p : nat) : Prop := {
  adm_connected : is_Some (limits c (r_cluster (run_in g p)));
  adm_agent : forall lim, limits c (r_cluster (run_in g p)) = Some lim -> 0 < cl_maxPerAgent lim ->
    live_of g (agent_of (run_in g p)) < cl_maxPerAgent lim;
  adm_quota : forall q, quota c = Some q ->
    default "" (q st (r_cluster (run_in g p)) (starting_on g (r_cluster (run_in g p)))) = "";
  adm_order : forall q, q ∈ g_wait g -> trigger_of (run_in g q) = trigger_of (run_in g p) ->
    r_agent (run_in g q) = r_agent (run_in g p) -> r_id (run_in g p) <= r_id (run_in g q)
}.

(** What a touch of a run leaves alone. *)
Record same_run (r r' : queuedRun) : Prop := {
  sr_id : r_id r' = r_id r;
  sr_firing : r_firing r' = r_firing r;
  sr_fleet : r_fleet r' = r_fleet r;
  sr_trigger : r_trigger r' = r_trigger r;
  sr_agent : r_agent r' = r_agent r;
  sr_queued : r_queuedAt r' = r_queuedAt r
}.

(** *** What a call of the limiter may do *)

(** A call plans firings (whose runs are numbered from [first] on) or drains the queues,
    under the checks and records it was given, or it settles something. *)
Inductive call :=
| Plans (c : runChecks) (st : State) (first : nat)
| Drains (c : runChecks) (st : State) (now : Z)
| Settles.

Definition drains (k : call) : bool := match k with Drains _ _ _ => true | _ => false end.

(** A planning touches its own runs only. *)
Definition mine (k : call) (p : nat) : Prop := match k with Plans _ _ first => (first <= p)%nat | _ => True end.

(** Where a run goes: as its agent was when it was asked for, or as the records have it. *)
Definition target_of (k : call) (r : queuedRun) : option DeployTarget :=
  match k with
  | Plans _ _ _ => Some (Agent_DeployTarget (r_def r))
  | Drains _ st _ =>
      match st !! r_fleet r with
      | Some f => Agent_DeployTarget <$> FindAgent (st_agents (fl_settings f)) (r_agent r)
      | None => None
      end
  | Settles => None
  end.

(** The run goes to a cluster, and is booked on it. *)
Definition on_its_cluster (k : call) (r : queuedRun) : Prop :=
  exists t, target_of k r = Some t /\ dt_backend t = BackendKubernetes /\ r_cluster r = dt_kubeCluster t.

Definition may_ask (k : call) (r : queuedRun) : Prop :=
  match k with Plans _ _ _ => on_its_cluster k r /\ r_agent r = ag_name (r_def r) | Drains _ _ _ => False | Settles => True end.

(** A touch moves a run only while it waits and is drained, to where its agent goes. *)
Record may_touch (k : call) (g : ledger) (p : nat) (r r' : queuedRun) : Prop := {
  mt_mine : mine k p;
  mt_pending : r_pending r' = r_pending r \/ k = Settles;
  mt_def : r_def r' = r_def r \/ forall c st first, k <> Plans c st first;
  mt_cluster : r_cluster r' = r_cluster r \/
    p ∈ g_wait g /\ drains k = true /\ dt_kubeCluster <$> target_of k r = Some (r_cluster r')
}.

(** The checks and records a call admits runs by. *)
Definition admits (k : call) (c : runChecks) (st : State) : Prop :=
  match k with Plans c' st' _ | Drains c' st' _ => c' = c /\ st' = st | Settles => False end.

(** A drained run that starts no more: its agent or its trigger is gone or does not fire
    it, or its agent is refused on its cluster. *)
Definition refused_now (c : runChecks) (st : State) (r : queuedRun) : Prop :=
  match st !! r_fleet r with
  | None => True
  | Some f =>
      match FindAgent (st_agents (fl_settings f)) (r_agent r) with
      | None => True
      | Some ag => noLongerFires f r <> None \/
          dt_backend (Agent_DeployTarget ag) = BackendKubernetes /\ refusal c st (r_fleet r) ag <> None
      end
  end.

(** A waiting run may be dropped: a planning drops its own, when the queue is full; a drain
    those handed over that are too old or refused. *)
Definition may_drop (k : call) (p : nat) (r : queuedRun) : Prop :=
  match k with
  | Plans _ _ _ => mine k p
  | Drains c st now => r_pending r = false /\ (automationQueueTTL <= now - r_queuedAt r \/ refused_now c st r)
  | Settles => True
  end.

Inductive ledger_step (k : call) : ledger -> ledger -> Prop :=
| ledger_ask g r :
    may_ask k r -> (forall p, p ∈ g_wait g ∪ g_start g -> r_id (run_in g p) <> r_id r) ->
    ledger_step k g (MkLedger (g_runs g ++ [r]) ({[length (g_runs g)]} ∪ g_wait g) (g_start g) (g_watch g))
| ledger_touch g p f :
    (forall r, same_run r (f r)) -> may_touch k g p (run_in g p) (f (run_in g p)) ->
    ledger_step k g (MkLedger (alter f p (g_runs g)) (g_wait g) (g_start g) (g_watch g))
| ledger_admit c st g p :
    admits k c st -> p ∈ g_wait g -> mine k p -> on_its_cluster k (run_in g p) -> admissible c st g p ->
    ledger_step k g (MkLedger (g_runs g) (g_wait g ∖ {[p]}) ({[p]} ∪ g_start g) (g_watch g))
| ledger_admit_off t g p :
    p ∈ g_wait g -> drains k = true -> target_of k (run_in g p) = Some t -> dt_backend t <> BackendKubernetes -> r_cluster (run_in g p) = "" ->
    ledger_step k g (MkLedger (g_runs g) (g_wait g ∖ {[p]}) ({[p]} ∪ g_start g) (g_watch g))
| ledger_drop g p :
    may_drop k p (run_in g p) ->
    ledger_step k g (MkLedger (g_runs g) (g_wait g ∖ {[p]}) (g_start g) (g_watch g))
| ledger_begin g p h :
    k = Settles -> p ∈ g_start g -> g_watch g !! h = None ->
    ledger_step k g (MkLedger (g_runs g) (g_wait g) (g_start g ∖ {[p]}) (<[h := agent_of (run_in g p)]> (g_watch g)))
| ledger_fail g p :
    k = Settles -> p ∈ g_start g -> ledger_step k g (MkLedger (g_runs g) (g_wait g) (g_start g ∖ {[p]}) (g_watch g))
| ledger_back g p :
    k = Settles -> p ∈ g_start g -> ledger_step k g (MkLedger (g_runs g) ({[p]} ∪ g_wait g) (g_start g ∖ {[p]}) (g_watch g))
| ledger_watch g h a :
    k = Settles -> g_watch g !! h = None -> ledger_step k g (MkLedger (g_runs g) (g_wait g) (g_start g) (<[h := a]> (g_watch g)))
| ledger_unwatch g h :
    k = Settles -> ledger_step k g (MkLedger (g_runs g) (g_wait g) (g_start g) (delete h (g_watch g))).

(** ** How the code represents it *)

Definition is_watch_key (h : string) : Prop := contains_byte h slash = true.

Record slots_ok (l : automationLimiter) (S : gset nat) (W : gmap string string) : Prop := {
  so_holder : forall h a, l_holder l !! h = Some a <->
    W !! h = Some a \/ exists p, p ∈ S /\ h = reservation (run l p) /\ a = agent_of (run l p);
  so_held : forall a h, h ∈ held l a <-> l_holder l !! h = Some a;
  so_creating : forall c, c <> "" -> creating l c = Z.of_nat (size (filter (fun p => r_cluster (run l p) = c) S));
  so_watch : forall h, is_Some (W !! h) -> is_watch_key h;
  so_inj : forall p q, p ∈ S -> q ∈ S -> r_id (run l p) = r_id (run l q) -> p = q;
  so_ids : forall p, p ∈ S -> 0 <= r_id (run l p)
}.

Record queues_ok (l : automationLimiter) (Q : gset nat) : Prop := {
  qo_key : forall key p, p ∈ queue l key -> trigger_of (run l p) = key;
  qo_wait : forall p, p ∈ Q <-> p ∈ queue l (trigger_of (run l p));
  qo_nodup : forall key, NoDup (queue l key)
}.

Record ids_ok (l : automationLimiter) (L : gset nat) : Prop := {
  io_heap : forall p, p ∈ L -> (p < length (l_heap l))%nat;
  io_range : forall p, p ∈ L -> 0 <= r_id (run l p) <= l_seq l /\ r_firing (run l p) <= l_seq l;
  io_inj : forall p q, p ∈ L -> q ∈ L -> r_id (run l p) = r_id (run l q) -> p = q;
  io_seq : 0 <= l_seq l
}.

Record represents (l : automationLimiter) (g : ledger) : Prop := {
  re_heap : l_heap l = g_runs g;
  re_slots : slots_ok l (g_start g) (g_watch g);
  re_queues : queues_ok l (g_wait g);
  re_ids : ids_ok l (g_wait g ∪ g_start g);
  re_disjoint : g_wait g ## g_start g
}.

(** ** Slots *)

Lemma reservation_inj r r' : 0 <= r_id r -> 0 <= r_id r' -> reservation r = reservation r' -> r_id r = r_id r'.
Proof.
  intros H H' [= E]. destruct (Itoa_first (r_id r) H) as (? & ? & _ & _ & Hu).
  destruct (Itoa_first (r_id r') H') as (? & ? & _ & _ & Hu'). congruence.
Qed.

Lemma reservation_not_watch r : 0 <= r_id r -> ~ is_watch_key (reservation r).
Proof.
  intros H. unfold is_watch_key, reservation. simpl. rewrite all_digits_free; [by intros [=]|by apply Itoa_digits|done].
Qed.

Lemma filter_size_add (P : nat -> Prop) `{!forall x, Decision (P x)} (S : gset nat) p : p ∉ S ->
  size (filter P ({[p]} ∪ S)) = (size (filter P S) + (if decide (P p) then 1 else 0))%nat.
Proof.
  intros Hp. destruct (decide (P p)).
  - assert (filter P ({[p]} ∪ S) = {[p]} ∪ filter P S) as -> by set_solver.
    rewrite size_union by set_solver. rewrite size_singleton. lia.
  - assert (filter P ({[p]} ∪ S) = filter P S) as -> by set_solver. lia.
Qed.

Lemma filter_size_remove (P : nat -> Prop) `{!forall x, Decision (P x)} (S : gset nat) p : p ∈ S ->
  size (filter P S) = (size (filter P (S ∖ {[p]})) + (if decide (P p) then 1 else 0))%nat.
Proof.
  intros Hp. replace S with ({[p]} ∪ (S ∖ {[p]})) at 1 by (by rewrite <- union_difference_singleton_L).
  by rewrite filter_size_add by set_solver.
Qed.

Lemma size_filter_list (P : nat -> Prop) `{!forall x, Decision (P x)} (xs : list nat) : NoDup xs ->
  size (filter P (list_to_set xs : gset nat)) = length (filter P xs).
Proof.
  intros Hn. assert (filter P (list_to_set xs : gset nat) = list_to_set (filter P xs)) as ->.
  { apply set_eq. intros x. rewrite elem_of_filter, !elem_of_list_to_set, list_elem_of_filter. done. }
  apply size_list_to_set. by apply NoDup_filter.
Qed.

(** Counting runs by a field reads only the field. *)
Lemma filter_runs (f f' : nat -> string) (S : gset nat) c :
  (forall q, q ∈ S -> f' q = f q) -> filter (fun q => f' q = c) S = filter (fun q => f q = c) S.
Proof. intros H. apply set_eq. intros q. rewrite !elem_of_filter. naive_solver. Qed.

(** [held] and [creating] of updated limiters. *)
Lemma held_insert l a S a' h' : held (set_slots (<[a := S]> (l_holds l)) h' l) a' = if decide (a = a') then S else held l a'.
Proof.
  unfold held. simpl. destruct (decide (a = a')) as [->|]; [by rewrite lookup_insert_eq|by rewrite lookup_insert_ne].
Qed.

Lemma held_release l a h a' h' :
  held (set_slots (if bool_decide (held l a ∖ {[h]} = ∅) then delete a (l_holds l) else <[a := held l a ∖ {[h]}]> (l_holds l)) h' l) a' =
  if decide (a = a') then held l a ∖ {[h]} else held l a'.
Proof.
  destruct (bool_decide_reflect (held l a ∖ {[h]} = ∅)) as [E|E]; [|apply held_insert].
  unfold held at 1. simpl. destruct (decide (a = a')) as [->|]; [by rewrite lookup_delete_eq, E|by rewrite lookup_delete_ne].
Qed.

Lemma creating_done l c c' :
  creating (creatingDoneLocked c l) c' = if decide (c = c') then Z.max 0 (creating l c - 1) else creating l c'.
Proof.
  unfold creatingDoneLocked. destruct (Z.ltb_spec 1 (creating l c)); unfold creating at 1; simpl; destruct (decide (c = c')) as [->|].
  - rewrite lookup_insert_eq. simpl. lia.
  - by rewrite lookup_insert_ne.
  - rewrite lookup_delete_eq. simpl. lia.
  - by rewrite lookup_delete_ne.
Qed.

Lemma hold_watch_ok l S W a h : slots_ok l S W -> W !! h = None -> is_watch_key h ->
  slots_ok (holdLocked a h l) S (<[h := a]> W).
Proof.
  intros [Hh He Hc Hw Hi Hn] Hnone Hk.
  assert (l_holder l !! h = None) as Hl.
  { destruct (l_holder l !! h) as [b|] eqn:E; [|done]. apply Hh in E as [E|(p & Hp & -> & _)]; [congruence|].
    by apply reservation_not_watch in Hk; [|apply Hn]. }
  split; simpl; try done.
  - intros h' b. destruct (decide (h = h')) as [<-|Hne].
    + rewrite !lookup_insert_eq. split; [by left|]. intros [?|(p & Hp & Hr & _)]; [done|].
      rewrite Hr in Hk. by apply reservation_not_watch in Hk; [|apply Hn].
    + rewrite !lookup_insert_ne by done. apply Hh.
  - intros b h'. unfold holdLocked. rewrite held_insert. simpl. destruct (decide (a = b)) as [<-|Hne].
    + rewrite elem_of_union, elem_of_singleton, He. destruct (decide (h = h')) as [<-|]; [rewrite lookup_insert_eq; naive_solver|].
      rewrite lookup_insert_ne by done. naive_solver.
    + rewrite He. destruct (decide (h = h')) as [<-|]; [rewrite lookup_insert_eq, Hl; naive_solver|by rewrite lookup_insert_ne].
  - intros h' [b Hb]. destruct (decide (h = h')) as [<-|]; [done|]. rewrite lookup_insert_ne in Hb by done. by apply Hw.
Qed.

Lemma reservation_free l S W p :
  slots_ok l S W -> 0 <= r_id (run l p) -> (forall q, q ∈ S -> r_id (run l q) <> r_id (run l p)) ->
  l_holder l !! reservation (run l p) = None.
Proof.
  intros [Hh He Hc Hw Hi Hn] H0 Hne. destruct (l_holder l !! _) as [b|] eqn:E; [|done].
  apply Hh in E as [E|(q & Hq & Hr & _)].
  - exfalso. eapply reservation_not_watch; [exact H0|]. apply Hw. by exists b.
  - apply reservation_inj in Hr; [|done|by apply Hn]. by destruct (Hne q Hq).
Qed.

(** A run that takes its slot under its reservation, its cluster counted or none. *)
Lemma reserve_slot_ok l S W p creating' :
  slots_ok l S W -> p ∉ S -> 0 <= r_id (run l p) -> (forall q, q ∈ S -> r_id (run l q) <> r_id (run l p)) ->
  (forall c, c <> "" -> default 0 (creating' !! c) = creating l c + (if decide (r_cluster (run l p) = c) then 1 else 0)) ->
  slots_ok (set_creating creating' (holdLocked (agent_of (run l p)) (reservation (run l p)) l)) ({[p]} ∪ S) W.
Proof.
  intros Hs Hp H0 Hne Hcr. pose proof (reservation_free _ _ _ _ Hs H0 Hne) as Hfree. destruct Hs as [Hh He Hc Hw Hi Hn].
  set (a := agent_of (run l p)) in *. set (h := reservation (run l p)) in *.
  split; [|clear Hh|..|done| |]; simpl.
  - intros h' b. change (run (set_creating creating' (holdLocked a h l))) with (run l). destruct (decide (h = h')) as [<-|Hn'].
    + rewrite lookup_insert_eq. split; [intros [= <-]; right; exists p; set_solver|].
      intros [HW|(q & [->%elem_of_singleton|Hq]%elem_of_union & Hr & ->)]; [|done|].
      * exfalso. eapply reservation_not_watch; [exact H0|]. apply Hw. by exists b.
      * apply reservation_inj in Hr; [|done|by apply Hn]. by destruct (Hne q Hq).
    + rewrite lookup_insert_ne by done. rewrite Hh. split; [set_solver|].
      intros [?|(q & [->%elem_of_singleton|Hq]%elem_of_union & Hr & ->)]; [by left|by destruct Hn'|right; by exists q].
  - intros b h'. change (held (set_creating creating' (holdLocked a h l)) b) with (held (holdLocked a h l) b).
    unfold holdLocked. rewrite held_insert. destruct (decide (a = b)) as [<-|Hnb].
    + rewrite elem_of_union, elem_of_singleton, He. destruct (decide (h = h')) as [<-|]; [rewrite lookup_insert_eq; naive_solver|].
      rewrite lookup_insert_ne by done. naive_solver.
    + rewrite He. destruct (decide (h = h')) as [<-|]; [rewrite lookup_insert_eq, Hfree; naive_solver|by rewrite lookup_insert_ne].
  - intros c Hc0. change (run (set_creating creating' (holdLocked a h l))) with (run l).
    change (creating (set_creating creating' (holdLocked a h l)) c) with (default 0 (creating' !! c)).
    rewrite Hcr, filter_size_add, Hc by done. destruct (decide _); lia.
  - intros q q'. change (run (set_creating creating' (holdLocked a h l))) with (run l). rewrite !elem_of_union, !elem_of_singleton.
    intros [->|Hq] [->|Hq'] E; [done|by destruct (Hne q' Hq')|by destruct (Hne q Hq)|by apply Hi].
  - intros q. change (run (set_creating creating' (holdLocked a h l))) with (run l). rewrite elem_of_union, elem_of_singleton.
    intros [->|Hq]; [done|by apply Hn].
Qed.

Lemma reserve_ok l S W now p :
  slots_ok l S W -> p ∉ S -> 0 <= r_id (run l p) -> (forall q, q ∈ S -> r_id (run l q) <> r_id (run l p)) ->
  slots_ok (reserveLocked now p l) ({[p]} ∪ S) W.
Proof.
  intros Hs Hp H0 Hne. unfold reserveLocked. set (r := run l p).
  set (l1 := set_starts _ l). set (l2 := holdLocked _ _ l1).
  assert (slots_ok l1 S W) as Hs1 by (destruct Hs; by split).
  apply (reserve_slot_ok l1 S W p); try done. intros c Hc. change (creating l2 (r_cluster r)) with (creating l (r_cluster r)).
  change (l_creating l2) with (l_creating l). destruct (decide _) as [<-|Hd].
  - by rewrite lookup_insert_eq.
  - rewrite lookup_insert_ne by done. rewrite Z.add_0_r. done.
Qed.

Lemma reserve_off_ok l S W p :
  slots_ok l S W -> p ∉ S -> 0 <= r_id (run l p) -> (forall q, q ∈ S -> r_id (run l q) <> r_id (run l p)) ->
  r_cluster (run l p) = "" ->
  slots_ok (holdLocked (agent_of (run l p)) (reservation (run l p)) l) ({[p]} ∪ S) W.
Proof.
  intros Hs Hp H0 Hne Hoff.
  assert (slots_ok (set_creating (l_creating l) (holdLocked (agent_of (run l p)) (reservation (run l p)) l)) ({[p]} ∪ S) W) as Hr; [|by destruct Hr].
  apply reserve_slot_ok; try done. intros c Hc. rewrite decide_False by congruence. unfold creating. lia.
Qed.

Lemma settle_ok l S W p : slots_ok l S W -> p ∈ S -> slots_ok (settle p l) (S ∖ {[p]}) W.
Proof.
  intros [Hh He Hc Hw Hi Hn] Hp. set (r := run l p). set (h := reservation r).
  assert (l_holder l !! h = Some (agent_of r)) as Hl by (apply Hh; right; by exists p).
  assert (forall q, run (settle p l) q = run l q) as Hrun.
  { intros q. unfold settle, creatingDoneLocked, releaseLocked. fold r h. by rewrite Hl. }
  assert (l_holder (settle p l) = delete h (l_holder l)) as Hl'.
  { unfold settle, creatingDoneLocked, releaseLocked. fold r h. by rewrite Hl. }
  split; [| | |done| |].
  - intros h' b. rewrite Hl'. setoid_rewrite Hrun. destruct (decide (h = h')) as [<-|Hne].
    + rewrite lookup_delete_eq. split; [done|]. intros [HW|(q & Hq & Hr & _)].
      * exfalso. eapply reservation_not_watch; [by apply (Hn p)|]. apply Hw. by exists b.
      * apply reservation_inj in Hr; [|by apply Hn|apply Hn; set_solver]. apply Hi in Hr; [set_solver|done|set_solver].
    + rewrite lookup_delete_ne, Hh by done. split; [|set_solver]. intros [?|(q & Hq & -> & ->)]; [by left|].
      right. exists q. split; [|done]. apply elem_of_difference. split; [done|]. intros ->%elem_of_singleton. done.
  - intros b h'. rewrite Hl'. assert (held (settle p l) b = if decide (agent_of r = b) then held l (agent_of r) ∖ {[h]} else held l b) as ->.
    { unfold settle, releaseLocked. fold r h. rewrite Hl. change (held (creatingDoneLocked ?c ?x) b) with (held x b). apply held_release. }
    destruct (decide (h = h')) as [<-|Hne].
    + rewrite lookup_delete_eq. split; [|done]. destruct (decide _) as [<-|Hd]; [set_solver|]. rewrite He, Hl. naive_solver.
    + rewrite lookup_delete_ne by done. rewrite <- He. destruct (decide _) as [<-|]; set_solver.
  - intros c Hc0. assert (creating (settle p l) c = if decide (r_cluster r = c) then Z.max 0 (creating l (r_cluster r) - 1) else creating l c) as ->.
    { unfold settle. rewrite creating_done. unfold releaseLocked. fold r h. rewrite Hl. done. }
    rewrite (filter_runs _ _ _ _ (fun q _ => f_equal r_cluster (Hrun q))). pose proof (filter_size_remove (fun p => r_cluster (run l p) = c) S p Hp) as Hsz. cbv beta in Hsz.
    fold r in Hsz. revert Hsz. destruct (decide (r_cluster r = c)) as [<-|]; rewrite Hc by done; lia.
  - setoid_rewrite Hrun. set_solver.
  - setoid_rewrite Hrun. set_solver.
Qed.

Lemma release_watch_ok l S W h : slots_ok l S W -> is_watch_key h -> slots_ok (release h l) S (delete h W).
Proof.
  intros Hs Hk. destruct (l_holder l !! h) as [a|] eqn:Hl.
  - destruct Hs as [Hh He Hc Hw Hi Hn]. unfold release, releaseLocked. rewrite Hl. split; simpl; try done.
    + intros h' b. destruct (decide (h = h')) as [<-|Hne].
      * rewrite !lookup_delete_eq. split; [done|]. intros [?|(q & Hq & Hr & _)]; [done|].
        rewrite Hr in Hk. by apply reservation_not_watch in Hk; [|apply Hn].
      * by rewrite !lookup_delete_ne by done.
    + intros b h'. rewrite held_release. destruct (decide (h = h')) as [<-|Hne].
      * rewrite lookup_delete_eq. split; [|done]. destruct (decide _) as [<-|Hd]; [set_solver|]. rewrite He, Hl. naive_solver.
      * rewrite lookup_delete_ne by done. rewrite <- He. destruct (decide _) as [<-|]; set_solver.
    + intros h' [b Hb]. destruct (decide (h = h')) as [<-|Hne]; [by rewrite lookup_delete_eq in Hb|].
      rewrite lookup_delete_ne in Hb by done. apply Hw. by exists b.
  - unfold release, releaseLocked. rewrite Hl. replace (delete h W) with W; [done|]. symmetry. apply delete_id.
    destruct (W !! h) as [b|] eqn:E; [|done]. destruct Hs as [Hh _ _ _ _ _]. assert (l_holder l !! h = Some b) by (apply Hh; by left). congruence.
Qed.

(** ** Counting *)

Lemma size_set_map_inj {B} `{Countable B} (f : nat -> B) (X : gset nat) :
  (forall x y, x ∈ X -> y ∈ X -> f x = f y -> x = y) -> size (set_map f X : gset B) = size X.
Proof.
  induction X as [|x X Hx IH] using set_ind_L; intros Hf; [by rewrite set_map_empty|].
  rewrite set_map_union_L, set_map_singleton_L. rewrite !size_union; [|set_solver|].
  - rewrite !size_singleton, IH by set_solver. done.
  - intros b Hb%elem_of_singleton (y & E & Hy)%elem_of_map. subst b. assert (x = y) as -> by (apply Hf; set_solver). done.
Qed.

(** The agent's slots taken are its runs starting and watched. *)
Lemma held_live l S W a : slots_ok l S W ->
  size (held l a) = (size (filter (fun p => agent_of (run l p) = a) S) + size (filter (fun '(_, b) => b = a) W))%nat.
Proof.
  intros [Hh He Hc Hw Hi Hn].
  set (X := filter (fun p => agent_of (run l p) = a) S). set (Y := filter (fun '(_, b) => b = a) W).
  assert (held l a = set_map (fun p => reservation (run l p)) X ∪ dom Y) as ->.
  { apply set_eq. intros h. rewrite He, Hh, elem_of_union, elem_of_map, elem_of_dom. unfold X, Y. setoid_rewrite elem_of_filter.
    split.
    - intros [HW|(p & Hp & -> & ->)]; [right; exists a; by apply map_lookup_filter_Some|left; exists p; naive_solver].
    - intros [(p & -> & <- & Hp)|[b [HW ->]%map_lookup_filter_Some]]; [right; by exists p|by left]. }
  rewrite size_union.
  - rewrite size_set_map_inj, size_dom; [done|]. unfold X. intros x y [_ Hx]%elem_of_filter [_ Hy]%elem_of_filter E.
    apply reservation_inj in E; [by apply Hi|by apply Hn..].
  - intros h (p & -> & [_ Hp]%elem_of_filter)%elem_of_map [b [HW _]%map_lookup_filter_Some]%elem_of_dom.
    eapply reservation_not_watch; [by apply (Hn p)|]. apply Hw. by exists b.
Qed.

(** ** What an operation may change without touching the ledger *)

Lemma slots_ok_ext l l' S W :
  slots_ok l S W -> l_holder l' = l_holder l -> l_holds l' = l_holds l -> l_creating l' = l_creating l ->
  (forall p, p ∈ S -> r_id (run l' p) = r_id (run l p) /\ agent_of (run l' p) = agent_of (run l p) /\
     r_cluster (run l' p) = r_cluster (run l p)) ->
  slots_ok l' S W.
Proof.
  intros [Hh He Hc Hw Hi Hn] E1 E2 E3 Hr.
  assert (forall p, p ∈ S -> reservation (run l' p) = reservation (run l p)) as Hres.
  { intros p Hp. unfold reservation. by destruct (Hr p Hp) as (-> & _). }
  split; try done.
  - intros h a. rewrite E1, Hh. split; (intros [?|(p & Hp & -> & ->)]; [by left|]); right; exists p;
      destruct (Hr p Hp) as (_ & Ha & _); rewrite Hres, Ha by done; done.
  - intros a h. unfold held. rewrite E1, E2. apply He.
  - intros c Hc0. unfold creating. rewrite E3. fold (creating l c). rewrite Hc by done. do 2 f_equal.
    symmetry. apply filter_runs. intros q Hq. by apply Hr.
  - intros p q Hp Hq. destruct (Hr p Hp) as (-> & _), (Hr q Hq) as (-> & _). by apply Hi.
  - intros p Hp. destruct (Hr p Hp) as (-> & _). by apply Hn.
Qed.

(** The ledger but for the queues. *)
Record core (l : automationLimiter) (g : ledger) : Prop := {
  co_heap : l_heap l = g_runs g;
  co_slots : slots_ok l (g_start g) (g_watch g);
  co_ids : ids_ok l (g_wait g ∪ g_start g);
  co_disjoint : g_wait g ## g_start g
}.

Lemma represents_core l g : represents l g <-> core l g /\ queues_ok l (g_wait g).
Proof. split; [intros [????]; split; [by split|done]|intros [[] ?]; by split]. Qed.

Lemma core_run l g p : core l g -> run l p = run_in g p.
Proof. intros [E _ _ _]. unfold run, run_in. by rewrite E. Qed.

(** Queues, marks and a raised sequence number are not the ledger's. *)
Lemma core_ext l l' g :
  core l g -> l_heap l' = l_heap l -> l_holder l' = l_holder l -> l_holds l' = l_holds l -> l_creating l' = l_creating l ->
  l_seq l <= l_seq l' -> core l' g.
Proof.
  intros [E Hs [Hi1 Hi2 Hi3 Hi4] Hd] Eh E1 E2 E3 Hseq.
  assert (forall p, run l' p = run l p) as Hrun by (intros p; unfold run; by rewrite Eh).
  split; [congruence| | |done].
  - eapply slots_ok_ext; [done..|]. intros p Hp. by rewrite Hrun.
  - split; [by rewrite Eh| | |lia].
    + intros p Hp. rewrite Hrun. destruct (Hi2 p Hp). lia.
    + intros p q Hp Hq. rewrite !Hrun. by apply Hi3.
Qed.

Lemma run_set_run f p l q : run (set_run p f l) q = if decide (p = q /\ (p < length (l_heap l))%nat) then f (run l p) else run l q.
Proof. unfold run, set_run. simpl. rewrite list_lookup_total_alter. by destruct (decide _). Qed.

Definition touch (p : nat) (f : queuedRun -> queuedRun) (g : ledger) : ledger :=
  MkLedger (alter f p (g_runs g)) (g_wait g) (g_start g) (g_watch g).

Lemma core_touch l g p f :
  core l g -> (forall r, same_run r (f r)) -> (p ∈ g_start g -> forall r, r_cluster (f r) = r_cluster r) ->
  core (set_run p f l) (touch p f g).
Proof.
  intros [E Hs [Hi1 Hi2 Hi3 Hi4] Hd] Hf Hc.
  assert (forall q, r_id (run (set_run p f l) q) = r_id (run l q)) as Hid.
  { intros q. rewrite run_set_run. destruct (decide _) as [[<- _]|]; [|done]. by destruct (Hf (run l p)). }
  split; simpl; [by rewrite E| | |done].
  - eapply slots_ok_ext; [exact Hs|done..|]. intros q Hq. rewrite Hid. split; [done|].
    rewrite run_set_run. destruct (decide _) as [[<- _]|]; [|done]. destruct (Hf (run l p)) as [_ _ Ef _ Ea].
    unfold agent_of. rewrite Ef, Ea, Hc by done. done.
  - split; simpl; [by rewrite length_alter| | |done].
    + intros q Hq. rewrite Hid. assert (r_firing (run (set_run p f l) q) = r_firing (run l q)) as ->; [|by apply Hi2].
      rewrite run_set_run. destruct (decide _) as [[<- _]|]; [|done]. by destruct (Hf (run l p)).
    + intros q q' Hq Hq'. rewrite !Hid. by apply Hi3.
Qed.

(** ** The ledger's steps as the code takes them *)

Definition asked_for (r : queuedRun) (g : ledger) : ledger :=
  MkLedger (g_runs g ++ [r]) ({[length (g_runs g)]} ∪ g_wait g) (g_start g) (g_watch g).
Definition admitted (p : nat) (g : ledger) : ledger := MkLedger (g_runs g) (g_wait g ∖ {[p]}) ({[p]} ∪ g_start g) (g_watch g).
Definition dropped (p : nat) (g : ledger) : ledger := MkLedger (g_runs g) (g_wait g ∖ {[p]}) (g_start g) (g_watch g).
Definition failed (p : nat) (g : ledger) : ledger := MkLedger (g_runs g) (g_wait g) (g_start g ∖ {[p]}) (g_watch g).
Definition back (p : nat) (g : ledger) : ledger := MkLedger (g_runs g) ({[p]} ∪ g_wait g) (g_start g ∖ {[p]}) (g_watch g).
Definition watching (h a : string) (g : ledger) : ledger := MkLedger (g_runs g) (g_wait g) (g_start g) (<[h := a]> (g_watch g)).
Definition unwatched (h : string) (g : ledger) : ledger := MkLedger (g_runs g) (g_wait g) (g_start g) (delete h (g_watch g)).

Lemma run_alloc r l q : (q < length (l_heap l))%nat -> run (alloc r l) q = run l q.
Proof. intros H. unfold run, alloc. simpl. by rewrite lookup_total_app_l. Qed.

Lemma run_alloc_at r l p : p = length (l_heap l) -> run (alloc r l) p = r.
Proof. intros ->. unfold run, alloc. simpl. rewrite list_lookup_total_middle; done. Qed.

Lemma core_alloc l g r :
  core l g -> 0 <= r_id r <= l_seq l -> r_firing r <= l_seq l -> (forall p, p ∈ g_wait g ∪ g_start g -> r_id (run l p) <> r_id r) ->
  core (alloc r l) (asked_for r g).
Proof.
  intros [E Hs [Hi1 Hi2 Hi3 Hi4] Hd] Hid Hfi Hfresh.
  assert (forall p, p ∈ g_wait g ∪ g_start g -> run (alloc r l) p = run l p) as Hrun by (intros p Hp; by apply run_alloc, Hi1).
  assert (run (alloc r l) (length (g_runs g)) = r) as Hnew by (apply run_alloc_at; by rewrite E).
  assert (forall p, p ∈ {[length (g_runs g)]} ∪ g_wait g ∪ g_start g -> p = length (g_runs g) \/ p ∈ g_wait g ∪ g_start g) as Hcases by set_solver.
  split; simpl.
  - by rewrite E.
  - eapply slots_ok_ext; [exact Hs|done..|]. intros p Hp. by rewrite Hrun by set_solver.
  - split; simpl.
    + intros p Hp. rewrite length_app. simpl. rewrite E in *. destruct (Hcases p Hp) as [->|Hp']; [lia|]. specialize (Hi1 p Hp'). lia.
    + intros p Hp. destruct (Hcases p Hp) as [->|Hp']; [by rewrite Hnew|]. rewrite Hrun by done. by apply Hi2.
    + intros p q Hp Hq. destruct (Hcases p Hp) as [->|Hp'], (Hcases q Hq) as [->|Hq']; rewrite ?Hnew, ?(Hrun p), ?(Hrun q) by done.
      * done.
      * intros E'. by destruct (Hfresh q Hq').
      * intros E'. by destruct (Hfresh p Hp').
      * by apply Hi3.
    + done.
  - intros p [->%elem_of_singleton|Hp]%elem_of_union Hst; [|by destruct (Hd p)].
    assert (length (g_runs g) < length (l_heap l))%nat by (apply Hi1; set_solver). rewrite E in *. lia.
Qed.

Lemma core_ask l g r :
  core l g -> r_id r = l_seq l + 1 -> r_firing r <= l_seq l + 1 -> l_seq l + 1 < 2 ^ 64 -> core (alloc r (next_seq l)) (asked_for r g).
Proof.
  intros Hc Hid Hfi Hroom. destruct (co_ids _ _ Hc) as [Hi1 Hi2 Hi3 Hi4].
  assert (l_seq (next_seq l) = l_seq l + 1) as Hseq by (apply u64_small; lia).
  apply core_alloc; [eapply core_ext; [exact Hc|done..|lia]|lia|lia|]. intros p Hp. destruct (Hi2 p Hp).
  change (run (next_seq l) p) with (run l p). lia.
Qed.

Lemma ids_ok_mono l L L' : ids_ok l L -> L' ⊆ L -> ids_ok l L'.
Proof. intros [H1 H2 H3 H4] Hs. split; [|..|done]; eauto. Qed.

Lemma core_fresh l g p : core l g -> p ∈ g_wait g ->
  p ∉ g_start g /\ 0 <= r_id (run l p) /\ (forall q, q ∈ g_start g -> r_id (run l q) <> r_id (run l p)).
Proof.
  intros [E Hs [Hi1 Hi2 Hi3 Hi4] Hd] Hp. split; [set_solver|]. split; [apply Hi2; set_solver|].
  intros q Hq Heq. apply Hi3 in Heq; [|set_solver..]. set_solver.
Qed.

Lemma core_admit l g now p : core l g -> p ∈ g_wait g -> core (reserveLocked now p l) (admitted p g).
Proof.
  intros Hc Hp. destruct (core_fresh _ _ _ Hc Hp) as (Hn & H0 & Hne). destruct Hc as [E Hs Hi Hd]. split; simpl.
  - done.
  - by apply reserve_ok.
  - destruct Hi. split; simpl; [set_solver..|done].
  - set_solver.
Qed.

Lemma core_admit_off l g p : core l g -> p ∈ g_wait g -> r_cluster (run l p) = "" ->
  core (holdLocked (agent_of (run l p)) (reservation (run l p)) l) (admitted p g).
Proof.
  intros Hc Hp Hoff. destruct (core_fresh _ _ _ Hc Hp) as (Hn & H0 & Hne). destruct Hc as [E Hs Hi Hd]. split; simpl.
  - done.
  - by apply reserve_off_ok.
  - destruct Hi. split; simpl; [set_solver..|done].
  - set_solver.
Qed.

Lemma core_drop l g p : core l g -> core l (dropped p g).
Proof.
  intros [E Hs Hi Hd]. split; simpl; [done..| |set_solver]. eapply ids_ok_mono; [done|set_solver].
Qed.

Lemma settle_frame p l : l_heap (settle p l) = l_heap l /\ l_seq (settle p l) = l_seq l /\ l_queues (settle p l) = l_queues l /\
  l_starts (settle p l) = l_starts l.
Proof. unfold settle, creatingDoneLocked, releaseLocked. by destruct (l_holder l !! _). Qed.

Lemma run_settle p l q : run (settle p l) q = run l q.
Proof. unfold run. by destruct (settle_frame p l) as (-> & _). Qed.

Lemma ids_ok_settle p l L : ids_ok l L -> ids_ok (settle p l) L.
Proof.
  intros [H1 H2 H3 H4]. destruct (settle_frame p l) as (E1 & E2 & _).
  split; rewrite ?E1, ?E2; [done| | |done]; intros *; rewrite !run_settle; [apply H2|apply H3].
Qed.

Lemma core_fail l g p : core l g -> p ∈ g_start g -> core (settle p l) (failed p g).
Proof.
  intros [E Hs Hi Hd] Hp. destruct (settle_frame p l) as (Eh & _). split; [by rewrite Eh|by apply settle_ok| |set_solver].
  apply ids_ok_settle. eapply ids_ok_mono; [done|set_solver].
Qed.

Lemma core_back l g p : core l g -> p ∈ g_start g -> core (settle p l) (back p g).
Proof.
  intros [E Hs Hi Hd] Hp. destruct (settle_frame p l) as (Eh & _). split; [by rewrite Eh|by apply settle_ok| |set_solver].
  apply ids_ok_settle. eapply ids_ok_mono; [done|set_solver].
Qed.

Lemma core_watch l g h a : core l g -> g_watch g !! h = None -> is_watch_key h -> core (holdLocked a h l) (watching h a g).
Proof. intros [E Hs [] Hd] Hn Hk. split; simpl; [done|by apply hold_watch_ok|by split|done]. Qed.

Lemma core_unwatch l g h : core l g -> is_watch_key h -> core (release h l) (unwatched h g).
Proof.
  intros [E Hs [H1 H2 H3 H4] Hd] Hk. assert (l_heap (release h l) = l_heap l /\ l_seq (release h l) = l_seq l) as [E1 E2].
  { unfold release, releaseLocked. by destruct (l_holder l !! h). }
  assert (forall q, run (release h l) q = run l q) as Hr by (intros q; unfold run; by rewrite E1).
  split; [by rewrite E1|by apply release_watch_ok| |done].
  split; rewrite ?E1, ?E2; [done| | |done]; intros *; rewrite !Hr; [apply H2|apply H3].
Qed.
