(* ===== verification/LimiterPlan.v ===== *)
(** * Planning a firing, against the ledger

    The three phases of planLocked (asking for a run per cluster agent, sorting
    the ones that start from the ones that wait, reserving the starts) as ledger
    steps, and what a plan does with each agent. *)

From S2P Require Import Prelude GoStrings GoText Entry Automation FleetState Limiter LimiterLedger.
Local Open Scope string_scope.
Local Open Scope Z_scope.
Local Open Scope list_scope.

(** ** Which agents ask for a run *)

Definition off_cluster (ag : Agent) : bool := negb (String.eqb (dt_backend (Agent_DeployTarget ag)) BackendKubernetes).

Definition refused_of (c : runChecks) (st : State) (fleetName : string) (ag : Agent) : option (string * why) :=
  if off_cluster ag then None else pair (ag_name ag) <$> refusal c st fleetName ag.

Definition runs_on (c : runChecks) (st : State) (fleetName : string) (ag : Agent) : bool :=
  negb (off_cluster ag) && bool_decide (refusal c st fleetName ag = None).

(** A run as planLocked makes it. *)
Record fresh_run (c : runChecks) (st : State) (fleetName : string) (t : Trigger) (firing now seq0 : Z) (r : queuedRun) : Prop := {
  fr_fleet : r_fleet r = fleetName;
  fr_trigger : r_trigger r = tr_name t;
  fr_firing : r_firing r = firing;
  fr_queued : r_queuedAt r = now;
  fr_pending : r_pending r = true;
  fr_id : seq0 < r_id r;
  fr_agent : r_agent r = ag_name (r_def r);
  fr_cluster : r_cluster r = dt_kubeCluster (Agent_DeployTarget (r_def r));
  fr_runs : runs_on c st fleetName (r_def r) = true
}.

Lemma runs_on_cluster c st fleetName ag : runs_on c st fleetName ag = true -> dt_backend (Agent_DeployTarget ag) = BackendKubernetes.
Proof. unfold runs_on, off_cluster. rewrite negb_involutive. intros [E _]%andb_true_iff. by apply String.eqb_eq. Qed.

Lemma fresh_on_cluster c st fleetName t firing now seq0 first r : fresh_run c st fleetName t firing now seq0 r -> on_its_cluster (Plans c st first) r.
Proof. intros []. eexists. split; [done|]. split; [by eapply runs_on_cluster|done]. Qed.

(** What the asking leaves alone. *)
Record same_books (l l' : automationLimiter) : Prop := {
  sb_queues : l_queues l' = l_queues l;
  sb_starts : l_starts l' = l_starts l;
  sb_holds : l_holds l' = l_holds l;
  sb_holder : l_holder l' = l_holder l;
  sb_creating : l_creating l' = l_creating l
}.

#[export] Instance same_books_refl : Reflexive same_books.
Proof. by split. Qed.
#[export] Instance same_books_trans : Transitive same_books.
Proof. intros l1 l2 l3 [] []. split; congruence. Qed.

Section plan.
Context (c : runChecks) (st : State) (fleetName : string) (t : Trigger) (firing now : Z) (first : nat).
Notation steps := (rtc (ledger_step (Plans c st first))).

Record asked_spec (l0 : automationLimiter) (g0 : ledger) (seq0 : Z) (agents : list Agent) (a : asked) (g : ledger) : Prop := {
  ak_steps : steps g0 g;
  ak_core : core (as_l a) g;
  ak_books : same_books l0 (as_l a);
  ak_heap : forall p, (p < length (l_heap l0))%nat -> run (as_l a) p = run l0 p;
  ak_len : (length (l_heap l0) <= length (l_heap (as_l a)))%nat;
  ak_new : forall p, p ∈ as_runs a -> (length (l_heap l0) <= p < length (l_heap (as_l a)))%nat;
  ak_start : g_start g = g_start g0;
  ak_watch : g_watch g = g_watch g0;
  ak_wait : g_wait g = list_to_set (as_runs a) ∪ g_wait g0;
  ak_nodup : NoDup (as_runs a);
  ak_fresh : forall p, p ∈ as_runs a -> fresh_run c st fleetName t firing now seq0 (run (as_l a) p);
  ak_runs : map (fun p => r_def (run (as_l a) p)) (as_runs a) = filter (fun ag => runs_on c st fleetName ag = true) agents;
  ak_direct : as_direct a = filter (fun ag => off_cluster ag = true) agents;
  ak_refused : as_refused a = omap (refused_of c st fleetName) agents;
  ak_seq : seq0 <= l_seq (as_l a) <= seq0 + Z.of_nat (length agents)
}.

Lemma map_ext_in_elem {A B} (f f' : A -> B) (xs : list A) : (forall x, x ∈ xs -> f x = f' x) -> map f xs = map f' xs.
Proof. intros H. apply map_ext_in. intros x Hx%list_elem_of_In. by apply H. Qed.

Lemma new_run_asked l ag : off_cluster ag = false -> may_ask (Plans c st first) (new_run l firing fleetName t ag now).
Proof. unfold off_cluster. intros E%negb_false_iff%String.eqb_eq. split; [|done]. by eexists. Qed.

Lemma ask_step l0 g0 seq0 agents a g ag :
  asked_spec l0 g0 seq0 agents a g -> firing <= seq0 -> seq0 + Z.of_nat (length agents) + 1 < 2 ^ 64 ->
  exists g', asked_spec l0 g0 seq0 (agents ++ [ag]) (ask c st fleetName t firing now a ag) g'.
Proof.
  intros H Hfi Hroom. unfold ask. fold (off_cluster ag). destruct (off_cluster ag) eqn:Eo.
  { exists g. destruct H. split; simpl; try done.
    - rewrite ak_runs0, filter_app, filter_cons_False, app_nil_r; [done|]. unfold runs_on. by rewrite Eo.
    - by rewrite ak_direct0, filter_app, filter_cons_True.
    - rewrite ak_refused0, omap_app. simpl. replace (refused_of c st fleetName ag) with (@None (string * why)); [by rewrite app_nil_r|].
      unfold refused_of. by rewrite Eo.
    - rewrite length_app. simpl. lia. }
  destruct (refusal c st fleetName ag) as [w|] eqn:Er.
  { exists g. destruct H. split; simpl; try done.
    - rewrite ak_runs0, filter_app, filter_cons_False, app_nil_r; [done|]. unfold runs_on. rewrite Eo, Er. done.
    - rewrite ak_direct0, filter_app, filter_cons_False, app_nil_r; [done|congruence].
    - rewrite ak_refused0, omap_app. simpl. replace (refused_of c st fleetName ag) with (Some (ag_name ag, w)); [done|].
      unfold refused_of. by rewrite Eo, Er.
    - rewrite length_app. simpl. lia. }
  destruct H as [Hst Hco Hbk Hhp Hln Hnw Hs Hw Hwt Hnd Hfr Hru Hdi Hre Hseq].
  set (l1 := next_seq (as_l a)). set (r := new_run l1 firing fleetName t ag now).
  assert (u64 (l_seq (as_l a) + 1) = l_seq (as_l a) + 1) as Hu.
  { apply u64_small. destruct (co_ids _ _ Hco) as [_ _ _ ?]. lia. }
  assert (r_id r = l_seq (as_l a) + 1) as Hid by (unfold r, new_run, l1; simpl; lia).
  assert (length (l_heap l1) = length (l_heap (as_l a))) as Hlen by done.
  pose proof (co_heap _ _ Hco) as Hheap.
  exists (asked_for r g). split; simpl; try done.
  - eapply rtc_r; [exact Hst|]. apply ledger_ask; [by apply new_run_asked|]. intros p Hp. rewrite <- (core_run _ _ _ Hco), Hid.
    destruct (co_ids _ _ Hco) as [_ Hr _ _]. specialize (Hr p Hp). lia.
  - apply core_ask; [done|done|simpl; lia|lia].
  - etrans; [exact Hbk|]. by split.
  - intros p Hp. rewrite run_alloc by (simpl; lia). by apply Hhp.
  - rewrite length_app. simpl. lia.
  - intros p. rewrite length_app. simpl. intros [Hp%Hnw| ->%list_elem_of_singleton]%elem_of_app; lia.
  - rewrite Hwt, list_to_set_app_L, list_to_set_singleton_L, <- Hheap. set_solver.
  - apply NoDup_app. repeat split; [done| |apply NoDup_singleton]. intros p Hp%Hnw ->%list_elem_of_singleton. lia.
  - intros p [Hp| ->%list_elem_of_singleton]%elem_of_app.
    + rewrite run_alloc by (simpl; specialize (Hnw p Hp); lia). by apply Hfr.
    + rewrite run_alloc_at by done. split; try done; [lia|]. simpl. unfold runs_on. by rewrite Eo, Er.
  - rewrite map_app, filter_app, filter_cons_True, filter_nil; [|unfold runs_on; by rewrite Eo, Er]. cbn [map].
    rewrite run_alloc_at by done. f_equal. rewrite <- Hru. apply map_ext_in_elem. intros p Hp.
    by rewrite run_alloc by (simpl; specialize (Hnw p Hp); lia).
  - rewrite Hdi, filter_app, filter_cons_False, app_nil_r; [done|congruence].
  - rewrite Hre, omap_app. simpl. replace (refused_of c st fleetName ag) with (@None (string * why)); [by rewrite app_nil_r|].
    unfold refused_of. by rewrite Eo, Er.
  - rewrite Hu, length_app. simpl. lia.
Qed.

Lemma ask_all l0 g0 agents :
  core l0 g0 -> firing <= l_seq l0 -> l_seq l0 + Z.of_nat (length agents) < 2 ^ 64 ->
  exists g, asked_spec l0 g0 (l_seq l0) agents (foldl (ask c st fleetName t firing now) (MkAsked l0 [] [] []) agents) g.
Proof.
  intros Hc Hfi. induction agents as [|ag agents IH] using rev_ind; intros Hroom.
  - exists g0. split; simpl; try done; try apply NoDup_nil_2; try lia; try set_solver.
  - rewrite length_app in Hroom. simpl in Hroom. destruct IH as [g Hg]; [lia|]. rewrite foldl_snoc.
    eapply ask_step; [exact Hg|lia|lia].
Qed.

(** ** Sorting the runs that start from the ones that wait *)

Lemma run_with_why l p w q : r_id (run (set_run p (with_why w) l) q) = r_id (run l q) /\
  r_agent (run (set_run p (with_why w) l) q) = r_agent (run l q) /\ trigger_of (run (set_run p (with_why w) l) q) = trigger_of (run l q) /\
  r_cluster (run (set_run p (with_why w) l) q) = r_cluster (run l q) /\ r_firing (run (set_run p (with_why w) l) q) = r_firing (run l q).
Proof. rewrite run_set_run. destruct (decide _) as [[<- _]|]; done. Qed.

Lemma blocked_by_why l p w r b : blocked_by (set_run p (with_why w) l) r b = blocked_by l r b.
Proof.
  destruct b as [b|]; [done|]. unfold blocked_by. change (queue (set_run p (with_why w) l)) with (queue l).
  induction (queue l _) as [|q qs IH]; [done|]. simpl. rewrite IH. by destruct (run_with_why l p w q) as (-> & -> & _).
Qed.

Lemma waitLocked_why l p w st' r extra b : waitLocked c (set_run p (with_why w) l) st' r extra b now = waitLocked c l st' r extra b now.
Proof. unfold waitLocked. by rewrite blocked_by_why. Qed.

(** How many of [ps] are on a connection. *)
Definition on_cluster (l : automationLimiter) (ps : list nat) (cluster : string) : Z :=
  Z.of_nat (length (filter (fun p => r_cluster (run l p) = cluster) ps)).

Lemma on_cluster_snoc l ps p cl :
  on_cluster l (ps ++ [p]) cl = on_cluster l ps cl + (if decide (r_cluster (run l p) = cl) then 1 else 0).
Proof.
  unfold on_cluster. rewrite filter_app, length_app. destruct (decide _).
  - rewrite filter_cons_True by done. simpl. lia.
  - rewrite filter_cons_False by done. simpl. lia.
Qed.

Inductive starts_ok (l : automationLimiter) : list nat -> Prop :=
| starts_nil : starts_ok l []
| starts_snoc ps p : starts_ok l ps ->
    fst (waitLocked c l st (run l p) (on_cluster l ps (r_cluster (run l p))) None now) = None -> starts_ok l (ps ++ [p]).

Record sorted_spec (l0 : automationLimiter) (g0 : ledger) (runs : list nat) (s : sorted) (g : ledger) : Prop := {
  sp_steps : steps g0 g;
  sp_core : core (so_l s) g;
  sp_books : same_books l0 (so_l s);
  sp_seq : l_seq (so_l s) = l_seq l0;
  sp_len : length (l_heap (so_l s)) = length (l_heap l0);
  sp_run : forall p, exists w, run (so_l s) p = with_why w (run l0 p) /\ (p ∉ so_waiting s -> w = r_why (run l0 p));
  sp_start : g_start g = g_start g0;
  sp_wait : g_wait g = g_wait g0;
  sp_watch : g_watch g = g_watch g0;
  sp_starts : starts_ok l0 (so_start s);
  sp_extra : forall cl, default 0 (so_extra s !! cl) = on_cluster l0 (so_start s) cl;
  sp_perm : so_start s ++ so_waiting s ≡ₚ runs;
  sp_sub : so_start s `sublist_of` runs /\ so_waiting s `sublist_of` runs;
  sp_waits : forall p, p ∈ so_waiting s -> exists w extra, fst (waitLocked c l0 st (run l0 p) extra None now) = Some w
}.

Lemma with_why_id r : with_why (r_why r) r = r.
Proof. by destruct r. Qed.

Lemma wait_run_why r w l extra b : waitLocked c l st (with_why w r) extra b now = waitLocked c l st r extra b now.
Proof. done. Qed.

Lemma waitLocked_same l l' r extra :
  same_books l l' -> (forall q, exists w, run l' q = with_why w (run l q)) ->
  waitLocked c l' st r extra None now = waitLocked c l st r extra None now.
Proof.
  intros [E1 E2 E3 E4 E5] Hr. assert (blocked_by l' r None = blocked_by l r None) as Hb.
  { unfold blocked_by, queue. rewrite E1. induction (default [] _) as [|q qs IH]; [done|]. simpl. rewrite IH.
    by destruct (Hr q) as [w ->]. }
  unfold waitLocked. rewrite Hb. unfold held, quota_wait, creating. by rewrite E2, E3, E5.
Qed.

Lemma sort_step l0 g0 runs s g p :
  sorted_spec l0 g0 runs s g -> p ∉ runs -> p ∈ g_wait g0 -> p ∉ g_start g0 -> (first <= p)%nat ->
  exists g', sorted_spec l0 g0 (runs ++ [p]) (sort_run c st now s p) g'.
Proof.
  intros [Hst Hco Hbk Hsq Hln Hrn Hs Hw Hwa Hso Hex Hpm [Hsub1 Hsub2] Hwts] Hp Hpw Hps Hmine. unfold sort_run.
  destruct (Hrn p) as (w0 & Hw0 & _).
  assert (r_cluster (run (so_l s) p) = r_cluster (run l0 p)) as Hcl by (by rewrite Hw0).
  rewrite Hcl, Hex.
  assert (fst (waitLocked c (so_l s) st (run (so_l s) p) (on_cluster l0 (so_start s) (r_cluster (run l0 p))) None now) =
          fst (waitLocked c l0 st (run l0 p) (on_cluster l0 (so_start s) (r_cluster (run l0 p))) None now)) as Hwait.
  { rewrite Hw0, wait_run_why. f_equal. apply waitLocked_same; [done|]. intros q. destruct (Hrn q) as (w & Hq & _). by exists w. }
  rewrite Hwait. clear Hwait.
  destruct (fst (waitLocked c l0 st (run l0 p) (on_cluster l0 (so_start s) (r_cluster (run l0 p))) None now)) as [w|] eqn:Ew.
  - exists (touch p (with_why (Some w)) g). split; simpl; try done.
    + eapply rtc_r; [exact Hst|]. apply (ledger_touch _ g p (with_why (Some w))); [by split|]. split; [done|by left..].
    + apply core_touch; [done|by split|done].
    + etrans; [exact Hbk|by split].
    + etrans; [apply length_alter|done].
    + intros q. rewrite run_set_run. destruct (decide _) as [[<- _]|Hd].
      * exists (Some w). rewrite Hw0. split; [done|]. set_solver.
      * destruct (Hrn q) as (w' & Hq & Hq'). exists w'. split; [done|]. set_solver.
    + rewrite app_assoc, Hpm. done.
    + split; [by apply sublist_inserts_r|by apply sublist_app].
    + intros q [Hq| ->%list_elem_of_singleton]%elem_of_app; [by apply Hwts|]. eauto.
  - exists g. split; simpl; try done.
    + by constructor.
    + intros cl. rewrite on_cluster_snoc. destruct (decide (r_cluster (run l0 p) = cl)) as [<-|Hd].
      * by rewrite lookup_insert_eq.
      * rewrite lookup_insert_ne by done. rewrite Hex. lia.
    + rewrite <- Hpm. rewrite <- !app_assoc. apply Permutation_app_head. apply Permutation_app_comm.
    + split; [by apply sublist_app|by apply sublist_inserts_r].
Qed.

Lemma sort_all l0 g0 runs :
  core l0 g0 -> NoDup runs -> (forall p, p ∈ runs -> p ∈ g_wait g0 /\ (first <= p)%nat) ->
  exists g, sorted_spec l0 g0 runs (foldl (sort_run c st now) (MkSorted l0 ∅ [] []) runs) g.
Proof.
  intros Hc. induction runs as [|p runs IH] using rev_ind; intros Hnd Hw.
  - exists g0. split; simpl; try done.
    + intros p. exists (r_why (run l0 p)). by rewrite with_why_id.
    + constructor.
    + set_solver.
  - apply NoDup_app in Hnd as (Hnd & Hd & _). destruct IH as [g Hg]; [done|set_solver|]. rewrite foldl_snoc.
    destruct (Hw p) as [Hpw Hpf]; [set_solver|]. eapply sort_step; [exact Hg|set_solver|done| |done]. destruct Hc as [_ _ _ Hdis]. set_solver.
Qed.

(** ** Reserving *)

(** What a run that need not wait has checked. *)
Lemma waitLocked_free l r extra b until :
  waitLocked c l st r extra b now = (None, until) ->
  blocked_by l r b = false /\
  (forall lim, limits c (r_cluster r) = Some lim -> 0 < cl_maxPerAgent lim -> Z.of_nat (size (held l (agent_of r))) < cl_maxPerAgent lim) /\
  (forall q, quota c = Some q -> default "" (q st (r_cluster r) (creating l (r_cluster r) + extra)) = "").
Proof.
  unfold waitLocked. destruct (blocked_by l r b); [done|]. unfold agent_of.
  destruct (_ && _) eqn:Em; [done|]. intros H. split; [done|]. split.
  - intros lim Hl Hm. rewrite Hl in Em. simpl in Em. apply andb_false_iff in Em as [Em|Em]; lia.
  - intros q Hq. unfold quota_wait in H. rewrite Hq in H. destruct (q st _ _) as [msg|]; [|done]. unfold message in H. simpl.
    destruct (String.eqb_spec msg ""); [done|]. done.
Qed.

Lemma wait_admissible l g p extra b until :
  core l g -> is_Some (limits c (r_cluster (run l p))) -> waitLocked c l st (run l p) extra b now = (None, until) ->
  live_of g (agent_of (run l p)) = Z.of_nat (size (held l (agent_of (run l p)))) ->
  starting_on g (r_cluster (run l p)) = creating l (r_cluster (run l p)) + extra ->
  (forall q, q ∈ g_wait g -> trigger_of (run l q) = trigger_of (run l p) -> r_agent (run l q) = r_agent (run l p) ->
     r_id (run l p) <= r_id (run l q)) ->
  admissible c st g p.
Proof.
  intros Hc Hcon Hw Hlive Hcr Hord. apply waitLocked_free in Hw as (Hb & Hm & Hq).
  split; rewrite <- (core_run _ _ _ Hc); [done| | |].
  - intros lim Hl H0. rewrite Hlive. by apply Hm.
  - intros q Hquota. rewrite Hcr. by apply Hq.
  - intros q Hqw. rewrite <- (core_run _ _ q Hc). by apply Hord.
Qed.

Lemma live_of_held l g a : core l g -> live_of g a = Z.of_nat (size (held l a)).
Proof.
  intros Hc. rewrite (held_live _ _ _ a (co_slots _ _ Hc)). unfold live_of.
  rewrite (filter_runs (fun p => agent_of (run l p)) (fun p => agent_of (run_in g p))); [lia|]. intros q _. by rewrite (core_run _ _ _ Hc).
Qed.

Lemma starting_on_creating l g cl : core l g -> cl <> "" -> starting_on g cl = creating l cl.
Proof.
  intros Hc Hne. destruct (co_slots _ _ Hc) as [_ _ Hcr _ _ _]. rewrite Hcr by done. unfold starting_on.
  rewrite (filter_runs (fun p => r_cluster (run l p)) (fun p => r_cluster (run_in g p))); [lia|]. intros q _. by rewrite (core_run _ _ _ Hc).
Qed.

Record reserved_spec (l0 : automationLimiter) (g0 : ledger) (ps : list nat) (l : automationLimiter) (g : ledger) : Prop := {
  rv_steps : steps g0 g;
  rv_core : core l g;
  rv_heap : l_heap l = l_heap l0;
  rv_seq : l_seq l = l_seq l0;
  rv_queues : l_queues l = l_queues l0;
  rv_start : g_start g = list_to_set ps ∪ g_start g0;
  rv_wait : g_wait g = g_wait g0 ∖ list_to_set ps;
  rv_watch : g_watch g = g_watch g0;
  rv_held : forall a, (forall p, p ∈ ps -> agent_of (run l0 p) <> a) -> held l a = held l0 a;
  rv_creating : forall cl, creating l cl = creating l0 cl + on_cluster l0 ps cl
}.

Lemma reserve_step l0 g0 ps l g p :
  reserved_spec l0 g0 ps l g -> p ∈ g_wait g0 -> (first <= p)%nat -> on_its_cluster (Plans c st first) (run l0 p) -> p ∉ ps -> r_cluster (run l0 p) <> "" ->
  is_Some (limits c (r_cluster (run l0 p))) ->
  fst (waitLocked c l0 st (run l0 p) (on_cluster l0 ps (r_cluster (run l0 p))) None now) = None ->
  (forall q, q ∈ ps -> agent_of (run l0 q) <> agent_of (run l0 p)) ->
  (forall q, q ∈ g_wait g0 -> trigger_of (run l0 q) = trigger_of (run l0 p) -> r_agent (run l0 q) = r_agent (run l0 p) ->
     q ∈ queue l0 (trigger_of (run l0 p)) \/ q = p) ->
  exists g', reserved_spec l0 g0 (ps ++ [p]) (reserveLocked now p l) g'.
Proof.
  intros [Hst Hco Hhp Hsq Hqu Hs Hw Hwa Hhe Hcr] Hp Hmine Hon Hnp Hcl Hlim Hwait Hag Hord.
  assert (forall q, run l q = run l0 q) as Hrun by (intros q; unfold run; by rewrite Hhp).
  assert (p ∈ g_wait g) as Hpw by (rewrite Hw; set_solver).
  exists (admitted p g). split; simpl; try done.
  - eapply rtc_r; [exact Hst|]. apply (ledger_admit _ c st); [done|done|done|by rewrite <- (core_run _ _ _ Hco), Hrun|].
    destruct (waitLocked c l0 st (run l0 p) _ None now) as [w until] eqn:Ew. simpl in Hwait. subst w.
    apply waitLocked_free in Ew as (Hb & Hm & Hq).
    split; rewrite <- (core_run _ _ _ Hco), Hrun; [done| | |].
    + intros lim Hl H0. rewrite (live_of_held _ _ _ Hco), Hhe by (intros q Hq'; by apply Hag). by apply Hm.
    + intros q Hquota. rewrite (starting_on_creating _ _ _ Hco), Hcr by done. by apply Hq.
    + intros q Hqw. rewrite <- (core_run _ _ _ Hco), Hrun. intros Ht Ha. destruct (Hord q) as [Hin| ->]; [set_solver|done|done| |lia].
      unfold blocked_by in Hb. rewrite <- not_true_iff_false, existsb_exists in Hb.
      destruct (Z.le_gt_cases (r_id (run l0 p)) (r_id (run l0 q))) as [?|Hlt]; [done|]. destruct Hb. exists q.
      split; [by apply list_elem_of_In|]. apply andb_true_iff. split; [by apply String.eqb_eq|by apply Z.ltb_lt].
  - by apply core_admit.
  - rewrite Hs, list_to_set_app_L. set_solver.
  - rewrite Hw, list_to_set_app_L. set_solver.
  - intros a Ha. assert (held (reserveLocked now p l) a = held (holdLocked (agent_of (run l p)) (reservation (run l p)) l) a) as -> by done.
    unfold holdLocked. rewrite held_insert, Hrun. rewrite decide_False; [|apply Ha; set_solver]. apply Hhe. set_solver.
  - intros cl. rewrite on_cluster_snoc. unfold creating at 1. simpl. rewrite Hrun. destruct (decide _) as [<-|Hd].
    + rewrite lookup_insert_eq. simpl. assert (forall x, default 0 (l_creating l !! x) = creating l x) as Hx by done.
      unfold creating at 1. simpl. rewrite Hx, Hcr. lia.
    + rewrite lookup_insert_ne by done. change (default 0 (l_creating l !! cl)) with (creating l cl). rewrite Hcr. lia.
Qed.

Lemma reserve_all_fst ps l marks : fst (reserve_all now ps (l, marks)) = foldl (fun l p => reserveLocked now p l) l ps.
Proof. revert l marks. induction ps as [|p ps IH]; intros l marks; [done|]. unfold reserve_all in *. simpl. apply IH. Qed.

Lemma reserve_all_ok l0 g0 ps :
  core l0 g0 -> NoDup ps -> starts_ok l0 ps ->
  (forall p, p ∈ ps -> p ∈ g_wait g0 /\ (first <= p)%nat /\ on_its_cluster (Plans c st first) (run l0 p)) ->
  (forall p, p ∈ ps -> r_cluster (run l0 p) <> "" /\ is_Some (limits c (r_cluster (run l0 p)))) ->
  (forall p q, p ∈ ps -> q ∈ ps -> agent_of (run l0 q) = agent_of (run l0 p) -> q = p) ->
  (forall p q, p ∈ ps -> q ∈ g_wait g0 -> trigger_of (run l0 q) = trigger_of (run l0 p) -> r_agent (run l0 q) = r_agent (run l0 p) ->
     q ∈ queue l0 (trigger_of (run l0 p)) \/ q = p) ->
  exists g, reserved_spec l0 g0 ps (foldl (fun l p => reserveLocked now p l) l0 ps) g.
Proof.
  intros Hc. induction ps as [|p ps IH] using rev_ind; intros Hnd Hso Hpw Hps Hag Hord.
  - exists g0. split; simpl; try done; [set_solver..|]. intros cl. unfold on_cluster. simpl. lia.
  - apply NoDup_app in Hnd as (Hnd & Hd & _). inversion Hso as [|ps' p' Hso' Hw E]; [by destruct ps|].
    apply app_inj_tail in E as [-> ->]. destruct IH as [g Hg]; [done|done|set_solver..|]. rewrite foldl_snoc.
    destruct (Hps p) as (Hp2 & Hp3); [set_solver|]. destruct (Hpw p) as (Hp1 & Hpf & Hpo); [set_solver|].
    eapply reserve_step; [exact Hg|done|done|done|set_solver|done|done|done| |].
    + intros q Hq E. assert (q = p) as -> by (apply Hag; set_solver). set_solver.
    + intros q Hq. apply Hord; [set_solver|done].
Qed.
End plan.

(** ** A plan *)

(** No connection has the empty id. *)
Definition checks_ok (c : runChecks) : Prop := limits c "" = None.

Lemma agentKey_inj_r f a a' : agentKey f a = agentKey f a' -> a = a'.
Proof. unfold agentKey. induction f as [|x f IH]; simpl; intros H; injection H; [done|]. auto. Qed.

Lemma NoDup_map_filter {A B} (f : A -> B) (P : A -> Prop) `{!forall x, Decision (P x)} xs : NoDup (map f xs) -> NoDup (map f (filter P xs)).
Proof.
  induction xs as [|x xs IH]; simpl; [done|]. intros [Hx Hnd]%NoDup_cons. rewrite filter_cons. destruct (decide (P x)); [|by apply IH].
  simpl. constructor; [|by apply IH]. intros (y & E & [_ Hy]%list_elem_of_filter)%list_elem_of_fmap. destruct Hx.
  rewrite E. by apply list_elem_of_fmap_2.
Qed.

(** What planning leaves: the ledger moved by its own steps, and the plan says how. *)
Record planned (c : runChecks) (st : State) (fleetName : string) (t : Trigger) (agents : list Agent)
    (l : automationLimiter) (g : ledger) (l' : automationLimiter) (p : firingPlan) (g' : ledger) : Prop := {
  pn_steps : rtc (ledger_step (Plans c st (length (l_heap l)))) g g';
  pn_rep : represents l' g';
  pn_start : g_start g' = list_to_set (pl_start p) ∪ g_start g;
  pn_wait : g_wait g' = list_to_set (pl_queued p) ∪ g_wait g;
  pn_watch : g_watch g' = g_watch g;
  pn_nodup : NoDup (pl_start p ++ pl_queued p);
  pn_new : forall q, q ∈ pl_start p ++ pl_queued p -> (length (l_heap l) <= q)%nat;
  pn_old : forall q, (q < length (l_heap l))%nat -> run l' q = run l q;
  pn_len : (length (l_heap l) <= length (l_heap l'))%nat;
  pn_firing : pl_firing p = l_seq l + 1;
  pn_seq : l_seq l + 1 <= l_seq l' <= l_seq l + 1 + Z.of_nat (length agents)
}.

Lemma drop_all k g ps : (forall p r, p ∈ ps -> may_drop k p r) -> rtc (ledger_step k) g (MkLedger (g_runs g) (g_wait g ∖ list_to_set ps) (g_start g) (g_watch g)).
Proof.
  intros Hd. revert g. induction ps as [|p ps IH]; intros g; simpl.
  - rewrite difference_empty_L. destruct g. by constructor.
  - eapply rtc_l; [apply (ledger_drop k g p), Hd; set_solver|]. specialize (IH ltac:(set_solver) (dropped p g)). simpl in IH.
    replace (g_wait g ∖ ({[p]} ∪ list_to_set ps)) with (g_wait g ∖ {[p]} ∖ list_to_set ps) by set_solver. done.
Qed.

Lemma core_drops l g ps : core l g -> core l (MkLedger (g_runs g) (g_wait g ∖ list_to_set ps) (g_start g) (g_watch g)).
Proof. intros [E Hs Hi Hd]. split; simpl; [done..| |set_solver]. eapply ids_ok_mono; [done|set_solver]. Qed.

Lemma queue_elem_wait l g key p : represents l g -> p ∈ queue l key -> p ∈ g_wait g.
Proof. intros [_ _ [H1 H2 _] _ _] Hp. apply H2. by rewrite (H1 _ _ Hp). Qed.

Lemma queue_set_queues l key qs k : queue (set_queues (<[key := qs]> (l_queues l)) l) k = if decide (key = k) then qs else queue l k.
Proof. unfold queue. simpl. destruct (decide _) as [<-|]; [by rewrite lookup_insert_eq|by rewrite lookup_insert_ne]. Qed.

(** The limiter after the runs are asked for and sorted, before any is reserved. *)
Record presorted (c : runChecks) (st : State) (fleetName : string) (t : Trigger) (now : Z) (agents : list Agent)
    (l : automationLimiter) (g : ledger) (a : asked) (s : sorted) (gs : ledger) : Prop := {
  ps_steps : rtc (ledger_step (Plans c st (length (l_heap l)))) g gs;
  ps_core : core (so_l s) gs;
  ps_books : same_books l (so_l s);
  ps_old : forall p, (p < length (l_heap l))%nat -> run (so_l s) p = run l p;
  ps_new : forall p, p ∈ as_runs a -> (length (l_heap l) <= p)%nat;
  ps_len : (length (l_heap l) <= length (l_heap (so_l s)))%nat;
  ps_wait : g_wait gs = list_to_set (as_runs a) ∪ g_wait g;
  ps_start : g_start gs = g_start g;
  ps_watch : g_watch gs = g_watch g;
  ps_starts : starts_ok c st now (so_l s) (so_start s);
  ps_perm : so_start s ++ so_waiting s ≡ₚ as_runs a;
  ps_nodup : NoDup (as_runs a);
  ps_fresh : forall p, p ∈ as_runs a ->
    fresh_run c st fleetName t (l_seq (next_seq l)) now (l_seq (next_seq l)) (run (so_l s) p);
  ps_defs : map (fun p => r_def (run (so_l s) p)) (as_runs a) = filter (fun ag => runs_on c st fleetName ag = true) agents;
  ps_direct : as_direct a = filter (fun ag => off_cluster ag = true) agents;
  ps_refused : as_refused a = omap (refused_of c st fleetName) agents;
  ps_seq : l_seq l + 1 <= l_seq (so_l s) <= l_seq l + 1 + Z.of_nat (length agents)
}.

Lemma starts_ok_same c st now l l' ps :
  same_books l l' -> (forall q, exists w, run l' q = with_why w (run l q)) -> starts_ok c st now l ps -> starts_ok c st now l' ps.
Proof.
  intros Hb Hr. assert (forall qs cl, on_cluster l' qs cl = on_cluster l qs cl) as Hon.
  { intros qs cl. induction qs as [|q qs IH] using rev_ind; [done|]. rewrite !on_cluster_snoc, IH. by destruct (Hr q) as [w ->]. }
  induction 1 as [|ps p Hps IH Hw]; constructor; [done|]. rewrite Hon. destruct (Hr p) as [w ->].
  rewrite wait_run_why. change (r_cluster (with_why w (run l p))) with (r_cluster (run l p)).
  by rewrite (waitLocked_same c st now l l').
Qed.

Lemma fresh_run_why c st f t firing now s0 r w : fresh_run c st f t firing now s0 r -> fresh_run c st f t firing now s0 (with_why w r).
Proof. intros []. by split. Qed.

Lemma presort c st fleetName t now agents l g :
  core l g -> l_seq l + 1 + Z.of_nat (length agents) < 2 ^ 64 ->
  let l1 := next_seq l in
  let a := foldl (ask c st fleetName t (l_seq l1) now) (MkAsked l1 [] [] []) agents in
  let s := foldl (sort_run c st now) (MkSorted (as_l a) ∅ [] []) (as_runs a) in
  exists gs, presorted c st fleetName t now agents l g a s gs.
Proof.
  intros Hc Hroom l1 a s. destruct (co_ids _ _ Hc) as [_ _ _ H0].
  assert (l_seq l1 = l_seq l + 1) as Hs1 by (unfold l1, next_seq; simpl; apply u64_small; lia).
  assert (core l1 g) as Hc1 by (eapply core_ext; [exact Hc|done..|lia]).
  destruct (ask_all c st fleetName t (l_seq l1) now (length (l_heap l)) l1 g agents Hc1) as [ga Ha]; [lia|lia|]. fold a in Ha.
  destruct Ha as [Hst Hco Hbk Hhp Hln Hnw Hs Hw Hwt Hnd Hfr Hru Hdi Hre Hseq].
  destruct (sort_all c st now (length (l_heap l)) (as_l a) ga (as_runs a) Hco Hnd) as [gs Hgs].
  { intros p Hp. split; [rewrite Hwt; set_solver|]. apply Hnw in Hp as [Hp _]. exact Hp. } fold s in Hgs.
  destruct Hgs as [Hst' Hco' Hbk' Hsq' Hln' Hrn' Hs' Hw' Hwa' Hso' _ Hpm' _ _].
  exists gs. split; try done.
  - by etrans.
  - etrans; [|exact Hbk']. etrans; [|exact Hbk]. by split.
  - intros p Hp. destruct (Hrn' p) as (w & Hr & Hw0). rewrite Hw0 in Hr.
    + rewrite with_why_id in Hr. rewrite Hr. by apply Hhp.
    + intros Hin. assert (p ∈ as_runs a) as Hin' by (rewrite <- Hpm'; set_solver). apply Hnw in Hin'. simpl in Hin'. lia.
  - intros p Hp%Hnw. simpl in Hp. lia.
  - simpl in Hln. lia.
  - by rewrite Hw', Hwt.
  - by rewrite Hs', Hs.
  - by rewrite Hwa', Hw.
  - eapply starts_ok_same; [exact Hbk'| |exact Hso']. intros q. destruct (Hrn' q) as (w & Hr & _). by exists w.
  - intros p Hp. destruct (Hrn' p) as (w & -> & _). by apply fresh_run_why, Hfr.
  - rewrite <- Hru. apply map_ext_in_elem. intros p _. by destruct (Hrn' p) as (w & -> & _).
  - rewrite Hsq'. lia.
Qed.

Lemma presorted_agents c st fleetName t now agents l g a s gs :
  presorted c st fleetName t now agents l g a s gs -> NoDup (map ag_name agents) ->
  forall p q, p ∈ as_runs a -> q ∈ as_runs a -> r_agent (run (so_l s) p) = r_agent (run (so_l s) q) -> p = q.
Proof.
  intros H Hnd p q Hp Hq E. destruct H.
  assert (NoDup (map (fun p => r_agent (run (so_l s) p)) (as_runs a))) as Hag.
  { rewrite (map_ext_in_elem _ (fun p => ag_name (r_def (run (so_l s) p)))) by (intros x Hx; by destruct (ps_fresh0 x Hx)).
    rewrite <- (map_map (fun p => r_def (run (so_l s) p)) ag_name), ps_defs0.
    by apply NoDup_map_filter. }
  by eapply NoDup_map_inj.
Qed.

(** The first half of planning ends in a state whose waiting runs are queued or the plan's. *)
Lemma presorted_order c st fleetName t now agents l g a s gs :
  represents l g -> presorted c st fleetName t now agents l g a s gs -> NoDup (map ag_name agents) ->
  forall p q, p ∈ as_runs a -> q ∈ g_wait gs -> trigger_of (run (so_l s) q) = trigger_of (run (so_l s) p) ->
    r_agent (run (so_l s) q) = r_agent (run (so_l s) p) -> q ∈ queue (so_l s) (trigger_of (run (so_l s) p)) \/ q = p.
Proof.
  intros Hrep Hps Hnd p q Hp Hq Ht Ha. pose proof (presorted_agents _ _ _ _ _ _ _ _ _ _ _ Hps Hnd) as Hinj. destruct Hps.
  rewrite ps_wait0 in Hq. apply elem_of_union in Hq as [Hq|Hq].
  - right. apply Hinj; [by apply elem_of_list_to_set in Hq|done|done].
  - left. destruct Hrep as [_ _ [_ H2 _] [Hi _ _ _] _]. rewrite <- Ht.
    assert (queue (so_l s) = queue l) as -> by (unfold queue; by destruct ps_books0 as [-> _ _ _ _]).
    rewrite ps_old0 by (apply Hi; set_solver). by apply H2.
Qed.

(** New runs at the end of one queue. *)
Lemma queues_append l l' Q key ws :
  queues_ok l Q -> (forall p, p ∈ Q -> (p < length (l_heap l))%nat) ->
  (forall p, (p < length (l_heap l))%nat -> run l' p = run l p) ->
  (forall p, p ∈ ws -> (length (l_heap l) <= p)%nat /\ trigger_of (run l' p) = key) -> NoDup ws ->
  (forall k, queue l' k = if decide (key = k) then queue l k ++ ws else queue l k) ->
  queues_ok l' (list_to_set ws ∪ Q).
Proof.
  intros [H1 H2 H3] HQ Hrun Hws Hnd Hq.
  assert (forall k p, p ∈ queue l k -> (p < length (l_heap l))%nat) as Hheap.
  { intros k p Hp. apply HQ, H2. by rewrite (H1 _ _ Hp). }
  split.
  - intros k p. rewrite Hq. destruct (decide _) as [<-|]; [rewrite elem_of_app; intros [Hp|Hp]|intros Hp].
    + rewrite Hrun by (by eapply Hheap). by apply H1.
    + by apply Hws.
    + rewrite Hrun by (by eapply Hheap). by apply H1.
  - intros p. rewrite Hq, elem_of_union, elem_of_list_to_set. split.
    + intros [Hp|Hp]; [destruct (Hws p Hp) as [_ ->]; rewrite decide_True by done; set_solver|].
      rewrite Hrun by (by apply HQ). apply H2 in Hp. destruct (decide _); set_solver.
    + intros Hp. assert (p ∈ queue l (trigger_of (run l' p)) \/ p ∈ ws) as [Hp'|?] by (destruct (decide _); set_solver); [|by left].
      right. rewrite Hrun in Hp' by (by eapply Hheap). by apply H2.
  - intros k. rewrite Hq. destruct (decide _); [|done]. apply NoDup_app. split; [done|]. split; [|done].
    intros p Hp%Hheap Hp'%Hws. lia.
Qed.

Section planned.
Context (c : runChecks) (st : State) (fleetName : string) (t : Trigger) (agents : list Agent) (now : Z).
Context (l : automationLimiter) (g : ledger) (a : asked) (s : sorted) (gs : ledger).
Context (Hchk : checks_ok c) (Hrep : represents l g) (Hnd : NoDup (map ag_name agents)) (Hroom : l_seq l + 1 < 2 ^ 64).
Context (Hps : presorted c st fleetName t now agents l g a s gs).
Let key := firedKey fleetName (tr_name t).

Lemma next_seq_room : l_seq (next_seq l) = l_seq l + 1.
Proof. destruct (re_ids _ _ Hrep) as [_ _ _ H0]. apply u64_small. lia. Qed.

Lemma presorted_queue : queue (so_l s) = queue l.
Proof. unfold queue. by destruct (ps_books _ _ _ _ _ _ _ _ _ _ _ Hps) as [-> _ _ _ _]. Qed.

Lemma wait_heap p : p ∈ g_wait g -> (p < length (l_heap l))%nat.
Proof. intros Hp. destruct (re_ids _ _ Hrep) as [Hi _ _ _]. apply Hi. set_solver. Qed.

Lemma presorted_key p : p ∈ as_runs a -> trigger_of (run (so_l s) p) = key.
Proof. intros Hp. destruct (ps_fresh _ _ _ _ _ _ _ _ _ _ _ Hps p Hp). unfold trigger_of, key. congruence. Qed.

Lemma presorted_sub p : p ∈ so_start s ++ so_waiting s <-> p ∈ as_runs a.
Proof. by rewrite (ps_perm _ _ _ _ _ _ _ _ _ _ _ Hps). Qed.

Lemma presorted_cluster p : p ∈ as_runs a ->
  r_cluster (run (so_l s) p) <> "" /\ is_Some (limits c (r_cluster (run (so_l s) p))).
Proof.
  intros Hp. destruct (ps_fresh _ _ _ _ _ _ _ _ _ _ _ Hps p Hp).
  assert (is_Some (limits c (r_cluster (run (so_l s) p)))) as Hl.
  { rewrite fr_cluster0. unfold runs_on in fr_runs0. apply andb_true_iff in fr_runs0 as [_ Hrf]. apply bool_decide_eq_true in Hrf.
    unfold refusal in Hrf. destruct (limits c _) eqn:El; [by eexists|done]. }
  split; [|done]. intros E. rewrite E in Hl. unfold checks_ok in Hchk. rewrite Hchk in Hl. by destruct Hl.
Qed.

Lemma plan_dropped_ok d ra :
  exists g', planned c st fleetName t agents l g (so_l s) (MkPlan fleetName t (l_seq (next_seq l)) [] [] [] [] (Some d) ra ∅) g'.
Proof.
  exists (MkLedger (g_runs gs) (g_wait gs ∖ list_to_set (as_runs a)) (g_start gs) (g_watch gs)).
  pose proof wait_heap as Hwh. pose proof Hps as []. pose proof Hrep as [Hco Hq]%represents_core.
  assert (g_wait gs ∖ list_to_set (as_runs a) = list_to_set [] ∪ g_wait g) as Hw.
  { rewrite ps_wait0. apply set_eq. intros p. rewrite elem_of_difference, !elem_of_union, elem_of_list_to_set. simpl.
    split; [set_solver|]. intros [Hp|Hp]; [set_solver|]. split; [by right|]. intros Hp'%ps_new0. apply Hwh in Hp. lia. }
  pose proof next_seq_room as Hns. split; simpl; try done; try lia.
  - etrans; [exact ps_steps0|]. apply drop_all. intros p r Hp. by apply ps_new0.
  - apply represents_core. split; [by apply core_drops|]. simpl. rewrite Hw.
    eapply (queues_append l _ _ key); [done..|set_solver|apply NoDup_nil_2|]. intros k. rewrite presorted_queue, app_nil_r. by destruct (decide _).
  - rewrite ps_start0. set_solver.
  - apply NoDup_nil_2.
  - set_solver.
Qed.

Lemma reserve_starts_ok : exists gr, reserved_spec c st (length (l_heap l)) (so_l s) gs (so_start s) (foldl (fun l p => reserveLocked now p l) (so_l s) (so_start s)) gr.
Proof.
  pose proof (presorted_agents _ _ _ _ _ _ _ _ _ _ _ Hps Hnd) as Hinj.
  pose proof (presorted_order _ _ _ _ _ _ _ _ _ _ _ Hrep Hps Hnd) as Hord.
  assert (forall p, p ∈ so_start s -> p ∈ as_runs a) as Hsub by (intros p Hp; rewrite <- presorted_sub; set_solver).
  pose proof Hps as []. apply reserve_all_ok; try done.
  - assert (NoDup (so_start s ++ so_waiting s)) as Hn by (by rewrite ps_perm0). by apply NoDup_app in Hn as (? & _).
  - intros p Hp. split; [rewrite ps_wait0; set_solver|]. split; [by apply ps_new0, Hsub|]. by eapply fresh_on_cluster, ps_fresh0, Hsub.
  - intros p Hp. apply presorted_cluster. by apply Hsub.
  - intros p q Hp Hq E. apply Hinj; [by apply Hsub..|]. destruct (ps_fresh0 p (Hsub p Hp)), (ps_fresh0 q (Hsub q Hq)).
    unfold agent_of in E. rewrite fr_fleet0, fr_fleet1 in E. by apply agentKey_inj_r in E.
  - intros p q Hp. apply Hord. by apply Hsub.
Qed.

Lemma plan_reserved_ok marks :
  let lr := foldl (fun l p => reserveLocked now p l) (so_l s) (so_start s) in
  exists g', planned c st fleetName t agents l g (set_queues (<[key := queue lr key ++ so_waiting s]> (l_queues lr)) lr)
    (MkPlan fleetName t (l_seq (next_seq l)) (as_direct a) (so_start s) (so_waiting s) (as_refused a) None 0 marks) g'.
Proof.
  intros lr. destruct reserve_starts_ok as [gr [Hst Hcr Hhp Hsq Hqu Hs Hw Hwa _ _]]. fold lr in Hcr, Hhp, Hsq, Hqu.
  pose proof wait_heap as Hwh. pose proof presorted_sub as Hsub. pose proof presorted_key as Hkey. pose proof Hps as [].
  pose proof Hrep as [Hco Hq]%represents_core.
  assert (NoDup (so_start s ++ so_waiting s)) as Hnd' by (by rewrite ps_perm0).
  assert (queue lr = queue l) as Hqlr by (unfold queue at 1; rewrite Hqu; exact presorted_queue).
  assert (g_wait gr = list_to_set (so_waiting s) ∪ g_wait g) as Hwr.
  { rewrite Hw, ps_wait0. apply set_eq. intros p. rewrite elem_of_difference, !elem_of_union, !elem_of_list_to_set, <- Hsub, elem_of_app.
    apply NoDup_app in Hnd' as (_ & Hd & _). split; [tauto|]. intros [Hp|Hp]; (split; [tauto|]); intros Hp'; [by apply (Hd p)|].
    apply Hwh in Hp. assert (p ∈ as_runs a) as Hn%ps_new0 by (apply Hsub; set_solver). lia. }
  exists gr. split; simpl; try done; [by etrans| |..].
  - apply represents_core. split; [eapply core_ext; [exact Hcr|done..|simpl; lia]|]. rewrite Hwr.
    assert (forall p, run (set_queues (<[key := queue lr key ++ so_waiting s]> (l_queues lr)) lr) p = run (so_l s) p) as Hrun
      by (intros p; unfold run; simpl; by rewrite Hhp).
    eapply (queues_append l _ _ key); [done|done| | |by apply NoDup_app in Hnd' as (_ & _ & ?)|].
    + intros p Hp. rewrite Hrun. by apply ps_old0.
    + intros p Hp. assert (p ∈ as_runs a) as Hp' by (apply Hsub; set_solver). rewrite Hrun. auto.
    + intros k. rewrite queue_set_queues, Hqlr. by destruct (decide _) as [<-|].
  - by rewrite Hs, ps_start0.
  - by rewrite Hwa.
  - intros q Hq'. apply ps_new0. by apply Hsub.
  - intros q Hq'. unfold run. simpl. rewrite Hhp. by apply ps_old0.
  - by rewrite Hhp.
  - exact next_seq_room.
  - rewrite Hsq. lia.
Qed.
End planned.

Lemma planLocked_ok c st fleetName t agents now l g :
  checks_ok c -> represents l g -> l_seq l + 1 + Z.of_nat (length agents) < 2 ^ 64 -> NoDup (map ag_name agents) ->
  exists g', planned c st fleetName t agents l g (fst (planLocked c st fleetName t agents now l))
    (snd (planLocked c st fleetName t agents now l)) g'.
Proof.
  intros Hchk Hrep Hroom Hnd. pose proof Hrep as [Hco Hq]%represents_core.
  destruct (presort c st fleetName t now agents l g Hco Hroom) as [gs Hps]. unfold planLocked. cbv zeta.
  set (a := foldl (ask c st fleetName t (l_seq (next_seq l)) now) _ agents) in *.
  set (s := foldl (sort_run c st now) _ (as_runs a)) in *.
  destruct (_ && _); [eapply plan_dropped_ok; try done; lia|].
  destruct (reserve_all now (so_start s) (so_l s, ∅)) as [lr marks] eqn:Er.
  assert (lr = foldl (fun l p => reserveLocked now p l) (so_l s) (so_start s)) as -> by (by rewrite <- (reserve_all_fst now _ _ ∅), Er).
  apply (plan_reserved_ok _ _ _ _ _ _ _ _ a s gs); try done; lia.
Qed.
