(* ===== verification/LimiterOps.v ===== *)
(** * The other operations of the limiter, against the ledger

    commit, postpone, discard, started, requeue, restoreQueued and the draining
    of the queues as sequences of ledger steps. *)

From S2P Require Import Prelude GoStrings GoText Entry Automation FleetState Limiter LimiterLedger LimiterPlan.
Local Open Scope string_scope.
Local Open Scope Z_scope.
Local Open Scope list_scope.

(** ** Runs on their way between the books *)

(** The ledger with the waiting runs of [N] not in their queues yet. *)
Record partial (l : automationLimiter) (g : ledger) (N : gset nat) : Prop := {
  pa_core : core l g;
  pa_queues : queues_ok l (g_wait g ∖ N);
  pa_new : N ⊆ g_wait g
}.

Lemma represents_partial l g : represents l g <-> partial l g ∅.
Proof.
  rewrite represents_core. split.
  - intros [Hc Hq]. split; [done|by rewrite difference_empty_L|set_solver].
  - intros [Hc Hq _]. by rewrite difference_empty_L in Hq.
Qed.

(** Queues read the trigger of a run only. *)
Lemma queues_ok_same l l' Q Q' :
  queues_ok l Q -> Q' = Q -> l_queues l' = l_queues l -> (forall p, trigger_of (run l' p) = trigger_of (run l p)) -> queues_ok l' Q'.
Proof.
  intros [H1 H2 H3] -> Hq Hr. assert (queue l' = queue l) as Hq' by (unfold queue; by rewrite Hq).
  split; intros *; rewrite ?Hq', ?Hr; [apply H1|apply H2|apply H3].
Qed.

Lemma partial_touch l g N p f :
  partial l g N -> (forall r, same_run r (f r)) -> (p ∈ g_start g -> forall r, r_cluster (f r) = r_cluster r) ->
  partial (set_run p f l) (touch p f g) N.
Proof.
  intros [Hc Hq Hn] Hf Hcl. split; [by apply core_touch| |done]. eapply queues_ok_same; [exact Hq|done..|].
  intros q. rewrite run_set_run. destruct (decide _) as [[<- _]|]; [|done]. destruct (Hf (run l p)). unfold trigger_of. congruence.
Qed.

Lemma partial_back l g N p : partial l g N -> p ∈ g_start g -> partial (settle p l) (back p g) ({[p]} ∪ N).
Proof.
  intros [Hc Hq Hn] Hp. split; [by apply core_back| |simpl; set_solver]. destruct (settle_frame p l) as (_ & _ & E & _).
  eapply queues_ok_same; [exact Hq| |done|intros q; by rewrite run_settle]. simpl.
  destruct Hc as [_ _ _ Hd]. apply set_eq. intros q. set_solver.
Qed.

Lemma partial_fail l g N p : partial l g N -> p ∈ g_start g -> partial (settle p l) (failed p g) N.
Proof.
  intros [Hc Hq Hn] Hp. split; [by apply core_fail| |done]. destruct (settle_frame p l) as (_ & _ & E & _).
  eapply queues_ok_same; [exact Hq|done|done|intros q; by rewrite run_settle].
Qed.

(** A run allocated with an id of its own. *)
Lemma partial_alloc l g N r :
  partial l g N -> 0 <= r_id r <= l_seq l -> r_firing r <= l_seq l -> (forall p, p ∈ g_wait g ∪ g_start g -> r_id (run l p) <> r_id r) ->
  partial (alloc r l) (asked_for r g) ({[length (l_heap l)]} ∪ N).
Proof.
  intros [Hc Hq Hn] Hid Hfi Hfr. assert (forall p, p ∈ g_wait g -> (p < length (l_heap l))%nat) as Hh.
  { intros p Hp. destruct (co_ids _ _ Hc) as [Hi _ _ _]. apply Hi. set_solver. }
  pose proof (co_heap _ _ Hc) as E. split; [by apply core_alloc| |simpl; rewrite <- E; set_solver].
  simpl. rewrite <- E. replace (({[length (l_heap l)]} ∪ g_wait g) ∖ ({[length (l_heap l)]} ∪ N)) with (list_to_set [] ∪ (g_wait g ∖ N)).
  - eapply (queues_append l _ _ ""); [exact Hq|set_solver|intros p Hp; by apply run_alloc|set_solver|apply NoDup_nil_2|].
    intros k. rewrite app_nil_r. by destruct (decide _).
  - apply set_eq. intros p. rewrite elem_of_union, !elem_of_difference, !elem_of_union, !elem_of_singleton. simpl.
    split; [|set_solver]. intros [Hp|[Hp Hp']]; [set_solver|]. split; [by right|]. intros [->|?]; [|done]. specialize (Hh _ Hp). lia.
Qed.

Lemma partial_ask l g N r :
  partial l g N -> r_id r = l_seq l + 1 -> r_firing r <= l_seq l + 1 -> l_seq l + 1 < 2 ^ 64 ->
  partial (alloc r (next_seq l)) (asked_for r g) ({[length (l_heap l)]} ∪ N).
Proof.
  intros [Hc Hq Hn] Hid Hfi Hroom. destruct (co_ids _ _ Hc) as [_ Hi2 _ Hi4].
  assert (l_seq (next_seq l) = l_seq l + 1) as Hseq by (apply u64_small; lia).
  apply (partial_alloc (next_seq l)); [split; [eapply core_ext; [exact Hc|done..|lia]|by eapply queues_ok_same|done]|lia|lia|].
  intros p Hp. destruct (Hi2 p Hp). change (run (next_seq l) p) with (run l p). lia.
Qed.

Lemma partial_insert l g N p : partial l g N -> p ∈ N -> partial (insertLocked p l) g (N ∖ {[p]}).
Proof.
  intros [Hc Hq Hn] Hp. split; [|clear Hc|set_solver].
  - eapply core_ext; [exact Hc|done..|]. simpl. lia.
  - unfold insertLocked. fold (trigger_of (run l p)). set (key := trigger_of (run l p)). set (qs := SortFunc (by_id l) _).
    assert (qs ≡ₚ queue l key ++ [p]) as Hperm by apply SortFunc_perm.
    set (l' := set_seq _ _). assert (forall k, queue l' k = if decide (key = k) then qs else queue l k) as Hql by (intros k; apply queue_set_queues).
    assert (forall q, run l' q = run l q) as Hrun by done. destruct Hq as [H1 H2 H3].
    split.
    + intros k q. rewrite Hql, Hrun. destruct (decide _) as [<-|]; [|apply H1]. rewrite Hperm, elem_of_app.
      intros [Hq| ->%list_elem_of_singleton]; [by apply H1|done].
    + intros q. rewrite Hql, Hrun. destruct (decide (q = p)) as [->|Hne].
      * fold key. rewrite decide_True, Hperm by done. set_solver.
      * assert (q ∈ g_wait g ∖ (N ∖ {[p]}) <-> q ∈ g_wait g ∖ N) as -> by set_solver. rewrite H2.
        destruct (decide _) as [E|]; [|done]. rewrite Hperm, <- E. set_solver.
    + intros k. rewrite Hql. destruct (decide _); [|done]. rewrite Hperm. apply NoDup_app. split; [done|]. split; [|apply NoDup_singleton].
      intros q Hq ->%list_elem_of_singleton. assert (p ∈ g_wait g ∖ N) as HpN; [|set_solver]. apply H2. by rewrite (H1 _ _ Hq).
Qed.

Lemma queue_setQueue key runs l k : queue (setQueueLocked key runs l) k = if decide (key = k) then runs else queue l k.
Proof.
  unfold setQueueLocked, queue. simpl. destruct runs, (decide (key = k)) as [<-|];
    rewrite ?lookup_delete_eq, ?lookup_insert_eq, ?lookup_delete_ne, ?lookup_insert_ne by done; done.
Qed.

(** Runs taken out of their queues. *)
Lemma queues_take l l' Q D :
  queues_ok l Q -> (forall p, trigger_of (run l' p) = trigger_of (run l p)) ->
  (forall k p, p ∈ queue l' k <-> p ∈ queue l k /\ p ∉ D) -> (forall k, NoDup (queue l' k)) -> queues_ok l' (Q ∖ D).
Proof.
  intros [H1 H2 H3] Hr Hq Hnd. split; [| |done].
  - intros k p [Hp _]%Hq. rewrite Hr. by apply H1.
  - intros p. by rewrite Hr, Hq, elem_of_difference, H2.
Qed.

(** ** Sequences of ledger steps *)

Section ops.
Notation steps := (rtc (ledger_step Settles)).

Lemma steps_touch g p f : (forall r, same_run r (f r)) -> (forall r, r_cluster (f r) = r_cluster r) -> steps g (touch p f g).
Proof. intros Hf Hc. apply rtc_once, ledger_touch; [done|]. split; [done|by right|by right|by left]. Qed.

(** What the touches, backs and drops of an operation leave of the ledger. *)
Lemma touch_all g l N ps f :
  partial l g N -> (forall r, same_run r (f r)) -> (forall r, r_cluster (f r) = r_cluster r) ->
  exists g', steps g g' /\ partial (foldl (fun l q => set_run q f l) l ps) g' N /\
    g_wait g' = g_wait g /\ g_start g' = g_start g /\ g_watch g' = g_watch g.
Proof.
  intros Hp Hf Hcl. revert l g Hp. induction ps as [|p ps IH]; intros l g Hp; [by exists g|]. simpl.
  destruct (IH (set_run p f l) (touch p f g)) as (g' & Hs & Hg' & Hw & Hst & Hwa); [by apply partial_touch|].
  exists g'. split; [|done]. etrans; [|exact Hs]. by apply steps_touch.
Qed.

Lemma commit_ok l g p ev log : represents l g ->
  exists g', steps g g' /\ represents (commit p ev log l) g' /\ g_wait g' = g_wait g /\ g_start g' = g_start g /\ g_watch g' = g_watch g.
Proof.
  intros Hr%represents_partial. destruct (touch_all g l ∅ (pl_start p ++ pl_queued p) (fun r => with_pending false (with_event (Some ev) log r)) Hr)
    as (g' & Hs & Hp & ?); [by split|done|]. exists g'. split; [done|]. by rewrite represents_partial.
Qed.

Lemma fail_all g l N ps :
  partial l g N -> NoDup ps -> (forall p, p ∈ ps -> p ∈ g_start g) ->
  let g' := MkLedger (g_runs g) (g_wait g) (g_start g ∖ list_to_set ps) (g_watch g) in
  steps g g' /\ partial (foldl (fun l q => settle q l) l ps) g' N.
Proof.
  revert l g. induction ps as [|p ps IH]; intros l g Hp Hnd Hin; simpl.
  - rewrite difference_empty_L. by destruct g.
  - apply NoDup_cons in Hnd as [Hn Hnd].
    destruct (IH (settle p l) (failed p g)) as [Hs Hg]; [apply partial_fail; [done|set_solver]|done|set_solver|]. simpl in Hs, Hg.
    replace (g_start g ∖ ({[p]} ∪ list_to_set ps)) with (g_start g ∖ {[p]} ∖ list_to_set ps) by set_solver.
    split; [|done]. eapply rtc_l; [|exact Hs]. apply ledger_fail; [done|set_solver].
Qed.

Lemma back_all g l N ps :
  partial l g N -> NoDup ps -> (forall p, p ∈ ps -> p ∈ g_start g) ->
  let g' := MkLedger (g_runs g) (list_to_set ps ∪ g_wait g) (g_start g ∖ list_to_set ps) (g_watch g) in
  steps g g' /\ partial (foldl (fun l q => settle q l) l ps) g' (list_to_set ps ∪ N).
Proof.
  revert l g N. induction ps as [|p ps IH]; intros l g N Hp Hnd Hin; simpl.
  - rewrite difference_empty_L, !union_empty_l_L. by destruct g.
  - apply NoDup_cons in Hnd as [Hn Hnd].
    destruct (IH (settle p l) (back p g) ({[p]} ∪ N)) as [Hs Hg]; [apply partial_back; [done|set_solver]|done|set_solver|]. simpl in Hs, Hg.
    replace (g_start g ∖ ({[p]} ∪ list_to_set ps)) with (g_start g ∖ {[p]} ∖ list_to_set ps) by set_solver.
    replace ({[p]} ∪ list_to_set ps ∪ g_wait g) with (list_to_set ps ∪ ({[p]} ∪ g_wait g)) by set_solver.
    replace ({[p]} ∪ list_to_set ps ∪ N) with (list_to_set ps ∪ ({[p]} ∪ N)) by set_solver.
    split; [|done]. eapply rtc_l; [|exact Hs]. apply ledger_back; [done|set_solver].
Qed.

(** What is left of the ledger's other books by an operation. *)
Definition keeps (g g' : ledger) : Prop := g_start g' = g_start g /\ g_watch g' = g_watch g.

Lemma insert_all g l ps f :
  partial l g (list_to_set ps) -> NoDup ps -> (forall r, same_run r (f r)) -> (forall r, r_cluster (f r) = r_cluster r) ->
  exists g', steps g g' /\ represents (foldl (fun l q => insertLocked q (set_run q f l)) l ps) g' /\
    g_wait g' = g_wait g /\ keeps g g'.
Proof.
  intros Hp Hnd Hf Hcl. revert l g Hp. induction ps as [|p ps IH]; intros l g Hp; simpl.
  - exists g. split; [done|]. by rewrite represents_partial.
  - apply NoDup_cons in Hnd as [Hn Hnd].
    destruct (IH Hnd (insertLocked p (set_run p f l)) (touch p f g)) as (g' & Hs & Hg & Hw & Hk).
    + replace (list_to_set ps) with (list_to_set (p :: ps) ∖ {[p]} : gset nat) by set_solver.
      apply partial_insert; [by apply partial_touch|set_solver].
    + exists g'. split; [|done]. etrans; [|exact Hs]. by apply steps_touch.
Qed.

Lemma direct_all g l p ev log now runs ags :
  partial l g (list_to_set runs) -> NoDup runs -> (forall q, q ∈ runs -> (q < length (l_heap l))%nat) ->
  pl_firing p <= l_seq l -> l_seq l + Z.of_nat (length ags) < 2 ^ 64 ->
  let '(l', runs') := foldl (postpone_direct p ev log now) (l, runs) ags in
  exists g', steps g g' /\ partial l' g' (list_to_set runs') /\ NoDup runs' /\ keeps g g' /\ g_wait g ⊆ g_wait g' /\
    l_seq l <= l_seq l' <= l_seq l + Z.of_nat (length ags).
Proof.
  revert l g runs. induction ags as [|ag ags IH]; intros l g runs Hp Hnd Hh Hfi Hroom; simpl.
  - exists g. split; [done|]. split; [done|]. split; [done|]. split; [done|]. split; [reflexivity|lia].
  - simpl in Hroom. destruct (co_ids _ _ (pa_core _ _ _ Hp)) as [_ Hi2 _ Hi4].
    assert (l_seq (next_seq l) = l_seq l + 1) as Hseq by (apply u64_small; lia).
    set (r := MkRun _ _ _ _ _ _ _ _ _ _ _ _ _).
    assert (r_id r = l_seq l + 1) as Hid by exact Hseq.
    assert (l_seq (alloc r (next_seq l)) = l_seq l + 1) as Hseq' by exact Hseq.
    specialize (IH (alloc r (next_seq l)) (asked_for r g) (runs ++ [length (l_heap l)])).
    destruct (foldl _ _ ags) as [l' runs']. destruct IH as (g' & Hs & Hg & Hn & Hk & Hw & Hsq).
    + rewrite list_to_set_app_L, list_to_set_singleton_L, union_comm_L. apply partial_ask; [done|done|simpl; lia|lia].
    + apply NoDup_app. split; [done|]. split; [|apply NoDup_singleton]. intros q Hq%Hh ->%list_elem_of_singleton. lia.
    + intros q. simpl. rewrite length_app. simpl. intros [Hq%Hh| ->%list_elem_of_singleton]%elem_of_app; lia.
    + lia.
    + lia.
    + exists g'. split; [|split; [done|split; [done|split; [done|split; [|lia]]]]].
      * eapply rtc_l; [|exact Hs]. apply ledger_ask; [done|]. intros q Hq. rewrite <- (core_run _ _ _ (pa_core _ _ _ Hp)). destruct (Hi2 q Hq). lia.
      * etrans; [|exact Hw]. simpl. set_solver.
Qed.

Lemma postpone_ok l g p ev log w now :
  represents l g -> NoDup (pl_start p) -> (forall q, q ∈ pl_start p -> q ∈ g_start g) ->
  pl_firing p <= l_seq l -> l_seq l + Z.of_nat (length (pl_direct p)) < 2 ^ 64 ->
  exists g', steps g g' /\ represents (fst (postpone p ev log w now l)) g' /\
    g_start g' = g_start g ∖ list_to_set (pl_start p) /\ g_watch g' = g_watch g /\
    g_wait g ∪ list_to_set (pl_start p) ⊆ g_wait g'.
Proof.
  intros Hr%represents_partial Hnd Hin Hfi Hroom. unfold postpone.
  destruct (back_all g l ∅ (pl_start p) Hr Hnd Hin) as [Hs1 Hg1]. rewrite union_empty_r_L in Hg1.
  set (l1 := foldl (fun l q => settle q l) l (pl_start p)) in *. set (g1 := MkLedger _ _ _ _) in *.
  assert (l_heap l1 = l_heap l /\ l_seq l1 = l_seq l) as [Hh1 Hq1].
  { unfold l1. clear. revert l. induction (pl_start p) as [|q qs IH]; intros l; [done|]. simpl. destruct (IH (settle q l)) as [-> ->].
    by destruct (settle_frame q l) as (-> & -> & _). }
  pose proof (direct_all g1 l1 p ev log now (pl_start p) (pl_direct p) Hg1 Hnd) as Hd.
  destruct (foldl (postpone_direct p ev log now) (l1, pl_start p) (pl_direct p)) as [l2 runs] eqn:E2.
  destruct Hd as (g2 & Hs2 & Hg2 & Hnd2 & Hk2 & Hw2 & _).
  { rewrite Hh1. intros q Hq%Hin. destruct (co_ids _ _ (pa_core _ _ _ Hr)) as [Hi _ _ _]. apply Hi. set_solver. }
  { by rewrite Hq1. }
  { by rewrite Hq1. }
  destruct (insert_all g2 l2 runs (fun r => with_pending false (with_why (Some w) r)) Hg2 Hnd2) as (g3 & Hs3 & Hg3 & Hw3 & Hk3); [by split|done|].
  exists g3. simpl. split; [by etrans; [|etrans]|]. split; [done|]. destruct Hk2 as [E2' E2w], Hk3 as [E3 E3w].
  rewrite E3, E3w, E2', E2w, Hw3. simpl. split; [done|]. split; [done|]. etrans; [|exact Hw2]. simpl. set_solver.
Qed.

Lemma started_ok l g p h : represents l g -> p ∈ g_start g -> (h <> "" -> g_watch g !! h = None /\ is_watch_key h) ->
  exists g', steps g g' /\ represents (started p h l) g' /\ g_start g' = g_start g ∖ {[p]} /\ g_wait g' = g_wait g /\
    g_watch g' = if String.eqb h "" then g_watch g else <[h := agent_of (run l p)]> (g_watch g).
Proof.
  intros Hr%represents_partial Hp Hh. unfold started. fold (agent_of (run l p)).
  pose proof (partial_fail _ _ _ _ Hr Hp) as [Hc Hq _].
  destruct (String.eqb_spec h "") as [->|Hne].
  - exists (failed p g). split; [apply rtc_once; by apply ledger_fail|]. split; [|done]. apply represents_partial. by split.
  - destruct (Hh Hne) as [Hn Hk].
    exists (MkLedger (g_runs g) (g_wait g) (g_start g ∖ {[p]}) (<[h := agent_of (run_in g p)]> (g_watch g))).
    pose proof (core_run _ _ p (pa_core _ _ _ Hr)) as Erun. rewrite Erun. split; [apply rtc_once; by apply ledger_begin|]. split; [|done].
    apply represents_core. split; [by apply (core_watch _ (failed p g))|]. simpl. rewrite difference_empty_L in Hq.
    by eapply queues_ok_same.
Qed.

Lemma requeue_ok l g p w : represents l g -> p ∈ g_start g ->
  exists g', steps g g' /\ represents (requeue p w l) g' /\ g_start g' = g_start g ∖ {[p]} /\ g_wait g' = {[p]} ∪ g_wait g /\
    g_watch g' = g_watch g.
Proof.
  intros Hr%represents_partial Hp. pose proof (partial_back _ _ _ _ Hr Hp) as Hb.
  destruct (insert_all (back p g) (settle p l) [p] (fun r => with_pending false (with_why (Some w) r))) as (g' & Hs & Hg & Hw & Hk1 & Hk2);
    [by simpl|apply NoDup_singleton|by split|done|].
  exists g'. split; [|by rewrite Hk1, Hk2]. eapply rtc_l; [|exact Hs]. by apply ledger_back.
Qed.

Lemma hold_ok l g f a h : represents l g -> g_watch g !! h = None -> is_watch_key h ->
  exists g', steps g g' /\ represents (hold f a h l) g' /\ g_start g' = g_start g /\ g_wait g' = g_wait g.
Proof.
  intros Hr Hn Hk. unfold hold. destruct (String.eqb a ""); [by exists g|]. pose proof Hr as [Hc Hq]%represents_core.
  exists (watching h (agentKey f a) g). split; [apply rtc_once; by apply ledger_watch|]. split; [|done].
  apply represents_core. split; [by apply core_watch|]. by eapply queues_ok_same.
Qed.

Lemma release_ok l g h : represents l g -> is_watch_key h ->
  exists g', steps g g' /\ represents (release h l) g' /\ g_start g' = g_start g /\ g_wait g' = g_wait g /\
    g_watch g' = delete h (g_watch g).
Proof.
  intros Hr Hk. pose proof Hr as [Hc Hq]%represents_core. exists (unwatched h g).
  split; [apply rtc_once; by apply ledger_unwatch|]. split; [|done].
  apply represents_core. split; [by apply core_unwatch|].
  eapply queues_ok_same; [exact Hq|done|unfold release, releaseLocked; by destruct (l_holder l !! h)|].
  intros q. unfold release, releaseLocked. by destruct (l_holder l !! h).
Qed.

Lemma discard_one_ok l g p :
  represents l g -> NoDup (pl_start p) -> (forall q, q ∈ pl_start p -> q ∈ g_start g) ->
  exists g', steps g g' /\ represents (discard_one p l) g' /\ g_start g' = g_start g ∖ list_to_set (pl_start p) /\
    g_watch g' = g_watch g /\ g_wait g' ⊆ g_wait g.
Proof.
  intros Hr%represents_partial Hnd Hin. destruct (fail_all g l ∅ (pl_start p) Hr Hnd Hin) as [Hs1 Hg1].
  unfold discard_one. set (l1 := foldl (fun l q => settle q l) l (pl_start p)) in *. set (g1 := MkLedger _ _ _ _) in *.
  set (l2 := set_starts _ l1). set (key := firedKey _ _).
  apply represents_partial, represents_core in Hg1 as [Hc1 Hq1].
  set (D := filter (fun q => r_firing (run l2 q) = pl_firing p) (queue l2 key)).
  exists (MkLedger (g_runs g1) (g_wait g1 ∖ list_to_set D) (g_start g1) (g_watch g1)).
  split; [by etrans; [|by apply drop_all]|]. split; [|simpl; set_solver]. apply represents_core. split.
  - apply core_drops. eapply core_ext; [exact Hc1|done..|simpl; lia].
  - simpl. apply (queues_take l2); [by eapply queues_ok_same|done| |].
    + intros k q. rewrite queue_setQueue, elem_of_list_to_set. unfold D. rewrite list_elem_of_filter. destruct (decide (key = k)) as [<-|Hne].
      * rewrite list_elem_of_filter. destruct (decide (r_firing (run l2 q) = pl_firing p)); tauto.
      * split; [|tauto]. intros Hq. split; [done|]. intros [_ Hq']. destruct Hne.
        destruct Hq1 as [H1 _ _]. change (queue l2) with (queue l1) in *. by rewrite <- (H1 _ _ Hq), <- (H1 _ _ Hq').
    + intros k. rewrite queue_setQueue. destruct Hq1 as [_ _ H3]. change (queue l2) with (queue l1). destruct (decide _); [apply NoDup_filter|]; apply H3.
Qed.

(** Runs a previous daemon queued, with ids of their own. *)
Lemma restoreQueued_ok runs l g :
  represents l g -> NoDup (map r_id runs) -> (forall r, r ∈ runs -> 0 <= r_id r) ->
  (forall r p, r ∈ runs -> p ∈ g_wait g ∪ g_start g -> r_id (run l p) <> r_id r) ->
  exists g', steps g g' /\ represents (restoreQueued runs l) g' /\ keeps g g' /\ g_wait g ⊆ g_wait g'.
Proof.
  revert l g. induction runs as [|r runs IH]; intros l g Hr Hnd H0 Hfr; [by exists g|]. unfold restoreQueued. simpl.
  apply NoDup_cons in Hnd as [Hn Hnd]. pose proof Hr as [Hc Hq]%represents_core.
  set (l1 := set_seq (Z.max (Z.max (l_seq l) (r_id r)) (r_firing r)) l).
  assert (partial l1 g ∅) as H1.
  { split; [eapply core_ext; [exact Hc|done..|simpl; lia]| |set_solver]. rewrite difference_empty_L. by eapply queues_ok_same. }
  apply (partial_alloc _ _ _ r) in H1; [|simpl; specialize (H0 r); set_solver by lia|simpl; lia|intros p Hp; apply Hfr; [set_solver|done]].
  apply (partial_insert _ _ _ (length (l_heap l1))) in H1; [|set_solver].
  replace (({[length (l_heap l1)]} ∪ ∅) ∖ {[length (l_heap l1)]}) with (∅ : gset nat) in H1 by set_solver. apply represents_partial in H1.
  assert (insertLocked (length (l_heap l)) (alloc r l) = insertLocked (length (l_heap l1)) (alloc r l1)) as ->.
  { unfold insertLocked. change (run (alloc r l1) (length (l_heap l1))) with (run (alloc r l) (length (l_heap l))).
    rewrite run_alloc_at by done. unfold set_seq. simpl. f_equal. lia. }
  destruct (IH _ _ H1 Hnd) as (g' & Hs & Hg & Hk & Hw).
  { set_solver. }
  { intros r' p Hr' Hp. assert (p = length (g_runs g) \/ p ∈ g_wait g ∪ g_start g) as [->|Hp'] by (simpl in Hp; set_solver).
    - change (run (insertLocked ?q ?x) ?p) with (run x p). rewrite run_alloc_at by (simpl; by rewrite (co_heap _ _ Hc)).
      intros E. destruct Hn. rewrite E. by apply list_elem_of_fmap_2.
    - change (run (insertLocked ?q ?x) ?p) with (run x p). rewrite run_alloc; [apply Hfr; [set_solver|done]|].
      destruct (co_ids _ _ Hc) as [Hi _ _ _]. by apply Hi. }
  exists g'. split; [|split; [done|split; [done|]]].
  - eapply rtc_l; [|exact Hs]. apply ledger_ask; [done|]. intros p Hp. rewrite <- (core_run _ _ _ Hc). apply Hfr; [set_solver|done].
  - etrans; [|exact Hw]. simpl. set_solver.
Qed.
End ops.
