(* ===== verification/LimiterDue.v ===== *)
(** * Draining the queues, against the ledger

    due looks at every waiting run once, oldest first: it starts, refuses, expires
    or keeps it. What it starts, the ledger admits. *)

From Stdlib Require Import Sorting.Sorted.
From S2P Require Import Prelude GoStrings GoText Entry Automation FleetState Limiter LimiterLedger LimiterPlan LimiterOps.
Local Open Scope string_scope.
Local Open Scope Z_scope.
Local Open Scope list_scope.

#[export] Instance same_run_refl : Reflexive same_run.
Proof. by split. Qed.
#[export] Instance same_run_trans : Transitive same_run.
Proof. intros r1 r2 r3 [] []. split; congruence. Qed.

Lemma same_trigger r r' : same_run r r' -> trigger_of r' = trigger_of r.
Proof. intros []. unfold trigger_of. congruence. Qed.

Definition kept (d : queueDrain) (k : string) : list nat := default [] (d_kept d !! k).
Definition blocked (d : queueDrain) (k : string) : gset string := default ∅ (d_blocked d !! k).
Definition out (d : queueDrain) : list nat := d_start d ++ d_refused d ++ d_expired d.

Section due.
Context (c : runChecks) (st : State) (now : Z) (Hchk : checks_ok c).
Notation call := (Drains c st now).
Notation steps := (rtc (ledger_step call)).

(** A touch that leaves a run where it is, or moves it to where its agent goes. *)
Definition moves (f : queuedRun -> queuedRun) (r : queuedRun) : Prop :=
  r_cluster (f r) = r_cluster r \/ dt_kubeCluster <$> target_of call r = Some (r_cluster (f r)).

Lemma target_same r r' : same_run r r' -> target_of call r' = target_of call r.
Proof. intros [_ _ E1 _ E2 _]. unfold target_of. by rewrite E1, E2. Qed.

Lemma may_drop_same p r r' : same_run r r' -> r_pending r' = r_pending r -> may_drop call p r -> may_drop call p r'.
Proof. intros [_ _ E1 E2 E3 E4] Hp. unfold may_drop, refused_now, noLongerFires. by rewrite Hp, E1, E2, E3, E4. Qed.

(** Touches of waiting runs: the ledger's books stay. *)
Record touched (l : automationLimiter) (g : ledger) (l' : automationLimiter) (g' : ledger) : Prop := {
  to_steps : steps g g';
  to_core : core l' g';
  to_queues : l_queues l' = l_queues l;
  to_same : forall p, same_run (run l p) (run l' p);
  to_pending : forall p, r_pending (run l' p) = r_pending (run l p);
  to_wait : g_wait g' = g_wait g;
  to_start : g_start g' = g_start g;
  to_watch : g_watch g' = g_watch g
}.

Lemma touched_refl l g : core l g -> touched l g l g.
Proof. by split. Qed.

Lemma touched_run l g l' g' p f :
  touched l g l' g' -> p ∈ g_wait g -> (forall r, same_run r (f r)) -> (forall r, r_pending (f r) = r_pending r) -> moves f (run l' p) -> touched l g (set_run p f l') (touch p f g').
Proof.
  intros [H1 H2 H3 H4 HP H5 H6 H7] Hp Hf Hpe Hm. rewrite <- H5 in Hp. assert (p ∉ g_start g') as Hn by (destruct H2 as [_ _ _ Hd]; set_solver).
  split; simpl; try done.
  - etrans; [exact H1|]. apply rtc_once, ledger_touch; [done|]. rewrite <- (core_run _ _ _ H2).
    split; [done|by left|by right|]. destruct Hm as [Hm|Hm]; [by left|by right].
  - by apply core_touch.
  - intros q. etrans; [apply H4|]. rewrite run_set_run. destruct (decide _) as [[<- _]|]; [apply Hf|done].
  - intros q. rewrite run_set_run. destruct (decide _) as [[<- _]|]; [by rewrite Hpe|done].
Qed.

(** The state of a drain: what is decided, and the runs still to look at. *)
Record drained (l0 : automationLimiter) (g0 : ledger) (rest : list (string * nat)) (d : queueDrain) (g : ledger) : Prop := {
  dr_steps : steps g0 g;
  dr_core : core (d_l d) g;
  dr_queues : l_queues (d_l d) = l_queues l0;
  dr_same : forall p, same_run (run l0 p) (run (d_l d) p);
  dr_watch : g_watch g = g_watch g0;
  dr_start : g_start g = list_to_set (d_start d) ∪ g_start g0;
  dr_wait : forall p, p ∈ g_wait g <-> p ∈ map snd rest \/ exists k, p ∈ kept d k;
  dr_kept : forall k p, p ∈ kept d k -> trigger_of (run l0 p) = k /\ r_agent (run l0 p) ∈ blocked d k /\ p ∉ map snd rest;
  dr_kept_nodup : forall k, NoDup (kept d k);
  dr_nodup : NoDup (out d);
  dr_out : forall p, p ∈ out d -> p ∈ g_wait g0 /\ p ∉ g_wait g;
  dr_sub : g_wait g ⊆ g_wait g0;
  dr_all : forall p, p ∈ g_wait g0 -> p ∈ g_wait g \/ p ∈ out d
}.

Lemma kept_keep key p l next d k : kept (keep key p l next d) k = if decide (key = k) then kept d k ++ [p] else kept d k.
Proof. unfold kept. simpl. destruct (decide _) as [<-|]; [by rewrite lookup_insert_eq|by rewrite lookup_insert_ne]. Qed.

Lemma blocked_keep key p l next d k :
  blocked (keep key p l next d) k = if decide (key = k) then {[r_agent (run l p)]} ∪ blocked d k else blocked d k.
Proof. unfold blocked. simpl. destruct (decide _) as [<-|]; [by rewrite lookup_insert_eq|by rewrite lookup_insert_ne]. Qed.

Section look.
Context (l0 : automationLimiter) (g0 : ledger) (key : string) (p : nat) (rest : list (string * nat)) (d : queueDrain) (g : ledger).
Context (Hd : drained l0 g0 ((key, p) :: rest) d g) (Hn : p ∉ map snd rest) (Hkey : trigger_of (run l0 p) = key).

Lemma look_wait : p ∈ g_wait g.
Proof. apply (dr_wait _ _ _ _ _ Hd). left. set_solver. Qed.

Lemma look_unkept k : p ∉ kept d k.
Proof. intros Hp. apply (dr_kept _ _ _ _ _ Hd) in Hp as (_ & _ & Hp). set_solver. Qed.

Lemma keep_ok l' g' next : touched (d_l d) g l' g' -> exists g'', drained l0 g0 rest (keep key p l' next d) g''.
Proof.
  intros [H1 H2 H3 H4 _ H5 H6 H7]. exists g'. pose proof look_unkept as Hu. pose proof look_wait as Hw. destruct Hd. split; simpl; try done.
  - by etrans.
  - congruence.
  - intros q. etrans; [apply dr_same0|apply H4].
  - congruence.
  - congruence.
  - intros q. rewrite H5, dr_wait0. setoid_rewrite kept_keep. cbn [map snd]. rewrite elem_of_cons. split.
    + intros [[->|?]|[k Hk]]; [right; exists key; rewrite decide_True by done; set_solver|by left|].
      right. exists k. destruct (decide _); set_solver.
    + intros [?|[k Hk]]; [by left; right|]. destruct (decide (key = k)) as [<-|]; [|right; by exists k].
      apply elem_of_app in Hk as [Hk| ->%list_elem_of_singleton]; [right; by exists key|by left; left].
  - intros k q. rewrite kept_keep, blocked_keep. destruct (decide (key = k)) as [<-|].
    + intros [Hq| ->%list_elem_of_singleton]%elem_of_app.
      * apply dr_kept0 in Hq as (? & ? & ?). set_solver.
      * assert (r_agent (run l' p) = r_agent (run l0 p)) as -> by (destruct (dr_same0 p), (H4 p); congruence). set_solver.
    + intros Hq%dr_kept0. set_solver.
  - intros k. rewrite kept_keep. destruct (decide _); [|done]. apply NoDup_app. split; [done|]. split; [|apply NoDup_singleton].
    intros q Hq ->%list_elem_of_singleton. by destruct (Hu k).
  - by rewrite H5.
  - by rewrite H5.
  - by rewrite H5.
Qed.

(** A run taken out of its queue, into one of the drain's lists. *)
Lemma out_ok d' g'' :
  kept d' = kept d -> blocked d' = blocked d -> out d' ≡ₚ p :: out d ->
  steps g g'' -> core (d_l d') g'' -> l_queues (d_l d') = l_queues (d_l d) -> (forall q, same_run (run (d_l d) q) (run (d_l d') q)) ->
  g_watch g'' = g_watch g -> g_wait g'' = g_wait g ∖ {[p]} -> g_start g'' = list_to_set (d_start d') ∪ g_start g0 ->
  drained l0 g0 rest d' g''.
Proof.
  intros Ek Eb Eo H1 H2 H3 H4 H5 H6 H7. pose proof look_unkept as Hu. pose proof look_wait as Hw. destruct Hd.
  assert (p ∉ out d) as Hpo by (intros Hp%dr_out0; tauto).
  split; try done.
  - by etrans.
  - congruence.
  - intros q. etrans; [apply dr_same0|apply H4].
  - congruence.
  - intros q. rewrite H6, elem_of_difference, elem_of_singleton, dr_wait0, Ek. cbn [map snd]. rewrite elem_of_cons. split; [tauto|].
    intros [Hq|[k Hk]]; [split; [tauto|by intros ->]|split; [by right; exists k|intros ->; by destruct (Hu k)]].
  - intros k q. rewrite Ek, Eb. intros Hq%dr_kept0. set_solver.
  - intros k. by rewrite Ek.
  - rewrite Eo. by constructor.
  - intros q. rewrite Eo, elem_of_cons, H6. intros [->|Hq%dr_out0]; set_solver.
  - rewrite H6. set_solver.
  - intros q Hq. rewrite Eo, elem_of_cons, H6. destruct (dr_all0 q Hq) as [Hq'|Hq']; [|tauto].
    destruct (decide (q = p)); set_solver.
Qed.

Lemma drop_refused_ok l' g' w : touched (d_l d) g l' g' -> may_drop call p (run (d_l d) p) ->
  exists g'', drained l0 g0 rest
    (drop_refused p w (MkDrain l' (d_start d) (d_refused d) (d_expired d) (d_next d) (d_blocked d) (d_kept d))) g''.
Proof.
  intros Ht Hdrop. assert (touched (d_l d) g (set_run p (with_why (Some w)) l') (touch p (with_why (Some w)) g')) as [H1 H2 H3 H4 HP H5 H6 H7].
  { apply touched_run; [done|apply look_wait|by split|done|by left]. }
  eexists. eapply (out_ok _ (dropped p _)); [done|done| |eapply rtc_r; [exact H1|apply ledger_drop; rewrite <- (core_run _ _ _ H2); exact (may_drop_same p _ _ (H4 p) (HP p) Hdrop)]|apply core_drop, H2|done|done|done| |].
  - unfold out. simpl. rewrite Permutation_middle. apply Permutation_app_head. rewrite <- app_assoc. simpl. by rewrite Permutation_middle.
  - simpl. by rewrite <- H5.
  - simpl. simpl in H6. rewrite H6. by destruct Hd.
Qed.

Lemma expire_ok : may_drop call p (run (d_l d) p) -> exists g'', drained l0 g0 rest
  (MkDrain (d_l d) (d_start d) (d_refused d) (d_expired d ++ [p]) (d_next d) (d_blocked d) (d_kept d)) g''.
Proof.
  intros Hdrop. rewrite (core_run _ _ _ (dr_core _ _ _ _ _ Hd)) in Hdrop.
  eexists. eapply (out_ok _ (dropped p g)); [done|done| |by apply rtc_once, ledger_drop|apply core_drop; by destruct Hd|done|done|done|done|by destruct Hd].
  unfold out. simpl. rewrite !app_assoc. by rewrite <- Permutation_cons_append.
Qed.

Lemma take_start_ok l' g' : steps g g' -> core l' (admitted p g') -> ledger_step call g' (admitted p g') ->
  l_queues l' = l_queues (d_l d) -> (forall q, same_run (run (d_l d) q) (run l' q)) ->
  g_wait g' = g_wait g -> g_start g' = g_start g -> g_watch g' = g_watch g ->
  exists g'', drained l0 g0 rest (take_start p l' d) g''.
Proof.
  intros H1 H2 H3 H4 H5 H6 H7 H8. eexists.
  eapply (out_ok _ (admitted p g')); [done|done| |by eapply rtc_r|done|done|done|done| |].
  - unfold out. simpl. rewrite <- app_assoc. simpl. by rewrite <- Permutation_middle.
  - simpl. by rewrite H6.
  - simpl. rewrite H7, (dr_start _ _ _ _ _ Hd), list_to_set_app_L. set_solver.
Qed.

Lemma look_heap l' g' : touched (d_l d) g l' g' -> (p < length (l_heap l'))%nat.
Proof.
  intros [_ H2 _ _ _ H5 _ _]. destruct (co_ids _ _ H2) as [Hi _ _ _]. apply Hi. rewrite H5. apply elem_of_union_l, look_wait.
Qed.

Lemma run_touched l' g' f : touched (d_l d) g l' g' -> run (set_run p f l') p = f (run l' p).
Proof. intros Ht. rewrite run_set_run. rewrite decide_True; [done|]. split; [done|by eapply look_heap]. Qed.

Lemma off_no_cluster ag : dt_backend (Agent_DeployTarget ag) <> BackendKubernetes -> dt_kubeCluster (Agent_DeployTarget ag) = "".
Proof. unfold Agent_DeployTarget. destruct (String.eqb _ ""); [done|]. destruct (String.eqb_spec (ag_backend ag) BackendKubernetes); done. Qed.

Lemma drain_off_ok ag :
  let r := run (d_l d) p in
  target_of call r = Some (Agent_DeployTarget ag) -> dt_backend (Agent_DeployTarget ag) <> BackendKubernetes ->
  exists g'', drained l0 g0 rest
    (take_start p (holdLocked (agentKey (r_fleet r) (r_agent r)) (reservation r)
                     (set_run p (fun r => with_cluster "" (with_def ag r)) (d_l d))) d) g''.
Proof.
  intros r Hto Hoff. pose proof look_wait as Hw. pose proof (touched_refl _ _ (dr_core _ _ _ _ _ Hd)) as Ht0.
  set (f := fun r => with_cluster "" (with_def ag r)).
  assert (touched (d_l d) g (set_run p f (d_l d)) (touch p f g)) as Ht.
  { apply touched_run; [done|done|by split|done|]. right. fold r. rewrite Hto. simpl. by rewrite off_no_cluster. }
  assert (run (set_run p f (d_l d)) p = f r) as Er by (eapply run_touched; exact Ht0).
  destruct Ht as [H1 H2 H3 H4 _ H5 H6 H7]. eapply (take_start_ok _ (touch p f g)); try done.
  - replace (agentKey (r_fleet r) (r_agent r)) with (agent_of (run (set_run p f (d_l d)) p)) by (by rewrite Er).
    replace (reservation r) with (reservation (run (set_run p f (d_l d)) p)) by (by rewrite Er).
    apply core_admit_off; [done|done|by rewrite Er].
  - apply (ledger_admit_off _ (Agent_DeployTarget ag)); [done|done| |done|]; rewrite <- (core_run _ _ _ H2), Er; [|done]. by rewrite (target_same r) by (by split).
Qed.

(** Nothing of the agent waits before the run in its queue. *)
Lemma look_first l' g' : touched (d_l d) g l' g' ->
  (forall k q, (k, q) ∈ rest -> r_id (run l0 p) <= r_id (run l0 q)) -> r_agent (run l0 p) ∉ blocked d key ->
  forall q, q ∈ g_wait g' -> trigger_of (run l' q) = trigger_of (run l' p) -> r_agent (run l' q) = r_agent (run l' p) ->
    r_id (run l' p) <= r_id (run l' q).
Proof.
  intros [_ _ _ H4 _ H5 _ _] Hsort Hb q Hq Et Ea.
  assert (forall x, same_run (run l0 x) (run l' x)) as Hs by (intros x; etrans; [apply (dr_same _ _ _ _ _ Hd)|apply H4]).
  rewrite (sr_id _ _ (Hs p)), (sr_id _ _ (Hs q)). rewrite (same_trigger _ _ (Hs p)), (same_trigger _ _ (Hs q)) in Et.
  rewrite (sr_agent _ _ (Hs p)), (sr_agent _ _ (Hs q)) in Ea.
  rewrite H5, (dr_wait _ _ _ _ _ Hd) in Hq. destruct Hq as [Hq|[k Hk]].
  - cbn [map snd] in Hq. apply elem_of_cons in Hq as [->|Hq]; [lia|]. apply list_elem_of_fmap in Hq as ([k q'] & -> & Hq). by eapply Hsort.
  - apply (dr_kept _ _ _ _ _ Hd) in Hk as (Hk & Hbl & _). rewrite Hkey in Et. rewrite Et in Hk. subst k. rewrite Ea in Hbl. done.
Qed.

Lemma drain_reserve_ok ag l' g' until :
  touched (d_l d) g l' g' -> (forall k q, (k, q) ∈ rest -> r_id (run l0 p) <= r_id (run l0 q)) ->
  on_its_cluster call (run l' p) -> is_Some (limits c (r_cluster (run l' p))) -> waitLocked c l' st (run l' p) 0 (Some (blocked d key)) now = (None, until) ->
  exists g'', drained l0 g0 rest (take_start p (reserveLocked now p (set_run p (with_def ag) l')) d) g''.
Proof.
  intros Ht Hsort Hon Hlim Hwait. pose proof look_wait as Hw.
  assert (touched (d_l d) g (set_run p (with_def ag) l') (touch p (with_def ag) g')) as Ht2 by (apply touched_run; [done|done|by split|done|by left]).
  assert (run (set_run p (with_def ag) l') p = with_def ag (run l' p)) as Er by (by eapply run_touched).
  set (l2 := set_run p (with_def ag) l') in *. set (g2 := touch p (with_def ag) g') in *.
  assert (waitLocked c l2 st (run l2 p) 0 (Some (blocked d key)) now = (None, until)) as Hwait2 by (rewrite Er; exact Hwait).
  assert (r_cluster (run l2 p) <> "") as Hne.
  { rewrite Er. simpl. intros E. rewrite E in Hlim. unfold checks_ok in Hchk. rewrite Hchk in Hlim. by destruct Hlim. }
  pose proof Ht2 as [H1 H2 H3 H4 _ H5 H6 H7]. eapply (take_start_ok _ g2); try done.
  - apply core_admit; [done|by rewrite H5].
  - apply (ledger_admit _ c st); [done|by rewrite H5|done|by rewrite <- (core_run _ _ _ H2), Er|]. apply (wait_admissible c st now l2 g2 p 0 (Some (blocked d key)) until); try done.
    + by rewrite Er.
    + by apply live_of_held.
    + rewrite (starting_on_creating l2 g2) by done. lia.
    + apply waitLocked_free in Hwait2 as (Hb & _ & _). unfold blocked_by in Hb. apply bool_decide_eq_false in Hb.
      eapply look_first; [done|done|]. assert (r_agent (run l2 p) = r_agent (run l0 p)) as <-; [|done].
      destruct (H4 p), (dr_same _ _ _ _ _ Hd p). congruence.
Qed.

Lemma drain_agent_ok f ag :
  let r := run (d_l d) p in
  r_pending r = false -> st !! r_fleet r = Some f -> FindAgent (st_agents (fl_settings f)) (r_agent r) = Some ag ->
  (forall k q, (k, q) ∈ rest -> r_id (run l0 p) <= r_id (run l0 q)) ->
  exists g'', drained l0 g0 rest (drain_agent c st now key p f ag d) g''.
Proof.
  intros r Hpe Hf Hag Hsort. pose proof look_wait as Hw. pose proof (touched_refl _ _ (dr_core _ _ _ _ _ Hd)) as Ht0. unfold drain_agent. fold r.
  assert (target_of call r = Some (Agent_DeployTarget ag)) as Hto by (simpl; by rewrite Hf, Hag).
  destruct (noLongerFires f r) as [w|] eqn:En.
  { apply (drop_refused_ok (d_l d) g); [done|]. split; [done|]. right. unfold refused_now. fold r. rewrite Hf, Hag, En. by left. }
  destruct (String.eqb_spec (dt_backend (Agent_DeployTarget ag)) BackendKubernetes) as [Ek|]; cbn [negb]; [|by apply drain_off_ok].
  set (cl := dt_kubeCluster (Agent_DeployTarget ag)).
  assert (touched (d_l d) g (set_run p (with_cluster cl) (d_l d)) (touch p (with_cluster cl) g)) as Ht.
  { apply touched_run; [done|done|by split|done|]. right. fold r. by rewrite Hto. }
  assert (run (set_run p (with_cluster cl) (d_l d)) p = with_cluster cl (run (d_l d) p)) as Er by (by eapply run_touched).
  destruct (refusal c st _ ag) as [w|] eqn:Erf.
  { eapply drop_refused_ok; [exact Ht|]. split; [done|]. right. unfold refused_now. fold r. rewrite Hf, Hag. right. by rewrite Erf. }
  destruct (waitLocked c _ st _ 0 _ now) as [[w|] until] eqn:Ew.
  - eapply keep_ok. apply touched_run; [exact Ht|done|by split|done|by left].
  - eapply drain_reserve_ok; [exact Ht|done|rewrite Er; exists (Agent_DeployTarget ag); by rewrite (target_same r) by (by split)| |exact Ew]. rewrite Er. simpl. unfold refusal in Erf. fold cl in Erf.
    destruct (limits c cl); [by eexists|done].
Qed.

Lemma drain_ok :
  (forall k q, (k, q) ∈ rest -> r_id (run l0 p) <= r_id (run l0 q)) ->
  exists g'', drained l0 g0 rest (drain c st now d (key, p)) g''.
Proof.
  intros Hsort. pose proof (touched_refl _ _ (dr_core _ _ _ _ _ Hd)) as Ht0. unfold drain.
  destruct (r_pending _) eqn:Epe; [by eapply keep_ok|]. destruct (Z.leb_spec automationQueueTTL (now - r_queuedAt (run (d_l d) p))); [apply expire_ok; split; [done|by left]|].
  destruct (st !! _) as [f|] eqn:Ef; [|eapply (drop_refused_ok (d_l d)); [done|split; [done|right; unfold refused_now; by rewrite Ef]]].
  destruct (FindAgent _ _) as [ag|] eqn:Eag; [by apply drain_agent_ok|]. eapply (drop_refused_ok (d_l d)); [done|]. split; [done|]. right. unfold refused_now. by rewrite Ef, Eag.
Qed.
End look.

Lemma drain_all l0 g0 rest d g :
  drained l0 g0 rest d g -> NoDup (map snd rest) -> (forall k p, (k, p) ∈ rest -> trigger_of (run l0 p) = k) ->
  StronglySorted (fun v w => r_id (run l0 (snd v)) <= r_id (run l0 (snd w))) rest ->
  exists g', drained l0 g0 [] (foldl (drain c st now) d rest) g'.
Proof.
  revert d g. induction rest as [|[key p] rest IH]; intros d g Hd Hnd Hk Hs; [by exists g|]. simpl.
  apply NoDup_cons in Hnd as [Hn Hnd]. inversion Hs as [|?? Hs' Hf]; subst. rewrite List.Forall_forall in Hf.
  destruct (drain_ok l0 g0 key p rest d g Hd Hn) as [g' Hd'].
  - apply Hk. set_solver.
  - intros k q Hq%list_elem_of_In. by apply (Hf (k, q)).
  - apply (IH _ g'); [done|done|set_solver|done].
Qed.

Lemma by_id_le l v w : by_id l v w <> Gt <-> r_id (run l v) <= r_id (run l w).
Proof. unfold by_id. done. Qed.

Lemma all_waiting_perm l keys : all_waiting l keys ≡ₚ concat (map (fun k => map (pair k) (queue l k)) keys).
Proof. apply SortFunc_perm. Qed.

Lemma all_waiting_elem l keys k p : (k, p) ∈ all_waiting l keys <-> k ∈ keys /\ p ∈ queue l k.
Proof.
  rewrite all_waiting_perm, list_elem_of_In, in_concat. split.
  - intros (xs & Hxs & Hin). apply in_map_iff in Hxs as (k' & <- & Hk'). apply in_map_iff in Hin as (p' & [= <- <-] & Hp').
    by rewrite !list_elem_of_In.
  - rewrite !list_elem_of_In. intros [Hk Hp]. exists (map (pair k) (queue l k)). split; [apply in_map_iff; by exists k|apply in_map_iff; by exists p].
Qed.

Lemma all_waiting_sorted l keys : StronglySorted (fun v w => r_id (run l (snd v)) <= r_id (run l (snd w))) (all_waiting l keys).
Proof.
  apply (SortFunc_sorted (fun v w => by_id l (snd v) (snd w))).
  - intros v w. unfold by_id. apply Z.compare_antisym.
  - intros u v w. rewrite !by_id_le. lia.
Qed.

Lemma all_waiting_nodup l Q keys : queues_ok l Q -> NoDup keys -> NoDup (map snd (all_waiting l keys)).
Proof.
  intros [H1 _ H3] Hnd. rewrite all_waiting_perm. induction keys as [|k keys IH]; [apply NoDup_nil_2|]. simpl.
  apply NoDup_cons in Hnd as [Hn Hnd]. rewrite map_app, map_map. simpl. rewrite map_id. apply NoDup_app. split; [done|]. split; [|by apply IH].
  intros p Hp Hp'. apply list_elem_of_fmap in Hp' as ([k' p'] & -> & Hin). rewrite <- all_waiting_perm in Hin.
  apply all_waiting_elem in Hin as [Hk' Hq]. simpl in Hp. rewrite <- (H1 _ _ Hp), (H1 _ _ Hq) in Hn. done.
Qed.

Lemma set_queues_all l d keys k :
  queue (foldl (fun l k => setQueueLocked k (kept d k) l) l keys) k = if decide (k ∈ keys) then kept d k else queue l k.
Proof.
  revert l. induction keys as [|k' keys IH]; intros l.
  - destruct (decide (k ∈ [])) as [H|]; [by apply not_elem_of_nil in H|done].
  - cbn [foldl]. rewrite IH, queue_setQueue. destruct (decide (k' = k)) as [->|Hne], (decide (k ∈ keys)), (decide (k ∈ _ :: keys)) as [Hin|Hin];
      set_solver.
Qed.

(** The order the map is ranged over: each of its keys once. *)
Definition ranges (l : automationLimiter) (keys : list string) : Prop := NoDup keys /\ forall k, is_Some (l_queues l !! k) -> k ∈ keys.

Lemma ranges_queue l keys k p : ranges l keys -> p ∈ queue l k -> k ∈ keys.
Proof. intros [_ H] Hp. apply H. unfold queue in Hp. destruct (l_queues l !! k); [by eexists|]. simpl in Hp. set_solver. Qed.

Lemma set_queues_frame d keys l : let l' := foldl (fun l k => setQueueLocked k (kept d k) l) l keys in
  l_heap l' = l_heap l /\ l_seq l' = l_seq l /\ l_holds l' = l_holds l /\ l_holder l' = l_holder l /\ l_creating l' = l_creating l /\
  l_starts l' = l_starts l.
Proof. simpl. revert l. induction keys as [|k keys IH]; intros l; [done|]. simpl. destruct (IH (setQueueLocked k (kept d k) l)) as (? & ? & ? & ? & ? & ?). done. Qed.

Lemma due_drained l g keys :
  represents l g -> ranges l keys ->
  exists d g', drained l g [] d g' /\
    (forall load, loadOrEmpty load = st ->
       due c load keys now l = MkDrain (foldl (fun l k => setQueueLocked k (kept d k) l) (d_l d) keys)
         (d_start d) (d_refused d) (d_expired d) (d_next d) (d_blocked d) (d_kept d)).
Proof.
  intros Hrep Hrg. pose proof Hrep as [Hc Hq]%represents_core. pose proof Hq as [H1 H2 H3].
  exists (foldl (drain c st now) (MkDrain l [] [] [] None ∅ ∅) (all_waiting l keys)).
  destruct (drain_all l g (all_waiting l keys) (MkDrain l [] [] [] None ∅ ∅) g) as [g' Hd].
  - split; simpl; try done; [set_solver| | | |apply NoDup_nil_2|set_solver|by left].
    + intros p. unfold kept. simpl. rewrite H2. split.
      * intros Hp. left. apply list_elem_of_fmap. exists (trigger_of (run l p), p). split; [done|]. apply all_waiting_elem.
        split; [by eapply ranges_queue|done].
      * intros [([k p'] & -> & Hin)%list_elem_of_fmap|[k Hk]]; [|rewrite lookup_empty in Hk; set_solver].
        apply all_waiting_elem in Hin as [_ Hin]. simpl. by rewrite (H1 _ _ Hin).
    + intros k p. unfold kept. simpl. rewrite lookup_empty. set_solver.
    + intros k. unfold kept. simpl. rewrite lookup_empty. apply NoDup_nil_2.
  - eapply all_waiting_nodup; [done|apply Hrg].
  - intros k p [_ Hp]%all_waiting_elem. by apply H1.
  - apply all_waiting_sorted.
  - exists g'. split; [done|]. intros load <-. done.
Qed.

Lemma due_ok l g keys load : represents l g -> ranges l keys -> loadOrEmpty load = st ->
  let d := due c load keys now l in
  exists g', steps g g' /\ represents (d_l d) g' /\ g_start g' = list_to_set (d_start d) ∪ g_start g /\ g_watch g' = g_watch g /\
    NoDup (out d) /\ (forall p, p ∈ out d <-> p ∈ g_wait g /\ p ∉ g_wait g').
Proof.
  intros Hrep Hrg Hload d. destruct (due_drained l g keys Hrep Hrg) as (d0 & g' & Hd & Hdue).
  unfold d. rewrite (Hdue load Hload). clear Hdue d. pose proof Hrep as [Hc Hq]%represents_core. destruct Hd.
  destruct (set_queues_frame d0 keys (d_l d0)) as (E1 & E2 & E3 & E4 & E5 & _).
  set (l' := foldl _ (d_l d0) keys) in *. assert (forall p, run l' p = run (d_l d0) p) as Hrun by (intros p; unfold run; by rewrite E1).
  assert (forall k p, p ∈ queue l' k <-> p ∈ kept d0 k) as Hql.
  { intros k p. unfold l'. rewrite set_queues_all. destruct (decide _) as [|Hn]; [done|]. unfold queue. rewrite dr_queues0. split.
    - intros Hp. destruct Hn. eapply ranges_queue; [done|exact Hp].
    - intros Hp. destruct (dr_kept0 k p Hp) as (Ht & _). assert (p ∈ g_wait g) as Hw by (apply dr_sub0, dr_wait0; right; by exists k).
      destruct Hq as [_ H2 _]. apply H2 in Hw. rewrite Ht in Hw. done. }
  exists g'. split; [done|]. split; [|split; [done|split; [done|split; [done|]]]].
  - apply represents_core. split; [eapply core_ext; [exact dr_core0|done..|simpl; lia]|]. simpl. split.
    + intros k p Hp%Hql. rewrite Hrun, (same_trigger _ _ (dr_same0 p)). by apply dr_kept0.
    + intros p. rewrite Hql, Hrun, (same_trigger _ _ (dr_same0 p)), dr_wait0. simpl. split; [|intros Hp; right; by eexists].
      intros [?|[k Hk]]; [set_solver|]. destruct (dr_kept0 k p Hk) as (-> & _). done.
    + intros k. unfold l'. rewrite set_queues_all. destruct (decide _); [done|]. unfold queue. rewrite dr_queues0. apply Hq.
  - intros p. split; [apply dr_out0|]. intros [Hp Hn]. destruct (dr_all0 p Hp); [done|done].
Qed.
End due.
