(* ===== verification/LimiterSystem.v ===== *)
(** * The limiter in use

    The webhook receiver plans firings and discards the ones it could not hand
    over; the scheduler takes plans, starts or postpones their runs, settles each
    create, drains the queues, and watches and unwatches instances. Whatever the
    interleaving, the limiter's books are those of the ledger. *)

From S2P Require Import Prelude GoStrings GoText Entry Automation FleetState Limiter LimiterLedger LimiterPlan LimiterOps LimiterDue.
Local Open Scope string_scope.
Local Open Scope Z_scope.
Local Open Scope list_scope.

(** ** Sequence numbers only grow *)

Lemma foldl_seq {A} (f : automationLimiter -> A -> automationLimiter) xs l :
  (forall l x, l_seq l <= l_seq (f l x)) -> l_seq l <= l_seq (foldl f l xs).
Proof. intros Hf. revert l. induction xs as [|x xs IH]; intros l; simpl; [lia|]. specialize (IH (f l x)). specialize (Hf l x). lia. Qed.

Lemma settle_seq p l : l_seq l <= l_seq (settle p l).
Proof. destruct (settle_frame p l) as (_ & -> & _). lia. Qed.

Lemma insert_seq p l : l_seq l <= l_seq (insertLocked p l).
Proof. simpl. lia. Qed.

Lemma requeue_seq p w l : l_seq l <= l_seq (requeue p w l).
Proof. unfold requeue. etrans; [apply (settle_seq p)|]. etrans; [|apply insert_seq]. done. Qed.

Lemma commit_seq_le p ev log l : l_seq l <= l_seq (commit p ev log l).
Proof. apply foldl_seq. intros; simpl; lia. Qed.

Lemma postpone_seq p ev log w now l :
  0 <= l_seq l -> l_seq l + Z.of_nat (length (pl_direct p)) < 2 ^ 64 -> l_seq l <= l_seq (fst (postpone p ev log w now l)).
Proof.
  intros H0 Hroom. unfold postpone. set (l1 := foldl (fun l q => settle q l) l (pl_start p)).
  assert (l_seq l1 = l_seq l) as Hl1.
  { unfold l1. clear. revert l. induction (pl_start p) as [|q qs IH]; intros l; [done|]. simpl. rewrite IH. by destruct (settle_frame q l) as (_ & -> & _). }
  assert (forall ags s, 0 <= l_seq (fst s) -> l_seq (fst s) + Z.of_nat (length ags) < 2 ^ 64 ->
            l_seq (fst s) <= l_seq (fst (foldl (postpone_direct p ev log now) s ags))) as Hd.
  { induction ags as [|ag ags IH]; intros [l' runs] Hs Hr; simpl in *; [lia|].
    assert (u64 (l_seq l' + 1) = l_seq l' + 1) as Hu by (apply u64_small; lia). specialize (IH (alloc (MkRun (u64 (l_seq l' + 1)) (pl_firing p) (pl_fleet p)
      (tr_name (pl_trigger p)) (ag_name ag) (tr_prompt (pl_trigger p)) "" now None ev log false ag) (next_seq l'), runs ++ [length (l_heap l')])).
    simpl in IH. rewrite Hu in *. specialize (IH ltac:(lia) ltac:(lia)). lia. }
  specialize (Hd (pl_direct p) (l1, pl_start p)). simpl in Hd. destruct (foldl _ (l1, pl_start p) _) as [l2 runs]. simpl in *.
  etrans; [|apply foldl_seq]; [lia|]. intros l' q. etrans; [|apply insert_seq]. simpl. lia.
Qed.

Lemma discard_seq ps l : l_seq l <= l_seq (discard ps l).
Proof.
  apply foldl_seq. intros l' p. unfold discard_one. etrans; [apply (foldl_seq (fun l q => settle q l) (pl_start p)); intros; apply settle_seq|].
  simpl. lia.
Qed.

Lemma drain_seq c st now d w : l_seq (d_l (drain c st now d w)) = l_seq (d_l d).
Proof. destruct w as [key p]. unfold drain, drain_agent. repeat case_match; done. Qed.

Lemma due_seq c load keys now l : l_seq l <= l_seq (d_l (due c load keys now l)).
Proof.
  unfold due. simpl. etrans; [|apply foldl_seq; intros; simpl; lia].
  generalize (all_waiting l keys). intros ws. assert (forall d, l_seq (d_l d) = l_seq (d_l (foldl (drain c (loadOrEmpty load) now) d ws))) as H.
  { induction ws as [|w ws IH]; intros d; simpl; [done|]. rewrite <- IH. by rewrite drain_seq. }
  rewrite <- H. simpl. lia.
Qed.

Lemma restore_seq rs l : l_seq l <= l_seq (restoreQueued rs l).
Proof. apply foldl_seq. intros l' r. etrans; [|apply insert_seq]. simpl. lia. Qed.

(** ** Planning several firings *)

Fixpoint asked_agents (st : State) (items : list firingItem) : Z :=
  match items with
  | [] => 0
  | it :: rest => 1 + Z.of_nat (length (item_agents st it)) + asked_agents st rest
  end.

Lemma asked_agents_nonneg st items : 0 <= asked_agents st items.
Proof. induction items; simpl; lia. Qed.

(** A planning may do what one that began later may. *)
Lemma plans_later c st n m g g' : (m <= n)%nat -> rtc (ledger_step (Plans c st n)) g g' -> rtc (ledger_step (Plans c st m)) g g'.
Proof.
  intros Hle. apply rtc_subrel. intros x y H. assert (forall p, mine (Plans c st n) p -> mine (Plans c st m) p) as Hm by (simpl; lia).
  destruct H as [? ? Ha|? ? ? ? [? ? Hd ?]|? ? ? ? ? ? Hp|? ? ? ? Hd|? ? Hp|? ? ? [=]|? ? [=]|? ? [=]|? ? ? [=]|? ? [=]].
  - by apply ledger_ask.
  - apply ledger_touch; [done|]. split; [auto|by (left; destruct mt_pending)|by (left; destruct Hd as [|Hd]; [|destruct (Hd c st n)])|by (left; destruct mt_cluster as [|(_ & ? & _)])].
  - by eapply ledger_admit; eauto.
  - done.
  - by apply ledger_drop, Hm.
Qed.

Lemma plan_all_ok c st now items l g plans :
  checks_ok c -> represents l g -> l_seq l + asked_agents st items < 2 ^ 64 ->
  Forall (fun it => NoDup (map ag_name (item_agents st it))) items ->
  let s := foldl (fun '(l, plans) it =>
     let '(l, p) := planLocked c st (fi_fleet it) (fi_trigger it) (item_agents st it) now l in (l, plans ++ [p])) (l, plans) items in
  exists g' new, snd s = plans ++ new /\ rtc (ledger_step (Plans c st (length (l_heap l)))) g g' /\ represents (fst s) g' /\
    g_start g' = list_to_set (concat (map pl_start new)) ∪ g_start g /\ g_watch g' = g_watch g /\
    NoDup (concat (map pl_start new)) /\ (forall q, q ∈ concat (map pl_start new) -> (length (l_heap l) <= q)%nat) /\
    Forall (fun p => pl_firing p <= l_seq (fst s)) new /\ l_seq l <= l_seq (fst s) /\ (length (l_heap l) <= length (l_heap (fst s)))%nat.
Proof.
  intros Hchk. revert l g plans. induction items as [|it items IH]; intros l g plans Hrep Hroom Hnd; simpl.
  - exists g, []. rewrite app_nil_r. simpl. rewrite union_empty_l_L. split_and!; try done; try lia; [apply NoDup_nil_2|set_solver].
  - apply Forall_cons in Hnd as [Hn Hnd]. simpl in Hroom. pose proof (asked_agents_nonneg st items).
    destruct (planLocked_ok c st (fi_fleet it) (fi_trigger it) (item_agents st it) now l g) as [g1 Hp]; [done|done|lia|done|].
    destruct (planLocked c st (fi_fleet it) (fi_trigger it) (item_agents st it) now l) as [l1 p] eqn:Epl. simpl in Hp.
    assert (pl_firing p <= l_seq l1) as Hfi.
    { destruct Hp. lia. }
    destruct Hp as [Hps Hpr Hpst Hpw Hpwa Hpnd Hpnew Hpold Hplen Hpf Hpseq].
    destruct (IH l1 g1 (plans ++ [p]) Hpr) as (g2 & new & E & Hs & Hr & Hst & Hwa & Hn2 & Hh & Hf & Hsq & Hln); [lia|done|].
    exists g2, (p :: new). simpl. rewrite E, <- app_assoc. split; [done|]. split; [etrans; [exact Hps|]; eapply plans_later; [|exact Hs]; lia|]. split; [done|].
    split; [rewrite Hst, Hpst, list_to_set_app_L; set_solver|]. split; [congruence|].
    apply NoDup_app in Hpnd as (Hnp & _ & _).
    split; [|split; [|split; [|split; [lia|lia]]]].
    + apply NoDup_app. split; [done|]. split; [|done]. intros q Hq Hq'. apply Hh in Hq'.
      destruct (re_ids _ _ Hpr) as [Hi _ _ _]. assert (q < length (l_heap l1))%nat by (apply Hi; rewrite Hpst; set_solver). lia.
    + intros q [Hq|Hq%Hh]%elem_of_app; [apply Hpnew; set_solver|lia].
    + constructor; [lia|done].
Qed.

(** ** The system *)

(** The limiter, the plans handed over and not taken, the runs being started. *)
Record system := MkSystem { y_lim : automationLimiter; y_plans : list firingPlan; y_runs : list nat }.

Definition todo (y : system) : list nat := concat (map pl_start (y_plans y)) ++ y_runs y.

(** An instance key nobody holds a slot under. *)
Definition free_key (l : automationLimiter) (h : string) : Prop := is_watch_key h /\ l_holder l !! h = None.

(** One call of the limiter's clients. *)
Inductive sys_call : call -> system -> system -> Prop :=
| sys_plan c load items now y :
    checks_ok c -> l_seq (y_lim y) + asked_agents (loadOrEmpty load) items < 2 ^ 64 ->
    Forall (fun it => NoDup (map ag_name (item_agents (loadOrEmpty load) it))) items ->
    sys_call (Plans c (loadOrEmpty load) (length (l_heap (y_lim y)))) y (let '(l, ps) := plan c load items now (y_lim y) in MkSystem l (y_plans y ++ ps) (y_runs y))
| sys_discard l pre ps post runs :
    sys_call Settles (MkSystem l (pre ++ ps ++ post) runs) (MkSystem (discard ps l) (pre ++ post) runs)
| sys_take l pre p post runs ev log :
    sys_call Settles (MkSystem l (pre ++ p :: post) runs) (MkSystem (commit p ev log l) (pre ++ post) (runs ++ pl_start p))
| sys_postpone l pre p post runs ev log w now :
    l_seq l + Z.of_nat (length (pl_direct p)) < 2 ^ 64 ->
    sys_call Settles (MkSystem l (pre ++ p :: post) runs)
      (MkSystem (fst (postpone p (Some ev) log w now (commit p ev log l))) (pre ++ post) runs)
| sys_started l plans pre p post h :
    (h <> "" -> free_key l h) ->
    sys_call Settles (MkSystem l plans (pre ++ p :: post)) (MkSystem (started p h l) plans (pre ++ post))
| sys_requeue l plans pre p post w :
    sys_call Settles (MkSystem l plans (pre ++ p :: post)) (MkSystem (requeue p w l) plans (pre ++ post))
| sys_due c load keys now y :
    checks_ok c -> ranges (y_lim y) keys ->
    sys_call (Drains c (loadOrEmpty load) now) y (let d := due c load keys now (y_lim y) in MkSystem (d_l d) (y_plans y) (y_runs y ++ d_start d))
| sys_watch l plans runs f a h :
    free_key l h -> sys_call Settles (MkSystem l plans runs) (MkSystem (hold f a h l) plans runs)
| sys_unwatch l plans runs h :
    is_watch_key h -> sys_call Settles (MkSystem l plans runs) (MkSystem (release h l) plans runs)
| sys_restore l plans runs rs :
    NoDup (map r_id rs) -> (forall r, r ∈ rs -> 0 <= r_id r) ->
    (forall r p, r ∈ rs -> (p < length (l_heap l))%nat -> r_id (run l p) <> r_id r) ->
    sys_call Settles (MkSystem l plans runs) (MkSystem (restoreQueued rs l) plans runs)
| sys_shuffle l plans plans' runs :
    plans ≡ₚ plans' -> sys_call Settles (MkSystem l plans runs) (MkSystem l plans' runs).

Definition sys_step (y y' : system) : Prop := exists k, sys_call k y y'.

(** Calls in turn. *)
Inductive history {A} (R : call -> A -> A -> Prop) : list call -> A -> A -> Prop :=
| history_nil x : history R [] x x
| history_cons k ks x y z : R k x y -> history R ks y z -> history R (k :: ks) x z.

Lemma history_snoc {A} (R : call -> A -> A -> Prop) ks k x y z : history R ks x y -> R k y z -> history R (ks ++ [k]) x z.
Proof. intros H Hk. induction H as [x|k' ks x y' y H1 H2 IH]; [by eapply history_cons; [|constructor]|]. simpl. eapply history_cons; eauto. Qed.

Lemma history_steps ks y y' : history sys_call ks y y' -> rtc sys_step y y'.
Proof. induction 1; [done|]. eapply rtc_l; [by eexists|done]. Qed.

Lemma steps_history y y' : rtc sys_step y y' -> exists ks, history sys_call ks y y'.
Proof. induction 1 as [y|x y z [k Hk] _ [ks Hks]]; [exists []; constructor|]. exists (k :: ks). by eapply history_cons. Qed.

Definition sys_init : system := MkSystem newAutomationLimiter [] [].

(** What one call does of the ledger's steps, under its own checks and records. *)
Definition ledger_call (k : call) : ledger -> ledger -> Prop := rtc (ledger_step k).
Definition empty_ledger : ledger := MkLedger [] ∅ ∅ ∅.

Record sys_rel (y : system) (g : ledger) : Prop := {
  sy_rep : represents (y_lim y) g;
  sy_start : g_start g = list_to_set (todo y);
  sy_nodup : NoDup (todo y);
  sy_firing : Forall (fun p => pl_firing p <= l_seq (y_lim y)) (y_plans y)
}.

Lemma sys_rel_init : sys_rel sys_init empty_ledger.
Proof.
  split; [|done|apply NoDup_nil_2|by constructor]. split; [done| | | |set_solver].
  - split; [|..|set_solver|set_solver].
    + intros h a. split; [done|]. intros [H|(p & Hp & _)]; [done|set_solver].
    + intros a h. split; [intros Hh; unfold held in Hh; simpl in Hh; rewrite lookup_empty in Hh; set_solver|done].
    + intros cl _. done.
    + intros h [a H]. done.
  - split; [intros key p Hp|intros p; split; [set_solver|intros Hp]|intros key; unfold queue; simpl; rewrite lookup_empty; apply NoDup_nil_2];
      unfold queue in Hp; simpl in Hp; rewrite lookup_empty in Hp; set_solver.
  - split; [set_solver..|done].
Qed.

Lemma free_key_watch l g h : represents l g -> free_key l h -> g_watch g !! h = None /\ is_watch_key h.
Proof.
  intros [_ [Hh _ _ _ _ _] _ _ _] [Hk Hn]. split; [|done]. destruct (g_watch g !! h) as [a|] eqn:E; [|done].
  assert (l_holder l !! h = Some a) by (apply Hh; by left). congruence.
Qed.

Lemma Forall_firing_mono s s' ps : s <= s' -> Forall (fun p => pl_firing p <= s) ps -> Forall (fun p => pl_firing p <= s') ps.
Proof. intros Hs H. eapply Forall_impl; [exact H|]. simpl. lia. Qed.

Lemma discard_all_ok ps l g :
  represents l g -> NoDup (concat (map pl_start ps)) -> (forall q, q ∈ concat (map pl_start ps) -> q ∈ g_start g) ->
  exists g', ledger_call Settles g g' /\ represents (discard ps l) g' /\
    g_start g' = g_start g ∖ list_to_set (concat (map pl_start ps)) /\ g_watch g' = g_watch g.
Proof.
  revert l g. induction ps as [|p ps IH]; intros l g Hr Hnd Hin; simpl in *.
  - exists g. rewrite difference_empty_L. split; [by apply rtc_refl|done].
  - apply NoDup_app in Hnd as (Hnp & Hd & Hnd).
    destruct (discard_one_ok l g p Hr Hnp) as (g1 & Hs1 & Hr1 & Hst1 & Hw1 & _); [set_solver|].
    destruct (IH (discard_one p l) g1 Hr1 Hnd) as (g2 & Hs2 & Hr2 & Hst2 & Hw2); [set_solver|].
    exists g2. split; [by etrans|]. split; [done|]. rewrite Hst2, Hst1, Hw2, Hw1, list_to_set_app_L. split; [set_solver|done].
Qed.

(** ** Each step of the system is steps of the ledger *)

Lemma todo_middle l pre p post runs :
  todo (MkSystem l (pre ++ p :: post) runs) ≡ₚ pl_start p ++ todo (MkSystem l (pre ++ post) runs).
Proof. unfold todo. simpl. rewrite !map_app, !concat_app. simpl. solve_Permutation. Qed.

Lemma rel_split y g ps rest :
  sys_rel y g -> todo y ≡ₚ ps ++ rest ->
  NoDup ps /\ NoDup rest /\ (forall q, q ∈ ps -> q ∈ g_start g) /\ g_start g ∖ list_to_set ps = list_to_set rest.
Proof.
  intros [_ Hst Hnd _] Hp. rewrite Hp in Hnd. apply NoDup_app in Hnd as (H1 & H2 & H3).
  assert (g_start g = list_to_set ps ∪ list_to_set rest) as E by (rewrite Hst, <- list_to_set_app_L; by apply list_to_set_perm_L).
  split; [done|]. split; [done|]. split; [rewrite E; set_solver|]. rewrite E. apply set_eq. intros q.
  rewrite elem_of_difference, elem_of_union, !elem_of_list_to_set. split; [tauto|]. intros Hq. split; [tauto|]. intros Hq'. by apply (H2 q).
Qed.

Lemma sim_plan c load items now y g :
  sys_rel y g -> checks_ok c -> l_seq (y_lim y) + asked_agents (loadOrEmpty load) items < 2 ^ 64 ->
  Forall (fun it => NoDup (map ag_name (item_agents (loadOrEmpty load) it))) items ->
  exists g', ledger_call (Plans c (loadOrEmpty load) (length (l_heap (y_lim y)))) g g' /\
    sys_rel (let '(l, ps) := plan c load items now (y_lim y) in MkSystem l (y_plans y ++ ps) (y_runs y)) g'.
Proof.
  intros [Hr Hst Hnd Hf] Hc Hroom Hag.
  destruct (plan_all_ok c (loadOrEmpty load) now items (y_lim y) g [] Hc Hr Hroom Hag)
    as (g' & new & E & Hs & Hr' & Hst' & Hwa & Hn & Hh & Hf' & Hsq & Hln). fold (plan c load items now (y_lim y)) in *.
  destruct (plan c load items now (y_lim y)) as [l' ps]. simpl in *. subst ps.
  exists g'. split; [done|]. split; simpl; [done|..].
  - rewrite Hst', Hst. unfold todo. simpl. rewrite map_app, concat_app, !list_to_set_app_L. set_solver.
  - unfold todo. simpl. rewrite map_app, concat_app, <- app_assoc, Permutation_app_swap_app. apply NoDup_app. split; [done|]. split; [|done].
    intros q Hq%Hh Hq'. destruct (re_ids _ _ Hr) as [Hi _ _ _].
    assert (q < length (l_heap (y_lim y)))%nat by (apply Hi, elem_of_union_r; rewrite Hst; by apply elem_of_list_to_set). lia.
  - apply Forall_app. split; [by eapply Forall_firing_mono|done].
Qed.

Lemma sim_discard l pre ps post runs g : sys_rel (MkSystem l (pre ++ ps ++ post) runs) g ->
  exists g', ledger_call Settles g g' /\ sys_rel (MkSystem (discard ps l) (pre ++ post) runs) g'.
Proof.
  intros Hrel. destruct (rel_split _ _ (concat (map pl_start ps)) (todo (MkSystem l (pre ++ post) runs)) Hrel) as (H1 & H2 & H3 & H4).
  { unfold todo. simpl. rewrite !map_app, !concat_app. solve_Permutation. }
  destruct Hrel as [Hr Hst Hnd Hf].
  destruct (discard_all_ok  ps l g Hr H1 H3) as (g' & Hs & Hr' & Hst' & _).
  exists g'. split; [done|]. split; simpl; [done|by rewrite Hst', H4|done|].
  eapply Forall_firing_mono; [apply discard_seq|]. simpl in Hf. rewrite !Forall_app in *. tauto.
Qed.

Lemma sim_take l pre p post runs ev log g : sys_rel (MkSystem l (pre ++ p :: post) runs) g ->
  exists g', ledger_call Settles g g' /\ sys_rel (MkSystem (commit p ev log l) (pre ++ post) (runs ++ pl_start p)) g'.
Proof.
  intros [Hr Hst Hnd Hf]. destruct (commit_ok  l g p ev log Hr) as (g' & Hs & Hr' & Hw & Hst' & Hwa).
  assert (todo (MkSystem l (pre ++ p :: post) runs) ≡ₚ todo (MkSystem (commit p ev log l) (pre ++ post) (runs ++ pl_start p))) as Hp.
  { rewrite todo_middle. unfold todo. simpl. solve_Permutation. }
  exists g'. split; [done|]. split; simpl; [done|rewrite Hst', Hst; by apply list_to_set_perm_L|by rewrite <- Hp|].
  eapply Forall_firing_mono; [apply commit_seq_le|]. simpl in Hf. rewrite Forall_app, Forall_cons in Hf. rewrite Forall_app. tauto.
Qed.

Lemma postpone_rel l pre p post runs ev log w now g :
  sys_rel (MkSystem l (pre ++ p :: post) runs) g -> l_seq l + Z.of_nat (length (pl_direct p)) < 2 ^ 64 ->
  exists g', ledger_call Settles g g' /\
    sys_rel (MkSystem (fst (postpone p (Some ev) log w now (commit p ev log l))) (pre ++ post) runs) g' /\ g_watch g' = g_watch g.
Proof.
  intros Hrel Hroom. destruct (rel_split _ _ _ _ Hrel (todo_middle l pre p post runs)) as (H1 & H2 & H3 & H4).
  destruct Hrel as [Hr Hst Hnd Hf].
  destruct (commit_ok l g p ev log Hr) as (g1 & Hs1 & Hr1 & Hw1 & Hst1 & Hwa1).
  assert (l_seq (commit p ev log l) = l_seq l) as Hsq.
  { unfold commit. generalize (pl_start p ++ pl_queued p). intros qs. clear. revert l. induction qs as [|q qs IH]; intros l; [done|]. simpl. by rewrite IH. }
  simpl in Hf. rewrite Forall_app, Forall_cons in Hf.
  destruct (postpone_ok (commit p ev log l) g1 p (Some ev) log w now Hr1 H1) as (g2 & Hs2 & Hr2 & Hst2 & Hwa2 & _);
    [by rewrite Hst1|rewrite Hsq; tauto|by rewrite Hsq|].
  exists g2. split; [by etrans|]. split; [|by rewrite Hwa2].
  split; simpl; [done|by rewrite Hst2, Hst1, H4|done|].
  eapply (Forall_firing_mono (l_seq l)); [|rewrite Forall_app; tauto]. rewrite <- Hsq. apply postpone_seq; [|by rewrite Hsq].
  rewrite Hsq. by destruct (re_ids _ _ Hr).
Qed.

Lemma sim_postpone l pre p post runs ev log w now g :
  sys_rel (MkSystem l (pre ++ p :: post) runs) g -> l_seq l + Z.of_nat (length (pl_direct p)) < 2 ^ 64 ->
  exists g', ledger_call Settles g g' /\
    sys_rel (MkSystem (fst (postpone p (Some ev) log w now (commit p ev log l))) (pre ++ post) runs) g'.
Proof. intros Hrel Hroom. destruct (postpone_rel l pre p post runs ev log w now g Hrel Hroom) as (g' & ? & ? & _). by exists g'. Qed.

Lemma todo_run l plans pre p post : todo (MkSystem l plans (pre ++ p :: post)) ≡ₚ [p] ++ todo (MkSystem l plans (pre ++ post)).
Proof. unfold todo. simpl. solve_Permutation. Qed.

Lemma sim_started l plans pre p post h g : sys_rel (MkSystem l plans (pre ++ p :: post)) g -> (h <> "" -> free_key l h) ->
  exists g', ledger_call Settles g g' /\ sys_rel (MkSystem (started p h l) plans (pre ++ post)) g'.
Proof.
  intros Hrel Hh. destruct (rel_split _ _ _ _ Hrel (todo_run l plans pre p post)) as (H1 & H2 & H3 & H4). destruct Hrel as [Hr Hst Hnd Hf].
  destruct (started_ok  l g p h Hr) as (g' & Hs & Hr' & Hst' & Hw & Hwa);
    [set_solver|intros Hne; by eapply free_key_watch, Hh|].
  exists g'. split; [done|]. split; simpl; [done| |done|].
  - rewrite Hst'. simpl in H4. rewrite union_empty_r_L in H4. by rewrite H4.
  - eapply Forall_firing_mono; [|exact Hf]. unfold started. destruct (String.eqb h ""); simpl; apply settle_seq.
Qed.

Lemma sim_requeue l plans pre p post w g : sys_rel (MkSystem l plans (pre ++ p :: post)) g ->
  exists g', ledger_call Settles g g' /\ sys_rel (MkSystem (requeue p w l) plans (pre ++ post)) g'.
Proof.
  intros Hrel. destruct (rel_split _ _ _ _ Hrel (todo_run l plans pre p post)) as (H1 & H2 & H3 & H4). destruct Hrel as [Hr Hst Hnd Hf].
  destruct (requeue_ok  l g p w Hr) as (g' & Hs & Hr' & Hst' & Hw & Hwa); [set_solver|].
  exists g'. split; [done|]. split; simpl; [done| |done|].
  - rewrite Hst'. simpl in H4. rewrite union_empty_r_L in H4. by rewrite H4.
  - eapply Forall_firing_mono; [|exact Hf]. apply requeue_seq.
Qed.

Lemma sim_due c load keys now y g : sys_rel y g -> checks_ok c -> ranges (y_lim y) keys ->
  exists g', ledger_call (Drains c (loadOrEmpty load) now) g g' /\
    sys_rel (let d := due c load keys now (y_lim y) in MkSystem (d_l d) (y_plans y) (y_runs y ++ d_start d)) g'.
Proof.
  intros [Hr Hst Hnd Hf] Hc Hk. destruct (due_ok c (loadOrEmpty load) now Hc (y_lim y) g keys load Hr Hk eq_refl) as (g' & Hs & Hr' & Hst' & Hwa & Hn & Ho).
  set (d := due c load keys now (y_lim y)) in *.
  assert (todo (MkSystem (d_l d) (y_plans y) (y_runs y ++ d_start d)) ≡ₚ d_start d ++ todo y) as Hp by (unfold todo; simpl; solve_Permutation).
  exists g'. split; [done|]. split; cbn [y_lim y_plans].
  - done.
  - rewrite Hst', Hst, <- list_to_set_app_L. symmetry. by apply list_to_set_perm_L.
  - rewrite Hp. unfold out in Hn. apply NoDup_app in Hn as (Hn & _ & _). apply NoDup_app. split; [done|]. split; [|done].
    intros q Hq Hq'. assert (q ∈ g_wait g) as Hqw by (apply Ho; unfold out; set_solver). destruct (re_disjoint _ _ Hr q Hqw).
    rewrite Hst. by apply elem_of_list_to_set.
  - eapply Forall_firing_mono; [apply due_seq|done].
Qed.

Lemma sim_watch l plans runs f a h g : sys_rel (MkSystem l plans runs) g -> free_key l h ->
  exists g', ledger_call Settles g g' /\ sys_rel (MkSystem (hold f a h l) plans runs) g'.
Proof.
  intros [Hr Hst Hnd Hf] Hk. destruct (free_key_watch _ _ _ Hr Hk) as [Hn Hw].
  destruct (hold_ok  l g f a h Hr Hn Hw) as (g' & Hs & Hr' & Hst' & _).
  exists g'. split; [done|]. split; simpl in *; [done|by rewrite Hst'|done|].
  eapply Forall_firing_mono; [|exact Hf]. unfold hold. by destruct (String.eqb a "").
Qed.

Lemma sim_unwatch l plans runs h g : sys_rel (MkSystem l plans runs) g -> is_watch_key h ->
  exists g', ledger_call Settles g g' /\ sys_rel (MkSystem (release h l) plans runs) g'.
Proof.
  intros [Hr Hst Hnd Hf] Hk.
  destruct (release_ok  l g h Hr Hk) as (g' & Hs & Hr' & Hst' & _).
  exists g'. split; [done|]. split; simpl in *; [done|by rewrite Hst'|done|].
  eapply Forall_firing_mono; [|exact Hf]. unfold release, releaseLocked. by destruct (l_holder l !! h).
Qed.

Lemma sim_restore l plans runs rs g : sys_rel (MkSystem l plans runs) g ->
  NoDup (map r_id rs) -> (forall r, r ∈ rs -> 0 <= r_id r) ->
  (forall r p, r ∈ rs -> (p < length (l_heap l))%nat -> r_id (run l p) <> r_id r) ->
  exists g', ledger_call Settles g g' /\ sys_rel (MkSystem (restoreQueued rs l) plans runs) g'.
Proof.
  intros [Hr Hst Hnd Hf] Hn H0 Hfr.
  destruct (restoreQueued_ok  rs l g Hr Hn H0) as (g' & Hs & Hr' & [Hst' Hwa] & _).
  { intros r p Hin Hp. apply Hfr; [done|]. by eapply (io_heap _ _ (re_ids _ _ Hr)). }
  exists g'. split; [done|]. split; simpl in *; [done|by rewrite Hst'|done|].
  eapply Forall_firing_mono; [apply restore_seq|exact Hf].
Qed.

Lemma sim_shuffle l plans plans' runs g : sys_rel (MkSystem l plans runs) g -> plans ≡ₚ plans' ->
  exists g', ledger_call Settles g g' /\ sys_rel (MkSystem l plans' runs) g'.
Proof.
  intros [Hr Hst Hnd Hf] Hp. exists g. split; [done|].
  assert (todo (MkSystem l plans runs) ≡ₚ todo (MkSystem l plans' runs)) as Ht.
  { unfold todo. simpl. apply Permutation_app_tail. clear -Hp. induction Hp; simpl; [done|by f_equiv|apply Permutation_app_swap_app|by etrans]. }
  split; simpl in *; [done|rewrite Hst; by apply list_to_set_perm_L|by rewrite <- Ht|by rewrite <- Hp].
Qed.

Lemma sys_call_sim k y y' g : sys_call k y y' -> sys_rel y g -> exists g', ledger_call k g g' /\ sys_rel y' g'.
Proof.
  intros [] Hr; [by apply sim_plan|by apply sim_discard|by apply sim_take|by apply sim_postpone|by apply sim_started
    |by apply sim_requeue|by apply sim_due|by apply sim_watch|by apply sim_unwatch|by apply sim_restore|by eapply sim_shuffle].
Qed.

Lemma sys_run_sim ks y y' g : history sys_call ks y y' -> sys_rel y g -> exists g', history ledger_call ks g g' /\ sys_rel y' g'.
Proof.
  intros H. revert g. induction H as [y|k ks x y z Hs H IH]; intros g Hr; [exists g; split; [constructor|done]|].
  destruct (sys_call_sim _ _ _ _ Hs Hr) as (g1 & Hs1 & Hr1). destruct (IH g1 Hr1) as (g2 & Hs2 & Hr2). exists g2. split; [by eapply history_cons|done].
Qed.
