(* ===== verification/LimiterClaims.v ===== *)
(** * What the limiter promises

    The limiter refines the ledger whatever its clients do; its counters are the
    runs in flight; a plan accounts for every agent of the firing and never takes
    a queue past its bound; a plan that is discarded leaves no trace in the books. *)

From S2P Require Import Prelude GoStrings GoText Entry Automation FleetState Limiter LimiterLedger LimiterPlan LimiterOps LimiterDue LimiterSystem.
Local Open Scope string_scope.
Local Open Scope Z_scope.
Local Open Scope list_scope.

(** ** The two ends of planning *)

Section shape.
Context (c : runChecks) (st : State) (fleetName : string) (t : Trigger) (agents : list Agent) (now : Z).
Context (l : automationLimiter) (g : ledger).
Let key := firedKey fleetName (tr_name t).

Lemma plan_shape : represents l g -> l_seq l + 1 + Z.of_nat (length agents) < 2 ^ 64 ->
  exists a s gs, presorted c st fleetName t now agents l g a s gs /\
    let r := reserve_all now (so_start s) (so_l s, ∅) in
    (so_waiting s <> [] /\ automationQueueMax <= firingsLocked (so_l s) key /\ planLocked c st fleetName t agents now l =
       (so_l s, MkPlan fleetName t (l_seq (next_seq l)) [] [] [] [] (Some automationQueueMax)
          (retryAfterLocked c (so_l s) (so_waiting s) now) ∅)) \/
    ((so_waiting s = [] \/ firingsLocked (so_l s) key < automationQueueMax) /\ planLocked c st fleetName t agents now l =
       (set_queues (<[key := queue (fst r) key ++ so_waiting s]> (l_queues (fst r))) (fst r),
        MkPlan fleetName t (l_seq (next_seq l)) (as_direct a) (so_start s) (so_waiting s) (as_refused a) None 0 (snd r))).
Proof.
  intros [Hco _]%represents_core Hroom. destruct (presort c st fleetName t now agents l g Hco Hroom) as [gs Hps].
  eexists _, _, gs. split; [exact Hps|]. unfold planLocked. fold key. cbv zeta.
  set (a := foldl (ask c st fleetName t (l_seq (next_seq l)) now) _ agents).
  set (s := foldl (sort_run c st now) _ (as_runs a)). destruct (reserve_all now (so_start s) (so_l s, ∅)) as [lr marks]. simpl.
  case_bool_decide as Hw; simpl; [right; split; [by left|done]|]. destruct (Z.leb_spec automationQueueMax (firingsLocked (so_l s) key)).
  - left. done.
  - right. split; [by right|done].
Qed.
End shape.

Lemma reserve_all_books now ps l marks :
  let l' := fst (reserve_all now ps (l, marks)) in
  l_heap l' = l_heap l /\ l_queues l' = l_queues l /\ l_seq l' = l_seq l.
Proof.
  simpl. rewrite reserve_all_fst. revert l. induction ps as [|p ps IH]; intros l; simpl; [done|].
  destruct (IH (reserveLocked now p l)) as (-> & -> & ->). done.
Qed.

Lemma firings_app l l' key ws F :
  (forall p, p ∈ queue l key -> run l' p = run l p) -> (forall p, p ∈ ws -> r_firing (run l' p) = F) ->
  queue l' key = queue l key ++ ws ->
  firingsLocked l' key <= firingsLocked l key + (if decide (ws = []) then 0 else 1).
Proof.
  intros Hr Hw Hq. unfold firingsLocked. rewrite Hq, map_app, list_to_set_app_L.
  rewrite (map_ext_in_elem (fun p => r_firing (run l' p)) (fun p => r_firing (run l p)) (queue l key)) by (intros p Hp; by rewrite Hr).
  set (X := list_to_set (map _ (queue l key)) : gset Z). destruct (decide (ws = [])) as [->|Hne].
  - simpl. rewrite union_empty_r_L. lia.
  - assert (size (X ∪ list_to_set (map (fun p => r_firing (run l' p)) ws)) <= size (X ∪ {[F]}))%nat as Hle.
    { apply subseteq_size. intros z [Hz|Hz]%elem_of_union; [set_solver|]. apply elem_of_list_to_set, list_elem_of_fmap in Hz as (p & -> & Hp).
      rewrite (Hw p Hp). set_solver. }
    assert (size (X ∪ {[F]}) <= size X + 1)%nat as Hle'.
    { rewrite size_union_alt, Nat.add_comm. assert (size ({[F]} ∖ X) <= size ({[F]} : gset Z))%nat by (apply subseteq_size; set_solver).
      rewrite size_singleton in *. lia. }
    lia.
Qed.

(** ** Marks taken and given back *)

Lemma reserve_all_marks now F ps l :
  (forall p, p ∈ ps -> r_firing (run l p) = F) ->
  let r := reserve_all now ps (l, ∅) in
  forall sk, l_starts l !! sk = match snd r !! sk with Some prev => prev | None => l_starts (fst r) !! sk end /\
    (is_Some (snd r !! sk) -> exists at_, l_starts (fst r) !! sk = Some (MkMark at_ F)).
Proof.
  induction ps as [|p ps IH] using rev_ind; intros Hf; simpl; [by intros sk; split; [|intros []]|].
  unfold reserve_all. rewrite foldl_app. fold (reserve_all now ps (l, ∅)).
  pose proof (reserve_all_books now ps l ∅) as (Hh & _ & _). specialize (IH ltac:(set_solver)). cbv zeta in IH.
  destruct (reserve_all now ps (l, ∅)) as [lr marks]. simpl in Hh, IH |- *.
  assert (r_firing (run lr p) = F) as Hp by (unfold run; rewrite Hh; apply Hf; set_solver).
  intros sk. change (startKey (r_fleet (run lr p)) (r_trigger (run lr p)) (r_cluster (run lr p))) with (start_key lr p).
  destruct (IH sk) as [E1 E2]. unfold save_mark. destruct (decide (start_key lr p = sk)) as [<-|Hne].
  - rewrite lookup_insert_eq, Hp. destruct (marks !! start_key lr p) as [prev|] eqn:Em.
    + rewrite Em. split; [done|eauto].
    + rewrite lookup_insert_eq. split; [done|eauto].
  - rewrite (lookup_insert_ne (l_starts lr)) by done. destruct (marks !! start_key lr p) as [prev|]; [done|]. by rewrite lookup_insert_ne.
Qed.

Lemma restore_marks F (starts : gmap string startMark) (marks : gmap string (option startMark)) :
  (forall sk, is_Some (marks !! sk) -> exists at_, starts !! sk = Some (MkMark at_ F)) ->
  forall sk, map_fold (restore_mark F) starts marks !! sk = match marks !! sk with Some prev => prev | None => starts !! sk end.
Proof.
  apply (map_fold_weak_ind (fun res m => (forall sk, is_Some (m !! sk) -> exists at_, starts !! sk = Some (MkMark at_ F)) ->
    forall sk, res !! sk = match m !! sk with Some prev => prev | None => starts !! sk end)); [done|].
  intros i x m res Hi IH Hm. assert (forall sk, res !! sk = match m !! sk with Some prev => prev | None => starts !! sk end) as IH'.
  { apply IH. intros sk Hsk. apply Hm. destruct (decide (i = sk)) as [<-|]; [by rewrite Hi in Hsk; destruct Hsk|by rewrite lookup_insert_ne]. }
  destruct (Hm i) as [at_ Hat]; [rewrite lookup_insert_eq; eauto|]. pose proof (IH' i) as Hri. rewrite Hi, Hat in Hri.
  intros sk. unfold restore_mark. rewrite Hri. simpl. rewrite Z.eqb_refl. destruct (decide (i = sk)) as [<-|Hne].
  - rewrite lookup_insert_eq. destruct x; [by rewrite lookup_insert_eq|by rewrite lookup_delete_eq].
  - rewrite lookup_insert_ne by done. destruct x; [rewrite lookup_insert_ne by done|rewrite lookup_delete_ne by done]; apply IH'.
Qed.

(** ** Books read off the ledger *)

(** Two limiters that stand for the same starting and watched runs have the same slots and counters. *)
Lemma slots_determined l l' S W :
  slots_ok l S W -> slots_ok l' S W -> (forall p, p ∈ S -> run l' p = run l p) ->
  l_holder l' = l_holder l /\ (forall a, held l' a = held l a) /\ (forall cl, cl <> "" -> creating l' cl = creating l cl).
Proof.
  intros H H' Hr.
  assert (l_holder l' = l_holder l) as Hh.
  { apply map_eq. intros h. apply option_eq. intros a. rewrite (so_holder _ _ _ H), (so_holder _ _ _ H').
    split; (intros [?|(p & Hp & E)]; [by left|right; exists p; rewrite (Hr p Hp) in *; done]). }
  split; [done|]. split.
  - intros a. apply set_eq. intros h. by rewrite (so_held _ _ _ H), (so_held _ _ _ H'), Hh.
  - intros cl Hcl. rewrite (so_creating _ _ _ H cl Hcl), (so_creating _ _ _ H' cl Hcl). do 2 f_equal.
    apply filter_runs. intros p Hp. by rewrite Hr.
Qed.

(** ** Claims *)

Section reached.
Context (y : system) (Hy : rtc sys_step sys_init y).

Lemma reached_rel : exists g, (exists ks, history ledger_call ks empty_ledger g) /\ sys_rel y g.
Proof.
  destruct (steps_history _ _ Hy) as [ks Hks]. destruct (sys_run_sim ks sys_init y empty_ledger Hks sys_rel_init) as (g & Hg & Hr). exists g. split; [by exists ks|done].
Qed.
End reached.


(** Slots and creates of a reachable system. *)
Lemma counts_true y :
  rtc sys_step sys_init y ->
  NoDup (todo y) /\
  (forall cl, cl <> "" -> creating (y_lim y) cl = Z.of_nat (length (filter (fun p => r_cluster (run (y_lim y) p) = cl) (todo y)))) /\
  (forall h a, ~ is_watch_key h -> l_holder (y_lim y) !! h = Some a <->
     exists p, p ∈ todo y /\ h = reservation (run (y_lim y) p) /\ a = agent_of (run (y_lim y) p)) /\
  (forall a h, h ∈ held (y_lim y) a <-> l_holder (y_lim y) !! h = Some a).
Proof.
  intros Hy. destruct (reached_rel y Hy) as (g & _ & Hr). destruct Hr as [[_ [Hh Hd Hc Hw Hi Hid] _ _ _] Hs Hn _].
  split; [done|]. split; [|split; [|done]].
  - intros cl Hcl. rewrite (Hc cl Hcl), Hs, size_filter_list by done. done.
  - intros h a Hk. rewrite Hh, Hs. setoid_rewrite elem_of_list_to_set. split; [|by right]. intros [E|?]; [|done].
    destruct Hk. apply Hw. by eexists.
Qed.

(** No slot or create is ever leaked or counted twice: at any point the creates counted on a connection are the
    runs in hand for it, a slot that is not a watched instance's is the reservation of a run in hand, and an
    agent's slots are exactly the holders recorded for it; so with no run in hand nothing is being created and
    only watched instances hold slots. *)
Theorem limiter_counts_are_true y :
  rtc sys_step sys_init y ->
  NoDup (todo y) /\
  (forall cl, cl <> "" -> creating (y_lim y) cl = Z.of_nat (length (filter (fun p => r_cluster (run (y_lim y) p) = cl) (todo y)))) /\
  (forall h a, ~ is_watch_key h -> l_holder (y_lim y) !! h = Some a <->
     exists p, p ∈ todo y /\ h = reservation (run (y_lim y) p) /\ a = agent_of (run (y_lim y) p)) /\
  (forall a h, h ∈ held (y_lim y) a <-> l_holder (y_lim y) !! h = Some a).
Proof. apply counts_true. Qed.

Lemma queue_live l g key p : represents l g -> p ∈ queue l key ->
  (p < length (l_heap l))%nat /\ r_firing (run l p) <= l_seq l.
Proof.
  intros Hr Hp%(queue_elem_wait _ g); [|done]. destruct (re_ids _ _ Hr) as [Hi Hg _ _].
  split; [apply Hi; set_solver|apply Hg; set_solver].
Qed.

(** What a plan does with the agents of the firing. *)
Definition plan_accounts (c : runChecks) (st : State) (agents : list Agent) (l l' : automationLimiter) (p : firingPlan) : Prop :=
  let key := firedKey (pl_fleet p) (tr_name (pl_trigger p)) in
  match pl_dropped p with
  | Some n => n = automationQueueMax /\ automationQueueMax <= firingsLocked l key /\ same_books l l' /\
      pl_direct p = [] /\ pl_start p = [] /\ pl_queued p = [] /\ pl_refused p = []
  | None => pl_direct p = filter (fun ag => off_cluster ag = true) agents /\
      pl_refused p = omap (refused_of c st (pl_fleet p)) agents /\
      map (fun q => r_def (run l' q)) (pl_start p ++ pl_queued p) ≡ₚ filter (fun ag => runs_on c st (pl_fleet p) ag = true) agents /\
      queue l' key = queue l key ++ pl_queued p /\
      firingsLocked l' key <= Z.max (firingsLocked l key) automationQueueMax
  end.

(** A plan accounts for every agent of the firing: off the clusters it is created at once, refused with a
    reason, started now or queued, each exactly once, and the trigger's queue never passes automationQueueMax
    firings by it; a firing refused because the queue is full plans nothing and leaves the books as they were. *)
Theorem plan_accounts_for_agents y c st fleetName t agents now :
  rtc sys_step sys_init y -> checks_ok c -> l_seq (y_lim y) + 1 + Z.of_nat (length agents) < 2 ^ 64 -> NoDup (map ag_name agents) ->
  plan_accounts c st agents (y_lim y) (fst (planLocked c st fleetName t agents now (y_lim y)))
    (snd (planLocked c st fleetName t agents now (y_lim y))).
Proof.
  intros Hy Hc Hroom Hnd. destruct (reached_rel y Hy) as (g & _ & [Hr _ _ _]). set (l := y_lim y) in *.
  destruct (plan_shape c st fleetName t agents now l g Hr Hroom) as (a & s & gs & Hps & [(Hw & Hq & E)|(Hw & E)]);
    rewrite E; clear E; destruct Hps as [_ _ Hb Hold Hnew _ _ _ _ _ Hpm _ Hfr Hdf Hdi Hre _]; unfold plan_accounts; simpl;
    set (key := firedKey fleetName (tr_name t)) in *.
  - split; [done|]. split; [|done]. etrans; [exact Hq|].
    pose proof (firings_app l (so_l s) key [] 0) as H. destruct (decide _) in H; [|done]. rewrite Z.add_0_r in H. apply H; [|set_solver|].
    + intros p [Hp _]%(queue_live _ g); [|done]. by apply Hold.
    + rewrite app_nil_r. unfold queue. by destruct Hb as [-> _ _ _ _].
  - set (r := reserve_all now (so_start s) (so_l s, ∅)) in *.
    destruct (reserve_all_books now (so_start s) (so_l s) ∅) as (Hh & Hqs & _). fold r in Hh, Hqs.
    assert (forall q, run (set_queues (<[key := queue (fst r) key ++ so_waiting s]> (l_queues (fst r))) (fst r)) q = run (so_l s) q) as Hrun
      by (intros q; unfold run; simpl; by rewrite Hh).
    split; [done|]. split; [done|]. split; [|split].
    + rewrite <- Hdf, (map_ext_in_elem _ (fun q => r_def (run (so_l s) q))) by (intros; by rewrite Hrun). by rewrite Hpm.
    + rewrite queue_set_queues, decide_True by done. unfold queue. rewrite Hqs. by destruct Hb as [-> _ _ _ _].
    + assert (queue (so_l s) key = queue l key) as Hql by (unfold queue; by destruct Hb as [-> _ _ _ _]).
      assert (forall p, p ∈ queue (so_l s) key -> run (set_queues (<[key := queue (fst r) key ++ so_waiting s]> (l_queues (fst r))) (fst r)) p = run (so_l s) p) as Hsame by auto.
      pose proof (firings_app (so_l s) _ key (so_waiting s) (l_seq (next_seq l)) Hsame) as Hle.
      pose proof (firings_app l (so_l s) key [] 0) as Hle0. destruct (decide ([] = [])) in Hle0; [|done].
      specialize (Hle0 ltac:(intros p [Hp _]%(queue_live _ g); [by apply Hold|done]) ltac:(set_solver) ltac:(by rewrite app_nil_r)).
      specialize (Hle ltac:(intros p Hp; rewrite Hrun; apply Hfr; rewrite <- Hpm; set_solver)
                      ltac:(rewrite queue_set_queues, decide_True by done; unfold queue; by rewrite Hqs)).
      destruct (decide _); [lia|]. destruct Hw as [|Hw]; [done|lia].
Qed.

(** The parts of the limiter that decide what runs. *)
Record same_decisions (l l' : automationLimiter) : Prop := {
  sd_starts : l_starts l' = l_starts l;
  sd_holder : l_holder l' = l_holder l;
  sd_held : forall a, held l' a = held l a;
  sd_creating : forall cl, cl <> "" -> creating l' cl = creating l cl;
  sd_queues : forall k, queue l' k = queue l k
}.

Lemma discard_one_books p l :
  l_heap (discard_one p l) = l_heap l /\ l_starts (discard_one p l) = map_fold (restore_mark (pl_firing p)) (l_starts l) (pl_marks p) /\
  (forall k, queue (discard_one p l) k = if decide (firedKey (pl_fleet p) (tr_name (pl_trigger p)) = k)
     then filter (fun q => r_firing (run l q) <> pl_firing p) (queue l k) else queue l k).
Proof.
  unfold discard_one. set (l1 := foldl (fun l q => settle q l) l (pl_start p)).
  assert (l_heap l1 = l_heap l /\ l_starts l1 = l_starts l /\ l_queues l1 = l_queues l) as (E1 & E2 & E3).
  { unfold l1. generalize (pl_start p). intros qs. clear. revert l. induction qs as [|q qs IH]; intros l; [done|]. simpl.
    destruct (IH (settle q l)) as (-> & -> & ->). destruct (settle_frame q l) as (-> & _ & -> & ->). done. }
  split; [done|]. split; [simpl; by rewrite E2|]. intros k. rewrite queue_setQueue. unfold queue. simpl. rewrite E3.
  destruct (decide _) as [<-|]; [|done]. apply list_filter_iff. intros q. unfold run. simpl. by rewrite E1.
Qed.

(** What a plan leaves in the queues and marks, and what it saved to undo it. *)
Record plan_traces (fleetName : string) (t : Trigger) (l l' : automationLimiter) (p : firingPlan) : Prop := {
  pt_fleet : pl_fleet p = fleetName;
  pt_trigger : pl_trigger p = t;
  pt_marks : forall sk, match pl_marks p !! sk with
    | Some prev => prev = l_starts l !! sk /\ (exists at_, l_starts l' !! sk = Some (MkMark at_ (pl_firing p))) /\
        exists cl, sk = startKey fleetName (tr_name t) cl
    | None => l_starts l' !! sk = l_starts l !! sk
    end;
  pt_queue : forall k, queue l' k = if decide (firedKey fleetName (tr_name t) = k) then queue l k ++ pl_queued p else queue l k;
  pt_firing : forall q, q ∈ pl_queued p -> r_firing (run l' q) = pl_firing p
}.

Lemma reserve_all_keys now ps l f tn :
  (forall p, p ∈ ps -> r_fleet (run l p) = f /\ r_trigger (run l p) = tn) ->
  forall sk, is_Some (snd (reserve_all now ps (l, ∅)) !! sk) -> exists cl, sk = startKey f tn cl.
Proof.
  induction ps as [|p ps IH] using rev_ind; intros Hf sk; simpl; [by intros []|].
  unfold reserve_all. rewrite foldl_app. fold (reserve_all now ps (l, ∅)).
  pose proof (reserve_all_books now ps l ∅) as (Hh & _ & _). specialize (IH ltac:(set_solver) sk).
  destruct (reserve_all now ps (l, ∅)) as [lr marks]. simpl in Hh, IH |- *. unfold save_mark.
  destruct (marks !! start_key lr p); [done|]. destruct (decide (start_key lr p = sk)) as [<-|Hne]; [|by rewrite lookup_insert_ne].
  intros _. unfold start_key, run. rewrite Hh. change (l_heap l !!! p) with (run l p). destruct (Hf p) as [-> ->]; [set_solver|]. by eexists.
Qed.

Lemma plan_leaves c st fleetName t agents now l g :
  represents l g -> l_seq l + 1 + Z.of_nat (length agents) < 2 ^ 64 ->
  plan_traces fleetName t l (fst (planLocked c st fleetName t agents now l)) (snd (planLocked c st fleetName t agents now l)).
Proof.
  intros Hr Hroom.
  destruct (plan_shape c st fleetName t agents now l g Hr Hroom) as (a & s & gs & Hps & [(_ & _ & E)|(_ & E)]);
    rewrite E; clear E; destruct Hps as [_ _ Hb _ _ _ _ _ _ _ Hpm _ Hfr _ _ _ _]; simpl;
    assert (queue (so_l s) = queue l) as Hql by (unfold queue; by destruct Hb as [-> _ _ _ _]); destruct Hb as [_ Hst _ _ _].
  - split; simpl; [done|done|intros sk; by rewrite lookup_empty, Hst| |set_solver]. rewrite Hql. intros k. rewrite app_nil_r. by destruct (decide _).
  - pose proof (reserve_all_books now (so_start s) (so_l s) ∅) as (Hh & Hqs & _).
    assert (forall p, p ∈ so_start s -> p ∈ as_runs a) as Hsub by (intros p Hp; rewrite <- Hpm; set_solver).
    pose proof (reserve_all_marks now (l_seq (next_seq l)) (so_start s) (so_l s) ltac:(intros p Hp; by apply Hfr, Hsub)) as Hm.
    pose proof (reserve_all_keys now (so_start s) (so_l s) fleetName (tr_name t) ltac:(intros p Hp; destruct (Hfr p (Hsub p Hp)); done)) as Hk.
    set (r := reserve_all now (so_start s) (so_l s, ∅)) in *. cbv zeta in Hm. split; simpl; [done|done|..].
    + intros sk. destruct (Hm sk) as [H1 H2]. rewrite <- Hst. specialize (Hk sk). destruct (snd r !! sk) as [prev|]; [|done].
      split; [done|]. split; [apply H2; eauto|apply Hk; eauto].
    + intros k. rewrite queue_set_queues. unfold queue at 1 2. rewrite Hqs. change (default [] (l_queues (so_l s) !! ?k)) with (queue (so_l s) k).
      rewrite Hql. by destruct (decide _) as [<-|].
    + intros q Hq. unfold run. simpl. rewrite Hh. apply Hfr. rewrite <- Hpm. set_solver.
Qed.

(** ** Undoing the plans of a delivery *)

Definition plan_key (p : firingPlan) : string := firedKey (pl_fleet p) (tr_name (pl_trigger p)).
Definition item_key (it : firingItem) : string * string := (fi_fleet it, tr_name (fi_trigger it)).
Definition nul_free (s : string) : Prop := contains_byte s nul = false.

Lemma startKey_inj f t cl f' t' cl' : nul_free f -> nul_free t -> nul_free f' -> nul_free t' ->
  startKey f t cl = startKey f' t' cl' -> f = f' /\ t = t'.
Proof.
  intros Hf Ht Hf' Ht' E. apply (f_equal (cut_byte nul)) in E. unfold startKey in E. rewrite !cut_byte_app in E by done.
  injection E as -> E. apply (f_equal (cut_byte nul)) in E. rewrite !cut_byte_app in E by done. by injection E as -> _.
Qed.

(** The plan, if any, that holds a mark. *)
Definition owner (ps : list firingPlan) (sk : string) : option (Z * option startMark) :=
  head (omap (fun p => pair (pl_firing p) <$> pl_marks p !! sk) ps).

Fixpoint disjoint_marks (ps : list firingPlan) : Prop :=
  match ps with
  | [] => True
  | p :: rest => (forall sk, is_Some (pl_marks p !! sk) -> owner rest sk = None) /\ disjoint_marks rest
  end.

Lemma owner_cons p ps sk :
  owner (p :: ps) sk = match pl_marks p !! sk with Some prev => Some (pl_firing p, prev) | None => owner ps sk end.
Proof. unfold owner. simpl. by destruct (pl_marks p !! sk). Qed.

Lemma owner_snoc ps p sk :
  owner (ps ++ [p]) sk = match owner ps sk with Some x => Some x | None => pair (pl_firing p) <$> pl_marks p !! sk end.
Proof.
  induction ps as [|p' ps IH]; [cbn [app]; rewrite owner_cons; by destruct (pl_marks p !! sk)|].
  cbn [app]. rewrite !owner_cons, IH. by destruct (pl_marks p' !! sk).
Qed.

Lemma owner_Some ps sk x : owner ps sk = Some x -> exists p, p ∈ ps /\ is_Some (pl_marks p !! sk).
Proof.
  induction ps as [|p ps IH]; [done|]. rewrite owner_cons. destruct (pl_marks p !! sk) eqn:E; [intros _; exists p; set_solver|].
  intros (p' & ? & ?)%IH. exists p'. set_solver.
Qed.

Lemma disjoint_snoc ps p : disjoint_marks ps -> (forall sk, is_Some (pl_marks p !! sk) -> owner ps sk = None) -> disjoint_marks (ps ++ [p]).
Proof.
  induction ps as [|p' ps IH]; simpl; [done|]. intros [H1 H2] Hp. split.
  - intros sk Hsk. rewrite owner_snoc, (H1 sk Hsk). destruct (pl_marks p !! sk) eqn:E; [|done].
    specialize (Hp sk ltac:(eauto)). rewrite owner_cons in Hp. destruct Hsk as [? Hsk]. by rewrite Hsk in Hp.
  - apply IH; [done|]. intros sk Hsk. specialize (Hp sk Hsk). rewrite owner_cons in Hp. by destruct (pl_marks p' !! sk).
Qed.

(** [starts] with the marks of [ps] in it, over [base]. *)
Definition marked (base starts : gmap string startMark) (ps : list firingPlan) : Prop := forall sk,
  match owner ps sk with
  | Some (F, prev) => prev = base !! sk /\ exists at_, starts !! sk = Some (MkMark at_ F)
  | None => starts !! sk = base !! sk
  end.

(** Planning one more firing marks one more plan, discarding one takes its marks away. *)
Lemma marked_plan base l l' ps p f t :
  marked base (l_starts l) ps -> plan_traces f t l l' p -> (forall sk, is_Some (pl_marks p !! sk) -> owner ps sk = None) ->
  marked base (l_starts l') (ps ++ [p]).
Proof.
  intros Hm [_ _ Hp _ _] Hd sk. rewrite owner_snoc. specialize (Hm sk). specialize (Hp sk). specialize (Hd sk).
  destruct (pl_marks p !! sk) as [prev|].
  - rewrite Hd in * by eauto. destruct Hp as (-> & ? & _). simpl. split; [congruence|done].
  - destruct (owner ps sk) as [[F prev]|]; simpl; [|congruence]. by rewrite Hp.
Qed.

Lemma marked_discard base starts p ps :
  marked base starts (p :: ps) -> disjoint_marks (p :: ps) -> marked base (map_fold (restore_mark (pl_firing p)) starts (pl_marks p)) ps.
Proof.
  intros Hm [Hd _] sk. rewrite restore_marks.
  - specialize (Hm sk). rewrite owner_cons in Hm. specialize (Hd sk). destruct (pl_marks p !! sk) as [prev|]; [|done].
    rewrite Hd by eauto. by destruct Hm.
  - intros sk' [prev Hsk]. specialize (Hm sk'). rewrite owner_cons, Hsk in Hm. by destruct Hm.
Qed.

(** A limiter with the plans of a delivery in it, over the one before. *)
Record delivery_planned (l0 l : automationLimiter) (plans : list firingPlan) : Prop := {
  dp_marked : marked (l_starts l0) (l_starts l) plans;
  dp_disjoint : disjoint_marks plans;
  dp_keys : forall p sk, p ∈ plans -> is_Some (pl_marks p !! sk) -> exists cl, sk = startKey (pl_fleet p) (tr_name (pl_trigger p)) cl;
  dp_firings : Forall (fun p => l_seq l0 < pl_firing p) plans;
  dp_queues : forall k, exists X, queue l k = queue l0 k ++ X /\
    forall q, q ∈ X -> exists p, p ∈ plans /\ plan_key p = k /\ r_firing (run l q) = pl_firing p
}.

Definition plan_id (p : firingPlan) : string * string := (pl_fleet p, tr_name (pl_trigger p)).

Lemma delivery_step l0 l l' plans p f t g :
  delivery_planned l0 l plans -> represents l g -> plan_traces f t l l' p -> (forall q, (q < length (l_heap l))%nat -> run l' q = run l q) ->
  l_seq l0 < pl_firing p -> Forall (fun fn => nul_free (fst fn) /\ nul_free (snd fn)) (map plan_id (plans ++ [p])) -> plan_id p ∉ map plan_id plans ->
  delivery_planned l0 l' (plans ++ [p]).
Proof.
  intros [Hm Hd Hk Hf Hq] Hr Ht Hold Hfi Hnul Hnew.
  assert (forall sk, is_Some (pl_marks p !! sk) -> exists cl, sk = startKey (pl_fleet p) (tr_name (pl_trigger p)) cl) as Hkp.
  { intros sk [prev Hsk]. destruct Ht as [-> -> Hmk _ _]. specialize (Hmk sk). rewrite Hsk in Hmk. tauto. }
  rewrite map_app, Forall_app in Hnul. destruct Hnul as [Hnul Hnp]. apply Forall_cons in Hnp as [[Hn1 Hn2] _].
  assert (forall sk, is_Some (pl_marks p !! sk) -> owner plans sk = None) as Hno.
  { intros sk Hsk. destruct (owner plans sk) as [x|] eqn:E; [|done]. apply owner_Some in E as (p' & Hp' & Hsk').
    destruct (Hkp sk Hsk) as [cl ->], (Hk p' _ Hp' Hsk') as [cl' E]. rewrite Forall_forall in Hnul.
    destruct (Hnul (plan_id p')) as [Hn3 Hn4]; [apply list_elem_of_fmap; by exists p'|]. apply startKey_inj in E as [E1 E2]; [|done..].
    destruct Hnew. apply list_elem_of_fmap. exists p'. split; [|done]. unfold plan_id. by rewrite E1, E2. }
  split.
  - by eapply marked_plan.
  - by apply disjoint_snoc.
  - intros p' sk [Hp'| ->%list_elem_of_singleton]%elem_of_app; [by apply Hk|apply Hkp].
  - apply Forall_app. split; [done|by constructor].
  - destruct Ht as [Ef Et _ Hqu Hfq]. intros k. destruct (Hq k) as (X & HX & HX'). rewrite Hqu.
    assert (forall q, q ∈ X -> exists p', p' ∈ plans ++ [p] /\ plan_key p' = k /\ r_firing (run l' q) = pl_firing p') as HX2.
    { intros q Hin. destruct (HX' q Hin) as (p' & ? & ? & ?). exists p'. split; [set_solver|]. split; [done|].
      rewrite Hold; [done|]. apply (queue_live l g k q Hr). rewrite HX. set_solver. }
    destruct (decide _) as [<-|]; [|by exists X]. exists (X ++ pl_queued p). split; [by rewrite HX, <- app_assoc|].
    intros q [Hin|Hin]%elem_of_app; [by apply HX2|]. exists p. split; [set_solver|]. split; [unfold plan_key; by rewrite Ef, Et|by apply Hfq].
Qed.

Lemma delivery_all c st now l0 items : forall l g plans,
  checks_ok c -> represents l g -> delivery_planned l0 l plans -> l_seq l0 <= l_seq l -> l_seq l + asked_agents st items < 2 ^ 64 ->
  Forall (fun it => NoDup (map ag_name (item_agents st it))) items ->
  NoDup (map plan_id plans ++ map item_key items) ->
  Forall (fun fn => nul_free (fst fn) /\ nul_free (snd fn)) (map plan_id plans ++ map item_key items) ->
  let s := foldl (fun '(l, plans) it =>
     let '(l, p) := planLocked c st (fi_fleet it) (fi_trigger it) (item_agents st it) now l in (l, plans ++ [p])) (l, plans) items in
  delivery_planned l0 (fst s) (snd s) /\ (forall q, (q < length (l_heap l))%nat -> run (fst s) q = run l q) /\
  map plan_id (snd s) = map plan_id plans ++ map item_key items.
Proof.
  induction items as [|it items IH]; intros l g plans Hc Hr Hd Hsq Hroom Hag Hnd Hnul; cbn [foldl map asked_agents] in *.
  { simpl. by rewrite app_nil_r. }
  apply Forall_cons in Hag as [Hn Hag]. pose proof (asked_agents_nonneg st items).
  destruct (planLocked_ok c st (fi_fleet it) (fi_trigger it) (item_agents st it) now l g) as [g1 Hp]; [done|done|lia|done|].
  pose proof (plan_leaves c st (fi_fleet it) (fi_trigger it) (item_agents st it) now l g Hr ltac:(lia)) as Ht.
  destruct (planLocked c st (fi_fleet it) (fi_trigger it) (item_agents st it) now l) as [l1 p]. simpl in Hp, Ht.
  destruct Hp as [_ Hr1 _ _ _ _ _ Hold Hlen Hfi Hseq].
  assert (plan_id p = item_key it) as Hid by (unfold plan_id, item_key; by destruct Ht as [-> -> _ _ _]).
  assert (forall xs : list (string * string), (map plan_id plans ++ item_key it :: xs) = map plan_id (plans ++ [p]) ++ xs) as Happ
    by (intros xs; rewrite map_app, <- app_assoc; simpl; by rewrite Hid).
  rewrite Happ in Hnd, Hnul |- *. destruct (IH l1 g1 (plans ++ [p]) Hc Hr1) as (F1 & F2 & F3); try done; [|lia|lia|].
  - apply (delivery_step l0 l l1 plans p (fi_fleet it) (fi_trigger it) g); try done; [lia|by apply Forall_app in Hnul as [? _]|].
    rewrite map_app in Hnd. apply NoDup_app in Hnd as (Hnd & _ & _). apply NoDup_app in Hnd as (_ & Hnd & _). intros Hin. apply (Hnd _ Hin). set_solver.
  - split; [done|]. split; [|done]. intros q Hq. rewrite F2 by lia. by apply Hold.
Qed.

Lemma delivery_discard l0 l p plans :
  delivery_planned l0 l (p :: plans) -> (forall k q, q ∈ queue l0 k -> r_firing (run l q) <= l_seq l0) ->
  delivery_planned l0 (discard_one p l) plans.
Proof.
  intros [Hm Hd Hk Hf Hq] Hold. destruct (discard_one_books p l) as (Eh & Es & Eq).
  assert (forall q, run (discard_one p l) q = run l q) as Hrun by (intros q; unfold run; by rewrite Eh).
  apply Forall_cons in Hf as [Hfp Hf]. split; [rewrite Es; by apply marked_discard|by destruct Hd|intros; apply Hk; [set_solver|done]|done|].
  intros k. destruct (Hq k) as (X & HX & HX'). rewrite Eq. fold (plan_key p). destruct (decide _) as [Hkey|Hkey].
  - exists (filter (fun q => r_firing (run l q) <> pl_firing p) X). rewrite HX, filter_app, filter_keeps_all by (intros q Hin; specialize (Hold k q Hin); lia).
    split; [done|]. intros q [Hne Hin]%list_elem_of_filter. destruct (HX' q Hin) as (p' & [->|Hp']%elem_of_cons & ? & ?); [done|].
    exists p'. by rewrite Hrun.
  - exists X. split; [done|]. intros q Hin. destruct (HX' q Hin) as (p' & [->|Hp']%elem_of_cons & ? & ?); [done|]. exists p'. by rewrite Hrun.
Qed.

Lemma delivery_discards l0 plans : forall l, delivery_planned l0 l plans -> (forall k q, q ∈ queue l0 k -> r_firing (run l q) <= l_seq l0) ->
  l_starts (discard plans l) = l_starts l0 /\ (forall k, queue (discard plans l) k = queue l0 k) /\ l_heap (discard plans l) = l_heap l.
Proof.
  induction plans as [|p plans IH]; intros l Hd Hold; simpl.
  - destruct Hd as [Hm _ _ _ Hq]. split; [apply map_eq; intros sk; apply (Hm sk)|]. split; [|done]. intros k. destruct (Hq k) as (X & -> & HX).
    destruct X as [|q X]; [apply app_nil_r|]. destruct (HX q) as (? & ? & _); set_solver.
  - destruct (discard_one_books p l) as (Eh & _). destruct (IH (discard_one p l)) as (F1 & F2 & F3); [by apply delivery_discard| |].
    + intros k q Hin. unfold run. rewrite Eh. by apply (Hold k).
    + split; [done|]. split; [done|]. by rewrite F3.
Qed.

(** Plans of distinct triggers, all discarded. *)
Lemma discard_undoes_plans y c load items now :
  rtc sys_step sys_init y -> checks_ok c -> l_seq (y_lim y) + asked_agents (loadOrEmpty load) items < 2 ^ 64 ->
  Forall (fun it => NoDup (map ag_name (item_agents (loadOrEmpty load) it))) items ->
  NoDup (map item_key items) -> Forall (fun fn => nul_free (fst fn) /\ nul_free (snd fn)) (map item_key items) ->
  let r := plan c load items now (y_lim y) in same_decisions (y_lim y) (discard (snd r) (fst r)).
Proof.
  intros Hy Hc Hroom Hag Hnd Hnul r. destruct (reached_rel y Hy) as (g & _ & [Hr _ _ _]). set (l := y_lim y) in *.
  assert (delivery_planned l l []) as H0 by (split; [by intros sk|done|set_solver|by constructor|intros k; exists []; rewrite app_nil_r; set_solver]).
  destruct (plan_all_ok c (loadOrEmpty load) now items l g [] Hc Hr Hroom Hag) as (g1 & new & E & _ & Hr1 & Hs1 & Hw1 & Hn1 & Hh1 & _ & _ & Hlen).
  destruct (delivery_all c (loadOrEmpty load) now l items l g [] Hc Hr H0 ltac:(lia) Hroom Hag Hnd Hnul) as (Hd & Hold & _).
  fold (plan c load items now l) in *. fold r in E, Hr1, Hlen, Hd, Hold. simpl in E. rewrite <- E in *. clear E new.
  destruct (discard_all_ok (snd r) (fst r) g1 Hr1 Hn1) as (g2 & _ & Hr2 & Hs2 & Hw2); [rewrite Hs1; set_solver|].
  destruct (delivery_discards l (snd r) (fst r) Hd) as (Es & Eq & Eh).
  { intros k q Hin. destruct (queue_live _ _ _ _ Hr Hin) as [Hlt Hle]. by rewrite Hold. }
  assert (g_start g2 = g_start g) as Eg.
  { rewrite Hs2, Hs1. apply set_eq. intros q. rewrite elem_of_difference, elem_of_union, elem_of_list_to_set. split; [tauto|].
    intros Hq. split; [by right|]. intros Hq'%Hh1. assert (q < length (l_heap l))%nat by (apply (io_heap _ _ (re_ids _ _ Hr)); set_solver). lia. }
  pose proof (re_slots _ _ Hr2) as Hsl. rewrite Eg, Hw2, Hw1 in Hsl.
  destruct (slots_determined l _ _ _ (re_slots _ _ Hr) Hsl) as (H1 & H2 & H3); [|by split].
  intros q Hq. unfold run at 1. rewrite Eh. apply Hold. apply (io_heap _ _ (re_ids _ _ Hr)). set_solver.
Qed.

(** ** Concrete runs *)

Module LimiterExamples.
Definition checks : runChecks := MkChecks (fun id => if String.eqb id "prod" then Some (MkLimits "Production" (60 * second) 2) else None) None None.
Definition runner (n : string) : Agent := MkAgent n "agent" "" BackendKubernetes "prod".
Definition local : Agent := MkAgent "local" "agent" "" BackendDevcontainer "".
Definition on_push : Trigger := MkTrigger "push" "webhook" ["a"; "b"; "local"] "go" "" "" "gh" "" "" "" "" false.
Definition agents : list Agent := [runner "a"; local; runner "b"; MkAgent "lost" "agent" "" BackendKubernetes "gone"].
Definition item : firingItem := MkItem "web" on_push (Some agents).
Definition event : triggerEvent := MkEvent "webhook" "push" 5 "gh" "{}".

(** A firing taken, one of its two runs started, then a second one planned that has to wait. *)
Definition first : automationLimiter * list firingPlan := plan checks None [item] 5 newAutomationLimiter.
Definition taken : firingPlan := snd (planLocked checks ∅ "web" on_push agents 5 newAutomationLimiter).
Definition y1 : system := MkSystem (fst first) (snd first) [].
Definition y2 : system := MkSystem (commit taken event "" (fst first)) [] [0; 1]%nat.
Definition y3 : system := MkSystem (started 0 "web/a-1" (y_lim y2)) [] [1]%nat.
Definition again : automationLimiter * list firingPlan := plan checks None [item] 6 (y_lim y3).
Definition y4 : system := MkSystem (fst again) (snd again) [1]%nat.

Lemma sys_call_eq k x y y' : sys_call k x y -> y = y' -> sys_call k x y'.
Proof. by intros ? <-. Qed.

Lemma agents_distinct : NoDup (map ag_name agents).
Proof. apply (bool_decide_unpack _). vm_compute. exact I. Qed.

(** The calls: a delivery is planned and taken, one create comes back, another delivery is planned. *)
Definition planning (y : system) : call := Plans checks ∅ (length (l_heap (y_lim y))).
Definition calls : list call := [planning sys_init; Settles; Settles].

Lemma step1 : sys_call (planning sys_init) sys_init y1.
Proof.
  eapply sys_call_eq; [apply (sys_plan checks None [item] 5 sys_init)|vm_compute; reflexivity]; [done|vm_compute; done|].
  constructor; [exact agents_distinct|constructor].
Qed.

Lemma step2 : sys_call Settles y1 y2.
Proof.
  assert (y1 = MkSystem (fst first) ([] ++ taken :: []) []) as -> by (vm_compute; reflexivity).
  eapply sys_call_eq; [apply (sys_take (fst first) [] taken [] [] event "")|vm_compute; reflexivity].
Qed.

Lemma key_free : free_key (y_lim y2) "web/a-1".
Proof. split; vm_compute; reflexivity. Qed.

Lemma step3 : sys_call Settles y2 y3.
Proof.
  assert (y2 = MkSystem (y_lim y2) [] ([] ++ 0%nat :: [1%nat])) as -> by (vm_compute; reflexivity).
  eapply sys_call_eq; [apply (sys_started (y_lim y2) [] [] 0 [1%nat] "web/a-1"); intros _; exact key_free|].
  vm_compute; reflexivity.
Qed.

Lemma step4 : sys_call (planning y3) y3 y4.
Proof.
  eapply sys_call_eq; [apply (sys_plan checks None [item] 6 y3)|vm_compute; reflexivity]; [done|vm_compute; done|].
  constructor; [exact agents_distinct|constructor].
Qed.

Lemma calls_y3 : history sys_call calls sys_init y3.
Proof. eapply history_cons; [exact step1|]. eapply history_cons; [exact step2|]. eapply history_cons; [exact step3|]. constructor. Qed.

Lemma calls_y4 : history sys_call (calls ++ [planning y3]) sys_init y4.
Proof. eapply history_snoc; [exact calls_y3|exact step4]. Qed.

Lemma reach_y3 : rtc sys_step sys_init y3.
Proof. eapply history_steps, calls_y3. Qed.

Lemma reach_y4 : rtc sys_step sys_init y4.
Proof. eapply history_steps, calls_y4. Qed.


Lemma limiter_counts_are_true_witness :
  creating (y_lim y4) "prod" = 1 /\ todo y4 = [1%nat] /\
  (forall cl, cl <> "" -> creating (y_lim y4) cl = Z.of_nat (length (filter (fun p => r_cluster (run (y_lim y4) p) = cl) (todo y4)))).
Proof.
  split; [vm_compute; reflexivity|]. split; [vm_compute; reflexivity|].
  apply (limiter_counts_are_true y4 reach_y4).
Defined.

Lemma plan_accounts_for_agents_witness :
  let r := planLocked checks ∅ "web" on_push agents 6 (y_lim y3) in
  pl_queued (snd r) = [2; 3]%nat /\ pl_refused (snd r) = [("lost", WGone "gone")] /\ plan_accounts checks ∅ agents (y_lim y3) (fst r) (snd r).
Proof.
  split; [vm_compute; reflexivity|]. split; [vm_compute; reflexivity|].
  apply (plan_accounts_for_agents y3 checks ∅ "web" on_push agents 6 reach_y3); [done|vm_compute; reflexivity|exact agents_distinct].
Defined.

End LimiterExamples.
