(* ===== verification/TriggerLog.v ===== *)
(** * The logs of trigger firings (internal/server: trigger_logs.go)

    One file per firing in its trigger's directory: a header, the payload, then
    outcome lines. A directory is a map from names to contents; writes may fail
    part way. *)

From S2P Require Import Prelude GoStrings GoText GoTime Entry Automation Limiter.
From Stdlib Require Import Sorting.Sorted.
Local Open Scope string_scope.
Local Open Scope Z_scope.

Definition triggerEventLogKeep : nat := 100.

Notation logDir := (gmap string string).

(** ** One log *)

(** triggerEvent.payload: a schedule's, or a silent bash probe's, is the time it fired. *)
Definition payload (ev : triggerEvent) : string :=
  if String.eqb (ev_kind ev) TriggerSchedule || (String.eqb (ev_kind ev) TriggerBash && String.eqb (ev_body ev) "")
  then RFC3339 (ev_firedAt ev) +:+ String nl ""
  else ev_body ev.

Definition line_ (key value : string) : string := "# " +:+ key +:+ value +:+ String nl "".

Definition triggerEventLogHeader (ev : triggerEvent) : string :=
  line_ "trigger: " (ev_triggerName ev) +:+
  line_ "type:    " (ev_kind ev) +:+
  (if String.eqb (ev_kind ev) TriggerWebhook && negb (String.eqb (ev_webhookName ev) "") then line_ "webhook: " (ev_webhookName ev) else "") +:+
  line_ "fired:   " (RFC3339 (ev_firedAt ev)) +:+
  String nl "".

Fixpoint ends_in (s : string) (c : ascii) : bool :=
  match s with EmptyString => false | String a EmptyString => ascii_eqb a c | String _ s' => ends_in s' c end.

Definition triggerEventLogContent (ev : triggerEvent) : string :=
  triggerEventLogHeader ev +:+ payload ev +:+ (if ends_in (payload ev) nl then "" else String nl "").

(** ** Names *)

Definition log_base (firedAt : Z) : string := "event-" +:+ stamp firedAt.
Definition first_name (base : string) : string := base +:+ ".log".
Definition numbered (base : string) (i : Z) : string := base +:+ "_" +:+ pad 4 i +:+ ".log".

(** The loop of uniqueTriggerLogPath, [fuel] turns of it left at [i]. *)
Fixpoint free_name (d : logDir) (base : string) (fuel : nat) (i : Z) (name : string) : string :=
  match fuel with
  | O => name
  | S fuel => match d !! name with None => name | Some _ => free_name d base fuel (i + 1) (numbered base i) end
  end.

Definition log_names_max : nat := 9998.
Definition uniqueTriggerLogPath (d : logDir) (firedAt : Z) : string :=
  free_name d (log_base firedAt) log_names_max 2 (first_name (log_base firedAt)).

Definition is_event_log (name : string) : bool := HasPrefix name "event-" && HasSuffix name ".log".

Definition eventLogNames (d : logDir) : list string :=
  SortFunc Compare (filter (fun n => is_event_log n = true) (map fst (map_to_list d))).

Definition pruneTriggerLogs (d : logDir) (keep : nat) : logDir :=
  let logs := eventLogNames d in
  foldl (fun d n => delete n d) d (take (length logs - keep) logs).

(** A valid name of an event log, as the outcome and read-back paths check it. *)
Definition named_as_log (name : string) : bool :=
  negb (String.eqb name "") && negb (contains_byte name slash) && HasPrefix name "event-".

(** ** Writing and reading *)

(** A write that fails leaves nothing, or the file with the first bytes only. *)
Inductive written := Wrote | NotWritten | Torn (n : nat).

(** The directory after, and the log's name ("" when it could not be written). *)
Definition logTriggerEvent (mkdir : bool) (w : written) (d : logDir) (ev : triggerEvent) : logDir * string :=
  if negb mkdir then (d, "")
  else
    let name := uniqueTriggerLogPath d (ev_firedAt ev) in
    match w with
    | Wrote => (pruneTriggerLogs (<[name := triggerEventLogContent ev]> d) triggerEventLogKeep, name)
    | NotWritten => (d, "")
    | Torn n => (<[name := String.substring 0 n (triggerEventLogContent ev)]> d, "")
    end.

Fixpoint on_one_line (msg : string) : string :=
  match msg with EmptyString => "" | String a s => String (if ascii_eqb a nl then " "%char else a) (on_one_line s) end.

(** [n] is how much of the line was written. *)
Definition append_outcome (d : logDir) (name : string) (at_ : Z) (agent msg : string) (n : nat) : logDir :=
  if negb (named_as_log name) then d
  else match d !! name with
  | None => d
  | Some c => <[name := c +:+ String.substring 0 n ("# outcome: " +:+ RFC3339 at_ +:+ " " +:+ agent +:+ ": " +:+ on_one_line msg +:+ String nl "")]> d
  end.

Inductive read_error := InvalidName | LogGone | OtherFiring | TooShort.

Definition readTriggerEventBody (d : logDir) (ev : triggerEvent) (name : string) (size : Z) : result read_error string :=
  if negb (named_as_log name) then Err InvalidName
  else match d !! name with
  | None => Err LogGone
  | Some data =>
      match CutPrefix data (triggerEventLogHeader ev) with
      | None => Err OtherFiring
      | Some rest => if (size <? 0) || (Z.of_nat (String.length rest) <? size) then Err TooShort else Ok (String.substring 0 (Z.to_nat size) rest)
      end
  end.

(** The dump of a trigger's logs, and how many. *)
Definition readTriggerLogs (d : logDir) : string * Z :=
  foldl (fun '(out, n) name =>
    match d !! name with
    | None => (out, n)
    | Some data => (out +:+ "===== " +:+ name +:+ " =====" +:+ String nl data +:+ (if ends_in data nl then "" else String nl "") +:+ String nl "", n + 1)
    end) ("", 0) (eventLogNames d).

(** ** A new log takes a free name *)

Fixpoint candidates (base : string) (fuel : nat) (i : Z) (name : string) : list string :=
  match fuel with O => [] | S fuel => name :: candidates base fuel (i + 1) (numbered base i) end.

Lemma free_name_or d base fuel : forall i name,
  d !! free_name d base fuel i name = None \/ Forall (fun n => is_Some (d !! n)) (candidates base fuel i name).
Proof.
  induction fuel as [|fuel IH]; intros i name; simpl; [by right|]. destruct (d !! name) eqn:E; [|by left].
  destruct (IH (i + 1) (numbered base i)) as [H|H]; [by left|right]. constructor; [by eexists|done].
Qed.

Lemma free_name_candidate d base fuel : forall i name, fuel <> O ->
  free_name d base fuel i name ∈ candidates base fuel i name \/ free_name d base fuel i name = numbered base (i + Z.of_nat fuel - 1).
Proof.
  induction fuel as [|fuel IH]; intros i name Hf; [done|]. cbn [free_name candidates]. destruct (d !! name); [|left; set_solver].
  destruct fuel as [|fuel']; [right; simpl; f_equal; lia|]. destruct (IH (i + 1) (numbered base i)) as [H|H]; [done|left; set_solver|right; rewrite H; f_equal; lia].
Qed.

Lemma append_inj (a b c : string) : a +:+ b = a +:+ c -> b = c.
Proof. induction a as [|x a IH]; [done|]. simpl. intros [= H]. by apply IH. Qed.

Lemma numbered_inj base i j : 0 <= i < 10 ^ 4 -> 0 <= j < 10 ^ 4 -> numbered base i = numbered base j -> i = j.
Proof.
  intros Hi Hj E. unfold numbered in E. apply append_inj in E. injection E as E. apply (pad_inj 4); [lia|lia|].
  apply Compare_eq. apply Compare_eq in E. rewrite Compare_app in E by (rewrite !length_pad by (done || lia); done). by destruct (Compare (pad 4 i) (pad 4 j)).
Qed.

Lemma first_not_numbered base i : first_name base <> numbered base i.
Proof. intros E. unfold first_name, numbered in E. apply append_inj in E. discriminate E. Qed.

Lemma candidates_numbered base fuel : forall i x, x ∈ candidates base fuel (i + 1) (numbered base i) -> exists j, i <= j < i + Z.of_nat fuel /\ x = numbered base j.
Proof.
  induction fuel as [|fuel IH]; intros i x Hx; [by apply not_elem_of_nil in Hx|]. apply elem_of_cons in Hx as [->|Hx]; [exists i; split; [lia|done]|].
  destruct (IH (i + 1) x Hx) as (j & Hj & ->). exists j. split; [lia|done].
Qed.

Lemma candidates_nodup base fuel : forall i, 0 <= i -> i + Z.of_nat fuel <= 10 ^ 4 -> NoDup (candidates base fuel (i + 1) (numbered base i)).
Proof.
  induction fuel as [|fuel IH]; intros i Hi Hf; [apply NoDup_nil_2|]. simpl. constructor; [|apply IH; lia].
  intros (j & Hj & E)%candidates_numbered. apply numbered_inj in E; lia.
Qed.

Lemma length_candidates base fuel : forall i name, length (candidates base fuel i name) = fuel.
Proof. induction fuel as [|fuel IH]; intros i name; [done|]. simpl. by rewrite IH. Qed.

Lemma nodup_size (d : logDir) names : NoDup names -> Forall (fun n => is_Some (d !! n)) names -> (length names <= size d)%nat.
Proof.
  intros Hn Hf. change (size d) with (size (d : gmap string string)). rewrite <- (size_dom (D := gset string)), <- (size_list_to_set (C := gset string) names) by done.
  apply subseteq_size. intros n Hin%elem_of_list_to_set. rewrite Forall_forall in Hf. by apply elem_of_dom, Hf.
Qed.

Lemma unique_free d firedAt : (size d < log_names_max)%nat -> d !! uniqueTriggerLogPath d firedAt = None.
Proof.
  intros Hs. unfold uniqueTriggerLogPath. destruct (free_name_or d (log_base firedAt) log_names_max 2 (first_name (log_base firedAt))) as [|H]; [done|].
  apply nodup_size in H; [rewrite length_candidates in H; lia|]. unfold log_names_max. change 9998%nat with (S 9997). cbn [candidates]. constructor.
  - intros (j & _ & E)%candidates_numbered. by apply first_not_numbered in E.
  - apply (candidates_nodup (log_base firedAt) 9997 2); [lia|vm_compute; done].
Qed.

(** ** Pruning *)

Lemma event_names_elem d n : n ∈ eventLogNames d <-> is_Some (d !! n) /\ is_event_log n = true.
Proof.
  unfold eventLogNames. rewrite SortFunc_perm, list_elem_of_filter, list_elem_of_fmap. split.
  - intros [He ([n' c] & -> & Hin%elem_of_map_to_list)]. split; [by exists c|done].
  - intros [[c Hc] He]. split; [done|]. exists (n, c). split; [done|]. by apply elem_of_map_to_list.
Qed.

Lemma event_names_sorted d : StronglySorted (fun a b => Compare a b <> Gt) (eventLogNames d).
Proof. apply SortFunc_sorted; [intros; apply Compare_antisym|apply Compare_trans_le]. Qed.

Lemma delete_all (d : logDir) names n : foldl (fun d n => delete n d) d names !! n = if bool_decide (n ∈ names) then None else d !! n.
Proof.
  revert d. induction names as [|x names IH]; intros d; [by rewrite bool_decide_eq_false_2 by set_solver|]. simpl. rewrite IH. destruct (decide (n = x)) as [->|Hne].
  - rewrite (bool_decide_eq_true_2 (x ∈ x :: names)) by set_solver. case_bool_decide; [done|apply lookup_delete_eq].
  - rewrite (bool_decide_ext (n ∈ x :: names) (n ∈ names)) by set_solver. case_bool_decide; [done|]. by rewrite lookup_delete_ne.
Qed.

Lemma prune_lookup d keep n : pruneTriggerLogs d keep !! n = if bool_decide (n ∈ take (length (eventLogNames d) - keep) (eventLogNames d)) then None else d !! n.
Proof. apply delete_all. Qed.

Lemma StronglySorted_app {A} (R : A -> A -> Prop) l1 l2 x y : StronglySorted R (l1 ++ l2) -> x ∈ l1 -> y ∈ l2 -> R x y.
Proof.
  intros Hs Hx Hy. induction l1 as [|z l1 IH]; [by apply not_elem_of_nil in Hx|]. inversion Hs as [|z' l' Hs' Hf]. subst z' l'.
  apply elem_of_cons in Hx as [->|Hx]; [|by apply IH]. rewrite List.Forall_forall in Hf. apply Hf, list_elem_of_In. set_solver.
Qed.

(** What is pruned sorts before what is kept. *)
Lemma pruned_first d keep n n' : is_Some (d !! n) -> is_event_log n = true -> Compare n n' = Lt -> is_Some (pruneTriggerLogs d keep !! n) ->
  pruneTriggerLogs d keep !! n' = d !! n'.
Proof.
  intros Hn He Hlt Hk. rewrite prune_lookup in Hk |- *. set (k := (length (eventLogNames d) - keep)%nat) in *.
  destruct (bool_decide_reflect (n ∈ take k (eventLogNames d))) as [Hin|Hin]; [by destruct Hk|].
  destruct (bool_decide_reflect (n' ∈ take k (eventLogNames d))) as [Hin'|Hin']; [|done]. exfalso.
  pose proof (event_names_sorted d) as Hs. rewrite <- (take_drop k (eventLogNames d)) in Hs.
  assert (n ∈ drop k (eventLogNames d)) as Hd.
  { assert (n ∈ eventLogNames d) as H by (by apply event_names_elem). rewrite <- (take_drop k (eventLogNames d)) in H. set_solver. }
  assert (Compare n' n <> Gt) as Hc by exact (StronglySorted_app _ _ _ n' n Hs Hin' Hd). by rewrite Compare_antisym, Hlt in Hc.
Qed.

(** ** Names sort as the firings *)

(** The [i]th log of a second, from 1. *)
Definition log_name (firedAt i : Z) : string := if i =? 1 then first_name (log_base firedAt) else numbered (log_base firedAt) i.

Lemma unique_name d firedAt : exists i, 1 <= i < 10 ^ 4 /\ uniqueTriggerLogPath d firedAt = log_name firedAt i.
Proof.
  unfold uniqueTriggerLogPath. set (base := log_base firedAt).
  destruct (free_name_candidate d base log_names_max 2 (first_name base)) as [H|H]; [done| |].
  - unfold log_names_max in H at 2. change 9998%nat with (S 9997) in H. cbn [candidates] in H. apply elem_of_cons in H as [->|(j & Hj & ->)%candidates_numbered].
    + exists 1. split; [lia|done].
    + exists j. split; [split; [lia|]; eapply Z.lt_le_trans; [apply Hj|]; vm_compute; done|]. unfold log_name. destruct (Z.eqb_spec j 1); [lia|done].
  - exists 9999. split; [lia|]. rewrite H. unfold log_name. cbn [Z.eqb Pos.eqb]. f_equal.
Qed.

Lemma log_name_prefix firedAt i : exists rest, log_name firedAt i = log_base firedAt +:+ rest.
Proof. unfold log_name, first_name, numbered. destruct (_ =? _); by eexists. Qed.

Lemma Compare_refl a : Compare a a = Eq.
Proof. by apply Compare_eq. Qed.

(** Firings of different seconds, or one after the other in the same. *)
Definition fired_before (t i t' i' : Z) : Prop := t / second_ns < t' / second_ns \/ t / second_ns = t' / second_ns /\ i < i'.

Lemma stamp_same t t' : t / second_ns = t' / second_ns -> stamp t = stamp t'.
Proof. intros E. unfold stamp, utc. by rewrite E. Qed.

Lemma log_name_order t i t' i' : in_years t -> in_years t' -> 1 <= i < 10 ^ 4 -> 1 <= i' < 10 ^ 4 -> fired_before t i t' i' ->
  Compare (log_name t i) (log_name t' i') = Lt.
Proof.
  intros Ht Ht' Hi Hi' [Hs|[Hs Hlt]].
  - destruct (log_name_prefix t i) as [r ->], (log_name_prefix t' i') as [r' ->]. unfold log_base. rewrite Compare_app by (rewrite !length_append_s, !length_stamp by done; done).
    rewrite Compare_app by done. rewrite Compare_refl. cbn [then_cmp]. by rewrite stamp_order.
  - unfold log_name, log_base, numbered. rewrite (stamp_same t t' Hs). destruct (Z.eqb_spec i 1) as [->|Hne].
    + destruct (Z.eqb_spec i' 1); [lia|]. unfold first_name. rewrite Compare_app by done. by rewrite Compare_refl.
    + destruct (Z.eqb_spec i' 1); [lia|]. rewrite Compare_app by done. rewrite Compare_refl. cbn [then_cmp]. rewrite Compare_app by done. rewrite Compare_refl. cbn [then_cmp].
      rewrite Compare_app by (rewrite !length_pad by (done || lia); done). rewrite Compare_pad by (done || lia). by rewrite (proj2 (Z.compare_lt_iff _ _) Hlt).
Qed.

Lemma HasSuffix_append s p : HasSuffix (s +:+ p) p = true.
Proof. unfold HasSuffix. rewrite rev_string_append. apply HasPrefix_append. Qed.

Lemma log_name_is_log t i : is_event_log (log_name t i) = true.
Proof.
  unfold is_event_log. apply andb_true_iff. split.
  - destruct (log_name_prefix t i) as [r ->]. unfold log_base. rewrite append_assoc. apply HasPrefix_append.
  - unfold log_name, first_name, numbered. destruct (_ =? _); [apply HasSuffix_append|]. rewrite <- !append_assoc. apply HasSuffix_append.
Qed.

Lemma pad_free w z c : 0 <= z -> is_digit c = false -> contains_byte (pad w z) c = false.
Proof. intros Hz Hc. by apply all_digits_free; [apply pad_digits|]. Qed.

Lemma log_name_ok t i : in_years t -> 0 <= i -> named_as_log (log_name t i) = true.
Proof.
  intros [] Hi. assert (contains_byte (log_name t i) slash = false) as Hs.
  { assert (contains_byte (stamp t) slash = false) as Hst.
    { destruct (utc_ok t) as [? ? ? ? ? ?]; [done|]. unfold stamp. cbv zeta. rewrite !contains_byte_app, !pad_free by (done || lia). done. }
    unfold log_name, first_name, numbered, log_base. destruct (_ =? _); rewrite !contains_byte_app, Hst, ?pad_free by (done || lia); done. }
  unfold named_as_log. rewrite Hs. destruct (log_name_prefix t i) as [r Hr]. rewrite Hr. unfold log_base. rewrite append_assoc, HasPrefix_append. done.
Qed.

(** ** Reading a payload back *)

Lemma substring_prefix a : forall b, String.substring 0 (String.length a) (a +:+ b) = a.
Proof. induction a as [|x a IH]; intros b; simpl; [by destruct b|]. by rewrite IH. Qed.

(** What the scheduler does with a trigger's logs: more firings, outcome lines. *)
Inductive log_step : logDir -> logDir -> Prop :=
| ls_event mkdir w d ev : (size d < log_names_max)%nat -> log_step d (fst (logTriggerEvent mkdir w d ev))
| ls_outcome d name at_ agent msg n : log_step d (append_outcome d name at_ agent msg n).

(** Steps through which the log [name] is not pruned. *)
Definition keeps (name : string) (d d' : logDir) : Prop := log_step d d' /\ is_Some (d' !! name).

Definition extends (c : string) (o : option string) : Prop := exists s, o = Some (c +:+ s).

Lemma prune_extends d keep name c : extends c (d !! name) -> is_Some (pruneTriggerLogs d keep !! name) -> extends c (pruneTriggerLogs d keep !! name).
Proof. rewrite prune_lookup. case_bool_decide; [by intros _ []|done]. Qed.

Lemma keeps_extends name c d d' : keeps name d d' -> extends c (d !! name) -> extends c (d' !! name).
Proof.
  intros [Hs Hd] Hc. destruct Hs as [mkdir w d ev Hsz|d name' at_ agent msg n].
  - assert (forall v, extends c (<[uniqueTriggerLogPath d (ev_firedAt ev) := v]> d !! name)) as Hnew.
    { intros v. rewrite lookup_insert_ne; [done|]. intros <-. rewrite unique_free in Hc by done. by destruct Hc. }
    unfold logTriggerEvent in *. destruct mkdir; [|done]. destruct w; cbn [fst negb] in *; [|done|done]. by apply prune_extends.
  - unfold append_outcome in *. destruct (negb _); [done|]. destruct (d !! name') as [c'|] eqn:E; [|done]. destruct (decide (name' = name)) as [->|Hne].
    + rewrite lookup_insert_eq. destruct Hc as [s Hc]. rewrite E in Hc. injection Hc as ->. eexists. by rewrite append_assoc.
    + by rewrite lookup_insert_ne.
Qed.

Lemma read_extends d ev name rest : named_as_log name = true -> extends (triggerEventLogHeader ev +:+ ev_body ev) (d !! name) ->
  readTriggerEventBody d (MkEvent (ev_kind ev) (ev_triggerName ev) (ev_firedAt ev) (ev_webhookName ev) rest) name (Z.of_nat (String.length (ev_body ev))) = Ok (ev_body ev).
Proof.
  intros Hn [s Hs]. unfold readTriggerEventBody. rewrite Hn, Hs, append_assoc. change (triggerEventLogHeader (MkEvent _ _ _ _ rest)) with (triggerEventLogHeader ev).
  rewrite CutPrefix_self. cbn [negb]. rewrite length_append_s, Nat2Z.id, substring_prefix. destruct (_ || _) eqn:E; [|done]. exfalso. apply orb_true_iff in E as [E%Z.ltb_lt|E%Z.ltb_lt]; lia.
Qed.

(** ** Claims *)

(** C40: the payload of a firing whose log was written whole can be read back from its log for as long as the log is
    kept, whatever else is recorded meanwhile (outcome lines of it, further firings, writes that fail part way): a new log never takes
    the name of one that is there, and neither outcomes nor pruning change what a log begins with. *)
Theorem event_log_read_back d ev d' name rest :
  (size d < log_names_max)%nat -> in_years (ev_firedAt ev) -> payload ev = ev_body ev ->
  name = snd (logTriggerEvent true Wrote d ev) -> is_Some (fst (logTriggerEvent true Wrote d ev) !! name) ->
  rtc (keeps name) (fst (logTriggerEvent true Wrote d ev)) d' ->
  d !! name = None /\ (forall n, n <> name -> is_Some (fst (logTriggerEvent true Wrote d ev) !! n) -> fst (logTriggerEvent true Wrote d ev) !! n = d !! n) /\
  readTriggerEventBody d' (MkEvent (ev_kind ev) (ev_triggerName ev) (ev_firedAt ev) (ev_webhookName ev) rest) name
    (Z.of_nat (String.length (ev_body ev))) = Ok (ev_body ev).
Proof.
  intros Hsz Hy Hp Hn Hin Hrun. cbn [logTriggerEvent negb fst snd] in *. subst name. set (name := uniqueTriggerLogPath d (ev_firedAt ev)) in *.
  split; [by apply unique_free|]. split.
  - intros n Hne Hk. rewrite prune_lookup in Hk |- *. case_bool_decide; [by destruct Hk|]. by rewrite lookup_insert_ne.
  - apply read_extends.
    + destruct (unique_name d (ev_firedAt ev)) as (i & Hi & E). unfold name. rewrite E. apply log_name_ok; [done|lia].
    + assert (extends (triggerEventLogHeader ev +:+ ev_body ev) (pruneTriggerLogs (<[name := triggerEventLogContent ev]> d) triggerEventLogKeep !! name)) as H0.
      { apply prune_extends; [|done]. rewrite lookup_insert_eq. unfold triggerEventLogContent. rewrite Hp. eexists. by rewrite append_assoc. }
      clear Hin. induction Hrun as [|d1 d2 d3 Hs _ IH]; [done|]. apply IH. by eapply keeps_extends.
Qed.

(** Logs are pruned oldest first: of two firings of a trigger, logged in different seconds or one after the
    other in the same, the earlier one's log is never kept when the later one's is removed. *)
Theorem older_logs_pruned_first d keep t i t' i' :
  in_years t -> in_years t' -> 1 <= i < 10 ^ 4 -> 1 <= i' < 10 ^ 4 -> fired_before t i t' i' ->
  is_Some (d !! log_name t i) -> is_Some (pruneTriggerLogs d keep !! log_name t i) ->
  pruneTriggerLogs d keep !! log_name t' i' = d !! log_name t' i'.
Proof.
  intros Ht Ht' Hi Hi' Hb Hd Hk. eapply pruned_first; [exact Hd|apply log_name_is_log|by apply log_name_order|exact Hk].
Qed.

Module TriggerLogExamples.
Definition at_noon : Z := 1709208000 * second_ns.
Definition event (body : string) : triggerEvent := MkEvent TriggerWebhook "push" at_noon "gh" body.
Definition first : logDir * string := logTriggerEvent true Wrote ∅ (event "{}").
Definition second_log : logDir := fst (logTriggerEvent true (Torn 3) (fst first) (event "again")).
Definition noted : logDir := append_outcome second_log (snd first) (at_noon + 5 * second_ns) "a" "instance a-1 created" 1000.

Lemma noon_in_years : in_years at_noon.
Proof. split; vm_compute; discriminate. Qed.

Lemma kept : rtc (keeps (snd first)) (fst first) noted.
Proof.
  apply (rtc_l _ _ second_log); [split|apply rtc_once; split].
  - refine (ls_event true (Torn 3) (fst first) (event "again") _). apply Nat.ltb_lt. vm_compute. reflexivity.
  - vm_compute. by eexists.
  - exact (ls_outcome second_log (snd first) (at_noon + 5 * second_ns) "a" "instance a-1 created" 1000).
  - vm_compute. by eexists.
Qed.

Lemma event_log_read_back_witness :
  snd first = "event-20240229T120000Z.log" /\ size noted = 2%nat /\ readTriggerEventBody noted (event "") (snd first) 2 = Ok "{}".
Proof.
  split; [vm_compute; reflexivity|]. split; [vm_compute; reflexivity|].
  refine (proj2 (proj2 (event_log_read_back ∅ (event "{}") noted (snd first) "" _ noon_in_years eq_refl eq_refl _ kept))).
  - apply Nat.ltb_lt. vm_compute. reflexivity.
  - vm_compute. by eexists.
Defined.

Definition two : logDir := <[log_name at_noon 2 := "b"]> {[log_name at_noon 1 := "a"]}.
Lemma older_logs_pruned_first_witness :
  pruneTriggerLogs two 1 !! log_name at_noon 1 = None /\ pruneTriggerLogs two 2 !! log_name at_noon 2 = two !! log_name at_noon 2.
Proof.
  split; [vm_compute; reflexivity|].
  apply (older_logs_pruned_first two 2 at_noon 1 at_noon 2); [exact noon_in_years|exact noon_in_years|lia|lia|right; split; [done|lia]|vm_compute; by eexists|vm_compute; by eexists].
Defined.

(** The logs left of a hundred and one firings in one second: the next takes the name the pruning freed, sorts
    first, and is pruned by its own write. *)
Definition busy : logDir := list_to_map (map (fun i => (log_name at_noon (Z.of_nat i), "x")) (seq 2 100)).
Lemma busy_second_loses_log :
  size busy = 100%nat /\ snd (logTriggerEvent true Wrote busy (event "{}")) = log_name at_noon 1 /\
  fst (logTriggerEvent true Wrote busy (event "{}")) !! log_name at_noon 1 = None.
Proof. vm_compute. done. Qed.
End TriggerLogExamples.
