(* ===== verification/Scheduler.v ===== *)
(** * The automation scheduler (internal/server: schedule.go, automation_watch.go)

    The single goroutine that samples cron triggers, carries out planned firings,
    drains the queues and looks after the instances it started. What it asks of
    the outside (the state on disk, a create, a probe, a log) is answered by an
    environment, in the order of the questions; the rest is state passing in a
    small monad. *)

From S2P Require Import Prelude GoStrings GoText GoTime TriggerLog Entry Cron Automation FleetState Limiter.
Local Open Scope string_scope.
Local Open Scope Z_scope.
Local Open Scope list_scope.

(** ** Data *)

(** The daemon's knobs: each a duration above zero of the environment, or its default. *)
Record timeouts := MkTimeouts { automationIdleTimeout : Z; automationCreateTimeout : Z; automationAdoptGrace : Z }.
Definition default_timeouts : timeouts := MkTimeouts (2 * 60 * second) (20 * 60 * second) (10 * 60 * second).

Definition interruptedByRestart : string := "interrupted by daemon restart".

(** The activity detector of a run is behind the probe. *)
Record watchedAgent := MkWatched {
  wa_fleet : string;
  wa_instance : string;
  wa_agent : string;
  wa_command : string;
  wa_prompt : string;
  wa_systemPrompt : string;
  wa_spawnedAt : Z;
  wa_lastActive : Z;
  wa_launched : bool;
  wa_event : option triggerEvent;
  wa_eventLog : string;
  wa_adopted : bool;
  wa_hasAgentSession : bool
}.

Definition watch_key (fleetName instance : string) : string := fleetName +:+ String slash instance.
Definition wa_key (w : watchedAgent) : string := watch_key (wa_fleet w) (wa_instance w).

Definition idleLimit (ts : timeouts) (w : watchedAgent) : Z :=
  if wa_adopted w && negb (wa_hasAgentSession w) && (automationIdleTimeout ts <? automationAdoptGrace ts)
  then automationAdoptGrace ts else automationIdleTimeout ts.

Definition set_launched (now : Z) (w : watchedAgent) : watchedAgent :=
  MkWatched (wa_fleet w) (wa_instance w) (wa_agent w) (wa_command w) (wa_prompt w) (wa_systemPrompt w) (wa_spawnedAt w) now true
    (wa_event w) (wa_eventLog w) (wa_adopted w) (wa_hasAgentSession w).
Definition set_active (now : Z) (w : watchedAgent) : watchedAgent :=
  MkWatched (wa_fleet w) (wa_instance w) (wa_agent w) (wa_command w) (wa_prompt w) (wa_systemPrompt w) (wa_spawnedAt w) now (wa_launched w)
    (wa_event w) (wa_eventLog w) (wa_adopted w) (wa_hasAgentSession w).
Definition set_session (b : bool) (w : watchedAgent) : watchedAgent :=
  MkWatched (wa_fleet w) (wa_instance w) (wa_agent w) (wa_command w) (wa_prompt w) (wa_systemPrompt w) (wa_spawnedAt w) (wa_lastActive w)
    (wa_launched w) (wa_event w) (wa_eventLog w) (wa_adopted w) b.

(** *** The watch list on disk *)

Definition watchFileVersion : Z := 1.

Record watchRunEvent := MkRunEvent { re_kind : string; re_firedAt : Z; re_webhook : string; re_logFile : string; re_payloadSize : Z }.

Record watchRun := MkWatchRun {
  wr_fleet : string;
  wr_instance : string;
  wr_trigger : string;
  wr_agent : string;
  wr_command : string;
  wr_prompt : string;
  wr_systemPrompt : string;
  wr_spawnedAt : Z;
  wr_launched : bool;
  wr_adopted : bool;
  wr_event : option watchRunEvent
}.

Record watchFired := MkWatchFired { wd_fleet : string; wd_trigger : string; wd_minute : Z }.

Record watchQueued := MkWatchQueued {
  wq_id : Z;
  wq_firing : Z;
  wq_fleet : string;
  wq_trigger : string;
  wq_agent : string;
  wq_prompt : string;
  wq_cluster : string;
  wq_queuedAt : Z;
  wq_why : option why;
  wq_event : option watchRunEvent
}.

Record watchFile := MkWatchFile { wf_version : Z; wf_runs : list watchRun; wf_fired : list watchFired; wf_queued : list watchQueued }.

#[export] Instance why_eq_dec : EqDecision why.
Proof. solve_decision. Defined.
#[export] Instance watchRunEvent_eq_dec : EqDecision watchRunEvent.
Proof. solve_decision. Defined.
#[export] Instance watchRun_eq_dec : EqDecision watchRun.
Proof. solve_decision. Defined.
#[export] Instance watchFired_eq_dec : EqDecision watchFired.
Proof. solve_decision. Defined.
#[export] Instance watchQueued_eq_dec : EqDecision watchQueued.
Proof. solve_decision. Defined.
#[export] Instance watchFile_eq_dec : EqDecision watchFile.
Proof. solve_decision. Defined.

(** *** The scheduler *)

(** [sc_saved] is the content last written, [sc_watchPath] where it is kept ("" for nowhere). *)
Record scheduler := MkSched {
  sc_lastFired : gmap string Z;
  sc_watched : gmap string watchedAgent;
  sc_watchPath : string;
  sc_saved : option watchFile;
  sc_lim : automationLimiter
}.

Definition newScheduler : scheduler := MkSched ∅ ∅ "" None newAutomationLimiter.

Definition set_lim (l : automationLimiter) (s : scheduler) : scheduler :=
  MkSched (sc_lastFired s) (sc_watched s) (sc_watchPath s) (sc_saved s) l.
Definition set_watched (m : gmap string watchedAgent) (s : scheduler) : scheduler :=
  MkSched (sc_lastFired s) m (sc_watchPath s) (sc_saved s) (sc_lim s).
Definition set_fired (m : gmap string Z) (s : scheduler) : scheduler :=
  MkSched m (sc_watched s) (sc_watchPath s) (sc_saved s) (sc_lim s).
Definition set_saved (f : option watchFile) (s : scheduler) : scheduler :=
  MkSched (sc_lastFired s) (sc_watched s) (sc_watchPath s) f (sc_lim s).

Definition watch (w : watchedAgent) (s : scheduler) : scheduler :=
  let s := set_watched (<[wa_key w := w]> (sc_watched s)) s in
  set_lim (hold (wa_fleet w) (wa_agent w) (wa_key w) (sc_lim s)) s.

Definition unwatch (k : string) (s : scheduler) : scheduler :=
  let s := set_watched (delete k (sc_watched s)) s in
  set_lim (release k (sc_lim s)) s.

Definition queue_keys (l : automationLimiter) : list string := map fst (map_to_list (l_queues l)).

Definition saved_event (log : string) (ev : triggerEvent) : watchRunEvent :=
  MkRunEvent (ev_kind ev) (ev_firedAt ev) (ev_webhookName ev) log (Z.of_nat (String.length (ev_body ev))).

Definition saved_run (w : watchedAgent) : watchRun :=
  MkWatchRun (wa_fleet w) (wa_instance w) (match wa_event w with Some ev => ev_triggerName ev | None => "" end) (wa_agent w)
    (wa_command w) (wa_prompt w) (wa_systemPrompt w) (wa_spawnedAt w) (wa_launched w) (wa_adopted w)
    (saved_event (wa_eventLog w) <$> wa_event w).

Definition saved_queued (r : queuedRun) : watchQueued :=
  MkWatchQueued (r_id r) (r_firing r) (r_fleet r) (r_trigger r) (r_agent r) (r_prompt r) (r_cluster r) (r_queuedAt r) (r_why r)
    (saved_event (r_eventLog r) <$> r_event r).

Definition then_by (c d : comparison) : comparison := match c with Eq => d | _ => c end.

Definition splitFiredKey (key : string) : option (string * string) := cut_byte nul key.

Definition snapshot (s : scheduler) : watchFile :=
  MkWatchFile watchFileVersion
    (SortFunc (fun a b => then_by (Compare (wr_fleet a) (wr_fleet b)) (Compare (wr_instance a) (wr_instance b)))
       (map (fun kw => saved_run (snd kw)) (map_to_list (sc_watched s))))
    (SortFunc (fun a b => then_by (Compare (wd_fleet a) (wd_fleet b)) (Compare (wd_trigger a) (wd_trigger b)))
       (omap (fun km => match splitFiredKey (fst km) with Some (f, t) => Some (MkWatchFired f t (snd km)) | None => None end)
          (map_to_list (sc_lastFired s))))
    (map (fun p => saved_queued (run (sc_lim s) p)) (queuedRuns (sc_lim s) (queue_keys (sc_lim s)))).

(** A fire handed to the scheduler, planned by the webhook receiver or not yet (a bash probe's). *)
Record triggerFire := MkFire { tf_fleet : string; tf_trigger : Trigger; tf_body : string; tf_plan : option firingPlan }.

(** ** Cron triggers that are due *)

Section cron.
(** The local time of an instant. *)
Context (clock_of : Z -> clock).

Definition minute_ns : Z := 60 * second.
Definition truncate_minute (now : Z) : Z := now - now mod minute_ns.

Record cron_scan := MkScan { cs_fired : gmap string Z; cs_current : gset string; cs_out : list (string * Trigger) }.

Definition due_trigger (now : Z) (name : string) (s : cron_scan) (t : Trigger) : cron_scan :=
  if negb (IsCron (tr_type t)) then s
  else
    let key := firedKey name (tr_name t) in
    let s := MkScan (cs_fired s) ({[key]} ∪ cs_current s) (cs_out s) in
    if tr_disabled t then s
    else if String.eqb (tr_cron t) "" then s
    else match ParseCron (tr_cron t) with
    | Err _ => s
    | Ok sched =>
        if negb (Cron_Matches sched (clock_of now)) then s
        else match cs_fired s !! key with
        | Some last => if negb (last <? truncate_minute now) then s
                       else MkScan (<[key := truncate_minute now]> (cs_fired s)) (cs_current s) (cs_out s ++ [(name, t)])
        | None => MkScan (<[key := truncate_minute now]> (cs_fired s)) (cs_current s) (cs_out s ++ [(name, t)])
        end
    end.

Definition due_fleet (now : Z) (s : cron_scan) (nf : string * Fleet) : cron_scan :=
  foldl (due_trigger now (fst nf)) s (st_triggers (fl_settings (snd nf))).

Definition dueCronTriggers (fleets : State) (now : Z) (lastFired : gmap string Z) : gmap string Z * list (string * Trigger) :=
  let s := foldl (due_fleet now) (MkScan lastFired ∅ []) (map_to_list fleets) in
  (filter (fun kv => fst kv ∈ cs_current s) (cs_fired s), cs_out s).
End cron.

(** ** The environment *)

Inductive create_result := Created (instance : string) | Exhausted (msg : string) | CreateFailed (msg : string).

(** What a probe of an instance says: whether its agent session exists, and whether it is working. *)
Record probe_result := MkProbe { pr_session : bool; pr_working : bool }.

(** *** watch.json *)

Definition event_texts (ref : option watchRunEvent) : list string := match ref with Some r => [re_kind r; re_webhook r; re_logFile r] | None => [] end.
Definition why_texts (w : option why) : list string :=
  match w with
  | Some (WEarlier a) | Some (WMessage a) | Some (WGone a) | Some (WNoAgent a) | Some (WNoTrigger a) | Some (WDisabled a) => [a]
  | Some (WAgentLimit a _ c) => [a; c]
  | Some (WInterval c _ _) => [c]
  | Some (WNotFired t a) => [t; a]
  | Some WStopped | None => []
  end.
Definition run_texts (r : watchRun) : list string :=
  [wr_fleet r; wr_instance r; wr_trigger r; wr_agent r; wr_command r; wr_prompt r; wr_systemPrompt r] ++ event_texts (wr_event r).
Definition queued_texts (q : watchQueued) : list string :=
  [wq_fleet q; wq_trigger q; wq_agent q; wq_prompt q; wq_cluster q] ++ why_texts (wq_why q) ++ event_texts (wq_event q).
Definition watch_texts (wf : watchFile) : list string :=
  concat (map run_texts (wf_runs wf)) ++ concat (map (fun f => [wd_fleet f; wd_trigger f]) (wf_fired wf)) ++ concat (map queued_texts (wf_queued wf)).

Definition event_times (ref : option watchRunEvent) : list Z := match ref with Some r => [re_firedAt r] | None => [] end.
Definition watch_times (wf : watchFile) : list Z :=
  concat (map (fun r => wr_spawnedAt r :: event_times (wr_event r)) (wf_runs wf)) ++ map wd_minute (wf_fired wf) ++
  concat (map (fun q => wq_queuedAt q :: event_times (wq_event q)) (wf_queued wf)).

(** A time JSON can say, in whatever zone: its year has four digits. *)
Definition json_time (t : Z) : Prop := in_years (t - 86400 * second_ns) /\ in_years (t + 86400 * second_ns).

#[export] Instance json_time_dec t : Decision (json_time t).
Proof. unfold json_time, in_years. apply _. Defined.

(** What encoding/json writes of a list can be read back: its texts are UTF-8 (other
    bytes are replaced), its times are in years 0 to 9999, and its numbers fit. *)
Record writable (wf : watchFile) : Prop := {
  wb_texts : Forall (fun s => ValidString s = true) (watch_texts wf);
  wb_times : Forall json_time (watch_times wf);
  wb_ids : Forall (fun q => 0 <= wq_id q < 2 ^ 64 /\ 0 <= wq_firing q < 2 ^ 64) (wf_queued wf)
}.

(** encoding/json of the list; a run's reason to wait counts as its text. *)
Class watch_codec := {
  enc_watch : watchFile -> string;
  dec_watch : string -> option watchFile;
  dec_enc_watch wf : writable wf -> dec_watch (enc_watch wf) = Some wf
}.

(** Reading watch.json: missing, unreadable, or its bytes. *)
Inductive watch_file_read := FileMissing | FileUnreadable | FileRead (data : string).

(** [e_probe] is a probe's answer, of a fleet's instance; [e_logs] the logs of a fleet's trigger. *)
Record env := MkEnv {
  e_load : nat -> option State;
  e_checks : nat -> runChecks;
  e_create : nat -> create_result;
  e_log : nat -> string;
  e_probe : nat -> string -> string -> option probe_result;
  e_reap : nat -> option string;
  e_write : nat -> bool;
  e_logs : string -> string -> logDir;
  e_file : nat -> watch_file_read;
  e_timeouts : timeouts
}.

(** What the scheduler does to the outside besides creating. *)
Inductive action :=
| ALaunch (w : watchedAgent) (inst : Instance_)
| AProbe (fleetName : string) (t : Trigger)
| AReap (fleetName instance : string)
| ARelease (fleetName : string) (inst : Instance_)
| AWrite (content : watchFile).

(** An outcome line of a firing's log. *)
Inductive outcome :=
| ODropped (firings : Z) | ORefused (w : why) | OQueued (w : why) | OInstance (name : string) (t : DeployTarget)
| ONotCreated (msg : string) | OExpired (w : option why)
| OReaped (idle : Z) (destroy : option string)
| OOverdue (destroy : option string) | OInterrupted (destroy : option string) | OInterruptedKept
| OFailedReleased (reason : string) | OFailed (reason : string).

Record line := MkLine { li_fleet : string; li_trigger : string; li_log : string; li_at : Z; li_agent : string; li_outcome : outcome }.

Record turn := MkTurn { tn_n : nat; tn_sched : scheduler; tn_acts : list action; tn_lines : list line }.

Definition M (A : Type) : Type := env -> turn -> A * turn.
Definition ret {A} (x : A) : M A := fun _ t => (x, t).
Definition bind {A B} (m : M A) (k : A -> M B) : M B := fun e t => let '(x, t) := m e t in k x e t.

Declare Scope sched_scope.
Delimit Scope sched_scope with sched.
Notation "'let!' x ':=' m 'in' k" := (bind m (fun x => k)) (at level 200, x binder, m at level 100, k at level 200) : sched_scope.
Notation "m ';;' k" := (bind m (fun _ => k)) (at level 100, right associativity) : sched_scope.
Local Open Scope sched_scope.

(** A question to the environment: the [n]th answer is for the [n]th question. *)
Definition question {A} (f : env -> nat -> A) : M A :=
  fun e t => (f e (tn_n t), MkTurn (S (tn_n t)) (tn_sched t) (tn_acts t) (tn_lines t)).

Definition get_sched : M scheduler := fun _ t => (tn_sched t, t).
Definition modify (f : scheduler -> scheduler) : M unit :=
  fun _ t => (tt, MkTurn (tn_n t) (f (tn_sched t)) (tn_acts t) (tn_lines t)).
Definition act (a : action) : M unit := fun _ t => (tt, MkTurn (tn_n t) (tn_sched t) (tn_acts t ++ [a]) (tn_lines t)).
Definition write_line (x : line) : M unit := fun _ t => (tt, MkTurn (tn_n t) (tn_sched t) (tn_acts t) (tn_lines t ++ [x])).

Definition on_lim (f : automationLimiter -> automationLimiter) : M unit := modify (fun s => set_lim (f (sc_lim s)) s).

Fixpoint for_each {A} (xs : list A) (f : A -> M unit) : M unit :=
  match xs with
  | [] => ret tt
  | x :: rest => f x;; for_each rest f
  end.

(** [f] on each, whether it said true of any. *)
Fixpoint for_any {A} (xs : list A) (f : A -> M bool) : M bool :=
  match xs with
  | [] => ret false
  | x :: rest => let! b := f x in let! c := for_any rest f in ret (b || c)
  end.

(** A line is appended only to a log named as logs are. *)
Definition log_name_ok (name : string) : bool :=
  negb (String.eqb name "") && negb (contains_byte name slash) && HasPrefix name "event-".

Definition appendTriggerOutcome (fleetName trigger name : string) (at_ : Z) (agent : string) (o : outcome) : M unit :=
  if log_name_ok name then write_line (MkLine fleetName trigger name at_ agent o) else ret tt.

Definition recordTriggerOutcome (w : watchedAgent) (at_ : Z) (o : outcome) : M unit :=
  match wa_event w with
  | None => ret tt
  | Some ev =>
      if String.eqb (wa_eventLog w) "" then ret tt
      else appendTriggerOutcome (wa_fleet w) (ev_triggerName ev) (wa_eventLog w) at_
             (if String.eqb (wa_agent w) "" then wa_instance w else wa_agent w) o
  end.

Definition persist : M unit :=
  let! s := get_sched in
  if String.eqb (sc_watchPath s) "" then ret tt
  else if bool_decide (sc_saved s = Some (snapshot s)) then ret tt
  else
    let! ok := question e_write in
    if ok : bool then act (AWrite (snapshot s));; modify (set_saved (Some (snapshot s))) else ret tt.

(** ** Firings *)

(** The outcomes of the runs a firing does not start. *)
Definition record_outcomes (p : firingPlan) (eventLog : string) (now : Z) : M unit :=
  let outcome agent o := appendTriggerOutcome (pl_fleet p) (tr_name (pl_trigger p)) eventLog now agent o in
  match pl_dropped p with
  | Some n => outcome (Join (tr_agentNames (pl_trigger p)) ",") (ODropped n)
  | None =>
      for_each (pl_refused p) (fun r => outcome (fst r) (ORefused (snd r)));;
      let! s := get_sched in
      for_each (pl_queued p) (fun q =>
        outcome (r_agent (run (sc_lim s) q)) (OQueued (default WStopped (r_why (run (sc_lim s) q)))))
  end.

Definition recordFiring (p : firingPlan) (body : string) (now : Z) : M (option (triggerEvent * string)) :=
  match pl_dropped p, pl_direct p, pl_start p, pl_queued p, pl_refused p with
  | None, [], [], [], [] => ret None
  | _, _, _, _, _ =>
      let t := pl_trigger p in
      let ev := MkEvent (tr_type t) (tr_name t) now (tr_webhookName t) body in
      let! eventLog := question e_log in
      on_lim (commit p ev eventLog);;
      record_outcomes p eventLog now;;
      ret (Some (ev, eventLog))
  end.

Definition startRun (fleetName : string) (ag : Agent) (prompt : string) (ev : option triggerEvent) (eventLog : string)
    (r : option nat) (now : Z) : M bool :=
  let trigger := match ev with Some ev => ev_triggerName ev | None => "" end in
  let outcome o := appendTriggerOutcome fleetName trigger eventLog now (ag_name ag) o in
  let! res := question e_create in
  match res with
  | Created instName =>
      let w := MkWatched fleetName instName (ag_name ag) (ag_command ag) prompt (ag_systemPrompt ag) now now false ev eventLog false false in
      modify (fun s => set_watched (<[wa_key w := w]> (sc_watched s)) s);;
      match r with
      | Some p => on_lim (started p (wa_key w))
      | None => on_lim (hold fleetName (ag_name ag) (wa_key w))
      end;;
      outcome (OInstance instName (Agent_DeployTarget ag));;
      ret true
  | Exhausted msg =>
      match r with
      | Some p => on_lim (requeue p (WMessage msg));; outcome (OQueued (WMessage msg));; ret false
      | None => outcome (ONotCreated msg);; ret false
      end
  | CreateFailed msg =>
      match r with Some p => on_lim (started p "") | None => ret tt end;;
      outcome (ONotCreated msg);; ret false
  end.

Definition runFiring (p : firingPlan) (body : string) (now : Z) : M bool :=
  let! rec := recordFiring p body now in
  match rec with
  | None => ret false
  | Some (ev, eventLog) =>
      match pl_dropped p with
      | Some _ => ret false
      | None =>
          let! a := for_any (pl_direct p) (fun ag =>
            startRun (pl_fleet p) ag (tr_prompt (pl_trigger p)) (Some ev) eventLog None now) in
          let! b := for_any (pl_start p) (fun q =>
            let! s := get_sched in
            startRun (pl_fleet p) (r_def (run (sc_lim s) q)) (r_prompt (run (sc_lim s) q)) (Some ev) eventLog (Some q) now) in
          (if a || b then persist else ret tt);;
          ret (a || b)
      end
  end.

Definition holdFiring (p : firingPlan) (body : string) (now : Z) : M unit :=
  let! rec := recordFiring p body now in
  match rec with
  | None => ret tt
  | Some (ev, eventLog) =>
      match pl_dropped p with
      | Some _ => ret tt
      | None =>
          let! s := get_sched in
          let '(l, runs) := postpone p (Some ev) eventLog WStopped now (sc_lim s) in
          modify (set_lim l);;
          for_each runs (fun q => appendTriggerOutcome (pl_fleet p) (tr_name (pl_trigger p)) eventLog now (r_agent (run l q)) (OQueued WStopped))
      end
  end.

(** The fires that come unplanned are planned together, against one reading of the state. *)
Fixpoint assign_plans (batch : list triggerFire) (plans : list firingPlan) : list triggerFire :=
  match batch with
  | [] => []
  | f :: rest =>
      match tf_plan f, plans with
      | None, p :: ps => MkFire (tf_fleet f) (tf_trigger f) (tf_body f) (Some p) :: assign_plans rest ps
      | _, _ => f :: assign_plans rest plans
      end
  end.

Definition unplanned (batch : list triggerFire) : list firingItem :=
  omap (fun f => match tf_plan f with None => Some (MkItem (tf_fleet f) (tf_trigger f) None) | Some _ => None end) batch.

Definition plan_items (items : list firingItem) (now : Z) : M (list firingPlan) :=
  let! c := question e_checks in
  let! load := question e_load in
  let! s := get_sched in
  let '(l, plans) := plan c load items now (sc_lim s) in
  modify (set_lim l);; ret plans.

Definition planFires (batch : list triggerFire) (now : Z) : M (list triggerFire) :=
  match unplanned batch with
  | [] => ret batch
  | items => let! plans := plan_items items now in ret (assign_plans batch plans)
  end.

(** Carrying out each fire of a batch, planned by now. *)
Definition fire_plan (f : triggerFire) (run_plan : firingPlan -> string -> M unit) : M unit :=
  match tf_plan f with Some p => run_plan p (tf_body f) | None => ret tt end.

Definition fireTriggerBatch (batch : list triggerFire) (now : Z) : M unit :=
  match batch with
  | [] => ret tt
  | _ =>
      let! batch := planFires batch now in
      for_each batch (fun f => fire_plan f (fun p body => let! _ := runFiring p body now in ret tt))
  end.

Definition holdFires (batches : list (list triggerFire)) (now : Z) : M unit :=
  match batches with
  | [] => ret tt
  | _ =>
      for_each batches (fun batch =>
        let! batch := planFires batch now in
        for_each batch (fun f => fire_plan f (fun p body => holdFiring p body now)));;
      persist
  end.

Definition fireTriggerAgents (fleetName : string) (t : Trigger) (agents : list Agent) (now : Z) (body : string) : M bool :=
  match agents with
  | [] => ret false
  | _ =>
      let! plans := plan_items [MkItem fleetName t (Some agents)] now in
      match plans with p :: _ => runFiring p body now | [] => ret false end
  end.

(** ** The queue *)

Definition serviceQueue (now : Z) : M (option Z) :=
  let! c := question e_checks in
  let! load := question e_load in
  let! s := get_sched in
  let d := due c load (queue_keys (sc_lim s)) now (sc_lim s) in
  modify (set_lim (d_l d));;
  for_each (d_expired d) (fun q => let r := run (d_l d) q in
    appendTriggerOutcome (r_fleet r) (r_trigger r) (r_eventLog r) now (r_agent r) (OExpired (r_why r)));;
  for_each (d_refused d) (fun q => let r := run (d_l d) q in
    appendTriggerOutcome (r_fleet r) (r_trigger r) (r_eventLog r) now (r_agent r) (ORefused (default WStopped (r_why r))));;
  let! fired := for_any (d_start d) (fun q =>
    let! s := get_sched in
    let r := run (sc_lim s) q in
    startRun (r_fleet r) (r_def r) (r_prompt r) (r_event r) (r_eventLog r) (Some q) now) in
  (if fired || negb (bool_decide (d_expired d = [])) || negb (bool_decide (d_refused d = [])) then persist else ret tt);;
  ret (d_next d).

(** ** The instances watched *)

Definition createOverdue (ts : timeouts) (w : watchedAgent) (inst : Instance_) (now : Z) : bool :=
  negb (wa_launched w) && String.eqb (in_backend inst) BackendKubernetes && (0 <? automationCreateTimeout ts) &&
  (automationCreateTimeout ts <=? now - wa_spawnedAt w).

Definition interruptedCreate (inst : Instance_) : bool :=
  String.eqb (in_error inst) interruptedByRestart || HasPrefix (in_error inst) "kubernetes:interrupted".

Definition reap (fleetName instance : string) : M (option string) :=
  act (AReap fleetName instance);; question e_reap.

Definition abandonOverdueCreate (w : watchedAgent) (inst : Instance_) (now : Z) : M unit :=
  let! err := reap (wa_fleet w) (wa_instance w) in
  recordTriggerOutcome w now (OOverdue err).

Definition failedRun (w : watchedAgent) (inst : Instance_) (now : Z) : M unit :=
  let reason := if String.eqb (TrimSpace (in_error inst)) "" then "no reason recorded" else TrimSpace (in_error inst) in
  if String.eqb (in_backend inst) BackendKubernetes && interruptedCreate inst then
    let! err := reap (wa_fleet w) (wa_instance w) in
    recordTriggerOutcome w now (OInterrupted err)
  else if String.eqb (in_backend inst) BackendKubernetes then
    act (ARelease (wa_fleet w) inst);;
    recordTriggerOutcome w now (OFailedReleased reason)
  else if interruptedCreate inst then recordTriggerOutcome w now OInterruptedKept
  else recordTriggerOutcome w now (OFailed reason).

(** The watched run under [k], changed in place. *)
Definition touch_watched (k : string) (f : watchedAgent -> watchedAgent) : M unit :=
  modify (fun s => set_watched (alter f k (sc_watched s)) s).

Fixpoint for_concat {A B} (xs : list A) (f : A -> M (list B)) : M (list B) :=
  match xs with
  | [] => ret []
  | x :: rest => let! a := f x in let! b := for_concat rest f in ret (a ++ b)
  end.

(** Phase 1, one run: dropped when its instance is gone, failed or overdue, launched when it runs;
    the launched ones are the ones to probe. *)
Definition service_one (st : State) (now : Z) (kw : string * watchedAgent) : M (list (string * watchedAgent * Instance_)) :=
  let '(k, w) := kw in
  match findInstance st (wa_fleet w) (wa_instance w) with
  | None => modify (unwatch k);; ret []
  | Some inst =>
      match in_status inst with
      | StatusFailed => failedRun w inst now;; modify (unwatch k);; ret []
      | StatusRunning =>
          if negb (wa_launched w) then act (ALaunch w inst);; touch_watched k (set_launched now);; ret []
          else ret [(k, w, inst)]
      | StatusCreating =>
          let! ts := question (fun e _ => e_timeouts e) in
          (if createOverdue ts w inst now then abandonOverdueCreate w inst now;; modify (unwatch k) else ret tt);; ret []
      | _ => ret []
      end
  end.

(** Phases 2 and 3, one probed run: a failed probe changes nothing, an idle run is reaped. *)
Definition apply_activity (now : Z) (check : string * watchedAgent * Instance_ * option probe_result) : M unit :=
  let '(k, w, inst, r) := check in
  match r with
  | None => ret tt
  | Some pr =>
      let w := set_session (pr_session pr) w in
      touch_watched k (set_session (pr_session pr));;
      if pr_working pr then touch_watched k (set_active now)
      else
        let! ts := question (fun e _ => e_timeouts e) in
        let idle := now - wa_lastActive w in
        if idleLimit ts w <=? idle then
          let! err := reap (wa_fleet w) (wa_instance w) in
          recordTriggerOutcome w now (OReaped idle err);;
          modify (unwatch k)
        else ret tt
  end.

(** The probe of one run: automationActivity asks the run's own instance, when it has a container. *)
Definition ask_probe (c : string * watchedAgent * Instance_) : M (list (string * watchedAgent * Instance_ * option probe_result)) :=
  let '(k, w, inst) := c in
  let! r := question (fun e n => if String.eqb (in_containerID inst) "" then None else e_probe e n (wa_fleet w) (wa_instance w)) in
  ret [(c, r)].

Definition serviceWatched (st : State) (now : Z) : M unit :=
  let! s := get_sched in
  let! checks := for_concat (map_to_list (sc_watched s)) (service_one st now) in
  let! results := for_concat checks ask_probe in
  for_each results (apply_activity now).

(** ** One tick *)

Section tick.
Context (clock_of : Z -> clock).

Definition fire_due (st : State) (now : Z) (ft : string * Trigger) : M bool :=
  let '(f, t) := ft in
  let agents := agentsForTrigger (st !! f) t in
  if String.eqb (tr_type t) TriggerBash then
    (if bool_decide (agents = []) then ret tt else act (AProbe f t));; ret false
  else fireTriggerAgents f t agents now "".

Definition schedulerTick (now : Z) : M (option Z) :=
  let! load := question e_load in
  match load with
  | None => ret None
  | Some st =>
      let! s := get_sched in
      let '(lastFired, dues) := dueCronTriggers clock_of st now (sc_lastFired s) in
      modify (set_fired lastFired);;
      (if bool_decide (dues = []) then ret tt else persist);;
      let! fired := for_any dues (fire_due st now) in
      let! st := (if fired : bool then let! load := question e_load in ret (default st load) else ret st) in
      serviceWatched st now;;
      serviceQueue now
  end.
End tick.

(** ** After a restart *)

Definition failedRunHolds (inst : Instance_) : bool :=
  String.eqb (in_backend inst) BackendKubernetes && (negb (String.eqb (in_kubeKey inst) "") || interruptedCreate inst).

Definition empty_file : watchFile := MkWatchFile watchFileVersion [] [] [].

(** The file's content, and whether there was a file. *)
Definition readWatchFile `{!watch_codec} : M (option watchFile * bool) :=
  let! r := question e_file in
  ret (match r with
       | FileMissing => (Some empty_file, false)
       | FileUnreadable => (None, true)
       | FileRead data =>
           match dec_watch data with
           | Some wf => if wf_version wf =? watchFileVersion then (Some wf, true) else (None, true)
           | None => (None, true)
           end
       end).

Definition read_body (fleetName : string) (ev : triggerEvent) (ref : watchRunEvent) : M triggerEvent :=
  let! body := question (fun e _ => readTriggerEventBody (e_logs e fleetName (ev_triggerName ev)) ev (re_logFile ref) (re_payloadSize ref)) in
  ret (MkEvent (ev_kind ev) (ev_triggerName ev) (ev_firedAt ev) (ev_webhookName ev) (match body with Ok b => b | Err _ => "" end)).

Definition saved_trigger (trigger : string) (ref : watchRunEvent) : triggerEvent :=
  MkEvent (re_kind ref) trigger (re_firedAt ref) (re_webhook ref) "".

(** The event of a restored run, its payload read back only when [wanted]. *)
Definition restore_event (fleetName trigger : string) (wanted : bool) (ref : option watchRunEvent) : M (option triggerEvent) :=
  match ref with
  | None => ret None
  | Some ref =>
      let ev := saved_trigger trigger ref in
      if wanted && (0 <? re_payloadSize ref) then let! ev := read_body fleetName ev ref in ret (Some ev) else ret (Some ev)
  end.

Definition log_of (ref : option watchRunEvent) : string := match ref with Some ref => re_logFile ref | None => "" end.

Definition restore_run (st : option State) (now : Z) (r : watchRun) : M unit :=
  if match st with Some st => bool_decide (findInstance st (wr_fleet r) (wr_instance r) = None) | None => false end then ret tt
  else
    let! ev := restore_event (wr_fleet r) (wr_trigger r) (negb (wr_launched r)) (wr_event r) in
    modify (watch (MkWatched (wr_fleet r) (wr_instance r) (wr_agent r) (wr_command r) (wr_prompt r) (wr_systemPrompt r) (wr_spawnedAt r) now
                     (wr_launched r) ev (log_of (wr_event r)) (wr_adopted r) false)).

Definition no_agent : Agent := MkAgent "" "" "" "" "".

Definition restore_queued (now : Z) (q : watchQueued) : M (list queuedRun) :=
  let expired := automationQueueTTL <=? now - wq_queuedAt q in
  let! ev := restore_event (wq_fleet q) (wq_trigger q) (negb expired) (wq_event q) in
  if expired then
    appendTriggerOutcome (wq_fleet q) (wq_trigger q) (log_of (wq_event q)) now (wq_agent q) (OExpired (wq_why q));; ret []
  else
    ret [MkRun (wq_id q) (wq_firing q) (wq_fleet q) (wq_trigger q) (wq_agent q) (wq_prompt q) (wq_cluster q) (wq_queuedAt q) (wq_why q)
           ev (log_of (wq_event q)) false no_agent].

Definition restoreQueued_ (saved : list watchQueued) (now : Z) : M unit :=
  let! runs := for_concat saved (restore_queued now) in
  on_lim (restoreQueued runs).

Definition adopt (now : Z) (fi : string * Instance_) : M unit :=
  let '(fleetName, inst) := fi in
  if negb (in_automated inst) || (bool_decide (in_status inst = StatusFailed) && negb (failedRunHolds inst)) then ret tt
  else
    let w := MkWatched fleetName (in_name inst) "" "" "" "" (in_createdAt inst) now true None "" true false in
    let! s := get_sched in
    match sc_watched s !! wa_key w with Some _ => ret tt | None => modify (watch w) end.

Definition all_instances (st : State) : list (string * Instance_) :=
  concat (map (fun nf => map (pair (fst nf)) (fl_instances (snd nf))) (map_to_list st)).

Definition restore `{!watch_codec} (now : Z) : M unit :=
  let! s := get_sched in
  if String.eqb (sc_watchPath s) "" then ret tt
  else
    let! file := readWatchFile in
    let wf := default empty_file (fst file) in
    (if snd file : bool then ret tt else modify (set_saved (Some (snapshot s))));;
    let! st := question e_load in
    for_each (wf_runs wf) (restore_run st now);;
    modify (fun s => set_fired (foldl (fun m f => <[firedKey (wd_fleet f) (wd_trigger f) := wd_minute f]> m) (sc_lastFired s) (wf_fired wf)) s);;
    restoreQueued_ (wf_queued wf) now;;
    match st with Some st => for_each (all_instances st) (adopt now) | None => ret tt end;;
    persist.
