(* ===== verification/SchedulerSlots.v ===== *)
(** * The scheduler and the limiter keep each other's books

    Every operation of the scheduler is a run of limiter steps, and the slots held
    under instance keys are those of the instances it watches. *)

From S2P Require Import Prelude GoStrings GoText Entry Cron Automation FleetState Limiter LimiterLedger LimiterPlan LimiterOps LimiterDue LimiterSystem LimiterClaims Scheduler.
Local Open Scope string_scope.
Local Open Scope Z_scope.
Local Open Scope list_scope.
Local Open Scope sched_scope.

(** ** What limiter operations leave alone *)

(** The slots held under instance keys. *)
Definition same_watch (l l' : automationLimiter) : Prop := forall h, is_watch_key h -> l_holder l' !! h = l_holder l !! h.

(** A run for the agent it names, in fleet [f]. *)
Definition run_for (f : string) (r : queuedRun) : Prop := r_fleet r = f /\ r_agent r = ag_name (r_def r) /\ r_agent r <> "".

Definition same_job (r r' : queuedRun) : Prop := r_fleet r' = r_fleet r /\ r_agent r' = r_agent r /\ r_def r' = r_def r.

Lemma run_for_same f r r' : same_job r r' -> run_for f r -> run_for f r'.
Proof. intros (? & ? & ?) (? & ? & ?). unfold run_for. split_and!; congruence. Qed.

Lemma same_job_refl r : same_job r r.
Proof. done. Qed.

#[export] Instance same_watch_refl : Reflexive same_watch.
Proof. done. Qed.
#[export] Instance same_watch_trans : Transitive same_watch.
Proof. intros l1 l2 l3 H1 H2 h Hh. by rewrite H2, H1. Qed.

Lemma holder_watched l g h a : represents l g -> is_watch_key h -> l_holder l !! h = Some a <-> g_watch g !! h = Some a.
Proof.
  intros Hr Hk. destruct (re_slots _ _ Hr) as [Hh _ _ _ _ Hid]. rewrite Hh. split; [|by left].
  intros [?|(p & Hp & -> & _)]; [done|]. by apply reservation_not_watch in Hk; [|apply Hid].
Qed.

Lemma represents_same_watch l l' g g' : represents l g -> represents l' g' -> g_watch g' = g_watch g -> same_watch l l'.
Proof.
  intros Hr Hr' E h Hh. apply option_eq. intros a. by rewrite (holder_watched _ _ _ _ Hr Hh), (holder_watched _ _ _ _ Hr' Hh), E.
Qed.

(** Operations that only rewrite the rest of a run. *)
Definition same_jobs (l l' : automationLimiter) : Prop :=
  (length (l_heap l) <= length (l_heap l'))%nat /\ forall q, (q < length (l_heap l))%nat -> same_job (run l q) (run l' q).

#[export] Instance same_jobs_refl : Reflexive same_jobs.
Proof. by intros l. Qed.
#[export] Instance same_jobs_trans : Transitive same_jobs.
Proof.
  intros l1 l2 l3 [H1 J1] [H2 J2]. split; [lia|]. intros q Hq. destruct (J1 q Hq) as (? & ? & ?), (J2 q ltac:(lia)) as (? & ? & ?).
  unfold same_job. split; [|split]; congruence.
Qed.

Lemma same_jobs_heap l l' : l_heap l' = l_heap l -> same_jobs l l'.
Proof. intros E. unfold same_jobs, run. rewrite E. done. Qed.

Lemma same_jobs_set_run p f l : (forall r, same_job r (f r)) -> same_jobs l (set_run p f l).
Proof.
  intros Hf. split; [simpl; by rewrite length_alter|]. intros q Hq. rewrite run_set_run. destruct (decide _) as [[<- _]|]; [apply Hf|done].
Qed.

Lemma same_jobs_alloc r l : same_jobs l (alloc r l).
Proof. split; [simpl; rewrite length_app; lia|]. intros q Hq. by rewrite run_alloc. Qed.

Lemma same_jobs_foldl {A} (f : automationLimiter -> A -> automationLimiter) xs l :
  (forall l x, same_jobs l (f l x)) -> same_jobs l (foldl f l xs).
Proof. intros Hf. revert l. induction xs as [|x xs IH]; intros l; simpl; [done|]. etrans; [apply Hf|apply IH]. Qed.

Lemma settle_jobs p l : same_jobs l (settle p l).
Proof. apply same_jobs_heap. by destruct (settle_frame p l) as (-> & _). Qed.

Lemma commit_jobs p ev log l : same_jobs l (commit p ev log l).
Proof. apply same_jobs_foldl. intros l' q. by apply same_jobs_set_run. Qed.

Lemma insert_jobs p l : same_jobs l (insertLocked p l).
Proof. by apply same_jobs_heap. Qed.

Lemma requeue_jobs p w l : same_jobs l (requeue p w l).
Proof.
  unfold requeue. etrans; [apply (settle_jobs p)|]. etrans; [|apply insert_jobs]. by apply same_jobs_set_run.
Qed.

Lemma started_jobs p h l : same_jobs l (started p h l).
Proof. unfold started. destruct (String.eqb h ""); [apply settle_jobs|]. etrans; [apply (settle_jobs p)|]. by apply same_jobs_heap. Qed.

Lemma hold_jobs f a h l : same_jobs l (hold f a h l).
Proof. apply same_jobs_heap. unfold hold. by destruct (String.eqb a ""). Qed.

Lemma release_jobs h l : same_jobs l (release h l).
Proof. apply same_jobs_heap. unfold release, releaseLocked. by destruct (l_holder l !! h). Qed.

Lemma discard_jobs ps l : same_jobs l (discard ps l).
Proof.
  apply same_jobs_foldl. intros l' p. unfold discard_one. etrans; [apply (same_jobs_foldl (fun l q => settle q l) (pl_start p)); intros; apply settle_jobs|].
  by apply same_jobs_heap.
Qed.

Lemma postpone_jobs p ev log w now l : same_jobs l (fst (postpone p ev log w now l)).
Proof.
  unfold postpone. set (l1 := foldl (fun l q => settle q l) l (pl_start p)).
  assert (same_jobs l l1) as H1 by (apply same_jobs_foldl; intros; apply settle_jobs).
  assert (forall ags s, same_jobs (fst s) (fst (foldl (postpone_direct p ev log now) s ags))) as Hd.
  { induction ags as [|ag ags IH]; intros [l' runs]; simpl; [done|]. etrans; [|apply IH]. simpl.
    etrans; [|apply same_jobs_alloc]. by apply same_jobs_heap. }
  specialize (Hd (pl_direct p) (l1, pl_start p)). destruct (foldl _ (l1, pl_start p) _) as [l2 runs]. simpl in *.
  etrans; [exact H1|]. etrans; [exact Hd|]. apply same_jobs_foldl. intros l' q. etrans; [|apply insert_jobs]. by apply same_jobs_set_run.
Qed.

(** ** Records the configuration code accepts *)

(** Agents have names, triggers name each agent once (see [settings_ok]). *)
Definition good_state (st : State) : Prop := forall f fl, st !! f = Some fl ->
  (forall ag, ag ∈ st_agents (fl_settings fl) -> ag_name ag <> "") /\
  (forall t, t ∈ st_triggers (fl_settings fl) -> NoDup (tr_agentNames t)).

Lemma good_empty : good_state ∅.
Proof. intros f fl H. apply (lookup_empty_Some (M := gmap string)) in H. done. Qed.

Lemma good_agents st f t ag : good_state st -> ag ∈ agentsForTrigger (st !! f) t -> ag_name ag <> "".
Proof.
  intros Hg. destruct (st !! f) as [fl|] eqn:E; simpl; [|set_solver]. intros (n & _ & [Ha _]%FindAgent_Some)%list_elem_of_omap.
  by apply (Hg f fl E).
Qed.

Lemma refs_distinct (st : State) f t : NoDup (tr_agentNames t) -> NoDup (map ag_name (agentsForTrigger (st !! f) t)).
Proof.
  intros Hn. destruct (st !! f) as [fl|]; simpl; [|apply NoDup_nil_2]. eapply sublist_NoDup; [exact Hn|apply agents_named_names].
Qed.

(** ** The runs a drain starts *)

Lemma run_for_def r r' ag : ag_name ag <> "" -> ag_name ag = r_agent r -> r_agent r' = r_agent r -> r_def r' = ag -> run_for (r_fleet r') r'.
Proof. intros H1 H2 H3 H4. unfold run_for. rewrite H3, H4. split_and!; congruence. Qed.

Section drain.
Context (c : runChecks) (st : State) (now : Z) (Hst : good_state st).

Lemma drain_jobs d key p : (p < length (l_heap (d_l d)))%nat ->
  let d' := drain c st now d (key, p) in
  length (l_heap (d_l d')) = length (l_heap (d_l d)) /\
  (forall q, q <> p -> run (d_l d') q = run (d_l d) q) /\
  (d_start d' = d_start d \/ d_start d' = d_start d ++ [p] /\ run_for (r_fleet (run (d_l d') p)) (run (d_l d') p)).
Proof.
  intros Hp d'. unfold d', drain. destruct (r_pending _); [simpl; auto|]. destruct (_ <=? _); [simpl; auto|].
  assert (forall f q, q <> p -> run (set_run p f (d_l d)) q = run (d_l d) q) as Hne
    by (intros f q Hq; rewrite run_set_run; by destruct (decide _) as [[? _]|]).
  assert (forall w, let d' := drop_refused p w d in length (l_heap (d_l d')) = length (l_heap (d_l d)) /\
    (forall q, q <> p -> run (d_l d') q = run (d_l d) q) /\ d_start d' = d_start d) as Hdrop
    by (intros w; split; [apply length_alter|split; [intros q; apply Hne|done]]).
  destruct (st !! r_fleet (run (d_l d) p)) as [f|] eqn:Ef; [|destruct (Hdrop (WNoAgent (r_agent (run (d_l d) p)))) as (? & ? & ?); auto].
  destruct (FindAgent _ _) as [ag|] eqn:Ea; [|destruct (Hdrop (WNoAgent (r_agent (run (d_l d) p)))) as (? & ? & ?); auto].
  apply FindAgent_Some in Ea as [Hin Hname]. pose proof (proj1 (Hst _ _ Ef) _ Hin) as Hag. unfold drain_agent.
  destruct (noLongerFires _ _) as [w|]; [destruct (Hdrop w) as (? & ? & ?); auto|]. destruct (negb _).
  { split; [apply length_alter|]. split; [intros q; apply Hne|]. right. split; [done|].
    change (run (d_l (take_start p _ d)) p) with (run (set_run p (fun r => with_cluster "" (with_def ag r)) (d_l d)) p).
    rewrite run_set_run, decide_True by done. by apply (run_for_def (run (d_l d) p) _ ag). }
  set (l1 := set_run p _ (d_l d)). assert (length (l_heap l1) = length (l_heap (d_l d))) as Hl1 by apply length_alter.
  assert (forall f q, q <> p -> run (set_run p f l1) q = run (d_l d) q) as Hne1
    by (intros f' q Hq; rewrite run_set_run; destruct (decide _) as [[? _]|]; [done|by apply Hne]).
  destruct (refusal _ _ _ _); [split; [simpl; by rewrite !length_alter|split; [intros q; apply Hne1|by left]]|].
  destruct (waitLocked _ _ _ _ _ _ _) as [[w|] until]; (split; [simpl; by rewrite !length_alter|split; [intros q; apply Hne1|]]); [by left|].
  right. split; [done|]. change (run (d_l (take_start p (reserveLocked now p (set_run p (with_def ag) l1)) d)) p) with (run (set_run p (with_def ag) l1) p).
  rewrite run_set_run, decide_True by (by rewrite Hl1). unfold l1. rewrite run_set_run, decide_True by done. by apply (run_for_def (run (d_l d) p) _ ag).
Qed.

Lemma drains_jobs ws : forall d, NoDup (map snd ws) -> (forall w, w ∈ ws -> (snd w < length (l_heap (d_l d)))%nat) ->
  let d' := foldl (drain c st now) d ws in
  length (l_heap (d_l d')) = length (l_heap (d_l d)) /\
  (forall q, q ∉ map snd ws -> run (d_l d') q = run (d_l d) q) /\
  (forall q, q ∈ d_start d' -> q ∈ d_start d \/ q ∈ map snd ws /\ run_for (r_fleet (run (d_l d') q)) (run (d_l d') q)).
Proof.
  induction ws as [|[key p] ws IH]; intros d Hnd Hin; cbn [foldl map snd] in *; [naive_solver|].
  apply NoDup_cons in Hnd as [Hp Hnd]. destruct (drain_jobs d key p) as (E1 & E2 & E3); [apply (Hin (key, p)); set_solver|].
  destruct (IH (drain c st now d (key, p)) Hnd) as (F1 & F2 & F3); [intros w Hw; rewrite E1; apply Hin; set_solver|].
  split; [by rewrite F1|]. split.
  - intros q Hq. rewrite F2 by set_solver. apply E2. set_solver.
  - intros q [Hq|[Hq Hr]]%F3; [|right; split; [set_solver|done]]. destruct E3 as [E3|[E3 Hr]]; rewrite E3 in Hq; [by left|].
    apply elem_of_app in Hq as [Hq| ->%list_elem_of_singleton]; [by left|]. right. rewrite F2 by done. split; [set_solver|done].
Qed.

Lemma due_jobs l g keys load : represents l g -> ranges l keys -> loadOrEmpty load = st ->
  let d := due c load keys now l in
  length (l_heap (d_l d)) = length (l_heap l) /\
  (forall q, q ∉ g_wait g -> run (d_l d) q = run l q) /\
  (forall q, q ∈ d_start d -> run_for (r_fleet (run (d_l d) q)) (run (d_l d) q)).
Proof.
  intros Hrep Hrg Hload. unfold due. rewrite Hload. cbv zeta. cbn [d_l d_start].
  assert (forall q, q ∈ map snd (all_waiting l keys) -> q ∈ g_wait g) as Hw.
  { intros q ([k p] & -> & [_ Hp]%all_waiting_elem)%list_elem_of_fmap. by eapply queue_elem_wait. }
  pose proof (drains_jobs (all_waiting l keys) (MkDrain l [] [] [] None ∅ ∅)) as H. cbv zeta in H. cbn [d_l d_start] in H.
  destruct H as (F1 & F2 & F3).
  - pose proof Hrep as [_ Hq]%represents_core. eapply all_waiting_nodup; [done|apply Hrg].
  - intros w Hin. apply (io_heap _ _ (re_ids _ _ Hrep)). apply elem_of_union_l, Hw. apply list_elem_of_fmap. by exists w.
  - set (d := foldl (drain c _ now) _ _) in *. destruct (set_queues_frame d keys (d_l d)) as (E1 & _).
    change (fun l k => setQueueLocked k (default [] (d_kept d !! k)) l) with (fun l k => setQueueLocked k (kept d k) l).
    assert (forall q, run (foldl (fun l k => setQueueLocked k (kept d k) l) (d_l d) keys) q = run (d_l d) q) as Hrun
      by (intros q; unfold run; by rewrite E1).
    split; [by rewrite E1, F1|]. split.
    + intros q Hq. rewrite Hrun. apply F2. intros Hq'. by apply Hq, Hw.
    + intros q [Hq|[_ Hq]]%F3; [set_solver|]. by rewrite Hrun.
Qed.
End drain.

(** ** The runs a plan starts *)

(** A plan that was dropped starts nothing; the runs of any other are its fleet's. *)
Definition plan_for (l : automationLimiter) (p : firingPlan) : Prop :=
  (pl_dropped p <> None -> pl_start p = []) /\ forall q, q ∈ pl_start p -> run_for (pl_fleet p) (run l q).

Lemma planLocked_jobs c st f t agents now l g :
  represents l g -> l_seq l + 1 + Z.of_nat (length agents) < 2 ^ 64 -> (forall ag, ag ∈ agents -> ag_name ag <> "") ->
  plan_for (fst (planLocked c st f t agents now l)) (snd (planLocked c st f t agents now l)).
Proof.
  intros Hr Hroom Hag. destruct (plan_shape c st f t agents now l g Hr Hroom) as (a & s & gs & Hps & [(_ & _ & E)|(_ & E)]); rewrite E; clear E;
    (split; [done|]); intros q Hq; simpl in *; [set_solver|].
  destruct (reserve_all_books now (so_start s) (so_l s) ∅) as (Hh & _).
  assert (q ∈ as_runs a) as Hin by (rewrite <- (ps_perm _ _ _ _ _ _ _ _ _ _ _ Hps); set_solver).
  destruct (ps_fresh _ _ _ _ _ _ _ _ _ _ _ Hps q Hin) as [Hf _ _ _ _ _ Ha _ _].
  assert (r_def (run (so_l s) q) ∈ agents) as Hd.
  { assert (r_def (run (so_l s) q) ∈ map (fun p => r_def (run (so_l s) p)) (as_runs a)) as H by (apply list_elem_of_fmap; by exists q).
    rewrite (ps_defs _ _ _ _ _ _ _ _ _ _ _ Hps) in H. by apply list_elem_of_filter in H as [_ H]. }
  unfold run_for. unfold run. cbn [l_heap set_queues]. rewrite Hh. change (l_heap (so_l s) !!! q) with (run (so_l s) q).
  split; [done|]. split; [done|]. rewrite Ha. by apply Hag.
Qed.

Lemma plan_for_same l l' p : (forall q, q ∈ pl_start p -> same_job (run l q) (run l' q)) -> plan_for l p -> plan_for l' p.
Proof. intros H [Hd Hp]. split; [done|]. intros q Hq. eapply run_for_same; [by apply H|by apply Hp]. Qed.

Lemma plan_all_jobs c st now items : forall l g plans,
  checks_ok c -> represents l g -> l_seq l + asked_agents st items < 2 ^ 64 ->
  Forall (fun it => NoDup (map ag_name (item_agents st it)) /\ forall ag, ag ∈ item_agents st it -> ag_name ag <> "") items ->
  Forall (plan_for l) plans -> Forall (fun p => forall q, q ∈ pl_start p -> (q < length (l_heap l))%nat) plans ->
  let s := foldl (fun '(l, plans) it =>
     let '(l, p) := planLocked c st (fi_fleet it) (fi_trigger it) (item_agents st it) now l in (l, plans ++ [p])) (l, plans) items in
  Forall (plan_for (fst s)) (snd s) /\ (forall q, (q < length (l_heap l))%nat -> run (fst s) q = run l q) /\
  l_seq (fst s) <= l_seq l + asked_agents st items.
Proof.
  induction items as [|it items IH]; intros l g plans Hc Hr Hroom Hag Hpl Hhp; cbn [foldl asked_agents] in *; [simpl; split; [done|]; split; [done|]; lia|].
  apply Forall_cons in Hag as [[Hnd Hne] Hag]. pose proof (asked_agents_nonneg st items) as H0.
  destruct (planLocked_ok c st (fi_fleet it) (fi_trigger it) (item_agents st it) now l g) as [g1 Hp]; [done|done|lia|done|].
  pose proof (planLocked_jobs c st (fi_fleet it) (fi_trigger it) (item_agents st it) now l g Hr ltac:(lia) Hne) as Hnew.
  destruct (planLocked c st (fi_fleet it) (fi_trigger it) (item_agents st it) now l) as [l1 p]. simpl in Hp, Hnew.
  destruct Hp as [_ Hr1 Hs1 _ _ _ _ Hold Hlen _ Hseq].
  destruct (IH l1 g1 (plans ++ [p]) Hc Hr1) as (F1 & F2 & F3); [lia|done|..].
  - apply Forall_app. split; [|by constructor]. rewrite Forall_forall in *. intros p' Hp'. eapply plan_for_same; [|by apply Hpl].
    intros q Hq. rewrite Hold by (by eapply Hhp). done.
  - apply Forall_app. split; [eapply Forall_impl; [exact Hhp|]; simpl; intros p' H q Hq; specialize (H q Hq); lia|].
    constructor; [|done]. intros q Hq. apply (io_heap _ _ (re_ids _ _ Hr1)). set_solver.
  - split; [done|]. split; [|lia]. intros q Hq. rewrite F2 by lia. by apply Hold.
Qed.

(** ** The coupling *)

Lemma settles y y' : sys_call Settles y y' -> sys_step y y'.
Proof. intros H. by exists Settles. Qed.

(** The scheduler [s] with the plans in flight and the runs it is starting, each with its fleet. *)
Record coupled (s : scheduler) (plans : list firingPlan) (runs : list (string * nat)) : Prop := {
  cp_reach : rtc sys_step sys_init (MkSystem (sc_lim s) plans (map snd runs));
  cp_keys : forall k w, sc_watched s !! k = Some w -> k = wa_key w;
  cp_slots : forall h a, is_watch_key h -> l_holder (sc_lim s) !! h = Some a <->
    exists w, sc_watched s !! h = Some w /\ wa_agent w <> "" /\ a = agentKey (wa_fleet w) (wa_agent w);
  cp_plans : Forall (plan_for (sc_lim s)) plans;
  cp_runs : Forall (fun fq => run_for (fst fq) (run (sc_lim s) (snd fq))) runs
}.

Lemma watch_key_slash f i : is_watch_key (watch_key f i).
Proof. unfold is_watch_key, watch_key. induction f as [|x f IH]; [done|]. simpl. rewrite IH. apply orb_true_r. Qed.

Lemma coupled_rel s plans runs : coupled s plans runs -> exists g, sys_rel (MkSystem (sc_lim s) plans (map snd runs)) g.
Proof. intros [Hr _ _ _ _]. apply reached_rel in Hr as (g & _ & Hg). by exists g. Qed.

Lemma todo_heap y g q : sys_rel y g -> q ∈ todo y -> (q < length (l_heap (y_lim y)))%nat /\ q ∉ g_wait g /\ 0 <= r_id (run (y_lim y) q).
Proof.
  intros [Hr Hs _ _] Hq. assert (q ∈ g_start g) as Hg by (rewrite Hs; by apply elem_of_list_to_set).
  split; [apply (io_heap _ _ (re_ids _ _ Hr)); set_solver|]. split; [pose proof (re_disjoint _ _ Hr); set_solver|].
  apply (so_ids _ _ _ (re_slots _ _ Hr) q Hg).
Qed.

Lemma todo_plan l plans runs p q : p ∈ plans -> q ∈ pl_start p -> q ∈ todo (MkSystem l plans runs).
Proof.
  intros Hp Hq. apply elem_of_app. left. apply list_elem_of_In, in_concat. exists (pl_start p).
  split; apply list_elem_of_In; [|done]. apply list_elem_of_fmap. by exists p.
Qed.

Lemma todo_run_elem l plans runs q : q ∈ runs -> q ∈ todo (MkSystem l plans runs).
Proof. intros Hq. apply elem_of_app. by right. Qed.

(** A limiter step that keeps the watched slots and the runs in hand keeps the coupling. *)
Lemma coupled_step s l plans runs plans' runs' :
  coupled s plans runs -> rtc sys_step (MkSystem (sc_lim s) plans (map snd runs)) (MkSystem l plans' (map snd runs')) ->
  same_watch (sc_lim s) l -> Forall (plan_for l) plans' -> Forall (fun fq => run_for (fst fq) (run l (snd fq))) runs' ->
  coupled (set_lim l s) plans' runs'.
Proof.
  intros [Hr Hk Hs _ _] Hst Hw Hp Hru. split; simpl; [by etrans|done| |done|done].
  intros h a Hh. rewrite Hw by done. by apply Hs.
Qed.

Lemma coupled_frame s l plans runs :
  coupled s plans runs -> same_jobs (sc_lim s) l -> Forall (plan_for l) plans /\ Forall (fun fq => run_for (fst fq) (run l (snd fq))) runs.
Proof.
  intros Hc [_ Hj]. destruct (coupled_rel _ _ _ Hc) as [g Hg]. destruct Hc as [_ _ _ Hp Hr]. split.
  - rewrite Forall_forall in *. intros p Hin. eapply plan_for_same; [|by apply Hp]. intros q Hq. apply Hj.
    by eapply (todo_heap _ _ _ Hg), todo_plan.
  - rewrite Forall_forall in *. intros [f q] Hin. eapply run_for_same; [|by apply (Hr (f, q))]. apply Hj.
    eapply (todo_heap _ _ _ Hg), todo_run_elem, list_elem_of_fmap. by exists (f, q).
Qed.


Lemma coupled_plan s plans runs c load items now :
  coupled s plans runs -> checks_ok c -> l_seq (sc_lim s) + asked_agents (loadOrEmpty load) items < 2 ^ 64 ->
  Forall (fun it => NoDup (map ag_name (item_agents (loadOrEmpty load) it)) /\
    forall ag, ag ∈ item_agents (loadOrEmpty load) it -> ag_name ag <> "") items ->
  let r := plan c load items now (sc_lim s) in
  coupled (set_lim (fst r) s) (plans ++ snd r) runs /\ l_seq (fst r) <= l_seq (sc_lim s) + asked_agents (loadOrEmpty load) items.
Proof.
  intros Hc Hchk Hroom Hag r. destruct (coupled_rel _ _ _ Hc) as [g Hg]. pose proof (sy_rep _ _ Hg) as Hrep. simpl in Hrep.
  assert (Forall (fun it => NoDup (map ag_name (item_agents (loadOrEmpty load) it))) items) as Hnd
    by (eapply Forall_impl; [exact Hag|]; by intros it []).
  destruct (plan_all_ok c (loadOrEmpty load) now items _ g [] Hchk Hrep Hroom Hnd) as (g' & new & E & _ & Hr' & _ & Hw & _ & _ & _ & _ & Hlen).
  destruct (plan_all_jobs c (loadOrEmpty load) now items _ g [] Hchk Hrep Hroom Hag) as (F1 & F2 & F3); [by constructor..|].
  fold (plan c load items now (sc_lim s)) in *. fold r in E, Hr', Hlen, F1, F2, F3.
  assert (same_jobs (sc_lim s) (fst r)) as Hj by (split; [done|]; intros q Hq; by rewrite F2).
  destruct (coupled_frame s (fst r) plans runs Hc Hj) as [Hp Hru]. split; [|done].
  eapply coupled_step; [exact Hc| |by eapply represents_same_watch|by apply Forall_app|done].
  apply rtc_once. pose proof (sys_plan c load items now (MkSystem (sc_lim s) plans (map snd runs)) Hchk Hroom Hnd) as Hs. simpl in Hs. fold r in Hs.
  destruct r. by eexists.
Qed.

Lemma coupled_take s p rest runs ev log :
  coupled s (p :: rest) runs ->
  coupled (set_lim (commit p ev log (sc_lim s)) s) rest (runs ++ map (pair (pl_fleet p)) (pl_start p)).
Proof.
  intros Hc. destruct (coupled_rel _ _ _ Hc) as [g Hg]. pose proof (sy_rep _ _ Hg) as Hrep. simpl in Hrep.
  destruct (commit_ok (sc_lim s) g p ev log Hrep) as (g' & _ & Hr' & _ & _ & Hw).
  destruct (coupled_frame s _ _ _ Hc (commit_jobs p ev log (sc_lim s))) as [Hp Hru]. apply Forall_cons in Hp as [Hp Hrest].
  eapply coupled_step; [exact Hc| |by eapply represents_same_watch|done|].
  - rewrite map_app, map_map. simpl. rewrite map_id. apply rtc_once, settles, (sys_take (sc_lim s) [] p rest (map snd runs)).
  - apply Forall_app. split; [done|]. apply Forall_forall. intros fq (q & -> & Hq)%list_elem_of_fmap. by apply Hp.
Qed.

Lemma coupled_postpone s p rest runs ev log w now :
  coupled s (p :: rest) runs -> l_seq (sc_lim s) + Z.of_nat (length (pl_direct p)) < 2 ^ 64 ->
  coupled (set_lim (fst (postpone p (Some ev) log w now (commit p ev log (sc_lim s)))) s) rest runs.
Proof.
  intros Hc Hroom. destruct (coupled_rel _ _ _ Hc) as [g Hg].
  assert (same_jobs (sc_lim s) (fst (postpone p (Some ev) log w now (commit p ev log (sc_lim s))))) as Hj
    by (etrans; [apply commit_jobs|apply postpone_jobs]).
  destruct (coupled_frame s _ _ _ Hc Hj) as [Hp Hru]. apply Forall_cons in Hp as [Hp Hrest].
  pose proof (sys_postpone (sc_lim s) [] p rest (map snd runs) ev log w now Hroom) as Hstep.
  eapply coupled_step; [exact Hc|by apply rtc_once, settles| |done|done].
  destruct (postpone_rel (sc_lim s) [] p rest (map snd runs) ev log w now g Hg Hroom) as (g' & _ & Hr' & Hw).
  eapply represents_same_watch; [exact (sy_rep _ _ Hg)|exact (sy_rep _ _ Hr')|exact Hw].
Qed.

Lemma coupled_discard s ps rest runs : coupled s (ps ++ rest) runs -> coupled (set_lim (discard ps (sc_lim s)) s) rest runs.
Proof.
  intros Hc. destruct (coupled_rel _ _ _ Hc) as [g Hg]. pose proof (sy_rep _ _ Hg) as Hrep. simpl in Hrep.
  pose proof (sy_nodup _ _ Hg) as Hnd. pose proof (sy_start _ _ Hg) as Hst. unfold todo in Hnd, Hst. cbn [y_plans y_runs] in Hnd, Hst.
  rewrite map_app, concat_app, <- app_assoc in Hnd, Hst. apply NoDup_app in Hnd as (Hnd & _ & _).
  destruct (discard_all_ok ps (sc_lim s) g Hrep Hnd) as (g' & _ & Hr' & _ & Hw).
  { intros q Hq. rewrite Hst. apply elem_of_list_to_set, elem_of_app. by left. }
  destruct (coupled_frame s _ _ _ Hc (discard_jobs ps (sc_lim s))) as [[_ Hp]%Forall_app Hru].
  eapply coupled_step; [exact Hc| |by eapply represents_same_watch|done|done].
  apply rtc_once, settles, (sys_discard (sc_lim s) [] ps rest).
Qed.

Lemma coupled_shuffle s plans plans' runs : coupled s plans runs -> plans ≡ₚ plans' -> coupled s plans' runs.
Proof.
  intros [Hr Hk Hs Hp Hru] HP. split; [|done|done|by rewrite <- HP|done]. etrans; [exact Hr|]. by apply rtc_once, settles, sys_shuffle.
Qed.

Lemma coupled_ext s s' plans runs : sc_lim s' = sc_lim s -> sc_watched s' = sc_watched s -> coupled s plans runs -> coupled s' plans runs.
Proof. intros E1 E2 [Hr Hk Hs Hp Hru]. split; rewrite ?E1, ?E2; done. Qed.

(** What settling a run does to the slots under instance keys: nothing. *)
Lemma settle_watch p l : 0 <= r_id (run l p) -> same_watch l (settle p l).
Proof.
  intros H0 h Hh. destruct (decide (h = reservation (run l p))) as [->|Hne]; [by apply reservation_not_watch in Hh|].
  unfold settle, creatingDoneLocked, releaseLocked. simpl. destruct (l_holder l !! reservation (run l p)) eqn:E; [|done]. simpl.
  by rewrite lookup_delete_ne.
Qed.

Lemma coupled_head s plans f q runs : coupled s plans ((f, q) :: runs) ->
  0 <= r_id (run (sc_lim s) q) /\ run_for f (run (sc_lim s) q).
Proof.
  intros Hc. destruct (coupled_rel _ _ _ Hc) as [g Hg]. split.
  - eapply (todo_heap _ _ q Hg), todo_run_elem. simpl. set_solver.
  - destruct Hc as [_ _ _ _ Hr]. by apply Forall_cons in Hr as [Hr _].
Qed.

Lemma coupled_failed s plans f q runs : coupled s plans ((f, q) :: runs) -> coupled (set_lim (started q "" (sc_lim s)) s) plans runs.
Proof.
  intros Hc. destruct (coupled_head _ _ _ _ _ Hc) as [H0 _]. destruct (coupled_frame s _ _ _ Hc (started_jobs q "" (sc_lim s))) as [Hp Hru].
  apply Forall_cons in Hru as [_ Hru]. eapply coupled_step; [exact Hc| |by apply settle_watch|done|done].
  by apply rtc_once, settles, (sys_started (sc_lim s) plans [] q (map snd runs) "").
Qed.

Lemma coupled_requeue s plans f q runs w : coupled s plans ((f, q) :: runs) -> coupled (set_lim (requeue q w (sc_lim s)) s) plans runs.
Proof.
  intros Hc. destruct (coupled_head _ _ _ _ _ Hc) as [H0 _]. destruct (coupled_frame s _ _ _ Hc (requeue_jobs q w (sc_lim s))) as [Hp Hru].
  apply Forall_cons in Hru as [_ Hru]. eapply coupled_step; [exact Hc| | |done|done].
  - by apply rtc_once, settles, (sys_requeue (sc_lim s) plans [] q (map snd runs)).
  - intros h Hh. exact (settle_watch q (sc_lim s) H0 h Hh).
Qed.

(** Two maps of slots that differ by one new instance. *)
Lemma coupled_new s plans runs runs' w l :
  coupled s plans runs -> sc_watched s !! wa_key w = None ->
  rtc sys_step (MkSystem (sc_lim s) plans (map snd runs)) (MkSystem l plans (map snd runs')) -> same_jobs (sc_lim s) l -> runs' `suffix_of` runs ->
  (forall h, is_watch_key h -> l_holder l !! h = if decide (h = wa_key w /\ wa_agent w <> "") then Some (agentKey (wa_fleet w) (wa_agent w)) else l_holder (sc_lim s) !! h) ->
  coupled (set_lim l (set_watched (<[wa_key w := w]> (sc_watched s)) s)) plans runs'.
Proof.
  intros Hc Hn Hst Hj [pre ->] Hh. destruct (coupled_frame s l plans _ Hc Hj) as [Hp Hru]. apply Forall_app in Hru as [_ Hru].
  destruct Hc as [Hr Hk Hs _ _]. split; cbn [sc_lim sc_watched set_lim set_watched]; [by etrans| | |done|done].
  - intros k w'. destruct (decide (k = wa_key w)) as [->|Hne]; [by rewrite lookup_insert_eq; intros [= <-]|]. rewrite lookup_insert_ne by done. apply Hk.
  - intros h a Hw. rewrite Hh by done. destruct (decide (h = wa_key w)) as [->|Hne].
    + rewrite lookup_insert_eq. destruct (decide _) as [[_ Ha]|Ha].
      * split; [intros [= <-]; by exists w|]. by intros (? & [= <-] & _ & ->).
      * rewrite Hs by done. rewrite Hn. split; [by intros (? & ? & _)|]. intros (? & [= <-] & ? & _). tauto.
    + rewrite lookup_insert_ne by done. rewrite decide_False by tauto. by apply Hs.
Qed.

Lemma unwatched_free s plans runs h : coupled s plans runs -> is_watch_key h -> sc_watched s !! h = None -> free_key (sc_lim s) h.
Proof.
  intros [_ _ Hs _ _] Hk Hn. split; [done|]. destruct (l_holder (sc_lim s) !! h) as [a|] eqn:E; [|done].
  apply Hs in E as (w & Hw & _); [congruence|done].
Qed.

Lemma coupled_started s plans f q runs w :
  coupled s plans ((f, q) :: runs) -> sc_watched s !! wa_key w = None -> wa_fleet w = f -> wa_agent w = ag_name (r_def (run (sc_lim s) q)) ->
  coupled (set_lim (started q (wa_key w) (sc_lim s)) (set_watched (<[wa_key w := w]> (sc_watched s)) s)) plans runs.
Proof.
  intros Hc Hn Hf Ha. destruct (coupled_head _ _ _ _ _ Hc) as (H0 & Hrf & Hra & Hre). pose proof (watch_key_slash (wa_fleet w) (wa_instance w)) as Hk.
  fold (wa_key w) in Hk. assert (wa_key w <> "") as Hkn by (intros E; rewrite E in Hk; discriminate Hk).
  eapply coupled_new; [exact Hc|done| |apply started_jobs|by exists [(f, q)]|].
  - apply rtc_once, settles, (sys_started (sc_lim s) plans [] q (map snd runs)). intros _. by eapply unwatched_free.
  - intros h Hh. unfold started. destruct (String.eqb_spec (wa_key w) ""); [done|]. cbn [l_holder holdLocked set_slots].
    assert (agentKey (r_fleet (run (sc_lim s) q)) (r_agent (run (sc_lim s) q)) = agentKey (wa_fleet w) (wa_agent w)) as -> by congruence.
    destruct (decide (h = wa_key w)) as [->|Hne].
    + rewrite lookup_insert_eq, decide_True; [done|]. split; [done|]. congruence.
    + rewrite lookup_insert_ne, decide_False by (tauto || done). by apply settle_watch.
Qed.

Lemma coupled_hold s plans runs w :
  coupled s plans runs -> sc_watched s !! wa_key w = None -> coupled (watch w s) plans runs.
Proof.
  intros Hc Hn. pose proof (watch_key_slash (wa_fleet w) (wa_instance w)) as Hk. fold (wa_key w) in Hk.
  eapply coupled_new; [exact Hc|done| |apply hold_jobs|done|].
  - apply rtc_once, settles, (sys_watch (sc_lim s)). by apply (unwatched_free s plans runs).
  - intros h Hh. unfold hold. destruct (String.eqb_spec (wa_agent w) "") as [E|E]; [by rewrite decide_False by tauto|].
    cbn [l_holder holdLocked set_slots set_watched sc_lim]. destruct (decide (h = wa_key w)) as [->|Hne].
    + by rewrite lookup_insert_eq, decide_True.
    + rewrite lookup_insert_ne, decide_False by (tauto || done). done.
Qed.

Lemma coupled_unwatch s plans runs k : coupled s plans runs -> is_watch_key k -> coupled (unwatch k s) plans runs.
Proof.
  intros Hc Hk. destruct (coupled_frame s _ plans runs Hc (release_jobs k (sc_lim s))) as [Hp Hru].
  pose proof Hc as [Hr Hke Hs _ _]. split; cbn [sc_lim sc_watched set_lim set_watched unwatch]; [|intros k' w [_ ?]%lookup_delete_Some; by apply Hke| |done|done].
  - etrans; [exact Hr|]. by apply rtc_once, settles, sys_unwatch.
  - intros h a Hh. unfold release, releaseLocked. destruct (decide (h = k)) as [->|Hne].
    + rewrite lookup_delete_eq. split; [|by intros (? & ? & _)]. destruct (l_holder (sc_lim s) !! k) eqn:E; [simpl; by rewrite lookup_delete_eq|congruence].
    + rewrite lookup_delete_ne by done. rewrite <- Hs by done.
      destruct (l_holder (sc_lim s) !! k) eqn:E; [simpl; by rewrite lookup_delete_ne|done].
Qed.

Lemma coupled_touch s plans runs k f :
  coupled s plans runs -> (forall w, wa_fleet (f w) = wa_fleet w /\ wa_instance (f w) = wa_instance w /\ wa_agent (f w) = wa_agent w) ->
  coupled (set_watched (alter f k (sc_watched s)) s) plans runs.
Proof.
  intros [Hr Hk Hs Hp Hru] Hf. split; cbn [sc_lim sc_watched set_watched]; try done.
  - intros k' w. destruct (decide (k = k')) as [->|Hne]; [|rewrite lookup_alter_ne by done; apply Hk].
    rewrite lookup_alter_eq. intros (w0 & Hw0 & ->)%fmap_Some. unfold wa_key. destruct (Hf w0) as (-> & -> & _). by apply Hk.
  - intros h a Hh. rewrite Hs by done. destruct (decide (k = h)) as [->|Hne]; [|by rewrite lookup_alter_ne].
    rewrite lookup_alter_eq. split.
    + intros (w & Hw & Ha & ->). exists (f w). rewrite Hw. destruct (Hf w) as (-> & _ & ->). done.
    + intros (w & (w0 & Hw0 & ->)%fmap_Some & Ha & ->). exists w0. destruct (Hf w0) as (E1 & _ & E2). rewrite E1, E2 in *. done.
Qed.

Lemma queue_keys_ranges l : ranges l (queue_keys l).
Proof.
  split; [apply NoDup_fst_map_to_list|]. intros k [q Hq]. unfold queue_keys. apply list_elem_of_fmap. exists (k, q). split; [done|].
  by apply elem_of_map_to_list.
Qed.

Lemma coupled_due s plans runs c load now :
  coupled s plans runs -> checks_ok c -> good_state (loadOrEmpty load) ->
  let d := due c load (queue_keys (sc_lim s)) now (sc_lim s) in
  coupled (set_lim (d_l d) s) plans (runs ++ map (fun q => (r_fleet (run (d_l d) q), q)) (d_start d)).
Proof.
  intros Hc Hchk Hgs d. destruct (coupled_rel _ _ _ Hc) as [g Hg]. pose proof (sy_rep _ _ Hg) as Hrep. simpl in Hrep.
  pose proof (queue_keys_ranges (sc_lim s)) as Hrg.
  destruct (due_ok c (loadOrEmpty load) now Hchk _ g _ load Hrep Hrg eq_refl) as (g' & _ & Hr' & _ & Hw & _).
  destruct (due_jobs c (loadOrEmpty load) now Hgs _ g _ load Hrep Hrg eq_refl) as (Hlen & Hold & Hnew). fold d in Hr', Hlen, Hold, Hnew.
  destruct Hc as [Hr Hk Hs Hp Hru] eqn:Ec. clear Ec.
  eapply coupled_step; [by split|..|by eapply represents_same_watch| |].
  - rewrite map_app, map_map. simpl. rewrite map_id. apply rtc_once.
    eexists. apply (sys_due c load (queue_keys (sc_lim s)) now (MkSystem (sc_lim s) plans (map snd runs)) Hchk Hrg).
  - rewrite Forall_forall in *. intros p Hin. eapply plan_for_same; [|by apply Hp]. intros q Hq.
    rewrite Hold; [done|]. by eapply (todo_heap _ _ _ Hg), todo_plan.
  - apply Forall_app. split.
    + rewrite Forall_forall in *. intros [f q] Hin. simpl. rewrite Hold; [by apply (Hru (f, q))|].
      eapply (todo_heap _ _ _ Hg), todo_run_elem, list_elem_of_fmap. by exists (f, q).
    + apply Forall_forall. intros fq (q & -> & Hq)%list_elem_of_fmap. by apply Hnew.
Qed.

(** ** Sequence numbers stay put *)

Lemma commit_seq_eq p ev log l : l_seq (commit p ev log l) = l_seq l.
Proof.
  unfold commit. generalize (pl_start p ++ pl_queued p). intros qs. revert l. induction qs as [|q qs IH]; intros l; [done|]. simpl. by rewrite IH.
Qed.

Lemma discard_seq_eq ps : forall l, l_seq (discard ps l) = l_seq l.
Proof.
  induction ps as [|p ps IH]; intros l; [done|]. unfold discard. simpl. fold (discard ps (discard_one p l)). rewrite IH. unfold discard_one. cbv zeta. cbn [l_seq setQueueLocked set_queues set_starts].
  generalize (pl_start p). intros qs. revert l. induction qs as [|q qs IHq]; intros l; [done|]. simpl. rewrite IHq. by destruct (settle_frame q l) as (_ & -> & _).
Qed.

Lemma started_seq_eq q h l : l_seq (started q h l) = l_seq l.
Proof. unfold started. destruct (String.eqb h ""); [by destruct (settle_frame q l) as (_ & -> & _)|]. cbn [l_seq holdLocked set_slots]. by destruct (settle_frame q l) as (_ & -> & _). Qed.

Lemma hold_seq_eq f a h l : l_seq (hold f a h l) = l_seq l.
Proof. unfold hold. by destruct (String.eqb a ""). Qed.

Lemma release_seq_eq h l : l_seq (release h l) = l_seq l.
Proof. unfold release, releaseLocked. by destruct (l_holder l !! h). Qed.

Lemma requeue_seq_eq s plans f q runs w : coupled s plans ((f, q) :: runs) -> l_seq (requeue q w (sc_lim s)) = l_seq (sc_lim s).
Proof.
  intros Hc. destruct (coupled_rel _ _ _ Hc) as [g Hg]. pose proof (sy_rep _ _ Hg) as Hrep. simpl in Hrep.
  assert (q ∈ g_start g) as Hq by (rewrite (sy_start _ _ Hg); apply elem_of_list_to_set, todo_run_elem; simpl; set_solver).
  destruct (io_range _ _ (re_ids _ _ Hrep) q) as [[_ H1] H2]; [set_solver|].
  unfold requeue, insertLocked. cbn [l_seq set_seq set_queues set_run]. rewrite run_set_run.
  set (r := if decide _ then _ else _). assert (r_id r = r_id (run (sc_lim s) q) /\ r_firing r = r_firing (run (sc_lim s) q)) as [-> ->].
  { unfold r. rewrite run_settle. by destruct (decide _). }
  destruct (settle_frame q (sc_lim s)) as (_ & -> & _). lia.
Qed.

Lemma due_seq_eq c load keys now l : l_seq (d_l (due c load keys now l)) = l_seq l.
Proof.
  unfold due. cbn [d_l]. set (d := foldl (drain c (loadOrEmpty load) now) _ _). destruct (set_queues_frame d keys (d_l d)) as (_ & E & _). etrans; [exact E|].
  unfold d. generalize (all_waiting l keys). intros ws. change l with (d_l (MkDrain l [] [] [] None ∅ ∅)) at 2. generalize (MkDrain l [] [] [] None ∅ ∅).
  induction ws as [|w ws IH]; intros d'; simpl; [done|]. by rewrite IH, drain_seq.
Qed.

(** Runs numbered up to [S]. *)
Definition numbered (S : Z) (l : automationLimiter) (runs : list nat) : Prop :=
  l_seq l <= S /\ forall q, q ∈ runs -> (q < length (l_heap l))%nat /\ r_id (run l q) <= S /\ r_firing (run l q) <= S.

Lemma numbered_inserts S f runs : (forall r, r_id (f r) = r_id r /\ r_firing (f r) = r_firing r) -> forall l, numbered S l runs ->
  l_seq (foldl (fun l q => insertLocked q (set_run q f l)) l runs) <= S.
Proof.
  intros Hf. induction runs as [|q runs IH]; intros l [Hl Hr]; simpl; [done|]. apply IH.
  assert (forall p, r_id (run (set_run q f l) p) = r_id (run l p) /\ r_firing (run (set_run q f l) p) = r_firing (run l p)) as Hsame.
  { intros p. rewrite run_set_run. destruct (decide _) as [[<- _]|]; [apply Hf|done]. }
  destruct (Hr q) as (_ & Hq1 & Hq2); [set_solver|]. destruct (Hsame q) as [E1 E2]. split.
  - change (l_seq _) with (Z.max (Z.max (l_seq l) (r_id (run (set_run q f l) q))) (r_firing (run (set_run q f l) q))). lia.
  - intros p Hp. destruct (Hr p) as (Hp0 & Hp1 & Hp2); [set_solver|]. destruct (Hsame p) as [F1 F2].
    change (run (insertLocked q (set_run q f l)) p) with (run (set_run q f l) p). split; [simpl; by rewrite length_alter|]. lia.
Qed.

Lemma numbered_directs S p ev log now ags : forall l runs, 0 <= l_seq l -> pl_firing p <= S -> l_seq l + Z.of_nat (length ags) <= S -> S < 2 ^ 64 ->
  numbered S l runs -> let s := foldl (postpone_direct p ev log now) (l, runs) ags in numbered S (fst s) (snd s).
Proof.
  induction ags as [|ag ags IH]; intros l runs H0 Hf Hs Hb [Hl Hr]; simpl in *; [by split|].
  assert (u64 (l_seq l + 1) = l_seq l + 1) as Hu by (apply u64_small; lia).
  apply IH; simpl; rewrite ?Hu; [lia|done|lia|done|]. split; simpl; [lia|].
  assert (forall r, length (l_heap l ++ [r]) = Datatypes.S (length (l_heap l))) as Hlen by (intros r; rewrite length_app; simpl; lia).
  intros q [Hq| ->%list_elem_of_singleton]%elem_of_app; rewrite Hlen.
  - destruct (Hr q Hq) as (Hq0 & Hq1 & Hq2). split; [lia|]. rewrite run_alloc by done. done.
  - split; [lia|]. rewrite run_alloc_at by done. simpl. lia.
Qed.

Lemma postpone_seq_le s p rest runs ev log w now :
  coupled s (p :: rest) runs -> l_seq (sc_lim s) + Z.of_nat (length (pl_direct p)) < 2 ^ 64 ->
  l_seq (fst (postpone p (Some ev) log w now (commit p ev log (sc_lim s)))) <= l_seq (sc_lim s) + Z.of_nat (length (pl_direct p)).
Proof.
  intros Hc Hroom. destruct (coupled_rel _ _ _ Hc) as [g Hg]. pose proof (sy_rep _ _ Hg) as Hrep. simpl in Hrep.
  pose proof (sy_firing _ _ Hg) as Hfi. simpl in Hfi. apply Forall_cons in Hfi as [Hfi _].
  set (S := l_seq (sc_lim s) + Z.of_nat (length (pl_direct p))) in *. unfold postpone.
  set (l0 := commit p ev log (sc_lim s)). set (l1 := foldl (fun l q => settle q l) l0 (pl_start p)).
  assert (l_heap l1 = l_heap l0 /\ l_seq l1 = l_seq l0) as [Eh Es].
  { unfold l1. generalize l0. induction (pl_start p) as [|q qs IH]; intros l; [done|]. simpl. destruct (IH (settle q l)) as [-> ->].
    destruct (settle_frame q l) as (-> & -> & _). done. }
  assert (forall q, r_id (run l0 q) = r_id (run (sc_lim s) q) /\ r_firing (run l0 q) = r_firing (run (sc_lim s) q)) as Hrun.
  { intros q. unfold l0, commit. generalize (pl_start p ++ pl_queued p). intros qs. generalize (sc_lim s). induction qs as [|q' qs IH]; intros l; [done|].
    simpl. destruct (IH (set_run q' (fun r => with_pending false (with_event (Some ev) log r)) l)) as [-> ->].
    rewrite run_set_run. destruct (decide _) as [[<- _]|]; done. }
  assert (l_seq l1 = l_seq (sc_lim s)) as Hs1 by (rewrite Es; apply commit_seq_eq).
  pose proof (io_seq _ _ (re_ids _ _ Hrep)) as H0.
  assert (numbered S l1 (pl_start p)) as Hn.
  { split; [unfold S; lia|]. intros q Hq. assert (q ∈ todo (MkSystem (sc_lim s) (p :: rest) (map snd runs))) as Ht by (eapply todo_plan; [|exact Hq]; set_solver).
    assert (q ∈ g_start g) as Hgs by (rewrite (sy_start _ _ Hg); by apply elem_of_list_to_set).
    destruct (io_range _ _ (re_ids _ _ Hrep) q) as [[_ H1] H2]; [set_solver|]. destruct (todo_heap _ _ _ Hg Ht) as [Hh _].
    destruct (commit_jobs p ev log (sc_lim s)) as [Hlen _]. unfold run. rewrite Eh. change (l_heap l0 !!! q) with (run l0 q). destruct (Hrun q) as [-> ->].
    simpl in Hh. fold l0 in Hlen. unfold S. split; [lia|]. lia. }
  pose proof (numbered_directs S p (Some ev) log now (pl_direct p) l1 (pl_start p) ltac:(lia) ltac:(unfold S; lia) ltac:(unfold S; lia) Hroom Hn) as Hd.
  simpl in Hd. destruct (foldl _ (l1, pl_start p) _) as [l2 rs]. simpl. by apply numbered_inserts.
Qed.
