(* ===== verification/SchedulerRun.v ===== *)
(** * Runs of the scheduler

    A Hoare logic for the scheduler's monad, and that each of its operations keeps
    the coupling of watched instances and limiter slots. *)

From S2P Require Import Prelude GoStrings GoText Entry Cron Automation FleetState Limiter LimiterLedger LimiterPlan LimiterOps LimiterDue LimiterSystem Scheduler SchedulerSlots.
Local Open Scope string_scope.
Local Open Scope Z_scope.
Local Open Scope list_scope.
Local Open Scope sched_scope.

(** ** Triples *)

Definition triple (e : env) {A} (P : turn -> Prop) (m : M A) (Q : A -> turn -> Prop) : Prop :=
  forall t, P t -> Q (fst (m e t)) (snd (m e t)).

Section rules.
Context (e : env).

Lemma triple_ret {A} (x : A) (Q : A -> turn -> Prop) : triple e (Q x) (ret x) Q.
Proof. by intros t. Qed.

Lemma triple_bind {A B} P (m : M A) (k : A -> M B) R Q :
  triple e P m R -> (forall x, triple e (R x) (k x) Q) -> triple e P (bind m k) Q.
Proof. intros Hm Hk t Ht. unfold bind. specialize (Hm t Ht). destruct (m e t) as [x t']. by apply (Hk x). Qed.

Lemma triple_pre {A} (P P' : turn -> Prop) (m : M A) Q : (forall t, P' t -> P t) -> triple e P m Q -> triple e P' m Q.
Proof. intros HP Hm t Ht. by apply Hm, HP. Qed.

Lemma triple_post {A} P (m : M A) (Q Q' : A -> turn -> Prop) : (forall x t, Q x t -> Q' x t) -> triple e P m Q -> triple e P m Q'.
Proof. intros HQ Hm t Ht. by apply HQ, Hm. Qed.

Lemma triple_fact {A} (F : Prop) P (m : M A) Q : (F -> triple e P m Q) -> triple e (fun t => F /\ P t) m Q.
Proof. intros H t [HF HP]. by apply H. Qed.

Lemma triple_get {B} P (k : scheduler -> M B) Q :
  (forall s, triple e (fun t => s = tn_sched t /\ P t) (k s) Q) -> triple e P (bind get_sched k) Q.
Proof. intros Hk. eapply (triple_bind _ _ _ (fun s t => s = tn_sched t /\ P t)); [by intros t|done]. Qed.

Lemma triple_for_each {A} (I : list A -> turn -> Prop) (f : A -> M unit) xs :
  (forall x rest, triple e (I (x :: rest)) (f x) (fun _ => I rest)) -> triple e (I xs) (for_each xs f) (fun _ => I []).
Proof.
  intros Hf. induction xs as [|x xs IH]; simpl; [apply (triple_ret tt (fun _ => I []))|]. eapply triple_bind; [apply Hf|]. intros ?. exact IH.
Qed.

Lemma triple_for_any {A} (I : list A -> turn -> Prop) (f : A -> M bool) xs :
  (forall x rest, triple e (I (x :: rest)) (f x) (fun _ => I rest)) -> triple e (I xs) (for_any xs f) (fun _ => I []).
Proof.
  intros Hf. induction xs as [|x xs IH]; simpl; [apply (triple_ret false (fun _ => I []))|]. eapply triple_bind; [apply Hf|]. intros b.
  eapply triple_bind; [exact IH|]. intros b'. apply (triple_ret _ (fun _ => I [])).
Qed.

Lemma triple_for_concat {A B} (P : turn -> Prop) (R : B -> Prop) (f : A -> M (list B)) xs :
  (forall x, x ∈ xs -> triple e P (f x) (fun out t => Forall R out /\ P t)) ->
  triple e P (for_concat xs f) (fun out t => Forall R out /\ P t).
Proof.
  induction xs as [|x xs IH]; intros Hf; simpl; [by intros t|].
  eapply triple_bind; [apply Hf; set_solver|]. intros a. apply triple_fact. intros Ha.
  eapply triple_bind; [apply IH; set_solver|]. intros b. apply triple_fact. intros Hb t Ht. split; [by apply Forall_app|done].
Qed.
End rules.

(** ** Quiet operations: the limiter and the watched instances stay *)

Definition quiet {A} (m : M A) : Prop := forall e t,
  sc_lim (tn_sched (snd (m e t))) = sc_lim (tn_sched t) /\ sc_watched (tn_sched (snd (m e t))) = sc_watched (tn_sched t) /\
  (tn_n t <= tn_n (snd (m e t)))%nat.

Create HintDb quiet.

Lemma quiet_ret {A} (x : A) : quiet (ret x).
Proof. done. Qed.
Lemma quiet_question {A} (f : env -> nat -> A) : quiet (question f).
Proof. intros e t. simpl. split_and!; [done|done|lia]. Qed.
Lemma quiet_act a : quiet (act a).
Proof. done. Qed.
Lemma quiet_line x : quiet (write_line x).
Proof. done. Qed.
Lemma quiet_get : quiet get_sched.
Proof. done. Qed.
Lemma quiet_saved f : quiet (modify (set_saved f)).
Proof. done. Qed.
Lemma quiet_fired f : quiet (modify (set_fired f)).
Proof. done. Qed.
Lemma quiet_bind {A B} (m : M A) (k : A -> M B) : quiet m -> (forall x, quiet (k x)) -> quiet (bind m k).
Proof.
  intros Hm Hk e t. unfold bind. destruct (Hm e t) as (E1 & E2 & E3). destruct (m e t) as [x t']. simpl in *.
  destruct (Hk x e t') as (F1 & F2 & F3). rewrite F1, F2. split_and!; [done|done|lia].
Qed.
Lemma quiet_for_each {A} (xs : list A) f : (forall x, quiet (f x)) -> quiet (for_each xs f).
Proof. intros Hf. induction xs; simpl; [done|]. by apply quiet_bind. Qed.
Lemma quiet_if {A} (b : bool) (m m' : M A) : quiet m -> quiet m' -> quiet (if b then m else m').
Proof. by destruct b. Qed.

#[export] Hint Resolve quiet_ret quiet_question quiet_act quiet_line quiet_get quiet_saved quiet_fired quiet_for_each : quiet.
Ltac quiet := repeat first [apply quiet_bind; [|intros ?] | apply quiet_if | progress eauto with quiet].

Lemma quiet_append f t n a ag o : quiet (appendTriggerOutcome f t n a ag o).
Proof. unfold appendTriggerOutcome. quiet. Qed.
#[export] Hint Resolve quiet_append : quiet.

Lemma quiet_record w a o : quiet (recordTriggerOutcome w a o).
Proof. unfold recordTriggerOutcome. destruct (wa_event w); quiet. Qed.

Lemma quiet_persist : quiet persist.
Proof. unfold persist. quiet. Qed.

Lemma quiet_reap f i : quiet (reap f i).
Proof. unfold reap. quiet. Qed.
#[export] Hint Resolve quiet_record quiet_persist quiet_reap : quiet.

Lemma quiet_failed w i now : quiet (failedRun w i now).
Proof. unfold failedRun. quiet. Qed.

Lemma quiet_overdue w i now : quiet (abandonOverdueCreate w i now).
Proof. unfold abandonOverdueCreate. quiet. Qed.
#[export] Hint Resolve quiet_failed quiet_overdue : quiet.

Lemma quiet_outcomes p log now : quiet (record_outcomes p log now).
Proof. unfold record_outcomes. destruct (pl_dropped p); quiet. Qed.

(** *** Questions are numbered on *)

Definition onward {A} (m : M A) : Prop := forall e t, (tn_n t <= tn_n (snd (m e t)))%nat.

Lemma quiet_onward {A} (m : M A) : quiet m -> onward m.
Proof. intros Hm e t. apply (Hm e t). Qed.
Lemma onward_modify f : onward (modify f).
Proof. intros e t. done. Qed.
Lemma onward_bind {A B} (m : M A) (k : A -> M B) : onward m -> (forall x, onward (k x)) -> onward (bind m k).
Proof. intros Hm Hk e t. unfold bind. pose proof (Hm e t). destruct (m e t) as [x t']. simpl in *. specialize (Hk x e t'). lia. Qed.
Lemma onward_for_concat {A B} (xs : list A) (f : A -> M (list B)) : (forall x, onward (f x)) -> onward (for_concat xs f).
Proof. intros Hf. induction xs; simpl; [by apply quiet_onward|]. apply onward_bind; [done|intros ?]. apply onward_bind; [done|intros ?; by apply quiet_onward]. Qed.
Lemma onward_for_each {A} (xs : list A) (f : A -> M unit) : (forall x, onward (f x)) -> onward (for_each xs f).
Proof. intros Hf. induction xs; simpl; [by apply quiet_onward|]. by apply onward_bind. Qed.

Create HintDb onward.
#[export] Hint Resolve onward_modify onward_for_concat onward_for_each quiet_failed quiet_overdue quiet_reap quiet_record quiet_ret quiet_question quiet_act quiet_onward : onward.
Ltac onward := repeat first [apply onward_bind; [|intros ?] | solve [eauto with onward] | case_match].

Lemma onward_service_one st now kw : onward (service_one st now kw).
Proof. destruct kw as [k w]. unfold service_one, touch_watched. onward. Qed.
Lemma onward_activity now c : onward (apply_activity now c).
Proof. destruct c as [[[k w] inst] r]. unfold apply_activity, touch_watched. onward. Qed.
Lemma onward_ask_probe c : onward (ask_probe c).
Proof. destruct c as [[k w] inst]. unfold ask_probe. onward. Qed.

(** ** The invariant of a turn *)

(** The names the environment still gives to created instances are new ones. *)
Record names_new (e : env) (n : nat) (W : gmap string watchedAgent) : Prop := {
  nn_free : forall k f name, (n <= k)%nat -> e_create e k = Created name -> W !! watch_key f name = None;
  nn_diff : forall k k' f f' name name', (n <= k)%nat -> (k < k')%nat -> e_create e k = Created name -> e_create e k' = Created name' ->
    watch_key f name <> watch_key f' name'
}.

(** [B] is what the rest of the turn may still add to the sequence number. *)
Record ok (e : env) (B : Z) (plans : list firingPlan) (runs : list (string * nat)) (t : turn) : Prop := {
  ok_coupled : coupled (tn_sched t) plans runs;
  ok_names : names_new e (tn_n t) (sc_watched (tn_sched t));
  ok_seq : l_seq (sc_lim (tn_sched t)) + B < 2 ^ 64
}.

Lemma names_later e n n' W W' : names_new e n W -> (n <= n')%nat -> (forall k, W !! k = None -> W' !! k = None) -> names_new e n' W'.
Proof. intros [H1 H2] Hn HW. split; [intros; eapply HW, H1; [|done]; lia|intros k k' ?????; apply H2; lia]. Qed.

Lemma quiet_ok {A} e B plans runs (m : M A) : quiet m -> triple e (ok e B plans runs) m (fun _ => ok e B plans runs).
Proof.
  intros Hq t [Hc Hn Hs]. destruct (Hq e t) as (E1 & E2 & E3). split; [by eapply coupled_ext|rewrite E2; by eapply names_later|by rewrite E1].
Qed.

Lemma ok_budget e B B' plans runs t : B' <= B -> ok e B plans runs t -> ok e B' plans runs t.
Proof. intros HB [Hc Hn Hs]. split; [done|done|lia]. Qed.

(** Continuing a turn after a change of the scheduler. *)
Lemma modify_ok e B plans runs plans' runs' f (P : turn -> Prop) :
  (forall t, P t -> ok e B plans runs t) ->
  (forall t, P t -> coupled (f (tn_sched t)) plans' runs' /\ (forall k, sc_watched (tn_sched t) !! k = None -> sc_watched (f (tn_sched t)) !! k = None) /\
    l_seq (sc_lim (f (tn_sched t))) = l_seq (sc_lim (tn_sched t))) ->
  triple e P (modify f) (fun _ => ok e B plans' runs').
Proof.
  intros HP Hf t Ht. destruct (HP t Ht) as [Hc Hn Hs], (Hf t Ht) as (Hc' & HW & Eq). split; simpl; [done|by eapply names_later|by rewrite Eq].
Qed.

(** ** Starting a run *)

Section start.
Context (e : env) (B : Z) (plans : list firingPlan).

Lemma create_fresh n W f name w : names_new e n W -> e_create e n = Created name -> wa_key w = watch_key f name ->
  W !! wa_key w = None /\ names_new e (S n) (<[wa_key w := w]> W).
Proof.
  intros [H1 H2] He Hw. split; [rewrite Hw; by eapply H1|]. split.
  - intros k f' name' Hk He'. rewrite Hw, lookup_insert_ne; [eapply H1; [|done]; lia|]. eapply H2; [|apply Hk|done|done]. done.
  - intros k k' ?????. apply H2. lia.
Qed.

(** The state after a create succeeded, before its outcome line. *)
Lemma after_create {A} (m : M A) t s' runs : quiet m -> coupled s' plans runs -> names_new e (S (tn_n t)) (sc_watched s') ->
  l_seq (sc_lim s') + B < 2 ^ 64 -> forall acts lines, ok e B plans runs (snd (m e (MkTurn (S (tn_n t)) s' acts lines))).
Proof. intros Hm Hc Hn Hs acts lines. by apply (quiet_ok e B plans runs m Hm). Qed.

Lemma startRun_run f ag prompt ev log q runs now :
  triple e (fun t => ok e B plans ((f, q) :: runs) t /\ ag = r_def (run (sc_lim (tn_sched t)) q))
    (startRun f ag prompt ev log (Some q) now) (fun _ => ok e B plans runs).
Proof.
  intros t [[Hc Hn Hs] ->]. unfold startRun, bind at 1. cbn [question]. destruct (e_create e (tn_n t)) as [name|msg|msg] eqn:He.
  - set (w := MkWatched f name _ _ _ _ _ _ _ _ _ _ _). destruct (create_fresh _ _ f name w Hn He eq_refl) as [Hfree Hn'].
    apply (after_create (appendTriggerOutcome _ _ _ _ _ _;; ret true) t (set_lim (started q (wa_key w) (sc_lim (tn_sched t))) (set_watched (<[wa_key w := w]> (sc_watched (tn_sched t))) (tn_sched t)))); [quiet|by apply (coupled_started _ _ f q runs w)|done|].
    cbn [sc_lim set_lim]. by rewrite started_seq_eq.
  - apply (after_create (appendTriggerOutcome _ _ _ _ _ _;; ret false) t (set_lim (requeue q (WMessage msg) (sc_lim (tn_sched t))) (tn_sched t))); [quiet|by eapply coupled_requeue|eapply names_later; [exact Hn|lia|done]|].
    cbn [sc_lim set_lim]. by rewrite (requeue_seq_eq _ _ _ _ _ _ Hc).
  - apply (after_create (appendTriggerOutcome _ _ _ _ _ _;; ret false) t (set_lim (started q "" (sc_lim (tn_sched t))) (tn_sched t))); [quiet|by eapply coupled_failed|eapply names_later; [exact Hn|lia|done]|].
    cbn [sc_lim set_lim]. by rewrite started_seq_eq.
Qed.

Lemma startRun_direct f ag prompt ev log runs now :
  triple e (ok e B plans runs) (startRun f ag prompt ev log None now) (fun _ => ok e B plans runs).
Proof.
  intros t [Hc Hn Hs]. unfold startRun, bind at 1. cbn [question]. destruct (e_create e (tn_n t)) as [name|msg|msg] eqn:He.
  - set (w := MkWatched f name _ _ _ _ _ _ _ _ _ _ _). destruct (create_fresh _ _ f name w Hn He eq_refl) as [Hfree Hn'].
    apply (after_create (appendTriggerOutcome _ _ _ _ _ _;; ret true) t (watch w (tn_sched t))); [quiet|by apply (coupled_hold _ _ _ w)|done|].
    cbn [sc_lim set_lim set_watched watch]. by rewrite hold_seq_eq.
  - apply (after_create (appendTriggerOutcome _ _ _ _ _ _;; ret false) t (tn_sched t)); [quiet|done|eapply names_later; [exact Hn|lia|done]|done].
  - apply (after_create (ret tt;; appendTriggerOutcome _ _ _ _ _ _;; ret false) t (tn_sched t)); [quiet|done|eapply names_later; [exact Hn|lia|done]|done].
Qed.
End start.

(** ** Firings *)

Section firing.
Context (e : env) (rest : list firingPlan).

(** The firing is committed, its runs still in its plan. *)
Definition recorded (B : Z) (p : firingPlan) (runs : list (string * nat)) (ev : triggerEvent) (log : string) (t : turn) : Prop :=
  exists s0, coupled s0 (p :: rest) runs /\ sc_lim (tn_sched t) = commit p ev log (sc_lim s0) /\ sc_watched (tn_sched t) = sc_watched s0 /\
    names_new e (tn_n t) (sc_watched s0) /\ l_seq (sc_lim s0) + B < 2 ^ 64.

Lemma recorded_quiet {A} B p runs ev log (m : M A) : quiet m -> triple e (recorded B p runs ev log) m (fun _ => recorded B p runs ev log).
Proof.
  intros Hq t (s0 & Hc & E1 & E2 & Hn & Hs). destruct (Hq e t) as (F1 & F2 & F3). exists s0. split_and!; [done|congruence|congruence| |done].
  by eapply names_later.
Qed.

Lemma recorded_take B p runs ev log t : recorded B p runs ev log t -> ok e B rest (runs ++ map (pair (pl_fleet p)) (pl_start p)) t.
Proof.
  intros (s0 & Hc & E1 & E2 & Hn & Hs). split; [|by rewrite E2|rewrite E1, commit_seq_eq; done].
  eapply coupled_ext; [| |apply (coupled_take s0 p rest runs ev log Hc)]; [exact E1|exact E2].
Qed.

Lemma recordFiring_ok B p runs body now :
  triple e (ok e B (p :: rest) runs) (recordFiring p body now)
    (fun r t => match r with None => ok e B rest runs t | Some (ev, log) => recorded B p runs ev log t end).
Proof.
  unfold recordFiring. set (ev := MkEvent _ _ _ _ _). cbv zeta.
  assert (triple e (ok e B (p :: rest) runs) (let! log := question e_log in on_lim (commit p ev log);; record_outcomes p log now;; ret (Some (ev, log)))
            (fun r t => match r with None => ok e B rest runs t | Some (ev, log) => recorded B p runs ev log t end)) as Hrun.
  { eapply triple_bind; [apply quiet_ok; quiet|]. intros log.
    apply (triple_bind _ _ _ _ (fun _ => recorded B p runs ev log)); [intros t [Hc Hn Hs]; exists (tn_sched t); split_and!; done|]. intros ?.
    eapply triple_bind; [apply recorded_quiet, quiet_outcomes|]. intros ?. by intros t. }
  destruct (pl_dropped p) eqn:Ed; [exact Hrun|]. destruct (pl_direct p); [|exact Hrun]. destruct (pl_start p) eqn:Es; [|exact Hrun].
  destruct (pl_queued p) eqn:Eq; [|exact Hrun]. destruct (pl_refused p); [|exact Hrun].
  intros t [Hc Hn Hs]. split; simpl; [|done|done]. pose proof (coupled_take _ _ _ _ ev "" Hc) as Ht. rewrite Es in Ht. simpl in Ht.
  rewrite app_nil_r in Ht. eapply coupled_ext; [| |exact Ht]; [|done]. simpl. unfold commit. by rewrite Es, Eq.
Qed.

(** The invariant with the runs of a list still to start. *)
Lemma start_all B f ev log now prompt_of qs :
  triple e (ok e B rest (map (pair f) qs))
    (for_any qs (fun q => let! s := get_sched in
       startRun f (r_def (run (sc_lim s) q)) (prompt_of (run (sc_lim s) q)) (Some ev) log (Some q) now))
    (fun _ => ok e B rest []).
Proof.
  apply (triple_for_any e (fun qs => ok e B rest (map (pair f) qs))). intros q qs'. simpl.
  apply (triple_bind _ _ _ _ (fun s t => ok e B rest ((f, q) :: map (pair f) qs') t /\ s = tn_sched t)); [by intros t|].
  intros s. eapply triple_pre; [|apply startRun_run]. simpl. by intros t [? ->].
Qed.

Lemma runFiring_ok B p body now : triple e (ok e B (p :: rest) []) (runFiring p body now) (fun _ => ok e B rest []).
Proof.
  unfold runFiring. eapply triple_bind; [apply recordFiring_ok|]. intros [[ev log]|]; [|apply (triple_ret e false (fun _ => ok e B rest []))].
  destruct (pl_dropped p) eqn:Ed.
  { intros t Hr. simpl. assert (pl_start p = []) as Hp.
    { destruct Hr as (s0 & [_ _ _ Hp _] & _). apply Forall_cons in Hp as [[Hp _] _]. apply Hp. by rewrite Ed. }
    apply recorded_take in Hr. by rewrite Hp in Hr. }
  eapply triple_pre; [apply recorded_take|]. simpl.
  eapply triple_bind; [apply (triple_for_any e (fun _ => ok e B rest (map (pair (pl_fleet p)) (pl_start p)))); intros; apply startRun_direct|].
  intros a. eapply triple_bind; [apply start_all|]. intros b. apply quiet_ok. quiet.
Qed.

Lemma holdFiring_ok B p body now : Z.of_nat (length (pl_direct p)) <= B ->
  triple e (ok e B (p :: rest) []) (holdFiring p body now) (fun _ => ok e (B - Z.of_nat (length (pl_direct p))) rest []).
Proof.
  intros HB. unfold holdFiring. eapply triple_bind; [apply recordFiring_ok|].
  intros [[ev log]|]; [|intros t Hr; by eapply ok_budget; [|exact Hr]; lia].
  destruct (pl_dropped p) eqn:Ed.
  { intros t Hr. simpl. assert (pl_start p = []) as Hp.
    { destruct Hr as (s0 & [_ _ _ Hp _] & _). apply Forall_cons in Hp as [[Hp _] _]. apply Hp. by rewrite Ed. }
    apply recorded_take in Hr. rewrite Hp in Hr. by eapply ok_budget; [|exact Hr]; lia. }
  intros t (s0 & Hc & E1 & E2 & Hn & Hs). unfold bind at 1. cbn [get_sched]. rewrite E1.
  pose proof (coupled_postpone s0 p rest [] ev log WStopped now Hc ltac:(lia)) as Hc'.
  pose proof (postpone_seq_le s0 p rest [] ev log WStopped now Hc ltac:(lia)) as Hsq.
  destruct (postpone p (Some ev) log WStopped now (commit p ev log (sc_lim s0))) as [l runs]. simpl in Hc', Hsq.
  eapply (quiet_ok e _ rest [] (for_each runs _)); [quiet|]. split; simpl; [by eapply coupled_ext; [| |exact Hc']|by rewrite E2|].
  lia.
Qed.
End firing.

(** ** Planning *)

(** Answers the code relies on: no connection is named "", and the state is one the configuration accepts. *)
Record env_ok (e : env) : Prop := {
  eo_checks : forall n, checks_ok (e_checks e n);
  eo_state : forall n st, e_load e n = Some st -> good_state st
}.

Lemma env_load e n : env_ok e -> good_state (loadOrEmpty (e_load e n)).
Proof. intros [_ H]. destruct (e_load e n) eqn:E; simpl; [by eapply H|apply good_empty]. Qed.

Definition item_good (st : State) (it : firingItem) : Prop :=
  NoDup (map ag_name (item_agents st it)) /\ forall ag, ag ∈ item_agents st it -> ag_name ag <> "".

Lemma ask_direct c st f t firing now agents : forall a,
  (length (as_direct (foldl (ask c st f t firing now) a agents)) <= length (as_direct a) + length agents)%nat.
Proof.
  induction agents as [|ag agents IH]; intros a; simpl; [lia|]. etrans; [apply IH|]. unfold ask.
  destruct (negb _); [simpl; rewrite length_app; simpl; lia|]. destruct (refusal _ _ _ _); simpl; lia.
Qed.

Lemma planLocked_direct c st f t agents now l : (length (pl_direct (snd (planLocked c st f t agents now l))) <= length agents)%nat.
Proof.
  unfold planLocked. cbv zeta. destruct (_ && _); [simpl; lia|]. destruct (reserve_all _ _ _) as [l' marks]. simpl.
  etrans; [apply ask_direct|]. simpl. lia.
Qed.

Definition directs_within (st : State) (it : firingItem) (p : firingPlan) : Prop := (length (pl_direct p) <= length (item_agents st it))%nat.

Lemma plan_directs c load items now l : Forall2 (directs_within (loadOrEmpty load)) items (snd (plan c load items now l)).
Proof.
  unfold plan. cbv zeta. set (step := fun '(l, plans) it => _).
  assert (forall l ps its, Forall2 (directs_within (loadOrEmpty load)) its ps ->
    Forall2 (directs_within (loadOrEmpty load)) (its ++ items) (snd (foldl step (l, ps) items))) as H.
  { induction items as [|it items IH]; intros l' ps its Hi; simpl; [by rewrite app_nil_r|].
    pose proof (planLocked_direct c (loadOrEmpty load) (fi_fleet it) (fi_trigger it) (item_agents (loadOrEmpty load) it) now l') as Hd.
    destruct (planLocked _ _ _ _ _ _ l') as [l1 p]. simpl in Hd. replace (its ++ it :: items) with ((its ++ [it]) ++ items) by (by rewrite <- app_assoc).
    apply IH. apply Forall2_app; [done|]. by constructor. }
  by apply (H l [] []).
Qed.

Lemma plan_items_ok e B cost plans runs items now :
  env_ok e -> 0 <= B -> (forall st, good_state st -> asked_agents st items <= cost /\ Forall (item_good st) items) ->
  triple e (ok e (B + cost) plans runs) (plan_items items now)
    (fun ps t => ok e B (plans ++ ps) runs t /\ exists st, good_state st /\ Forall2 (directs_within st) items ps).
Proof.
  intros He HB Hi. unfold plan_items.
  apply (triple_bind _ _ _ _ (fun c t => checks_ok c /\ ok e (B + cost) plans runs t)).
  { intros t Ht. split; [apply He|]. by apply (quiet_ok e _ _ _ (question e_checks)); [quiet|]. }
  intros c. apply (triple_bind _ _ _ _ (fun load t => (checks_ok c /\ good_state (loadOrEmpty load)) /\ ok e (B + cost) plans runs t)).
  { intros t [Hc Ht]. split; [split; [done|by apply env_load]|]. by apply (quiet_ok e _ _ _ (question e_load)); [quiet|]. }
  intros load. apply triple_fact. intros [Hchk Hgs]. destruct (Hi _ Hgs) as [Hcost Hgood].
  apply triple_get. intros s t [-> [Hc Hn Hs]]. destruct (coupled_plan _ _ _ c load items now Hc) as [Hc' Hsq]; [done|lia|done|].
  pose proof (plan_directs c load items now (sc_lim (tn_sched t))) as Hdir.
  destruct (plan c load items now (sc_lim (tn_sched t))) as [l ps]. simpl in *. split; [|exists (loadOrEmpty load); split; [exact Hgs|exact Hdir]].
  split; simpl; [done|done|lia].
Qed.

(** ** Batches *)

Definition plans_of (batch : list triggerFire) : list firingPlan := omap tf_plan batch.
Definition refs (f : triggerFire) : Z := Z.of_nat (length (tr_agentNames (tf_trigger f))).

(** What planning and postponing a fire can add to the sequence number. *)
Definition fire_cost (f : triggerFire) : Z :=
  match tf_plan f with Some p => Z.of_nat (length (pl_direct p)) | None => 1 + 2 * refs f end.
Fixpoint fires_cost (batch : list triggerFire) : Z :=
  match batch with [] => 0 | f :: rest => fire_cost f + fires_cost rest end.

Definition fire_ok (f : triggerFire) : Prop := NoDup (tr_agentNames (tf_trigger f)).

Fixpoint plan_cost (batch : list triggerFire) : Z :=
  match batch with [] => 0 | f :: rest => match tf_plan f with None => 1 + refs f | Some _ => 0 end + plan_cost rest end.

Lemma fires_cost_nonneg batch : 0 <= fires_cost batch.
Proof. induction batch as [|f batch IH]; simpl; [lia|]. unfold fire_cost, refs. destruct (tf_plan f); lia. Qed.

Lemma plan_cost_le batch : plan_cost batch <= fires_cost batch.
Proof. induction batch as [|f batch IH]; simpl; [lia|]. unfold fire_cost, refs. destruct (tf_plan f); lia. Qed.

Lemma agents_refs (st : State) f t : (length (agentsForTrigger (st !! f) t) <= length (tr_agentNames t))%nat.
Proof.
  destruct (st !! f) as [fl|]; simpl; [|lia].
  pose proof (sublist_length _ _ (agents_named_names (st_agents (fl_settings fl)) (tr_agentNames t))) as H. by rewrite length_map in H.
Qed.

Lemma unplanned_cons f batch : unplanned (f :: batch) =
  match tf_plan f with None => MkItem (tf_fleet f) (tf_trigger f) None :: unplanned batch | Some _ => unplanned batch end.
Proof. unfold unplanned. simpl. by destruct (tf_plan f). Qed.

Lemma unplanned_good st batch : good_state st -> Forall fire_ok batch ->
  asked_agents st (unplanned batch) <= plan_cost batch /\ Forall (item_good st) (unplanned batch).
Proof.
  intros Hg Hb. induction Hb as [|f batch Hf Hb [IH1 IH2]]; [by split|].
  rewrite unplanned_cons. cbn [plan_cost]. destruct (tf_plan f); [by split; [lia|]|]. cbn [asked_agents]. unfold item_agents at 1. cbn [fi_agents fi_fleet fi_trigger]. pose proof (agents_refs st (tf_fleet f) (tf_trigger f)).
  split; [unfold refs; lia|]. constructor; [|done]. split; simpl; [by apply refs_distinct|]. intros ag. by apply good_agents.
Qed.

Lemma assign_plans_ok st batch : forall ps, Forall2 (directs_within st) (unplanned batch) ps ->
  plans_of (assign_plans batch ps) ≡ₚ plans_of batch ++ ps /\
  Forall (fun f => is_Some (tf_plan f)) (assign_plans batch ps) /\
  fires_cost (assign_plans batch ps) + plan_cost batch <= fires_cost batch.
Proof.
  induction batch as [|f batch IH]; intros ps Hps; [by inversion Hps|]. rewrite unplanned_cons in Hps.
  cbn [assign_plans]. destruct (tf_plan f) as [p|] eqn:Ef.
  - destruct (IH ps Hps) as (H1 & H2 & H3). unfold plans_of in *. cbn [omap list_omap fires_cost plan_cost].
    unfold fire_cost. rewrite Ef. split; [simpl; by rewrite H1|]. split; [constructor; [by rewrite Ef|done]|lia].
  - apply Forall2_cons_inv_l in Hps as (p & ps' & Hd & Hps' & ->). destruct (IH ps' Hps') as (H1 & H2 & H3). unfold plans_of in *. cbn [omap list_omap fires_cost plan_cost].
    unfold fire_cost. rewrite Ef. cbn [tf_plan]. split; [simpl; rewrite H1; apply Permutation_middle|]. split; [by constructor|].
    unfold directs_within, item_agents in Hd. simpl in Hd. pose proof (agents_refs st (tf_fleet f) (tf_trigger f)). unfold refs. lia.
Qed.

Lemma planFires_ok e B others batch now : env_ok e -> 0 <= B -> Forall fire_ok batch ->
  triple e (ok e (B + fires_cost batch) (plans_of batch ++ others) []) (planFires batch now)
    (fun b t => ok e (B + fires_cost b) (plans_of b ++ others) [] t /\ Forall (fun f => is_Some (tf_plan f)) b).
Proof.
  intros He HB Hb. unfold planFires. pose proof (plan_cost_le batch) as Hle. pose proof (assign_plans_ok ∅ batch []) as Hnil. destruct (unplanned batch) as [|it items] eqn:Eu.
  { intros t Ht. simpl. split; [done|]. clear -Eu. induction batch as [|f batch IH]; [done|].
    rewrite unplanned_cons in Eu. destruct (tf_plan f) eqn:Ef; [|done]. constructor; [by rewrite Ef|by apply IH]. }
  rewrite <- Eu in *. clear Hnil Eu it items.
  assert (forall st, good_state st -> asked_agents st (unplanned batch) <= plan_cost batch /\ Forall (item_good st) (unplanned batch)) as Hi
    by (intros st Hg; by apply unplanned_good).
  replace (B + fires_cost batch) with (B + (fires_cost batch - plan_cost batch) + plan_cost batch) by lia.
  eapply triple_bind; [apply plan_items_ok; [done|lia|done]|]. intros ps t [Hok (st & Hg & Hd)]. simpl.
  destruct (assign_plans_ok st batch ps Hd) as (H1 & H2 & H3). split; [|done]. eapply ok_budget; [|destruct Hok as [Hc Hn Hs]; split; [|done|exact Hs]]; [lia|].
  eapply coupled_shuffle; [exact Hc|]. rewrite H1, <- !app_assoc. by rewrite (Permutation_app_comm ps others).
Qed.

Section operations.
Context (e : env) (He : env_ok e).

Lemma fireTriggerBatch_ok B others batch now : 0 <= B -> Forall fire_ok batch ->
  triple e (ok e (B + fires_cost batch) (plans_of batch ++ others) []) (fireTriggerBatch batch now) (fun _ => ok e B others []).
Proof.
  intros HB Hb. destruct batch as [|f batch].
  { intros t Ht. simpl in *. by rewrite Z.add_0_r in Ht. }
  eapply triple_bind; [by apply planFires_ok|]. intros b. clear Hb f batch.
  eapply triple_pre; [intros t Ht; apply and_comm in Ht; exact Ht|]. apply triple_fact. intros Hb.
  assert (triple e (fun t => Forall (fun f => is_Some (tf_plan f)) b /\ ok e B (plans_of b ++ others) [] t)
    (for_each b (fun f => fire_plan f (fun p body => let! _ := runFiring p body now in ret tt)))
    (fun _ t => Forall (fun f => is_Some (tf_plan f)) [] /\ ok e B (plans_of [] ++ others) [] t)) as H.
  { apply (triple_for_each e (fun b t => Forall (fun f => is_Some (tf_plan f)) b /\ ok e B (plans_of b ++ others) [] t)).
    intros f rest. apply triple_fact. intros [[p Ef] Hrest]%Forall_cons. unfold fire_plan, plans_of. rewrite Ef. cbn [omap list_omap]. rewrite Ef.
    eapply triple_bind; [apply (runFiring_ok e (plans_of rest ++ others) B p)|]. intros x t Ht. by split. }
  eapply triple_post; [|eapply triple_pre; [|exact H]]; [by intros x t [_ Ht]|].
  intros t Ht. split; [done|]. eapply ok_budget; [|exact Ht]. pose proof (fires_cost_nonneg b). lia.
Qed.

Lemma holdFires_ok B others batches now : 0 <= B -> Forall (Forall fire_ok) batches ->
  triple e (ok e (B + fires_cost (concat batches)) (plans_of (concat batches) ++ others) []) (holdFires batches now) (fun _ => ok e B others []).
Proof.
  intros HB Hb. destruct batches as [|b batches]; [intros t Ht; simpl in *; by rewrite Z.add_0_r in Ht|].
  set (I := fun bs t => Forall (Forall fire_ok) bs /\ ok e (B + fires_cost (concat bs)) (plans_of (concat bs) ++ others) [] t).
  unfold holdFires. eapply triple_bind; [eapply triple_pre; [|apply (triple_for_each e I)]|]; [by intros t Ht|..].
  2: { intros x. eapply triple_pre; [|apply quiet_ok; quiet]. intros t [_ Ht]. simpl in Ht. by rewrite Z.add_0_r in Ht. }
  clear b batches Hb. intros b rest. unfold I at 1. apply triple_fact. intros [Hb Hrest]%Forall_cons. simpl.
  assert (fires_cost (b ++ concat rest) = fires_cost b + fires_cost (concat rest)) as Hcost.
  { clear. induction b as [|f b IH]; simpl; [done|]. rewrite IH. lia. }
  assert (forall b', plans_of (b' ++ concat rest) ++ others = plans_of b' ++ (plans_of (concat rest) ++ others)) as Hpl.
  { intros b'. unfold plans_of. by rewrite omap_app, <- app_assoc. }
  rewrite Hcost, Hpl. pose proof (fires_cost_nonneg (concat rest)) as Hnn. clear Hcost.
  replace (B + (fires_cost b + fires_cost (concat rest))) with (B + fires_cost (concat rest) + fires_cost b) by lia.
  eapply triple_bind; [apply planFires_ok; [done|lia|done]|]. clear b Hb. intros b. eapply triple_pre; [intros t Ht; apply and_comm in Ht; exact Ht|].
  apply triple_fact. intros Hb. set (J := fun b t => Forall (fun f => is_Some (tf_plan f)) b /\
    ok e (B + fires_cost (concat rest) + fires_cost b) (plans_of b ++ (plans_of (concat rest) ++ others)) [] t).
  eapply triple_post; [|eapply triple_pre; [|apply (triple_for_each e J)]]; [|by intros t Ht|].
  - intros x t [_ Ht]. simpl in Ht. rewrite Z.add_0_r in Ht. by split.
  - intros f fs. unfold J at 1. apply triple_fact. intros [[p Ef] Hfs]%Forall_cons. unfold fire_plan, plans_of. rewrite Ef. cbn [omap list_omap fires_cost]. rewrite Ef.
    pose proof (fires_cost_nonneg fs). unfold fire_cost. rewrite Ef.
    eapply triple_post; [|apply holdFiring_ok; lia]. intros x t Ht. split; [done|]. eapply ok_budget; [|exact Ht]. lia.
Qed.

Lemma serviceQueue_ok B others now : triple e (ok e B others []) (serviceQueue now) (fun _ => ok e B others []).
Proof.
  unfold serviceQueue. apply (triple_bind _ _ _ _ (fun c t => checks_ok c /\ ok e B others [] t)).
  { intros t Ht. split; [apply He|]. by apply (quiet_ok e _ _ _ (question e_checks)); [quiet|]. }
  intros c. apply triple_fact. intros Hchk. apply (triple_bind _ _ _ _ (fun load t => good_state (loadOrEmpty load) /\ ok e B others [] t)).
  { intros t Ht. split; [by apply env_load|]. by apply (quiet_ok e _ _ _ (question e_load)); [quiet|]. }
  intros load. apply triple_fact. intros Hgs. apply triple_get. intros s. set (d := due c load (queue_keys (sc_lim s)) now (sc_lim s)). cbv zeta.
  set (I := fun qs => ok e B others (map (fun q => (r_fleet (run (d_l d) q), q)) qs)).
  apply (triple_bind _ _ _ _ (fun _ => I (d_start d))).
  { intros t [-> [Hc Hn Hs]]. pose proof (coupled_due _ others [] c load now Hc Hchk Hgs) as Hd. fold d in Hd.
    split; [exact Hd|done|]. change (l_seq (d_l d) + B < 2 ^ 64). unfold d. by rewrite due_seq_eq. }
  intros ?. eapply triple_bind; [apply quiet_ok; quiet|]. intros ?. eapply triple_bind; [apply quiet_ok; quiet|]. intros ?.
  eapply (triple_bind _ _ _ _ (fun _ => I [])); [apply (triple_for_any e I)|intros fired; apply quiet_ok; quiet].
  intros q qs. apply triple_get. intros s' t [-> Ht]. cbv zeta. destruct (coupled_head _ _ _ _ _ (ok_coupled _ _ _ _ _ Ht)) as (_ & -> & _).
  by apply startRun_run.
Qed.

(** *** The watched instances *)

Lemma unwatch_ok B others k : is_watch_key k -> triple e (ok e B others []) (modify (unwatch k)) (fun _ => ok e B others []).
Proof.
  intros Hk. eapply modify_ok; [by intros t Ht; exact Ht|]. intros t [Hc Hn Hs]. split; [by apply coupled_unwatch|]. split.
  - intros k' Hk'. simpl. apply lookup_delete_None. by right.
  - simpl. apply release_seq_eq.
Qed.

Lemma touch_ok B others k f : (forall w, wa_fleet (f w) = wa_fleet w /\ wa_instance (f w) = wa_instance w /\ wa_agent (f w) = wa_agent w) ->
  triple e (ok e B others []) (touch_watched k f) (fun _ => ok e B others []).
Proof.
  intros Hf. eapply modify_ok; [by intros t Ht; exact Ht|]. intros t [Hc Hn Hs]. split; [by apply coupled_touch|]. split; [|done].
  intros k' Hk'. simpl. apply lookup_alter_None. done.
Qed.

Lemma service_one_ok B others st now k w : is_watch_key k ->
  triple e (ok e B others []) (service_one st now (k, w)) (fun out t => Forall (fun c => is_watch_key (fst (fst c))) out /\ ok e B others [] t).
Proof.
  intros Hk. unfold service_one.
  assert (forall m, triple e (ok e B others []) m (fun _ : unit => ok e B others []) -> triple e (ok e B others []) (m;; ret [])
    (fun out t => Forall (fun c : string * watchedAgent * Instance_ => is_watch_key (fst (fst c))) out /\ ok e B others [] t)) as Hret.
  { intros m Hm. eapply triple_bind; [exact Hm|]. intros ?. by intros t. }
  destruct (findInstance _ _ _) as [inst|]; [|by apply Hret, unwatch_ok].
  destruct (in_status inst); try by intros t.
  - eapply triple_bind; [apply quiet_ok; quiet|]. intros ts. apply Hret. destruct (createOverdue _ _ _ _); [|by intros t].
    eapply triple_bind; [apply quiet_ok; quiet|]. intros ?. by apply unwatch_ok.
  - destruct (negb _); [|intros t Ht; split; [by constructor|done]]. eapply triple_bind; [apply quiet_ok; quiet|]. intros ?. by apply Hret, touch_ok.
  - eapply triple_bind; [apply quiet_ok; quiet|]. intros ?. by apply Hret, unwatch_ok.
Qed.

Lemma apply_activity_ok B others now k w inst r : is_watch_key k ->
  triple e (ok e B others []) (apply_activity now (k, w, inst, r)) (fun _ => ok e B others []).
Proof.
  intros Hk. unfold apply_activity. destruct r as [pr|]; [|by intros t]. eapply triple_bind; [by apply touch_ok|]. intros ?.
  destruct (pr_working pr); [by apply touch_ok|]. eapply triple_bind; [apply quiet_ok; quiet|]. intros ts. cbv zeta.
  destruct (_ <=? _); [|by intros t]. eapply triple_bind; [apply quiet_ok; quiet|]. intros err.
  eapply triple_bind; [apply quiet_ok; quiet|]. intros ?. by apply unwatch_ok.
Qed.

Lemma serviceWatched_ok B others st now : triple e (ok e B others []) (serviceWatched st now) (fun _ => ok e B others []).
Proof.
  unfold serviceWatched. apply triple_get. intros s. set (K := fun c : string * watchedAgent * Instance_ => is_watch_key (fst (fst c))).
  apply (triple_bind _ _ _ _ (fun checks t => Forall K checks /\ ok e B others [] t)).
  { intros t [-> Ht]. pose proof Ht as Ht0. revert Ht. apply (triple_for_concat e (ok e B others []) K). intros [k w] Hin. apply service_one_ok.
    apply elem_of_map_to_list in Hin. rewrite (cp_keys _ _ _ (ok_coupled _ _ _ _ _ Ht0) _ _ Hin). apply watch_key_slash. }
  intros checks. apply triple_fact. intros Hch.
  apply (triple_bind _ _ _ _ (fun rs t => Forall (fun r => K (fst r)) rs /\ ok e B others [] t)).
  { apply (triple_for_concat e (ok e B others []) (fun r => K (fst r))). intros [[k w] inst] Hc. rewrite Forall_forall in Hch. unfold ask_probe.
    eapply triple_bind; [apply quiet_ok; quiet|]. intros r t Ht. split; [constructor; [by apply Hch|done]|done]. }
  intros rs. apply triple_fact. intros Hrs.
  eapply triple_post; [|eapply triple_pre; [|apply (triple_for_each e (fun rs t => Forall (fun r => K (fst r)) rs /\ ok e B others [] t))]];
    [by intros x t [_ Ht]|by intros t Ht|].
  intros [[[k w] inst] r] rest. apply triple_fact. intros [Hk Hrest]%Forall_cons. eapply triple_post; [|by apply apply_activity_ok].
  intros x t Ht. by split.
Qed.

(** *** A tick *)

Definition due_cost (ft : string * Trigger) : Z := 1 + Z.of_nat (length (tr_agentNames (snd ft))).
Fixpoint dues_cost (dues : list (string * Trigger)) : Z := match dues with [] => 0 | ft :: rest => due_cost ft + dues_cost rest end.

Definition due_good (st : State) (ft : string * Trigger) : Prop := exists fl, st !! fst ft = Some fl /\ snd ft ∈ st_triggers (fl_settings fl).

Lemma dues_cost_nonneg dues : 0 <= dues_cost dues.
Proof. induction dues; simpl; unfold due_cost in *; lia. Qed.

Lemma fire_due_ok B others st now ft : 0 <= B -> good_state st -> due_good st ft ->
  triple e (ok e (B + due_cost ft) others []) (fire_due st now ft) (fun _ => ok e B others []).
Proof.
  intros HB Hg Hd. destruct ft as [f t]. destruct Hd as (fl & Efl & Ht). simpl in Efl, Ht.
  assert (forall t', ok e (B + due_cost (f, t)) others [] t' -> ok e B others [] t') as Hdrop
    by (intros t' H; eapply ok_budget; [|exact H]; unfold due_cost; lia).
  unfold fire_due. destruct (String.eqb _ _).
  { eapply triple_pre; [exact Hdrop|]. eapply triple_bind; [apply quiet_ok; quiet|]. intros ?. by intros t'. }
  pose proof (agents_refs st f t) as Hlen. pose proof (refs_distinct st f t (proj2 (Hg _ _ Efl) _ Ht)) as Hnd.
  pose proof (fun ag => good_agents st f t ag Hg) as Hne. unfold fireTriggerAgents. destruct (agentsForTrigger (st !! f) t) as [|ag ags] eqn:Ea.
  { intros t' H. by apply Hdrop. }
  eapply triple_bind; [apply plan_items_ok; [done|done|]|].
  - intros st' _. cbn [asked_agents]. unfold item_agents. cbn [fi_agents]. split; [unfold due_cost; simpl in *; lia|].
    constructor; [|done]. by split.
  - intros ps. eapply triple_pre; [intros t' H; apply and_comm in H; exact H|]. apply triple_fact. intros (st' & _ & Hps).
    apply Forall2_cons_inv_l in Hps as (p & ps' & _ & Hps' & ->). apply Forall2_nil_inv_l in Hps' as ->.
    eapply triple_pre; [|apply runFiring_ok]. intros t' [Hc Hn Hs]. split; [|done|done]. eapply coupled_shuffle; [exact Hc|]. by rewrite Permutation_app_comm.
Qed.

Lemma due_trigger_sub clock_of now name ts : forall s, Forall (fun ft => fst ft = name /\ snd ft ∈ ts \/ ft ∈ cs_out s)
  (cs_out (foldl (due_trigger clock_of now name) s ts)).
Proof.
  induction ts as [|t ts IH]; intros s; simpl; [apply Forall_forall; by right|].
  eapply Forall_impl; [apply IH|]. simpl. intros ft [[? ?]|Hin]; [left; set_solver|]. unfold due_trigger in Hin.
  destruct (negb (IsCron _)); [by right|]. destruct (tr_disabled t); [by right|]. destruct (String.eqb _ _); [by right|].
  destruct (ParseCron _); [|by right]. destruct (negb (Cron_Matches _ _)); [by right|].
  assert (ft ∈ cs_out s ++ [(name, t)] -> (fst ft = name /\ snd ft ∈ t :: ts) \/ ft ∈ cs_out s) as Happ.
  { intros [?| ->%list_elem_of_singleton]%elem_of_app; [by right|]. left. set_solver. }
  simpl in Hin. destruct (cs_fired s !! _); [destruct (negb _)|]; simpl in Hin; auto.
Qed.

Lemma dueCronTriggers_sub clock_of st now lastFired : Forall (due_good st) (snd (dueCronTriggers clock_of st now lastFired)).
Proof.
  unfold dueCronTriggers. simpl. assert (forall nfs s, (forall n f, (n, f) ∈ nfs -> st !! n = Some f) -> Forall (due_good st) (cs_out s) ->
    Forall (due_good st) (cs_out (foldl (due_fleet clock_of now) s nfs))) as H.
  { induction nfs as [|[n f] nfs IH]; intros s Hn Hs; simpl; [done|]. apply IH; [intros; apply Hn; set_solver|].
    eapply Forall_impl; [apply due_trigger_sub|]. simpl. intros [n' t] [[E Ht]|Hin]; [simpl in E, Ht; subst n'|by rewrite Forall_forall in Hs; apply Hs].
    exists f. split; [apply Hn; set_solver|done]. }
  apply H; [|by constructor]. intros n f. apply elem_of_map_to_list.
Qed.

Lemma schedulerTick_ok clock_of B others now : 0 <= B ->
  triple e (fun t => ok e B others [] t /\ forall st, e_load e (tn_n t) = Some st ->
      l_seq (sc_lim (tn_sched t)) + B + dues_cost (snd (dueCronTriggers clock_of st now (sc_lastFired (tn_sched t)))) < 2 ^ 64)
    (schedulerTick clock_of now) (fun _ => ok e B others []).
Proof.
  intros HB. unfold schedulerTick.
  apply (triple_bind _ _ _ _ (fun load t => (forall st, load = Some st -> good_state st) /\ ok e B others [] t /\
    forall st, load = Some st -> l_seq (sc_lim (tn_sched t)) + B + dues_cost (snd (dueCronTriggers clock_of st now (sc_lastFired (tn_sched t)))) < 2 ^ 64)).
  { intros t [Ht Hr]. split; [intros st; apply He|]. split; [|done]. by apply (quiet_ok e B others [] (question e_load)); [quiet|]. }
  intros [st|]; [|intros t (_ & Ht & _); exact Ht]. apply triple_fact. intros Hst. specialize (Hst st eq_refl). apply triple_get. intros s.
  pose proof (dueCronTriggers_sub clock_of st now (sc_lastFired s)) as Hd.
  apply (triple_pre _ (fun t => ok e (B + dues_cost (snd (dueCronTriggers clock_of st now (sc_lastFired s)))) others [] t)).
  { intros t [-> [[Hc Hn Hs] Hr]]. split; [done|done|]. specialize (Hr st eq_refl). lia. }
  destruct (dueCronTriggers clock_of st now (sc_lastFired s)) as [lastFired dues]. simpl in Hd |- *.
  eapply triple_bind; [apply quiet_ok; quiet|]. intros ?. eapply triple_bind; [apply quiet_ok; quiet|]. intros ?.
  apply (triple_bind _ _ _ _ (fun _ => ok e B others [])).
  { set (I := fun dues t => Forall (due_good st) dues /\ ok e (B + dues_cost dues) others [] t).
    eapply triple_post; [|eapply triple_pre; [|apply (triple_for_any e I)]]; [intros b t [_ Ht]; simpl in Ht; by rewrite Z.add_0_r in Ht|by intros t Ht|].
    intros ft rest. unfold I at 1. apply triple_fact. intros [Hft Hrest]%Forall_cons. simpl. pose proof (dues_cost_nonneg rest).
    replace (B + (due_cost ft + dues_cost rest)) with (B + dues_cost rest + due_cost ft) by lia.
    eapply triple_post; [|apply fire_due_ok; [lia|done|done]]. intros b t Ht. by split. }
  intros fired. eapply triple_bind; [apply quiet_ok; destruct fired; quiet|]. intros st'.
  eapply triple_bind; [apply serviceWatched_ok|]. intros ?. apply serviceQueue_ok.
Qed.
End operations.
