(* ===== verification/Webhook.v ===== *)
(** * The webhook receiver (internal/server/webhook.go)

    One delivery: the triggers of its name, its filters, the plan of each matching
    firing, the hand-over to the scheduler, and the reply. Matching a regular
    expression and decoding JSON are parameters. *)

From S2P Require Import Prelude GoStrings GoText Entry JsonPath Automation FleetState Limiter LimiterLedger LimiterPlan LimiterOps LimiterSystem LimiterClaims Scheduler SchedulerSlots SchedulerRun.
Local Open Scope string_scope.
Local Open Scope Z_scope.
Local Open Scope list_scope.

Definition maxWebhookBodySize : Z := 2 ^ 20.

Definition firstPathSegment (p : string) : string :=
  let p := default p (CutPrefix p "/") in
  match cut_byte slash p with Some (seg, _) => seg | None => p end.

Section webhook.
(** regexp.Compile; json.Decoder with numbers kept as text, as the filter decodes, and with numbers as
    float64, as bodyIsJSON does. *)
Context (compile : string -> option (string -> bool)) (decode : string -> option json) (decodes : string -> bool).

Record collected := MkCollected { co_fires : list triggerFire; co_nameFound : bool; co_jsonPathActive : bool }.

Definition collect_trigger (fleetName name body : string) (r : collected) (t : Trigger) : collected :=
  if negb (String.eqb (tr_type t) TriggerWebhook) || negb (String.eqb (tr_webhookName t) name) then r
  else if tr_disabled t then MkCollected (co_fires r) true (co_jsonPathActive r)
  else
    MkCollected (if MatchesWebhook compile decode t body then co_fires r ++ [MkFire fleetName t body None] else co_fires r) true
      (String.eqb (tr_filterType t) WebhookFilterJSONPath || co_jsonPathActive r).

Definition collectWebhookFires (st : State) (name body : string) : collected :=
  foldl (fun r nf => foldl (collect_trigger (fst nf) name body) r (st_triggers (fl_settings (snd nf)))) (MkCollected [] false false)
    (map_to_list st).

Definition bodyIsJSON (body : string) : bool := decodes body.

Inductive reply :=
| RNameRequired | RBodyTooLarge | RStateUnreadable | RNoSuchName | RNotJSON | RNothingMatched
| RQueuesFull (triggers : list string) (retrySeconds : Z)
| RBusy
| RFired (fired : Z)
| RAccepted (fired queued : Z) (dropped : list string).

Definition status (r : reply) : Z :=
  match r with
  | RNameRequired | RNotJSON => 400
  | RBodyTooLarge => 413
  | RStateUnreadable => 500
  | RNoSuchName => 404
  | RNothingMatched | RFired _ => 200
  | RQueuesFull _ _ => 429
  | RBusy => 503
  | RAccepted _ _ _ => 202
  end.

Record tally := MkTally { ta_fired : Z; ta_queued : Z; ta_dropped : list string; ta_retryAfter : Z }.

Definition count_plan (a : tally) (p : firingPlan) : tally :=
  match pl_dropped p with
  | Some _ =>
      MkTally (ta_fired a) (ta_queued a) (ta_dropped a ++ [tr_name (pl_trigger p)])
        (if (ta_retryAfter a =? 0) || (pl_retryAfter p <? ta_retryAfter a) then pl_retryAfter p else ta_retryAfter a)
  | None => if fired p then MkTally (ta_fired a + 1) (ta_queued a) (ta_dropped a) (ta_retryAfter a)
            else MkTally (ta_fired a) (ta_queued a + 1) (ta_dropped a) (ta_retryAfter a)
  end.

Definition fire_items (fires : list triggerFire) : list firingItem := map (fun f => MkItem (tf_fleet f) (tf_trigger f) None) fires.

(** The hand-over of the planned fires, [handed] telling whether the scheduler took them in time. *)
Definition deliver (c : runChecks) (load : option State) (now : Z) (handed : bool) (fires : list triggerFire) (l : automationLimiter) :
    reply * automationLimiter * option (list triggerFire) :=
  let '(l, plans) := plan c load (fire_items fires) now l in
  let a := foldl count_plan (MkTally 0 0 [] 0) plans in
  if bool_decide (length (ta_dropped a) = length plans) then
    (RQueuesFull (ta_dropped a) (Z.max (wrap64 (ta_retryAfter a + second - 1) ÷ second) 1), l, None)
  else if negb handed then (RBusy, discard plans l, None)
  else
    (if (ta_queued a =? 0) && bool_decide (ta_dropped a = []) then RFired (ta_fired a) else RAccepted (ta_fired a) (ta_queued a) (ta_dropped a),
     l, Some (assign_plans fires plans)).

(** [read] is the body when it could be read, [load] and [load'] two readings of the state. *)
Definition serveWebhook (path : string) (read : option string) (load : option State) (c : runChecks) (load' : option State) (now : Z)
    (handed : bool) (l : automationLimiter) : reply * automationLimiter * option (list triggerFire) :=
  let name := firstPathSegment path in
  if String.eqb name "" then (RNameRequired, l, None)
  else match read with
  | None => (RBodyTooLarge, l, None)
  | Some body =>
      if maxWebhookBodySize <? Z.of_nat (String.length body) then (RBodyTooLarge, l, None)
      else match load with
      | None => (RStateUnreadable, l, None)
      | Some st =>
          let r := collectWebhookFires st name body in
          if negb (co_nameFound r) then (RNoSuchName, l, None)
          else if co_jsonPathActive r && negb (bodyIsJSON body) then (RNotJSON, l, None)
          else match co_fires r with
          | [] => (RNothingMatched, l, None)
          | fires => deliver c load' now handed fires l
          end
      end
  end.

(** ** Which triggers fire *)

Definition named_so (name : string) (t : Trigger) : bool := String.eqb (tr_type t) TriggerWebhook && String.eqb (tr_webhookName t) name.
Definition fires_on (name body : string) (t : Trigger) : bool := named_so name t && negb (tr_disabled t) && MatchesWebhook compile decode t body.

Definition fleet_fires (name body : string) (nf : string * Fleet) : list triggerFire :=
  map (fun t => MkFire (fst nf) t body None) (filter (fun t => fires_on name body t = true) (st_triggers (fl_settings (snd nf)))).

Lemma collect_triggers f name body ts : forall r,
  let r' := foldl (collect_trigger f name body) r ts in
  co_fires r' = co_fires r ++ map (fun t => MkFire f t body None) (filter (fun t => fires_on name body t = true) ts) /\
  co_nameFound r' = co_nameFound r || existsb (named_so name) ts.
Proof.
  induction ts as [|t ts IH]; intros r; cbn [foldl existsb]; [by rewrite app_nil_r, orb_false_r|].
  destruct (IH (collect_trigger f name body r t)) as [-> ->]. unfold collect_trigger. destruct (named_so name t) eqn:En.
  - pose proof En as En'. unfold named_so in En'. apply andb_true_iff in En' as [-> ->]. cbn [negb orb]. destruct (tr_disabled t) eqn:Ed; cbn [co_fires co_nameFound].
    + rewrite filter_cons_False by (unfold fires_on; rewrite En, Ed; done). by rewrite orb_true_r.
    + rewrite orb_true_r. split; [|done]. destruct (MatchesWebhook compile decode t body) eqn:Em.
      * rewrite filter_cons_True by (unfold fires_on; by rewrite En, Ed, Em). by rewrite <- app_assoc.
      * by rewrite filter_cons_False by (unfold fires_on; by rewrite En, Ed, Em).
  - assert (negb (String.eqb (tr_type t) TriggerWebhook) || negb (String.eqb (tr_webhookName t) name) = true) as ->
      by (unfold named_so in En; destruct (String.eqb _ _), (String.eqb _ _); done).
    by rewrite filter_cons_False by (unfold fires_on; by rewrite En).
Qed.

Lemma collect_all name body nfs : forall r,
  let r' := foldl (fun r nf => foldl (collect_trigger (fst nf) name body) r (st_triggers (fl_settings (snd nf)))) r nfs in
  co_fires r' = co_fires r ++ concat (map (fleet_fires name body) nfs) /\
  co_nameFound r' = co_nameFound r || existsb (fun nf => existsb (named_so name) (st_triggers (fl_settings (snd nf)))) nfs.
Proof.
  induction nfs as [|nf nfs IH]; intros r; cbn [foldl map concat existsb]; [by rewrite app_nil_r, orb_false_r|].
  destruct (IH (foldl (collect_trigger (fst nf) name body) r (st_triggers (fl_settings (snd nf))))) as [-> ->].
  destruct (collect_triggers (fst nf) name body (st_triggers (fl_settings (snd nf))) r) as [-> ->].
  split; [by rewrite <- app_assoc|by rewrite orb_assoc].
Qed.

Lemma collect_fires st name body : co_fires (collectWebhookFires st name body) = concat (map (fleet_fires name body) (map_to_list st)).
Proof. apply (collect_all name body (map_to_list st) (MkCollected [] false false)). Qed.

(** A matching trigger of the state. *)
Definition matching (st : State) (name body : string) (x : triggerFire) : Prop :=
  exists fl, st !! tf_fleet x = Some fl /\ tf_trigger x ∈ st_triggers (fl_settings fl) /\ fires_on name body (tf_trigger x) = true /\
    tf_body x = body /\ tf_plan x = None.

Lemma collect_matching st name body x : x ∈ co_fires (collectWebhookFires st name body) <-> matching st name body x.
Proof.
  rewrite collect_fires. rewrite list_elem_of_In, in_concat. split.
  - intros (xs & (nf & <- & Hnf%list_elem_of_In)%in_map_iff & Hx%list_elem_of_In). destruct nf as [n fl]. apply elem_of_map_to_list in Hnf.
    apply list_elem_of_fmap in Hx as (t & -> & [Hf Ht]%list_elem_of_filter). by exists fl.
  - intros (fl & Hfl & Ht & Hf & Hb & Hp). exists (fleet_fires name body (tf_fleet x, fl)). split.
    + apply in_map_iff. exists (tf_fleet x, fl). split; [done|]. apply list_elem_of_In. by apply elem_of_map_to_list.
    + apply list_elem_of_In, list_elem_of_fmap. exists (tf_trigger x). split; [destruct x; simpl in *; congruence|]. by apply list_elem_of_filter.
Qed.

(** ** Names that keep firings apart *)

(** What the configuration accepts of a fleet's triggers, and names without NUL. *)
Definition plain_state (st : State) : Prop := forall f fl, st !! f = Some fl -> nul_free f /\
  NoDup (map tr_name (st_triggers (fl_settings fl))) /\
  forall t, t ∈ st_triggers (fl_settings fl) -> nul_free (tr_name t) /\ NoDup (tr_agentNames t).

Lemma fires_distinct st name body : plain_state st -> NoDup (map item_key (fire_items (co_fires (collectWebhookFires st name body)))).
Proof.
  intros Hp. rewrite collect_fires. unfold fire_items. rewrite map_map.
  assert (forall nfs : list (string * Fleet), NoDup (map fst nfs) -> (forall nf, nf ∈ nfs -> NoDup (map tr_name (st_triggers (fl_settings (snd nf))))) ->
    NoDup (map (fun f => (tf_fleet f, tr_name (tf_trigger f))) (concat (map (fleet_fires name body) nfs)))) as H.
  { induction nfs as [|nf nfs IH]; intros Hn Ht; simpl; [apply NoDup_nil_2|]. apply NoDup_cons in Hn as [Hnf Hn]. rewrite map_app. apply NoDup_app. split; [|split].
    - unfold fleet_fires. rewrite map_map. simpl. rewrite <- (map_map tr_name (pair (fst nf))).
      apply (NoDup_fmap_2 (pair (fst nf))). apply NoDup_map_filter. apply Ht. set_solver.
    - intros [f n] (x & [= -> ->] & Hx)%list_elem_of_fmap (x' & [= Ef _] & Hx')%list_elem_of_fmap.
      apply list_elem_of_fmap in Hx as (t & -> & _). apply list_elem_of_In, in_concat in Hx' as (xs & (nf' & <- & Hnf'%list_elem_of_In)%in_map_iff & Hx'%list_elem_of_In).
      apply list_elem_of_fmap in Hx' as (t' & -> & _). simpl in Ef. apply Hnf, list_elem_of_fmap. by exists nf'.
    - apply IH; [done|]. intros nf' Hin. apply Ht. set_solver. }
  apply (H (map_to_list st)); [apply NoDup_fst_map_to_list|]. intros [n fl] Hin%elem_of_map_to_list. by apply (Hp n fl Hin).
Qed.

Lemma fires_plain st name body : plain_state st -> let fires := co_fires (collectWebhookFires st name body) in
  Forall (fun fn => nul_free (fst fn) /\ nul_free (snd fn)) (map item_key (fire_items fires)) /\ Forall fire_ok fires.
Proof.
  intros Hp fires. split.
  - apply Forall_forall. intros fn (it & -> & (x & -> & Hx)%list_elem_of_fmap)%list_elem_of_fmap. apply collect_matching in Hx as (fl & Hfl & Ht & _).
    destruct (Hp _ _ Hfl) as (Hf & _ & Htr). split; [done|]. by apply Htr.
  - apply Forall_forall. intros x Hx%collect_matching. destruct Hx as (fl & Hfl & Ht & _). by apply (Hp _ _ Hfl).
Qed.

Lemma fires_asked (st' : State) fires : Forall (fun f => tf_plan f = None) fires -> Forall fire_ok fires ->
  asked_agents st' (fire_items fires) <= plan_cost fires /\
  Forall (fun it => NoDup (map ag_name (item_agents st' it))) (fire_items fires).
Proof.
  intros Hn Ho. induction fires as [|f fires IH]; [by split|]. apply Forall_cons in Hn as [Hf Hn], Ho as [Hfo Ho]. destruct (IH Hn Ho) as [IH1 IH2].
  cbn [fire_items map asked_agents plan_cost]. rewrite Hf. unfold item_agents at 1. cbn [fi_agents fi_fleet fi_trigger].
  pose proof (agents_refs st' (tf_fleet f) (tf_trigger f)). fold (fire_items fires). split; [unfold refs; lia|]. constructor; [|done]. by apply refs_distinct.
Qed.

(** ** Plans that were all dropped *)

Lemma count_dropped plans : forall a, (length (ta_dropped (foldl count_plan a plans)) <= length (ta_dropped a) + length plans)%nat /\
  (length (ta_dropped (foldl count_plan a plans)) = (length (ta_dropped a) + length plans)%nat -> Forall (fun p => pl_dropped p <> None) plans).
Proof.
  induction plans as [|p plans IH]; intros a; simpl; [split; [lia|by constructor]|]. destruct (IH (count_plan a p)) as [H1 H2].
  unfold count_plan in *. destruct (pl_dropped p) eqn:E; simpl in *.
  - rewrite length_app in *. simpl in *. split; [lia|]. intros Hl. constructor; [by rewrite E|]. apply H2. lia.
  - destruct (fired p); simpl in *; (split; [lia|intros; lia]).
Qed.

Lemma plan_all_dropped c st now items : forall l g plans, checks_ok c -> represents l g -> l_seq l + asked_agents st items < 2 ^ 64 ->
  Forall (fun it => NoDup (map ag_name (item_agents st it))) items ->
  let s := foldl (fun '(l, plans) it =>
     let '(l, p) := planLocked c st (fi_fleet it) (fi_trigger it) (item_agents st it) now l in (l, plans ++ [p])) (l, plans) items in
  exists new, snd s = plans ++ new /\ (Forall (fun p => pl_dropped p <> None) new -> same_books l (fst s)).
Proof.
  induction items as [|it items IH]; intros l g plans Hc Hr Hroom Hag; cbn [foldl asked_agents] in *; [exists []; by rewrite app_nil_r|].
  apply Forall_cons in Hag as [Hn Hag]. pose proof (asked_agents_nonneg st items).
  destruct (planLocked_ok c st (fi_fleet it) (fi_trigger it) (item_agents st it) now l g) as [g1 Hp]; [done|done|lia|done|].
  destruct (plan_shape c st (fi_fleet it) (fi_trigger it) (item_agents st it) now l g Hr ltac:(lia)) as (a & s & gs & Hps & Hcase).
  assert (pl_dropped (snd (planLocked c st (fi_fleet it) (fi_trigger it) (item_agents st it) now l)) <> None ->
    same_books l (fst (planLocked c st (fi_fleet it) (fi_trigger it) (item_agents st it) now l))) as Hdrop.
  { destruct Hcase as [(_ & _ & ->)|(_ & ->)]; [intros _; apply Hps|done]. }
  clear Hcase Hps a s gs. destruct (planLocked c st (fi_fleet it) (fi_trigger it) (item_agents st it) now l) as [l1 p]. simpl in Hp, Hdrop.
  destruct Hp as [_ Hr1 _ _ _ _ _ _ _ _ Hseq]. destruct (IH l1 g1 (plans ++ [p]) Hc Hr1) as (new & E & Hd); [lia|done|].
  exists (p :: new). split; [by rewrite E, <- app_assoc|]. intros [Hp Hnew]%Forall_cons. etrans; [by apply Hdrop|by apply Hd].
Qed.

Lemma same_books_decisions l l' : same_books l l' -> same_decisions l l'.
Proof. intros [E1 E2 E3 E4 E5]. split; [done|done|intros a; unfold held; by rewrite E3|intros cl _; unfold creating; by rewrite E5|intros k; unfold queue; by rewrite E1]. Qed.

(** ** Claims *)

(** What a delivery does with the limiter [l]: refused, it leaves no trace; accepted, it hands over what matched. *)
Definition delivery_settled (st : option State) (name : string) (body : option string) (l : automationLimiter)
    (r : reply * automationLimiter * option (list triggerFire)) : Prop :=
  let '(rep, l', batch) := r in
  match batch with
  | None => same_decisions l l' /\ (rep = RNothingMatched \/ 400 <= status rep)
  | Some fires => (status rep = 200 \/ status rep = 202) /\ exists st' b, st = Some st' /\ body = Some b /\
      Forall (fun f => is_Some (tf_plan f)) fires /\
      forall f t, (exists x, x ∈ fires /\ tf_fleet x = f /\ tf_trigger x = t /\ tf_body x = b) <-> matching st' name b (MkFire f t b None)
  end.

Lemma same_decisions_refl l : same_decisions l l.
Proof. by split. Qed.

Lemma assign_fires fires plans : length plans = length fires -> Forall (fun f => tf_plan f = None) fires ->
  map (fun x => (tf_fleet x, tf_trigger x, tf_body x)) (assign_plans fires plans) = map (fun x => (tf_fleet x, tf_trigger x, tf_body x)) fires /\
  Forall (fun f => is_Some (tf_plan f)) (assign_plans fires plans).
Proof.
  revert plans. induction fires as [|f fires IH]; intros [|p plans] Hl Hn; try done. apply Forall_cons in Hn as [Hf Hn]. simpl. rewrite Hf. simpl.
  destruct (IH plans) as [-> Ha]; [by injection Hl|done|]. split; [done|]. by constructor.
Qed.

Lemma plan_length c load items now l : length (snd (plan c load items now l)) = length items.
Proof. symmetry. exact (Forall2_length _ _ _ (plan_directs c load items now l)). Qed.

Lemma deliver_settled y st name b c load now handed :
  rtc sys_step sys_init y -> checks_ok c -> plain_state st ->
  l_seq (y_lim y) + plan_cost (co_fires (collectWebhookFires st name b)) < 2 ^ 64 ->
  delivery_settled (Some st) name (Some b) (y_lim y) (deliver c load now handed (co_fires (collectWebhookFires st name b)) (y_lim y)).
Proof.
  intros Hy Hc Hp Hroom. set (fires := co_fires (collectWebhookFires st name b)) in *. destruct (fires_plain st name b Hp) as [Hnul Hok].
  pose proof (fires_distinct st name b Hp) as Hnd. fold fires in Hnul, Hok, Hnd.
  assert (Forall (fun f => tf_plan f = None) fires) as Hnone by (apply Forall_forall; intros x Hx%collect_matching; by destruct Hx as (? & ? & ? & ? & ? & ?)).
  destruct (fires_asked (loadOrEmpty load) fires Hnone Hok) as [Hask Hag].
  pose proof (discard_undoes_plans y c load (fire_items fires) now Hy Hc ltac:(lia) Hag Hnd Hnul) as Hundo.
  pose proof (plan_length c load (fire_items fires) now (y_lim y)) as Hlen.
  assert (Forall (fun p => pl_dropped p <> None) (snd (plan c load (fire_items fires) now (y_lim y))) ->
    same_books (y_lim y) (fst (plan c load (fire_items fires) now (y_lim y)))) as Hall.
  { destruct (reached_rel y Hy) as (g & _ & [Hr _ _ _]).
    destruct (plan_all_dropped c (loadOrEmpty load) now (fire_items fires) (y_lim y) g [] Hc Hr ltac:(lia) Hag) as (new & E & Hd).
    fold (plan c load (fire_items fires) now (y_lim y)) in E, Hd. simpl in E. by rewrite E. }
  unfold deliver. destruct (plan c load (fire_items fires) now (y_lim y)) as [l plans]. simpl in Hundo, Hlen, Hall.
  case_bool_decide as Hd.
  { split; [|by right]. apply same_books_decisions, Hall. by apply (count_dropped plans (MkTally 0 0 [] 0)). }
  destruct handed; [|split; [done|by right]]. unfold delivery_settled. split; [case_match; auto|]. exists st, b. split; [done|]. split; [done|].
  unfold fire_items in Hlen. rewrite length_map in Hlen. destruct (assign_fires fires plans Hlen Hnone) as [Emap Hplanned]. split; [done|].
  intros f t. rewrite <- collect_matching. fold fires.
  trans ((f, t, b) ∈ map (fun x => (tf_fleet x, tf_trigger x, tf_body x)) fires).
  - rewrite <- Emap. rewrite list_elem_of_fmap. split; [intros (x & ? & <- & <- & <-); by exists x|intros (x & [= -> -> ->] & ?); by exists x].
  - rewrite list_elem_of_fmap. split; [|intros Hx; by exists (MkFire f t b None)]. intros (x & [= -> ->] & Hx).
    pose proof Hx as Hm%collect_matching. destruct Hm as (? & _ & _ & _ & Hb & Hpl). by destruct x; simpl in *; subst.
Qed.

(** C15: a delivery is all or nothing: whatever the gateway sends and whether or not the scheduler takes it over, a
    reply that is not a 2xx (and the 200 for an event nothing matched) leaves the limiter's slots, marks, counters
    and queues as they were, so a retry is clean; otherwise the scheduler is handed, planned, exactly the enabled
    webhook triggers of that name in every fleet whose filter matches the body. *)
Theorem delivery_all_or_nothing y path body load c load' now handed :
  rtc sys_step sys_init y -> checks_ok c -> (forall st, load = Some st -> plain_state st) ->
  (forall st b, load = Some st -> body = Some b ->
     l_seq (y_lim y) + plan_cost (co_fires (collectWebhookFires st (firstPathSegment path) b)) < 2 ^ 64) ->
  delivery_settled load (firstPathSegment path) body (y_lim y) (serveWebhook path body load c load' now handed (y_lim y)).
Proof.
  intros Hy Hc Hp Hroom. unfold serveWebhook. pose proof (same_decisions_refl (y_lim y)) as Hrefl.
  destruct (String.eqb _ ""); [split; [done|by right]|]. destruct body as [b|]; [|split; [done|by right]].
  destruct (_ <? _); [split; [done|by right]|]. destruct load as [st|]; [|split; [done|by right]].
  set (r := collectWebhookFires st (firstPathSegment path) b). destruct (negb (co_nameFound r)); [split; [done|by right]|].
  destruct (_ && _); [split; [done|by right]|].
  pose proof (deliver_settled y st (firstPathSegment path) b c load' now handed Hy Hc (Hp st eq_refl) (Hroom st b eq_refl eq_refl)) as Hd.
  fold r in Hd. destruct (co_fires r) eqn:E; [split; [done|by left]|]. exact Hd.
Qed.
End webhook.

Module WebhookExamples.
Definition literal (re : string) : option (string -> bool) := Some (fun body => String.eqb body re).
Definition no_json (body : string) : option json := None.
Definition on_push : Trigger := MkTrigger "push" TriggerWebhook ["a"] "go" "" "" "gh" WebhookFilterRegex "pushed" "" "" false.
Definition off_push : Trigger := MkTrigger "off" TriggerWebhook ["a"] "go" "" "" "gh" WebhookFilterRegex "pushed" "" "" true.
Definition web : Fleet := MkFleet (MkSettings [LimiterExamples.runner "a"] [on_push; off_push]) [].
Definition state : State := {["web" := web]}.

Definition serve (handed : bool) : reply * automationLimiter * option (list triggerFire) :=
  serveWebhook literal no_json (fun _ => false) "/gh/extra" (Some "pushed") (Some state) LimiterExamples.checks (Some state) 5 handed newAutomationLimiter.

Lemma plain : plain_state state.
Proof.
  intros f fl. unfold state. intros [<- <-]%lookup_singleton_Some. split; [done|]. split; [apply (bool_decide_unpack _); vm_compute; exact I|].
  intros t Ht. simpl in Ht. repeat (apply elem_of_cons in Ht as [->|Ht]; [split; [done|apply (bool_decide_unpack _); vm_compute; exact I]|]).
  by apply not_elem_of_nil in Ht.
Qed.

Lemma delivery_all_or_nothing_witness :
  status (fst (fst (serve true))) = 200 /\ status (fst (fst (serve false))) = 503 /\
  creating (snd (fst (serve true))) "prod" = 1 /\
  delivery_settled literal no_json (Some state) "gh" (Some "pushed") newAutomationLimiter (serve false).
Proof.
  split; [vm_compute; reflexivity|]. split; [vm_compute; reflexivity|]. split; [vm_compute; reflexivity|].
  apply (delivery_all_or_nothing literal no_json (fun _ => false) sys_init "/gh/extra" (Some "pushed") (Some state) LimiterExamples.checks (Some state) 5 false);
    [constructor|done|intros st [= <-]; exact plain|intros st b [= <-] [= <-]; vm_compute; reflexivity].
Defined.
End WebhookExamples.
