(* ===== verification/SchedulerRestart.v ===== *)
(** * The scheduler across a restart

    What restore builds from a watch list keeps the coupling of watched instances
    and slots, and from the list a scheduler saved it builds the same runs, fire
    minutes and queues. *)

From Stdlib Require Import Sorting.Sorted.
From S2P Require Import Prelude GoStrings GoText TriggerLog Entry Cron Automation FleetState Limiter LimiterLedger LimiterPlan LimiterOps LimiterDue LimiterSystem LimiterClaims Scheduler SchedulerSlots SchedulerRun.
Local Open Scope string_scope.
Local Open Scope Z_scope.
Local Open Scope list_scope.
Local Open Scope sched_scope.

(** ** What restore reads, as functions *)

Definition run_key (r : watchRun) : string := watch_key (wr_fleet r) (wr_instance r).

(** The event restore_event gives. *)
Definition event_back (e : env) (fleetName trigger : string) (wanted : bool) (ref : option watchRunEvent) : option triggerEvent :=
  (fun ref => let ev := saved_trigger trigger ref in
    if wanted && (0 <? re_payloadSize ref)
    then MkEvent (ev_kind ev) (ev_triggerName ev) (ev_firedAt ev) (ev_webhookName ev)
           (match readTriggerEventBody (e_logs e fleetName (ev_triggerName ev)) ev (re_logFile ref) (re_payloadSize ref) with Ok b => b | Err _ => "" end)
    else ev) <$> ref.

Definition run_back (e : env) (now : Z) (r : watchRun) : watchedAgent :=
  MkWatched (wr_fleet r) (wr_instance r) (wr_agent r) (wr_command r) (wr_prompt r) (wr_systemPrompt r) (wr_spawnedAt r) now
    (wr_launched r) (event_back e (wr_fleet r) (wr_trigger r) (negb (wr_launched r)) (wr_event r)) (log_of (wr_event r)) (wr_adopted r) false.

Definition expired (now : Z) (q : watchQueued) : bool := automationQueueTTL <=? now - wq_queuedAt q.

Definition queued_back (e : env) (q : watchQueued) : queuedRun :=
  MkRun (wq_id q) (wq_firing q) (wq_fleet q) (wq_trigger q) (wq_agent q) (wq_prompt q) (wq_cluster q) (wq_queuedAt q) (wq_why q)
    (event_back e (wq_fleet q) (wq_trigger q) true (wq_event q)) (log_of (wq_event q)) false no_agent.

Definition found (st : option State) (r : watchRun) : bool :=
  match st with Some st => negb (bool_decide (findInstance st (wr_fleet r) (wr_instance r) = None)) | None => true end.

Lemma restore_event_back e f tr wanted ref (t : turn) :
  fst (restore_event f tr wanted ref e t) = event_back e f tr wanted ref /\ tn_sched (snd (restore_event f tr wanted ref e t)) = tn_sched t.
Proof. unfold restore_event, event_back, read_body. destruct ref as [ref|]; [|done]. simpl. by destruct (wanted && _). Qed.

Lemma restore_run_back e st now r t :
  tn_sched (snd (restore_run st now r e t)) = if found st r then watch (run_back e now r) (tn_sched t) else tn_sched t.
Proof.
  unfold restore_run, found. destruct (match st with Some _ => _ | None => _ end) eqn:E.
  - destruct st as [st|]; [|done]. by rewrite E.
  - assert (match st with Some st => negb (bool_decide (findInstance st (wr_fleet r) (wr_instance r) = None)) | None => true end = true) as ->
      by (destruct st; [by rewrite E|done]).
    unfold bind. destruct (restore_event_back e (wr_fleet r) (wr_trigger r) (negb (wr_launched r)) (wr_event r) t) as [E1 E2].
    destruct (restore_event _ _ _ _ e t) as [ev t']. simpl in *. by rewrite E1, E2.
Qed.

Lemma restore_runs_back e st now rs : forall t,
  tn_sched (snd (for_each rs (restore_run st now) e t)) =
  foldl (fun s r => if found st r then watch (run_back e now r) s else s) (tn_sched t) rs.
Proof.
  induction rs as [|r rs IH]; intros t; [done|]. simpl. unfold bind. pose proof (restore_run_back e st now r t) as E.
  destruct (restore_run st now r e t) as [x t']. simpl in *. by rewrite IH, E.
Qed.

Lemma append_sched f tr n a ag o e t : tn_sched (snd (appendTriggerOutcome f tr n a ag o e t)) = tn_sched t.
Proof. unfold appendTriggerOutcome. by destruct (log_name_ok n). Qed.

Lemma restore_queued_back e now q t :
  fst (restore_queued now q e t) = (if expired now q then [] else [queued_back e q]) /\ tn_sched (snd (restore_queued now q e t)) = tn_sched t.
Proof.
  unfold restore_queued. fold (expired now q). unfold bind at 1 3.
  destruct (restore_event_back e (wq_fleet q) (wq_trigger q) (negb (expired now q)) (wq_event q) t) as [E1 E2].
  destruct (restore_event _ _ _ _ e t) as [ev t']. simpl in E1, E2. subst ev. destruct (expired now q); [|done].
  unfold bind. pose proof (append_sched (wq_fleet q) (wq_trigger q) (log_of (wq_event q)) now (wq_agent q) (OExpired (wq_why q)) e t') as E3.
  destruct (appendTriggerOutcome _ _ _ _ _ _ e t'). simpl in *. by rewrite E3.
Qed.

Lemma restore_queueds_back e now qs : forall t,
  fst (for_concat qs (restore_queued now) e t) = map (queued_back e) (filter (fun q => expired now q = false) qs) /\
  tn_sched (snd (for_concat qs (restore_queued now) e t)) = tn_sched t.
Proof.
  induction qs as [|q qs IH]; intros t; [done|]. simpl. unfold bind. destruct (restore_queued_back e now q t) as [E1 E2].
  destruct (restore_queued now q e t) as [a t1]. simpl in E1, E2. destruct (IH t1) as [E3 E4].
  destruct (for_concat qs (restore_queued now) e t1) as [b t2]. simpl in *. rewrite E4, E2. split; [|done]. rewrite E1, E3.
  destruct (expired now q) eqn:Ex; [by rewrite filter_cons_False by congruence|by rewrite filter_cons_True by done].
Qed.

(** Adopting only adds runs that were not watched. *)
Lemma adopt_back e now fi t :
  tn_sched (snd (adopt now fi e t)) = tn_sched t \/
  exists w, wa_adopted w = true /\ wa_agent w = "" /\ sc_watched (tn_sched t) !! wa_key w = None /\ tn_sched (snd (adopt now fi e t)) = watch w (tn_sched t).
Proof.
  destruct fi as [f inst]. unfold adopt. destruct (_ || _); [by left|]. unfold bind. cbn [get_sched].
  destruct (sc_watched (tn_sched t) !! _) eqn:E; [by left|]. right. eexists. split; [|split; [|split; [exact E|done]]]; done.
Qed.

Inductive adopt_step : scheduler -> scheduler -> Prop :=
| adopt_one w s : wa_adopted w = true -> wa_agent w = "" -> sc_watched s !! wa_key w = None -> adopt_step s (watch w s).

Lemma adopts_back e now fis : forall t, rtc adopt_step (tn_sched t) (tn_sched (snd (for_each fis (adopt now) e t))).
Proof.
  induction fis as [|fi fis IH]; intros t; [done|]. simpl. unfold bind. pose proof (adopt_back e now fi t) as H.
  destruct (adopt now fi e t) as [x t']. simpl in H. specialize (IH t'). destruct H as [<-|(w & H1 & H2 & H3 & E)]; [done|].
  eapply rtc_l; [|exact IH]. rewrite E. by constructor.
Qed.

(** The runs and minutes of a file put into a scheduler, and its queue into the limiter. *)
Definition with_runs (e : env) (now : Z) (st : option State) (rs : list watchRun) (s : scheduler) : scheduler :=
  foldl (fun s r => if found st r then watch (run_back e now r) s else s) s rs.
Definition with_fired (fs : list watchFired) (m : gmap string Z) : gmap string Z :=
  foldl (fun m f => <[firedKey (wd_fleet f) (wd_trigger f) := wd_minute f]> m) m fs.
Definition with_queued (e : env) (now : Z) (qs : list watchQueued) (l : automationLimiter) : automationLimiter :=
  restoreQueued (map (queued_back e) (filter (fun q => expired now q = false) qs)) l.

Definition restored (e : env) (now : Z) (st : option State) (wf : watchFile) (s : scheduler) : scheduler :=
  let s := with_runs e now st (wf_runs wf) s in
  set_lim (with_queued e now (wf_queued wf) (sc_lim s)) (set_fired (with_fired (wf_fired wf) (sc_lastFired s)) s).

(** Schedulers that differ in what they last wrote at most. *)
Definition same_state (s s' : scheduler) : Prop :=
  sc_lim s' = sc_lim s /\ sc_watched s' = sc_watched s /\ sc_lastFired s' = sc_lastFired s.

Definition content `{!watch_codec} (r : watch_file_read) : watchFile :=
  match r with
  | FileRead data => match dec_watch data with Some wf => if wf_version wf =? watchFileVersion then wf else empty_file | None => empty_file end
  | _ => empty_file
  end.

Lemma persist_state e t : same_state (tn_sched t) (tn_sched (snd (persist e t))).
Proof.
  unfold persist, bind, get_sched. simpl. destruct (String.eqb _ _); [done|]. destruct (bool_decide _); [done|]. simpl. by destruct (e_write e (tn_n t)).
Qed.

Lemma restore_back `{!watch_codec} e now t : sc_watchPath (tn_sched t) <> "" ->
  exists s0 s2, same_state (tn_sched t) s0 /\
    rtc adopt_step (restored e now (e_load e (S (tn_n t))) (content (e_file e (tn_n t))) s0) s2 /\
    same_state s2 (tn_sched (snd (restore now e t))).
Proof.
  intros Hp. unfold restore. set (s := tn_sched t). set (wf := content (e_file e (tn_n t))).
  set (existed := match e_file e (tn_n t) with FileMissing => false | _ => true end).
  assert (readWatchFile e t = (match e_file e (tn_n t) with FileMissing => (Some empty_file, false) | FileUnreadable => (None, true)
       | FileRead data => match dec_watch data with Some wf => if wf_version wf =? watchFileVersion then (Some wf, true) else (None, true) | None => (None, true) end end, MkTurn (S (tn_n t)) s (tn_acts t) (tn_lines t))) as Hread by done.
  unfold bind at 1. cbn [get_sched]. fold s. destruct (String.eqb_spec (sc_watchPath s) ""); [done|]. unfold bind at 1. rewrite Hread. clear Hread.
  set (file := match e_file e (tn_n t) with FileMissing => _ | FileUnreadable => _ | FileRead _ => _ end).
  assert (default empty_file (fst file) = wf /\ snd file = existed) as [-> ->].
  { unfold file, wf, existed, content. destruct (e_file e (tn_n t)) as [| |data]; try done. destruct (dec_watch data) as [wf'|]; [|done]. by destruct (wf_version wf' =? watchFileVersion). }
  set (s0 := if existed then s else set_saved (Some (snapshot s)) s). exists s0.
  unfold bind at 1. replace ((if existed then ret tt else modify (set_saved (Some (snapshot s)))) e (MkTurn (S (tn_n t)) s (tn_acts t) (tn_lines t)))
    with (tt, MkTurn (S (tn_n t)) s0 (tn_acts t) (tn_lines t)) by (unfold s0; by destruct existed).
  unfold bind at 1. cbn [question tn_n]. set (st := e_load e (S (tn_n t))). set (t1 := MkTurn (S (S (tn_n t))) _ _ _).
  unfold bind at 1. pose proof (restore_runs_back e st now (wf_runs wf) t1) as E2. destruct (for_each (wf_runs wf) (restore_run st now) e t1) as [x2 t2].
  unfold bind at 1. cbn [modify]. set (t3 := MkTurn (tn_n t2) _ _ _).
  unfold restoreQueued_. unfold bind at 1 2. destruct (restore_queueds_back e now (wf_queued wf) t3) as [E4 E5].
  destruct (for_concat (wf_queued wf) (restore_queued now) e t3) as [runs t4]. simpl in E4, E5. cbn [on_lim modify]. set (t5 := MkTurn (tn_n t4) _ _ _).
  assert (tn_sched t5 = restored e now st wf s0) as E6.
  { unfold t5, restored, with_queued, with_runs, with_fired. cbn [tn_sched]. rewrite E5, E4. unfold t3. cbn [tn_sched]. simpl in E2. by rewrite E2. }
  unfold bind at 1. set (m := match st with Some st => for_each (all_instances st) (adopt now) | None => ret tt end).
  assert (rtc adopt_step (tn_sched t5) (tn_sched (snd (m e t5)))) as E7 by (unfold m; destruct st; [apply adopts_back|done]).
  destruct (m e t5) as [x6 t6]. simpl in E7. exists (tn_sched t6). split; [unfold s0; by destruct existed|]. split; [by rewrite <- E6|apply persist_state].
Qed.

(** ** The coupling after a restart *)

Record file_ok (wf : watchFile) : Prop := {
  fo_version : wf_version wf = watchFileVersion;
  fo_runs : NoDup (map run_key (wf_runs wf));
  fo_ids : NoDup (map wq_id (wf_queued wf));
  fo_nonneg : Forall (fun q => 0 <= wq_id q) (wf_queued wf)
}.

Lemma empty_file_ok : file_ok empty_file.
Proof. split; [done|apply NoDup_nil_2|apply NoDup_nil_2|by constructor]. Qed.

Definition file_holds `{!watch_codec} (r : watch_file_read) (wf : watchFile) : Prop := exists data, r = FileRead data /\ dec_watch data = Some wf.

Lemma content_ok `{!watch_codec} r : (forall wf, file_holds r wf -> file_ok wf) -> file_ok (content r).
Proof.
  intros Hwf. destruct r as [| |data]; simpl; [apply empty_file_ok..|]. destruct (dec_watch data) as [wf|] eqn:E; [|apply empty_file_ok].
  destruct (_ =? _); [apply Hwf; by exists data|apply empty_file_ok].
Qed.

Lemma watch_frame w s : l_heap (sc_lim (watch w s)) = l_heap (sc_lim s) /\ l_seq (sc_lim (watch w s)) = l_seq (sc_lim s) /\
  l_queues (sc_lim (watch w s)) = l_queues (sc_lim s) /\ sc_lastFired (watch w s) = sc_lastFired s /\
  sc_watched (watch w s) = <[wa_key w := w]> (sc_watched s).
Proof. unfold watch, hold. simpl. by destruct (String.eqb (wa_agent w) ""). Qed.

Lemma with_runs_frame e now st rs : forall s, let s' := with_runs e now st rs s in
  l_heap (sc_lim s') = l_heap (sc_lim s) /\ l_seq (sc_lim s') = l_seq (sc_lim s) /\ l_queues (sc_lim s') = l_queues (sc_lim s) /\
  sc_lastFired s' = sc_lastFired s.
Proof.
  induction rs as [|r rs IH]; intros s; [done|]. simpl. destruct (IH (if found st r then watch (run_back e now r) s else s)) as (-> & -> & -> & ->).
  destruct (found st r); [|done]. by destruct (watch_frame (run_back e now r) s) as (-> & -> & -> & -> & _).
Qed.

Lemma with_runs_coupled e now st rs : forall s, coupled s [] [] -> (forall r, r ∈ rs -> sc_watched s !! run_key r = None) -> NoDup (map run_key rs) ->
  coupled (with_runs e now st rs s) [] [].
Proof.
  induction rs as [|r rs IH]; intros s Hc Hn Hnd; simpl; [done|]. apply NoDup_cons in Hnd as [Hr Hnd].
  assert (forall r', r' ∈ rs -> run_key r' <> run_key r) as Hne by (intros r' Hin E; apply Hr, list_elem_of_fmap; by exists r').
  apply IH; [|intros r' Hin|done]; (destruct (found st r); [|first [done|apply Hn; set_solver]]).
  - apply coupled_hold; [done|]. apply Hn. set_solver.
  - destruct (watch_frame (run_back e now r) s) as (_ & _ & _ & _ & ->). rewrite lookup_insert_ne; [apply Hn; set_solver|].
    intros E. by apply (Hne r' Hin).
Qed.

Lemma coupled_restored s rs : coupled s [] [] -> l_heap (sc_lim s) = [] -> NoDup (map r_id rs) -> (forall r, r ∈ rs -> 0 <= r_id r) ->
  coupled (set_lim (restoreQueued rs (sc_lim s)) s) [] [].
Proof.
  intros Hc Hh Hnd H0. destruct (coupled_rel _ _ _ Hc) as [g Hg]. pose proof (sy_rep _ _ Hg) as Hrep. simpl in Hrep.
  assert (forall p, p ∈ g_wait g ∪ g_start g -> False) as Hnone by (intros p Hp; apply (io_heap _ _ (re_ids _ _ Hrep)) in Hp; rewrite Hh in Hp; simpl in Hp; lia).
  destruct (restoreQueued_ok rs (sc_lim s) g Hrep Hnd H0) as (g' & _ & Hr' & [_ Hw] & _); [intros r p _ Hp; by destruct (Hnone p)|].
  eapply coupled_step; [exact Hc| |by eapply represents_same_watch|by constructor|by constructor].
  apply rtc_once; exists Settles; apply sys_restore; [done|done|]. intros r p _ Hp. rewrite Hh in Hp. simpl in Hp. lia.
Qed.

Lemma adopts_coupled s s' : rtc adopt_step s s' -> coupled s [] [] -> coupled s' [] [].
Proof. induction 1 as [|s1 s2 s3 Hs _ IH]; [done|]. intros Hc. apply IH. destruct Hs. by apply coupled_hold. Qed.

Lemma restored_coupled e now st wf s : coupled s [] [] -> sc_watched s = ∅ -> l_heap (sc_lim s) = [] -> file_ok wf -> coupled (restored e now st wf s) [] [].
Proof.
  intros Hc Hw Hh [_ Hr Hi Hn]. unfold restored. set (s1 := with_runs e now st (wf_runs wf) s).
  assert (coupled s1 [] []) as Hc1 by (apply with_runs_coupled; [done|intros r _; by rewrite Hw|done]).
  destruct (with_runs_frame e now st (wf_runs wf) s) as (Eh & _). fold s1 in Eh.
  assert (sc_lim (set_fired (with_fired (wf_fired wf) (sc_lastFired s1)) s1) = sc_lim s1) as Esl by done.
  rewrite <- Esl at 1. apply coupled_restored; [by eapply coupled_ext; [| |exact Hc1]|by rewrite Esl, Eh| |].
  - rewrite map_map. simpl. by apply NoDup_map_filter.
  - intros r (q & -> & [_ Hq]%list_elem_of_filter)%list_elem_of_fmap. rewrite Forall_forall in Hn. by apply Hn.
Qed.

Lemma restore_coupled `{!watch_codec} e now t :
  coupled (tn_sched t) [] [] -> sc_watched (tn_sched t) = ∅ -> l_heap (sc_lim (tn_sched t)) = [] -> sc_watchPath (tn_sched t) <> "" ->
  (forall wf, file_holds (e_file e (tn_n t)) wf -> file_ok wf) -> coupled (tn_sched (snd (restore now e t))) [] [].
Proof.
  intros Hc Hw Hh Hp Hf. destruct (restore_back e now t Hp) as (s0 & s2 & (E1 & E2 & E3) & Had & (F1 & F2 & F3)).
  eapply coupled_ext; [exact F1|exact F2|]. eapply adopts_coupled; [exact Had|]. apply restored_coupled; [by eapply coupled_ext|congruence|congruence|].
  by apply content_ok.
Qed.

(** A file a scheduler wrote is one restore can read. *)
Lemma snapshot_runs s : wf_runs (snapshot s) ≡ₚ map (fun kw => saved_run (snd kw)) (map_to_list (sc_watched s)).
Proof. simpl. apply SortFunc_perm. Qed.

Lemma queue_key_of l k p : p ∈ queue l k -> k ∈ queue_keys l.
Proof.
  intros Hp. apply (queue_keys_ranges l). unfold queue in Hp. destruct (l_queues l !! k); [by eexists|]. simpl in Hp. by apply not_elem_of_nil in Hp.
Qed.

Lemma queuedRuns_elem l g p : represents l g -> p ∈ queuedRuns l (queue_keys l) <-> p ∈ g_wait g /\ r_pending (run l p) = false.
Proof.
  intros Hr. unfold queuedRuns. rewrite SortFunc_perm, list_elem_of_filter. rewrite list_elem_of_In, in_concat.
  destruct (re_queues _ _ Hr) as [_ H2 _]. split.
  - intros [Hp (qs & (k & <- & _)%in_map_iff & Hq%list_elem_of_In)]. split; [by eapply queue_elem_wait|done].
  - intros [Hw%H2 Hp]. split; [done|]. exists (queue l (trigger_of (run l p))). split; [|by apply list_elem_of_In].
    apply in_map_iff. exists (trigger_of (run l p)). split; [done|]. apply list_elem_of_In. by eapply queue_key_of.
Qed.

Lemma queues_nodup l g ks : represents l g -> NoDup ks -> NoDup (concat (map (queue l) ks)).
Proof.
  intros Hr Hk. destruct (re_queues _ _ Hr) as [H1 _ H3]. induction ks as [|k ks IH]; simpl; [apply NoDup_nil_2|]. apply NoDup_cons in Hk as [Hk Hks].
  apply NoDup_app. split; [apply H3|]. split; [|by apply IH]. intros p Hp Hp'. apply list_elem_of_In, in_concat in Hp' as (qs & (k' & <- & Hk')%in_map_iff & Hq%list_elem_of_In).
  apply Hk. rewrite <- (H1 _ _ Hp), (H1 _ _ Hq). by apply list_elem_of_In.
Qed.

Lemma queuedRuns_nodup l g : represents l g -> NoDup (queuedRuns l (queue_keys l)).
Proof. intros Hr. unfold queuedRuns. rewrite SortFunc_perm. apply NoDup_filter. eapply queues_nodup; [done|]. exact (proj1 (queue_keys_ranges l)). Qed.

Lemma snapshot_ok s plans runs : coupled s plans runs -> file_ok (snapshot s).
Proof.
  intros Hc. destruct (coupled_rel _ _ _ Hc) as [g Hg]. pose proof (sy_rep _ _ Hg) as Hrep. simpl in Hrep. split; [done|..].
  - rewrite snapshot_runs, map_map. rewrite (map_ext_in_elem _ fst); [apply NoDup_fst_map_to_list|].
    intros [k w] Hin%elem_of_map_to_list. by rewrite (cp_keys _ _ _ Hc _ _ Hin).
  - simpl. rewrite map_map. simpl. apply NoDup_map_on; [by eapply queuedRuns_nodup|]. intros p q Hp Hq. rewrite !(queuedRuns_elem _ g) in * by done.
    apply (io_inj _ _ (re_ids _ _ Hrep)); set_solver.
  - simpl. apply Forall_forall. intros x (p & -> & Hp)%list_elem_of_fmap. rewrite (queuedRuns_elem _ g) in Hp by done.
    simpl. apply (io_range _ _ (re_ids _ _ Hrep)). set_solver.
Qed.

(** ** The round trip *)

Definition no_body (ev : triggerEvent) : triggerEvent := MkEvent (ev_kind ev) (ev_triggerName ev) (ev_firedAt ev) (ev_webhookName ev) "".
Definition renamed (trigger : string) (ev : triggerEvent) : triggerEvent := MkEvent (ev_kind ev) trigger (ev_firedAt ev) (ev_webhookName ev) (ev_body ev).

(** The event with its payload as its log has it, none when the log does not. *)
Definition payload_back (e : env) (fleetName log : string) (ev : triggerEvent) : triggerEvent :=
  if String.eqb (ev_body ev) "" then ev
  else MkEvent (ev_kind ev) (ev_triggerName ev) (ev_firedAt ev) (ev_webhookName ev)
         (match readTriggerEventBody (e_logs e fleetName (ev_triggerName ev)) (no_body ev) log (Z.of_nat (String.length (ev_body ev))) with Ok b => b | Err _ => "" end).

(** The log has the event's header and payload yet, whatever was added after them. *)
Definition logged (d : logDir) (log : string) (ev : triggerEvent) : Prop :=
  named_as_log log = true /\ TriggerLog.extends (triggerEventLogHeader ev +:+ ev_body ev) (d !! log).

Lemma payload_logged e f log ev : logged (e_logs e f (ev_triggerName ev)) log ev -> payload_back e f log ev = ev.
Proof.
  intros [Hn Hx]. unfold payload_back. destruct (String.eqb_spec (ev_body ev) ""); [done|]. unfold no_body. rewrite read_extends by done. by destruct ev.
Qed.

(** A watched run after a restart: its idle clock starts again, and a launched one needs no payload. *)
Definition resumed (e : env) (now : Z) (w : watchedAgent) : watchedAgent :=
  MkWatched (wa_fleet w) (wa_instance w) (wa_agent w) (wa_command w) (wa_prompt w) (wa_systemPrompt w) (wa_spawnedAt w) now (wa_launched w)
    (if wa_launched w then no_body <$> wa_event w else payload_back e (wa_fleet w) (wa_eventLog w) <$> wa_event w)
    (match wa_event w with Some _ => wa_eventLog w | None => "" end) (wa_adopted w) false.

(** A queued run after a restart: committed, its agent resolved when it starts. *)
Definition requeued (e : env) (r : queuedRun) : queuedRun :=
  MkRun (r_id r) (r_firing r) (r_fleet r) (r_trigger r) (r_agent r) (r_prompt r) (r_cluster r) (r_queuedAt r) (r_why r)
    ((fun ev => payload_back e (r_fleet r) (r_eventLog r) (renamed (r_trigger r) ev)) <$> r_event r)
    (match r_event r with Some _ => r_eventLog r | None => "" end) false no_agent.

Lemma event_back_saved e f tr wanted log ev :
  event_back e f tr wanted (Some (saved_event log ev)) = Some (if wanted then payload_back e f log (renamed tr ev) else no_body (renamed tr ev)).
Proof.
  unfold event_back, saved_event, saved_trigger, payload_back. cbn [fmap option_fmap option_map re_kind re_firedAt re_webhook re_logFile re_payloadSize
    ev_kind ev_triggerName ev_firedAt ev_webhookName ev_body renamed]. destruct wanted; cbn [andb]; [|done].
  destruct (String.eqb_spec (ev_body ev) "") as [Eb|Hb].
  - rewrite Eb. cbn [String.length Z.of_nat Z.ltb Z.compare]. unfold renamed. by rewrite Eb.
  - destruct (Z.ltb_spec 0 (Z.of_nat (String.length (ev_body ev)))) as [|Hl]; [done|]. destruct (ev_body ev); [done|]. simpl in Hl. lia.
Qed.

Lemma renamed_id ev : renamed (ev_triggerName ev) ev = ev.
Proof. by destruct ev. Qed.

Lemma run_back_saved e now w : run_back e now (saved_run w) = resumed e now w.
Proof.
  unfold run_back, saved_run, resumed. simpl. f_equal; [|by destruct (wa_event w)].
  destruct (wa_event w) as [ev|] eqn:Ee; [|by destruct (wa_launched w)].
  change (saved_event (wa_eventLog w) <$> Some ev) with (Some (saved_event (wa_eventLog w) ev)).
  rewrite event_back_saved, renamed_id. by destruct (wa_launched w).
Qed.

Lemma queued_back_saved e r : queued_back e (saved_queued r) = requeued e r.
Proof.
  unfold queued_back, saved_queued, requeued. simpl. f_equal; [|by destruct (r_event r)].
  destruct (r_event r) as [ev|]; [|done]. change (saved_event ?l <$> Some ev) with (Some (saved_event l ev)). by rewrite event_back_saved.
Qed.

(** Maps filled key by key. *)
Lemma inserts_lookup {A V} (key : A -> string) (val : A -> V) xs : forall m : gmap string V, NoDup (map key xs) ->
  (forall x, x ∈ xs -> foldl (fun m x => <[key x := val x]> m) m xs !! key x = Some (val x)) /\
  (forall k, k ∉ map key xs -> foldl (fun m x => <[key x := val x]> m) m xs !! k = m !! k).
Proof.
  induction xs as [|x xs IH]; intros m Hnd; simpl in *; [split; [set_solver|done]|]. apply NoDup_cons in Hnd as [Hx Hnd].
  destruct (IH (<[key x := val x]> m) Hnd) as [H1 H2]. split.
  - intros x' [->|Hin]%elem_of_cons; [|by apply H1]. rewrite H2 by done. apply lookup_insert_eq.
  - intros k Hk. rewrite H2 by set_solver. apply lookup_insert_ne. set_solver.
Qed.

Lemma with_runs_watched e now st rs : forall s,
  sc_watched (with_runs e now st rs s) =
  foldl (fun m r => <[run_key r := run_back e now r]> m) (sc_watched s) (filter (fun r => found st r = true) rs).
Proof.
  induction rs as [|r rs IH]; intros s; [done|]. simpl. rewrite IH. destruct (found st r) eqn:E; [|by rewrite filter_cons_False by congruence].
  rewrite filter_cons_True by done. by destruct (watch_frame (run_back e now r) s) as (_ & _ & _ & _ & ->).
Qed.

Lemma fired_roundtrip (m : gmap string Z) : (forall k, is_Some (m !! k) -> contains_byte k nul = true) ->
  with_fired (wf_fired (snapshot (MkSched m ∅ "" None newAutomationLimiter))) ∅ = m.
Proof.
  intros Hk. unfold with_fired. simpl. set (fs := SortFunc _ _).
  assert (forall f, f ∈ fs <-> exists k n, m !! k = Some n /\ splitFiredKey k = Some (wd_fleet f, wd_trigger f) /\ wd_minute f = n) as Hfs.
  { intros f. unfold fs. rewrite SortFunc_perm, list_elem_of_omap. split.
    - intros ([k n] & Hin%elem_of_map_to_list & E). simpl in E. destruct (splitFiredKey k) as [[a b]|] eqn:Es; [|done]. injection E as <-. by exists k, n.
    - intros (k & n & Hm & Es & <-). exists (k, wd_minute f). split; [by apply elem_of_map_to_list|]. simpl. rewrite Es. by destruct f. }
  assert (forall k a b, splitFiredKey k = Some (a, b) -> firedKey a b = k) as Hsplit by (intros k a b [-> _]%cut_byte_Some; done).
  assert (NoDup (map (fun f => firedKey (wd_fleet f) (wd_trigger f)) fs)) as Hnd.
  { unfold fs. rewrite SortFunc_perm. pose proof (NoDup_fst_map_to_list m) as Hnd. revert Hnd. generalize (map_to_list m). intros l.
    induction l as [|[k n] l IH]; simpl; [intros _; apply NoDup_nil_2|]. intros [Hn Hnd]%NoDup_cons. destruct (splitFiredKey k) as [[a b]|] eqn:Es; simpl; [|by apply IH].
    constructor; [|by apply IH]. rewrite (Hsplit _ _ _ Es). intros (f & -> & Hf)%list_elem_of_fmap. apply Hn.
    apply list_elem_of_omap in Hf as ([k' n'] & Hin & E). simpl in E. destruct (splitFiredKey k') as [[a' b']|] eqn:Es'; [|done]. injection E as <-. simpl.
    rewrite (Hsplit _ _ _ Es'). apply list_elem_of_fmap. by exists (k', n'). }
  destruct (inserts_lookup (fun f => firedKey (wd_fleet f) (wd_trigger f)) wd_minute fs ∅ Hnd) as [H1 H2]. apply map_eq. intros k.
  destruct (m !! k) as [n|] eqn:Em.
  - destruct (cut_byte_found nul k (Hk k ltac:(eauto))) as [[a b] Es]. set (f := MkWatchFired a b n).
    assert (f ∈ fs) as Hin by (apply Hfs; by exists k, n). specialize (H1 f Hin). simpl in H1. by rewrite (Hsplit _ _ _ Es) in H1.
  - rewrite H2; [apply lookup_empty|]. intros (f & -> & (k0 & n & Hm & Es & _)%Hfs)%list_elem_of_fmap. rewrite (Hsplit _ _ _ Es) in Em. congruence.
Qed.

(** The queues after a restart. *)
Lemma restoreQueued_queue rs : forall l k, (forall k q, q ∈ queue l k -> (q < length (l_heap l))%nat) ->
  map (run (restoreQueued rs l)) (queue (restoreQueued rs l) k) ≡ₚ map (run l) (queue l k) ++ filter (fun r => trigger_of r = k) rs.
Proof.
  induction rs as [|r rs IH]; intros l k Hl; [by rewrite app_nil_r|]. unfold restoreQueued. simpl.
  set (l1 := insertLocked (length (l_heap l)) (alloc r l)). fold (restoreQueued rs l1).
  assert (run (alloc r l) (length (l_heap l)) = r) as Hr by (by apply run_alloc_at).
  assert (forall k, queue l1 k ≡ₚ if decide (trigger_of r = k) then queue l k ++ [length (l_heap l)] else queue l k) as Hq.
  { intros k'. unfold l1, insertLocked. rewrite Hr. fold (trigger_of r). unfold queue at 1. simpl. destruct (decide _) as [<-|Hne].
    - rewrite lookup_insert_eq. simpl. by rewrite SortFunc_perm.
    - by rewrite lookup_insert_ne. }
  assert (forall q, run l1 q = run (alloc r l) q) as Hrun by done.
  rewrite IH.
  - rewrite (Hq k), filter_cons. destruct (decide (trigger_of r = k)).
    + rewrite map_app. simpl. rewrite Hrun, Hr, <- app_assoc, (map_ext_in_elem _ (run l)); [done|]. intros q Hin. rewrite Hrun. apply run_alloc. by eapply Hl.
    + rewrite (map_ext_in_elem _ (run l)); [done|]. intros q Hin. rewrite Hrun. apply run_alloc. by eapply Hl.
  - intros k' q Hin. rewrite (Hq k') in Hin. change (length (l_heap l1)) with (length (l_heap l ++ [r])). rewrite length_app. simpl.
    assert (q ∈ queue l k' \/ q = length (l_heap l)) as [Hin'| ->] by (destruct (decide _); set_solver); [apply Hl in Hin'|]; lia.
Qed.

Lemma adopts_back_state s s' : rtc adopt_step s s' ->
  sc_lim s' = sc_lim s /\ sc_lastFired s' = sc_lastFired s /\
  forall k, match sc_watched s !! k with Some w => sc_watched s' !! k = Some w | None => forall w, sc_watched s' !! k = Some w -> wa_adopted w = true end.
Proof.
  induction 1 as [s|s1 s2 s3 Hs _ (IH1 & IH2 & IH3)]; [split; [done|]; split; [done|]; intros k; by destruct (sc_watched s !! k)|].
  destruct Hs as [w s Ha Hag Hn]. assert (sc_lim (watch w s) = sc_lim s) as El by (unfold watch, hold; by rewrite Hag).
  split; [congruence|]. split; [exact IH2|]. intros k. specialize (IH3 k). destruct (watch_frame w s) as (_ & _ & _ & _ & Ew). rewrite Ew in IH3.
  destruct (decide (wa_key w = k)) as [<-|Hne]; [|by rewrite lookup_insert_ne in IH3].
  rewrite lookup_insert_eq in IH3. rewrite Hn, IH3. by intros w' [= <-].
Qed.

Lemma StronglySorted_on {A} (R R' : A -> A -> Prop) xs :
  (forall x y, x ∈ xs -> y ∈ xs -> R x y -> R' x y) -> StronglySorted R xs -> StronglySorted R' xs.
Proof.
  intros H. induction 1 as [|x xs Hs IH Hf]; constructor.
  - apply IH. intros; apply H; set_solver.
  - rewrite Forall_forall in *. intros y Hy. apply H; [set_solver|set_solver|by apply Hf].
Qed.

(** Restored queues are in the order of their ids. *)
Definition queues_sorted (l : automationLimiter) : Prop := forall k, StronglySorted (fun p q => r_id (run l p) <= r_id (run l q)) (queue l k).

Lemma restoreQueued_sorted rs : forall l, (forall k q, q ∈ queue l k -> (q < length (l_heap l))%nat) -> queues_sorted l -> queues_sorted (restoreQueued rs l).
Proof.
  induction rs as [|r rs IH]; intros l Hl Hs; [done|]. unfold restoreQueued. simpl.
  set (l1 := insertLocked (length (l_heap l)) (alloc r l)). fold (restoreQueued rs l1).
  assert (run (alloc r l) (length (l_heap l)) = r) as Hr by (by apply run_alloc_at).
  assert (forall k, queue l1 k = if decide (trigger_of r = k) then SortFunc (by_id (alloc r l)) (queue l k ++ [length (l_heap l)]) else queue l k) as Hq.
  { intros k'. unfold l1, insertLocked. rewrite Hr. fold (trigger_of r). unfold queue at 1. simpl. destruct (decide _) as [<-|Hne].
    - by rewrite lookup_insert_eq.
    - by rewrite lookup_insert_ne. }
  apply IH.
  - intros k q Hin. change (length (l_heap l1)) with (length (l_heap l ++ [r])). rewrite length_app. simpl.
    assert (q ∈ queue l k \/ q = length (l_heap l)) as [Hin'| ->] by (rewrite Hq in Hin; destruct (decide _); [rewrite SortFunc_perm in Hin|]; set_solver);
      [apply Hl in Hin'|]; lia.
  - intros k. rewrite Hq. destruct (decide _).
    + eapply StronglySorted_on; [intros p q _ _ H; change (run l1) with (run (alloc r l)); apply by_id_le, H|].
      apply SortFunc_sorted; [intros p q; apply Z.compare_antisym|]. intros p q o. apply Z.le_trans.
    + eapply StronglySorted_on; [|apply Hs]. intros p q Hp Hq'. change (run l1) with (run (alloc r l)). by rewrite !run_alloc by (by eapply Hl).
Qed.

(** ** Claims *)

(** What the scheduler [s] knew and [s'], restored at [now] from its list, still knows. *)
Record carried_over (e : env) (now : Z) (st : option State) (s s' : scheduler) : Prop := {
  ca_runs : forall k w, sc_watched s !! k = Some w -> found st (saved_run w) = true -> sc_watched s' !! k = Some (resumed e now w);
  ca_others : forall k w, sc_watched s' !! k = Some w ->
    (exists w0, sc_watched s !! k = Some w0 /\ found st (saved_run w0) = true) \/ wa_adopted w = true;
  ca_fired : sc_lastFired s' = sc_lastFired s;
  ca_queues : forall k, map (run (sc_lim s')) (queue (sc_lim s') k) ≡ₚ
    map (requeued e) (filter (fun r => r_pending r = false /\ now - r_queuedAt r < automationQueueTTL) (map (run (sc_lim s)) (queue (sc_lim s) k)));
  ca_order : queues_sorted (sc_lim s')
}.

Definition fresh (path : string) : scheduler := MkSched ∅ ∅ path None newAutomationLimiter.

Lemma runs_back e now st s plans runs s0 : coupled s plans runs -> sc_watched s0 = ∅ ->
  (forall k w, sc_watched s !! k = Some w -> found st (saved_run w) = true ->
     sc_watched (with_runs e now st (wf_runs (snapshot s)) s0) !! k = Some (resumed e now w)) /\
  (forall k w, sc_watched (with_runs e now st (wf_runs (snapshot s)) s0) !! k = Some w ->
     exists w0, sc_watched s !! k = Some w0 /\ found st (saved_run w0) = true).
Proof.
  intros Hc Hs0. rewrite with_runs_watched, Hs0. set (rs := filter _ _).
  assert (forall r, r ∈ rs <-> exists k w, sc_watched s !! k = Some w /\ r = saved_run w /\ found st r = true) as Hrs.
  { intros r. unfold rs. rewrite list_elem_of_filter, snapshot_runs, list_elem_of_fmap. split.
    - intros [Hf ([k w] & -> & Hin%elem_of_map_to_list)]. by exists k, w.
    - intros (k & w & Hw & -> & Hf). split; [done|]. exists (k, w). split; [done|]. by apply elem_of_map_to_list. }
  assert (NoDup (map run_key rs)) as Hnd by (apply NoDup_map_filter, (fo_runs _ (snapshot_ok _ _ _ Hc))).
  destruct (inserts_lookup run_key (run_back e now) rs ∅ Hnd) as [H1 H2]. split.
  - intros k w Hw Hf. rewrite <- (run_back_saved e now w). rewrite (cp_keys _ _ _ Hc _ _ Hw). apply (H1 (saved_run w)).
    apply Hrs. by exists k, w.
  - intros k w Hk. destruct (decide (k ∈ map run_key rs)) as [(r & -> & (k0 & w0 & Hw & -> & Hf)%Hrs)%list_elem_of_fmap|Hn].
    + exists w0. split; [|done]. by rewrite <- (cp_keys _ _ _ Hc _ _ Hw : k0 = run_key (saved_run w0)).
    + rewrite H2 in Hk by done. by rewrite lookup_empty in Hk.
Qed.

Lemma queues_back e now s plans runs k : coupled s plans runs ->
  filter (fun r => trigger_of r = k) (map (queued_back e) (filter (fun q => expired now q = false) (wf_queued (snapshot s)))) ≡ₚ
  map (requeued e) (filter (fun r => r_pending r = false /\ now - r_queuedAt r < automationQueueTTL) (map (run (sc_lim s)) (queue (sc_lim s) k))).
Proof.
  intros Hc. destruct (coupled_rel _ _ _ Hc) as [g Hg]. pose proof (sy_rep _ _ Hg) as Hrep. simpl in Hrep.
  cbn [snapshot wf_queued]. set (ps := queuedRuns _ _). rewrite !filter_map, !map_map.
  rewrite (map_ext_in_elem _ (fun p => requeued e (run (sc_lim s) p))) by (intros p _; apply queued_back_saved).
  apply Permutation_map, NoDup_Permutation.
  - apply NoDup_filter, NoDup_filter. by eapply queuedRuns_nodup.
  - apply NoDup_filter. apply (re_queues _ _ Hrep).
  - intros p. rewrite !list_elem_of_filter. unfold ps. rewrite (queuedRuns_elem _ g) by done.
    assert (expired now (saved_queued (run (sc_lim s) p)) = false <-> now - r_queuedAt (run (sc_lim s) p) < automationQueueTTL) as -> by apply Z.leb_gt.
    assert (trigger_of (queued_back e (saved_queued (run (sc_lim s) p))) = trigger_of (run (sc_lim s) p)) as -> by done.
    destruct (re_queues _ _ Hrep) as [H1 H2 _]. split.
    + intros (<- & Ht & Hw%H2 & Hp). done.
    + intros ((Hp & Ht) & Hq). pose proof (H1 _ _ Hq) as E. split; [done|]. split; [done|]. split; [|done]. apply H2. by rewrite E.
Qed.

Lemma restored_carries e now st s plans runs s0 : coupled s plans runs ->
  (forall k, is_Some (sc_lastFired s !! k) -> contains_byte k nul = true) ->
  sc_watched s0 = ∅ -> sc_lastFired s0 = ∅ -> sc_lim s0 = newAutomationLimiter ->
  carried_over e now st s (restored e now st (snapshot s) s0).
Proof.
  intros Hc Hk Ew Ef El. unfold restored, with_queued. set (s1 := with_runs e now st (wf_runs (snapshot s)) s0).
  destruct (runs_back e now st s plans runs s0 Hc Ew) as [R1 R2]. fold s1 in R1, R2.
  destruct (with_runs_frame e now st (wf_runs (snapshot s)) s0) as (_ & _ & Eq & Ef1). fold s1 in Eq, Ef1.
  assert (forall k, queue (sc_lim s1) k = []) as Hq by (intros k; unfold queue; by rewrite Eq, El).
  split; cbn [set_lim set_fired sc_watched sc_lastFired sc_lim].
  - exact R1.
  - intros k w H. left. by eapply R2.
  - rewrite Ef1, Ef. exact (fired_roundtrip (sc_lastFired s) Hk).
  - intros k. rewrite restoreQueued_queue by (intros k' q; rewrite Hq; set_solver). rewrite Hq. by apply (queues_back _ _ _ plans runs).
  - apply restoreQueued_sorted; [intros k' q; rewrite Hq; set_solver|]. intros k. rewrite Hq. constructor.
Qed.

(** C11: the watch list survives a restart: from the file a scheduler wrote of its list (at any point of its work,
    plans and starts still in hand; the list's texts UTF-8 and its times in years 0 to 9999, so that JSON can say
    them), a new one restores every watched run whose instance is still recorded, with its agent, prompt and
    trigger event; the minute each cron trigger last fired; and every queue, in the order of the runs' ids, less
    the runs not committed yet and those past their time. A run still to start has the payload its event's log
    holds: the event's own while the log has the event, none when the log was pruned or is not the event's.
    Whatever else the new scheduler watches it adopted from the recorded instances. *)
Theorem watch_list_survives_restart `{!watch_codec} e now n path s plans runs acts lines :
  coupled s plans runs -> writable (snapshot s) -> (forall k, is_Some (sc_lastFired s !! k) -> contains_byte k nul = true) ->
  path <> "" -> e_file e n = FileRead (enc_watch (snapshot s)) ->
  carried_over e now (e_load e (S n)) s (tn_sched (snd (restore now e (MkTurn n (fresh path) acts lines)))) /\
  (forall f log ev, logged (e_logs e f (ev_triggerName ev)) log ev -> payload_back e f log ev = ev).
Proof.
  intros Hc Hw Hk Hp Hf. split; [|intros f log ev; apply payload_logged].
  destruct (restore_back e now (MkTurn n (fresh path) acts lines) Hp) as (s0 & s2 & (E1 & E2 & E3) & Had & (F1 & F2 & F3)).
  cbn [tn_n tn_sched] in *. rewrite Hf in Had. unfold content in Had. rewrite dec_enc_watch in Had by done. change (wf_version (snapshot s) =? watchFileVersion) with true in Had. cbn iota in Had.
  destruct (restored_carries e now (e_load e (S n)) s plans runs s0 Hc Hk E2 E3 E1) as [C1 C2 C3 C4 C5].
  destruct (adopts_back_state _ _ Had) as (A1 & A2 & A3). split; rewrite ?F1, ?F2, ?F3, ?A1, ?A2; try done.
  - intros k w Hw' Hfo. specialize (A3 k). by rewrite (C1 _ _ Hw' Hfo) in A3.
  - intros k w Hw'. specialize (A3 k). destruct (sc_watched (restored e now (e_load e (S n)) (snapshot s) s0) !! k) as [w0|] eqn:E; [|right; by apply A3].
    rewrite A3 in Hw'. injection Hw' as <-. by eapply C2.
Qed.
