(* ===== verification/Daemon.v ===== *)
(** * The automation daemon (internal/server: runScheduler, handFires, closeFires, with serveWebhook)

    The scheduler loop with the webhook receiver and the bash probes beside it:
    deliveries are planned against the shared limiter, handed over through a
    buffered channel, and taken one batch a turn; a stopping scheduler closes the
    channel and keeps what it held. A turn of the loop is one step here: deliveries
    fall between turns, in any number and order. The steps begin when the watch list has
    been restored; the receiver, which runs before that, is taken to have planned nothing
    until then. *)

From S2P Require Import Prelude GoStrings GoText Journal TriggerLog Entry Cron JsonPath Automation FleetState Limiter LimiterLedger LimiterPlan LimiterOps LimiterDue LimiterSystem LimiterClaims Scheduler SchedulerSlots SchedulerRun Webhook SchedulerRestart.
Local Open Scope string_scope.
Local Open Scope Z_scope.
Local Open Scope list_scope.
Local Open Scope sched_scope.

(** ** The loop *)

(** Where runScheduler is: before its tick, in its select, or returned with the channel closed. *)
Inductive phase := Ticking | Selecting | Stopped.

(** [da_out] are the batches planned and in handFires, [da_fires] the channel. *)
Record daemon := MkDaemon { da_turn : turn; da_phase : phase; da_out : list (list triggerFire); da_fires : list (list triggerFire) }.

Definition triggerFireBuffer : nat := 64.

Definition exec {A} (e : env) (m : M A) (t : turn) : turn := snd (m e t).
Definition lim_of (t : turn) : automationLimiter := sc_lim (tn_sched t).
Definition with_limiter (l : automationLimiter) (t : turn) : turn := MkTurn (tn_n t) (set_lim l (tn_sched t)) (tn_acts t) (tn_lines t).

(** handFires has room while the scheduler takes fires. *)
Definition takes (d : daemon) : bool :=
  match da_phase d with Stopped => false | _ => (length (da_fires d) <? triggerFireBuffer)%nat end.

Section daemon.
Context {W : watch_codec} (e : env) (clock_of : Z -> clock).
Context (compile : string -> option (string -> bool)) (decode : string -> option json) (decodes : string -> bool).

(** runScheduler up to its loop, with no delivery planned before. *)
Definition start (n : nat) (path : string) (now : Z) : daemon := MkDaemon (exec e (restore now) (MkTurn n (fresh path) [] [])) Ticking [] [].

(** The loop's tick, a batch it takes, and its end. *)
Definition tick (now : Z) (d : daemon) : daemon :=
  MkDaemon (exec e (let! _ := schedulerTick clock_of now in persist) (da_turn d)) Selecting (da_out d) (da_fires d).
Definition take_batch (batch : list triggerFire) (rest : list (list triggerFire)) (now : Z) (d : daemon) : daemon :=
  MkDaemon (exec e (fireTriggerBatch batch now;; persist) (da_turn d)) Ticking (da_out d) rest.
Definition stop (now : Z) (d : daemon) : daemon :=
  MkDaemon (exec e (holdFires (da_fires d) now) (da_turn d)) Stopped (da_out d) [].

(** A delivery up to its hand-over. *)
Definition request (path : string) (body : option string) (load : option State) (c : runChecks) (load' : option State) (now : Z) (d : daemon) : daemon :=
  let '(_, l, batch) := serveWebhook compile decode decodes path body load c load' now true (lim_of (da_turn d)) in
  MkDaemon (with_limiter l (da_turn d)) (da_phase d) (match batch with Some b => da_out d ++ [b] | None => da_out d end) (da_fires d).

(** The batch handed over, or given back. *)
Definition hand (b : list triggerFire) (out : list (list triggerFire)) (d : daemon) : daemon :=
  MkDaemon (da_turn d) (da_phase d) out (da_fires d ++ [b]).
Definition shed (b : list triggerFire) (out : list (list triggerFire)) (d : daemon) : daemon :=
  MkDaemon (with_limiter (discard (plans_of b) (lim_of (da_turn d))) (da_turn d)) (da_phase d) out (da_fires d).

(** A bash probe that passed. *)
Definition probed (fleetName : string) (t : Trigger) (body : string) (d : daemon) : daemon :=
  MkDaemon (da_turn d) (da_phase d) (da_out d) (da_fires d ++ [[MkFire fleetName t body None]]).

(** What the tick at [now] can add to the sequence number. *)
Definition tick_cost (now : Z) (t : turn) : Z :=
  match e_load e (tn_n t) with Some st => dues_cost (snd (dueCronTriggers clock_of st now (sc_lastFired (tn_sched t)))) | None => 0 end.

(** The 64-bit sequence number does not wrap in a step that costs this much. *)
Definition room (cost : Z) (d : daemon) : Prop := l_seq (lim_of (da_turn d)) + cost < 2 ^ 64.

Inductive dstep : daemon -> daemon -> Prop :=
| ds_tick d now : da_phase d = Ticking -> room (tick_cost now (da_turn d)) d -> dstep d (tick now d)
| ds_wake d : da_phase d = Selecting -> dstep d (MkDaemon (da_turn d) Ticking (da_out d) (da_fires d))
| ds_batch d b rest now : da_phase d = Selecting -> da_fires d = b :: rest -> room (fires_cost b) d -> dstep d (take_batch b rest now d)
| ds_stop d now : da_phase d = Selecting -> room (fires_cost (concat (da_fires d))) d -> dstep d (stop now d)
| ds_request d path body load c load' now :
    checks_ok c -> (forall st, load = Some st -> good_state st) -> (forall st, load' = Some st -> good_state st) ->
    (forall st b, load = Some st -> body = Some b -> room (plan_cost (co_fires (collectWebhookFires compile decode st (firstPathSegment path) b))) d) ->
    dstep d (request path body load c load' now d)
| ds_hand d pre b post : da_out d = pre ++ b :: post -> takes d = true -> dstep d (hand b (pre ++ post) d)
| ds_shed d pre b post : da_out d = pre ++ b :: post -> dstep d (shed b (pre ++ post) d)
| ds_probed d f t body : takes d = true -> NoDup (tr_agentNames t) -> dstep d (probed f t body d).

(** ** What every step keeps *)

Definition in_hand (d : daemon) : list triggerFire := concat (da_out d ++ da_fires d).

(** [dead] are plans of firings turned away: nothing is left of them. *)
Record dgood (d : daemon) : Prop := {
  dg_coupled : exists dead, Forall (fun p => pl_start p = []) dead /\ coupled (tn_sched (da_turn d)) (plans_of (in_hand d) ++ dead) [];
  dg_names : names_new e (tn_n (da_turn d)) (sc_watched (tn_sched (da_turn d)));
  dg_seq : l_seq (lim_of (da_turn d)) < 2 ^ 64;
  dg_fires : Forall fire_ok (in_hand d)
}.

Hypothesis He : env_ok e.

Lemma plans_of_app b b' : plans_of (b ++ b') = plans_of b ++ plans_of b'.
Proof. apply omap_app. Qed.

(** A step that ends a piece of the scheduler's own work. *)
Lemma dgood_turn {A} d (m : M A) B plans ph out ch :
  dgood d -> plans_of (in_hand d) ≡ₚ plans ++ plans_of (concat (out ++ ch)) -> Forall fire_ok (concat (out ++ ch)) -> l_seq (lim_of (da_turn d)) + B < 2 ^ 64 ->
  (forall others, triple e (fun t => t = da_turn d /\ ok e B (plans ++ others) [] t) m (fun _ => ok e 0 others [])) ->
  dgood (MkDaemon (exec e m (da_turn d)) ph out ch).
Proof.
  intros [(dead & Hdead & Hc) Hn Hs Hf] HP Hok Hroom Hm.
  assert (ok e 0 (plans_of (concat (out ++ ch)) ++ dead) [] (exec e m (da_turn d))) as [Hc' Hn' Hs'].
  { apply (Hm (plans_of (concat (out ++ ch)) ++ dead)). split; [done|]. split; [|done|done]. eapply coupled_shuffle; [exact Hc|]. by rewrite HP, app_assoc. }
  split; [by exists dead|done| |done]. unfold lim_of. cbn [da_turn]. lia.
Qed.

(** A step of the receiver's, on the limiter only. *)
Lemma dgood_receiver d l plans' out ch :
  dgood d -> Forall fire_ok (concat (out ++ ch)) -> l_seq l < 2 ^ 64 ->
  (forall dead, Forall (fun p => pl_start p = []) dead -> coupled (tn_sched (da_turn d)) (plans_of (in_hand d) ++ dead) [] ->
     coupled (set_lim l (tn_sched (da_turn d))) (plans' ++ dead) []) ->
  (exists dead, Forall (fun p => pl_start p = []) dead /\ plans' ≡ₚ plans_of (concat (out ++ ch)) ++ dead) ->
  dgood (MkDaemon (with_limiter l (da_turn d)) (da_phase d) out ch).
Proof.
  intros [(dead & Hdead & Hc) Hn Hs Hf] Hok Hl Hc' (dead' & Hdead' & HP). split; [|done|done|done]. exists (dead' ++ dead). split; [by apply Forall_app|].
  eapply coupled_shuffle; [exact (Hc' dead Hdead Hc)|]. by rewrite HP, app_assoc.
Qed.

Lemma persist_after {A} B P others (m : M A) : triple e P m (fun _ => ok e B others []) -> triple e P (let! _ := m in persist) (fun _ => ok e B others []).
Proof. intros Hm. eapply triple_bind; [exact Hm|]. intros ?. apply quiet_ok, quiet_persist. Qed.

Lemma tick_good d now : dgood d -> room (tick_cost now (da_turn d)) d -> dgood (tick now d).
Proof.
  intros Hd Hr. pose proof Hd as [_ _ Hs Hf]. apply (dgood_turn d _ 0 []); [done|done|done|lia|]. intros others. apply persist_after. simpl.
  eapply triple_pre; [|apply (schedulerTick_ok e He clock_of 0 others now); lia]. intros t [-> Hok]. split; [done|]. intros st E. unfold room, tick_cost, lim_of in Hr.
  rewrite E in Hr. lia.
Qed.

Lemma in_hand_ch d ch : da_fires d = ch -> in_hand d = concat (da_out d) ++ concat ch.
Proof. intros <-. unfold in_hand. by rewrite concat_app. Qed.

Lemma batch_good d b rest now : dgood d -> da_fires d = b :: rest -> room (fires_cost b) d -> dgood (take_batch b rest now d).
Proof.
  intros Hd Eb Hr. pose proof Hd as [_ _ Hs Hf]. rewrite (in_hand_ch _ _ Eb) in Hf. simpl in Hf. rewrite !Forall_app in Hf. destruct Hf as (Hf1 & Hf2 & Hf3).
  apply (dgood_turn d _ (fires_cost b) (plans_of b)); [done| |by rewrite concat_app, Forall_app|done|].
  - rewrite (in_hand_ch _ _ Eb), concat_app. simpl. rewrite !plans_of_app. rewrite !app_assoc. by rewrite (Permutation_app_comm (plans_of (concat (da_out d)))).
  - intros others. apply persist_after. eapply triple_pre; [|apply (fireTriggerBatch_ok e He 0 others b now); [lia|done]]. by intros t [_ Ht].
Qed.

Lemma stop_good d now : dgood d -> room (fires_cost (concat (da_fires d))) d -> dgood (stop now d).
Proof.
  intros Hd Hr. pose proof Hd as [_ _ Hs Hf]. rewrite (in_hand_ch d _ eq_refl) in Hf. rewrite Forall_app in Hf. destruct Hf as [Hf1 Hf2].
  apply (dgood_turn d _ (fires_cost (concat (da_fires d))) (plans_of (concat (da_fires d)))); [done| |by rewrite app_nil_r|done|].
  - rewrite (in_hand_ch d _ eq_refl), app_nil_r, plans_of_app. apply Permutation_app_comm.
  - intros others. eapply triple_pre; [|apply (holdFires_ok e He 0 others); [lia|]]; [by intros t [_ Ht]|].
    clear -Hf2. induction (da_fires d) as [|b bs IH]; [by constructor|]. simpl in Hf2. rewrite Forall_app in Hf2. destruct Hf2. constructor; auto.
Qed.

Lemma in_hand_out d pre b post : da_out d = pre ++ b :: post -> in_hand d ≡ₚ b ++ concat ((pre ++ post) ++ da_fires d).
Proof.
  intros E. unfold in_hand. rewrite E, !concat_app. simpl. rewrite !app_assoc. do 2 apply Permutation_app_tail. apply Permutation_app_comm.
Qed.

Lemma plans_of_perm b b' : b ≡ₚ b' -> plans_of b ≡ₚ plans_of b'.
Proof. apply omap_Permutation. Qed.

Lemma hand_good d pre b post : dgood d -> da_out d = pre ++ b :: post -> dgood (hand b (pre ++ post) d).
Proof.
  intros [(dead & Hdead & Hc) Hn Hs Hf] E. pose proof (in_hand_out _ _ _ _ E) as HP.
  assert (in_hand (hand b (pre ++ post) d) ≡ₚ in_hand d) as HQ.
  { rewrite HP. unfold in_hand. cbn [hand da_out da_fires]. rewrite app_assoc, concat_app. simpl. rewrite app_nil_r. apply Permutation_app_comm. }
  split; [|done|done|by rewrite HQ]. exists dead. split; [done|]. eapply coupled_shuffle; [exact Hc|]. apply Permutation_app_tail, plans_of_perm. by symmetry.
Qed.

Lemma shed_good d pre b post : dgood d -> da_out d = pre ++ b :: post -> dgood (shed b (pre ++ post) d).
Proof.
  intros Hd E. pose proof (in_hand_out _ _ _ _ E) as HP. pose proof Hd as [_ _ Hs Hf]. rewrite HP, Forall_app in Hf. destruct Hf as [Hb Hf].
  apply (dgood_receiver d _ (plans_of (concat ((pre ++ post) ++ da_fires d)))); [done|done|by rewrite discard_seq_eq| |].
  - intros dead _ Hc. apply coupled_discard. eapply coupled_shuffle; [exact Hc|]. rewrite (plans_of_perm _ _ HP), plans_of_app. by rewrite app_assoc.
  - exists []. split; [done|]. by rewrite app_nil_r.
Qed.

Lemma probed_good d f t body : dgood d -> NoDup (tr_agentNames t) -> dgood (probed f t body d).
Proof.
  intros [(dead & Hdead & Hc) Hn Hs Hf] Ht. assert (in_hand (probed f t body d) = in_hand d ++ [MkFire f t body None]) as E.
  { unfold in_hand. cbn [probed da_out da_fires]. by rewrite app_assoc, concat_app. }
  split; [|done|done|]; rewrite E.
  - exists dead. split; [done|]. rewrite plans_of_app. cbn. by rewrite app_nil_r.
  - apply Forall_app. split; [done|]. by constructor.
Qed.

(** Either a delivery leaves the limiter alone, or it gets as far as planning what it matched. *)
Lemma serve_reaches path body load c load' now l :
  (exists rep, serveWebhook compile decode decodes path body load c load' now true l = (rep, l, None)) \/
  exists st b, load = Some st /\ body = Some b /\
    serveWebhook compile decode decodes path body load c load' now true l =
    deliver c load' now true (co_fires (collectWebhookFires compile decode st (firstPathSegment path) b)) l.
Proof.
  unfold serveWebhook. destruct (String.eqb _ ""); [left; by eexists|]. destruct body as [b|]; [|left; by eexists]. destruct (_ <? _); [left; by eexists|].
  destruct load as [st|]; [|left; by eexists]. cbv zeta. destruct (negb _); [left; by eexists|]. destruct (_ && _); [left; by eexists|].
  destruct (co_fires _) eqn:E; [left; by eexists|]. right. exists st, b. by rewrite E.
Qed.

Lemma collected_ok st name b : good_state st -> Forall fire_ok (co_fires (collectWebhookFires compile decode st name b)) /\
  Forall (fun f => tf_plan f = None) (co_fires (collectWebhookFires compile decode st name b)).
Proof.
  intros Hg. split; apply Forall_forall; intros x Hx%collect_matching; destruct Hx as (fl & Hfl & Ht & _ & _ & Hp); [|done]. by apply (Hg _ _ Hfl).
Qed.

Lemma fire_items_good st fires : good_state st -> Forall fire_ok fires -> Forall (fun f => tf_plan f = None) fires ->
  asked_agents st (fire_items fires) <= plan_cost fires /\ Forall (item_good st) (fire_items fires).
Proof.
  intros Hg Hf Hn. assert (fire_items fires = unplanned fires) as ->; [|by apply unplanned_good].
  clear Hf. induction fires as [|f fires IH]; [done|]. apply Forall_cons in Hn as [Hf Hn]. rewrite unplanned_cons, Hf. simpl. by rewrite (IH Hn).
Qed.

Lemma assigned_plans fires : forall plans, length plans = length fires -> Forall (fun f => tf_plan f = None) fires ->
  plans_of (assign_plans fires plans) = plans /\ (Forall fire_ok fires -> Forall fire_ok (assign_plans fires plans)).
Proof.
  induction fires as [|f fires IH]; intros [|p plans] Hl Hn; try done. apply Forall_cons in Hn as [Hf Hn]. simpl. rewrite Hf.
  destruct (IH plans) as [E1 E2]; [by injection Hl|done|]. split; [unfold plans_of in *; cbn; by rewrite E1|]. intros [Hfo Ho]%Forall_cons. constructor; auto.
Qed.

Lemma deliver_good d fires c load now ph : dgood d -> ph = da_phase d -> checks_ok c -> good_state (loadOrEmpty load) -> Forall fire_ok fires -> Forall (fun f => tf_plan f = None) fires ->
  room (plan_cost fires) d -> let '(_, l, batch) := deliver c load now true fires (lim_of (da_turn d)) in
  dgood (MkDaemon (with_limiter l (da_turn d)) ph (match batch with Some b => da_out d ++ [b] | None => da_out d end) (da_fires d)).
Proof.
  intros Hd -> Hc Hg Hf Hn Hr. pose proof Hd as [_ _ Hs Hfi]. destruct (fire_items_good _ _ Hg Hf Hn) as [Hcost Hi]. unfold room, lim_of in Hr.
  set (s := tn_sched (da_turn d)) in *.
  assert (forall plans, coupled s plans [] -> coupled (set_lim (fst (plan c load (fire_items fires) now (sc_lim s))) s) (plans ++ snd (plan c load (fire_items fires) now (sc_lim s))) [] /\
    l_seq (fst (plan c load (fire_items fires) now (sc_lim s))) <= l_seq (sc_lim s) + asked_agents (loadOrEmpty load) (fire_items fires)) as Hplan
    by (intros plans Hcp; apply coupled_plan; [done|done|lia|done]).
  pose proof (plan_length c load (fire_items fires) now (sc_lim s)) as Hlen. unfold fire_items at 2 in Hlen. rewrite length_map in Hlen.
  unfold deliver, lim_of. fold s. destruct (plan c load (fire_items fires) now (sc_lim s)) as [l plans]. cbn [fst snd] in Hplan, Hlen.
  assert (l_seq l < 2 ^ 64) as Hl by (destruct Hd as [(dead & _ & Hcp) _ _ _]; destruct (Hplan _ Hcp); lia).
  assert (forall dead, coupled s (plans_of (in_hand d) ++ dead) [] -> coupled (set_lim l s) ((plans_of (in_hand d) ++ plans) ++ dead) []) as Hcp.
  { intros dead H. destruct (Hplan _ H) as [H' _]. eapply coupled_shuffle; [exact H'|]. rewrite <- !app_assoc. apply Permutation_app_head, Permutation_app_comm. }
  case_bool_decide as Hall; cbn [negb].
  - apply (dgood_receiver d l (plans_of (in_hand d) ++ plans)); [done|done|done|by intros dead _; apply Hcp|]. exists plans. split; [|done].
    pose proof (proj2 (count_dropped plans (MkTally 0 0 [] 0)) Hall) as Hdr. destruct Hd as [(dead & _ & Hc0) _ _ _].
    pose proof (cp_plans _ _ _ (Hcp _ Hc0)) as Hpf. rewrite !Forall_app in Hpf. destruct Hpf as [[_ Hpf] _]. rewrite Forall_forall in *.
    intros p Hp. apply (proj1 (Hpf p Hp)). by apply Hdr.
  - destruct (assigned_plans fires plans Hlen Hn) as [E1 E2].
    assert (concat ((da_out d ++ [assign_plans fires plans]) ++ da_fires d) ≡ₚ in_hand d ++ assign_plans fires plans) as HP.
    { unfold in_hand. rewrite !concat_app. simpl. rewrite app_nil_r, <- !app_assoc. apply Permutation_app_head, Permutation_app_comm. }
    apply (dgood_receiver d l (plans_of (in_hand d) ++ plans)); [done|rewrite HP; apply Forall_app; auto|done|by intros dead _; apply Hcp|].
    exists []. split; [done|]. rewrite app_nil_r, (plans_of_perm _ _ HP), plans_of_app. by rewrite E1.
Qed.

Lemma request_good d path body load c load' now : dgood d -> checks_ok c ->
  (forall st, load = Some st -> good_state st) -> (forall st, load' = Some st -> good_state st) ->
  (forall st b, load = Some st -> body = Some b -> room (plan_cost (co_fires (collectWebhookFires compile decode st (firstPathSegment path) b))) d) ->
  dgood (request path body load c load' now d).
Proof.
  intros Hd Hc Hl Hl' Hr. unfold request. destruct (serve_reaches path body load c load' now (lim_of (da_turn d))) as [[rep ->]|(st & b & -> & -> & ->)].
  - destruct Hd as [(dead & Hdead & Hcp) Hn Hs Hf]. split; [|done|done|done]. exists dead. split; [done|]. by eapply coupled_ext; [..|exact Hcp].
  - destruct (collected_ok st (firstPathSegment path) b (Hl st eq_refl)) as [Hf Hn].
    assert (good_state (loadOrEmpty load')) as Hg by (destruct load' as [st'|]; simpl; [by apply Hl'|apply good_empty]).
    pose proof (deliver_good d _ c load' now _ Hd eq_refl Hc Hg Hf Hn (Hr st b eq_refl eq_refl)) as H.
    by destruct (deliver _ _ _ _ _ _) as [[rep l] batch].
Qed.

Lemma dstep_good d d' : dgood d -> dstep d d' -> dgood d'.
Proof.
  intros Hd Hs. destruct Hs; [by apply tick_good|by destruct Hd|by apply batch_good|by apply stop_good|by apply request_good|by eapply hand_good|by eapply shed_good|by apply probed_good].
Qed.

Lemma fresh_coupled path : coupled (fresh path) [] [].
Proof.
  assert (forall k w, sc_watched (fresh path) !! k = Some w -> False) as Hno.
  { intros k w Hw. change (sc_watched (fresh path)) with (∅ : gmap string watchedAgent) in Hw. by rewrite lookup_empty in Hw. }
  split; [done|intros k w []%Hno| |done|done].
  intros h a _. change (l_holder (sc_lim (fresh path))) with (∅ : gmap string string). rewrite lookup_empty. split; [done|]. by intros (w & []%Hno & _).
Qed.

Lemma start_good n path now : path <> "" -> (forall wf, file_holds (e_file e n) wf -> file_ok wf) ->
  names_new e (tn_n (da_turn (start n path now))) (sc_watched (tn_sched (da_turn (start n path now)))) ->
  l_seq (lim_of (da_turn (start n path now))) < 2 ^ 64 -> dgood (start n path now).
Proof.
  intros Hp Hf Hn Hs. split; [|done|done|done]. exists []. split; [done|]. apply (restore_coupled e now (MkTurn n (fresh path) [] [])); try done. apply fresh_coupled.
Qed.

Lemma run_good d0 d : dgood d0 -> rtc dstep d0 d -> dgood d.
Proof. intros H. induction 1; [done|]. eauto using dstep_good. Qed.

(** ** Claims *)

(** The runs planned and not taken yet. *)
Definition planned (d : daemon) : list nat := concat (map pl_start (plans_of (in_hand d))).

(** C8: from the restore of its watch list on (ticking, taking batches, stopping, with deliveries planned, handed
    over or shed and probes passing in between), when no delivery was planned before the restore, the slots an
    agent holds in a daemon are exactly those of the instances watched for it and the reservations of the runs
    planned for it and not yet taken, and the creates counted against a connection are exactly the planned ones: no
    failure, requeue, reap or shed delivery leaks a slot or frees one twice. The receiver is up before the restore
    (server.go), and a delivery it plans in that window is not covered: its runs take numbers the restored queue
    may have. *)
Theorem daemon_slots_are_watched n path now d :
  path <> "" -> (forall wf, file_holds (e_file e n) wf -> file_ok wf) ->
  names_new e (tn_n (da_turn (start n path now))) (sc_watched (tn_sched (da_turn (start n path now)))) ->
  l_seq (lim_of (da_turn (start n path now))) < 2 ^ 64 ->
  rtc dstep (start n path now) d ->
  let s := tn_sched (da_turn d) in let l := sc_lim s in
  (forall a h, h ∈ held l a <->
    (exists w, sc_watched s !! h = Some w /\ wa_agent w <> "" /\ a = agentKey (wa_fleet w) (wa_agent w)) \/
    (exists p, p ∈ planned d /\ h = reservation (run l p) /\ a = agent_of (run l p))) /\
  (forall cl, cl <> "" -> creating l cl = Z.of_nat (length (filter (fun p => r_cluster (run l p) = cl) (planned d)))).
Proof.
  intros Hp Hf Hn Hs Hrun. destruct (run_good _ _ (start_good n path now Hp Hf Hn Hs) Hrun) as [(dead & Hdead & Hc) _ _ _]. cbv zeta.
  destruct (coupled_rel _ _ _ Hc) as [g Hg]. destruct (counts_true _ (cp_reach _ _ _ Hc)) as (_ & Hcr & Hre & Hhe).
  assert (todo (MkSystem (sc_lim (tn_sched (da_turn d))) (plans_of (in_hand d) ++ dead) (map snd ([] : list (string * nat)))) = planned d) as Et.
  { unfold todo, planned. cbn [y_plans y_runs map]. rewrite map_app, concat_app, !app_nil_r. clear -Hdead. induction Hdead as [|p dead Hp _ IH]; [apply app_nil_r|]. simpl. by rewrite Hp. }
  rewrite Et in *. cbn [y_lim] in *. split; [|done]. intros a h. rewrite Hhe. destruct (contains_byte h slash) eqn:Ek.
  - rewrite (cp_slots _ _ _ Hc) by done. split; [by left|]. intros [?|(p & Hin & -> & _)]; [done|]. exfalso. eapply reservation_not_watch; [|exact Ek].
    eapply (todo_heap _ _ p Hg). by rewrite Et.
  - rewrite Hre by (unfold is_watch_key; by rewrite Ek). split; [by right|]. intros [(w & Hw & _)|?]; [|done]. exfalso.
    apply (cp_keys _ _ _ Hc) in Hw. subst h. pose proof (watch_key_slash (wa_fleet w) (wa_instance w)) as Hk. unfold is_watch_key, wa_key in *. congruence.
Qed.

End daemon.

Module DaemonExamples.
Import WebhookExamples.
Definition noon (now : Z) : clock := MkClock 0 12 1 1 1.

(** A fleet with a webhook trigger, a daily one whose agent is gone, and the instance the first run makes. *)
Definition daily : Trigger := MkTrigger "daily" TriggerSchedule ["gone"] "go" "0 12 * * *" "" "" "" "" "" "" false.
Definition made : Instance_ := MkInstance "a-1" "" 0 StatusCreating "" BackendKubernetes false "prod" "".
Definition site : State := {["web" := MkFleet (MkSettings [LimiterExamples.runner "a"] [on_push; daily]) [made]]}.

(** *** A codec of the watch list *)

Definition why_shape : Type := string + (string * Z * string) + (string * Z * Z) + string + string + string + string + string + (string * string) + unit.
#[export] Instance why_countable : Countable why.
Proof.
  refine (inj_countable' (A := why_shape)
    (fun w => match w with
     | WEarlier a => inl (inl (inl (inl (inl (inl (inl (inl (inl a))))))))
     | WAgentLimit a n c => inl (inl (inl (inl (inl (inl (inl (inl (inr (a, n, c)))))))))
     | WInterval c t i => inl (inl (inl (inl (inl (inl (inl (inr (c, t, i))))))))
     | WMessage m => inl (inl (inl (inl (inl (inl (inr m))))))
     | WGone c => inl (inl (inl (inl (inl (inr c)))))
     | WNoAgent a => inl (inl (inl (inl (inr a))))
     | WNoTrigger t => inl (inl (inl (inr t)))
     | WDisabled t => inl (inl (inr t))
     | WNotFired t a => inl (inr (t, a))
     | WStopped => inr tt
     end)
    (fun x => match x with
     | inl (inl (inl (inl (inl (inl (inl (inl (inl a)))))))) => WEarlier a
     | inl (inl (inl (inl (inl (inl (inl (inl (inr (a, n, c))))))))) => WAgentLimit a n c
     | inl (inl (inl (inl (inl (inl (inl (inr (c, t, i)))))))) => WInterval c t i
     | inl (inl (inl (inl (inl (inl (inr m)))))) => WMessage m
     | inl (inl (inl (inl (inl (inr c))))) => WGone c
     | inl (inl (inl (inl (inr a)))) => WNoAgent a
     | inl (inl (inl (inr t))) => WNoTrigger t
     | inl (inl (inr t)) => WDisabled t
     | inl (inr (t, a)) => WNotFired t a
     | inr _ => WStopped
     end) _); by intros [].
Defined.
#[export] Instance watchRunEvent_countable : Countable watchRunEvent.
Proof. refine (inj_countable' (fun r => (re_kind r, re_firedAt r, re_webhook r, (re_logFile r, re_payloadSize r))) (fun '(k, t, w, (l, z)) => MkRunEvent k t w l z) _); by intros []. Defined.
#[export] Instance watchRun_countable : Countable watchRun.
Proof.
  refine (inj_countable' (fun r => (wr_fleet r, wr_instance r, wr_trigger r, wr_agent r, (wr_command r, wr_prompt r, wr_systemPrompt r), (wr_spawnedAt r, wr_launched r, wr_adopted r, wr_event r)))
    (fun '(f, i, t, a, (c, p, sp), (sa, l, ad, ev)) => MkWatchRun f i t a c p sp sa l ad ev) _); by intros [].
Defined.
#[export] Instance watchFired_countable : Countable watchFired.
Proof. refine (inj_countable' (fun f => (wd_fleet f, wd_trigger f, wd_minute f)) (fun '(f, t, m) => MkWatchFired f t m) _); by intros []. Defined.
#[export] Instance watchQueued_countable : Countable watchQueued.
Proof.
  refine (inj_countable' (fun q => (wq_id q, wq_firing q, (wq_fleet q, wq_trigger q, wq_agent q, wq_prompt q, wq_cluster q), (wq_queuedAt q, wq_why q, wq_event q)))
    (fun '(i, fi, (f, t, a, p, c), (qa, w, ev)) => MkWatchQueued i fi f t a p c qa w ev) _); by intros [].
Defined.
#[export] Instance watchFile_countable : Countable watchFile.
Proof. refine (inj_countable' (fun wf => (wf_version wf, wf_runs wf, wf_fired wf, wf_queued wf)) (fun '(v, r, f, q) => MkWatchFile v r f q) _); by intros []. Defined.

#[export] Instance list_codec : watch_codec.
Proof.
  refine (Build_watch_codec (fun wf => bits (encode wf)) (fun s => decode (A := watchFile) (unbits s)) _).
  intros wf _. cbv beta. rewrite unbits_bits. apply decode_encode.
Defined.

(** The log of the second delivery. *)
Definition pushed_event : triggerEvent := MkEvent TriggerWebhook "push" (2 * second) "gh" "pushed".

(** One create works, at the question the first batch asks. *)
Definition e : env := MkEnv (fun _ => Some site) (fun _ => LimiterExamples.checks) (fun n => if Nat.eqb n 7 then Created "a-1" else CreateFailed "no")
  (fun _ => "event-1") (fun _ _ _ => None) (fun _ => None) (fun _ => true) (fun _ _ => {["event-1" := triggerEventLogHeader pushed_event +:+ "pushed"]}) (fun _ => FileMissing) default_timeouts.

Definition ask (now : Z) (d : daemon) : daemon :=
  request literal no_json (fun _ => false) "/gh" (Some "pushed") (Some site) LimiterExamples.checks (Some site) now d.
Definition sent (n : nat) (d : daemon) : list triggerFire := nth n (da_out d) [].

(** A delivery taken and its run created; a second one planned to start, and a third one queued and taken before it. *)
Definition d0 : daemon := start e 0 "watch.json" 0.
Definition d1 : daemon := tick e noon second d0.
Definition d2 : daemon := ask (2 * second) d1.
Definition d3 : daemon := hand (sent 0 d2) [] d2.
Definition d4 : daemon := take_batch e (sent 0 d2) [] (3 * second) d3.
Definition d5 : daemon := tick e noon (4 * second) d4.
Definition d6 : daemon := ask (100 * second) d5.
Definition d7 : daemon := ask (101 * second) d6.
Definition d8 : daemon := hand (sent 1 d7) [sent 0 d7] d7.
Definition d9 : daemon := take_batch e (sent 1 d7) [] (102 * second) d8.

Definition step : daemon -> daemon -> Prop := dstep e noon literal no_json (fun _ => false).

Lemma site_good : good_state site.
Proof.
  intros f fl. unfold site. intros [<- <-]%lookup_singleton_Some. split; simpl.
  - intros ag ->%list_elem_of_singleton. done.
  - intros t Ht. repeat (apply elem_of_cons in Ht as [->|Ht]; [apply (bool_decide_unpack _); vm_compute; exact I|]). by apply not_elem_of_nil in Ht.
Qed.

Lemma e_ok : env_ok e.
Proof. split; [done|]. intros n st [= <-]. exact site_good. Qed.

Lemma e_names : names_new e (tn_n (da_turn d0)) (sc_watched (tn_sched (da_turn d0))).
Proof.
  assert (sc_watched (tn_sched (da_turn d0)) = ∅) as -> by (vm_compute; reflexivity).
  assert (forall k name, e_create e k = Created name -> k = 7%nat) as H by (intros k name; unfold e; cbn [e_create]; by destruct (Nat.eqb_spec k 7)).
  split; [intros; apply lookup_empty|]. intros k k' f f' name name' _ Hk H1%H H2%H. lia.
Qed.

Lemma ask_moves now d : room (plan_cost (co_fires (collectWebhookFires literal no_json site (firstPathSegment "/gh") "pushed"))) d -> step d (ask now d).
Proof.
  intros Hr. apply ds_request; [done|intros st [= <-]; exact site_good|intros st [= <-]; exact site_good|]. intros st b [= <-] [= <-]. exact Hr.
Qed.

Lemma reach_d6 : rtc step d0 d6.
Proof.
  apply (rtc_l _ _ d1); [apply ds_tick; vm_compute; reflexivity|]. apply (rtc_l _ _ d2); [apply ask_moves; vm_compute; reflexivity|].
  apply (rtc_l _ _ d3); [apply (ds_hand _ _ _ _ _ d2 []); vm_compute; reflexivity|]. apply (rtc_l _ _ d4); [apply ds_batch; vm_compute; reflexivity|].
  apply (rtc_l _ _ d5); [apply ds_tick; vm_compute; reflexivity|]. apply rtc_once, ask_moves. vm_compute. reflexivity.
Qed.

Lemma reach_d9 : rtc step d0 d9.
Proof.
  etrans; [exact reach_d6|]. apply (rtc_l _ _ d7); [apply ask_moves; vm_compute; reflexivity|].
  apply (rtc_l _ _ d8); [apply (ds_hand _ _ _ _ _ d7 [sent 0 d7] _ []); vm_compute; reflexivity|]. apply rtc_once, ds_batch; vm_compute; reflexivity.
Qed.

Lemma daemon_slots_are_watched_witness :
  planned d6 = [1%nat] /\ creating (lim_of (da_turn d6)) "prod" = 1 /\
  (forall a h, h ∈ held (lim_of (da_turn d6)) a <->
    (exists w, sc_watched (tn_sched (da_turn d6)) !! h = Some w /\ wa_agent w <> "" /\ a = agentKey (wa_fleet w) (wa_agent w)) \/
    (exists p, p ∈ planned d6 /\ h = reservation (run (lim_of (da_turn d6)) p) /\ a = agent_of (run (lim_of (da_turn d6)) p))).
Proof.
  split; [vm_compute; reflexivity|]. split; [vm_compute; reflexivity|].
  refine (proj1 (daemon_slots_are_watched e noon literal no_json (fun _ => false) e_ok 0 "watch.json" 0 d6 _ _ e_names _ reach_d6));
    [done|intros wf (? & [=] & _)|vm_compute; reflexivity].
Defined.

(** The next daemon, started from the list of [d9]'s scheduler. *)
Definition s9 : scheduler := tn_sched (da_turn d9).
Definition e' : env := MkEnv (e_load e) (e_checks e) (e_create e) (e_log e) (e_probe e) (e_reap e) (e_write e) (e_logs e)
  (fun _ => FileRead (enc_watch (snapshot s9))) (e_timeouts e).

Lemma s9_coupled : exists plans, coupled s9 plans [].
Proof.
  destruct (run_good e noon literal no_json (fun _ => false) e_ok d0 d9) as [(dead & _ & Hc) _ _ _]; [|exact reach_d9|by eexists].
  apply start_good; [done|intros wf (? & [=] & _)|exact e_names|vm_compute; reflexivity].
Qed.

Lemma s9_writable : writable (snapshot s9).
Proof.
  split.
  - apply all_utf8. vm_compute. reflexivity.
  - apply (bool_decide_unpack _). vm_compute. exact I.
  - apply (bool_decide_unpack _). vm_compute. exact I.
Qed.

Lemma s9_fired k : is_Some (sc_lastFired s9 !! k) -> contains_byte k nul = true.
Proof.
  assert (map_Forall (fun k _ => contains_byte k nul = true) (sc_lastFired s9)) as H by (apply (bool_decide_unpack _); vm_compute; exact I).
  intros [m Hm]. exact (H k m Hm).
Qed.

Lemma watch_list_survives_restart_witness :
  size (sc_watched s9) = 1%nat /\ size (sc_lastFired s9) = 1%nat /\ length (queue (sc_lim s9) (firedKey "web" "push")) = 1%nat /\
  carried_over e' (200 * second) (Some site) s9 (tn_sched (snd (restore (200 * second) e' (MkTurn 0 (fresh "watch.json") [] [])))) /\
  payload_back e' "web" "event-1" pushed_event = pushed_event.
Proof.
  split; [vm_compute; reflexivity|]. split; [vm_compute; reflexivity|]. split; [vm_compute; reflexivity|].
  destruct s9_coupled as [plans Hc].
  destruct (watch_list_survives_restart e' (200 * second) 0 "watch.json" s9 plans [] [] [] Hc s9_writable s9_fired ltac:(done) eq_refl) as [H1 H2].
  split; [exact H1|]. apply H2. split; [reflexivity|]. exists "". reflexivity.
Defined.
End DaemonExamples.
