(* ===== verification/SchedulerClaims.v ===== *)
(** * What the scheduler does with triggers and instances

    Which cron triggers fire when it samples them, and which instances it
    destroys when it looks after the ones it watches. *)

From S2P Require Import Prelude GoStrings GoText Entry Cron JsonPath Automation FleetState Limiter LimiterLedger LimiterPlan LimiterOps LimiterDue LimiterSystem LimiterClaims Scheduler SchedulerSlots SchedulerRun Webhook.
Local Open Scope string_scope.
Local Open Scope Z_scope.
Local Open Scope list_scope.
Local Open Scope sched_scope.

(** ** Cron triggers *)

Section cron.
Context (clock_of : Z -> clock).

(** The trigger's schedule names the minute of [now]. *)
Definition matches_now (now : Z) (t : Trigger) : bool :=
  IsCron (tr_type t) && negb (tr_disabled t) && negb (String.eqb (tr_cron t) "") &&
  match ParseCron (tr_cron t) with Ok sched => Cron_Matches sched (clock_of now) | Err _ => false end.

Definition due_key (ft : string * Trigger) : string := firedKey (fst ft) (tr_name (snd ft)).

(** It has not fired in this minute or a later one. *)
Definition not_fired (now : Z) (m : gmap string Z) (ft : string * Trigger) : bool :=
  match m !! due_key ft with Some last => last <? truncate_minute now | None => true end.

Definition due_now (now : Z) (m : gmap string Z) (ft : string * Trigger) : bool := matches_now now (snd ft) && not_fired now m ft.

Definition all_triggers (nfs : list (string * Fleet)) : list (string * Trigger) :=
  concat (map (fun nf => map (pair (fst nf)) (st_triggers (fl_settings (snd nf)))) nfs).

Definition due_step (now : Z) (s : cron_scan) (ft : string * Trigger) : cron_scan := due_trigger clock_of now (fst ft) s (snd ft).

Lemma due_flat now nfs : forall s, foldl (due_fleet clock_of now) s nfs = foldl (due_step now) s (all_triggers nfs).
Proof.
  induction nfs as [|[f fl] nfs IH]; intros s; [done|]. unfold all_triggers. cbn [foldl map concat]. rewrite foldl_app. fold (all_triggers nfs). rewrite <- IH. f_equal.
  unfold due_fleet. cbn [fst snd]. generalize (st_triggers (fl_settings fl)). intros ts. revert s. induction ts as [|t ts IHt]; intros s; [done|]. simpl. apply IHt.
Qed.

Lemma due_step_eq now s ft : due_step now s ft =
  MkScan (if due_now now (cs_fired s) ft then <[due_key ft := truncate_minute now]> (cs_fired s) else cs_fired s)
    (if IsCron (tr_type (snd ft)) then {[due_key ft]} ∪ cs_current s else cs_current s)
    (if due_now now (cs_fired s) ft then cs_out s ++ [ft] else cs_out s).
Proof.
  destruct ft as [f t]. unfold due_step, due_trigger, due_now, matches_now, not_fired, due_key. cbn [fst snd]. destruct (IsCron (tr_type t)); cbn [negb andb]; [|by destruct s].
  destruct (tr_disabled t); cbn [negb andb]; [done|]. destruct (String.eqb _ ""); cbn [negb andb]; [done|].
  destruct (ParseCron (tr_cron t)) as [sched|]; cbn [andb]; [|done]. destruct (Cron_Matches sched (clock_of now)); cbn [negb andb]; [|done].
  cbn [cs_fired cs_current cs_out]. destruct (cs_fired s !! _) as [last|]; [|done]. by destruct (last <? truncate_minute now).
Qed.

Record scanned (now : Z) (fts : list (string * Trigger)) (s s' : cron_scan) : Prop := {
  sn_out : cs_out s' = cs_out s ++ filter (fun ft => due_now now (cs_fired s) ft = true) fts;
  sn_current : forall k, k ∈ cs_current s' <-> k ∈ cs_current s \/ exists ft, ft ∈ fts /\ IsCron (tr_type (snd ft)) = true /\ k = due_key ft;
  sn_fired : forall ft, ft ∈ fts -> due_now now (cs_fired s) ft = true -> cs_fired s' !! due_key ft = Some (truncate_minute now);
  sn_kept : forall k, (forall ft, ft ∈ fts -> due_now now (cs_fired s) ft = true -> due_key ft <> k) -> cs_fired s' !! k = cs_fired s !! k
}.

Lemma due_now_ext now m m' ft : m !! due_key ft = m' !! due_key ft -> due_now now m ft = due_now now m' ft.
Proof. intros E. unfold due_now, not_fired. by rewrite E. Qed.

Lemma scan_all now fts : NoDup (map due_key fts) -> forall s, scanned now fts s (foldl (due_step now) s fts).
Proof.
  induction fts as [|ft fts IH]; intros Hnd s.
  { split; simpl; [by rewrite app_nil_r|intros k; set_solver|intros ? ?%not_elem_of_nil; done|done]. }
  apply NoDup_cons in Hnd as [Hn Hnd]. cbn [foldl]. destruct (IH Hnd (due_step now s ft)) as [H1 H2 H3 H4]. rewrite due_step_eq in H1, H2, H3, H4 |- *.
  set (s1 := MkScan _ _ _) in *.
  assert (forall ft', ft' ∈ fts -> due_key ft' <> due_key ft) as Hne by (intros ft' Hin E; apply Hn, list_elem_of_fmap; by exists ft').
  assert (forall ft', ft' ∈ fts -> due_now now (cs_fired s1) ft' = due_now now (cs_fired s) ft') as Hsame.
  { intros ft' Hin. apply due_now_ext. unfold s1. cbn [cs_fired]. destruct (due_now now (cs_fired s) ft); [|done]. rewrite lookup_insert_ne; [done|].
    intros E. by apply (Hne ft' Hin). }
  split.
  - rewrite H1. rewrite (filter_ext_in _ (fun ft => due_now now (cs_fired s) ft = true)) by (intros x Hx; by rewrite Hsame).
    unfold s1. cbn [cs_out]. destruct (due_now now (cs_fired s) ft) eqn:E; [rewrite filter_cons_True by done; by rewrite <- app_assoc|by rewrite filter_cons_False by congruence].
  - intros k. rewrite H2. unfold s1. cbn [cs_current]. split.
    + destruct (IsCron (tr_type (snd ft))) eqn:E; [intros [[->%elem_of_singleton|?]%elem_of_union|(ft' & ? & ? & ?)]|intros [?|(ft' & ? & ? & ?)]];
        [right; exists ft|left|right; exists ft'|left|right; exists ft']; repeat split; try done; by rewrite elem_of_cons; auto.
    + intros [?|(ft' & [->|?]%elem_of_cons & Hcron & ->)].
      * left. destruct (IsCron _); [by apply elem_of_union_r|done].
      * left. rewrite Hcron. by apply elem_of_union_l, elem_of_singleton.
      * right. by exists ft'.
  - intros ft' [->|Hin]%elem_of_cons Hd.
    + rewrite H4 by (intros; by apply Hne). unfold s1. cbn [cs_fired]. rewrite Hd. apply lookup_insert_eq.
    + apply H3; [done|]. by rewrite Hsame.
  - intros k Hk. rewrite H4.
    + unfold s1. cbn [cs_fired]. destruct (due_now now (cs_fired s) ft) eqn:E; [|done]. apply lookup_insert_ne. apply Hk; [set_solver|done].
    + intros ft' Hin Hd. apply Hk; [set_solver|]. by rewrite <- Hsame.
Qed.
Lemma triggers_elem st f t : (f, t) ∈ all_triggers (map_to_list st) <-> exists fl : Fleet, st !! f = Some fl /\ t ∈ st_triggers (fl_settings fl).
Proof.
  unfold all_triggers. rewrite list_elem_of_In, in_concat. split.
  - intros (xs & ([f' fl] & <- & Hin%list_elem_of_In)%in_map_iff & Hx%list_elem_of_In). apply elem_of_map_to_list in Hin.
    apply list_elem_of_fmap in Hx as (t' & [= -> ->] & Ht). by exists fl.
  - intros (fl & Hf & Ht). exists (map (pair f) (st_triggers (fl_settings fl))). split; [|by apply list_elem_of_In, list_elem_of_fmap; exists t].
    apply in_map_iff. exists (f, fl). split; [done|]. apply list_elem_of_In. by apply elem_of_map_to_list.
Qed.

Lemma due_keys_distinct st : plain_state st -> NoDup (map due_key (all_triggers (map_to_list st))).
Proof.
  intros Hp. apply (NoDup_map_on).
  - unfold all_triggers. assert (forall nfs : list (string * Fleet), NoDup (map fst nfs) -> (forall nf, nf ∈ nfs -> NoDup (st_triggers (fl_settings (snd nf)))) ->
      NoDup (concat (map (fun nf => map (pair (fst nf)) (st_triggers (fl_settings (snd nf)))) nfs))) as H.
    { induction nfs as [|nf nfs IH]; intros Hn Ht; simpl; [apply NoDup_nil_2|]. apply NoDup_cons in Hn as [Hnf Hn]. apply NoDup_app. split; [|split].
      - apply NoDup_fmap_2; [by intros ? ? [=]|]. apply Ht. set_solver.
      - intros ft (t & -> & _)%list_elem_of_fmap Hin. apply list_elem_of_In, in_concat in Hin as (xs & (nf' & <- & Hnf'%list_elem_of_In)%in_map_iff & Hx%list_elem_of_In).
        apply list_elem_of_fmap in Hx as (t' & [= Ef _] & _). apply Hnf, list_elem_of_fmap. by exists nf'.
      - apply IH; [done|]. intros nf' Hin. apply Ht. set_solver. }
    apply H; [apply NoDup_fst_map_to_list|]. intros [f fl] Hin%elem_of_map_to_list. eapply NoDup_fmap_1. by apply (Hp f fl Hin).
  - intros [f t] [f' t'] (fl & Hf & Ht)%triggers_elem (fl' & Hf' & Ht')%triggers_elem E. unfold due_key in E. cbn [fst snd] in E.
    destruct (Hp _ _ Hf) as (Hnf & Hnd & Htr), (Hp _ _ Hf') as (Hnf' & _ & Htr'). apply (f_equal (cut_byte nul)) in E. unfold firedKey in E.
    rewrite !cut_byte_app in E by done. injection E as <- E. rewrite Hf in Hf'. injection Hf' as <-. f_equal.
    eapply NoDup_map_inj; [exact Hnd|done|done|done].
Qed.

(** Sampling the cron triggers at an instant gives, once each, exactly the enabled ones whose schedule names
    the current minute and that have not fired in it (or a later one); their minute is noted, every other
    trigger's is kept and those of triggers no longer there are dropped; so no trigger fires twice in a minute,
    however often it is sampled. *)
Theorem cron_fires_once_a_minute st now lastFired :
  plain_state st ->
  let fired' := fst (dueCronTriggers clock_of st now lastFired) in let dues := snd (dueCronTriggers clock_of st now lastFired) in
  NoDup dues /\
  (forall f t, (f, t) ∈ dues <-> (exists fl, st !! f = Some fl /\ t ∈ st_triggers (fl_settings fl)) /\ matches_now now t = true /\ not_fired now lastFired (f, t) = true) /\
  (forall f t, (f, t) ∈ dues -> fired' !! firedKey f (tr_name t) = Some (truncate_minute now)) /\
  (forall f fl t, st !! f = Some fl -> t ∈ st_triggers (fl_settings fl) -> IsCron (tr_type t) = true -> (f, t) ∉ dues ->
     fired' !! firedKey f (tr_name t) = lastFired !! firedKey f (tr_name t)) /\
  (forall k, is_Some (fired' !! k) -> exists f fl t, st !! f = Some fl /\ t ∈ st_triggers (fl_settings fl) /\ IsCron (tr_type t) = true /\ k = firedKey f (tr_name t)) /\
  (forall now' ft, truncate_minute now' <= truncate_minute now -> ft ∈ dues -> ft ∉ snd (dueCronTriggers clock_of st now' fired')).
Proof.
  intros Hp. pose proof (due_keys_distinct st Hp) as Hnd. set (fts := all_triggers (map_to_list st)) in *.
  assert (forall now m, scanned now fts (MkScan m ∅ []) (foldl (due_fleet clock_of now) (MkScan m ∅ []) (map_to_list st))) as Hscan
    by (intros now' m; rewrite due_flat; by apply scan_all).
  assert (forall now m, snd (dueCronTriggers clock_of st now m) = filter (fun ft => due_now now m ft = true) fts) as Hout
    by (intros now' m; exact (sn_out _ _ _ _ (Hscan now' m))).
  destruct (Hscan now lastFired) as [_ Hcur Hfi Hke]. cbv zeta. rewrite Hout. setoid_rewrite Hout. unfold dueCronTriggers. cbn [fst].
  set (s' := foldl (due_fleet clock_of now) (MkScan lastFired ∅ []) (map_to_list st)) in *. cbn [cs_fired cs_current] in *.
  assert (forall f t, (f, t) ∈ filter (fun ft => due_now now lastFired ft = true) fts <->
    (exists fl, st !! f = Some fl /\ t ∈ st_triggers (fl_settings fl)) /\ matches_now now t = true /\ not_fired now lastFired (f, t) = true) as Hel.
  { intros f t. rewrite list_elem_of_filter. unfold fts. rewrite triggers_elem. unfold due_now. rewrite andb_true_iff. cbn [snd]. tauto. }
  assert (forall f t, matches_now now t = true -> (f, t) ∈ fts -> due_key (f, t) ∈ cs_current s') as Hc.
  { intros f t Hm Hin. apply Hcur. right. exists (f, t). split; [done|]. split; [|done]. unfold matches_now in Hm. rewrite !andb_true_iff in Hm. tauto. }
  set (fired' := filter _ (cs_fired s')).
  assert (forall f t, (f, t) ∈ filter (fun ft => due_now now lastFired ft = true) fts -> fired' !! due_key (f, t) = Some (truncate_minute now)) as Hset.
  { intros f t [Hd Hin]%list_elem_of_filter. apply map_lookup_filter_Some_2; [by apply Hfi|]. apply Hc; [|done]. unfold due_now in Hd. rewrite andb_true_iff in Hd. tauto. }
  split; [apply NoDup_filter; by eapply NoDup_fmap_1|]. split; [exact Hel|]. split; [exact Hset|]. split; [|split].
  - intros f fl t Hf Ht Hcron Hno. assert ((f, t) ∈ fts) as Hin by (apply triggers_elem; by exists fl).
    change (firedKey f (tr_name t)) with (due_key (f, t)). rewrite <- Hke.
    + unfold fired'. apply option_eq. intros v. split; [by intros [? _]%map_lookup_filter_Some|]. intros Hv. apply map_lookup_filter_Some. split; [done|]. apply Hcur. right. by exists (f, t).
    + intros ft' Hin' Hd E. assert (ft' = (f, t)) as -> by (by eapply NoDup_map_inj). apply Hno. by apply list_elem_of_filter.
  - intros k [v Hv]. apply map_lookup_filter_Some in Hv as [_ Hk]. cbn [fst] in Hk. apply Hcur in Hk as [?%elem_of_empty|([f t] & Hin & Hcron & ->)]; [done|]. apply triggers_elem in Hin as (fl & ? & ?).
    by exists f, fl, t.
  - intros now' [f t] Hle Hin%Hset [Hd _]%list_elem_of_filter. unfold due_now, not_fired in Hd. rewrite Hin, andb_true_iff, Z.ltb_lt in Hd. lia.
Qed.
End cron.

(** ** The instances it looks after *)

Section watching.
Context (e : env) (st : State) (now : Z).
Let ts := e_timeouts e.

(** What is read of a watched run's instance on one look, with the probe's answer. *)
Inductive look :=
| Gone | FailedNow (inst : Instance_) | Overdue | Starts (inst : Instance_)
| Probed (inst : Instance_) | Waiting.

Definition look_at_run (w : watchedAgent) : look :=
  match findInstance st (wa_fleet w) (wa_instance w) with
  | None => Gone
  | Some inst =>
      match in_status inst with
      | StatusFailed => FailedNow inst
      | StatusRunning => if wa_launched w then Probed inst else Starts inst
      | StatusCreating => if createOverdue ts w inst now then Overdue else Waiting
      | _ => Waiting
      end
  end.

Definition idle_out (w : watchedAgent) (pr : probe_result) : bool := idleLimit ts (set_session (pr_session pr) w) <=? now - wa_lastActive w.

(** The run after it, and what is done about it. *)
Definition run_after (pr : option probe_result) (w : watchedAgent) : option watchedAgent :=
  match look_at_run w with
  | Gone | FailedNow _ | Overdue => None
  | Starts _ => Some (set_launched now w)
  | Waiting => Some w
  | Probed _ =>
      match pr with
      | None => Some w
      | Some pr =>
          if pr_working pr then Some (set_active now (set_session (pr_session pr) w))
          else if idle_out w pr then None else Some (set_session (pr_session pr) w)
      end
  end.

Definition acts_about (pr : option probe_result) (w : watchedAgent) : list action :=
  match look_at_run w with
  | Gone | Waiting => []
  | FailedNow inst =>
      if String.eqb (in_backend inst) BackendKubernetes
      then [if interruptedCreate inst then AReap (wa_fleet w) (wa_instance w) else ARelease (wa_fleet w) inst] else []
  | Overdue => [AReap (wa_fleet w) (wa_instance w)]
  | Starts inst => [ALaunch w inst]
  | Probed _ => match pr with Some pr => if negb (pr_working pr) && idle_out w pr then [AReap (wa_fleet w) (wa_instance w)] else [] | None => [] end
  end.

(** A piece of the work about the run under [k], which is [w]: what is left of it, and the actions added. *)
Definition about {A} (k : string) (w : watchedAgent) (m : M A) (r : option watchedAgent) (acts : list action) (x : A) : Prop :=
  forall t, sc_watched (tn_sched t) !! k = Some w ->
  fst (m e t) = x /\ sc_watched (tn_sched (snd (m e t))) = partial_alter (fun _ => r) k (sc_watched (tn_sched t)) /\ tn_acts (snd (m e t)) = tn_acts t ++ acts.

(** Work that neither watches nor acts. *)
Definition idle {A} (m : M A) : Prop := forall t, sc_watched (tn_sched (snd (m e t))) = sc_watched (tn_sched t) /\ tn_acts (snd (m e t)) = tn_acts t.

Lemma idle_line w o : idle (recordTriggerOutcome w now o).
Proof.
  intros t. unfold recordTriggerOutcome. destruct (wa_event w) as [ev|]; [|done]. destruct (String.eqb _ _); [done|]. unfold appendTriggerOutcome. by destruct (log_name_ok _).
Qed.

Lemma about_same {A} k w (m : M A) x : idle m -> (forall t, fst (m e t) = x) -> about k w m (Some w) [] x.
Proof.
  intros Hm Hx t Hw. destruct (Hm t) as [-> ->]. split; [apply Hx|]. split; [|by rewrite app_nil_r]. apply map_eq. intros k'. destruct (decide (k' = k)) as [->|Hne].
  - by rewrite lookup_partial_alter_eq.
  - by rewrite lookup_partial_alter_ne.
Qed.

Lemma about_bind {A B} k w w' (m : M A) (f : A -> M B) r acts acts' x y :
  about k w m (Some w') acts x -> about k w' (f x) r acts' y -> about k w (bind m f) r (acts ++ acts') y.
Proof.
  intros Hm Hf t Hw. unfold bind. destruct (Hm t Hw) as (E1 & E2 & E3). destruct (m e t) as [x' t']. cbn [fst snd] in *. subst x'.
  destruct (Hf t') as (F1 & F2 & F3); [rewrite E2; apply lookup_partial_alter_eq|]. split; [done|]. rewrite F2, F3, E2, E3, app_assoc. split; [|done].
  apply map_eq. intros k'. destruct (decide (k' = k)) as [->|Hne]; [by rewrite !lookup_partial_alter_eq|by rewrite !lookup_partial_alter_ne].
Qed.

Lemma about_ret {A B} k w (m : M A) r acts x (y : B) : about k w m r acts x -> about k w (let! _ := m in ret y) r acts y.
Proof. intros Hm t Hw. unfold bind. destruct (Hm t Hw) as (E1 & E2 & E3). by destruct (m e t) as [x' t']. Qed.

Lemma about_act k w a : about k w (act a) (Some w) [a] tt.
Proof.
  intros t Hw. split; [done|]. split; [|done]. cbn. apply map_eq. intros k'. destruct (decide (k' = k)) as [->|Hne]; [by rewrite lookup_partial_alter_eq|by rewrite lookup_partial_alter_ne].
Qed.

Lemma about_unwatch k w : about k w (modify (unwatch k)) None [] tt.
Proof. intros t Hw. split; [done|]. split; [|by rewrite app_nil_r]. done. Qed.

Lemma about_touch k w f : about k w (touch_watched k f) (Some (f w)) [] tt.
Proof.
  intros t Hw. split; [done|]. split; [|by rewrite app_nil_r]. simpl. apply map_eq. intros k'. destruct (decide (k' = k)) as [->|Hne].
  - by rewrite lookup_alter_eq, lookup_partial_alter_eq, Hw.
  - by rewrite lookup_alter_ne, lookup_partial_alter_ne.
Qed.
Lemma about_reap k w o : about k w (let! err := reap (wa_fleet w) (wa_instance w) in recordTriggerOutcome w now (o err)) (Some w) [AReap (wa_fleet w) (wa_instance w)] tt.
Proof.
  intros t Hw. destruct (about_act k w (AReap (wa_fleet w) (wa_instance w)) t Hw) as (_ & E2 & E3).
  unfold bind, reap, bind, question. destruct (act _ e t) as [x t']. cbn [fst snd] in *. set (t2 := MkTurn _ _ _ _). set (r := recordTriggerOutcome _ _ _ _ _).
  destruct (idle_line w (o (e_reap e (tn_n t'))) t2) as [F1 F2]. fold r in F1, F2. split; [by destruct (fst r)|]. rewrite F1, F2. done.
Qed.

Lemma about_line k w o : about k w (recordTriggerOutcome w now o) (Some w) [] tt.
Proof. apply about_same; [apply idle_line|]. intros t. by destruct (fst _). Qed.

Lemma failedRun_about k w inst : look_at_run w = FailedNow inst -> about k w (failedRun w inst now) (Some w) (acts_about None w) tt.
Proof.
  intros E. unfold failedRun, acts_about. rewrite E. destruct (String.eqb _ _); cbn [andb].
  - destruct (interruptedCreate inst); [apply (about_reap k w OInterrupted)|]. apply (about_bind k w w _ _ _ [_] []) with (x := tt); [apply about_act|apply about_line].
  - destruct (interruptedCreate inst); apply about_line.
Qed.

Definition to_probe (k : string) (w : watchedAgent) : list (string * watchedAgent * Instance_) :=
  match look_at_run w with Probed inst => [(k, w, inst)] | _ => [] end.

Lemma about_ts {B} k w (f : timeouts -> M B) r acts y : about k w (f ts) r acts y -> about k w (bind (question (fun e _ => e_timeouts e)) f) r acts y.
Proof. intros Hf. apply (about_bind k w w _ _ _ [] acts) with (x := ts); [by apply about_same|done]. Qed.

Lemma service_one_about k w : about k w (service_one st now (k, w)) (run_after None w) (acts_about None w) (to_probe k w).
Proof.
  assert (forall x : list (string * watchedAgent * Instance_), about k w (ret x) (Some w) [] x) as Hret by (intros; by apply about_same).
  unfold service_one. destruct (findInstance st (wa_fleet w) (wa_instance w)) as [inst|] eqn:Ei.
  2: { assert (look_at_run w = Gone) as El by (unfold look_at_run; by rewrite Ei). unfold run_after, acts_about, to_probe. rewrite El. eapply about_ret, about_unwatch. }
  assert (look_at_run w = Waiting -> about k w (ret []) (run_after None w) (acts_about None w) (to_probe k w)) as Hwait
    by (intros El; unfold run_after, acts_about, to_probe; rewrite El; apply Hret).
  destruct (in_status inst) eqn:Es; try (apply Hwait; unfold look_at_run; by rewrite Ei, Es).
  - apply about_ts. destruct (createOverdue ts w inst now) eqn:Eo.
    + assert (look_at_run w = Overdue) as El by (unfold look_at_run; by rewrite Ei, Es, Eo). unfold run_after, acts_about, to_probe. rewrite El. eapply about_ret.
      apply (about_bind k w w _ _ _ [_] []) with (x := tt); [apply (about_reap k w OOverdue)|apply about_unwatch].
    + assert (look_at_run w = Waiting) as El by (unfold look_at_run; by rewrite Ei, Es, Eo). eapply (about_bind k w w _ _ _ [] _) with (x := tt); [by apply about_same|by apply Hwait].
  - destruct (wa_launched w) eqn:Ela; cbn [negb].
    + assert (look_at_run w = Probed inst) as El by (unfold look_at_run; by rewrite Ei, Es, Ela). unfold run_after, acts_about, to_probe. rewrite El. apply Hret.
    + assert (look_at_run w = Starts inst) as El by (unfold look_at_run; by rewrite Ei, Es, Ela). unfold run_after, acts_about, to_probe. rewrite El.
      apply (about_bind k w w _ _ _ [_] []) with (x := tt); [apply about_act|]. eapply about_ret, about_touch.
  - assert (look_at_run w = FailedNow inst) as El by (unfold look_at_run; by rewrite Ei, Es). rewrite <- (app_nil_r (acts_about None w)).
    apply (about_bind k w w) with (x := tt); [by apply failedRun_about|]. unfold run_after, to_probe. rewrite El. eapply about_ret, about_unwatch.
Qed.

Lemma activity_about k w inst r : look_at_run w = Probed inst -> about k w (apply_activity now (k, w, inst, r)) (run_after r w) (acts_about r w) tt.
Proof.
  intros El. unfold apply_activity, run_after, acts_about. rewrite El. destruct r as [pr|]; [|by apply about_same].
  eapply (about_bind k w _ _ _ _ [] _) with (x := tt); [apply about_touch|]. destruct (pr_working pr); cbn [negb andb]; [apply about_touch|].
  apply about_ts. unfold idle_out. cbn [wa_lastActive set_session]. destruct (_ <=? _); [|by apply about_same].
  apply (about_bind k (set_session (pr_session pr) w) (set_session (pr_session pr) w) _ _ _ [_] []) with (x := tt); [|apply about_unwatch].
  apply (about_reap k (set_session (pr_session pr) w) (OReaped _)).
Qed.
(** *** The three passes *)

Definition watched_as (t : turn) (L : list (string * watchedAgent)) : Prop := forall k w, (k, w) ∈ L -> sc_watched (tn_sched t) !! k = Some w.

(** What the runs of [L] became. *)
Record became (L : list (string * watchedAgent)) (F : string -> watchedAgent -> option watchedAgent) (acts : list action) (t t' : turn) : Prop := {
  bc_runs : forall k w, (k, w) ∈ L -> sc_watched (tn_sched t') !! k = F k w;
  bc_rest : forall k, k ∉ map fst L -> sc_watched (tn_sched t') !! k = sc_watched (tn_sched t) !! k;
  bc_acts : tn_acts t' = tn_acts t ++ acts
}.

Lemma became_cons k w L F acts acts' t t1 t2 : k ∉ map fst L ->
  sc_watched (tn_sched t1) = partial_alter (fun _ => F k w) k (sc_watched (tn_sched t)) -> tn_acts t1 = tn_acts t ++ acts ->
  became L F acts' t1 t2 -> became ((k, w) :: L) F (acts ++ acts') t t2.
Proof.
  intros Hk E1 E2 [H1 H2 H3]. split.
  - intros k' w' [[= -> ->]|Hin]%elem_of_cons; [|by apply H1]. rewrite H2 by done. by rewrite E1, lookup_partial_alter_eq.
  - intros k' Hk'. cbn [map fst] in Hk'. rewrite H2 by set_solver. rewrite E1, lookup_partial_alter_ne; [done|set_solver].
  - by rewrite H3, E2, app_assoc.
Qed.

Lemma watched_as_step k w r L t t1 : k ∉ map fst L -> sc_watched (tn_sched t1) = partial_alter (fun _ => r) k (sc_watched (tn_sched t)) ->
  watched_as t ((k, w) :: L) -> watched_as t1 L.
Proof.
  intros Hk E H k' w' Hin. rewrite E, lookup_partial_alter_ne; [apply H; set_solver|]. intros <-. apply Hk, list_elem_of_fmap. by exists (k, w').
Qed.

Lemma first_pass L : NoDup (map fst L) -> forall t, watched_as t L ->
  let r := for_concat L (service_one st now) e t in
  fst r = concat (map (fun kw => to_probe (fst kw) (snd kw)) L) /\
  became L (fun _ => run_after None) (concat (map (fun kw => acts_about None (snd kw)) L)) t (snd r).
Proof.
  induction L as [|[k w] L IH]; intros Hnd t Hw; cbv zeta.
  { split; [done|]. split; simpl; [by intros ? ? ?%not_elem_of_nil|done|by rewrite app_nil_r]. }
  apply NoDup_cons in Hnd as [Hk Hnd]. cbn [for_concat map concat]. unfold bind. destruct (service_one_about k w t ltac:(apply Hw; set_solver)) as (E1 & E2 & E3).
  destruct (service_one st now (k, w) e t) as [a t1]. cbn [fst snd] in *. destruct (IH Hnd t1) as [F1 F2]; [by eapply watched_as_step|].
  destruct (for_concat L (service_one st now) e t1) as [b t2]. cbn [fst snd] in *. split; [cbn; by rewrite E1, F1|]. cbn. by eapply became_cons.
Qed.

(** The answer to the [n]th question, when it is a probe of a run whose instance is there. *)
Definition probe_answer (n : nat) (w : watchedAgent) : option probe_result :=
  match findInstance st (wa_fleet w) (wa_instance w) with
  | Some inst => if String.eqb (in_containerID inst) "" then None else e_probe e n (wa_fleet w) (wa_instance w)
  | None => None
  end.

Lemma Probed_found w inst : look_at_run w = Probed inst -> findInstance st (wa_fleet w) (wa_instance w) = Some inst.
Proof. unfold look_at_run. destruct (findInstance _ _ _) as [i|]; [|done]. destruct (in_status i); try done; [destruct (createOverdue _ _ _ _)|destruct (wa_launched w)]; congruence. Qed.

Lemma probe_pass cs : NoDup (map (fun c => fst (fst c)) cs) -> Forall (fun c => look_at_run (snd (fst c)) = Probed (snd c)) cs -> forall t, let r := for_concat cs ask_probe e t in
  tn_sched (snd r) = tn_sched t /\ tn_acts (snd r) = tn_acts t /\ map fst (fst r) = cs /\
  exists asked : string -> nat, Forall (fun x => (tn_n t <= asked (fst (fst (fst x))) < tn_n (snd r))%nat /\ snd x = probe_answer (asked (fst (fst (fst x)))) (snd (fst (fst x)))) (fst r).
Proof.
  induction cs as [|[[k w] inst] cs IH]; intros Hnd Hl t; cbv zeta; [split_and!; [done..|]; by exists (fun _ => 0%nat)|].
  apply NoDup_cons in Hnd as [Hk Hnd]. apply Forall_cons in Hl as [Hlk Hl]. cbn [fst snd] in *. set (t1 := MkTurn (S (tn_n t)) (tn_sched t) (tn_acts t) (tn_lines t)).
  assert (for_concat ((k, w, inst) :: cs) ask_probe e t = ((k, w, inst, probe_answer (tn_n t) w) :: fst (for_concat cs ask_probe e t1), snd (for_concat cs ask_probe e t1))) as ->.
  { cbn [for_concat]. unfold bind at 1. unfold probe_answer. rewrite (Probed_found _ _ Hlk).
    replace (ask_probe (k, w, inst) e t) with ([(k, w, inst, if String.eqb (in_containerID inst) "" then None else e_probe e (tn_n t) (wa_fleet w) (wa_instance w))], t1) by done.
    unfold bind. by destruct (for_concat cs ask_probe e t1). }
  cbn [fst snd map]. destruct (IH Hnd Hl t1) as (-> & -> & E & asked & Hf). split; [done|]. split; [done|]. split; [by rewrite E|].
  assert (tn_n t < tn_n (snd (for_concat cs ask_probe e t1)))%nat as Hlt.
  { clear. enough (forall t0, tn_n t0 <= tn_n (snd (for_concat cs ask_probe e t0)))%nat as H by (specialize (H t1); simpl in H; lia).
    intros t0. apply onward_for_concat. intros c. apply onward_ask_probe. }
  exists (fun k' => if String.eqb k' k then tn_n t else asked k'). constructor; [cbn [fst snd]; rewrite String.eqb_refl; split; [lia|done]|].
  rewrite Forall_forall in Hf |- *. intros x Hx. destruct (Hf x Hx) as [Hn Ha]. destruct (String.eqb_spec (fst (fst (fst x))) k) as [Ek|]; [|split; [simpl in Hn; lia|done]].
  destruct Hk. apply list_elem_of_fmap. exists (fst x). split; [done|]. rewrite <- E. apply list_elem_of_fmap. by exists x.
Qed.

Lemma last_pass (L : list (string * watchedAgent * Instance_ * option probe_result)) : NoDup (map (fun x => fst (fst (fst x))) L) ->
  Forall (fun x => look_at_run (snd (fst (fst x))) = Probed (snd (fst x))) L -> forall t, watched_as t (map (fun x => fst (fst x)) L) ->
  (forall x, x ∈ L -> sc_watched (tn_sched (snd (for_each L (apply_activity now) e t))) !! fst (fst (fst x)) = run_after (snd x) (snd (fst (fst x)))) /\
  (forall k, k ∉ map (fun x => fst (fst (fst x))) L -> sc_watched (tn_sched (snd (for_each L (apply_activity now) e t))) !! k = sc_watched (tn_sched t) !! k) /\
  tn_acts (snd (for_each L (apply_activity now) e t)) = tn_acts t ++ concat (map (fun x => acts_about (snd x) (snd (fst (fst x)))) L).
Proof.
  induction L as [|[[[k w] inst] r] L IH]; intros Hnd Hl t Hw; cbn [for_each map concat].
  { split; [by intros ? ?%not_elem_of_nil|]. split; [done|by rewrite app_nil_r]. }
  apply NoDup_cons in Hnd as [Hk Hnd]. apply Forall_cons in Hl as [Hlk Hl]. cbn [map fst snd] in *. unfold bind.
  destruct (activity_about k w inst r Hlk t ltac:(apply Hw; set_solver)) as (_ & E2 & E3). destruct (apply_activity now (k, w, inst, r) e t) as [a t1]. cbn [fst snd] in *.
  destruct (IH Hnd Hl t1) as (F1 & F2 & F3).
  { eapply watched_as_step; [|exact E2|exact Hw]. by rewrite map_map. }
  split; [|split].
  - intros x [->|Hin]%elem_of_cons; [|by apply F1]. cbn [fst snd]. by rewrite F2, E2, lookup_partial_alter_eq.
  - intros k' Hk'. rewrite F2, E2, lookup_partial_alter_ne; [done|set_solver|set_solver].
  - by rewrite F3, E3, app_assoc.
Qed.
(** *** The passes together *)

Lemma probes_keys L : map (fun c => fst (fst c)) (concat (map (fun kw => to_probe (fst kw) (snd kw)) L)) `sublist_of` map fst L.
Proof.
  induction L as [|[k w] L IH]; [done|]. cbn [map concat fst snd]. rewrite map_app. unfold to_probe at 1. destruct (look_at_run w); cbn [map app fst snd]; by constructor.
Qed.

Lemma probes_elem L k w inst : (k, w, inst) ∈ concat (map (fun kw => to_probe (fst kw) (snd kw)) L) <-> (k, w) ∈ L /\ look_at_run w = Probed inst.
Proof.
  rewrite list_elem_of_In, in_concat. split.
  - intros (xs & ([k' w'] & <- & Hin%list_elem_of_In)%in_map_iff & Hx). unfold to_probe in Hx. cbn [fst snd] in Hx. destruct (look_at_run w') eqn:E; try done.
    destruct Hx as [[= -> -> ->]|[]]. done.
  - intros [Hin E]. exists (to_probe k w). split; [|unfold to_probe; rewrite E; by left]. apply in_map_iff. exists (k, w). split; [done|by apply list_elem_of_In].
Qed.

Lemma not_probed pr w : (forall inst, look_at_run w <> Probed inst) -> run_after pr w = run_after None w /\ acts_about pr w = acts_about None w.
Proof. intros H. unfold run_after, acts_about. destruct (look_at_run w); [done..| |done]. by destruct (H inst). Qed.

(** The runs of [L] and the answers to the probes of them. *)
Section answers.
Context (L : list (string * watchedAgent)) (rs : list (string * watchedAgent * Instance_ * option probe_result)) (ans : string -> watchedAgent -> option probe_result).
Hypothesis (Hnd : NoDup (map fst L)) (Hrs : forall k w inst, (k, w) ∈ L /\ look_at_run w = Probed inst <-> exists r, (k, w, inst, r) ∈ rs)
  (Hans : forall k w inst r, (k, w, inst, r) ∈ rs -> r = ans k w).

(** A run of [L] was probed, or there is nothing about it in the answers. *)
Lemma probed_or_not k w : (k, w) ∈ L ->
  (exists inst, (k, w, inst, ans k w) ∈ rs) \/ k ∉ map (fun x => fst (fst (fst x))) rs /\ forall inst, look_at_run w <> Probed inst.
Proof.
  intros Hin. destruct (look_at_run w) as [| | | |inst|] eqn:El.
  5: { left. destruct (proj1 (Hrs k w inst) (conj Hin El)) as [r Hr]. exists inst. by rewrite <- (Hans _ _ _ _ Hr). }
  all: right; split; [|done]; intros ([[[k' w'] inst'] r] & -> & Hx)%list_elem_of_fmap;
    (assert (exists r, (k', w', inst', r) ∈ rs) as [Hin' El']%Hrs by eauto);
    (assert ((k', w') = (k', w)) as [= ->] by (by eapply (NoDup_map_inj fst))); congruence.
Qed.

Lemma acts_elem a : a ∈ concat (map (fun kw => acts_about None (snd kw)) L) ++ concat (map (fun x => acts_about (snd x) (snd (fst (fst x)))) rs) <->
  exists k w, (k, w) ∈ L /\ a ∈ acts_about (ans k w) w.
Proof.
  rewrite elem_of_app, !list_elem_of_In, !in_concat. split.
  - intros [(xs & ([k w] & <- & Hin%list_elem_of_In)%in_map_iff & Ha)|(xs & ([[[k w] inst] r] & <- & Hin%list_elem_of_In)%in_map_iff & Ha)]; cbn [fst snd] in Ha.
    + exists k, w. split; [done|]. apply list_elem_of_In. destruct (probed_or_not k w Hin) as [[inst Hx]|[Hk Hno]].
      * assert (exists r, (k, w, inst, r) ∈ rs) as [_ El]%Hrs by eauto. unfold acts_about in Ha. by rewrite El in Ha.
      * by destruct (not_probed (ans k w) w Hno) as [_ ->].
    + assert (exists r, (k, w, inst, r) ∈ rs) as [Hin' _]%Hrs by eauto. exists k, w. split; [done|]. apply list_elem_of_In. by rewrite <- (Hans _ _ _ _ Hin).
  - intros (k & w & Hin & Ha). destruct (probed_or_not k w Hin) as [[inst Hx]|[Hk Hno]].
    + right. exists (acts_about (ans k w) w). split; [|by apply list_elem_of_In]. apply in_map_iff. exists (k, w, inst, ans k w). split; [done|by apply list_elem_of_In].
    + left. exists (acts_about None w). split; [apply in_map_iff; exists (k, w); split; [done|by apply list_elem_of_In]|]. apply list_elem_of_In.
      by destruct (not_probed (ans k w) w Hno) as [_ <-].
Qed.
End answers.

(** C21: one look at the watched runs does exactly what the code promises, by what the probes answered: a run whose
    instance is gone or failed is dropped, a failed Kubernetes one destroyed (when its create was interrupted) or
    its resources released; a create past its time is destroyed; a run whose instance came up is launched, once;
    and each launched run gets the answer of the probe of its own instance, made in this look: an agent at work is
    marked active, one not working is destroyed and dropped when it has been idle for its limit and kept when not,
    and a probe that fails, or an instance without a container, changes nothing. No other run changes and nothing
    else is done. *)
Theorem watched_runs_served t :
  let t' := snd (serviceWatched st now e t) in let W := sc_watched (tn_sched t) in
  exists asked : string -> nat,
    (forall k w inst, W !! k = Some w -> look_at_run w = Probed inst -> tn_n t <= asked k < tn_n t')%nat /\
    (forall k, sc_watched (tn_sched t') !! k = W !! k ≫= fun w => run_after (probe_answer (asked k) w) w) /\
    exists acts, tn_acts t' = tn_acts t ++ acts /\ forall a, a ∈ acts <-> exists k w, W !! k = Some w /\ a ∈ acts_about (probe_answer (asked k) w) w.
Proof.
  cbv zeta. unfold serviceWatched, bind, get_sched. set (L := map_to_list (sc_watched (tn_sched t))).
  assert (NoDup (map fst L)) as Hnd by apply NoDup_fst_map_to_list.
  destruct (first_pass L Hnd t) as [E1 [H1 H2 H3]]; [by intros k w ?%elem_of_map_to_list|].
  pose proof (onward_for_concat L (service_one st now) (onward_service_one st now) e t) as N1.
  destruct (for_concat L (service_one st now) e t) as [cs t1]. cbn [fst snd] in *.
  assert (NoDup (map (fun c => fst (fst c)) cs)) as Hndc by (rewrite E1; eapply sublist_NoDup; [exact Hnd|apply probes_keys]).
  assert (forall k w inst, (k, w, inst) ∈ cs <-> (k, w) ∈ L /\ look_at_run w = Probed inst) as Hcs by (intros; rewrite E1; apply probes_elem).
  destruct (probe_pass cs Hndc) with (t := t1) as (P1 & P2 & P3 & asked & P4).
  { apply Forall_forall. intros [[k w] inst] Hin. by apply (Hcs k w inst). }
  destruct (for_concat cs ask_probe e t1) as [rs t2]. cbn [fst snd] in *. rewrite Forall_forall in P4.
  assert (map (fun x => fst (fst (fst x))) rs = map (fun c => fst (fst c)) cs) as Ek by (rewrite <- P3, map_map; done).
  assert (NoDup (map (fun x => fst (fst (fst x))) rs)) as Hndr by (by rewrite Ek).
  assert (forall k w inst, (k, w) ∈ L /\ look_at_run w = Probed inst <-> exists r, (k, w, inst, r) ∈ rs) as Hrs.
  { intros k w inst. rewrite <- Hcs, <- P3, list_elem_of_fmap. split; [intros ([c r] & -> & ?); by exists r|intros [r ?]; by exists (k, w, inst, r)]. }
  assert (forall k w inst r, (k, w, inst, r) ∈ rs -> r = probe_answer (asked k) w) as Hans by (intros k w inst r Hin; apply (P4 _ Hin)).
  destruct (last_pass rs Hndr) with (t := t2) as (F1 & F2 & F3).
  { apply Forall_forall. intros [[[k w] inst] r] Hin. by apply (Hrs k w inst); exists r. }
  { intros k w ([[[k' w'] inst] r] & [= -> ->] & Hin)%list_elem_of_fmap. assert (exists r, (k', w', inst, r) ∈ rs) as [Hin' El]%Hrs by eauto.
    rewrite P1, (H1 _ _ Hin'). unfold run_after. by rewrite El. }
  pose proof (onward_for_each rs (apply_activity now) (onward_activity now) e t2) as N2.
  exists asked. split; [|split].
  - intros k w inst Hw%elem_of_map_to_list El. destruct (proj1 (Hrs k w inst) (conj Hw El)) as [r Hr]. destruct (P4 _ Hr) as [Hn _]. cbn [fst snd] in Hn. lia.
  - intros k. destruct (sc_watched (tn_sched t) !! k) as [w|] eqn:Ew.
    + assert ((k, w) ∈ L) as Hin by (by apply elem_of_map_to_list). cbn. destruct (probed_or_not L rs (fun k => probe_answer (asked k)) Hnd Hrs Hans k w Hin) as [[inst Hx]|[Hk Hno]].
      * exact (F1 _ Hx).
      * rewrite (F2 _ Hk), P1, (H1 _ _ Hin). by destruct (not_probed (probe_answer (asked k) w) w Hno) as [-> _].
    + cbn. assert (k ∉ map fst L) as Hk by (intros ([k' w] & -> & Hin%elem_of_map_to_list)%list_elem_of_fmap; cbn in Ew; congruence).
      rewrite F2, P1, H2; [done|done|]. intros ([[[k' w] inst] r] & -> & Hx)%list_elem_of_fmap. assert (exists r, (k', w, inst, r) ∈ rs) as [Hin _]%Hrs by eauto.
      apply Hk, list_elem_of_fmap. by exists (k', w).
  - eexists. split; [etrans; [exact F3|]; by rewrite P2, H3, <- app_assoc|]. intros a. rewrite (acts_elem L rs (fun k => probe_answer (asked k)) Hnd Hrs Hans a). unfold L.
    split; intros (k & w & Hin%elem_of_map_to_list & Ha); by exists k, w.
Qed.
End watching.

Module SchedulerExamples.
Definition noon (now : Z) : clock := MkClock 0 12 1 1 1.
Definition daily : Trigger := MkTrigger "daily" TriggerSchedule ["a"] "go" "0 12 * * *" "" "" "" "" "" "" false.
Definition hourly : Trigger := MkTrigger "hourly" TriggerSchedule ["a"] "go" "30 * * * *" "" "" "" "" "" "" false.
Definition site : State := {["web" := MkFleet (MkSettings [] [daily; hourly]) []]}.

Lemma site_plain : plain_state site.
Proof.
  intros f fl. unfold site. intros [<- <-]%lookup_singleton_Some. split; [done|]. split; [apply (bool_decide_unpack _); vm_compute; exact I|].
  intros t Ht. simpl in Ht. repeat (apply elem_of_cons in Ht as [->|Ht]; [split; [done|apply (bool_decide_unpack _); vm_compute; exact I]|]).
  by apply not_elem_of_nil in Ht.
Qed.

Definition now : Z := 90 * second.
Lemma cron_fires_once_a_minute_witness :
  snd (dueCronTriggers noon site now ∅) = [("web", daily)] /\
  snd (dueCronTriggers noon site (now + second) (fst (dueCronTriggers noon site now ∅))) = [] /\
  (forall f t, (f, t) ∈ snd (dueCronTriggers noon site now ∅) -> fst (dueCronTriggers noon site now ∅) !! firedKey f (tr_name t) = Some (60 * second)).
Proof.
  split; [vm_compute; reflexivity|]. split; [vm_compute; reflexivity|].
  exact (proj1 (proj2 (proj2 (cron_fires_once_a_minute noon site now ∅ site_plain)))).
Defined.
End SchedulerExamples.
