(* ===== verification/AgentRun.v ===== *)
(** * Naming and launching a run (internal/server/schedule.go, internal/tui/groups.go)

    The name of the instance made for a run, the name of its tmux session and the
    groups sessions fall in, the script that launches its agent, and the buffer
    that bounds a bash probe's output. *)

From S2P Require Import Prelude GoStrings GoText GoTime Entry ShellQuote Automation FleetState.
Local Open Scope string_scope.
Local Open Scope Z_scope.
Local Open Scope list_scope.

(** ** The instance's name *)

(** unicode.ToLower as far as its result is ASCII: besides A to Z, the Kelvin sign and the dotted capital I. *)
Definition lower_rune (r : Z) : Z :=
  if in_range 65 90 r then r + 32 else if r =? 8490 then 107 else if r =? 304 then 105 else r.

Definition name_rune (r : Z) : bool := in_range 97 122 r || in_range 48 57 r || (r =? 45).

(** The runes of [s], lowered, with "-" for those outside [a-z0-9-]. *)
Fixpoint name_runes (fuel : nat) (s : string) : string :=
  match fuel, s with
  | S fuel, String _ _ =>
      let '(r, n) := DecodeRune s in
      let r := lower_rune r in
      String (if name_rune r then byte r else "-"%char) (name_runes fuel (drop_bytes n s))
  | _, _ => ""
  end.

Fixpoint trim_left (c : ascii) (s : string) : string :=
  match s with String a s' => if ascii_eqb a c then trim_left c s' else s | EmptyString => "" end.
Definition Trim (c : ascii) (s : string) : string := rev_string (trim_left c (rev_string (trim_left c s))).

Definition sanitizeAutomationName (s : string) : string :=
  let out := Trim "-"%char (name_runes (String.length s) s) in
  if (24 <? String.length out)%nat then Trim "-"%char (String.substring 0 24 out) else out.

(** [hms] is the local time as 150405, [seq] the count after this one. *)
Definition automationInstanceName (agentName hms : string) (seq : Z) : string :=
  let base := sanitizeAutomationName agentName in
  let base := if String.eqb base "" then "agent" else base in
  base +:+ "-" +:+ hms +:+ "-" +:+ Itoa seq.

(** The count after it and the name; [None] when the fuel runs out. *)
Fixpoint free_instance_name (fuel : nat) (st : option State) (fleetName agentName hms : string) (seq : Z) : option (Z * string) :=
  match fuel with
  | O => None
  | S fuel =>
      let seq := wrap64 (seq + 1) in
      let name := automationInstanceName agentName hms seq in
      match st with
      | None => Some (seq, name)
      | Some st =>
          match st !! fleetName with
          | None => Some (seq, name)
          | Some f => match GetInstance f name with
                      | None => Some (seq, name)
                      | Some _ => free_instance_name fuel (Some st) fleetName agentName hms seq
                      end
          end
      end
  end.

Definition name_fuel (st : option State) (fleetName : string) : nat :=
  match st with Some st => match st !! fleetName with Some f => S (length (fl_instances f)) | None => 1 end | None => 1 end.

Definition freeAutomationInstanceName (st : option State) (fleetName agentName hms : string) (seq : Z) : option (Z * string) :=
  free_instance_name (name_fuel st fleetName) st fleetName agentName hms seq.

(** ** Sessions and their groups *)

Definition groupSep : ascii := "~"%char.

Fixpoint session_chars (s : string) : string :=
  match s with
  | EmptyString => ""
  | String a s' => String (if ascii_eqb a "."%char || ascii_eqb a ":"%char || ascii_eqb a slash then "-"%char else a) (session_chars s')
  end.

Definition SanitizeSessionName (name : string) : string :=
  let sanitized := session_chars name in if String.eqb sanitized "" then "fleet" else sanitized.

Definition GroupSessionName (sanitizedInstance groupID : string) : string := sanitizedInstance +:+ String groupSep groupID.

(** Additional panes end in a random [hex]. *)
Definition NewGroupPaneSessionName (sanitizedInstance groupID hex : string) : string :=
  GroupSessionName sanitizedInstance groupID +:+ String groupSep hex.

Definition parseGroupID (sanitizedInstance sessionName : string) : option string :=
  match CutPrefix sessionName (sanitizedInstance +:+ String groupSep "") with
  | None => None
  | Some rest =>
      let gid := match cut_byte groupSep rest with Some (a, _) => a | None => rest end in
      if String.eqb gid "" then None else Some gid
  end.

Definition isGroupedSession (sanitizedInstance sessionName : string) : bool :=
  match parseGroupID sanitizedInstance sessionName with Some _ => true | None => false end.

Definition sessionInGroup (sanitizedInstance sessionName groupID : string) : bool :=
  match parseGroupID sanitizedInstance sessionName with Some gid => String.eqb gid groupID | None => false end.

Definition ResolveSessionName (instanceName name : string) : string :=
  let sanitized := SanitizeSessionName instanceName in
  if isGroupedSession sanitized name then name else GroupSessionName sanitized (SanitizeSessionName name).

Definition splitBindGroupID (instanceName sessionName groupID : string) : string :=
  if isGroupedSession (SanitizeSessionName instanceName) sessionName then groupID else "".

Record savedGroup := MkSavedGroup { sg_FleetName : string; sg_GroupID : string; sg_InstanceName : string; sg_Sessions : list string; sg_Layout : string; sg_PaneCount : Z }.

Definition computeGroupKey (fleetName instanceName groupID : string) : string :=
  fleetName +:+ String slash (instanceName +:+ String slash groupID).

Definition sameSavedGroup (a b : savedGroup) : bool :=
  String.eqb (sg_FleetName a) (sg_FleetName b) && String.eqb (sg_GroupID a) (sg_GroupID b) &&
  String.eqb (sg_InstanceName a) (sg_InstanceName b) && String.eqb (sg_Layout a) (sg_Layout b) &&
  (sg_PaneCount a =? sg_PaneCount b) && (length (sg_Sessions a) =? length (sg_Sessions b))%nat &&
  forallb (fun '(x, y) => String.eqb x y) (combine (sg_Sessions a) (sg_Sessions b)).

Definition savedGroupPaneCount (sg : savedGroup) : Z :=
  if (0 <? length (sg_Sessions sg))%nat then Z.of_nat (length (sg_Sessions sg))
  else if 0 <? sg_PaneCount sg then sg_PaneCount sg else 1.

(** The names not seen before, none of them empty, in their order. *)
Fixpoint unseen (seen : list string) (l : list string) : list string :=
  match l with
  | [] => []
  | name :: l => if String.eqb name "" || bool_decide (name ∈ seen) then unseen seen l else name :: unseen (name :: seen) l
  end.

Definition savedGroupSessionNames (sg : savedGroup) (sanitizedInstance : string) : list string :=
  let sessions := unseen [] (sg_Sessions sg) in
  if (length sessions =? 0)%nat then [GroupSessionName sanitizedInstance (sg_GroupID sg)] else sessions.

(** [hex] is the random id used when [desired] is taken. *)
Fixpoint groupIDFor (sanitizedInstance desired hex : string) (existing : list string) : string :=
  match existing with
  | [] => desired
  | s :: rest => match parseGroupID sanitizedInstance s with
                 | Some gid => if String.eqb gid desired then hex else groupIDFor sanitizedInstance desired hex rest
                 | None => groupIDFor sanitizedInstance desired hex rest
                 end
  end.

Record sessionGroup := MkGroup { gr_id : string; gr_sessions : list string }.

(** Sessions by their names: the bare ones first, one group each, then the groups by id. *)
Definition group_map (inst : string) (sessions : list string) : gmap string (list string) :=
  foldl (fun m s => match parseGroupID inst s with Some gid => <[gid := default [] (m !! gid) ++ [s]]> m | None => m end) ∅ sessions.

Definition groupSessions (inst : string) (sessions : list string) : list sessionGroup :=
  map (fun s => MkGroup s [s]) (filter (fun s => parseGroupID inst s = None) sessions) ++
  map (fun gid => MkGroup gid (default [] (group_map inst sessions !! gid))) (SortFunc Compare (map fst (map_to_list (group_map inst sessions)))).

(** ** The launch script *)

Section launch.
(** The snippet that installs tmux (dotfiles.TmuxEnsureInstalled). *)
Context (TmuxEnsureInstalled : string).

Definition launch_line (sessionName command : string) : string :=
  "tmux new-session -d -s " +:+ Single sessionName +:+ " " +:+ Single ("bash -ic " +:+ Single command).
Definition buildAgentLaunchScript (sessionName command : string) : string := TmuxEnsureInstalled +:+ launch_line sessionName command.
End launch.

(** ** The bounded buffer *)

Record cappedBuffer := MkCapped { cb_buf : string; cb_limit : nat }.

(** What is kept, and how much the writer is told was written. *)
Definition capped_Write (p : string) (c : cappedBuffer) : cappedBuffer * nat :=
  let room := (cb_limit c - String.length (cb_buf c))%nat in
  (MkCapped (if (0 <? room)%nat then cb_buf c +:+ (if (room <? String.length p)%nat then String.substring 0 room p else p) else cb_buf c) (cb_limit c),
   String.length p).

Example name_1 : automationInstanceName "--Böse Straße__" "120000" 3 = "b-se-stra-e-120000-3".
Proof. vm_compute. reflexivity. Qed.
Example name_2 : automationInstanceName "??" "120000" 3 = "agent-120000-3".
Proof. vm_compute. reflexivity. Qed.

(** ** Names are free, short and plain *)

Fixpoint all_name (s : string) : bool := match s with EmptyString => true | String a s' => name_rune (code a) && all_name s' end.

Lemma all_name_app a b : all_name (a +:+ b) = all_name a && all_name b.
Proof. induction a as [|x a IH]; simpl; [done|]. by rewrite IH, andb_assoc. Qed.

Lemma name_rune_code r : name_rune r = true -> code (byte r) = r.
Proof.
  intros H. assert (0 <= r < 256) as Hr.
  { unfold name_rune, in_range in H. rewrite !orb_true_iff, !andb_true_iff, !Z.leb_le, Z.eqb_eq in H. lia. }
  unfold code, byte. rewrite Ascii.N_ascii_embedding by lia. lia.
Qed.

Lemma name_runes_ok fuel : forall s, all_name (name_runes fuel s) = true.
Proof.
  induction fuel as [|fuel IH]; intros s; [done|]. simpl. destruct s as [|a s]; [done|]. destruct (DecodeRune (String a s)) as [r n]. cbn [all_name]. rewrite IH, andb_true_r.
  destruct (name_rune (lower_rune r)) eqn:E; [by rewrite name_rune_code|done].
Qed.

Lemma trim_left_suffix c s : exists p, s = p +:+ trim_left c s.
Proof. induction s as [|a s [p IH]]; [by exists ""|]. simpl. destruct (ascii_eqb a c); [exists (String a p); simpl; congruence|by exists ""]. Qed.

Lemma all_name_rev s : all_name (rev_string s) = all_name s.
Proof. induction s as [|a s IH]; [done|]. rewrite rev_string_cons, all_name_app, IH. simpl. by rewrite andb_true_r, andb_comm. Qed.

Lemma Trim_within c s : (String.length (Trim c s) <= String.length s)%nat /\ (all_name s = true -> all_name (Trim c s) = true).
Proof.
  unfold Trim. destruct (trim_left_suffix c s) as [p Hp], (trim_left_suffix c (rev_string (trim_left c s))) as [q Hq]. split.
  - rewrite length_rev_string. apply (f_equal String.length) in Hp, Hq. rewrite length_append_s in Hp, Hq. rewrite length_rev_string in Hq. lia.
  - intros H. rewrite all_name_rev. rewrite Hp, all_name_app, andb_true_iff in H. destruct H as [_ H]. rewrite <- all_name_rev, Hq, all_name_app, andb_true_iff in H. apply H.
Qed.

Lemma substring_take n : forall s, (String.length (String.substring 0 n s) <= n)%nat /\ exists t, s = String.substring 0 n s +:+ t.
Proof.
  induction n as [|n IH]; intros [|a s]; simpl; try (split; [lia|by eexists]). destruct (IH s) as [H [t Ht]]. split; [lia|]. exists t. congruence.
Qed.

Lemma sanitized_ok s : all_name (sanitizeAutomationName s) = true /\ (String.length (sanitizeAutomationName s) <= 24)%nat.
Proof.
  unfold sanitizeAutomationName. cbv zeta. destruct (Trim_within "-"%char (name_runes (String.length s) s)) as [_ H1]. specialize (H1 (name_runes_ok _ _)).
  set (out := Trim "-"%char (name_runes (String.length s) s)) in *. destruct (Nat.ltb_spec 24 (String.length out)); [|by split; [|lia]].
  destruct (substring_take 24 out) as [Hl [t Ht]], (Trim_within "-"%char (String.substring 0 24 out)) as [H2 H3]. split; [|lia]. apply H3.
  rewrite Ht, all_name_app, andb_true_iff in H1. apply H1.
Qed.

Lemma Itoa_inj a b : 0 <= a -> 0 <= b -> Itoa a = Itoa b -> a = b.
Proof. intros Ha Hb E. destruct (Itoa_first a Ha) as (? & ? & _ & _ & Hu), (Itoa_first b Hb) as (? & ? & _ & _ & Hu'). congruence. Qed.

Lemma string_append_inj (a b c : string) : a +:+ b = a +:+ c -> b = c.
Proof. induction a as [|x a IH]; [done|]. simpl. intros [= H]. by apply IH. Qed.

Lemma instance_name_inj ag hms a b : 0 <= a -> 0 <= b -> automationInstanceName ag hms a = automationInstanceName ag hms b -> a = b.
Proof.
  intros Ha Hb E. unfold automationInstanceName in E. cbv zeta in E. do 2 (apply string_append_inj in E). apply string_append_inj in E. apply string_append_inj in E.
  by apply Itoa_inj.
Qed.

Lemma get_instance_name f name i : GetInstance f name = Some i -> name ∈ map in_name (fl_instances f).
Proof.
  unfold GetInstance. generalize (fl_instances f). intros l. induction l as [|x l IH]; simpl; [done|].
  destruct (String.eqb_spec (in_name x) name) as [<-|]; [intros _; set_solver|]. intros H%IH. set_solver.
Qed.

Lemma all_digits_name s : all_digits s = true -> all_name s = true.
Proof.
  induction s as [|a s IH]; [done|]. simpl. intros [Ha Hs]%andb_true_iff. rewrite IH, andb_true_r by done. revert Ha. clear.
  destruct a as [[] [] [] [] [] [] [] []]; vm_compute; done.
Qed.

Lemma automation_name_plain ag hms seq : 0 <= seq -> all_name hms = true -> all_name (automationInstanceName ag hms seq) = true.
Proof.
  intros Hs Hh. unfold automationInstanceName. cbv zeta. rewrite !all_name_app, Hh, (all_digits_name _ (Itoa_digits _ Hs)).
  destruct (String.eqb (sanitizeAutomationName ag) ""); [done|]. by rewrite (proj1 (sanitized_ok ag)).
Qed.

Lemma automation_name_length ag hms seq :
  0 <= seq < 10 ^ 19 -> (String.length (automationInstanceName ag hms seq) <= 45 + String.length hms)%nat.
Proof.
  intros Hs. unfold automationInstanceName. cbv zeta. rewrite !length_append_s. pose proof (length_Itoa 19 seq ltac:(lia) Hs) as Hl. pose proof (proj2 (sanitized_ok ag)) as Hb.
  change (String.length "-") with 1%nat. destruct (String.eqb (sanitizeAutomationName ag) ""); [change (String.length "agent") with 5%nat|]; lia.
Qed.

(** One look: the names from [seq + 1] on are tried in order. *)
Lemma free_name_tries fuel st fn f ag hms : forall seq,
  0 <= seq -> seq + Z.of_nat fuel < 2 ^ 63 -> st !! fn = Some f ->
  match free_instance_name fuel (Some st) fn ag hms seq with
  | Some (seq', name) => seq < seq' <= seq + Z.of_nat fuel /\ name = automationInstanceName ag hms seq' /\ GetInstance f name = None
  | None => forall i, seq < i <= seq + Z.of_nat fuel -> is_Some (GetInstance f (automationInstanceName ag hms i))
  end.
Proof.
  induction fuel as [|fuel IH]; intros seq H0 H1 Hf; cbn [free_instance_name]; [lia|].
  rewrite (wrap64_small (seq + 1)) by lia. rewrite Hf. destruct (GetInstance f (automationInstanceName ag hms (seq + 1))) as [x|] eqn:E.
  - specialize (IH (seq + 1) ltac:(lia) ltac:(lia) Hf). destruct (free_instance_name fuel _ _ _ _ _) as [[seq' name]|].
    + destruct IH as (? & ? & ?). repeat split; [lia|lia|done|done].
    + intros i Hi. destruct (decide (i = seq + 1)) as [->|]; [by eexists|]. apply IH. lia.
  - repeat split; [lia|lia|done].
Qed.

Lemma taken_names_bound fuel f ag hms seq :
  0 <= seq -> (forall i, seq < i <= seq + Z.of_nat fuel -> is_Some (GetInstance f (automationInstanceName ag hms i))) ->
  (fuel <= length (fl_instances f))%nat.
Proof.
  intros H0 Ht. rewrite <- (length_map in_name (fl_instances f)).
  set (names := map (fun n => automationInstanceName ag hms (seq + 1 + Z.of_nat n)) (List.seq 0 fuel)).
  assert (length names = fuel) as Hlen by (unfold names; by rewrite length_map, length_seq).
  enough (length names <= length (map in_name (fl_instances f)))%nat by lia. apply submseteq_length, NoDup_submseteq.
  - unfold names. apply NoDup_map_on; [apply NoDup_ListNoDup, seq_NoDup|]. intros a b _ _ E. apply instance_name_inj in E; lia.
  - intros n Hn. unfold names in Hn. apply list_elem_of_In, in_map_iff in Hn as (k & <- & Hk%in_seq).
    destruct (Ht (seq + 1 + Z.of_nat k) ltac:(lia)) as [i Hi]. by eapply get_instance_name.
Qed.

(** The search for a run's instance name ends, below the int64 bound of the
    counter, within one try more than the fleet has instances, with the first
    counter value not used before whose name no instance of the fleet has; the
    name is lower-case letters, digits and dashes, and at most 51 bytes long. *)
Theorem free_instance_name_found st fn ag hms seq :
  0 <= seq -> seq + Z.of_nat (name_fuel st fn) < 2 ^ 63 -> all_name hms = true -> String.length hms = 6%nat ->
  exists seq' name, freeAutomationInstanceName st fn ag hms seq = Some (seq', name) /\
    seq < seq' <= seq + Z.of_nat (name_fuel st fn) /\ name = automationInstanceName ag hms seq' /\
    (forall st' f, st = Some st' -> st' !! fn = Some f -> GetInstance f name = None) /\
    all_name name = true /\ (String.length name <= 51)%nat.
Proof.
  intros H0 H1 Hh Hl. cut (exists seq' name, freeAutomationInstanceName st fn ag hms seq = Some (seq', name) /\
    seq < seq' <= seq + Z.of_nat (name_fuel st fn) /\ name = automationInstanceName ag hms seq' /\
    (forall st' f, st = Some st' -> st' !! fn = Some f -> GetInstance f name = None)).
  { intros (seq' & name & ? & ? & -> & ?). exists seq', (automationInstanceName ag hms seq'). repeat (split; [done|]). split; [apply automation_name_plain; [lia|done]|].
    pose proof (automation_name_length ag hms seq' ltac:(lia)). lia. }
  unfold freeAutomationInstanceName, name_fuel in *. destruct st as [st|]; [destruct (st !! fn) as [f|] eqn:Hf|].
  - pose proof (free_name_tries _ st fn f ag hms seq H0 H1 Hf) as Ht. destruct (free_instance_name _ _ _ _ _ _) as [[seq' name]|].
    + destruct Ht as (? & ? & ?). exists seq', name. repeat (split; [done|]). intros st' f' [= <-]. rewrite Hf. by intros [= <-].
    + apply taken_names_bound in Ht; [lia|done].
  - cbn [free_instance_name]. rewrite Hf, (wrap64_small (seq + 1)) by lia. eexists _, _. split; [done|]. split; [lia|]. split; [done|].
    intros st' f [= <-]. by rewrite Hf.
  - cbn [free_instance_name]. rewrite (wrap64_small (seq + 1)) by lia. eexists _, _. split; [done|]. split; [lia|]. by split.
Qed.

(** ** The agent's command survives the launch *)

Lemma lex_space w s : lex (" " +:+ s) (InWord w) = cons w <$> lex s Between.
Proof. done. Qed.

Lemma launch_line_words session command :
  sh_words (launch_line session command) = Some ["tmux"; "new-session"; "-d"; "-s"; session; "bash -ic " +:+ Single command].
Proof.
  unfold sh_words, launch_line.
  transitivity (cons "tmux" <$> (cons "new-session" <$> (cons "-d" <$> (cons "-s" <$> lex (Single session +:+ " " +:+ Single ("bash -ic " +:+ Single command)) Between)))); [reflexivity|].
  rewrite lex_single, lex_space. rewrite <- (append_nil_r (Single ("bash -ic " +:+ Single command))), lex_single. done.
Qed.

Lemma bash_ic_words command : sh_words ("bash -ic " +:+ Single command) = Some ["bash"; "-ic"; command].
Proof.
  unfold sh_words. transitivity (cons "bash" <$> (cons "-ic" <$> lex (Single command) Between)); [reflexivity|].
  rewrite <- (append_nil_r (Single command)), lex_single. done.
Qed.

(** The prompt reaches the agent as one argument through the three shells of a
    launch: the script's last line makes a tmux session of the given name whose
    command, read again by sh, is an interactive bash given the substituted
    command, and for a command of plain words and quoted placeholders (the default
    is one) bash reads the words of the command with the prompt and the system
    prompt one word each, whatever bytes they hold. *)
Theorem launch_runs_agent_command session ts prompt sys :
  Forall wf_word ts ->
  exists tmuxCommand bashCommand,
    sh_words (launch_line session (SubstituteAgentCommand (Join (map print_word ts) " ") prompt sys)) =
      Some ["tmux"; "new-session"; "-d"; "-s"; session; tmuxCommand] /\
    sh_words tmuxCommand = Some ["bash"; "-ic"; bashCommand] /\
    sh_words bashCommand = Some (map (meant prompt sys) ts).
Proof.
  intros Hts. eexists _, _. split; [apply launch_line_words|]. split; [apply bash_ic_words|]. by apply substituted_command_words.
Qed.

Lemma launch_runs_agent_command_witness :
  exists tmuxCommand bashCommand,
    sh_words (launch_line "dev~agent" (SubstituteAgentCommand DefaultAgentCommand "it's; $(rm -rf ~)" "be `good`")) =
      Some ["tmux"; "new-session"; "-d"; "-s"; "dev~agent"; tmuxCommand] /\
    sh_words tmuxCommand = Some ["bash"; "-ic"; bashCommand] /\
    sh_words bashCommand = Some ["claude"; "--system-prompt"; "be `good`"; "it's; $(rm -rf ~)"].
Proof.
  apply (launch_runs_agent_command "dev~agent" [Lit "claude"; Lit "--system-prompt"; SysPrompt; UserPrompt]). by repeat constructor.
Defined.

(** ** Groups of sessions *)

(** The root and the panes of a group parse to its id: the boundary is the separator, not the string prefix. *)
Lemma parseGroupID_session inst gid rest :
  gid <> "" -> contains_byte gid groupSep = false -> rest = "" \/ (exists hex, rest = String groupSep hex) ->
  parseGroupID inst (GroupSessionName inst gid +:+ rest) = Some gid.
Proof.
  intros Hne Hgid Hr. unfold parseGroupID, GroupSessionName.
  assert ((inst +:+ String groupSep gid) +:+ rest = (inst +:+ String groupSep "") +:+ (gid +:+ rest)) as -> by (by rewrite !append_assoc).
  rewrite CutPrefix_self. destruct Hr as [->|[hex ->]].
  - rewrite append_nil_r, cut_byte_None by done. by destruct (String.eqb_spec gid "").
  - rewrite cut_byte_app by done. by destruct (String.eqb_spec gid "").
Qed.

Lemma parseGroupID_Some inst s gid : parseGroupID inst s = Some gid ->
  gid <> "" /\ contains_byte gid groupSep = false /\ exists rest, s = GroupSessionName inst gid +:+ rest /\ (rest = "" \/ exists hex, rest = String groupSep hex).
Proof.
  unfold parseGroupID, GroupSessionName. destruct (CutPrefix s _) as [r|] eqn:E; [|done]. apply CutPrefix_Some in E as ->.
  destruct (cut_byte groupSep r) as [[a b]|] eqn:Ec.
  - apply cut_byte_Some in Ec as [-> Ha]. destruct (String.eqb_spec a ""); [done|]. intros [= ->]. split; [done|]. split; [done|].
    exists (String groupSep b). split; [|by right; eexists]. by rewrite !append_assoc.
  - destruct (String.eqb_spec r ""); [done|]. intros [= ->]. split; [done|]. split.
    + destruct (contains_byte gid groupSep) eqn:H; [|done]. apply cut_byte_found in H as [? ?]. congruence.
    + exists "". split; [|by left]. by rewrite append_nil_r, append_assoc.
Qed.

(** Exactly the root and the panes of a group are in it. *)
Theorem sessionInGroup_boundary inst s gid :
  sessionInGroup inst s gid = true <->
  gid <> "" /\ contains_byte gid groupSep = false /\
  (s = GroupSessionName inst gid \/ exists hex, s = NewGroupPaneSessionName inst gid hex).
Proof.
  unfold sessionInGroup, NewGroupPaneSessionName. split.
  - destruct (parseGroupID inst s) as [g|] eqn:E; [|done]. intros ->%String.eqb_eq.
    apply parseGroupID_Some in E as (? & ? & r & -> & [->|[hex ->]]); [rewrite append_nil_r; by auto|]. split; [done|]. split; [done|]. right. by exists hex.
  - intros (Hne & Hg & Hs). assert (parseGroupID inst s = Some gid) as ->; [|apply String.eqb_refl]. destruct Hs as [->|[hex ->]].
    + rewrite <- (append_nil_r (GroupSessionName inst gid)). apply parseGroupID_session; auto.
    + apply parseGroupID_session; eauto.
Qed.

(** A resolved name is in a group and resolves to itself, unless it starts with the separator. *)
Theorem resolved_in_group inst name :
  HasPrefix name (String groupSep "") = false ->
  isGroupedSession (SanitizeSessionName inst) (ResolveSessionName inst name) = true /\
  ResolveSessionName inst (ResolveSessionName inst name) = ResolveSessionName inst name.
Proof.
  intros Hp. assert (isGroupedSession (SanitizeSessionName inst) (ResolveSessionName inst name) = true) as Hg.
  { unfold ResolveSessionName. destruct (isGroupedSession (SanitizeSessionName inst) name) eqn:E; [done|].
    unfold isGroupedSession, parseGroupID, GroupSessionName. set (i := SanitizeSessionName inst).
    assert (i +:+ String groupSep (SanitizeSessionName name) = (i +:+ String groupSep "") +:+ SanitizeSessionName name) as -> by (by rewrite append_assoc).
    rewrite CutPrefix_self. assert (exists a s, SanitizeSessionName name = String a s /\ a <> groupSep) as (a & s & -> & Ha).
    { unfold SanitizeSessionName. destruct name as [|a s]; [by eexists _, _|]. cbn. eexists _, _. split; [done|].
      destruct (ascii_eqb a "."%char || ascii_eqb a ":"%char || ascii_eqb a slash); [done|]. intros ->. by destruct s. }
    cbn [cut_byte]. destruct (ascii_eqb a groupSep) eqn:Ea; [by apply ascii_eqb_eq in Ea|]. by destruct (cut_byte groupSep s) as [[? ?]|]. }
  split; [done|]. unfold ResolveSessionName at 1. by rewrite Hg.
Qed.

Example leading_separator_no_group :
  ResolveSessionName "dev" "~x" = "dev~~x" /\ isGroupedSession "dev" "dev~~x" = false /\ ResolveSessionName "dev" "dev~~x" = "dev~dev~~x".
Proof. vm_compute. done. Qed.

Lemma group_map_lookup inst gid ss : forall m : gmap string (list string), (forall g, m !! g <> Some []) ->
  default [] (foldl (fun m s => match parseGroupID inst s with Some gid => <[gid := default [] (m !! gid) ++ [s]]> m | None => m end) m ss !! gid) =
  default [] (m !! gid) ++ List.filter (fun s => sessionInGroup inst s gid) ss.
Proof.
  induction ss as [|s ss IH]; intros m Hm; simpl; [by rewrite app_nil_r|]. change (sessionInGroup inst s gid) with (match parseGroupID inst s with Some g => String.eqb g gid | None => false end).
  destruct (parseGroupID inst s) as [g|] eqn:E.
  - rewrite IH.
    + destruct (String.eqb_spec g gid) as [->|]; [rewrite lookup_insert_eq; simpl; by rewrite <- app_assoc|by rewrite lookup_insert_ne by done].
    + intros g'. destruct (decide (g = g')) as [->|]; [rewrite lookup_insert_eq; by destruct (default [] (m !! g'))|by rewrite lookup_insert_ne by done].
  - by apply IH.
Qed.

Lemma group_map_spec inst ss gid : default [] (group_map inst ss !! gid) = List.filter (fun s => sessionInGroup inst s gid) ss.
Proof. unfold group_map. rewrite group_map_lookup by (intros g; by rewrite lookup_empty). by rewrite lookup_empty. Qed.

(** The sessions shown under a group's heading are the sessions in that group, in
    their order; a session in no group is shown under its own name. *)
Theorem groupSessions_shows inst ss g : g ∈ groupSessions inst ss ->
  (gr_sessions g = [gr_id g] /\ parseGroupID inst (gr_id g) = None /\ gr_id g ∈ ss) \/
  gr_sessions g = List.filter (fun s => sessionInGroup inst s (gr_id g)) ss.
Proof.
  unfold groupSessions. intros [H|H]%elem_of_app; apply list_elem_of_In, in_map_iff in H as (x & <- & Hx); cbn [gr_sessions gr_id].
  - left. apply list_elem_of_In, list_elem_of_filter in Hx as [? ?]. done.
  - right. apply group_map_spec.
Qed.

(** ** The bounded buffer keeps the first bytes *)

Lemma substring_whole s : forall n, (String.length s <= n)%nat -> String.substring 0 n s = s.
Proof. induction s as [|a s IH]; intros [|n]; simpl; try done; try lia. intros. f_equal. apply IH. lia. Qed.

Lemma substring_past b p : forall n, (String.length b <= n)%nat -> String.substring 0 n (b +:+ p) = b +:+ String.substring 0 (n - String.length b) p.
Proof. induction b as [|a b IH]; intros [|n] H; simpl in *; try done; try lia. f_equal. apply IH. lia. Qed.

Lemma substring_app_cut n : forall s t, String.substring 0 n (String.substring 0 n s +:+ t) = String.substring 0 n (s +:+ t).
Proof. induction n as [|n IH]; intros [|a s] t; simpl; try done; [by destruct t|]. f_equal. apply IH. Qed.

Lemma capped_Write_buf p c : (String.length (cb_buf c) <= cb_limit c)%nat ->
  cb_buf (fst (capped_Write p c)) = String.substring 0 (cb_limit c) (cb_buf c +:+ p).
Proof.
  intros H. unfold capped_Write. cbn [fst cb_buf]. rewrite substring_past by done. destruct (Nat.ltb_spec 0 (cb_limit c - String.length (cb_buf c))) as [|H0].
  - destruct (Nat.ltb_spec (cb_limit c - String.length (cb_buf c)) (String.length p)); [done|]. by rewrite substring_whole by lia.
  - replace (cb_limit c - String.length (cb_buf c))%nat with 0%nat by lia. destruct p; cbn [String.substring]; by rewrite append_nil_r.
Qed.

(** Of a bash probe's output the first [cb_limit] bytes are kept, in whatever pieces it was written. *)
Theorem capped_keeps_first ps : forall c,
  (String.length (cb_buf c) <= cb_limit c)%nat ->
  cb_buf (foldl (fun c p => fst (capped_Write p c)) c ps) = String.substring 0 (cb_limit c) (cb_buf c +:+ String.concat "" ps).
Proof.
  induction ps as [|p ps IH]; intros c Hc; [simpl; rewrite append_nil_r; symmetry; by apply substring_whole|].
  cbn [foldl]. assert (String.concat "" (p :: ps) = p +:+ String.concat "" ps) as -> by (destruct ps; [by rewrite append_nil_r|done]).
  rewrite IH; rewrite capped_Write_buf by done; change (cb_limit (fst (capped_Write p c))) with (cb_limit c).
  - by rewrite substring_app_cut, append_assoc.
  - apply substring_take.
Qed.

Module AgentRunExamples.

Definition named (name : string) : Instance_ := MkInstance name "" 0 StatusRunning "" "" true "" "".
Definition taken : State := {["web" := MkFleet (MkSettings [] []) [named "bot-120000-1"; named "dev"; named "bot-120000-2"]]}.

Lemma free_instance_name_found_witness :
  freeAutomationInstanceName (Some taken) "web" "Bot" "120000" 0 = Some (3, "bot-120000-3") /\
  exists seq' name, freeAutomationInstanceName (Some taken) "web" "Bot" "120000" 0 = Some (seq', name) /\
    0 < seq' <= 0 + Z.of_nat (name_fuel (Some taken) "web") /\ name = automationInstanceName "Bot" "120000" seq' /\
    (forall st' f, Some taken = Some st' -> st' !! "web" = Some f -> GetInstance f name = None) /\
    all_name name = true /\ (String.length name <= 51)%nat.
Proof. split; [vm_compute; reflexivity|]. apply (free_instance_name_found (Some taken) "web" "Bot" "120000" 0); [lia|vm_compute; reflexivity|reflexivity|reflexivity]. Defined.

End AgentRunExamples.
