(* ===== verification/SafeFs.v ===== *)
(** * The guarded file system (internal/safefs)

    A folder tree other parties write too, and the operations safefs gives on it:
    each walks to its path element by element, refusing a symlink or a non-folder
    on the way, and acts on the last element without following it.

    A [folder] is the tree beneath the root, a node per path. A system call fails
    when [fo_fails] says so, with any error; a call that fails does nothing, less
    what its definition says. One operation sees one state of the folder: what
    others do meanwhile comes between operations, and in [ReplaceFile] while its
    data is read, so the identity checks against a swap within one walk always
    pass here. A file has one name (no hard links). Names are slash-separated
    paths relative to the root, as in the code. *)

From S2P Require Import Prelude GoStrings GoText Sha256 Entry.
Local Open Scope string_scope.
Local Open Scope Z_scope.
Local Open Scope list_scope.

(** ** Errors *)

(** The refusals of safefs, and the system's errors its callers tell apart. *)
Inductive fserr :=
| ErrSymlink | ErrNotDir | ErrNotRegular | ErrChanged | ErrReserved
| ErrNotExist | ErrExist | ErrInvalid
| ENOTDIR | ENOTEMPTY | EISDIR | ENOSPC | EDQUOT | EACCES | EIO.

#[export] Instance fserr_eq_dec : EqDecision fserr.
Proof. solve_decision. Defined.

(** An fs.PathError: the path at fault and the cause. *)
Record ferr := MkFErr { fe_path : string; fe_err : fserr }.

(** ** The folder *)

Inductive body := BFile (data : string) | BDir | BLink (target : string) | BOther.

(** An entry of a folder, which is also its fs.FileInfo. [nd_perm] are the mode's
    bits besides its type. *)
Record node := MkNode { nd_body : body; nd_perm : Z; nd_mtime : Z; nd_ctime : Z; nd_ino : Z; nd_dev : Z }.

#[export] Instance body_eq_dec : EqDecision body.
Proof. solve_decision. Defined.
#[export] Instance node_eq_dec : EqDecision node.
Proof. solve_decision. Defined.

Definition IsDir (n : node) : bool := match nd_body n with BDir => true | _ => false end.
Definition IsLink (n : node) : bool := match nd_body n with BLink _ => true | _ => false end.
Definition IsRegular (n : node) : bool := match nd_body n with BFile _ => true | _ => false end.

(** fs.FileMode: the type bits and the others. *)
Definition ModeDir : Z := 2 ^ 31.
Definition ModeSymlink : Z := 2 ^ 27.
Definition ModeIrregular : Z := 2 ^ 19.
Definition Mode (n : node) : Z :=
  Z.lor (match nd_body n with BFile _ => 0 | BDir => ModeDir | BLink _ => ModeSymlink | BOther => ModeIrregular end) (nd_perm n).

Definition Size (n : node) : Z :=
  match nd_body n with BFile d => Z.of_nat (String.length d) | BLink t => Z.of_nat (String.length t) | _ => 0 end.

Definition SameFile (a b : node) : bool := (nd_ino a =? nd_ino b) && (nd_dev a =? nd_dev b).

Inductive call :=
| CLstat | COpenDir | CReaddir | COpen | CRead | CMkdir | CRemove | CSymlink | CReadlink
| CChmod | CChtimes | CChown | CCreate | CWrite | CClose | CRename | CTruncate | CCloseCut.

Record folder := MkFolder {
  fo_nodes : gmap string node;
  fo_top : node;                             (* the root folder itself *)
  fo_fails : call -> string -> option fserr;
  fo_clock : Z;                              (* the time the system stamps entries with *)
  fo_ino : Z;                                (* the next inode number *)
  fo_umask : Z
}.

Definition set_nodes (f : folder) (m : gmap string node) : folder :=
  MkFolder m (fo_top f) (fo_fails f) (fo_clock f) (fo_ino f) (fo_umask f).

(** A new entry with an inode of its own and the bits given. *)
Definition create_node (f : folder) (p : string) (b : body) (perm : Z) : folder :=
  MkFolder (<[p := MkNode b perm (fo_clock f) (fo_clock f) (fo_ino f) (nd_dev (fo_top f))]> (fo_nodes f))
    (fo_top f) (fo_fails f) (fo_clock f) (fo_ino f + 1) (fo_umask f).

Definition set_node (f : folder) (p : string) (n : node) : folder := set_nodes f (<[p := n]> (fo_nodes f)).
Definition del_node (f : folder) (p : string) : folder := set_nodes f (delete p (fo_nodes f)).

(** A system call on [p]: the error it fails with, if any. *)
Definition refused (f : folder) (c : call) (p : string) : option ferr := MkFErr p <$> fo_fails f c p.

(** ** Modes and names *)

Definition safeMode (mode : Z) : Z := Z.land mode (Z.lor ModePerm ModeSticky).
Definition createMode (mode : Z) : Z := Z.land mode ModePerm.

Definition ModeSetuid : Z := 2 ^ 23.
Definition ModeSetgid : Z := 2 ^ 22.
Definition ModeSetID : Z := Z.lor ModeSetuid ModeSetgid.

(** The set-group-ID bit a folder made at [p] has of the folder it is in. *)
Definition inherited (f : folder) (p : string) : Z :=
  let d := path_Dir p in
  Z.land (if String.eqb d "." then nd_perm (fo_top f) else match fo_nodes f !! d with Some n => nd_perm n | None => 0 end) ModeSetgid.

(** The bits an entry is made with, less the umask's. *)
Definition masked (f : folder) (mode : Z) : Z := Z.land mode (Z.lnot (fo_umask f)).

Definition TempPrefix : string := ".fleet-safefs-".
Definition tempSuffix : string := ".tmp".
Definition IsTemp (name : string) : bool := HasPrefix name TempPrefix && HasSuffix name tempSuffix.
(** [r] is a random uint64, printed as sixteen hexadecimal digits. *)
Definition tempName (r : Z) : string :=
  TempPrefix +:+ EncodeToString (bytes_of (be_bytes 8 r)) +:+ tempSuffix.

(** ** The walk to a folder *)

(** An element reached from its folder's handle. *)
Definition lstat_at (f : folder) (p : string) : result ferr node :=
  match refused f CLstat p with
  | Some e => Err e
  | None => match fo_nodes f !! p with Some n => Ok n | None => Err (MkFErr p ErrNotExist) end
  end.

Definition mkdir_at (f : folder) (p : string) (perm : Z) : option ferr * folder :=
  match refused f CMkdir p with
  | Some e => (Some e, f)
  | None => match fo_nodes f !! p with
            | Some _ => (Some (MkFErr p ErrExist), f)
            | None => (None, create_node f p BDir (Z.lor (masked f (createMode perm)) (inherited f p)))
            end
  end.

Definition openChildAs (f : folder) (p : string) (n : node) : option ferr :=
  match nd_body n with
  | BLink _ => Some (MkFErr p ErrSymlink)
  | BDir => refused f COpenDir p
  | _ => Some (MkFErr p ErrNotDir)
  end.

Definition openChild (f : folder) (p : string) (create : bool) (perm : Z) : option ferr * folder :=
  let opened f := match lstat_at f p with Err e => (Some e, f) | Ok n => (openChildAs f p n, f) end in
  match lstat_at f p with
  | Err e =>
      if create && bool_decide (fe_err e = ErrNotExist) then
        match mkdir_at f p perm with
        | (Some e, f) => if bool_decide (fe_err e = ErrExist) then opened f else (Some e, f)
        | (None, f) => opened f
        end
      else (Some e, f)
  | Ok n => (openChildAs f p n, f)
  end.

(** The folders of [ps] opened one from the other. *)
Fixpoint open_path (f : folder) (ps : list string) (create : bool) (perm : Z) : option ferr * folder :=
  match ps with
  | [] => (None, f)
  | p :: ps => match openChild f p create perm with
               | (Some e, f) => (Some e, f)
               | (None, f) => open_path f ps create perm
               end
  end.

Definition openDir (f : folder) (name : string) (create : bool) (perm : Z) : option ferr * folder :=
  if String.eqb name "." then (None, f) else open_path f (ancestors name ++ [name]) create perm.

Definition check_name (name : string) (allowRoot : bool) : option ferr :=
  if negb (fs_ValidPath name) || String.eqb name "." && negb allowRoot then Some (MkFErr name ErrInvalid) else None.

Definition parent (f : folder) (name : string) : option ferr :=
  match check_name name false with Some e => Some e | None => (openDir f (path_Dir name) false 0).1 end.

(** ** Operations *)

Definition Lstat (f : folder) (name : string) : result ferr node :=
  match check_name name true with
  | Some e => Err e
  | None =>
      if String.eqb name "." then match refused f CLstat "." with Some e => Err e | None => Ok (fo_top f) end
      else match parent f name with Some e => Err e | None => lstat_at f name end
  end.

Definition regular (n : node) : option fserr :=
  match nd_body n with BLink _ => Some ErrSymlink | BFile _ => None | _ => Some ErrNotRegular end.

(** An existing regular file opened, for reading or for writing in place: the file. *)
Definition Open (f : folder) (name : string) : result ferr node :=
  match parent f name with
  | Some e => Err e
  | None => match lstat_at f name with
            | Err e => Err e
            | Ok n => match regular n with
                      | Some e => Err (MkFErr name e)
                      | None => match refused f COpen name with Some e => Err e | None => Ok n end
                      end
            end
  end.

Definition Mkdir (f : folder) (name : string) (perm : Z) : option ferr * folder :=
  match parent f name with Some e => (Some e, f) | None => mkdir_at f name perm end.

Definition MkdirAll (f : folder) (name : string) (perm : Z) : option ferr * folder :=
  match check_name name true with Some e => (Some e, f) | None => openDir f name true perm end.

Definition Readlink (f : folder) (name : string) : result ferr string :=
  match parent f name with
  | Some e => Err e
  | None => match refused f CReadlink name with
            | Some e => Err e
            | None => match fo_nodes f !! name with
                      | None => Err (MkFErr name ErrNotExist)
                      | Some n => match nd_body n with BLink t => Ok t | _ => Err (MkFErr name ErrInvalid) end
                      end
            end
  end.

(** *** Reserved paths *)

Section reserved.
Context (reserved : list string).

Definition guardedAt (depth : nat) : list string :=
  remove_dups (map (fun r => Join (take depth (split_byte slash r)) "/")
    (filter (fun r => (depth <= length (split_byte slash r))%nat) reserved)).

Definition checkReserved (name : string) : option ferr :=
  if existsb (fun r => String.eqb r name || HasPrefix r (name +:+ "/")) reserved then Some (MkFErr name ErrReserved) else None.

Definition checkAboveReserved (name : string) : option ferr :=
  if existsb (fun r => HasPrefix r (name +:+ "/")) reserved then Some (MkFErr name ErrReserved) else None.

Definition same_entry (f : folder) (target : node) (guarded : string) : bool :=
  match Lstat f guarded with Ok info => SameFile info target | Err _ => false end.

Definition guardReserved (f : folder) (name : string) : option ferr :=
  match check_name name false with
  | Some e => Some e
  | None => match checkReserved name with
            | Some e => Some e
            | None => match Lstat f name with
                      | Err _ => None
                      | Ok target => if existsb (same_entry f target) (guardedAt (Z.to_nat (Count name slash) + 1))
                                     then Some (MkFErr name ErrReserved) else None
                      end
            end
  end.

(** The names directly in [dir], in order. *)
Definition children (f : folder) (dir : string) : list string :=
  SortFunc Compare (filter (fun k => path_Dir k = dir) (map fst (map_to_list (fo_nodes f)))).

Definition Remove (f : folder) (name : string) : option ferr * folder :=
  match guardReserved f name with
  | Some e => (Some e, f)
  | None => match parent f name with
            | Some e => (Some e, f)
            | None => match refused f CRemove name with
                      | Some e => (Some e, f)
                      | None => match fo_nodes f !! name with
                                | None => (Some (MkFErr name ErrNotExist), f)
                                | Some n => if IsDir n && negb (bool_decide (children f name = []))
                                            then (Some (MkFErr name ENOTEMPTY), f)
                                            else (None, del_node f name)
                                end
                      end
            end
  end.

(** What of [name] cannot be removed: the entries whose removal fails, and the folders above them. *)
Definition stuck (f : folder) (name k : string) : bool :=
  existsb (fun q => within q k && within q name && bool_decide (is_Some (fo_fails f CRemove q))) (map fst (map_to_list (fo_nodes f))).

Definition RemoveAll (f : folder) (name : string) : option ferr * folder :=
  match guardReserved f name with
  | Some e => (Some e, f)
  | None => match parent f name with
            | Some e => if bool_decide (fe_err e = ErrNotExist) then (None, f) else (Some e, f)
            | None =>
                let f' := set_nodes f (filter (fun kn => within kn.1 name = false \/ stuck f name kn.1 = true) (fo_nodes f)) in
                if stuck f name name
                then (Some (MkFErr name (default EIO (list_find (fun q => within q name = true /\ is_Some (fo_fails f CRemove q)) (map fst (map_to_list (fo_nodes f))) ≫= fun iq => fo_fails f CRemove iq.2))), f')
                else (None, f')
            end
  end.

Definition Symlink_ (f : folder) (target name : string) : option ferr * folder :=
  match checkReserved name with
  | Some e => (Some e, f)
  | None => match parent f name with
            | Some e => (Some e, f)
            | None => match refused f CSymlink name with
                      | Some e => (Some e, f)
                      | None => match fo_nodes f !! name with
                                | Some _ => (Some (MkFErr name ErrExist), f)
                                | None => (None, create_node f name (BLink target) ModePerm)
                                end
                      end
            end
  end.
(** The opens of an existing file that [trunc] cuts, or of a new one. *)
Definition openExisting (f : folder) (name : string) (trunc : bool) : result ferr node * folder :=
  match lstat_at f name with
  | Err e => (Err e, f)
  | Ok n => match regular n with
            | Some e => (Err (MkFErr name e), f)
            | None => match refused f COpen name with
                      | Some e => (Err e, f)
                      | None => if negb trunc then (Ok n, f)
                                else match refused f CTruncate name with
                                     | Some e => (Err e, f)
                                     | None => let n := MkNode (BFile "") (nd_perm n) (fo_clock f) (fo_clock f) (nd_ino n) (nd_dev n) in (Ok n, set_node f name n)
                                     end
                      end
            end
  end.

Definition OpenFile (f : folder) (name : string) (create excl trunc : bool) (perm : Z) : result ferr node * folder :=
  match (if create then checkAboveReserved name else None) with
  | Some e => (Err e, f)
  | None => match parent f name with
            | Some e => (Err e, f)
            | None =>
                if negb create then openExisting f name trunc
                else match refused f CCreate name with
                     | Some e => (Err e, f)
                     | None => match fo_nodes f !! name with
                               | Some _ => if excl then (Err (MkFErr name ErrExist), f) else openExisting f name trunc
                               | None => let f := create_node f name (BFile "") (masked f (createMode perm)) in
                                         (match fo_nodes f !! name with Some n => Ok n | None => Err (MkFErr name ErrNotExist) end, f)
                               end
                     end
            end
  end.

(** Where an entry at [q] is once [old] is [new]. *)
Definition moved (old new q : string) : option string :=
  if String.eqb q old then Some new
  else if HasPrefix q (old +:+ "/") then Some (new +:+ drop_bytes (String.length old) q) else None.

(** rename(2) of what is at [old] over what is at [new]. *)
Definition rename_nodes (f : folder) (old new : string) : gmap string node :=
  list_to_map (omap (fun qn => (fun q => (q, if String.eqb q new then MkNode (nd_body qn.2) (nd_perm qn.2) (nd_mtime qn.2) (fo_clock f) (nd_ino qn.2) (nd_dev qn.2) else qn.2)) <$> moved old new qn.1) (map_to_list (fo_nodes f)))
  ∪ filter (fun qn => moved old new qn.1 = None /\ qn.1 <> new) (fo_nodes f).

Definition Rename (f : folder) (old new : string) : option ferr * folder :=
  match guardReserved f old with
  | Some e => (Some e, f)
  | None => match guardReserved f new with
  | Some e => (Some e, f)
  | None => match parent f old with
  | Some e => (Some e, f)
  | None => match parent f new with
  | Some e => (Some e, f)
  | None => match refused f CRename old with
  | Some e => (Some e, f)
  | None =>
      match fo_nodes f !! old with
      | None => (Some (MkFErr old ErrNotExist), f)
      | Some n =>
          if String.eqb old new then (None, f)
          else if HasPrefix new (old +:+ "/") then (Some (MkFErr old ErrInvalid), f)
          else match fo_nodes f !! new with
               | None => (None, set_nodes f (rename_nodes f old new))
               | Some m => if IsDir n && negb (IsDir m) then (Some (MkFErr old ENOTDIR), f)
                           else if IsDir m && negb (IsDir n) then (Some (MkFErr old EISDIR), f)
                           else if IsDir m && negb (bool_decide (children f new = [])) then (Some (MkFErr old ENOTEMPTY), f)
                           else (None, set_nodes f (rename_nodes f old new))
               end
      end
  end
  end
  end
  end
  end.
End reserved.

Definition lstatNoLink (f : folder) (name : string) : result ferr node :=
  match lstat_at f name with
  | Err e => Err e
  | Ok n => if IsLink n then Err (MkFErr name ErrSymlink) else Ok n
  end.

Definition with_perm (n : node) (perm ctime : Z) : node := MkNode (nd_body n) perm (nd_mtime n) ctime (nd_ino n) (nd_dev n).
Definition with_times (n : node) (mtime ctime : Z) : node := MkNode (nd_body n) (nd_perm n) mtime ctime (nd_ino n) (nd_dev n).
Definition with_data (n : node) (data : string) (mtime ctime : Z) : node := MkNode (BFile data) (nd_perm n) mtime ctime (nd_ino n) (nd_dev n).

(** Of an entry below the root. *)
Definition Chmod (f : folder) (name : string) (mode : Z) : option ferr * folder :=
  match parent f name with
  | Some e => (Some e, f)
  | None => match lstatNoLink f name with
            | Err e => (Some e, f)
            | Ok n => match refused f CChmod name with
                      | Some e => (Some e, f)
                      | None => let mode := safeMode mode in
                                (None, set_node f name (with_perm n (if IsDir n then mode else createMode mode) (fo_clock f)))
                      end
            end
  end.

Definition Chtimes (f : folder) (name : string) (mtime : Z) : option ferr * folder :=
  match parent f name with
  | Some e => (Some e, f)
  | None => match lstatNoLink f name with
            | Err e => (Some e, f)
            | Ok n => match refused f CChtimes name with
                      | Some e => (Some e, f)
                      | None => (None, set_node f name (with_times n mtime (fo_clock f)))
                      end
            end
  end.

(** Owners are not part of a node; what chown(2) does beside them is: the set-ID
    bits of a file are dropped. *)
Definition Lchown (f : folder) (name : string) : option ferr * folder :=
  match parent f name with
  | Some e => (Some e, f)
  | None => match refused f CChown name with
            | Some e => (Some e, f)
            | None => match fo_nodes f !! name with
                      | None => (Some (MkFErr name ErrNotExist), f)
                      | Some n => (None, set_node f name (with_perm n (if IsRegular n then Z.ldiff (nd_perm n) ModeSetID else nd_perm n) (fo_clock f)))
                      end
            end
  end.

(** *** Replacing a file *)

(** The folder is part of a larger state [S] others change while the data is
    read; [fs_err] is a file-system error among the caller's. *)
Section replace.
Context {S E : Type} (get : S -> folder) (upd : (folder -> folder) -> S -> S) (fs_err : ferr -> E).
Context (reserved : list string).

Definition create_excl (f : folder) (p : string) : option ferr * folder :=
  match refused f CCreate p with
  | Some e => (Some e, f)
  | None => match fo_nodes f !! p with
            | Some _ => (Some (MkFErr p ErrExist), f)
            | None => (None, create_node f p (BFile "") (masked f 384))
            end
  end.

(** The first free one of the names drawn, at most ten. *)
Fixpoint createTemp (f : folder) (dir : string) (rands : list Z) : result ferr string * folder :=
  match rands with
  | [] => (Err (MkFErr dir ErrExist), f)
  | r :: rands =>
      let p := path_Join dir (tempName r) in
      match create_excl f p with
      | (Some e, f) => if bool_decide (fe_err e = ErrExist) then createTemp f dir rands else (Err e, f)
      | (None, f) => (Ok p, f)
      end
  end.

(** Removes the temp file, when that works. *)
Definition drop_temp (f : folder) (tmp : string) : folder :=
  match refused f CRemove tmp with
  | Some _ => f
  | None => match fo_nodes f !! tmp with
            | Some n => if IsDir n && negb (bool_decide (children f tmp = [])) then f else del_node f tmp
            | None => f
            end
  end.

(** The file the handle of inode [ino] writes, where it still has a name. *)
Definition write_handle (f : folder) (p : string) (ino : Z) (data : string) (perm : Z) : folder :=
  match fo_nodes f !! p with
  | Some n => if nd_ino n =? ino then set_node f p (MkNode (BFile data) perm (fo_clock f) (fo_clock f) ino (nd_dev n)) else f
  | None => f
  end.

(** Writes the data, the mode and the time to the temp file. *)
Definition fillTemp (f : folder) (tmp : string) (ino : Z) (data : string) (perm mtime : Z) : option ferr * folder :=
  match refused f CWrite tmp with
  | Some e => (Some e, f)
  | None => match refused f CClose tmp with
            | Some e => (Some e, f)
            | None =>
                let f := write_handle f tmp ino data (createMode perm) in
                match refused f CChtimes tmp with
                | Some e => (Some e, f)
                | None => match fo_nodes f !! tmp with
                          | Some n => (None, set_node f tmp (with_times n mtime (fo_clock f)))
                          | None => (Some (MkFErr tmp ErrNotExist), f)
                          end
                end
            end
  end.

(** rename(2) of the temp file over [name], in its folder. *)
Definition rename_temp (f : folder) (tmp name : string) : option ferr * folder :=
  match refused f CRename name with
  | Some e => (Some e, f)
  | None => match fo_nodes f !! tmp with
            | None => (Some (MkFErr name ErrNotExist), f)
            | Some n => match fo_nodes f !! name with
                        | Some old => if IsDir old then (Some (MkFErr name EISDIR), f)
                                      else (None, set_node (del_node f tmp) name n)
                        | None => (None, set_node (del_node f tmp) name n)
                        end
            end
  end.

(** The steps once the data is read: [s] is the state then. *)
Definition replace_with (s : S) (name tmp : string) (ino : Z) (data : string) (perm mtime : Z)
    (expect : S -> result ferr (option node) -> option E) : result E node * S :=
  let failed f e := (Err e, upd (fun _ => drop_temp f tmp) s) in
  match fillTemp (get s) tmp ino data perm mtime with
  | (Some e, f) => failed f (fs_err (MkFErr name (fe_err e)))
  | (None, f) =>
      match lstat_at f tmp with
      | Ok now =>
          if negb ((nd_ino now =? ino) && (nd_dev now =? nd_dev (fo_top f))) then failed f (fs_err (MkFErr name ErrChanged))
          else
            let current := match lstat_at f name with
                           | Ok n => Ok (Some n)
                           | Err e => if bool_decide (fe_err e = ErrNotExist) then Ok None else Err e
                           end in
            match expect (upd (fun _ => f) s) current with
            | Some e => failed f e
            | None =>
                match rename_temp f tmp name with
                | (Some e, f) => failed f (fs_err e)
                | (None, f) => (match lstat_at f name with
                                | Ok n => if SameFile n now then Ok n else Err (fs_err (MkFErr name ErrChanged))
                                | Err e => Err (fs_err e)
                                end, upd (fun _ => f) s)
                end
            end
      | Err _ => failed f (fs_err (MkFErr name ErrChanged))
      end
  end.

Definition ReplaceFile (s : S) (name : string) (rands : list Z) (read : S -> result E string * S) (perm mtime : Z)
    (expect : S -> result ferr (option node) -> option E) : result E node * S :=
  let f := get s in
  match checkAboveReserved reserved name with
  | Some e => (Err (fs_err e), s)
  | None =>
      match parent f name with
      | Some e => (Err (fs_err e), s)
      | None =>
          if match lstat_at f name with Ok n => IsDir n | Err _ => false end then (Err (fs_err (MkFErr name EISDIR)), s)
          else match createTemp f (path_Dir name) (take 10 rands) with
               | (Err e, f) => (Err (fs_err (MkFErr name (fe_err e))), upd (fun _ => f) s)
               | (Ok tmp, f') =>
                   match read (upd (fun _ => f') s) with
                   | (Err e, s) => (Err e, upd (fun f => drop_temp f tmp) s)
                   | (Ok data, s) => replace_with s name tmp (fo_ino f) data perm mtime expect
                   end
               end
      end
  end.
End replace.

(** *** Walking *)

(** What the callback answers: go on, fs.SkipDir, fs.SkipAll. *)
Inductive walk_ctl := Go | SkipDir | SkipAll.

(** The entries with their Lstat, in order; one gone meanwhile is left out. *)
Fixpoint lstat_all (f : folder) (names : list string) : result ferr (list (string * node)) :=
  match names with
  | [] => Ok []
  | p :: names =>
      match lstat_at f p with
      | Err e => if bool_decide (fe_err e = ErrNotExist) then lstat_all f names else Err e
      | Ok n => match lstat_all f names with Err e => Err e | Ok rest => Ok ((p, n) :: rest) end
      end
  end.

Definition readDir (f : folder) (dir : string) : result ferr (list (string * node)) :=
  match refused f CReaddir dir with Some e => Err e | None => lstat_all f (children f dir) end.

(** A folder listed before and opened now: it must still be that folder. *)
Definition openListed (f : folder) (p : string) (n : node) : option ferr :=
  match openChildAs f p n with
  | Some e => Some e
  | None => match fo_nodes f !! p with
            | None => Some (MkFErr p ErrNotExist)
            | Some m => if IsLink m then Some (MkFErr p ErrSymlink)
                        else if negb (IsDir m) then Some (MkFErr p ENOTDIR)
                        else if SameFile n m then None else Some (MkFErr p ErrChanged)
            end
  end.

(** A walk goes on while others write: [view dir] is the folder as the walk opens
    and lists [dir]. *)
Section walk.
Context {S : Type} (view : string -> folder) (fn : S -> string -> option node -> option ferr -> S * walk_ctl).

(** The loop over a folder's entries; [walk] walks a folder whose handle is open. *)
Fixpoint walk_entries (walk : S -> string -> node -> S * walk_ctl) (s : S) (entries : list (string * node)) : S * walk_ctl :=
  match entries with
  | [] => (s, Go)
  | (p, n) :: rest =>
      if IsDir n then
        match openListed (view p) p n with
        | Some e => match fn s p (Some n) (Some e) with
                    | (s, SkipAll) => (s, SkipAll)
                    | (s, _) => walk_entries walk s rest
                    end
        | None => match walk s p n with
                  | (s, Go) => walk_entries walk s rest
                  | (s, c) => (s, c)
                  end
        end
      else match fn s p (Some n) None with
           | (s, Go) => walk_entries walk s rest
           | (s, SkipDir) => (s, Go)
           | (s, SkipAll) => (s, SkipAll)
           end
  end.

Fixpoint walkDir (fuel : nat) (s : S) (name : string) (n : node) : S * walk_ctl :=
  match fuel with
  | O => (s, SkipAll)
  | Datatypes.S fuel =>
      match fn s name (Some n) None with
      | (s, SkipDir) => (s, Go)
      | (s, SkipAll) => (s, SkipAll)
      | (s, Go) =>
          match readDir (view name) name with
          | Ok entries => walk_entries (walkDir fuel) s entries
          | Err e => match fn s name (Some n) (Some e) with
                     | (s, SkipAll) => (s, SkipAll)
                     | (s, _) => (s, Go)
                     end
          end
      end
  end.

(** A tree is no deeper than it has entries; [deeper] is how much deeper others
    make it while the walk goes on. *)
Definition WalkDirLive (deeper : nat) (s : S) (name : string) : S :=
  let f := view name in
  match Lstat f name with
  | Err e => (fn s name None (Some e)).1
  | Ok n => if IsDir n then
              match (openDir f name false 0).1 with
              | Some e => (fn s name (Some n) (Some e)).1
              | None => (walkDir (Datatypes.S (Datatypes.S (size (fo_nodes f)) + deeper)) s name n).1
              end
            else (fn s name (Some n) None).1
  end.
End walk.

(** A walk of a folder nothing else writes meanwhile. *)
Definition WalkDir {S} (f : folder) (fn : S -> string -> option node -> option ferr -> S * walk_ctl) (s : S) (name : string) : S :=
  WalkDirLive (fun _ => f) fn 0 s name.

(** ** The walk reaches real folders only *)

Definition open_folder (f : folder) (a : string) : Prop :=
  (exists n, fo_nodes f !! a = Some n /\ IsDir n = true) /\ fo_fails f CLstat a = None /\ fo_fails f COpenDir a = None.

Lemma lstat_at_Ok f p n : lstat_at f p = Ok n <-> fo_nodes f !! p = Some n /\ fo_fails f CLstat p = None.
Proof. unfold lstat_at, refused. destruct (fo_fails f CLstat p); simpl; [naive_solver|]. destruct (fo_nodes f !! p); naive_solver. Qed.

Lemma openChild_folder f a : openChild f a false 0 = (None, f) <-> open_folder f a.
Proof.
  unfold openChild, open_folder. cbn [andb]. destruct (lstat_at f a) as [n|e] eqn:E.
  - apply lstat_at_Ok in E as [Hn Hf]. unfold openChildAs, refused, IsDir. destruct n as [[] ? ? ? ? ?]; simpl; destruct (fo_fails f COpenDir a); naive_solver.
  - split; [done|]. intros ((n & Hn & _) & Hf & _). by rewrite (proj2 (lstat_at_Ok f a n)) in E.
Qed.

Lemma openChild_same f a : (openChild f a false 0).2 = f.
Proof. unfold openChild. by destruct (lstat_at f a). Qed.

Lemma open_path_same ps f : (open_path f ps false 0).2 = f.
Proof.
  induction ps as [|p ps IH]; [done|]. simpl. pose proof (openChild_same f p) as H. destruct (openChild f p false 0) as [[e|] f']; simpl in *; subst; done.
Qed.

Lemma open_path_folders ps f : (open_path f ps false 0).1 = None <-> Forall (open_folder f) ps.
Proof.
  induction ps as [|p ps IH]; [done|]. simpl. pose proof (openChild_same f p) as H. pose proof (openChild_folder f p) as Hc.
  destruct (openChild f p false 0) as [[e|] f'] eqn:E; simpl in *; subst f'.
  - split; [done|]. intros Hf. apply Forall_cons in Hf as [Hp _]. by apply Hc in Hp.
  - rewrite IH, Forall_cons. rewrite <- Hc. naive_solver.
Qed.

Lemma openDir_same f name : (openDir f name false 0).2 = f.
Proof. unfold openDir. destruct (String.eqb name "."); [done|]. apply open_path_same. Qed.

Lemma fs_ValidPath_elems name : fs_ValidPath name = true -> name <> "." -> valid_elems name = true.
Proof. unfold fs_ValidPath. intros H Hd. bool_hyps. apply orb_true_iff in H0 as [->%String.eqb_eq|]; done. Qed.

Lemma check_name_false name : check_name name false = None <-> fs_ValidPath name = true /\ name <> ".".
Proof.
  unfold check_name. rewrite andb_true_r. destruct (fs_ValidPath name); simpl; [|naive_solver]. destruct (String.eqb_spec name "."); naive_solver.
Qed.

Lemma parent_reached f name :
  parent f name = None <-> fs_ValidPath name = true /\ name <> "." /\ Forall (open_folder f) (ancestors name).
Proof.
  unfold parent. destruct (check_name name false) as [e|] eqn:E.
  - split; [done|]. intros (Hv & Hd & _). by rewrite (proj2 (check_name_false name)) in E.
  - apply check_name_false in E as [Hv Hd]. rewrite (ancestors_unfold name) by (by apply fs_ValidPath_elems). unfold openDir.
    destruct (String.eqb_spec (path_Dir name) "."); [naive_solver|]. rewrite open_path_folders. naive_solver.
Qed.
