(* ===== verification/SafeFsLaws.v ===== *)
(** * What the guarded file system promises (internal/safefs)

    The entries of a folder stay a tree whatever operation runs; an operation
    changes nothing but what it names, never through a symlink, never a reserved
    path, and never sets a set-ID bit; a file is replaced whole or not at all. *)

From S2P Require Import Prelude GoStrings GoText Sha256 Entry Paths Mergers SafeFs.
Local Open Scope string_scope.
Local Open Scope Z_scope.
Local Open Scope list_scope.

(** ** Folders are trees *)

Definition is_folder (f : folder) (p : string) : Prop := p = "." \/ exists d, fo_nodes f !! p = Some d /\ IsDir d = true.

(** Every entry is in a folder and has an inode of its own. *)
Record wf_folder (f : folder) : Prop := {
  wf_name p n : fo_nodes f !! p = Some n -> valid_elems p = true;
  wf_parent p n : fo_nodes f !! p = Some n -> is_folder f (path_Dir p);
  wf_ino p n : fo_nodes f !! p = Some n -> nd_ino n < fo_ino f;
  wf_own p q n m : fo_nodes f !! p = Some n -> fo_nodes f !! q = Some m -> nd_ino n = nd_ino m -> p = q;
  wf_top : IsDir (fo_top f) = true
}.

Lemma is_folder_ext f f' : (forall q, q <> "." -> (exists d, fo_nodes f !! q = Some d /\ IsDir d = true) -> exists d, fo_nodes f' !! q = Some d /\ IsDir d = true) ->
  forall p, is_folder f p -> is_folder f' p.
Proof. intros H p [->|Hd]; [by left|]. destruct (decide (p = ".")) as [->|]; [by left|]. right. by apply H. Qed.

Lemma wf_set f p n n' : wf_folder f -> fo_nodes f !! p = Some n -> nd_ino n' = nd_ino n -> IsDir n' = IsDir n -> wf_folder (set_node f p n').
Proof.
  intros [Hn Hp Hi Ho Ht] Hpn Ei Ed. unfold set_node, set_nodes. constructor; simpl.
  - intros q m [[<- _]|[_ Hq]]%lookup_insert_Some; eauto.
  - intros q m Hq. apply (is_folder_ext f); simpl.
    + intros q' _ (d & Hd & Hdd). destruct (decide (p = q')) as [->|]; [exists n'; rewrite lookup_insert_eq; split; [done|congruence]|exists d; by rewrite lookup_insert_ne].
    + apply lookup_insert_Some in Hq as [[<- _]|[_ Hq]]; eauto.
  - intros q m [[<- <-]|[_ Hq]]%lookup_insert_Some; [rewrite Ei|]; eauto.
  - intros q q' m m' [[<- <-]|[? Hq]]%lookup_insert_Some [[<- <-]|[? Hq']]%lookup_insert_Some; rewrite ?Ei; eauto.
  - done.
Qed.

(** Entries dropped so that no folder is missing above one that stays. *)
Lemma wf_filter f (keep : string * node -> Prop) `{!forall x, base.Decision (keep x)} :
  wf_folder f -> (forall p n d, fo_nodes f !! p = Some n -> keep (p, n) -> fo_nodes f !! path_Dir p = Some d -> keep (path_Dir p, d)) ->
  wf_folder (set_nodes f (filter keep (fo_nodes f))).
Proof.
  intros [Hn Hp Hi Ho Ht] Hk. unfold set_nodes. constructor; simpl.
  - intros q m [Hq _]%map_lookup_filter_Some. eauto.
  - intros q m [Hq Hkq]%map_lookup_filter_Some. destruct (Hp _ _ Hq) as [?|(d & Hd & Hdd)]; [by left|]. right. exists d. split; [|done].
    apply map_lookup_filter_Some. eauto.
  - intros q m [Hq _]%map_lookup_filter_Some. eauto.
  - intros q q' m m' [Hq _]%map_lookup_filter_Some [Hq' _]%map_lookup_filter_Some. eauto.
  - done.
Qed.

Lemma children_elem f d q : q ∈ children f d <-> path_Dir q = d /\ is_Some (fo_nodes f !! q).
Proof.
  unfold children. rewrite (SortFunc_perm Compare), list_elem_of_filter. apply and_iff_compat_l. split.
  - intros H. apply list_elem_of_In, in_map_iff in H as ([k n] & <- & Hk). apply list_elem_of_In, elem_of_map_to_list in Hk. by eexists.
  - intros [n Hn]. apply list_elem_of_In, in_map_iff. exists (q, n). split; [done|]. by apply list_elem_of_In, elem_of_map_to_list.
Qed.

(** In a tree, what is above an entry is a folder. *)
Lemma wf_ancestors f p n : wf_folder f -> fo_nodes f !! p = Some n -> forall a, a ∈ ancestors p -> exists d, fo_nodes f !! a = Some d /\ IsDir d = true.
Proof.
  intros Hwf Hp. pose proof (wf_name _ Hwf _ _ Hp) as Hv. revert n Hp. pattern p. revert p Hv.
  apply path_ind; intros p Hv.
  - intros Hd n Hp a. rewrite ancestors_unfold, Hd by done. by intros ?%elem_of_nil.
  - intros Hv' Hnd IH n Hp a. rewrite ancestors_unfold, (proj2 (String.eqb_neq _ _)) by done.
    destruct (wf_parent _ Hwf _ _ Hp) as [?|(d & Hd & Hdd)]; [done|]. intros [Ha| ->%list_elem_of_singleton]%elem_of_app; eauto.
Qed.

(** ** Modes *)

Definition no_setID (perm : Z) : Prop := Z.land perm ModeSetID = 0.

Lemma createMode_safe m : no_setID (createMode m).
Proof. unfold no_setID, createMode. rewrite <- Z.land_assoc. change (Z.land ModePerm ModeSetID) with 0. apply Z.land_0_r. Qed.

Lemma safeMode_safe m : no_setID (safeMode m).
Proof. unfold no_setID, safeMode. rewrite <- Z.land_assoc. change (Z.land (Z.lor ModePerm ModeSticky) ModeSetID) with 0. apply Z.land_0_r. Qed.

Lemma masked_safe f m : no_setID m -> no_setID (masked f m).
Proof. unfold no_setID, masked. intros H. rewrite (Z.land_comm m), <- Z.land_assoc, H. apply Z.land_0_r. Qed.

(** ** Replacing a file *)

Section replaced.
Context {S E : Type} (get : S -> folder) (upd : (folder -> folder) -> S -> S) (fs_err : ferr -> E).
Hypothesis get_upd : forall g s, get (upd g s) = g (get s).

(** The same entry, perhaps written: its inode and kind are kept, and no set-ID bit is new. *)
Definition rewritten (m m' : node) : Prop :=
  nd_ino m' = nd_ino m /\ IsDir m' = IsDir m /\ (nd_body m' = nd_body m \/ IsRegular m' = true) /\ (nd_perm m' = nd_perm m \/ no_setID (nd_perm m')).

(** Only the entry [tmp] was written. *)
Definition touched (f f1 : folder) (tmp : string) : Prop :=
  f1 = set_nodes f (fo_nodes f1) /\
  (fo_nodes f1 = fo_nodes f \/ exists m m', fo_nodes f !! tmp = Some m /\ rewritten m m' /\ fo_nodes f1 = <[tmp := m']> (fo_nodes f)).

Lemma rewritten_trans a b c : rewritten a b -> rewritten b c -> rewritten a c.
Proof.
  intros (? & ? & Hb & Hp) (? & ? & Hb' & Hp'). split_and!; [congruence|congruence| |].
  - destruct Hb' as [Eb|?]; [|by right]. destruct Hb as [?|Hr]; [left; congruence|right]. unfold IsRegular in *. by rewrite Eb.
  - destruct Hp' as [Ep|?]; [|by right]. rewrite Ep. done.
Qed.

Lemma set_nodes_id f : f = set_nodes f (fo_nodes f).
Proof. by destruct f. Qed.

Lemma touched_same f tmp : touched f f tmp.
Proof. split; [apply set_nodes_id|by left]. Qed.

Lemma touched_set f tmp m m' : fo_nodes f !! tmp = Some m -> rewritten m m' -> touched f (set_node f tmp m') tmp.
Proof. intros ??. split; [done|]. right. by exists m, m'. Qed.

Lemma touched_trans f f1 f2 tmp : touched f f1 tmp -> touched f1 f2 tmp -> touched f f2 tmp.
Proof.
  intros [E1 H1] [E2 H2]. split; [rewrite E2, E1; done|]. destruct H1 as [H1|(m & m' & Hm & Hr & H1)], H2 as [H2|(a & b & Ha & Hr' & H2)].
  - left. congruence.
  - right. exists a, b. rewrite <- H1. done.
  - right. exists m, m'. split_and!; [done|done|congruence].
  - rewrite H1, lookup_insert_eq in Ha. injection Ha as <-. right. exists m, b. split_and!; [done|by eapply rewritten_trans|]. by rewrite H2, H1, insert_insert_eq.
Qed.

Definition made (f : folder) (ino : Z) (data : string) (perm mtime dev : Z) : node :=
  MkNode (BFile data) (createMode perm) mtime (fo_clock f) ino dev.

Lemma write_handle_touched f tmp ino data perm :
  (forall m, fo_nodes f !! tmp = Some m -> nd_ino m = ino -> IsDir m = false) -> no_setID perm -> touched f (write_handle f tmp ino data perm) tmp.
Proof.
  intros Hr Hperm. unfold write_handle. destruct (fo_nodes f !! tmp) as [n|] eqn:Hn; [|apply touched_same].
  destruct (Z.eqb_spec (nd_ino n) ino) as [Ei|]; [|apply touched_same]. eapply touched_set; [done|]. split_and!; [done|by rewrite (Hr n)|by right|by right].
Qed.

Lemma fillTemp_spec f tmp ino data perm mtime :
  (forall m, fo_nodes f !! tmp = Some m -> nd_ino m = ino -> IsDir m = false) ->
  let '(r, f1) := fillTemp f tmp ino data perm mtime in
  touched f f1 tmp /\
  (r = None -> exists m, fo_nodes f !! tmp = Some m /\ (nd_ino m = ino -> fo_nodes f1 = <[tmp := made f ino data perm mtime (nd_dev m)]> (fo_nodes f))).
Proof.
  intros Hr. unfold fillTemp. destruct (refused f CWrite tmp); [by split; [apply touched_same|]|].
  destruct (refused f CClose tmp); [by split; [apply touched_same|]|].
  pose proof (write_handle_touched f tmp ino data (createMode perm) Hr (createMode_safe perm)) as Hw. set (f1 := write_handle f tmp ino data (createMode perm)) in *.
  destruct (refused f1 CChtimes tmp); [by split|]. destruct (fo_nodes f1 !! tmp) as [n|] eqn:Hn; [|by split]. split.
  - eapply touched_trans; [done|]. eapply touched_set; [done|]. split_and!; by auto.
  - intros _. unfold f1, write_handle in Hn. destruct (fo_nodes f !! tmp) as [m|] eqn:Hm; [|congruence]. exists m. split; [done|].
    intros Ei. rewrite Ei, Z.eqb_refl in Hn. simpl in Hn. rewrite lookup_insert_eq in Hn. injection Hn as <-.
    unfold set_node, f1, write_handle. rewrite Hm, Ei, Z.eqb_refl. simpl. by rewrite insert_insert_eq.
Qed.

Lemma drop_temp_spec f tmp : f = set_nodes f (fo_nodes f) /\
  drop_temp f tmp = set_nodes f (fo_nodes (drop_temp f tmp)) /\
  (fo_nodes (drop_temp f tmp) = fo_nodes f \/ fo_nodes (drop_temp f tmp) = delete tmp (fo_nodes f)).
Proof.
  split; [apply set_nodes_id|]. unfold drop_temp. destruct (refused f CRemove tmp); [split; [apply set_nodes_id|by left]|].
  destruct (fo_nodes f !! tmp) as [n|]; [|split; [apply set_nodes_id|by left]]. destruct (IsDir n && _); [split; [apply set_nodes_id|by left]|]. split; [done|by right].
Qed.

(** What [replace_with] does to the folder: an error leaves it as it was, less or
    with the temp file; else the file is in place as asked, [expect] having agreed. *)
Inductive replaced (f f' : folder) (name tmp : string) (ino : Z) (data : string) (perm mtime : Z) (agreed : Prop) : result E node -> Prop :=
| replaced_not e f1 : touched f f1 tmp -> f' = drop_temp f1 tmp -> replaced f f' name tmp ino data perm mtime agreed (Err e)
| replaced_now n r : agreed -> (exists m, fo_nodes f !! tmp = Some m /\ nd_ino m = ino) ->
    (forall old, fo_nodes f !! name = Some old -> name <> tmp -> IsDir old = false) ->
    n = made f ino data perm mtime (nd_dev (fo_top f)) ->
    f' = set_nodes f (<[name := n]> (delete tmp (fo_nodes f))) ->
    r = Ok n \/ (fo_fails f CLstat name <> None /\ exists e, r = Err e) ->
    replaced f f' name tmp ino data perm mtime agreed r.

Lemma replace_with_spec s name tmp ino data perm mtime expect :
  (forall m, fo_nodes (get s) !! tmp = Some m -> nd_ino m = ino -> IsDir m = false) -> name <> tmp ->
  let '(r, s') := replace_with get upd fs_err s name tmp ino data perm mtime expect in
  replaced (get s) (get s') name tmp ino data perm mtime
    (exists f1, touched (get s) f1 tmp /\
       expect (upd (fun _ => f1) s) (match lstat_at (get s) name with
                                     | Ok n => Ok (Some n)
                                     | Err e => if bool_decide (fe_err e = ErrNotExist) then Ok None else Err e
                                     end) = None) r.
Proof.
  intros Hr Hne. unfold replace_with. pose proof (fillTemp_spec (get s) tmp ino data perm mtime Hr) as Hf.
  destruct (fillTemp (get s) tmp ino data perm mtime) as [[e|] f1]; destruct Hf as [Ht Hm]; [rewrite get_upd; by eapply replaced_not|].
  destruct (Hm eq_refl) as (m & Hm0 & Hm1). destruct (lstat_at f1 tmp) as [now|e] eqn:Hnow; [|rewrite get_upd; by eapply replaced_not].
  destruct (Z.eqb_spec (nd_ino now) ino) as [Ei|]; [|cbn [negb andb]; rewrite get_upd; by eapply replaced_not].
  destruct (Z.eqb_spec (nd_dev now) (nd_dev (fo_top f1))) as [Edv|]; [|cbn [negb andb]; rewrite get_upd; by eapply replaced_not]. cbn [negb andb].
  assert (fo_nodes f1 !! name = fo_nodes (get s) !! name) as Eon.
  { destruct Ht as [_ [->|(a & b & _ & _ & ->)]]; [done|]. by rewrite lookup_insert_ne. }
  assert (lstat_at f1 name = lstat_at (get s) name) as El.
  { unfold lstat_at, refused. rewrite Eon. destruct Ht as [-> _]. done. }
  rewrite El. destruct (expect _ _) as [e|] eqn:Ex; [rewrite get_upd; by eapply replaced_not|].
  apply lstat_at_Ok in Hnow as [Hnow _].
  assert (nd_ino m = ino) as Eim.
  { destruct Ht as [_ [Hn|(a & b & Ha & [Hib _] & Hn)]]; rewrite Hn in Hnow; [congruence|]. rewrite lookup_insert_eq in Hnow. congruence. }
  specialize (Hm1 Eim). assert (now = made (get s) ino data perm mtime (nd_dev (fo_top (get s)))) as Enow.
  { rewrite Hm1, lookup_insert_eq in Hnow. injection Hnow as <-. simpl in Edv. destruct Ht as [Es _]. rewrite Es in Edv. simpl in Edv. by rewrite Edv. }
  unfold rename_temp. destruct (refused f1 CRename name) as [e|]; [rewrite get_upd; by eapply replaced_not|]. rewrite Hnow.
  set (fin := set_node (del_node f1 tmp) name now). assert (fin = set_nodes (get s) (<[name := now]> (delete tmp (fo_nodes (get s))))) as Efin.
  { unfold fin, set_node, del_node. destruct Ht as [Es _]. rewrite Es, Hm1. simpl. by rewrite delete_insert_eq. }
  assert (replaced (get s) fin name tmp ino data perm mtime (exists f1, touched (get s) f1 tmp /\ expect (upd (fun _ => f1) s) (match lstat_at (get s) name with
      | Ok n => Ok (Some n) | Err e => if bool_decide (fe_err e = ErrNotExist) then Ok None else Err e end) = None)
    (match lstat_at fin name with Ok n => if SameFile n now then Ok n else Err (fs_err (MkFErr name ErrChanged)) | Err e => Err (fs_err e) end) \/
    (exists old, fo_nodes f1 !! name = Some old /\ IsDir old = true)) as Hfin.
  { destruct (fo_nodes f1 !! name) as [old|] eqn:Ho; [destruct (IsDir old) eqn:Ed; [by right; exists old|]|]; left.
    all: eapply replaced_now; [by exists f1|by exists m|rewrite <- Eon; naive_solver|exact Enow|exact Efin|].
    all: unfold lstat_at, refused; rewrite Efin; simpl; rewrite lookup_insert_eq; destruct (fo_fails (get s) CLstat name); simpl.
    all: first [right; by split; [|eexists]|left]. all: unfold SameFile; by rewrite !Z.eqb_refl. }
  destruct (fo_nodes f1 !! name) as [old|] eqn:Ho; [destruct (IsDir old) eqn:Ed|]; rewrite get_upd; [by eapply replaced_not| |].
  all: destruct Hfin as [H|(o & Eo & ?)]; [done|congruence].
Qed.
End replaced.

(** ** Operations *)

Lemma createTemp_spec rands : forall f dir,
  let '(r, f') := createTemp f dir rands in
  match r with
  | Err _ => f' = f
  | Ok tmp => f' = create_node f tmp (BFile "") (masked f 384) /\ fo_nodes f !! tmp = None /\ exists r, r ∈ rands /\ tmp = path_Join dir (tempName r)
  end.
Proof.
  induction rands as [|r rands IH]; intros f dir; simpl; [done|]. unfold create_excl. destruct (refused f CCreate _) as [e|] eqn:Er.
  - case_bool_decide; [|done]. specialize (IH f dir). destruct (createTemp f dir rands) as [[tmp|] f']; [|done]. destruct IH as (? & ? & r' & ? & ?). split_and!; [done..|]. exists r'. split; [set_solver|done].
  - destruct (fo_nodes f !! path_Join dir (tempName r)) eqn:En.
    + simpl. specialize (IH f dir). destruct (createTemp f dir rands) as [[tmp|] f']; [|done]. destruct IH as (? & ? & r' & ? & ?). split_and!; [done..|]. exists r'. split; [set_solver|done].
    + split_and!; [done..|]. exists r. split; [set_solver|done].
Qed.

Section operations.
Context (reserved : list string).

(** One operation of safefs on [name]. A replace is of content read beforehand. *)
Inductive fs_op (f : folder) (name : string) : folder -> Prop :=
| op_Mkdir perm : fs_op f name (Mkdir f name perm).2
| op_MkdirAll perm : fs_op f name (MkdirAll f name perm).2
| op_Remove : fs_op f name (Remove reserved f name).2
| op_RemoveAll : fs_op f name (RemoveAll reserved f name).2
| op_Symlink target : fs_op f name (Symlink_ reserved f target name).2
| op_Chmod mode : fs_op f name (Chmod f name mode).2
| op_Chtimes mtime : fs_op f name (Chtimes f name mtime).2
| op_Lchown : fs_op f name (Lchown f name).2
| op_OpenFile create excl trunc perm : fs_op f name (OpenFile reserved f name create excl trunc perm).2
| op_ReplaceFile rands (data : result ferr string) perm mtime expect :
    (forall r, r ∈ rands -> name <> path_Join (path_Dir name) (tempName r)) ->
    fs_op f name (ReplaceFile id (fun g s => g s) id reserved f name rands (fun s => (data, s)) perm mtime expect).2.

(** *** What an operation does, one change at a time *)

(** A path reserved, or a folder above one. *)
Definition guarded (q : string) : Prop := exists r, r ∈ reserved /\ (r = q \/ below r q).

(** A temp file's path beside [name]. *)
Definition temp_beside (name q : string) : Prop := exists r, q = path_Join (path_Dir name) (tempName r).

(** Bits a new entry may have: no set-ID bit but, for a folder, the set-group-ID bit
    of the folder it is in. *)
Definition fresh_bits (f : folder) (p : string) (n : node) : Prop :=
  no_setID (nd_perm n) \/ (IsDir n = true /\ Z.land (nd_perm n) ModeSetID = inherited f p).

(** A new entry. *)
Definition put_new (f : folder) (p : string) (n : node) : folder :=
  MkFolder (<[p := n]> (fo_nodes f)) (fo_top f) (fo_fails f) (fo_clock f) (fo_ino f + 1) (fo_umask f).

Inductive fs_make (name : string) (f : folder) : folder -> Prop :=
| fm_make p n :
    p = name \/ p ∈ ancestors name \/ temp_beside name p -> valid_elems p = true -> is_folder f (path_Dir p) -> fo_nodes f !! p = None ->
    nd_ino n = fo_ino f -> fresh_bits f p n -> (forall t, nd_body n = BLink t -> ~ guarded p) ->
    fs_make name f (put_new f p n).

Inductive fs_change (f : folder) (name : string) : folder -> Prop :=
| fc_make f' : rtc (fs_make name) f f' -> fs_change f name f'
| fc_touch n n' :
    fo_nodes f !! name = Some n -> nd_ino n' = nd_ino n -> nd_body n' = nd_body n -> nd_perm n' = nd_perm n \/ no_setID (nd_perm n') ->
    fs_change f name (set_node f name n')
| fc_write n n' :
    fo_nodes f !! name = Some n -> nd_ino n' = nd_ino n -> IsRegular n = true -> IsRegular n' = true -> nd_perm n' = nd_perm n \/ no_setID (nd_perm n') ->
    fs_change f name (set_node f name n')
| fc_drop (keep : string * node -> Prop) `{!forall x, base.Decision (keep x)} :
    (forall p n, fo_nodes f !! p = Some n -> ~ keep (p, n) -> within p name = true) -> valid_elems name = true -> ~ guarded name ->
    (forall p n d, fo_nodes f !! p = Some n -> keep (p, n) -> fo_nodes f !! path_Dir p = Some d -> keep (path_Dir p, d)) ->
    fs_change f name (set_nodes f (filter keep (fo_nodes f)))
| fc_put n :
    (forall old, fo_nodes f !! name = Some old -> IsDir old = false) -> valid_elems name = true -> is_folder f (path_Dir name) ->
    (forall r, r ∈ reserved -> ~ below r name) -> nd_ino n = fo_ino f -> no_setID (nd_perm n) -> IsRegular n = true ->
    fs_change f name (put_new f name n)
| fc_ino : fs_change f name (MkFolder (fo_nodes f) (fo_top f) (fo_fails f) (fo_clock f) (fo_ino f + 1) (fo_umask f)).

Lemma wf_put_new f p n : wf_folder f -> (forall old, fo_nodes f !! p = Some old -> IsDir old = false) -> valid_elems p = true ->
  is_folder f (path_Dir p) -> nd_ino n = fo_ino f -> wf_folder (put_new f p n).
Proof.
  intros [Hn Hp Hi Ho Ht] Hold Hv Hd Ei. constructor; simpl; [..|done].
  - intros q m [[<- _]|[_ Hq]]%lookup_insert_Some; eauto.
  - intros q m Hq. apply (is_folder_ext f); simpl.
    + intros q' _ (d & Hd' & Hdd). destruct (decide (p = q')) as [->|]; [specialize (Hold _ Hd'); congruence|]. exists d. by rewrite lookup_insert_ne.
    + apply lookup_insert_Some in Hq as [[<- _]|[_ Hq]]; eauto.
  - intros q m [[<- <-]|[_ Hq]]%lookup_insert_Some; [lia|]. specialize (Hi _ _ Hq). lia.
  - intros q q' m m' [[<- <-]|[? Hq]]%lookup_insert_Some [[<- <-]|[? Hq']]%lookup_insert_Some; [done| | |by eauto].
    + intros E. specialize (Hi _ _ Hq'). lia.
    + intros E. specialize (Hi _ _ Hq). lia.
Qed.

Lemma wf_makes name f f' : rtc (fs_make name) f f' -> wf_folder f -> wf_folder f'.
Proof.
  induction 1 as [|f f1 f' Hm _ IH]; [done|]. intros Hwf. apply IH. destruct Hm as [p n _ Hv Hd Hn Ei _ _]. apply wf_put_new; [done| |done..]. intros old. congruence.
Qed.

Lemma makes_keep name f f' : rtc (fs_make name) f f' -> forall q n, fo_nodes f !! q = Some n -> fo_nodes f' !! q = Some n.
Proof.
  induction 1 as [|f f1 f' Hm _ IH]; [done|]. intros q n Hq. apply IH. destruct Hm as [p m _ _ _ Hn _ _ _]. simpl. rewrite lookup_insert_ne; [done|congruence].
Qed.

Lemma wf_change f name f' : wf_folder f -> fs_change f name f' -> wf_folder f'.
Proof.
  intros Hwf Hc. destruct Hc as [f' Hm|n n' Hn Ei Eb _|n n' Hn Ei Hr Hr' _|keep Hdec Hk Hv Hg Hcl|n Hold Hv Hd _ Ei _ _|].
  - by eapply wf_makes.
  - eapply wf_set; [done..|]. unfold IsDir. by rewrite Eb.
  - eapply wf_set; [done..|]. unfold IsDir, IsRegular in *. by destruct (nd_body n), (nd_body n').
  - by apply wf_filter.
  - by apply wf_put_new.
  - destruct Hwf as [Hn Hp Hi Ho Ht]. constructor; simpl; [done|done| |done|done]. intros p n Hq. specialize (Hi _ _ Hq). lia.
Qed.

(** Nothing above [p] is a symlink or a file. *)
Definition clear_above (f : folder) (p : string) : Prop := forall a n, a ∈ ancestors p -> fo_nodes f !! a = Some n -> IsDir n = true.

Lemma folder_above f p : wf_folder f -> valid_elems p = true -> is_folder f (path_Dir p) -> clear_above f p.
Proof.
  intros Hwf Hv Hd a n Ha Hn. rewrite ancestors_unfold in Ha by done. destruct (String.eqb_spec (path_Dir p) "."); [by apply elem_of_nil in Ha|].
  destruct Hd as [?|(d & Hd & Hdd)]; [done|]. apply elem_of_app in Ha as [Ha|Ha%list_elem_of_singleton]; [|congruence].
  destruct (wf_ancestors f _ _ Hwf Hd a Ha) as (d' & ? & ?). congruence.
Qed.

Lemma makes_confined name f f' : rtc (fs_make name) f f' -> forall q, wf_folder f -> fo_nodes f' !! q <> fo_nodes f !! q ->
  (q = name \/ q ∈ ancestors name \/ temp_beside name q) /\ clear_above f q.
Proof.
  induction 1 as [|f f1 f' Hm Hms IH]; [done|]. intros q Hwf Hq. assert (rtc (fs_make name) f f1) as Hr by (by eapply rtc_once).
  pose proof (wf_makes _ _ _ Hr Hwf) as Hwf1. pose proof (makes_keep _ _ _ Hr) as Hkeep.
  destruct (decide (fo_nodes f1 !! q = fo_nodes f !! q)) as [E|Hne].
  - destruct (IH q Hwf1) as [H1 H2]; [by rewrite E|]. split; [done|]. intros a n Ha Hn. eapply H2; eauto.
  - destruct Hm as [p n Hp Hv Hd Hn _ _ _]. simpl in Hne. destruct (decide (p = q)) as [<-|]; [|by rewrite lookup_insert_ne in Hne].
    split; [done|]. by apply folder_above.
Qed.

(** What an operation leaves of another's entries. *)
Lemma change_confined f name f' q : wf_folder f -> fs_change f name f' -> fo_nodes f' !! q <> fo_nodes f !! q ->
  (within q name = true \/ q ∈ ancestors name \/ temp_beside name q) /\ clear_above f q.
Proof.
  intros Hwf Hc Hq.
  destruct Hc as [f' Hm|n n' Hn Ei Eb _|n n' Hn Ei _ _ _|keep Hdec Hk Hv Hg Hcl|m Hold Hv Hd _ _ _ _|]; simpl in Hq.
  - destruct (makes_confined _ _ _ Hm q Hwf Hq) as [Hp ?]. split; [|done]. destruct Hp as [->|?]; [left; apply within_refl|by right].
  - destruct (decide (name = q)) as [<-|]; [|by rewrite lookup_insert_ne in Hq]. split; [left; apply within_refl|]. apply folder_above; [done|by eapply wf_name|by eapply wf_parent].
  - destruct (decide (name = q)) as [<-|]; [|by rewrite lookup_insert_ne in Hq]. split; [left; apply within_refl|]. apply folder_above; [done|by eapply wf_name|by eapply wf_parent].
  - destruct (fo_nodes f !! q) as [n|] eqn:Hqn; [|by rewrite map_lookup_filter, Hqn in Hq]. split.
    + left. apply (Hk q n); [done|]. intros Hkq. apply Hq. by apply map_lookup_filter_Some.
    + apply folder_above; [done|by eapply wf_name|by eapply wf_parent].
  - destruct (decide (name = q)) as [<-|]; [|by rewrite lookup_insert_ne in Hq]. split; [left; apply within_refl|by apply folder_above].
  - done.
Qed.

(** What may become of an entry at a reserved path or above one: it stays, with its
    content or, a file, with other content; a reserved file may be replaced. *)
Definition guarded_kept (q : string) (n n' : node) : Prop :=
  nd_ino n' = nd_ino n /\ (nd_body n' = nd_body n \/ IsRegular n = true /\ IsRegular n' = true) \/
  q ∈ reserved /\ IsRegular n' = true /\ IsDir n = false.

Lemma change_guarded f name f' q n : fs_change f name f' -> guarded q -> fo_nodes f !! q = Some n ->
  exists n', fo_nodes f' !! q = Some n' /\ guarded_kept q n n'.
Proof.
  intros Hc Hg Hq. unfold guarded_kept. destruct Hc as [f' Hm|m m' Hn Ei Eb _|m m' Hn Ei Hr Hr' _|keep Hdec Hk Hv Hng Hcl|m Hold Hv Hd Hr _ _ Hreg|]; simpl.
  - exists n. split; [by eapply makes_keep|by auto].
  - destruct (decide (name = q)) as [<-|]; [|exists n; rewrite lookup_insert_ne by done; by auto]. exists m'. rewrite lookup_insert_eq. split; [done|]. left. split; [congruence|left; congruence].
  - destruct (decide (name = q)) as [<-|]; [|exists n; rewrite lookup_insert_ne by done; by auto]. exists m'. rewrite lookup_insert_eq. split; [done|]. left. assert (n = m) as -> by congruence. auto.
  - exists n. split; [|by auto]. apply map_lookup_filter_Some. split; [done|]. destruct (decide (keep (q, n))) as [|Hnk]; [done|]. exfalso. apply Hng.
    apply (Hk q n) in Hnk; [|done]. destruct Hg as (r & Hr & Hrq). exists r. split; [done|]. apply within_spec in Hnk as [->|[<-|Hb]]; [by apply valid_elems_not_dot in Hv|done|].
    right. destruct Hrq as [->|Hrq]; [done|by eapply below_trans].
  - destruct (decide (name = q)) as [<-|]; [|exists n; rewrite lookup_insert_ne by done; by auto]. exists m. rewrite lookup_insert_eq. split; [done|]. right.
    destruct Hg as (r & Hin & [->|Hb]); [|by apply Hr in Hb]. split_and!; [done|done|by apply Hold].
  - eauto 10.
Qed.

(** Where an entry's set-ID bits come from: it has none, or has those it had, or it is
    a folder made in a set-group-ID folder and has that bit. *)
Definition bits_from (f f' : folder) (q : string) (n' : node) : Prop :=
  no_setID (nd_perm n') \/ (exists q0 n, fo_nodes f !! q0 = Some n /\ nd_ino n' = nd_ino n /\ nd_perm n' = nd_perm n) \/
  (fo_nodes f !! q = None /\ IsDir n' = true /\ Z.land (nd_perm n') ModeSetID = inherited f' q).

Lemma inherited_keep f f' p : fo_top f' = fo_top f -> (forall q n, fo_nodes f !! q = Some n -> fo_nodes f' !! q = Some n) -> is_folder f (path_Dir p) -> inherited f' p = inherited f p.
Proof.
  intros Ht Hk Hd. unfold inherited. rewrite Ht. destruct (String.eqb_spec (path_Dir p) "."); [done|]. destruct Hd as [?|(d & Hd & _)]; [done|]. by rewrite (Hk _ _ Hd), Hd.
Qed.

Lemma makes_top name f f' : rtc (fs_make name) f f' -> fo_top f' = fo_top f.
Proof. induction 1 as [|f f1 f' Hm _ IH]; [done|]. rewrite IH. by destruct Hm. Qed.

Lemma makes_setID name f f' : rtc (fs_make name) f f' -> forall q n', fo_nodes f' !! q = Some n' ->
  fo_nodes f !! q = Some n' \/ (fo_nodes f !! q = None /\ fresh_bits f' q n').
Proof.
  induction 1 as [f|f f1 f' Hm Hms IH]; [by left|]. intros q n' Hq. destruct (IH q n' Hq) as [Hn|[Hn Hb]].
  - destruct Hm as [p m _ _ Hdp Hpn _ Hs _]. simpl in Hn. apply lookup_insert_Some in Hn as [[<- <-]|[_ Hn]]; [right|by left]. split; [done|].
    unfold fresh_bits. rewrite (inherited_keep f f'); [done|by rewrite (makes_top _ _ _ Hms)| |done].
    intros q' n0 Hq'. apply (makes_keep _ _ _ Hms). simpl. rewrite lookup_insert_ne; [done|congruence].
  - right. split; [|done]. destruct (fo_nodes f !! q) as [nq|] eqn:Hqf; [|done]. apply (makes_keep _ _ _ (rtc_once _ _ Hm)) in Hqf. congruence.
Qed.

Lemma change_setID f name f' q n' : fs_change f name f' -> fo_nodes f' !! q = Some n' -> bits_from f f' q n'.
Proof.
  unfold bits_from. intros Hc. destruct Hc as [f' Hm|m m' Hn Ei Eb Hs|m m' Hn Ei _ _ Hs|keep Hdec Hk Hv Hng Hcl|m Hold Hv Hd Hr _ Hs Hreg|]; simpl.
  - intros Hq. destruct (makes_setID _ _ _ Hm q n' Hq) as [?|[? [?|[? ?]]]]; [right; left; by exists q, n'|by left|by right; right].
  - intros [[<- <-]|[_ Hq]]%lookup_insert_Some; [|by right; left; exists q, n']. destruct Hs; [right; left; by exists name, m|by left].
  - intros [[<- <-]|[_ Hq]]%lookup_insert_Some; [|by right; left; exists q, n']. destruct Hs; [right; left; by exists name, m|by left].
  - intros [Hq _]%map_lookup_filter_Some. right; left. by exists q, n'.
  - intros [[<- <-]|[_ Hq]]%lookup_insert_Some; [by left|right; left; by exists q, n'].
  - right; left. by exists q, n'.
Qed.

(** *** Every operation is such a change *)

Lemma fs_same f name : fs_change f name f.
Proof. apply fc_make. constructor. Qed.

Lemma reached_folder f name : parent f name = None -> valid_elems name = true /\ is_folder f (path_Dir name).
Proof.
  intros (Hv & Hd & Ha)%parent_reached. apply fs_ValidPath_elems in Hv; [|done]. split; [done|].
  destruct (parent_ancestor name Hv) as [?|Hin]; [by left|right]. rewrite Forall_forall in Ha. destruct (Ha _ Hin) as [? _]. done.
Qed.

Lemma checkReserved_free name : checkReserved reserved name = None -> ~ guarded name.
Proof.
  unfold checkReserved. destruct (existsb _ _) eqn:Ex; [done|]. intros _ (r & Hr & Hrn). apply Bool.not_true_iff_false in Ex. apply Ex, existsb_exists.
  exists r. split; [by apply list_elem_of_In|]. destruct Hrn as [->|Hb]; [by rewrite String.eqb_refl|]. rewrite (proj2 (HasPrefix_below r name) Hb). apply orb_true_r.
Qed.

Lemma checkAboveReserved_free name : checkAboveReserved reserved name = None -> forall r, r ∈ reserved -> ~ below r name.
Proof.
  unfold checkAboveReserved. destruct (existsb _ _) eqn:Ex; [done|]. intros _ r Hr Hb. apply Bool.not_true_iff_false in Ex. apply Ex, existsb_exists.
  exists r. split; [by apply list_elem_of_In|]. by apply HasPrefix_below.
Qed.

Lemma guardReserved_free f name : guardReserved reserved f name = None -> ~ guarded name.
Proof.
  unfold guardReserved. destruct (check_name name false); [done|]. destruct (checkReserved reserved name) eqn:E; [done|]. intros _. by apply checkReserved_free.
Qed.

Lemma mkdir_change f name p perm : (p = name \/ p ∈ ancestors name) -> valid_elems p = true -> is_folder f (path_Dir p) ->
  rtc (fs_make name) f (mkdir_at f p perm).2 /\ ((mkdir_at f p perm).1 = None -> is_folder (mkdir_at f p perm).2 p).
Proof.
  intros Hp Hv Hd. unfold mkdir_at. destruct (refused f CMkdir p); [split; [by constructor|done]|]. destruct (fo_nodes f !! p) eqn:En; [split; [by constructor|done]|]. split.
  - eapply rtc_once. apply (fm_make name f p (MkNode BDir _ _ _ _ _)); [tauto|done..| |done]. right. split; [done|]. cbn [nd_perm].
    rewrite Z.land_lor_distr_l. assert (no_setID (masked f (createMode perm))) as -> by apply masked_safe, createMode_safe. rewrite Z.lor_0_l. unfold inherited. rewrite <- Z.land_assoc. done.
  - intros _. right. simpl. eexists. by rewrite lookup_insert_eq.
Qed.

Lemma openChild_change f name p perm : (p = name \/ p ∈ ancestors name) -> valid_elems p = true -> is_folder f (path_Dir p) ->
  let '(r, f') := openChild f p true perm in rtc (fs_make name) f f' /\ (r = None -> is_folder f' p).
Proof.
  intros Hp Hv Hd. assert (forall g n, lstat_at g p = Ok n -> openChildAs g p n = None -> is_folder g p) as Hopen.
  { intros g n [Hn _]%lstat_at_Ok. unfold openChildAs. intros Ho. right. exists n. split; [done|]. unfold IsDir. by destruct (nd_body n). }
  destruct (mkdir_change f name p perm Hp Hv Hd) as [Hm Hm']. unfold openChild.
  destruct (lstat_at f p) as [n|e] eqn:El; [split; [by constructor|by apply Hopen]|].
  destruct (true && bool_decide _); [|by split; [constructor|]]. destruct (mkdir_at f p perm) as [[e'|] f']; simpl in *.
  - destruct (bool_decide (fe_err e' = ErrExist)); [|done]. destruct (lstat_at f' p) as [n|] eqn:El'; [|done]. split; [done|by apply Hopen].
  - destruct (lstat_at f' p) as [n|] eqn:El'; [|done]. split; [done|by apply Hopen].
Qed.

Lemma open_path_change name perm ps : valid_elems name = true -> forall f pre, pre ++ ps = ancestors name ++ [name] -> (forall a, a ∈ pre -> is_folder f a) ->
  rtc (fs_make name) f (open_path f ps true perm).2.
Proof.
  intros Hv. assert (chain (ancestors name ++ [name])) as Hch by (apply chain_snoc; [by apply ancestors_chain|by apply parent_ancestor]).
  induction ps as [|p ps IH]; intros f pre Hall Hpre; simpl; [constructor|].
  assert (p ∈ ancestors name ++ [name]) as Hp by (rewrite <- Hall; set_solver).
  assert (p = name \/ p ∈ ancestors name) as Hp' by set_solver.
  assert (valid_elems p = true) as Hvp by (destruct Hp' as [->|?]; [done|by eapply ancestors_valid]).
  assert (is_folder f (path_Dir p)) as Hd by (destruct (Hch pre p ps (eq_sym Hall)) as [?|?]; [by left|by apply Hpre]).
  pose proof (openChild_change f name p perm Hp' Hvp Hd) as Hc. destruct (openChild f p true perm) as [[e|] f']; [apply Hc|].
  destruct Hc as [Hr Hfp]. etrans; [done|]. apply (IH f' (pre ++ [p])); [by rewrite <- app_assoc|].
  intros a [Ha|Ha%list_elem_of_singleton]%elem_of_app; [|subst; by apply Hfp]. destruct (Hpre a Ha) as [?|(d & Hda & Hdd)]; [by left|]. right. exists d. split; [|done].
  by eapply makes_keep.
Qed.

(** Below a file or link, or an empty folder, there is nothing. *)
Lemma no_entries f p n : wf_folder f -> fo_nodes f !! p = Some n -> (IsDir n = true -> children f p = []) -> forall q m, fo_nodes f !! q = Some m -> path_Dir q <> p.
Proof.
  intros Hwf Hpn Hc q m Hq E. destruct (IsDir n) eqn:Ed.
  - assert (q ∈ children f p) as Hin by (apply children_elem; eauto). rewrite Hc in Hin by done. by apply elem_of_nil in Hin.
  - destruct (wf_parent _ Hwf _ _ Hq) as [Hdot|(d & Hd & ?)].
    + pose proof (wf_name _ Hwf _ _ Hpn) as Hv. rewrite E in Hdot. by apply valid_elems_not_dot in Hv.
    + rewrite E in Hd. congruence.
Qed.

Lemma delete_filter {A} (m : gmap string A) k : delete k m = filter (fun kn : string * A => kn.1 <> k) m.
Proof.
  apply map_eq. intros q. rewrite map_lookup_filter. destruct (decide (k = q)) as [<-|]; [|rewrite lookup_delete_ne by done; destruct (m !! q); [simpl; by rewrite option_guard_True by auto|done]].
  rewrite lookup_delete_eq. destruct (m !! k); [simpl; by rewrite option_guard_False by auto|done].
Qed.

Lemma remove_change f name : wf_folder f -> fs_change f name (Remove reserved f name).2.
Proof.
  intros Hwf. unfold Remove. destruct (guardReserved reserved f name) eqn:Eg; [apply fs_same|]. destruct (parent f name) eqn:Ep; [apply fs_same|].
  destruct (refused f CRemove name); [apply fs_same|]. destruct (fo_nodes f !! name) as [n|] eqn:En; [|apply fs_same].
  destruct (IsDir n && _) eqn:Ec; [apply fs_same|]. simpl. unfold del_node.
  rewrite delete_filter.
  destruct (reached_folder f name Ep) as [Hv _]. apply fc_drop; [|done|by eapply guardReserved_free|].
  - simpl. intros p m Hp Hk. destruct (decide (p = name)) as [->|]; [apply within_refl|done].
  - simpl. intros p m d Hp _ Hd. eapply (no_entries f name n); [done|done| |done]. intros Hdir. rewrite Hdir in Ec. simpl in Ec. apply negb_false_iff in Ec. by apply bool_decide_eq_true in Ec.
Qed.

Lemma removeall_change f name : wf_folder f -> fs_change f name (RemoveAll reserved f name).2.
Proof.
  intros Hwf. unfold RemoveAll. destruct (guardReserved reserved f name) eqn:Eg; [apply fs_same|]. destruct (parent f name) eqn:Ep; [case_bool_decide; apply fs_same|].
  match goal with |- context [set_nodes f ?m] => assert (fs_change f name (set_nodes f m)) end; [|by destruct (stuck f name name)].
  destruct (reached_folder f name Ep) as [Hv _]. apply fc_drop; [|done|by eapply guardReserved_free|].
  - simpl. intros p m Hp Hk. destruct (within p name); [done|]. destruct Hk. by left.
  - simpl. intros p m d Hp Hk Hd. pose proof (wf_name _ Hwf _ _ Hp) as Hvp. assert (within p (path_Dir p) = true) as Hup.
    { apply within_spec. destruct (parent_below p Hvp); auto. }
    destruct Hk as [Hk|Hk].
    + left. apply Bool.not_true_iff_false. intros Hw. by rewrite (within_trans _ _ _ Hup Hw) in Hk.
    + right. unfold stuck in *. apply existsb_exists in Hk as (q & Hq & Hc). apply existsb_exists. exists q. split; [done|]. bool_hyps.
      rewrite (within_trans _ _ _ H Hup), H1. simpl. by apply bool_decide_eq_true.
Qed.

Lemma symlink_change f target name : fs_change f name (Symlink_ reserved f target name).2.
Proof.
  unfold Symlink_. destruct (checkReserved reserved name) eqn:Eg; [apply fs_same|]. destruct (parent f name) eqn:Ep; [apply fs_same|].
  destruct (refused f CSymlink name); [apply fs_same|]. destruct (fo_nodes f !! name) as [n|] eqn:En; [apply fs_same|].
  destruct (reached_folder f name Ep) as [Hv Hd]. apply fc_make, rtc_once.
  apply (fm_make name f name (MkNode (BLink target) _ _ _ _ _)); [by left|done|done|done|done|by left|]. intros t _. by apply checkReserved_free.
Qed.

Lemma chmod_change f name mode : fs_change f name (Chmod f name mode).2.
Proof.
  unfold Chmod. destruct (parent f name); [apply fs_same|]. unfold lstatNoLink. destruct (lstat_at f name) as [n|] eqn:El; [|apply fs_same].
  destruct (IsLink n); [apply fs_same|]. destruct (refused f CChmod name); [apply fs_same|]. apply lstat_at_Ok in El as [Hn _].
  eapply fc_touch; [done|done|done|]. right. simpl. destruct (IsDir n); [apply safeMode_safe|apply createMode_safe].
Qed.

Lemma chtimes_change f name mtime : fs_change f name (Chtimes f name mtime).2.
Proof.
  unfold Chtimes. destruct (parent f name); [apply fs_same|]. unfold lstatNoLink. destruct (lstat_at f name) as [n|] eqn:El; [|apply fs_same].
  destruct (IsLink n); [apply fs_same|]. destruct (refused f CChtimes name); [apply fs_same|]. apply lstat_at_Ok in El as [Hn _].
  eapply fc_touch; [done|done|done|]. by left.
Qed.

Lemma lchown_change f name : fs_change f name (Lchown f name).2.
Proof.
  unfold Lchown. destruct (parent f name); [apply fs_same|]. destruct (refused f CChown name); [apply fs_same|]. destruct (fo_nodes f !! name) as [n|] eqn:Hn; [|apply fs_same].
  eapply fc_touch; [done|done|done|]. simpl. destruct (IsRegular n); [right|by left]. unfold no_setID. rewrite Z.ldiff_land, <- Z.land_assoc, (Z.land_comm (Z.lnot _)), Z.land_lnot_diag. apply Z.land_0_r.
Qed.

Lemma openExisting_change f name trunc : fs_change f name (openExisting f name trunc).2.
Proof.
  unfold openExisting. destruct (lstat_at f name) as [n|] eqn:El; [|apply fs_same]. destruct (regular n) eqn:Er; [apply fs_same|]. destruct (refused f COpen name); [apply fs_same|].
  destruct (negb trunc); [apply fs_same|]. destruct (refused f CTruncate name); [apply fs_same|]. apply lstat_at_Ok in El as [Hn _].
  eapply fc_write; [done|done| |done|by left]. unfold regular in Er. unfold IsRegular. by destruct (nd_body n).
Qed.

Lemma openFile_change f name create excl trunc perm : fs_change f name (OpenFile reserved f name create excl trunc perm).2.
Proof.
  unfold OpenFile. destruct (if create then _ else _); [apply fs_same|]. destruct (parent f name) eqn:Ep; [apply fs_same|]. destruct (negb create); [apply openExisting_change|].
  destruct (refused f CCreate name); [apply fs_same|]. destruct (fo_nodes f !! name) as [n|] eqn:En; [destruct excl; [apply fs_same|apply openExisting_change]|].
  destruct (reached_folder f name Ep) as [Hv Hd]. apply fc_make, rtc_once. apply (fm_make name f name (MkNode (BFile "") _ _ _ _ _)); [by left|done|done|done|done| |done].
  left. apply masked_safe, createMode_safe.
Qed.

Lemma all_hex_clean s : all_hex s = true -> contains_byte s slash = false.
Proof.
  induction s as [|a s IH]; [done|]. simpl. intros [Ha Hs]%andb_true_iff. rewrite IH, orb_false_r by done. revert Ha. clear. destruct a as [[] [] [] [] [] [] [] []]; vm_compute; done.
Qed.

Lemma tempName_elem r : elem_ok (tempName r) = true /\ contains_byte (tempName r) slash = false.
Proof.
  unfold tempName. split; [apply elem_ok_spec; done|]. rewrite !contains_byte_app, (all_hex_clean (EncodeToString _)) by apply EncodeToString_lower. done.
Qed.

Lemma temp_path f name r : valid_elems name = true -> is_folder f (path_Dir name) ->
  valid_elems (path_Join (path_Dir name) (tempName r)) = true /\ is_folder f (path_Dir (path_Join (path_Dir name) (tempName r))).
Proof.
  intros Hv Hd. destruct (tempName_elem r) as [He Hc]. destruct (path_Join_elem (path_Dir name) (tempName r)) as [Hj ->]; [|done|done|by split].
  destruct (path_Dir_cases name Hv) as [?|(? & _)]; auto.
Qed.

Lemma drop_made f name tmp m g : temp_beside name tmp -> valid_elems tmp = true -> is_folder f (path_Dir tmp) -> fo_nodes f !! tmp = None ->
  nd_ino m = fo_ino f -> no_setID (nd_perm m) -> IsRegular m = true ->
  g = set_nodes (put_new f tmp m) (fo_nodes g) -> fo_nodes g = fo_nodes (put_new f tmp m) \/ fo_nodes g = delete tmp (fo_nodes (put_new f tmp m)) -> fs_change f name g.
Proof.
  intros Ht Hv Hd Hn Ei Hs Hr Eg [E|E]; rewrite Eg, E.
  - rewrite <- set_nodes_id. apply fc_make, rtc_once. apply fm_make; [by auto|done..|by left|]. intros t Hb. unfold IsRegular in Hr. by rewrite Hb in Hr.
  - simpl. rewrite delete_insert_id by done. apply fc_ino.
Qed.

Lemma replace_change f name rands (data : result ferr string) perm mtime expect :
  (forall r, r ∈ rands -> name <> path_Join (path_Dir name) (tempName r)) ->
  fs_change f name (ReplaceFile id (fun g s => g s) id reserved f name rands (fun s => (data, s)) perm mtime expect).2.
Proof.
  intros Hne. unfold ReplaceFile. destruct (checkAboveReserved reserved name) eqn:Eg; [apply fs_same|]. change (id f) with f. destruct (parent f name) eqn:Ep; [apply fs_same|].
  destruct (match lstat_at f name with Ok n => IsDir n | Err _ => false end); [apply fs_same|]. destruct (reached_folder f name Ep) as [Hv Hd].
  pose proof (createTemp_spec (take 10 rands) f (path_Dir name)) as Ht. destruct (createTemp f (path_Dir name) (take 10 rands)) as [[tmp|e] f1]; [|subst; apply fs_same].
  destruct Ht as (E1 & Hfree & r & Hr%elem_of_take & Etmp). destruct Hr as (i & Hr & _). apply list_elem_of_lookup_2 in Hr.
  destruct (temp_path f name r Hv Hd) as [Hvt Hdt]. rewrite <- Etmp in Hvt, Hdt. assert (temp_beside name tmp) as Htb by (by exists r).
  set (m := MkNode (BFile "") (masked f 384) (fo_clock f) (fo_clock f) (fo_ino f) (nd_dev (fo_top f))).
  change (create_node f tmp (BFile "") (masked f 384)) with (put_new f tmp m) in E1. subst f1.
  assert (no_setID (nd_perm m)) as Hsm by (by apply masked_safe).
  assert (forall f1 g, touched (put_new f tmp m) f1 tmp -> g = drop_temp f1 tmp -> fs_change f name g) as Hfail.
  { intros f1 g [E1 H1] ->. destruct (drop_temp_spec f1 tmp) as (_ & Ed & Hd'). destruct H1 as [H1|(a & a' & Ha & Hra & H1)].
    - apply (drop_made f name tmp m); try done; [|rewrite <- H1; done]. rewrite Ed at 1. rewrite E1. done.
    - simpl in Ha. rewrite lookup_insert_eq in Ha. injection Ha as <-. destruct Hra as (Ei & _ & Hb & Hp).
      apply (drop_made f name tmp a'); [done..| | | |].
      + destruct Hp as [->|?]; done.
      + destruct Hb as [Hb|?]; [|done]. unfold IsRegular. by rewrite Hb.
      + rewrite Ed at 1. rewrite E1. done.
      + simpl. rewrite H1 in Hd'. simpl in Hd'. rewrite !insert_insert_eq in Hd'. done. }
  destruct data as [data|e]; [|apply (Hfail (put_new f tmp m)); [apply touched_same|done]].
  pose proof (replace_with_spec id (fun g s => g s) id (fun _ _ => eq_refl) (put_new f tmp m) name tmp (fo_ino f) data perm mtime expect) as Hspec.
  destruct (replace_with id _ id _ name tmp (fo_ino f) data perm mtime expect) as [res g] eqn:Er. change (id g) with g in Hspec. change (id (put_new f tmp m)) with (put_new f tmp m) in Hspec.
  simpl. destruct Hspec as [e f1 Htch Eg'|n res _ _ Hold En Eg' _].
  - intros m' Hm' _. simpl in Hm'. rewrite lookup_insert_eq in Hm'. by injection Hm' as <-.
  - rewrite Etmp. by apply Hne.
  - by eapply Hfail.
  - assert (g = put_new f name n) as ->.
    { rewrite Eg'. simpl. rewrite delete_insert_id by done. done. }
    apply fc_put; [|done|done|by apply checkAboveReserved_free|by rewrite En|rewrite En; apply createMode_safe|by rewrite En].
    intros old Ho. apply (Hold old); [|rewrite Etmp; by apply Hne]. simpl. rewrite lookup_insert_ne; [done|congruence].
Qed.

Lemma op_change f name f' : wf_folder f -> fs_op f name f' -> fs_change f name f'.
Proof.
  intros Hwf Ho. destruct Ho as [perm|perm| | |target|mode|mtime| |create excl trunc perm|rands data perm mtime expect Hne].
  - unfold Mkdir. destruct (parent f name) eqn:Ep; [apply fs_same|]. destruct (reached_folder f name Ep) as [Hv Hd].
    apply fc_make, (mkdir_change f name name perm); auto.
  - unfold MkdirAll. destruct (check_name name true) eqn:Ec; [apply fs_same|]. unfold openDir. destruct (String.eqb_spec name "."); [apply fs_same|].
    apply fc_make, (open_path_change name perm _) with (pre := []); [|done|by intros ? ?%elem_of_nil].
    apply fs_ValidPath_elems; [|done]. unfold check_name in Ec. destruct (fs_ValidPath name); [done|]. by rewrite orb_true_l in Ec.
  - by apply remove_change.
  - by apply removeall_change.
  - apply symlink_change.
  - apply chmod_change.
  - apply chtimes_change.
  - apply lchown_change.
  - apply openFile_change.
  - by apply replace_change.
Qed.

Lemma wf_op f name f' : wf_folder f -> fs_op f name f' -> wf_folder f'.
Proof. intros Hwf Ho. eapply wf_change; [done|]. by apply op_change. Qed.

Lemma wf_drop_temp f tmp : wf_folder f -> wf_folder (drop_temp f tmp).
Proof.
  intros Hwf. unfold drop_temp. destruct (refused f CRemove tmp); [done|]. destruct (fo_nodes f !! tmp) as [n|] eqn:En; [|done]. destruct (IsDir n && _) eqn:Ec; [done|].
  unfold del_node. rewrite delete_filter. apply wf_filter; [done|]. simpl. intros p m d Hp _ Hd. eapply (no_entries f tmp n); [done|done| |done].
  intros Hdir. rewrite Hdir in Ec. simpl in Ec. apply negb_false_iff in Ec. by apply bool_decide_eq_true in Ec.
Qed.
End operations.

(** Safefs keeps a folder a tree: after any of these operations, whatever system
    calls fail, every entry is in a folder, under a clean path, and has an inode of
    its own. *)
Lemma safefs_keeps_tree reserved f f' : wf_folder f -> rtc (fun f f' => exists name, fs_op reserved f name f') f f' -> wf_folder f'.
Proof. intros Hwf Hs. induction Hs as [|f f1 f' (name & Ho) _ IH]; [done|]. apply IH. by eapply wf_op. Qed.

(** *** Renaming *)

Section rename.
Context (reserved : list string) (f : folder) (old new : string).

Lemma drop_bytes_app a b : drop_bytes (String.length a) (a +:+ b) = b.
Proof. induction a as [|x a IH]; [by destruct b|done]. Qed.

Lemma moved_spec q : match moved old new q with
                     | Some q' => q = old /\ q' = new \/ (below q old /\ below q' new)
                     | None => q <> old /\ ~ below q old
                     end.
Proof.
  unfold moved. destruct (String.eqb_spec q old) as [->|Hne]; [by left|]. destruct (HasPrefix q (old +:+ "/")) eqn:E.
  - apply HasPrefix_below in E. right. split; [done|]. destruct E as [r ->]. rewrite drop_bytes_app. by exists r.
  - split; [done|]. rewrite <- HasPrefix_below. by rewrite E.
Qed.

(** What a rename leaves alone. *)
Lemma rename_other q : q <> old -> ~ below q old -> q <> new -> ~ below q new -> rename_nodes f old new !! q = fo_nodes f !! q.
Proof.
  intros Ho Hbo Hn Hbn. unfold rename_nodes. set (l := omap _ _). assert ((list_to_map l : gmap string node) !! q = None) as Hl.
  { apply not_elem_of_list_to_map. intros (x & -> & Hx)%list_elem_of_fmap. apply list_elem_of_omap in Hx as ([q0 n] & _ & E). simpl in E.
    pose proof (moved_spec q0) as Hm. destruct (moved old new q0) as [q'|]; [|done]. injection E as <-. simpl in *. destruct Hm as [[_ ->]|[_ ?]]; done. }
  rewrite lookup_union, Hl, map_lookup_filter. destruct (fo_nodes f !! q) as [n|]; [|done]. simpl. rewrite option_guard_True; [done|]. split; [|done].
  pose proof (moved_spec q) as Hm. simpl. destruct (moved old new q); [|done]. destruct Hm as [[? _]|[? _]]; done.
Qed.

(** Every entry then was one before. *)
Lemma rename_from q n' : rename_nodes f old new !! q = Some n' -> exists q0 n, fo_nodes f !! q0 = Some n /\ nd_ino n' = nd_ino n /\ nd_perm n' = nd_perm n.
Proof.
  unfold rename_nodes. intros [H|[_ H]]%lookup_union_Some_raw.
  - apply elem_of_list_to_map_2, list_elem_of_omap in H as ([q0 n] & Hq & E). simpl in E. destruct (moved old new q0); [|done]. injection E as _ <-.
    exists q0, n. split; [by apply elem_of_map_to_list|]. by destruct (String.eqb _ _).
  - apply map_lookup_filter_Some in H as [? _]. by exists q, n'.
Qed.

(** Either nothing happened, or both names were reached and neither is reserved. *)
Lemma Rename_cases : fo_nodes (Rename reserved f old new).2 = fo_nodes f \/
  (fo_nodes (Rename reserved f old new).2 = rename_nodes f old new /\ parent f old = None /\ parent f new = None /\ ~ guarded reserved old /\ ~ guarded reserved new).
Proof.
  unfold Rename. destruct (guardReserved reserved f old) eqn:G1; [by left|]. destruct (guardReserved reserved f new) eqn:G2; [by left|].
  destruct (parent f old) eqn:P1; [by left|]. destruct (parent f new) eqn:P2; [by left|]. destruct (refused f CRename old); [by left|]. destruct (fo_nodes f !! old) as [n|]; [|by left].
  destruct (String.eqb old new); [by left|]. destruct (HasPrefix new _); [by left|]. pose proof (guardReserved_free _ _ _ G1). pose proof (guardReserved_free _ _ _ G2).
  destruct (fo_nodes f !! new) as [m|]; [|by right]. destruct (IsDir n && _); [by left|]. destruct (IsDir m && _); [by left|]. destruct (IsDir m && _); [by left|]. by right.
Qed.

Lemma guarded_up q name : guarded reserved q -> q = name \/ below q name -> guarded reserved name.
Proof. intros (r & Hr & Hrq) [->|Hb]; exists r; (split; [done|]); [done|]. right. destruct Hrq as [->|Hrq]; [done|by eapply below_trans]. Qed.
End rename.

(** A call of safefs: an operation on one name, or a rename, on two. *)
Definition fs_call (reserved : list string) (f : folder) (names : list string) (f' : folder) : Prop :=
  (exists name, names = [name] /\ fs_op reserved f name f') \/ (exists old new, names = [old; new] /\ f' = (Rename reserved f old new).2).


(** ** Looking *)

(** Calls are refused for permissions, room or faults, never for what is at the path. *)
Definition honest (f : folder) : Prop :=
  forall c p e, fo_fails f c p = Some e -> e <> ErrNotExist /\ e <> ErrNotDir /\ e <> ErrSymlink /\ e <> ENOTDIR.

Lemma Lstat_Ok f name n : Lstat f name = Ok n -> (name = "." /\ n = fo_top f) \/ (fo_nodes f !! name = Some n /\ parent f name = None /\ fo_fails f CLstat name = None).
Proof.
  unfold Lstat. destruct (check_name name true); [done|]. destruct (String.eqb_spec name ".").
  - destruct (refused f CLstat "."); [done|]. intros [= <-]. by left.
  - destruct (parent f name); [done|]. intros H%lstat_at_Ok. right. tauto.
Qed.

(** ** Walks *)

Definition path_depth (p : string) : nat := if String.eqb p "." then 0 else depth p.

Lemma depth_ancestors p : valid_elems p = true -> depth p = S (length (ancestors p)).
Proof.
  revert p. apply path_ind; intros p Hv.
  - intros Hd. rewrite ancestors_unfold, Hd by done. simpl. pose proof (path_Dir_elems p Hv) as E. rewrite Hd in E. unfold depth.
    rewrite (app_removelast_last "" (split_byte_nonempty slash p)), length_app. simpl. destruct (removelast (split_byte slash p)) as [|d ds] eqn:Er; [done|]. exfalso.
    destruct (path_Dir_cases p Hv) as [_|(? & ? & ?)]; [|congruence].
    assert (valid_elems (Join (d :: ds) "/") = true) as Hvj.
    { apply valid_elems_spec. rewrite split_join; [|done|rewrite <- Er; apply removelast_Forall, split_elems_clean]. rewrite <- Er. apply removelast_Forall. by apply valid_elems_spec. }
    by apply valid_elems_not_dot in Hvj.
  - intros Hv' Hnd IH. rewrite ancestors_unfold, (proj2 (String.eqb_neq _ _)) by done. rewrite length_app. simpl.
    destruct (path_Dir_cases p Hv) as [?|(_ & -> & _)]; [done|]. lia.
Qed.

Lemma ancestors_NoDup p : valid_elems p = true -> NoDup (ancestors p).
Proof.
  revert p. apply path_ind; intros p Hv.
  - intros Hd. rewrite ancestors_unfold, Hd by done. constructor.
  - intros Hv' Hnd IH. rewrite ancestors_unfold, (proj2 (String.eqb_neq _ _)) by done. apply NoDup_app. split_and!; [done| |apply NoDup_singleton].
    intros a Ha ->%list_elem_of_singleton. apply (ancestors_below _ _ Hv') in Ha. by apply below_irrefl in Ha.
Qed.

(** No path of a tree is deeper than the tree has entries. *)
Lemma depth_bound f p n : wf_folder f -> fo_nodes f !! p = Some n -> (depth p <= size (fo_nodes f))%nat.
Proof.
  intros Hwf Hp. pose proof (wf_name _ Hwf _ _ Hp) as Hv. rewrite depth_ancestors by done.
  assert (NoDup (p :: ancestors p)) as Hnd.
  { constructor; [|by apply ancestors_NoDup]. intros Ha. apply (ancestors_below _ _ Hv) in Ha. by apply below_irrefl in Ha. }
  rewrite <- size_dom. change (S (length (ancestors p))) with (length (p :: ancestors p)). rewrite <- (size_list_to_set (C := gset string)) by done.
  apply subseteq_size. intros a [->|Ha]%elem_of_list_to_set%elem_of_cons; apply elem_of_dom; [by eexists|].
  destruct (wf_ancestors _ _ _ Hwf Hp a Ha) as (d & ? & _). by eexists.
Qed.

Lemma lstat_all_spec f names entries : lstat_all f names = Ok entries ->
  (forall p n, (p, n) ∈ entries -> p ∈ names /\ fo_nodes f !! p = Some n) /\
  (forall p n, p ∈ names -> fo_nodes f !! p = Some n -> (p, n) ∈ entries \/ fo_fails f CLstat p = Some ErrNotExist).
Proof.
  revert entries. induction names as [|p names IH]; intros entries; simpl; [intros [= <-]; split; [by intros ?? ?%elem_of_nil|by intros ?? ?%elem_of_nil]|].
  destruct (lstat_at f p) as [n|e] eqn:El.
  - destruct (lstat_all f names) as [rest|] eqn:Er; [|done]. intros [= <-]. destruct (IH rest eq_refl) as [I1 I2]. apply lstat_at_Ok in El as [Hn _]. split.
    + intros p' n' [[= -> ->]|Hin]%elem_of_cons; [split; [set_solver|done]|]. destruct (I1 _ _ Hin). split; [set_solver|done].
    + intros p' n' [->|Hin]%elem_of_cons Hp'; [left; rewrite Hn in Hp'; injection Hp' as ->; set_solver|]. destruct (I2 _ _ Hin Hp'); [left; set_solver|by right].
  - case_bool_decide as Ee; [|done]. intros Er. destruct (IH entries Er) as [I1 I2]. split.
    + intros p' n' Hin. destruct (I1 _ _ Hin). split; [set_solver|done].
    + intros p' n' [->|Hin]%elem_of_cons Hp'; [|by eauto]. right. unfold lstat_at, refused in El. rewrite Hp' in El. destruct (fo_fails f CLstat p) eqn:Ef; [|done]. simpl in El. injection El as <-. simpl in Ee. congruence.
Qed.

Lemma refused_exists f c p e : honest f -> refused f c p = Some e -> fe_err e <> ErrNotExist.
Proof. unfold refused. intros Hh. destruct (fo_fails f c p) eqn:E; [|done]. intros [= <-]. by apply (Hh _ _ _ E). Qed.

Lemma open_path_err f ps e : honest f -> (forall a, a ∈ ps -> is_Some (fo_nodes f !! a)) -> (open_path f ps false 0).1 = Some e -> fe_err e <> ErrNotExist.
Proof.
  intros Hh. induction ps as [|a ps IH]; intros Ha; [done|]. simpl. pose proof (openChild_same f a) as Hs. destruct (openChild f a false 0) as [[e'|] f'] eqn:Eo; simpl in *; subst f'; [|apply IH; set_solver].
  intros [= <-]. destruct (Ha a ltac:(set_solver)) as [n Hn]. unfold openChild, lstat_at in Eo. destruct (refused f CLstat a) as [e0|] eqn:Er; simpl in Eo; [injection Eo as <-; by eapply refused_exists|].
  rewrite Hn in Eo. injection Eo as Eo. unfold openChildAs in Eo. destruct (nd_body n); try (by injection Eo as <-). by eapply refused_exists.
Qed.

Lemma lstat_all_err f names e : lstat_all f names = Err e -> fe_err e <> ErrNotExist.
Proof. induction names as [|p names IH]; simpl; [done|]. destruct (lstat_at f p); [destruct (lstat_all f names); [done|]; by intros [= <-]; apply IH|]. case_bool_decide; [done|]. by intros [= <-]. Qed.

Lemma openListed_same f p n : fo_nodes f !! p = Some n -> IsDir n = true -> openListed f p n = openChildAs f p n.
Proof.
  intros Hp Hd. unfold openListed. destruct (openChildAs f p n); [done|]. rewrite Hp. unfold IsLink, IsDir, SameFile in *. rewrite !Z.eqb_refl. by destruct (nd_body n).
Qed.

Section walk_laws.
Context {S : Type} (f : folder) (fn : S -> string -> option node -> option ferr -> S * walk_ctl).
(** The folder walked, and what is settled of each path; it stays so. *)
Context (top : string) (Q : string -> S -> Prop).
Hypothesis fn_keeps : forall s p n e q, Q q s -> Q q (fn s p n e).1.
Hypothesis fn_sees : forall s q m, fo_nodes f !! q = Some m -> Q q (fn s q (Some m) None).1.
Hypothesis fn_skips : forall s a m q, within a top = true -> (fn s a (Some m) None).2 = SkipDir -> within q a = true -> Q q (fn s a (Some m) None).1.
Hypothesis fn_fails : forall s a m e q, fe_err e <> ErrNotExist -> within q a = true -> Q q (fn s a (Some m) (Some e)).1.
Hypothesis fn_stops : forall s a m e q, (fn s a (Some m) e).2 = SkipAll -> Q q (fn s a (Some m) e).1.
Hypothesis fn_files : forall s a m, IsDir m = false -> (fn s a (Some m) None).2 <> SkipDir.

Definition settles (w : S -> string -> node -> S * walk_ctl) (name : string) (n : node) : Prop := forall s,
  (forall q, Q q s -> Q q (w s name n).1) /\ (w s name n).2 <> SkipDir /\
  ((w s name n).2 = SkipAll -> forall q, Q q (w s name n).1) /\
  (forall q m, fo_nodes f !! q = Some m -> within q name = true -> Q q (w s name n).1).

(** Every entry below one of [entries] is settled by the loop over them. *)
Lemma walk_entries_settle w entries : wf_folder f -> honest f ->
  (forall p n, (p, n) ∈ entries -> fo_nodes f !! p = Some n /\ within p top = true) -> (forall p n, (p, n) ∈ entries -> IsDir n = true -> settles w p n) -> forall s,
  let r := walk_entries (fun _ => f) fn w s entries in
  (forall q, Q q s -> Q q r.1) /\ r.2 <> SkipDir /\ (r.2 = SkipAll -> forall q, Q q r.1) /\
  (forall p n q m, (p, n) ∈ entries -> fo_nodes f !! q = Some m -> within q p = true -> Q q r.1).
Proof.
  intros Hwf Hh Hn Hw. induction entries as [|[p n] rest IH]; intros s; cbv zeta; cbn [walk_entries].
  { split_and!; [done|done|done|]. intros p n q m H. by apply elem_of_nil in H. }
  specialize (IH ltac:(intros; apply Hn; set_solver) ltac:(intros; apply Hw; set_solver)). cbv zeta in IH.
  destruct (Hn p n ltac:(set_solver)) as [Hpn Hpt]. destruct (IsDir n) eqn:Ed.
  - rewrite openListed_same by done. destruct (openChildAs f p n) as [e|] eqn:Eoc.
    + pose proof (fn_keeps s p (Some n) (Some e)) as Hk. assert (fe_err e <> ErrNotExist) as Hne by (unfold openChildAs, IsDir in *; destruct (nd_body n); try done; by eapply refused_exists).
      pose proof (fun q => fn_fails s p n e q Hne) as Hf. pose proof (fn_stops s p n (Some e)) as Hst.
      destruct (fn s p (Some n) (Some e)) as [s1 c]; simpl in *. destruct c; [| |by split_and!; auto].
      all: destruct (IH s1) as (I1 & I2 & I3 & I4); split_and!; auto.
      all: intros p' n' q m [[= -> ->]|Hin]%elem_of_cons Hq Hb; [by apply I1, Hf|eauto].
    + destruct (Hw p n ltac:(set_solver) Ed s) as (W1 & W2 & W3 & W4). destruct (w s p n) as [s1 c]; simpl in *. destruct c; [|done|by split_and!; auto].
      destruct (IH s1) as (I1 & I2 & I3 & I4). split_and!; auto. intros p' n' q m [[= -> ->]|Hin]%elem_of_cons Hq Hb; [apply I1; eauto|eauto].
  - pose proof (fn_keeps s p (Some n) None) as Hk. pose proof (fn_sees s p n Hpn) as Hs. pose proof (fn_stops s p n None) as Hst. pose proof (fn_files s p n Ed) as Hnf.
    destruct (fn s p (Some n) None) as [s1 c]; simpl in *. destruct c; [|done|by split_and!; auto].
    destruct (IH s1) as (I1 & I2 & I3 & I4). split_and!; auto. intros p' n' q m [[= -> ->]|Hin]%elem_of_cons Hq Hb; [|eauto]. apply I1.
    apply (within_ancestor q p (wf_name _ Hwf _ _ Hq)) in Hb; [|by eapply valid_elems_not_dot, wf_name]. destruct Hb as [->|Hb]; [done|]. destruct (wf_ancestors _ _ _ Hwf Hq p Hb) as (d & Hd & Hdd). congruence.
Qed.

Lemma walkDir_settles fuel : wf_folder f -> honest f -> forall name n,
  within name top = true -> name = "." \/ fo_nodes f !! name = Some n -> (size (fo_nodes f) < fuel + path_depth name)%nat ->
  (forall s q, q = name -> Q q (fn s name (Some n) None).1) -> settles (walkDir (fun _ => f) fn fuel) name n.
Proof.
  intros Hwf Hh. induction fuel as [|fuel IH]; intros name n Hin Hname Hfuel Htop s.
  { exfalso. destruct Hname as [->|Hn]; [change (path_depth ".") with 0%nat in Hfuel; lia|]. pose proof (depth_bound f name n Hwf Hn) as Hdb. unfold path_depth in Hfuel. destruct (String.eqb name "."); lia. }
  cbn [walkDir]. pose proof (fn_keeps s name (Some n) None) as Hk. pose proof (Htop s name eq_refl) as Hs. pose proof (fn_stops s name n None) as Hst. pose proof (fun q => fn_skips s name n q Hin) as Hsk.
  destruct (fn s name (Some n) None) as [s1 c]; simpl in *. destruct c; [| |by split_and!; auto].
  2: { split_and!; [auto|done|done|]. intros q m Hq Hb. by apply Hsk. }
  unfold readDir. destruct (refused f CReaddir name) as [e|] eqn:Erd.
  { assert (fe_err e <> ErrNotExist) as Hne by (by eapply refused_exists). pose proof (fn_keeps s1 name (Some n) (Some e)) as Hk'. pose proof (fun q => fn_fails s1 name n e q Hne) as Hf. pose proof (fn_stops s1 name n (Some e)) as Hst'.
    destruct (fn s1 name (Some n) (Some e)) as [s2 c]; simpl in *. destruct c; [| |by split_and!; auto].
    all: split_and!; [auto|done|done|]. all: intros q m Hq Hb; by apply Hf. }
  destruct (lstat_all f (children f name)) as [entries|e] eqn:Er.
  2: { assert (fe_err e <> ErrNotExist) as Hne by (by eapply lstat_all_err). pose proof (fn_keeps s1 name (Some n) (Some e)) as Hk'. pose proof (fun q => fn_fails s1 name n e q Hne) as Hf. pose proof (fn_stops s1 name n (Some e)) as Hst'.
    destruct (fn s1 name (Some n) (Some e)) as [s2 c]; simpl in *. destruct c; [| |by split_and!; auto].
    all: split_and!; [auto|done|done|]. all: intros q m Hq Hb; by apply Hf. }
  destruct (lstat_all_spec _ _ _ Er) as [L1 L2].
  destruct (walk_entries_settle (walkDir (fun _ => f) fn fuel) entries Hwf Hh) with (s := s1) as (W1 & W2 & W3 & W4).
  - intros p m Hpm. destruct (L1 _ _ Hpm) as [[Hp _]%children_elem Hn]. split; [done|]. eapply within_trans; [|exact Hin].
    rewrite <- Hp. pose proof (wf_name _ Hwf _ _ Hn) as Hv. apply within_spec. destruct (parent_below p Hv); auto.
  - intros p m Hpin Hd. destruct (L1 _ _ Hpin) as [[Hp _]%children_elem Hpm]. apply IH; [|by right| |].
    + eapply within_trans; [|exact Hin]. rewrite <- Hp. pose proof (wf_name _ Hwf _ _ Hpm) as Hv. apply within_spec. destruct (parent_below p Hv); auto.
    + pose proof (wf_name _ Hwf _ _ Hpm) as Hv. unfold path_depth in *. destruct (String.eqb_spec p "."); [by subst; apply valid_elems_not_dot in Hv|].
      pose proof (depth_ancestors p Hv). destruct (path_Dir_cases p Hv) as [E|(_ & E & Hnd)]; rewrite Hp in E; [rewrite E in Hfuel; simpl in Hfuel; lia|]. rewrite Hp in Hnd.
      destruct (String.eqb_spec name "."); [done|]. lia.
    + intros s' q ->. by apply fn_sees.
  - split_and!; auto. intros q m Hq Hb. destruct (decide (q = name)) as [->|Hne]; [by apply W1|].
    assert (exists p, p ∈ children f name /\ within q p = true) as (p & Hp & Hqp).
    { clear - Hwf Hq Hb Hne. pose proof (wf_name _ Hwf _ _ Hq) as Hv. revert m Hq Hb Hne. pattern q. revert q Hv. apply path_ind; intros q Hv.
      - intros Hd m Hq Hb Hne. exists q. split; [|apply within_refl]. apply children_elem. split; [|by eauto]. rewrite Hd.
        apply within_spec in Hb as [->|[->|Hb]]; [done|done|]. by destruct (below_parent q name Hv Hb).
      - intros Hv' Hnd IHq m Hq Hb Hne. destruct (decide (path_Dir q = name)) as [E|Hne'].
        + exists q. split; [apply children_elem; by eauto|apply within_refl].
        + destruct (wf_parent _ Hwf _ _ Hq) as [?|(d & Hd & _)]; [done|].
          assert (within q (path_Dir q) = true) as Hup by (apply within_spec; destruct (parent_below q Hv); auto).
          assert (within (path_Dir q) name = true) as Hb'.
          { apply within_spec in Hb as [->|[->|Hb]]; [apply within_spec; auto|done|]. destruct (below_parent q name Hv Hb) as [_ [?|?]]; apply within_spec; auto. }
          destruct (IHq d Hd Hb' Hne') as (p & Hp & Hor). exists p. split; [done|]. by eapply within_trans. }
    apply children_elem in Hp as Hp'. destruct Hp' as [_ [pn Hpn]]. destruct (L2 p pn Hp Hpn) as [Hpin|Hf]; [|by apply Hh in Hf as [? _]]. eauto.
Qed.

Hypothesis fn_lost : forall s a e q m, Lstat f a = Err e -> fo_nodes f !! q = Some m -> within q a = true -> Q q (fn s a None (Some e)).1.

Lemma WalkDir_settles s q m : wf_folder f -> honest f -> (forall s n, Q "." (fn s "." (Some n) None).1) ->
  fo_nodes f !! q = Some m -> within q top = true -> Q q (WalkDir f fn s top).
Proof.
  intros Hwf Hh Htop Hq Hw. unfold WalkDir, WalkDirLive. cbv zeta beta. destruct (Lstat f top) as [n|e] eqn:El; [|by eapply fn_lost].
  assert (top = "." \/ fo_nodes f !! top = Some n) as Hname by (destruct (Lstat_Ok _ _ _ El); tauto).
  destruct (IsDir n) eqn:Ed.
  - destruct ((openDir f top false 0).1) as [e|] eqn:Eo.
    { apply fn_fails; [|done]. unfold openDir in Eo. destruct (String.eqb_spec top "."); [done|]. destruct (Lstat_Ok _ _ _ El) as [[? _]|(Hn & _)]; [done|]. apply open_path_err in Eo; [done|done|].
      intros a [Ha| ->%list_elem_of_singleton]%elem_of_app; [|by eexists]. destruct (wf_ancestors _ _ _ Hwf Hn a Ha) as (d & ? & _). by eexists. }
    destruct (walkDir_settles (Datatypes.S (Datatypes.S (size (fo_nodes f)) + 0)) Hwf Hh top n (within_refl top) Hname) with (s := s) as (_ & _ & _ & W); [lia| |by eapply W].
    intros s' q' ->. destruct Hname as [->|?]; [done|by apply fn_sees].
  - destruct Hname as [->|Hn]; [|].
    + pose proof (wf_top _ Hwf) as Ht. destruct (Lstat_Ok _ _ _ El) as [[_ ->]|(Hn & _)]; [congruence|]. by apply (wf_name _ Hwf), valid_elems_not_dot in Hn.
    + apply (within_ancestor q top (wf_name _ Hwf _ _ Hq)) in Hw; [|by eapply valid_elems_not_dot, wf_name]. destruct Hw as [->|Hb]; [by apply fn_sees|].
      destruct (wf_ancestors _ _ _ Hwf Hq top Hb) as (d & Hd & Hdd). congruence.
Qed.
End walk_laws.

(** No system call fails. *)
Definition working (f : folder) : Prop := forall c p, fo_fails f c p = None.

Lemma working_refused f c p : working f -> refused f c p = None.
Proof. intros Hw. unfold refused. by rewrite Hw. Qed.

Lemma working_lstat_all f names e : working f -> (forall p, p ∈ names -> is_Some (fo_nodes f !! p)) -> lstat_all f names <> Err e.
Proof.
  intros Hw. induction names as [|p names IH]; intros Hn; simpl; [done|]. specialize (IH ltac:(intros; apply Hn; set_solver)).
  destruct (Hn p ltac:(set_solver)) as [n Hp]. unfold lstat_at. rewrite (working_refused f CLstat p Hw), Hp. by destruct (lstat_all f names).
Qed.

(** What every callback of a walk keeps, the walk keeps; where every call works,
    only the folder walked may be found missing. *)
Section walk_inv.
Context {S : Type} (f : folder) (fn : S -> string -> option node -> option ferr -> S * walk_ctl) (top : string) (P : S -> Prop).
Hypothesis fn_inv : forall s p n e, (forall m, n = Some m -> p = "." \/ fo_nodes f !! p = Some m) ->
  (forall err, e = Some err -> working f -> n = None /\ p = top /\ Lstat f top = Err err) -> P s -> P (fn s p n e).1.

Lemma walk_entries_inv w entries : (forall p n, (p, n) ∈ entries -> fo_nodes f !! p = Some n) ->
  (forall p n, (p, n) ∈ entries -> forall s, P s -> P (w s p n).1) -> forall s, P s -> P (walk_entries (fun _ => f) fn w s entries).1.
Proof.
  induction entries as [|[p n] rest IH]; intros Hn Hw s Hs; [done|]. cbn [walk_entries]. specialize (IH ltac:(intros; apply Hn; set_solver) ltac:(intros; eapply Hw; [set_solver|done])).
  assert (forall e, (forall err, e = Some err -> ~ working f) -> P (fn s p (Some n) e).1) as Hfn.
  { intros e He. apply fn_inv; [|by intros err Ee Hwk; destruct (He err)|done]. intros m [= <-]. right. apply Hn. set_solver. }
  destruct (IsDir n) eqn:Ed.
  - rewrite openListed_same; [|apply Hn; set_solver|done]. destruct (openChildAs f p n) as [e|] eqn:Eo.
    + specialize (Hfn (Some e)). destruct (fn s p (Some n) (Some e)) as [s1 c]. assert (P s1); [|destruct c; auto]. apply Hfn. intros err _ Hwk. unfold openChildAs, IsDir in *.
      destruct (nd_body n); try done. by rewrite working_refused in Eo.
    + pose proof (Hw p n ltac:(set_solver) s Hs) as H1. destruct (w s p n) as [s1 []]; auto.
  - specialize (Hfn None ltac:(done)). destruct (fn s p (Some n) None) as [s1 []]; auto.
Qed.

Lemma walkDir_inv fuel : forall name n, name = "." \/ fo_nodes f !! name = Some n -> forall s, P s -> P (walkDir (fun _ => f) fn fuel s name n).1.
Proof.
  induction fuel as [|fuel IH]; intros name n Hn s Hs; [done|]. cbn [walkDir].
  assert (forall s e, P s -> (forall err, e = Some err -> ~ working f) -> P (fn s name (Some n) e).1) as Hfn.
  { intros s' e Hs' He. apply fn_inv; [by intros m [= <-]|by intros err Ee Hwk; destruct (He err)|done]. }
  pose proof (Hfn s None Hs ltac:(done)) as H1. destruct (fn s name (Some n) None) as [s1 []]; [|done|done]. unfold readDir.
  assert (forall e, ~ working f -> P (match fn s1 name (Some n) (Some e) with (s, SkipAll) => (s, SkipAll) | (s, _) => (s, Go) end).1) as Hbad.
  { intros e Hnw. pose proof (Hfn s1 (Some e) H1 ltac:(done)) as H2. by destruct (fn s1 name (Some n) (Some e)) as [s2 []]. }
  destruct (refused f CReaddir name) as [e|] eqn:Ef; [|destruct (lstat_all f (children f name)) as [entries|e] eqn:Er].
  - apply Hbad. intros Hwk. by rewrite working_refused in Ef.
  - destruct (lstat_all_spec _ _ _ Er) as [L1 _]. apply walk_entries_inv; [|intros p m Hpm; apply IH; right|done]; by apply L1.
  - apply Hbad. intros Hwk. eapply (working_lstat_all f); [done| |exact Er]. intros p. rewrite children_elem. tauto.
Qed.

Lemma WalkDir_inv s : P s -> P (WalkDir f fn s top).
Proof.
  intros Hs. unfold WalkDir, WalkDirLive. cbv zeta beta. case_eq (Lstat f top); [intros n El|intros e El; apply fn_inv; [done|by intros err [= <-]|done]].
  assert (top = "." \/ fo_nodes f !! top = Some n) as Hn by (destruct (Lstat_Ok _ _ _ El); tauto).
  assert (forall e, (forall err, e = Some err -> ~ working f) -> P (fn s top (Some n) e).1) as Hfn.
  { intros e He. apply fn_inv; [by intros m [= <-]|by intros err Ee Hwk; destruct (He err)|done]. }
  destruct (IsDir n) eqn:Ed; [|by apply Hfn]. destruct ((openDir f top false 0).1) as [e|] eqn:Eo; [|by apply walkDir_inv]. apply Hfn. intros err _ Hwk.
  unfold openDir in Eo. destruct (String.eqb_spec top "."); [done|]. destruct (Lstat_Ok _ _ _ El) as [[? _]|(Hp & Hpar & _)]; [done|]. apply parent_reached in Hpar as (_ & _ & Ha).
  rewrite (proj2 (open_path_folders (ancestors top ++ [top]) f)) in Eo; [done|]. apply Forall_app. split; [done|]. constructor; [|done]. split_and!; [by exists n|apply Hwk|apply Hwk].
Qed.
End walk_inv.

(** What every callback keeps, whatever of the entries it is shown and whatever goes
    wrong, a walk in a changing folder keeps. *)
Section walk_live.
Context {S : Type} (view : string -> folder) (fn : S -> string -> option node -> option ferr -> S * walk_ctl) (P : S -> Prop).

(** An entry as some listing showed it. *)
Definition shown (p : string) (m : node) : Prop := p = "." \/ exists d, fo_nodes (view d) !! p = Some m.

Hypothesis fn_live : forall s p n e, (forall m, n = Some m -> shown p m) -> P s -> P (fn s p n e).1.

Lemma fn_shown s p n e : shown p n -> P s -> P (fn s p (Some n) e).1.
Proof. intros Hn. apply fn_live. by intros m [= <-]. Qed.

Lemma walk_entries_live w entries : (forall p n, (p, n) ∈ entries -> shown p n) ->
  (forall p n, (p, n) ∈ entries -> forall s, P s -> P (w s p n).1) -> forall s, P s -> P (walk_entries view fn w s entries).1.
Proof.
  induction entries as [|[p n] rest IH]; intros Hn Hw s Hs; [done|]. cbn [walk_entries]. specialize (IH ltac:(intros; apply Hn; set_solver) ltac:(intros; eapply Hw; [set_solver|done])).
  pose proof (Hn p n ltac:(set_solver)) as Hp. destruct (IsDir n).
  - destruct (openListed _ p n) as [e|].
    + pose proof (fn_shown s p n (Some e) Hp Hs) as H1. destruct (fn s p (Some n) (Some e)) as [s1 []]; auto.
    + pose proof (Hw p n ltac:(set_solver) s Hs) as H1. destruct (w s p n) as [s1 []]; auto.
  - pose proof (fn_shown s p n None Hp Hs) as H1. destruct (fn s p (Some n) None) as [s1 []]; auto.
Qed.

Lemma walkDir_live fuel : forall name n, shown name n -> forall s, P s -> P (walkDir view fn fuel s name n).1.
Proof.
  induction fuel as [|fuel IH]; intros name n Hn s Hs; [done|]. cbn [walkDir].
  pose proof (fn_shown s name n None Hn Hs) as H1. destruct (fn s name (Some n) None) as [s1 []]; [|done|done]. unfold readDir.
  assert (forall e, P (match fn s1 name (Some n) (Some e) with (s, SkipAll) => (s, SkipAll) | (s, _) => (s, Go) end).1) as Hbad.
  { intros e. pose proof (fn_shown s1 name n (Some e) Hn H1) as H2. by destruct (fn s1 name (Some n) (Some e)) as [s2 []]. }
  destruct (refused _ CReaddir name) as [e|]; [apply Hbad|]. destruct (lstat_all _ (children _ name)) as [entries|e] eqn:Er; [|apply Hbad].
  destruct (lstat_all_spec _ _ _ Er) as [L1 _]. apply walk_entries_live; [|intros p m Hpm; apply IH|done]; right; exists name; by apply L1.
Qed.

Lemma WalkDirLive_inv deeper s top : P s -> P (WalkDirLive view fn deeper s top).
Proof.
  intros Hs. unfold WalkDirLive. cbv zeta. destruct (Lstat (view top) top) as [n|e] eqn:El; [|by apply fn_live].
  assert (shown top n) as Hn by (destruct (Lstat_Ok _ _ _ El) as [[-> _]|(? & _)]; [by left|right; by exists top]).
  destruct (IsDir n); [|by apply fn_shown]. destruct ((openDir _ top false 0).1) as [e|]; [by apply fn_shown|by apply walkDir_live].
Qed.
End walk_live.

Module SafeFsExamples.

Definition blank : folder := MkFolder ∅ (MkNode BDir 493 0 0 0 1) (fun _ _ => None) 7 1 18.
Definition dir_a : folder := put_new blank "a" (MkNode BDir 493 1 1 1 1).
(** A folder holding a/b, a file of mode 04644, and a link l to the folder a. *)
Definition home : folder :=
  put_new (put_new dir_a "a/b" (MkNode (BFile "old") (Z.lor (2 ^ 23) 420) 2 2 2 1)) "l" (MkNode (BLink "a") 511 3 3 3 1).

Lemma wf_blank : wf_folder blank.
Proof. by constructor. Qed.

Lemma wf_home : wf_folder home.
Proof.
  assert (wf_folder dir_a) as Ha by (apply wf_put_new; [exact wf_blank|by intros old|done|by left|done]).
  assert (wf_folder (put_new dir_a "a/b" (MkNode (BFile "old") (Z.lor (2 ^ 23) 420) 2 2 2 1))) as Hb.
  { apply wf_put_new; [done| |done|right; by eexists|done]. intros old. vm_compute. done. }
  apply wf_put_new; [done| |done|by left|done]. intros old. vm_compute. done.
Qed.

Definition write_b : folder :=
  (ReplaceFile id (fun g s => g s) id [] home "a/b" [5] (fun s => (Ok "new", s)) 2541 9 (fun _ _ => None)).2.

Example write_b_runs : fo_nodes write_b !! "a/b" = Some (MkNode (BFile "new") 493 9 7 4 1) /\
  fo_nodes write_b !! "a/.fleet-safefs-0000000000000005.tmp" = None /\
  (ReplaceFile id (fun g s => g s) id [] home "l/b" [5] (fun s => (Ok "new", s)) 420 9 (fun _ _ => None)).1 = Err (MkFErr "l" ErrSymlink) /\
  (Remove ["a/b/c"] home "a").1 = Some (MkFErr "a" ErrReserved).
Proof. vm_compute. done. Qed.

Lemma op_write_b : fs_op [] home "a/b" write_b.
Proof. apply op_ReplaceFile. intros r ->%list_elem_of_singleton. vm_compute. discriminate. Qed.

Lemma call_write_b : fs_call [] home ["a/b"] write_b.
Proof. left. exists "a/b". split; [reflexivity|exact op_write_b]. Qed.


(** The folder a renamed: its file moves along, and a link is renamed itself. *)
Example rename_a : let f := (Rename [] home "a" "c").2 in
  fo_nodes f !! "a/b" = None /\ (nd_body <$> fo_nodes f !! "c/b") = Some (BFile "old") /\
  (nd_body <$> fo_nodes (Rename [] home "l" "a/b").2 !! "a/b") = Some (BLink "a") /\
  (Rename [] home "a" "a/x").1 = Some (MkFErr "a" ErrInvalid) /\ (Rename ["a/b"] home "a" "c").1 = Some (MkFErr "a" ErrReserved).
Proof. vm_compute. done. Qed.

End SafeFsExamples.
