(* ===== verification/SideTree.v ===== *)
(** * A side's synced folder: its records (internal/sharesync/tree.go, fingerprint.go, errors.go)

    What a side keeps of one root: a record per path with the rev and state it
    last synced, journaled; and the operations on the records alone: opening them,
    what the side tells the hub it holds, the hub's answers, and which paths are
    synced. Scanning and applying are in SideScan and SideApply. The root's lock is
    held throughout each operation here. Records are known by identity too (a
    pointer in the code): each record put has a number of its own. Logging is left
    out. *)

From S2P Require Import Prelude GoStrings GoText Sha256 Entry Paths SyncPolicy Mergers Journal SafeFs.
Local Open Scope string_scope.
Local Open Scope Z_scope.
Local Open Scope list_scope.

(** ** Fingerprints *)

Record fingerprint := MkFP { fp_Size : Z; fp_MTime : Z; fp_Mode : Z; fp_Ino : Z; fp_Dev : Z; fp_CTime : Z }.

#[export] Instance fingerprint_eq_dec : EqDecision fingerprint.
Proof. solve_decision. Defined.

Definition no_fingerprint : fingerprint := MkFP 0 0 0 0 0 0.

Definition fingerprintOf (n : node) : fingerprint :=
  if IsDir n then MkFP 0 0 (Mode n) (nd_ino n) (nd_dev n) 0
  else MkFP (Size n) (nd_mtime n) (Mode n) (nd_ino n) (nd_dev n) (nd_ctime n).

(** [None] for what is never synced: FIFOs, sockets, devices. *)
Definition kindOf (n : node) : option Kind :=
  match nd_body n with BFile _ => Some File | BDir => Some Dir | BLink _ => Some Symlink | BOther => None end.

(** ** Errors *)

Inductive terr :=
| FsE (e : ferr)
| JournalE (e : journal_error)
| SyncE (e : sync_error)
| NoSpaceE                  (* errNoSpace *)
| LocalChange (p : string)  (* errLocalChange *)
| NoAppend                  (* errNoAppend *)
| Unsettled                 (* errUnsettled *)
| RootMoved                 (* ErrRootMoved *)
| ClosedE                   (* ErrClosed *)
| NoRoot                    (* no such root *)
| EndOfFile                 (* io.EOF: a file shorter than it was *)
| Cancelled                 (* the context ended *)
| Crashed.                  (* the afterWrite seam of the tests *)

(** An Lstat error that says nothing is there in the synced tree. *)
Definition cannotExist_err (e : fserr) : bool :=
  match e with ErrNotExist | ErrNotDir | ErrSymlink | ENOTDIR => true | _ => false end.

Section classify.
Context (Error : terr -> string).

Definition classify (err : option terr) : ResultStatus * string :=
  match err with
  | None => (Applied, "")
  | Some e =>
      match e with
      | NoSpaceE => (NoSpace, "")
      | FsE e' =>
          match fe_err e' with
          | ENOSPC | EDQUOT => (NoSpace, "")
          | ErrReserved => (Refused, Error e)
          | ErrChanged | ErrSymlink | ErrNotDir | ErrNotRegular | ENOTEMPTY | ErrExist => (Changed, Error e)
          | _ => (Failed, Error e)
          end
      | SyncE ErrStale => (Stale, Error e)
      | LocalChange _ => (Changed, Error e)
      | _ => (Failed, Error e)
      end
  end.
End classify.

(** A scan error the next scan resolves. *)
Definition transient (e : terr) : bool :=
  match (classify (fun _ => "") (Some e)).1 with
  | Changed => true
  | _ => match e with FsE e' => bool_decide (fe_err e' = ErrNotExist) | _ => false end
  end.

(** ** Records *)

Record record := MkRec { rc_Rev : Z; rc_Entry : Entry; rc_FP : fingerprint; rc_Sent : bool; rc_Made : bool }.

#[export] Instance record_eq_dec : EqDecision record.
Proof. solve_decision. Defined.

Record treeMeta := MkTreeMeta { tm_Epoch : string; tm_Folder : option fingerprint }.

(** What a root's journal records. *)
Inductive treeRecord := TRec (r : record) | TMeta (m : treeMeta).

#[export] Instance treeRecord_texts : has_texts treeRecord := fun r =>
  match r with TRec r => entry_texts (rc_Entry r) | TMeta m => [tm_Epoch m] end.

Record settleMark := MkMark { sm_fp : fingerprint; sm_at : Z }.

(** How a root and its tree are configured. [tc_keep] gives the bytes to keep
    free of a disk of some size (MinFree of it, in floating point); times are
    nanoseconds. *)
Record treeConf := MkTreeConf {
  tc_Name : string;
  tc_Reserved : list string;
  tc_Skip : list string;
  tc_Only : list string;
  tc_ReadOnly : bool;
  tc_table : Table;
  tc_keep : Z -> Z;
  tc_FullReason : string;
  tc_Settle : Z;
  tc_MergeSettle : Z
}.

Record treeRoot := MkTreeRoot {
  tr_epoch : string;
  tr_records : gmap string (Z * record);   (* each with its identity *)
  tr_next : Z;                             (* the next identity *)
  tr_journal : journal treeRecord;
  tr_disk : disk;                          (* the journal's files *)
  tr_failing : gmap string Z;
  tr_scans : Z;                            (* uint64 *)
  tr_settling : gmap string settleMark;
  tr_fs : folder;
  tr_there : bool;                         (* Dir is still the folder opened *)
  tr_closed : bool
}.

Definition set_records (tr : treeRoot) (m : gmap string (Z * record)) (next : Z) (j : journal treeRecord) : treeRoot :=
  MkTreeRoot (tr_epoch tr) m next j (tr_disk tr) (tr_failing tr) (tr_scans tr) (tr_settling tr) (tr_fs tr) (tr_there tr) (tr_closed tr).
Definition set_tree_journal (tr : treeRoot) (j : journal treeRecord) (d : disk) : treeRoot :=
  MkTreeRoot (tr_epoch tr) (tr_records tr) (tr_next tr) j d (tr_failing tr) (tr_scans tr) (tr_settling tr) (tr_fs tr) (tr_there tr) (tr_closed tr).
Definition set_epoch (tr : treeRoot) (e : string) : treeRoot :=
  MkTreeRoot e (tr_records tr) (tr_next tr) (tr_journal tr) (tr_disk tr) (tr_failing tr) (tr_scans tr) (tr_settling tr) (tr_fs tr) (tr_there tr) (tr_closed tr).
Definition set_fs (tr : treeRoot) (f : folder) : treeRoot :=
  MkTreeRoot (tr_epoch tr) (tr_records tr) (tr_next tr) (tr_journal tr) (tr_disk tr) (tr_failing tr) (tr_scans tr) (tr_settling tr) f (tr_there tr) (tr_closed tr).
Definition set_failing (tr : treeRoot) (m : gmap string Z) : treeRoot :=
  MkTreeRoot (tr_epoch tr) (tr_records tr) (tr_next tr) (tr_journal tr) (tr_disk tr) m (tr_scans tr) (tr_settling tr) (tr_fs tr) (tr_there tr) (tr_closed tr).
Definition set_scans (tr : treeRoot) (n : Z) : treeRoot :=
  MkTreeRoot (tr_epoch tr) (tr_records tr) (tr_next tr) (tr_journal tr) (tr_disk tr) (tr_failing tr) n (tr_settling tr) (tr_fs tr) (tr_there tr) (tr_closed tr).
Definition set_settling (tr : treeRoot) (m : gmap string settleMark) : treeRoot :=
  MkTreeRoot (tr_epoch tr) (tr_records tr) (tr_next tr) (tr_journal tr) (tr_disk tr) (tr_failing tr) (tr_scans tr) m (tr_fs tr) (tr_there tr) (tr_closed tr).
Definition set_closed (tr : treeRoot) : treeRoot :=
  MkTreeRoot (tr_epoch tr) (tr_records tr) (tr_next tr) (tr_journal tr) (tr_disk tr) (tr_failing tr) (tr_scans tr) (tr_settling tr) (tr_fs tr) (tr_there tr) true.

(** The record of a path, without its identity. *)
Definition rec_at (tr : treeRoot) (p : string) : option record := snd <$> tr_records tr !! p.

Definition folder_mark (tr : treeRoot) : fingerprint := fingerprintOf (fo_top (tr_fs tr)).
Definition meta_of (tr : treeRoot) : treeMeta := MkTreeMeta (tr_epoch tr) (Some (folder_mark tr)).

Section tree.
Context (cfg : treeConf) `{C : !journal_codec treeRecord}.

(** ** Putting records *)

Definition putRecord (p : string) (rec : record) (tr : treeRoot) : treeRoot :=
  set_records tr (<[p := (tr_next tr, rec)]> (tr_records tr)) (tr_next tr + 1) (put (tr_journal tr) p (TRec rec)).

Definition dropRecord (p : string) (tr : treeRoot) : treeRoot :=
  match tr_records tr !! p with
  | Some _ => set_records tr (delete p (tr_records tr)) (tr_next tr) (del (tr_journal tr) p)
  | None => tr
  end.

(** The records a compaction keeps. *)
Definition snapshot_of (tr : treeRoot) : gmap string treeRecord :=
  <[metaKey := TMeta (meta_of tr)]> ((fun ir => TRec ir.2) <$> tr_records tr).

Definition tree_compact (tr : treeRoot) : option terr * treeRoot :=
  let '(err, j, d) := compact (tr_journal tr) (tr_disk tr) (snapshot_of tr) in
  (JournalE <$> err, set_tree_journal tr j d).

Definition tree_commit (tr : treeRoot) : option terr * treeRoot :=
  if tr_closed tr then (Some ClosedE, tr)
  else
    let '(err, j, d) := commit (tr_journal tr) (tr_disk tr) in
    let tr := set_tree_journal tr j d in
    match err with
    | Some e => (Some (JournalE e), tr)
    | None => if due (tr_journal tr) (size (tr_records tr)) then tree_compact tr else (None, tr)
    end.

Definition tree_putMeta (tr : treeRoot) : option terr * treeRoot :=
  tree_commit (set_records tr (tr_records tr) (tr_next tr) (put (tr_journal tr) metaKey (TMeta (meta_of tr)))).

(** ** Talking to the hub *)

Definition held_of (p : string) (r : record) : option Held :=
  if negb (rc_Sent r) && negb (rc_Made r) && Live (rc_Entry r) then Some (MkHeld p (rc_Rev r) (rc_Entry r)) else None.

Definition tree_Hello (tr : treeRoot) : option RootHello :=
  if tr_closed tr then None
  else Some (MkRootHello (tc_Name cfg) (tr_epoch tr)
    (SortFunc (fun a b => Compare (held_path a) (held_path b)) (omap (fun pr => held_of pr.1 pr.2.2) (map_to_list (tr_records tr))))).

(** One record moved to a new epoch. *)
Definition adopted (unseen : bool) (r : record) : record :=
  MkRec 0 (rc_Entry r) (rc_FP r) (if unseen && Live (rc_Entry r) then true else rc_Sent r) (rc_Made r).

Definition adopt (epoch : string) (unseen : bool) (tr : treeRoot) : option terr * treeRoot :=
  if String.eqb epoch "" || String.eqb epoch (tr_epoch tr) then (None, tr)
  else
    let tr := set_epoch tr epoch in
    tree_putMeta (foldl (fun tr pr => putRecord pr.1 (adopted unseen pr.2.2) tr) tr (map_to_list (tr_records tr))).

Definition tree_Welcome (epoch : string) (tr : treeRoot) : option terr * treeRoot :=
  if tr_closed tr then (Some ClosedE, tr) else adopt epoch false tr.

(** One answer of the hub's taken. *)
Definition take_ack (ack : Ack) (tr : treeRoot) : treeRoot :=
  match rec_at tr (a_path ack) with
  | None => tr
  | Some r =>
      if negb (rc_Sent r) then tr
      else
        let same := Same (rc_Entry r) (a_entry ack) in
        match a_status ack with
        | Accepted =>
            let r' := MkRec (a_rev ack) (rc_Entry r) (rc_FP r) (if same then false else rc_Sent r) (rc_Made r) in
            if same && negb (Live (rc_Entry r)) then dropRecord (a_path ack) tr else putRecord (a_path ack) r' tr
        | Superseded =>
            if negb same then tr
            else putRecord (a_path ack) (MkRec (if a_rev ack =? 0 then 0 else rc_Rev r) (rc_Entry r) (rc_FP r) false (rc_Made r)) tr
        | _ => tr
        end
  end.

Definition Acked (reply : Reply) (tr : treeRoot) : option terr * treeRoot :=
  if tr_closed tr then (Some ClosedE, tr)
  else
    match adopt (reply_epoch reply) true tr with
    | (Some e, tr) => (Some e, tr)
    | (None, tr) => tree_commit (foldl (fun tr ack => take_ack ack tr) tr (reply_acks reply))
    end.

Definition tree_Close (tr : treeRoot) : list terr * treeRoot :=
  if tr_closed tr then ([], tr)
  else
    let '(e1, tr) := tree_compact tr in
    let '(e2, j, d) := close (tr_journal tr) (tr_disk tr) in
    (option_list e1 ++ option_list (JournalE <$> e2), set_closed (set_tree_journal tr j d)).

(** ** Opening a root *)

Fixpoint escape_name (name : string) : string :=
  match name with
  | EmptyString => ""
  | String a s => (if ascii_eqb a "%"%char then "%25" else if ascii_eqb a slash then "%2F" else String a "") +:+ escape_name s
  end.
Definition stateFile (name : string) : string := "root-" +:+ escape_name name +:+ ".json".

(** A journaled record read back; [None] is dropped. *)
Definition read_record (key : string) (val : option treeRecord) : option record :=
  match val with
  | Some (TRec r) => if validPath key && bool_decide (check (rc_Entry r) = None) then Some r else None
  | _ => None
  end.

Definition load_one (tr : treeRoot) (kv : string * option treeRecord) : treeRoot :=
  let '(key, val) := kv in
  if String.eqb key metaKey then tr
  else match read_record key val with
       | Some r => set_records tr (<[key := (tr_next tr, r)]> (tr_records tr)) (tr_next tr + 1) (tr_journal tr)
       | None => set_records tr (tr_records tr) (tr_next tr) (del (tr_journal tr) key)
       end.

(** [f] is the folder opened, which passed the self-test unless it is read-only. *)
Definition tree_openRoot (d : disk) (f : folder) : result terr treeRoot :=
  if negb (validPath (tc_Name cfg)) then Err NoRoot
  else match Table_Root (tc_table cfg) (tc_Name cfg) with
  | None => Err NoRoot
  | Some _ =>
      match openJournal d with
      | (Err e, _) => Err (JournalE e)
      | (Ok (j, raw), d) =>
          let meta := match raw !! metaKey with Some (Some (TMeta m)) => m | _ => MkTreeMeta "" None end in
          let folder := fingerprintOf (fo_top f) in
          let replaced := match tm_Folder meta with
                          | Some old => negb ((fp_Ino old =? fp_Ino folder) && (fp_Dev old =? fp_Dev folder))
                          | None => false
                          end in
          let kept := if replaced then ∅ else raw in
          let j := if replaced then foldl (fun j kv => if String.eqb kv.1 metaKey then j else del j kv.1) j (map_to_list raw) else j in
          let tr := foldl load_one (MkTreeRoot (tm_Epoch meta) ∅ 0 j d ∅ 0 ∅ f true false) (map_to_list kept) in
          match tree_putMeta tr with
          | (Some e, _) => Err e
          | (None, tr) => Ok tr
          end
      end
  end.

(** ** Which paths are synced *)

Definition synced (name : string) : bool :=
  validPath name && negb (existsb IsTemp (split_byte slash name)) && negb (existsb (within name) (tc_Skip cfg)) &&
  (bool_decide (tc_Only cfg = []) || bool_decide (List.hd "" (split_byte slash name) ∈ tc_Only cfg)) &&
  match Table_PolicyFor (tc_table cfg) (path_Join (tc_Name cfg) name) with
  | Some policy => negb (bool_decide (policy = LocationLocal))
  | None => false
  end.

Definition merging (name : string) : bool :=
  match Table_PolicyFor (tc_table cfg) (path_Join (tc_Name cfg) name) with
  | Some (JSON3 | TOML3 | Credential) => true
  | _ => false
  end.

End tree.
