(* ===== verification/SideApply.v ===== *)
(** * Applying the hub's changes to a folder (internal/sharesync/apply.go)

    The whole of Apply: what an op finds at its path, the folders, links, files
    and deletes it makes, the in-place append and its undoing, and the record it
    leaves. While content is fetched and read the root's lock is free: [others n]
    is what other operations of the tree and other writers of the folder do in the
    n-th such stretch, to the records and to the folder; and with the lock held,
    other writers of the folder act between the write of a file and the look that
    records it ([recordWritten]). A local write between the last look at a file
    and the rename over it (the window the code names), or between the making of
    a folder or a link and the look that records it, is not modelled. *)

From S2P Require Import Prelude GoStrings GoText Sha256 Entry Paths SyncPolicy Mergers Journal SafeFs SideTree.
Local Open Scope string_scope.
Local Open Scope Z_scope.
Local Open Scope list_scope.

Definition maxAppend : Z := 8 * 2 ^ 20.

Record local := MkLocal { lc_rec : option (Z * record); lc_info : option node }.

Definition lc_exists (at_ : local) : bool := match lc_info at_ with Some _ => true | None => false end.

(** Whether two looks found the same record (by its identity). *)
Definition same_record (a b : option (Z * record)) : bool := bool_decide (fst <$> a = fst <$> b).

(** What an op finds of an Lstat: an error that says nothing is there is nothing. *)
Definition cannotExist (r : result ferr node) : bool :=
  match r with Ok _ => false | Err e => cannotExist_err (fe_err e) end.

Definition dirtyFingerprint : fingerprint := MkFP (-1) 0 0 0 0 0.

(** Whether a file's time is the one set, as a coarser file system stores it. *)
Definition ourTime (stored set : Z) : bool := let d := set - stored in (0 <=? d) && (d <? 1000000000).

Definition upd_fs (g : folder -> folder) (tr : treeRoot) : treeRoot := set_fs tr (g (tr_fs tr)).

(** What an apply takes from outside. *)
Record applyEnv := MkApplyEnv {
  ev_content : option (Op -> Z -> result terr (result terr string));   (* the open, then the read; None is a nil ContentFunc *)
  ev_others : nat -> treeRoot -> treeRoot;
  ev_space : option (Z * Z);                  (* the disk's total and free bytes *)
  ev_rands : list Z;                          (* for temp names *)
  ev_short : nat;                             (* what of a failed append reached the file *)
  ev_afterWrite : string -> option terr       (* the tests' seam; None else *)
}.

Section apply.
Context (cfg : treeConf) `{C : !journal_codec treeRecord} (Error : terr -> string) (check_text : check_error -> string) (ev : applyEnv).

(** ** Looking *)

Definition unchanged (p : string) (at_ : local) : option terr :=
  match lc_rec at_ with
  | None => if lc_exists at_ then Some (LocalChange p) else None
  | Some (_, r) =>
      if rc_Sent r then Some (LocalChange p)
      else if Live (rc_Entry r) then
        match lc_info at_ with
        | Some n => if bool_decide (fingerprintOf n = rc_FP r) then None else Some (LocalChange p)
        | None => Some (LocalChange p)
        end
      else if lc_exists at_ then Some (LocalChange p) else None
  end.

Definition look (p : string) (tr : treeRoot) : local * option terr :=
  match Lstat (tr_fs tr) p with
  | Ok n => let at_ := MkLocal (tr_records tr !! p) (Some n) in (at_, unchanged p at_)
  | Err e => let at_ := MkLocal (tr_records tr !! p) None in
             if cannotExist_err (fe_err e) then (at_, unchanged p at_) else (at_, Some (FsE e))
  end.

Definition still (p : string) (at_ : local) (tr : treeRoot) : option terr :=
  if negb (same_record (tr_records tr !! p) (lc_rec at_)) then Some (LocalChange p)
  else match Lstat (tr_fs tr) p with
       | Err e => if cannotExist_err (fe_err e) then (if lc_exists at_ then Some (LocalChange p) else None) else Some (FsE e)
       | Ok n => match lc_info at_ with
                 | Some m => if bool_decide (fingerprintOf n = fingerprintOf m) then None else Some (LocalChange p)
                 | None => Some (LocalChange p)
                 end
       end.

(** ** Recording *)

Definition recordOp (op : Op) (info : node) (tr : treeRoot) : option terr * treeRoot :=
  if negb (Live (o_entry op)) then tree_commit (dropRecord (o_path op) tr)
  else tree_commit (putRecord (o_path op) (MkRec (o_rev op) (o_entry op) (fingerprintOf info) false false) tr).

Definition recordNow (op : Op) (tr : treeRoot) : option terr * treeRoot :=
  match ev_afterWrite ev (o_path op) with
  | Some e => (Some e, tr)
  | None =>
      if negb (Live (o_entry op)) then tree_commit (dropRecord (o_path op) tr)
      else match Lstat (tr_fs tr) (o_path op) with
           | Err e => (Some (FsE e), tr)
           | Ok n => recordOp op n tr
           end
  end.

(** The sixth stretch is no free one: other writers of the folder act between the
    write and the look that records it. *)
Definition recordWritten (op : Op) (tr : treeRoot) : option terr * treeRoot :=
  match ev_afterWrite ev (o_path op) with
  | Some e => (Some e, tr)
  | None =>
      let tr := ev_others ev 6 tr in
      match Lstat (tr_fs tr) (o_path op) with
      | Err e => (Some (FsE e), tr)
      | Ok n =>
          let fp := if negb (Size n =? esize (o_entry op)) || negb (ourTime (nd_mtime n) (emtime (o_entry op)))
                    then dirtyFingerprint else fingerprintOf n in
          tree_commit (putRecord (o_path op) (MkRec (o_rev op) (o_entry op) fp false false) tr)
      end
  end.

(** ** Clearing a path *)

(** What the walk of a folder to be removed finds: an error that stops the removal. *)
Definition clear_fn (p : string) (err : ferr) (s : option ferr) (name : string) (n : option node) (werr : option ferr) : option ferr * walk_ctl :=
  match werr with
  | Some e => (Some e, SkipAll)
  | None =>
      if String.eqb name p || negb (synced cfg name)
      then (s, if negb (String.eqb name p) && match n with Some n => IsDir n | None => false end then SkipDir else Go)
      else (Some err, SkipAll)
  end.

Definition clear (p : string) (at_ : local) (tr : treeRoot) : option terr * treeRoot :=
  match lc_info at_ with
  | None => (None, tr)
  | Some info =>
      match Remove (tc_Reserved cfg) (tr_fs tr) p with
      | (None, f) => (None, set_fs tr f)
      | (Some e, f) =>
          let tr := set_fs tr f in
          if bool_decide (fe_err e = ErrNotExist) then (None, tr)
          else if negb (IsDir info) then (Some (FsE e), tr)
          else if existsb (fun skip => within skip p) (tc_Skip cfg) then (Some (FsE e), tr)
          else match WalkDir f (clear_fn p e) None p with
               | Some e' => (Some (FsE e'), tr)
               | None => let '(r, f) := RemoveAll (tc_Reserved cfg) f p in (FsE <$> r, set_fs tr f)
               end
      end
  end.

Definition remove (op : Op) (at_ : local) (tr : treeRoot) : option terr * treeRoot :=
  match clear (o_path op) at_ tr with
  | (Some e, tr) => (Some e, tr)
  | (None, tr) => recordNow op tr
  end.

(** ** Making folders and links *)

(** The folders above that are missing; an error for one the side deleted and has not reported. *)
Fixpoint missing_above (tr : treeRoot) (above : list string) : result terr (list string) :=
  match above with
  | [] => Ok []
  | a :: above =>
      let r := Lstat (tr_fs tr) a in
      let live := match rec_at tr a with Some rec => Live (rc_Entry rec) | None => false end in
      if live && negb (match r with Ok n => IsDir n | Err _ => false end) then Err (LocalChange a)
      else match missing_above tr above with
           | Err e => Err e
           | Ok rest => Ok (if cannotExist r then a :: rest else rest)
           end
  end.

Fixpoint record_made (missing : list string) (tr : treeRoot) : option terr * treeRoot :=
  match missing with
  | [] => (None, tr)
  | a :: rest =>
      if negb (synced cfg a) then record_made rest tr
      else match Lstat (tr_fs tr) a with
           | Err e => (Some (FsE e), tr)
           | Ok n => record_made rest (putRecord a (MkRec 0 (entry_of Dir (fileMode Dir (Mode n))) (fingerprintOf n) false true) tr)
           end
  end.

Definition mkdirParents (p : string) (tr : treeRoot) : option terr * treeRoot :=
  let up := path_Dir p in
  if String.eqb up "." then (None, tr)
  else if match Lstat (tr_fs tr) up with Ok n => IsDir n | Err _ => false end then (None, tr)
  else match missing_above tr (ancestors up ++ [up]) with
       | Err e => (Some e, tr)
       | Ok missing =>
           match MkdirAll (tr_fs tr) up 493 with
           | (Some e, f) => (Some (FsE e), set_fs tr f)
           | (None, f) => record_made missing (set_fs tr f)
           end
       end.

Definition makeDir (op : Op) (at_ : local) (tr : treeRoot) : option terr * treeRoot :=
  let mode := fileMode Dir (emode (o_entry op)) in
  if match lc_info at_ with Some info => IsDir info | None => false end then
    if match lc_info at_ with Some info => fileMode Dir (Mode info) =? mode | None => false end then recordNow op tr
    else match Chmod (tr_fs tr) (o_path op) mode with
         | (Some e, f) => (Some (FsE e), set_fs tr f)
         | (None, f) => recordNow op (set_fs tr f)
         end
  else
    match clear (o_path op) at_ tr with
    | (Some e, tr) => (Some e, tr)
    | (None, tr) =>
        match mkdirParents (o_path op) tr with
        | (Some e, tr) => (Some e, tr)
        | (None, tr) =>
            match Mkdir (tr_fs tr) (o_path op) mode with
            | (Some e, f) => (Some (FsE e), set_fs tr f)
            | (None, f) =>
                match Chmod f (o_path op) mode with
                | (Some e, f) => (Some (FsE e), set_fs tr f)
                | (None, f) => recordNow op (set_fs tr f)
                end
            end
        end
    end.

Definition makeLink (op : Op) (at_ : local) (tr : treeRoot) : option terr * treeRoot :=
  if match lc_info at_ with Some info => IsLink info | None => false end &&
     match Readlink (tr_fs tr) (o_path op) with Ok t => String.eqb t (etarget (o_entry op)) | Err _ => false end
  then recordNow op tr
  else
    match clear (o_path op) at_ tr with
    | (Some e, tr) => (Some e, tr)
    | (None, tr) =>
        match mkdirParents (o_path op) tr with
        | (Some e, tr) => (Some e, tr)
        | (None, tr) =>
            match Symlink_ (tc_Reserved cfg) (tr_fs tr) (etarget (o_entry op)) (o_path op) with
            | (Some e, f) => (Some (FsE e), set_fs tr f)
            | (None, f) => recordNow op (set_fs tr f)
            end
        end
    end.

(** ** Writing files *)

Definition room (need : Z) : option terr :=
  if need <=? 0 then None
  else match ev_space ev with
       | None => None
       | Some (total, free) =>
           if total <=? 0 then None
           else if wrap64 (free - need) <? tc_keep cfg total then Some NoSpaceE else None
       end.

(** The verifier's answer to the whole content. *)
Definition verified (op : Op) (data : string) : result terr string :=
  if (Z.of_nat (String.length data) =? esize (o_entry op)) && String.eqb (hashOf data) (ehash (o_entry op)) then Ok data else Err (SyncE ErrStale).

(** Cuts a failed append's bytes off again, where it can. *)
Definition undoAppend (p : string) (info : node) (landed : Z) (tr : treeRoot) : treeRoot :=
  match Open (tr_fs tr) p with
  | Err _ => tr
  | Ok st =>
      if SameFile st info && (Size info <? Size st) && (Size st <=? Size info + landed) then
        match refused (tr_fs tr) CTruncate p with
        | Some _ => tr
        | None =>
            let data := match nd_body st with BFile d => d | _ => "" end in
            let tr := upd_fs (fun f => set_node f p (with_data st (truncate data (Z.to_nat (Size info))) (fo_clock f) (fo_clock f))) tr in
            match refused (tr_fs tr) CCloseCut p with
            | Some _ => tr
            | None => set_fs tr (Chtimes (tr_fs tr) p (nd_mtime info)).2
            end
        end
      else tr
  end.

(** The write of the suffix to the file [st], opened for appending: the file then,
    what of the suffix may be in it, and the error. *)
Definition append_bytes (p : string) (st : node) (suffix : string) (f : folder) : folder * Z * option ferr :=
  let data := match nd_body st with BFile d => d | _ => "" end in
  let wrote (s : string) := if String.eqb s "" then f else set_node f p (with_data st (data +:+ s) (fo_clock f) (fo_clock f)) in
  let part := take_bytes (ev_short ev) suffix in
  match refused f CWrite p with
  | Some e => (wrote part, Z.of_nat (String.length part), Some e)
  | None => match refused f CClose p with
            | Some e => (wrote part, Z.of_nat (String.length suffix), Some e)
            | None => (wrote suffix, 0, None)
            end
  end.

(** The steps with the lock held. *)
Definition append_locked (op : Op) (at_ : local) (info : node) (suffix : string) (tr : treeRoot) : option terr * treeRoot :=
  let p := o_path op in
  match still p at_ tr with
  | Some e => (Some e, tr)
  | None =>
      match Open (tr_fs tr) p with
      | Err e => (Some (FsE e), tr)
      | Ok st =>
          if negb (bool_decide (fingerprintOf st = fingerprintOf info)) then (Some (LocalChange p), tr)
          else
            let '(f, landed, err) := append_bytes p st suffix (tr_fs tr) in
            let tr := set_fs tr f in
            match err with
            | Some e => (Some (FsE e), if 0 <? landed then undoAppend p info landed tr else tr)
            | None =>
                let '(err, f) := if fileMode File (Mode info) =? emode (o_entry op) then (None, f) else Chmod f p (emode (o_entry op)) in
                match err with
                | Some e => (Some (FsE e), set_fs tr f)
                | None => match Chtimes f p (emtime (o_entry op)) with
                          | (Some e, f) => (Some (FsE e), set_fs tr f)
                          | (None, f) => recordWritten op (set_fs tr f)
                          end
                end
            end
      end
  end.

Definition appendFile (op : Op) (at_ : local) (info : node) (offset : Z) (content : Op -> Z -> result terr (result terr string)) (tr : treeRoot)
    : option terr * treeRoot :=
  let p := o_path op in
  let need := esize (o_entry op) - offset in
  match room need with
  | Some e => (Some e, tr)
  | None =>
      let r := content op offset in
      let tr := ev_others ev 2 tr in
      match r with
      | Err e | Ok (Err e) => (Some e, tr)
      | Ok (Ok all) =>
          let suffix := take_bytes (Z.to_nat (need + 1)) all in
          if negb (Z.of_nat (String.length suffix) =? need) then (Some NoAppend, tr)
          else
            match Open (tr_fs tr) p with
            | Err e => (Some (FsE e), tr)
            | Ok st =>
                if negb (bool_decide (fingerprintOf st = fingerprintOf info)) then (Some (LocalChange p), tr)
                else match refused (tr_fs tr) CRead p with
                     | Some e => (Some (FsE e), tr)
                     | None =>
                         let data := match nd_body st with BFile d => d | _ => "" end in
                         if Z.of_nat (String.length data) <? offset then (Some EndOfFile, tr)
                         else if negb (String.eqb (hashOf (take_bytes (Z.to_nat offset) data +:+ suffix)) (ehash (o_entry op))) then (Some NoAppend, tr)
                         else append_locked op at_ info suffix (ev_others ev 3 tr)
                     end
            end
      end
  end.

(** What must still hold just before the rename. *)
Definition replace_expect (op : Op) (at_ : local) (tr : treeRoot) (current : result ferr (option node)) : option terr :=
  if negb (same_record (tr_records tr !! o_path op) (lc_rec at_)) then Some (LocalChange (o_path op))
  else match current, lc_info at_ with
       | Err e, _ => Some (FsE e)
       | Ok None, None => None
       | Ok (Some n), Some m => if bool_decide (fingerprintOf n = fingerprintOf m) then None else Some (LocalChange (o_path op))
       | _, _ => Some (LocalChange (o_path op))
       end.

Definition replaceFile (op : Op) (at_ : local) (content : Op -> Z -> result terr (result terr string)) (tr : treeRoot) : option terr * treeRoot :=
  match room (esize (o_entry op)) with
  | Some e => (Some e, tr)
  | None =>
      let '(err, tr) := if lc_exists at_ then (None, tr) else mkdirParents (o_path op) (ev_others ev 5 tr) in
      match err with
      | Some e => (Some e, tr)
      | None =>
          let r := content op 0 in
          let tr := ev_others ev 0 tr in
          match r with
          | Err e => (Some e, tr)
          | Ok read =>
              let reading tr := (match read with Ok data => verified op data | Err e => Err e end, ev_others ev 1 tr) in
              match ReplaceFile tr_fs upd_fs FsE (tc_Reserved cfg) tr (o_path op) (ev_rands ev) reading
                      (emode (o_entry op)) (emtime (o_entry op)) (replace_expect op at_) with
              | (Err e, tr) => (Some e, tr)
              | (Ok _, tr) => recordWritten op tr
              end
          end
      end
  end.

Definition writeFile (op : Op) (at_ : local) (tr : treeRoot) : option terr * treeRoot :=
  match ev_content ev with
  | None => (Some (SyncE ErrNoSource), tr)
  | Some content =>
      let p := o_path op in
      if match lc_info at_ with Some n => IsDir n | None => false end then
        let tr := ev_others ev 4 tr in
        match still p at_ tr with
        | Some e => (Some e, tr)
        | None => match clear p at_ tr with
                  | (Some e, tr) => (Some e, tr)
                  | (None, tr) => replaceFile op (MkLocal (lc_rec at_) None) content tr
                  end
        end
      else
        match lc_info at_, lc_rec at_ with
        | Some info, Some (_, rec) =>
            let offset := extends (o_entry op) (rc_Entry rec) in
            if (0 <? offset) && (esize (o_entry op) - offset <=? maxAppend) then
              match appendFile op at_ info offset content tr with
              | (Some NoAppend, tr) => replaceFile op at_ content tr
              | r => r
              end
            else replaceFile op at_ content tr
        | _, _ => replaceFile op at_ content tr
        end
  end.

(** ** Applying *)

Definition applyReadOnly (op : Op) (tr : treeRoot) : (ResultStatus * string) * treeRoot :=
  let '(at_, err) := look (o_path op) tr in
  let held := MkRec (o_rev op) (if Live (o_entry op) then o_entry op else tombstone (o_entry op)) no_fingerprint false false in
  let instead := match tree_commit (putRecord (o_path op) held tr) with
                 | (Some e, tr) => (classify Error (Some e), tr)
                 | (None, tr) => ((Changed, "read-only on this side: its folder's state stands"), tr)
                 end in
  match err, lc_rec at_, lc_info at_ with
  | None, Some (_, r), Some info =>
      if Same (rc_Entry r) (o_entry op) then let '(e, tr) := recordOp op info tr in (classify Error e, tr) else instead
  | None, None, None => if Live (o_entry op) then instead else ((Applied, ""), tr)
  | _, _, _ => instead
  end.

Definition rev_text (rev : Z) : string := "the side holds rev " +:+ Itoa rev.

(** The rev the side holds, when it is newer than the op's. *)
Definition newer_rev (op : Op) (tr : treeRoot) : option Z :=
  match rec_at tr (o_path op) with
  | Some r => if o_rev op <? rc_Rev r then Some (rc_Rev r) else None
  | None => None
  end.

(** What is there, when the side holds the op's state already. *)
Definition already_there (op : Op) (at_ : local) : option node :=
  match lc_rec at_, lc_info at_ with
  | Some (_, r), Some info => if Same (rc_Entry r) (o_entry op) then Some info else None
  | _, _ => None
  end.

(** The op on what was found at its path. *)
Definition apply_at (op : Op) (at_ : local) (tr : treeRoot) : option terr * treeRoot :=
  match already_there op at_ with
  | Some info => recordOp op info tr
  | None =>
      if negb (lc_exists at_) && negb (Live (o_entry op)) then tree_commit (dropRecord (o_path op) tr)
      else match ekind (o_entry op) with
           | File => writeFile op at_ tr
           | Gone => remove op at_ tr
           | Dir => makeDir op at_ tr
           | _ => makeLink op at_ tr
           end
  end.

Definition apply (op : Op) (tr : treeRoot) : (ResultStatus * string) * treeRoot :=
  if negb (synced cfg (o_path op)) then ((Refused, "not synced on this side"), tr)
  else if tc_ReadOnly cfg then applyReadOnly op tr
  else match check (o_entry op) with
       | Some e => ((Refused, check_text e), tr)
       | None =>
           match newer_rev op tr with
           | Some rev => ((Stale, rev_text rev), tr)
           | None =>
               let '(at_, err) := look (o_path op) tr in
               match err with
               | Some e => (classify Error (Some e), tr)
               | None => let '(e, tr) := apply_at op at_ tr in (classify Error e, tr)
               end
           end
       end.
End apply.

(** ** Batches *)

Section batch.
Context (cfg : treeConf) `{C : !journal_codec treeRecord} (Error : terr -> string) (check_text : check_error -> string).
(** Each op has its own environment; [cancelled i] ends the context before the i-th op. *)
Context (envs : nat -> applyEnv) (cancelled : nat -> bool).

Definition result_of (op : Op) (r : ResultStatus * string) : Result :=
  let '(status, reason) := r in
  MkResult (o_path op) (o_rev op) status (if bool_decide (status = NoSpace) && String.eqb reason "" then tc_FullReason cfg else reason).

Fixpoint apply_ops (i : nat) (ops : list Op) (tr : treeRoot) : result terr (list Result) * treeRoot :=
  match ops with
  | [] => (Ok [], tr)
  | op :: ops =>
      if cancelled i then (Err Cancelled, tr)
      else
        let '(r, tr) := apply cfg Error check_text (envs i) op tr in
        match apply_ops (S i) ops tr with
        | (Err e, tr) => (Err e, tr)
        | (Ok rest, tr) => (Ok (result_of op r :: rest), tr)
        end
  end.

Definition Apply (b : Batch) (tr : treeRoot) : result terr (list Result) * treeRoot :=
  if tr_closed tr then (Err ClosedE, tr)
  else if negb (String.eqb (b_root b) (tc_Name cfg))
  then (Ok (map (fun op => MkResult (o_path op) (o_rev op) Refused "not a root of this side") (b_ops b)), tr)
  else if negb (tr_there tr) then (Err RootMoved, tr)
  else match adopt (b_epoch b) true tr with
       | (Some e, tr) => (Err e, tr)
       | (None, tr) => apply_ops 0 (b_ops b) tr
       end.
End batch.
