(* ===== verification/SideApplyLaws.v ===== *)
(** * What applying an op may change (internal/sharesync/apply.go)

    Every change an op makes to the folder, between two moments its root's lock
    is free, is at its own path, where it found what the hub had sent or nothing;
    or a folder made above it, or what a folder it removes held that is never
    synced. *)

From S2P Require Import Prelude GoStrings GoText Sha256 Entry Paths SyncPolicy Mergers Journal SafeFs SafeFsLaws SideTree SideApply.
Local Open Scope string_scope.
Local Open Scope Z_scope.
Local Open Scope list_scope.

(** ** Looking at a path *)

Lemma refused_honest f c p e : honest f -> refused f c p = Some e -> cannotExist_err (fe_err e) = false.
Proof. unfold refused. intros Hh. destruct (fo_fails f c p) as [e'|] eqn:E; [|done]. intros [= <-]. destruct (Hh _ _ _ E) as (? & ? & ? & ?). by destruct e'. Qed.

(** Nothing above an entry of a tree says it is not there. *)
Lemma parent_err f p n e : wf_folder f -> honest f -> fo_nodes f !! p = Some n -> parent f p = Some e -> cannotExist_err (fe_err e) = false.
Proof.
  intros Hwf Hh Hp. unfold parent. destruct (check_name p false) as [e'|] eqn:Ec.
  { unfold check_name in Ec. destruct (negb _ || _); [|done]. injection Ec as <-. by intros [= <-]. }
  apply check_name_false in Ec as [Hv Hd]. apply fs_ValidPath_elems in Hv; [|done]. unfold openDir. destruct (String.eqb_spec (path_Dir p) "."); [done|].
  assert (ancestors (path_Dir p) ++ [path_Dir p] = ancestors p) as -> by (by rewrite (ancestors_unfold p), (proj2 (String.eqb_neq _ _))).
  assert (forall a, a ∈ ancestors p -> exists d, fo_nodes f !! a = Some d /\ IsDir d = true) as Ha by (by eapply wf_ancestors).
  revert Ha. generalize (ancestors p) as ps. induction ps as [|a ps IH]; intros Ha; [done|]. simpl. destruct (Ha a) as (d & Hda & Hdd); [set_solver|].
  pose proof (openChild_same f a) as Hs. destruct (openChild f a false 0) as [[e'|] f'] eqn:Eo; simpl in *; subst f'; [|apply IH; set_solver].
  intros [= <-]. unfold openChild in Eo. destruct (lstat_at f a) as [d'|e1] eqn:El.
  - apply lstat_at_Ok in El as [Hd' _]. assert (d' = d) as -> by congruence. injection Eo as Eo. unfold openChildAs, IsDir in *. destruct (nd_body d); try done. by eapply refused_honest.
  - simpl in Eo. injection Eo as <-. unfold lstat_at in El. destruct (refused f CLstat a) eqn:Er; [injection El as <-; by eapply refused_honest|]. by rewrite Hda in El.
Qed.

Lemma Lstat_gone f p e : wf_folder f -> honest f -> p <> "." -> Lstat f p = Err e -> cannotExist_err (fe_err e) = true -> fo_nodes f !! p = None.
Proof.
  intros Hwf Hh Hd HL Hc. destruct (fo_nodes f !! p) as [n|] eqn:En; [|done]. exfalso. unfold Lstat in HL. unfold check_name in HL. destruct (negb _ || _); [by injection HL as <-|].
  rewrite (proj2 (String.eqb_neq p ".")) in HL by done. destruct (parent f p) as [e'|] eqn:Ep; [injection HL as <-; by rewrite (parent_err _ _ _ _ Hwf Hh En Ep) in Hc|].
  unfold lstat_at in HL. destruct (refused f CLstat p) eqn:Er; [injection HL as <-; by rewrite (refused_honest _ _ _ _ Hh Er) in Hc|]. by rewrite En in HL.
Qed.

Lemma synced_valid cfg p : synced cfg p = true -> validPath p = true.
Proof. unfold synced. intros H. by bool_hyps. Qed.

Lemma synced_elems cfg p : synced cfg p = true -> valid_elems p = true.
Proof. intros H%synced_valid. by apply validPath_elems. Qed.

Section laws.
Context (cfg : treeConf) `{C : !journal_codec treeRecord}.

(** Something below [p] that is not synced, or in a folder that is not. *)
Definition hidden (p q : string) : Prop := exists a, below a p /\ within q a = true /\ synced cfg a = false.

(** The folder after some calls on behalf of an op on [p]. *)
Record fs_step (p : string) (f f' : folder) : Prop := {
  st_changed q : fo_nodes f' !! q <> fo_nodes f !! q ->
    q = p \/ temp_beside p q \/ hidden p q \/ (q ∈ ancestors p /\ fo_nodes f !! q = None /\ is_Some (fo_nodes f' !! q));
  st_wf : wf_folder f -> wf_folder f';
  st_fails : fo_fails f' = fo_fails f
}.

Lemma fs_step_refl p f : fs_step p f f.
Proof. by constructor. Qed.

Lemma fs_step_trans p f f1 f2 : fs_step p f f1 -> fs_step p f1 f2 -> fs_step p f f2.
Proof.
  intros [H1 W1 F1] [H2 W2 F2]. constructor; [|auto|congruence]. intros q Hq. destruct (decide (fo_nodes f1 !! q = fo_nodes f !! q)) as [E|Hne].
  - rewrite <- E in Hq. destruct (H2 q Hq) as [?|[?|[?|(? & ? & ?)]]]; [tauto..|]. do 3 right. rewrite <- E. tauto.
  - destruct (H1 q Hne) as [?|[?|[?|(Ha & Hn & Hs)]]]; [tauto..|]. destruct (decide (fo_nodes f2 !! q = fo_nodes f1 !! q)) as [E2|Hne2].
    + do 3 right. rewrite E2. tauto.
    + destruct (H2 q Hne2) as [?|[?|[?|(_ & Hn2 & _)]]]; [tauto..|]. rewrite Hn2 in Hs. by destruct Hs.
Qed.

Lemma fs_step_at p f f' : (forall q, q <> p -> fo_nodes f' !! q = fo_nodes f !! q) -> (wf_folder f -> wf_folder f') -> fo_fails f' = fo_fails f -> fs_step p f f'.
Proof. intros H1 H2 H3. constructor; [|done|done]. intros q Hq. left. destruct (decide (q = p)) as [->|Hne]; [done|]. by apply H1 in Hne. Qed.

(** What each call on [p] itself does. *)
Lemma Mkdir_step p f perm : fs_step p f (Mkdir f p perm).2.
Proof.
  apply fs_step_at; [..|intros Hwf; by eapply (wf_op []), op_Mkdir|]; unfold Mkdir, mkdir_at; destruct (parent f p); try done; destruct (refused f CMkdir p); try done; destruct (fo_nodes f !! p); try done.
  intros q Hq. simpl. by rewrite lookup_insert_ne.
Qed.

Lemma Remove_step p f reserved : fs_step p f (Remove reserved f p).2.
Proof.
  apply fs_step_at; [..|intros Hwf; by eapply (wf_op reserved), op_Remove|]; unfold Remove; destruct (guardReserved reserved f p); try done; destruct (parent f p); try done;
    destruct (refused f CRemove p); try done; destruct (fo_nodes f !! p); try done; destruct (IsDir n && _); try done.
  intros q Hq. simpl. by rewrite lookup_delete_ne.
Qed.

Lemma Symlink_step p f reserved target : fs_step p f (Symlink_ reserved f target p).2.
Proof.
  apply fs_step_at; [..|intros Hwf; by eapply (wf_op reserved), op_Symlink|]; unfold Symlink_; destruct (checkReserved reserved p); try done; destruct (parent f p); try done;
    destruct (refused f CSymlink p); try done; destruct (fo_nodes f !! p); try done.
  intros q Hq. simpl. by rewrite lookup_insert_ne.
Qed.

Lemma Chmod_step p f mode : fs_step p f (Chmod f p mode).2.
Proof.
  apply fs_step_at; [..|intros Hwf; by eapply (wf_op []), op_Chmod|]; unfold Chmod; destruct (parent f p); try done; destruct (lstatNoLink f p); try done; destruct (refused f CChmod p); try done.
  intros q Hq. simpl. by rewrite lookup_insert_ne.
Qed.

Lemma Chtimes_step p f mtime : fs_step p f (Chtimes f p mtime).2.
Proof.
  apply fs_step_at; [..|intros Hwf; by eapply (wf_op []), op_Chtimes|]; unfold Chtimes; destruct (parent f p); try done; destruct (lstatNoLink f p); try done; destruct (refused f CChtimes p); try done.
  intros q Hq. simpl. by rewrite lookup_insert_ne.
Qed.

Lemma makes_fails reserved name f f' : rtc (fs_make reserved name) f f' -> fo_fails f' = fo_fails f.
Proof. induction 1 as [|f f1 f' Hm _ IH]; [done|]. rewrite IH. by destruct Hm. Qed.

Lemma openChild_other f p create perm q : q <> p -> fo_nodes (openChild f p create perm).2 !! q = fo_nodes f !! q.
Proof.
  intros Hq. assert (fo_nodes (mkdir_at f p perm).2 !! q = fo_nodes f !! q) as Hm.
  { unfold mkdir_at. destruct (refused f CMkdir p); [done|]. destruct (fo_nodes f !! p); [done|]. simpl. by rewrite lookup_insert_ne. }
  unfold openChild. destruct (lstat_at f p) as [n|e]; [done|]. destruct (create && _); [|done]. destruct (mkdir_at f p perm) as [[e'|] f']; simpl in *.
  - destruct (bool_decide _); [|done]. by destruct (lstat_at f' p).
  - by destruct (lstat_at f' p).
Qed.

Lemma open_path_other ps create perm q : forall f, q ∉ ps -> fo_nodes (open_path f ps create perm).2 !! q = fo_nodes f !! q.
Proof.
  induction ps as [|p ps IH]; intros f Hq; [done|]. simpl. apply not_elem_of_cons in Hq as [Hp Hq]. pose proof (openChild_other f p create perm q Hp) as Hc.
  destruct (openChild f p create perm) as [[e|] f']; simpl in *; [done|]. by rewrite IH.
Qed.

Lemma MkdirAll_step p f perm : valid_elems p = true -> path_Dir p <> "." -> fs_step p f (MkdirAll f (path_Dir p) perm).2.
Proof.
  intros Hv Hd. unfold MkdirAll. destruct (check_name (path_Dir p) true) eqn:Ec; [apply fs_step_refl|]. unfold openDir. rewrite (proj2 (String.eqb_neq _ _)) by done.
  destruct (path_Dir_cases p Hv) as [?|(Hv' & _ & _)]; [done|].
  assert (rtc (fs_make [] (path_Dir p)) f (open_path f (ancestors (path_Dir p) ++ [path_Dir p]) true perm).2) as Hr.
  { apply open_path_change with (pre := []); [done|done|by intros ? ?%elem_of_nil]. }
  set (f' := (open_path f (ancestors (path_Dir p) ++ [path_Dir p]) true perm).2) in *. constructor.
  - intros q Hq. do 3 right. assert (q ∈ ancestors p /\ fo_nodes f !! q = None) as [H1 H2].
    { destruct (fo_nodes f !! q) as [n|] eqn:Eq; [by rewrite (makes_keep _ _ _ _ Hr q n Eq) in Hq|]. split; [|done].
      destruct (decide (q ∈ ancestors p)) as [|Hn]; [done|]. rewrite ancestors_unfold, (proj2 (String.eqb_neq _ _)) in Hn by done.
      exfalso. apply Hq. unfold f'. by rewrite open_path_other. }
    split_and!; [done|done|]. destruct (fo_nodes f' !! q); [by eexists|congruence].
  - by eapply wf_makes.
  - by eapply makes_fails.
Qed.

(** What a folder's removal takes with it: nothing synced. *)
Lemma clear_walk f p e n : wf_folder f -> honest f -> fo_nodes f !! p = Some n -> WalkDir f (clear_fn cfg p e) None p = None ->
  forall q m, fo_nodes f !! q = Some m -> below q p -> hidden p q.
Proof.
  intros Hwf Hh Hp Hw q m Hq Hb. pose proof (wf_name _ Hwf _ _ Hp) as Hvp.
  enough (is_Some (WalkDir f (clear_fn cfg p e) None p) \/ q = p \/ hidden p q \/ ~ below q p) as [[? Hs]|[->|[?|?]]]; [congruence|by apply below_irrefl in Hb|done|done|].
  apply (WalkDir_settles f (clear_fn cfg p e) p (fun q s => is_Some s \/ q = p \/ hidden p q \/ ~ below q p)) with (m := m); try done.
  - intros s a b err q' [Hs|?]; [left|by right]. unfold clear_fn. destruct err; [by eexists|]. by destruct (String.eqb a p || negb (synced cfg a)); [|eexists].
  - intros s q' m' Hq'. unfold clear_fn. destruct (String.eqb_spec q' p); [by right; left|]. simpl. destruct (synced cfg q') eqn:Es; [left; by eexists|]. right; right.
    destruct (decide (HasPrefix q' (p +:+ "/") = true)) as [H|H]; [left|right; by rewrite <- HasPrefix_below]. exists q'. rewrite HasPrefix_below in H. split_and!; [done|apply within_refl|done].
  - intros s a m' q' Hin. unfold clear_fn. destruct (String.eqb_spec a p) as [->|Ha]; [done|]. simpl. destruct (synced cfg a) eqn:Es; [done|]. intros _ Hq'. right; right; left. exists a.
    apply within_spec in Hin as [->|[->|?]]; [by apply valid_elems_not_dot in Hvp|done|done].
  - intros s a m' err q' _ _. simpl. left. by eexists.
  - intros s a m' [err|] q'; simpl; [left; by eexists|]. destruct (String.eqb a p || negb (synced cfg a)); [by destruct (negb _ && _)|]. left. by eexists.
  - intros s a m' Hd. simpl. destruct (String.eqb a p || negb (synced cfg a)); [|done]. rewrite Hd, andb_false_r. done.
  - intros s a err q' m' _ _ _. simpl. left. by eexists.
  - intros s n'. right; right; right. intros [r Hr]. destruct p; [done|]. by destruct p.
  - apply within_spec. by right; right.
Qed.

Lemma RemoveAll_step p f reserved : wf_folder f -> (forall q m, fo_nodes f !! q = Some m -> below q p -> hidden p q) -> p <> "." -> fs_step p f (RemoveAll reserved f p).2.
Proof.
  intros Hwf Hh Hd. constructor; [|intros _; by eapply (wf_op reserved), op_RemoveAll|]; unfold RemoveAll; destruct (guardReserved reserved f p); try done;
    destruct (parent f p); try (by case_bool_decide); [|by destruct (stuck f p p)].
  assert (forall q, filter (fun kn : string * node => within kn.1 p = false \/ stuck f p kn.1 = true) (fo_nodes f) !! q <> fo_nodes f !! q ->
    q = p \/ hidden p q) as H; [|intros q Hq; specialize (H q); destruct (stuck f p p); simpl in Hq; specialize (H Hq); tauto].
  intros q Hq. destruct (fo_nodes f !! q) as [m|] eqn:Em; [|by rewrite map_lookup_filter, Em in Hq].
  destruct (within q p) eqn:Ew; [|destruct Hq; apply map_lookup_filter_Some; by auto]. apply within_spec in Ew as [?|[?|?]]; [done|by left|]. right. eauto.
Qed.

Lemma clear_step p at_ tr n : wf_folder (tr_fs tr) -> honest (tr_fs tr) -> fo_nodes (tr_fs tr) !! p = Some n ->
  let '(r, tr') := clear cfg p at_ tr in
  tr' = set_fs tr (tr_fs tr') /\ fs_step p (tr_fs tr) (tr_fs tr') /\ (r = None -> lc_exists at_ = true -> fo_nodes (tr_fs tr') !! p = None).
Proof.
  intros Hwf Hh Hp. assert (p <> ".") as Hd by (by eapply valid_elems_not_dot, wf_name). unfold clear, lc_exists. destruct (lc_info at_) as [info|].
  2: { split_and!; [by destruct tr|apply fs_step_refl|done]. }
  pose proof (Remove_step p (tr_fs tr) (tc_Reserved cfg)) as Hs. destruct (Remove (tc_Reserved cfg) (tr_fs tr) p) as [[e|] f] eqn:ER; simpl in Hs.
  - assert (f = tr_fs tr) as ->.
    { unfold Remove in ER. destruct (guardReserved _ _ _); [by injection ER|]. destruct (parent _ _); [by injection ER|]. destruct (refused _ _ _); [by injection ER|]. rewrite Hp in ER. by destruct (IsDir n && _); injection ER. }
    case_bool_decide as Ee.
    { exfalso. unfold Remove in ER. destruct (guardReserved _ _ _) as [e1|] eqn:Eg.
      { injection ER as ->. unfold guardReserved in Eg. destruct (check_name p false) as [e1|] eqn:Ec; [unfold check_name in Ec; destruct (negb _ || _); [|done]; injection Ec as <-; by injection Eg as <-|].
        unfold checkReserved in Eg. destruct (existsb _ _); [by injection Eg as <-|]. destruct (Lstat _ _); [|done]. destruct (existsb _ _); [by injection Eg as <-|done]. }
      destruct (parent _ _) as [e1|] eqn:Ep; [injection ER as ->; pose proof (parent_err _ _ _ _ Hwf Hh Hp Ep) as Hx; by rewrite Ee in Hx|].
      destruct (refused _ _ _) as [e1|] eqn:Er; [injection ER as ->; pose proof (refused_honest _ _ _ _ Hh Er) as Hx; by rewrite Ee in Hx|].
      rewrite Hp in ER. destruct (IsDir n && _); [by injection ER as <-|done]. }
    destruct (negb (IsDir info)); [split_and!; [by destruct tr|apply fs_step_refl|done]|].
    destruct (existsb _ _); [split_and!; [by destruct tr|apply fs_step_refl|done]|].
    destruct (WalkDir _ _ _ _) as [e'|] eqn:Ew; [split_and!; [by destruct tr|apply fs_step_refl|done]|].
    pose proof (RemoveAll_step p (tr_fs tr) (tc_Reserved cfg) Hwf (clear_walk _ _ _ _ Hwf Hh Hp Ew) Hd) as HR.
    destruct (RemoveAll (tc_Reserved cfg) (tr_fs tr) p) as [r f] eqn:ERA; simpl in HR. split_and!; [done|done|]. intros Hr _. destruct r; [done|]. simpl.
    unfold RemoveAll in ERA. destruct (guardReserved _ _ _); [done|]. destruct (parent _ _) as [e1|] eqn:Ep.
    + case_bool_decide as Ee1; [|done]. pose proof (parent_err _ _ _ _ Hwf Hh Hp Ep) as Hx. by rewrite Ee1 in Hx.
    + destruct (stuck (tr_fs tr) p p) eqn:Es; [done|]. injection ERA as <-. simpl. apply map_lookup_filter_None. right. intros m _ [Hw|Hst]; simpl in *; [by rewrite within_refl in Hw|congruence].
  - split_and!; [done|done|]. intros _ _. simpl. unfold Remove in ER. destruct (guardReserved _ _ _); [done|]. destruct (parent _ _); [done|]. destruct (refused _ _ _); [done|]. rewrite Hp in ER.
    destruct (IsDir n && _); [done|]. injection ER as <-. simpl. apply lookup_delete_eq.
Qed.

(** ** Steps of a root *)

(** Records with an identity given out before are the records that had it. *)
Record later (a b : treeRoot) : Prop := {
  la_next : tr_next a <= tr_next b;
  la_records q i r : tr_records b !! q = Some (i, r) -> i < tr_next a -> tr_records a !! q = Some (i, r)
}.

Lemma later_refl a : later a a.
Proof. by constructor. Qed.
Lemma later_trans a b c : later a b -> later b c -> later a c.
Proof. intros [N1 R1] [N2 R2]. constructor; [lia|]. intros q i r Hq Hi. apply R1; [|done]. apply R2; [done|lia]. Qed.

Definition not_live (o : option record) : Prop := match o with Some r => Live (rc_Entry r) = false | None => True end.

(** What an op on [p] does to its root with the lock held. *)
Record own_step (p : string) (a b : treeRoot) : Prop := {
  os_fs : fs_step p (tr_fs a) (tr_fs b);
  os_records q : tr_records b !! q <> tr_records a !! q ->
    q = p \/ (q ∈ ancestors p /\ not_live (rec_at a q) /\ exists i r, tr_records b !! q = Some (i, r) /\ Live (rc_Entry r) = true);
  os_later : later a b;
  os_rest : tr_epoch b = tr_epoch a /\ tr_there b = tr_there a /\ tr_closed b = tr_closed a
}.

Lemma own_step_refl p a : own_step p a a.
Proof. constructor; [apply fs_step_refl|done|apply later_refl|done]. Qed.

Lemma own_step_trans p a b c : own_step p a b -> own_step p b c -> own_step p a c.
Proof.
  intros [F1 R1 L1 E1] [F2 R2 L2 E2]. constructor; [by eapply fs_step_trans| |by eapply later_trans|split_and!; etrans; [apply E2|apply E1|apply E2|apply E1|apply E2|apply E1]].
  intros q Hq. destruct (decide (tr_records b !! q = tr_records a !! q)) as [E|Hne].
  - rewrite <- E in Hq. destruct (R2 q Hq) as [?|(Ha & Hn & Hl)]; [by left|right]. split_and!; [done| |done]. unfold rec_at in *. by rewrite <- E.
  - destruct (R1 q Hne) as [?|(Ha & Hn & i & r & Hb & Hl)]; [by left|].
    destruct (decide (tr_records c !! q = tr_records b !! q)) as [E2'|Hne2]; [right; split_and!; [done..|]; exists i, r; by rewrite E2'|].
    destruct (R2 q Hne2) as [?|(_ & Hn2 & _)]; [by left|]. unfold rec_at in Hn2. rewrite Hb in Hn2. simpl in Hn2. congruence.
Qed.

Lemma set_fs_step p a f : fs_step p (tr_fs a) f -> own_step p a (set_fs a f).
Proof. intros H. by constructor. Qed.

Lemma tree_commit_journal tr : exists j d, (tree_commit tr).2 = set_tree_journal tr j d.
Proof.
  unfold tree_commit. destruct (tr_closed tr); [exists (tr_journal tr), (tr_disk tr); by destruct tr|]. destruct (commit _ _) as [[[e|] j] d]; [by eexists _, _|].
  destruct (due _ _); [|by eexists _, _]. unfold tree_compact. destruct (compact _ _ _) as [[e j'] d']. by eexists _, _.
Qed.

Lemma commit_step p tr : own_step p tr (tree_commit tr).2.
Proof. destruct (tree_commit_journal tr) as (j & d & ->). constructor; [apply fs_step_refl|done|by constructor|done]. Qed.

Lemma putRecord_step p rec tr : own_step p tr (putRecord p rec tr).
Proof.
  constructor; [apply fs_step_refl| |constructor; simpl; [lia|]|done].
  - intros q Hq. left. destruct (decide (q = p)); [done|]. simpl in Hq. by rewrite lookup_insert_ne in Hq.
  - intros q i r [[<- [= <- <-]]|[_ ?]]%lookup_insert_Some; [lia|done].
Qed.

Lemma dropRecord_step p tr : own_step p tr (dropRecord p tr).
Proof.
  unfold dropRecord. destruct (tr_records tr !! p); [|apply own_step_refl]. constructor; [apply fs_step_refl| |constructor; simpl; [lia|]|done].
  - intros q Hq. left. destruct (decide (q = p)); [done|]. simpl in Hq. by rewrite lookup_delete_ne in Hq.
  - intros q i r [_ ?]%lookup_delete_Some. done.
Qed.

Hint Resolve own_step_refl commit_step putRecord_step dropRecord_step set_fs_step : fleet.

Lemma put_commit_step p rec tr : own_step p tr (tree_commit (putRecord p rec tr)).2.
Proof. eapply own_step_trans; [apply putRecord_step|apply commit_step]. Qed.
Lemma drop_commit_step p tr : own_step p tr (tree_commit (dropRecord p tr)).2.
Proof. eapply own_step_trans; [apply dropRecord_step|apply commit_step]. Qed.
Hint Resolve put_commit_step drop_commit_step : fleet.

Context (ev : applyEnv).

Lemma recordOp_step op info tr : own_step (o_path op) tr (recordOp op info tr).2.
Proof. unfold recordOp. destruct (negb _); auto with fleet. Qed.

Lemma recordNow_step op tr : own_step (o_path op) tr (recordNow ev op tr).2.
Proof.
  unfold recordNow. destruct (ev_afterWrite ev (o_path op)); [simpl; auto with fleet|]. destruct (negb _); [auto with fleet|]. destruct (Lstat _ _); [apply recordOp_step|simpl; auto with fleet].
Qed.

Hint Resolve recordOp_step recordNow_step : fleet.

(** *** Folders made above *)

Lemma missing_above_spec tr above missing : missing_above tr above = Ok missing ->
  forall a, a ∈ missing -> a ∈ above /\ not_live (rec_at tr a).
Proof.
  revert missing. induction above as [|a above IH]; intros missing; simpl; [intros [= <-] a Ha; by apply elem_of_nil in Ha|].
  destruct (_ && _) eqn:Ec; [done|]. destruct (missing_above tr above) as [rest|]; [|done]. intros [= <-] b Hb. specialize (IH rest eq_refl).
  destruct (cannotExist (Lstat (tr_fs tr) a)) eqn:Ecan; [|destruct (IH b Hb); set_solver]. apply elem_of_cons in Hb as [->|Hb]; [|destruct (IH b Hb); set_solver].
  split; [set_solver|]. destruct (rec_at tr a) as [r|]; [|done]. simpl. destruct (Live (rc_Entry r)); [|done]. simpl in Ec. destruct (Lstat (tr_fs tr) a); [done|]. done.
Qed.

Lemma record_made_step p missing : (forall a, a ∈ missing -> a ∈ ancestors p) -> forall tr,
  (forall a, a ∈ missing -> not_live (rec_at tr a) \/ exists i r, tr_records tr !! a = Some (i, r) /\ Live (rc_Entry r) = true) ->
  let tr' := (record_made cfg missing tr).2 in
  tr_fs tr' = tr_fs tr /\ later tr tr' /\ (tr_epoch tr' = tr_epoch tr /\ tr_there tr' = tr_there tr /\ tr_closed tr' = tr_closed tr) /\
  (forall q, tr_records tr' !! q <> tr_records tr !! q -> q ∈ missing /\ exists i r, tr_records tr' !! q = Some (i, r) /\ Live (rc_Entry r) = true).
Proof.
  intros Hm. induction missing as [|a rest IH]; intros tr Hn; cbv zeta; simpl.
  { by split_and!. }
  specialize (IH ltac:(set_solver)). destruct (negb (synced cfg a)).
  { destruct (IH tr ltac:(set_solver)) as (I1 & I2 & I3 & I4). split_and!; try apply I3; try done. intros q Hq. destruct (I4 q Hq). split; [set_solver|done]. }
  destruct (Lstat (tr_fs tr) a) as [n|e]; [|by split_and!].
  set (tr1 := putRecord a _ tr). destruct (IH tr1) as (I1 & I2 & I3 & I4).
  { intros b Hb. destruct (decide (a = b)) as [<-|Hne].
    - right. unfold tr1. simpl. rewrite lookup_insert_eq. eexists _, _. split; [done|]. done.
    - destruct (Hn b ltac:(set_solver)) as [H|H]; [left; unfold rec_at, tr1 in *; simpl; by rewrite lookup_insert_ne|right; unfold tr1; simpl; by rewrite lookup_insert_ne]. }
  split_and!; [done| |apply I3|apply I3|apply I3|].
  - eapply later_trans; [|done]. apply (os_later _ _ _ (putRecord_step a _ tr)).
  - intros q Hq. destruct (decide (tr_records (record_made cfg rest tr1).2 !! q = tr_records tr1 !! q)) as [E|Hne]; [|destruct (I4 q Hne); split; [set_solver|done]].
    rewrite E in Hq |- *. unfold tr1 in *. simpl in *. destruct (decide (a = q)) as [<-|]; [|by rewrite lookup_insert_ne in Hq]. rewrite lookup_insert_eq. split; [set_solver|]. by eexists _, _.
Qed.

Lemma mkdirParents_step p tr : valid_elems p = true -> own_step p tr (mkdirParents cfg p tr).2.
Proof.
  intros Hv. unfold mkdirParents. destruct (String.eqb_spec (path_Dir p) ".") as [|Hd]; [simpl; auto with fleet|].
  destruct (match Lstat _ _ with Ok n => IsDir n | Err _ => false end); [simpl; auto with fleet|].
  destruct (missing_above tr (ancestors (path_Dir p) ++ [path_Dir p])) as [missing|e] eqn:Em; [|simpl; auto with fleet].
  pose proof (MkdirAll_step p (tr_fs tr) 493 Hv Hd) as Hmk. destruct (MkdirAll (tr_fs tr) (path_Dir p) 493) as [[e|] f]; simpl in Hmk; [simpl; auto with fleet|].
  assert (ancestors p = ancestors (path_Dir p) ++ [path_Dir p]) as Ha by (by rewrite ancestors_unfold, (proj2 (String.eqb_neq _ _))).
  pose proof (missing_above_spec _ _ _ Em) as Hmiss. rewrite <- Ha in Hmiss.
  destruct (record_made_step p missing) with (tr := set_fs tr f) as (I1 & I2 & I3 & I4).
  { intros a H. by apply Hmiss. } { intros a H. left. by apply Hmiss. }
  constructor; [by rewrite I1| |destruct I2; by constructor|done]. intros q Hq. destruct (I4 q Hq) as [Hin ?]. right. destruct (Hmiss q Hin). split_and!; done.
Qed.

(** ** Runs of an op *)

(** What other operations and other writers may do while the lock is free: the
    folder stays a tree, no inode turns into a folder, and records are replaced,
    never changed. *)
Record honest_others (o : treeRoot -> treeRoot) : Prop := {
  ho_wf a : wf_folder (tr_fs a) -> wf_folder (tr_fs (o a));
  ho_honest a : honest (tr_fs a) -> honest (tr_fs (o a));
  ho_later a : later a (o a);
  ho_dirs a q m : fo_nodes (tr_fs (o a)) !! q = Some m -> IsDir m = true -> nd_ino m < fo_ino (tr_fs a) ->
    exists q' m', fo_nodes (tr_fs a) !! q' = Some m' /\ nd_ino m' = nd_ino m /\ IsDir m' = true
}.

(** What is at [p] is what the record there says, and the hub has seen it, at no newer rev than [rev]. *)
Definition seen (p : string) (rev : Z) (tr : treeRoot) : Prop :=
  match fo_nodes (tr_fs tr) !! p with
  | None => True
  | Some n => exists i r, tr_records tr !! p = Some (i, r) /\ rc_Sent r = false /\ Live (rc_Entry r) = true /\ rc_Rev r <= rev /\ rc_FP r = fingerprintOf n
  end.

(** A step of an op's run: the op's own, with the lock held, its path changed only
    where the hub has seen what it held; or another's. *)
Inductive apply_step (op : Op) (a : treeRoot) : treeRoot -> Prop :=
| as_own b : own_step (o_path op) a b ->
    (fo_nodes (tr_fs b) !! o_path op <> fo_nodes (tr_fs a) !! o_path op -> seen (o_path op) (o_rev op) a) ->
    apply_step op a b
| as_others n : apply_step op a (ev_others ev n a).

Hypothesis others_honest : forall n, honest_others (ev_others ev n).

Lemma step_later op a b : apply_step op a b -> later a b.
Proof. intros [b' H _|n]; [by apply os_later in H|apply ho_later, others_honest]. Qed.

Lemma steps_later op a b : rtc (apply_step op) a b -> later a b.
Proof. induction 1 as [|a b c H _ IH]; [apply later_refl|]. eapply later_trans; [by eapply step_later|done]. Qed.

Lemma own_honest p a b : own_step p a b -> honest (tr_fs a) -> honest (tr_fs b).
Proof. intros [F _ _ _] H c q e. rewrite (st_fails _ _ _ F). apply H. Qed.

Lemma step_good op a b : apply_step op a b -> wf_folder (tr_fs a) /\ honest (tr_fs a) -> wf_folder (tr_fs b) /\ honest (tr_fs b).
Proof.
  intros [b' H _|n] [Hw Hh].
  - split; [by apply (st_wf _ _ _ (os_fs _ _ _ H))|by eapply own_honest].
  - split; [by apply ho_wf|by apply ho_honest].
Qed.

Lemma steps_good op a b : rtc (apply_step op) a b -> wf_folder (tr_fs a) /\ honest (tr_fs a) -> wf_folder (tr_fs b) /\ honest (tr_fs b).
Proof. induction 1 as [|a b c H _ IH]; [done|]. intros Hg. apply IH. by eapply step_good. Qed.

Lemma own_seen op a b : own_step (o_path op) a b -> seen (o_path op) (o_rev op) a -> rtc (apply_step op) a b.
Proof. intros H Hs. apply rtc_once. by apply as_own. Qed.

(** *** The look *)

Definition found (p : string) (rev : Z) (at_ : local) (tr : treeRoot) : Prop :=
  lc_rec at_ = tr_records tr !! p /\ lc_info at_ = fo_nodes (tr_fs tr) !! p /\ seen p rev tr.

Lemma look_found op tr at_ : wf_folder (tr_fs tr) -> honest (tr_fs tr) -> o_path op <> "." -> newer_rev op tr = None ->
  look (o_path op) tr = (at_, None) -> found (o_path op) (o_rev op) at_ tr.
Proof.
  intros Hwf Hh Hd Hn. unfold look. set (p := o_path op) in *. destruct (Lstat (tr_fs tr) p) as [n|e] eqn:El.
  - destruct (Lstat_Ok _ _ _ El) as [[? _]|(Hp & _)]; [done|]. intros [= <- Hu]. split_and!; [done|done|]. unfold seen. rewrite Hp.
    unfold unchanged in Hu. simpl in Hu. unfold newer_rev, rec_at in Hn. fold p in Hn. destruct (tr_records tr !! p) as [[i r]|]; [|done]. simpl in *. exists i, r.
    destruct (rc_Sent r); [done|]. destruct (Live (rc_Entry r)); [|done]. case_bool_decide; [|done]. destruct (Z.ltb_spec (o_rev op) (rc_Rev r)); [done|]. split_and!; done || lia.
  - destruct (cannotExist_err (fe_err e)) eqn:Ec; [|done]. intros [= <- Hu]. pose proof (Lstat_gone _ _ _ Hwf Hh Hd El Ec) as Hp. split_and!; [done|by rewrite Hp|]. unfold seen. by rewrite Hp.
Qed.

(** Still there, with the same record: still seen. *)
Lemma still_seen p rev at_ a b : found p rev at_ a -> (forall q i r, tr_records a !! q = Some (i, r) -> i < tr_next a) -> later a b ->
  same_record (tr_records b !! p) (lc_rec at_) = true -> forall n m, fo_nodes (tr_fs b) !! p = Some n -> lc_info at_ = Some m -> fingerprintOf n = fingerprintOf m -> seen p rev b.
Proof.
  intros (Er & Ei & Hs) Hids Hl Hsame n m Hn Hm Hfp. unfold seen in *. rewrite Hn. rewrite <- Ei, Hm in Hs. destruct Hs as (i & r & Hr & H1 & H2 & H3 & H4).
  unfold same_record in Hsame. apply bool_decide_eq_true in Hsame. rewrite Er, Hr in Hsame. simpl in Hsame. destruct (tr_records b !! p) as [[i' r']|] eqn:Eb; [|done]. simpl in Hsame. injection Hsame as ->.
  pose proof (la_records _ _ Hl p i r' Eb (Hids _ _ _ Hr)) as Hr'. rewrite Hr in Hr'. injection Hr' as <-. exists i, r. split_and!; [done..|congruence].
Qed.

Lemma still_ok p rev at_ a b : wf_folder (tr_fs b) -> honest (tr_fs b) -> p <> "." ->
  found p rev at_ a -> (forall q i r, tr_records a !! q = Some (i, r) -> i < tr_next a) -> later a b -> still p at_ b = None -> seen p rev b.
Proof.
  intros Hwf Hh Hd Hf Hids Hl. unfold still. destruct (same_record _ _) eqn:Es; [|done]. simpl. destruct (Lstat (tr_fs b) p) as [n|e] eqn:El.
  - destruct (Lstat_Ok _ _ _ El) as [[? _]|(Hp & _)]; [done|]. destruct (lc_info at_) as [m|] eqn:Em; [|done]. case_bool_decide; [|done]. intros _. by eapply still_seen.
  - destruct (cannotExist_err (fe_err e)) eqn:Ec; [|done]. intros _. unfold seen. by rewrite (Lstat_gone _ _ _ Hwf Hh Hd El Ec).
Qed.

(** *** Folders, links and deletes: one step under the lock *)

Lemma clear_own p at_ tr : wf_folder (tr_fs tr) -> honest (tr_fs tr) -> lc_info at_ = fo_nodes (tr_fs tr) !! p ->
  own_step p tr (clear cfg p at_ tr).2 /\ ((clear cfg p at_ tr).1 = None -> fo_nodes (tr_fs (clear cfg p at_ tr).2) !! p = None).
Proof.
  intros Hwf Hh Ei. destruct (fo_nodes (tr_fs tr) !! p) as [n|] eqn:En.
  - pose proof (clear_step p at_ tr n Hwf Hh En) as H. destruct (clear cfg p at_ tr) as [r tr']. destruct H as (E & Hs & Hg). simpl. split; [rewrite E; by apply set_fs_step|].
    intros Hr. apply Hg; [done|]. unfold lc_exists. by rewrite Ei.
  - unfold clear. rewrite Ei. simpl. split; [apply own_step_refl|done].
Qed.

Lemma remove_own op at_ tr : wf_folder (tr_fs tr) -> honest (tr_fs tr) -> lc_info at_ = fo_nodes (tr_fs tr) !! o_path op -> own_step (o_path op) tr (remove cfg ev op at_ tr).2.
Proof.
  intros Hwf Hh Ei. destruct (clear_own (o_path op) at_ tr Hwf Hh Ei) as [Hc _]. unfold remove. destruct (clear cfg (o_path op) at_ tr) as [[e|] tr1]; [done|].
  eapply own_step_trans; [exact Hc|apply recordNow_step].
Qed.

(** What makes room, then the folders above. *)
Lemma cleared_own p at_ tr : wf_folder (tr_fs tr) -> honest (tr_fs tr) -> valid_elems p = true -> lc_info at_ = fo_nodes (tr_fs tr) !! p ->
  own_step p tr (match clear cfg p at_ tr with (Some e, tr) => (Some e, tr) | (None, tr) => mkdirParents cfg p tr end).2.
Proof.
  intros Hwf Hh Hv Ei. destruct (clear_own p at_ tr Hwf Hh Ei) as [Hc _]. destruct (clear cfg p at_ tr) as [[e|] tr1]; [done|].
  eapply own_step_trans; [exact Hc|by apply mkdirParents_step].
Qed.

Lemma makeDir_own op at_ tr : wf_folder (tr_fs tr) -> honest (tr_fs tr) -> valid_elems (o_path op) = true -> lc_info at_ = fo_nodes (tr_fs tr) !! o_path op ->
  own_step (o_path op) tr (makeDir cfg ev op at_ tr).2.
Proof.
  intros Hwf Hh Hv Ei. pose proof (cleared_own (o_path op) at_ tr Hwf Hh Hv Ei) as Hc. unfold makeDir.
  destruct (match lc_info at_ with Some info => IsDir info | None => false end).
  - destruct (match lc_info at_ with Some info => _ | None => false end); [apply recordNow_step|].
    pose proof (Chmod_step (o_path op) (tr_fs tr) (fileMode Dir (emode (o_entry op)))) as Hm. destruct (Chmod _ _ _) as [[e|] f]; simpl in Hm; [by apply set_fs_step|].
    eapply own_step_trans; [by apply set_fs_step|apply recordNow_step].
  - destruct (clear cfg (o_path op) at_ tr) as [[e|] tr1]; [done|]. destruct (mkdirParents cfg (o_path op) tr1) as [[e|] tr2]; [done|]. simpl in Hc.
    pose proof (Mkdir_step (o_path op) (tr_fs tr2) (fileMode Dir (emode (o_entry op)))) as Hk. destruct (Mkdir _ _ _) as [[e|] f]; simpl in Hk.
    { eapply own_step_trans; [exact Hc|by apply set_fs_step]. }
    pose proof (Chmod_step (o_path op) f (fileMode Dir (emode (o_entry op)))) as Hm. destruct (Chmod _ _ _) as [[e|] f']; simpl in Hm.
    all: eapply own_step_trans; [exact Hc|].
    + apply set_fs_step. by eapply fs_step_trans.
    + eapply own_step_trans; [|apply recordNow_step]. apply set_fs_step. by eapply fs_step_trans.
Qed.

Lemma makeLink_own op at_ tr : wf_folder (tr_fs tr) -> honest (tr_fs tr) -> valid_elems (o_path op) = true -> lc_info at_ = fo_nodes (tr_fs tr) !! o_path op ->
  own_step (o_path op) tr (makeLink cfg ev op at_ tr).2.
Proof.
  intros Hwf Hh Hv Ei. pose proof (cleared_own (o_path op) at_ tr Hwf Hh Hv Ei) as Hc. unfold makeLink.
  destruct (_ && _); [apply recordNow_step|].
  destruct (clear cfg (o_path op) at_ tr) as [[e|] tr1]; [done|]. destruct (mkdirParents cfg (o_path op) tr1) as [[e|] tr2]; [done|]. simpl in Hc.
  pose proof (Symlink_step (o_path op) (tr_fs tr2) (tc_Reserved cfg) (etarget (o_entry op))) as Hk. destruct (Symlink_ _ _ _ _) as [[e|] f]; simpl in Hk.
  - eapply own_step_trans; [exact Hc|by apply set_fs_step].
  - eapply own_step_trans; [exact Hc|]. eapply own_step_trans; [by apply set_fs_step|apply recordNow_step].
Qed.

(** *** The in-place append *)

Lemma set_data_step p f st data t c : fo_nodes f !! p = Some st -> IsRegular st = true -> fs_step p f (set_node f p (with_data st data t c)).
Proof.
  intros Hp Hr. apply fs_step_at; [intros q Hq; simpl; by rewrite lookup_insert_ne| |done]. intros Hwf. eapply wf_set; [done|done|done|].
  unfold IsDir, IsRegular in *. simpl. by destruct (nd_body st).
Qed.

Lemma Open_Ok f p n : Open f p = Ok n -> fo_nodes f !! p = Some n /\ IsRegular n = true.
Proof.
  unfold Open. destruct (parent f p); [done|]. destruct (lstat_at f p) as [m|] eqn:El; [|done]. destruct (regular m) eqn:Er; [done|]. destruct (refused f COpen p); [done|]. intros [= <-].
  apply lstat_at_Ok in El as [? _]. split; [done|]. unfold regular in Er. unfold IsRegular. by destruct (nd_body m).
Qed.

Lemma undoAppend_own p info landed tr : own_step p tr (undoAppend p info landed tr).
Proof.
  unfold undoAppend. destruct (Open (tr_fs tr) p) as [st|] eqn:Eo; [|apply own_step_refl]. destruct (_ && _); [|apply own_step_refl]. destruct (refused _ _ _); [apply own_step_refl|].
  apply Open_Ok in Eo as [Hp Hr]. set (tr1 := upd_fs _ tr). assert (own_step p tr tr1) as H1 by (apply set_fs_step; by apply set_data_step).
  destruct (refused _ _ _); [done|]. eapply own_step_trans; [exact H1|]. apply set_fs_step, Chtimes_step.
Qed.

Lemma append_bytes_step p st suffix f : fo_nodes f !! p = Some st -> IsRegular st = true -> fs_step p f (append_bytes ev p st suffix f).1.1.
Proof.
  intros Hp Hr. unfold append_bytes. cbv zeta. destruct (refused f CWrite p) as [e|]; [|destruct (refused f CClose p) as [e|]]; simpl; destruct (String.eqb _ ""); auto using fs_step_refl, set_data_step.
Qed.

(** An append is a step of its own, then the record of what was written. *)
Lemma append_locked_own op at_ info suffix tr :
  exists b, own_step (o_path op) tr b /\ ((append_locked ev op at_ info suffix tr).2 = b \/ (append_locked ev op at_ info suffix tr).2 = (recordWritten ev op b).2).
Proof.
  unfold append_locked. destruct (still _ _ _); [exists tr; split; [apply own_step_refl|by left]|].
  destruct (Open (tr_fs tr) (o_path op)) as [st|] eqn:Eo; [|exists tr; split; [apply own_step_refl|by left]].
  destruct (negb _); [exists tr; split; [apply own_step_refl|by left]|]. apply Open_Ok in Eo as [Hp Hr]. pose proof (append_bytes_step (o_path op) st suffix (tr_fs tr) Hp Hr) as Ha.
  destruct (append_bytes ev (o_path op) st suffix (tr_fs tr)) as [[f landed] [e|]]; simpl in Ha.
  { eexists. split; [|by left]. destruct (0 <? landed); [|by apply set_fs_step]. eapply own_step_trans; [by apply set_fs_step|apply undoAppend_own]. }
  assert (forall g, fs_step (o_path op) f g -> own_step (o_path op) tr (set_fs (set_fs tr f) g)) as Hg.
  { intros g Hg. eapply own_step_trans; apply set_fs_step; [exact Ha|exact Hg]. }
  destruct (fileMode File (Mode info) =? emode (o_entry op)).
  - pose proof (Chtimes_step (o_path op) f (emtime (o_entry op))) as Ht. destruct (Chtimes _ _ _) as [[e|] f2]; simpl in Ht; (eexists; split; [by apply Hg|]); [by left|by right].
  - pose proof (Chmod_step (o_path op) f (emode (o_entry op))) as Hm. destruct (Chmod _ _ _) as [[e|] f1]; simpl in Hm; [eexists; split; [by apply Hg|by left]|].
    pose proof (Chtimes_step (o_path op) f1 (emtime (o_entry op))) as Ht. destruct (Chtimes _ _ _) as [[e|] f2]; simpl in Ht; (eexists; split; [apply Hg; by eapply fs_step_trans|]); [by left|by right].
Qed.

(** *** The replaced file *)

Lemma IsTemp_tempName r : IsTemp (tempName r) = true.
Proof. unfold IsTemp, tempName, HasSuffix. rewrite HasPrefix_append, !rev_string_append, append_assoc. apply HasPrefix_append. Qed.

Lemma synced_not_temp p r : synced cfg p = true -> p <> path_Join (path_Dir p) (tempName r).
Proof.
  intros Hs Heq. pose proof (synced_elems _ _ Hs) as Hv. destruct (tempName_elem r) as [He Hc]. unfold synced in Hs. bool_hyps.
  assert (tempName r ∈ split_byte slash p) as Hin.
  { assert (split_byte slash (tempName r) = [tempName r]) as Es by (by apply split_byte_none). assert (valid_elems (tempName r) = true) as Hvt by (unfold valid_elems; rewrite Es; cbn [forallb]; by rewrite He).
    generalize dependent (tempName r). intros t Heq He Hc Es Hvt. rewrite Heq. destruct (path_Dir_cases p Hv) as [->|(Hvd & _ & _)]; [rewrite path_Join_top by exact Hvt; rewrite Es; set_solver|].
    rewrite path_Join_below by assumption. rewrite split_below, Es. set_solver. }
  match goal with H : existsb IsTemp _ = false |- _ => apply Bool.not_true_iff_false in H; apply H, existsb_exists end. exists (tempName r). split; [by apply list_elem_of_In|apply IsTemp_tempName].
Qed.

Lemma temp_step p r f f' : temp_beside p r -> (forall q, q <> r -> fo_nodes f' !! q = fo_nodes f !! q) -> (wf_folder f -> wf_folder f') -> fo_fails f' = fo_fails f -> fs_step p f f'.
Proof. intros Hr H1 H2 H3. constructor; [|done|done]. intros q Hq. right; left. destruct (decide (q = r)) as [->|Hne]; [done|]. by apply H1 in Hne. Qed.

Lemma drop_temp_other f tmp q : q <> tmp -> fo_nodes (drop_temp f tmp) !! q = fo_nodes f !! q.
Proof. intros Hq. destruct (drop_temp_spec f tmp) as (_ & _ & [-> | ->]); [done|]. by rewrite lookup_delete_ne. Qed.

Lemma drop_temp_step p tmp f : temp_beside p tmp -> fs_step p f (drop_temp f tmp).
Proof.
  intros Ht. apply (temp_step _ tmp); [done|by intros q; apply drop_temp_other|apply wf_drop_temp|]. destruct (drop_temp_spec f tmp) as (_ & -> & _). done.
Qed.

Lemma touched_step p tmp f f1 : temp_beside p tmp -> touched f f1 tmp -> fs_step p f f1.
Proof.
  intros Ht [E H]. apply (temp_step _ tmp); [done| | |by rewrite E].
  - intros q Hq. destruct H as [-> |(m & m' & _ & _ & ->)]; [done|]. by rewrite lookup_insert_ne.
  - intros Hwf. destruct H as [H|(m & m' & Hm & (Hi & Hd & _) & H)]; rewrite E, H; [by rewrite <- set_nodes_id|]. by eapply wf_set.
Qed.

(** The temp file renamed over [p]. *)
Lemma renamed_step p tmp f n m : temp_beside p tmp -> p <> tmp -> valid_elems p = true -> fo_nodes f !! tmp = Some m -> nd_ino n = nd_ino m -> IsDir n = false -> IsDir m = false ->
  (path_Dir p = path_Dir tmp) ->
  (forall old, fo_nodes f !! p = Some old -> IsDir old = false) -> fs_step p f (set_nodes f (<[p := n]> (delete tmp (fo_nodes f)))).
Proof.
  intros Ht Hne Hv Hm Ei Hdn Hdm Hdir Hold. constructor; [| |done].
  - intros q Hq. simpl in Hq. destruct (decide (q = p)) as [->|Hp]; [by left|]. rewrite lookup_insert_ne in Hq by done. right; left.
    destruct (decide (q = tmp)) as [->|]; [done|]. by rewrite lookup_delete_ne in Hq.
  - intros Hwf. assert (forall q d, fo_nodes f !! q = Some d -> IsDir d = true -> fo_nodes (set_nodes f (<[p := n]> (delete tmp (fo_nodes f)))) !! q = Some d) as Hkeep.
    { intros q d Hq Hd. simpl. rewrite lookup_insert_ne; [rewrite lookup_delete_ne; [done|intros <-; congruence]|]. intros <-. by rewrite (Hold _ Hq) in Hd. }
    assert (forall q, is_folder f q -> is_folder (set_nodes f (<[p := n]> (delete tmp (fo_nodes f)))) q) as Hf.
    { intros q [?|(d & Hd & Hdd)]; [by left|right; exists d; split; [by apply Hkeep|done]]. }
    destruct Hwf as [W1 W2 W3 W4 W5]. constructor; simpl; [..|done].
    + intros q m' [[<- _]|[_ [_ Hq]%lookup_delete_Some]]%lookup_insert_Some; eauto.
    + intros q m' [[<- _]|[_ [_ Hq]%lookup_delete_Some]]%lookup_insert_Some; [rewrite Hdir|]; eauto.
    + intros q m' [[<- <-]|[_ [_ Hq]%lookup_delete_Some]]%lookup_insert_Some; [rewrite Ei|]; eauto.
    + intros q q' a b [[<- <-]|[_ [? Hq]%lookup_delete_Some]]%lookup_insert_Some [[<- <-]|[_ [? Hq']%lookup_delete_Some]]%lookup_insert_Some E; [done| | |by eauto].
      * rewrite Ei in E. by destruct (W4 _ _ _ _ Hm Hq' E).
      * rewrite Ei in E. by destruct (W4 _ _ _ _ Hq Hm E).
Qed.

Definition ids_below (tr : treeRoot) : Prop := forall q i r, tr_records tr !! q = Some (i, r) -> i < tr_next tr.

(** Own steps that keep what is at the path. *)
Lemma own_kept op a b : own_step (o_path op) a b -> fo_nodes (tr_fs b) !! o_path op = fo_nodes (tr_fs a) !! o_path op -> rtc (apply_step op) a b.
Proof. intros H E. apply rtc_once. by apply as_own. Qed.

Lemma own_fs_kept op a f : fs_step (o_path op) (tr_fs a) f -> fo_nodes f !! o_path op = fo_nodes (tr_fs a) !! o_path op -> rtc (apply_step op) a (set_fs a f).
Proof. intros H E. apply own_kept; [by apply set_fs_step|done]. Qed.

Lemma others_run op n a : rtc (apply_step op) a (ev_others ev n a).
Proof. apply rtc_once, as_others. Qed.

Lemma commit_fs tr : tr_fs (tree_commit tr).2 = tr_fs tr.
Proof. by destruct (tree_commit_journal tr) as (j & d & ->). Qed.

Lemma recordWritten_run op tr : rtc (apply_step op) tr (recordWritten ev op tr).2.
Proof.
  unfold recordWritten. destruct (ev_afterWrite ev _); [done|]. etrans; [apply (others_run op 6)|]. destruct (Lstat _ _); [|done].
  apply own_kept; [auto with fleet|by rewrite commit_fs].
Qed.

(** The rename goes ahead only over what the hub has seen. *)
Lemma expect_seen op at_ a s f1 : (forall m, lc_info at_ = Some m -> found (o_path op) (o_rev op) at_ a) -> ids_below a -> later a s -> honest (tr_fs s) ->
  replace_expect op at_ (upd_fs (fun _ => f1) s) (match lstat_at (tr_fs s) (o_path op) with
    | Ok n => Ok (Some n) | Err e => if bool_decide (fe_err e = ErrNotExist) then Ok None else Err e end) = None -> seen (o_path op) (o_rev op) s.
Proof.
  intros Hf Hids Hl Hh. unfold replace_expect. destruct (same_record _ _) eqn:Es; [|done]. cbn [negb]. destruct (lstat_at (tr_fs s) (o_path op)) as [n|e] eqn:El.
  - destruct (lc_info at_) as [m|] eqn:Em; [|done]. case_bool_decide; [|done]. intros _. apply lstat_at_Ok in El as [Hn _].
    eapply still_seen; [by apply (Hf m)|done|done|exact Es|exact Hn|exact Em|done].
  - case_bool_decide as Ee; [|done]. intros _. unfold lstat_at in El. unfold seen. destruct (refused _ _ _) eqn:Er; [|by destruct (fo_nodes _ !! _)].
    injection El as ->. pose proof (refused_honest _ _ _ _ Hh Er) as Hx. by rewrite Ee in Hx.
Qed.

Lemma replace_with_state s name tmp ino data perm mtime expect :
  let g := (replace_with tr_fs upd_fs FsE s name tmp ino data perm mtime expect).2 in g = set_fs s (tr_fs g).
Proof.
  cbv zeta. unfold replace_with, upd_fs. destruct (fillTemp _ _ _ _ _ _) as [[e|] f]; [done|]. destruct (lstat_at f tmp); [|done]. destruct (negb _); [done|].
  destruct (expect _ _); [done|]. by destruct (rename_temp _ _ _) as [[e|] f'].
Qed.

(** What a replace's result says of the path. *)
Definition replaced_file (op : Op) (reading : result terr string) (tr : treeRoot) (n : node) : Prop :=
  exists data, reading = Ok data /\ fo_nodes (tr_fs tr) !! o_path op = Some n /\ nd_body n = BFile data /\ nd_perm n = createMode (emode (o_entry op)) /\ nd_mtime n = emtime (o_entry op).

Lemma replace_with_run op at_ a s tmp ino data : valid_elems (o_path op) = true -> temp_beside (o_path op) tmp -> o_path op <> tmp -> path_Dir (o_path op) = path_Dir tmp ->
  (forall m, fo_nodes (tr_fs s) !! tmp = Some m -> nd_ino m = ino -> IsDir m = false) ->
  (forall m, lc_info at_ = Some m -> found (o_path op) (o_rev op) at_ a) -> ids_below a -> later a s -> honest (tr_fs s) ->
  let '(r, tr') := replace_with tr_fs upd_fs FsE s (o_path op) tmp ino data (emode (o_entry op)) (emtime (o_entry op)) (replace_expect op at_) in
  rtc (apply_step op) s tr' /\ (forall n, r = Ok n -> replaced_file op (Ok data) tr' n).
Proof.
  intros Hv Htb Hne Hdir Hreg Hf Hids Hl Hh.
  pose proof (replace_with_spec tr_fs upd_fs FsE (fun _ _ => eq_refl) s (o_path op) tmp ino data (emode (o_entry op)) (emtime (o_entry op)) (replace_expect op at_) Hreg Hne) as Hspec.
  pose proof (replace_with_state s (o_path op) tmp ino data (emode (o_entry op)) (emtime (o_entry op)) (replace_expect op at_)) as Hset.
  destruct (replace_with _ _ _ _ _ _ _ _ _ _ _) as [res g]. simpl in Hset. rewrite Hset.
  destruct Hspec as [e f1 Htch Eg|n res (f1 & _ & Hx) (m0 & Hm0 & Em0) Hold En Eg Hres]; rewrite Eg.
  - split; [|done]. apply own_fs_kept; [eapply fs_step_trans; [by eapply touched_step|by apply drop_temp_step]|]. rewrite drop_temp_other by done.
    destruct Htch as [_ [->|(? & ? & _ & _ & ->)]]; [done|]. by rewrite lookup_insert_ne.
  - split.
    + apply own_seen; [|by eapply expect_seen]. apply set_fs_step. eapply renamed_step; [done|done|done|exact Hm0|by rewrite En|by rewrite En|by apply Hreg|done|intros old Ho; by apply (Hold old)].
    + intros n' ->. destruct Hres as [[= ->]|(_ & e & ?)]; [|done]. exists data. split_and!; [done|simpl; apply lookup_insert_eq|by rewrite En..].
Qed.

Lemma replace_run op at_ a tr rands reading : synced cfg (o_path op) = true ->
  (forall m, lc_info at_ = Some m -> found (o_path op) (o_rev op) at_ a) -> ids_below a -> later a tr -> wf_folder (tr_fs tr) -> honest (tr_fs tr) ->
  let '(r, tr') := ReplaceFile tr_fs upd_fs FsE (tc_Reserved cfg) tr (o_path op) rands (fun tr => (reading, ev_others ev 1 tr))
                     (emode (o_entry op)) (emtime (o_entry op)) (replace_expect op at_) in
  rtc (apply_step op) tr tr' /\ (forall n, r = Ok n -> replaced_file op reading tr' n).
Proof.
  intros Hsync Hf Hids Hl Hwf Hh. unfold ReplaceFile. destruct (checkAboveReserved _ _); [done|]. destruct (parent _ _) eqn:Ep; [done|].
  destruct (match lstat_at _ _ with Ok n => IsDir n | Err _ => false end); [done|]. destruct (reached_folder _ _ Ep) as [Hv Hd].
  pose proof (createTemp_spec (take 10 rands) (tr_fs tr) (path_Dir (o_path op))) as Ht. destruct (createTemp _ _ _) as [[tmp|e] f1].
  2: { subst f1. unfold upd_fs. by destruct tr. }
  destruct Ht as (E1 & Hfree & r & _ & Etmp). assert (temp_beside (o_path op) tmp) as Htb by (by exists r).
  destruct (temp_path (tr_fs tr) (o_path op) r Hv Hd) as [Hvt Hdt]. rewrite <- Etmp in Hvt, Hdt. assert (o_path op <> tmp) as Hne by (subst tmp; by apply synced_not_temp).
  assert (path_Dir (o_path op) = path_Dir tmp) as Hdir.
  { rewrite Etmp. destruct (tempName_elem r) as [He Hc]. destruct (path_Join_elem (path_Dir (o_path op)) (tempName r)) as [_ ->]; [|done|done|done].
    destruct (path_Dir_cases _ Hv) as [?|(? & _)]; auto. }
  set (m := MkNode (BFile "") (masked (tr_fs tr) 384) (fo_clock (tr_fs tr)) (fo_clock (tr_fs tr)) (fo_ino (tr_fs tr)) (nd_dev (fo_top (tr_fs tr)))).
  change (create_node (tr_fs tr) tmp (BFile "") (masked (tr_fs tr) 384)) with (put_new (tr_fs tr) tmp m) in E1. subst f1.
  set (tr1 := upd_fs (fun _ => put_new (tr_fs tr) tmp m) tr). assert (rtc (apply_step op) tr tr1) as R1.
  { apply own_fs_kept; [|simpl; by rewrite lookup_insert_ne]. apply (temp_step _ tmp); [done|intros q Hq; simpl; by rewrite lookup_insert_ne| |done].
    intros _. apply wf_put_new; [done|congruence|done..]. }
  assert (rtc (apply_step op) tr (ev_others ev 1 tr1)) as R2 by (etrans; [exact R1|apply others_run]).
  destruct (steps_good _ _ _ R1 (conj Hwf Hh)) as [Hwf1 _]. destruct (steps_good _ _ _ R2 (conj Hwf Hh)) as [Hwf2 Hh2].
  assert (later a (ev_others ev 1 tr1)) as Hl2 by (eapply later_trans; [exact Hl|by eapply steps_later]).
  assert (forall m', fo_nodes (tr_fs (ev_others ev 1 tr1)) !! tmp = Some m' -> nd_ino m' = fo_ino (tr_fs tr) -> IsDir m' = false) as Hreg.
  { intros m' Hm' Ei. destruct (IsDir m') eqn:Edm; [|done]. exfalso. destruct (ho_dirs _ (others_honest 1) tr1 _ _ Hm' Edm) as (q & d & Hq & Eq & Hdd); [simpl; lia|].
    assert (fo_nodes (tr_fs tr1) !! tmp = Some m) as Hm by apply lookup_insert_eq.
    assert (q = tmp) as -> by (eapply (wf_own _ Hwf1 _ _ _ _ Hq Hm); simpl; congruence). rewrite Hm in Hq. injection Hq as <-. done. }
  set (s := ev_others ev 1 tr1) in *. destruct reading as [data|e].
  - pose proof (replace_with_run op at_ a s tmp (fo_ino (tr_fs tr)) data Hv Htb Hne Hdir Hreg Hf Hids Hl2 Hh2) as Hw.
    destruct (replace_with _ _ _ _ _ _ _ _ _ _ _) as [res g]. destruct Hw as [R3 Hok]. split; [|done]. etrans; [exact R2|exact R3].
  - split; [|done]. etrans; [exact R2|]. apply own_fs_kept; [by apply drop_temp_step|by apply drop_temp_other].
Qed.

(** ** Files *)

Lemma record_made_fs missing : forall tr, tr_fs (record_made cfg missing tr).2 = tr_fs tr.
Proof. induction missing as [|a rest IH]; intros tr; simpl; [done|]. destruct (negb _); [done|]. destruct (Lstat _ _); [|done]. by rewrite IH. Qed.

(** Folders made above leave the path itself. *)
Lemma mkdirParents_kept p tr : valid_elems p = true -> fo_nodes (tr_fs (mkdirParents cfg p tr).2) !! p = fo_nodes (tr_fs tr) !! p.
Proof.
  intros Hv. unfold mkdirParents. destruct (String.eqb_spec (path_Dir p) ".") as [|Hd]; [done|]. destruct (match Lstat _ _ with Ok n => IsDir n | Err _ => false end); [done|].
  destruct (missing_above _ _) as [missing|]; [|done]. assert (fo_nodes (MkdirAll (tr_fs tr) (path_Dir p) 493).2 !! p = fo_nodes (tr_fs tr) !! p) as Hk.
  { unfold MkdirAll. destruct (check_name _ _); [done|]. unfold openDir. rewrite (proj2 (String.eqb_neq _ _)) by done. apply open_path_other.
    assert (ancestors (path_Dir p) ++ [path_Dir p] = ancestors p) as -> by (by rewrite (ancestors_unfold p), (proj2 (String.eqb_neq _ _))).
    intros Ha. apply (ancestors_below _ _ Hv) in Ha. by apply below_irrefl in Ha. }
  destruct (MkdirAll _ _ _) as [[e|] f]; simpl in *; [done|]. by rewrite record_made_fs.
Qed.

(** Before the content is fetched. *)
Lemma mkdir_run op at_ tr : synced cfg (o_path op) = true ->
  rtc (apply_step op) tr (if lc_exists at_ then (None, tr) else mkdirParents cfg (o_path op) (ev_others ev 5 tr)).2.
Proof.
  intros Hs. destruct (lc_exists at_); [done|]. etrans; [apply others_run|]. pose proof (synced_elems _ _ Hs) as Hv. apply own_kept; [by apply mkdirParents_step|by apply mkdirParents_kept].
Qed.

Lemma replaceFile_run op at_ content a tr : synced cfg (o_path op) = true ->
  (forall m, lc_info at_ = Some m -> found (o_path op) (o_rev op) at_ a) -> ids_below a -> later a tr -> wf_folder (tr_fs tr) -> honest (tr_fs tr) -> rtc (apply_step op) tr (replaceFile cfg ev op at_ content tr).2.
Proof.
  intros Hs Hf Hids Hl Hwf Hh. unfold replaceFile. destruct (room _ _ _); [done|]. pose proof (mkdir_run op at_ tr Hs) as R1.
  destruct (if lc_exists at_ then _ else _) as [[e|] tr1]; [done|]. simpl in R1.
  assert (rtc (apply_step op) tr (ev_others ev 0 tr1)) as R2 by (etrans; [exact R1|apply others_run]). destruct (steps_good _ _ _ R2 (conj Hwf Hh)) as [Hwf2 Hh2].
  destruct (content op 0) as [read|e]; [|done].
  pose proof (replace_run op at_ a (ev_others ev 0 tr1) (ev_rands ev) (match read with Ok data => verified op data | Err e => Err e end) Hs Hf Hids) as R3.
  specialize (R3 (later_trans _ _ _ Hl (steps_later _ _ _ R2)) Hwf2 Hh2). cbv zeta.
  destruct (ReplaceFile _ _ _ _ _ _ _ _ _ _ _) as [[n|e] tr2]; destruct R3 as [R3 _]; (etrans; [exact R2|]); [|done]. etrans; [exact R3|]. apply recordWritten_run.
Qed.

Lemma append_run op at_ info suffix a tr : found (o_path op) (o_rev op) at_ a -> o_path op <> "." -> ids_below a -> later a tr -> wf_folder (tr_fs tr) -> honest (tr_fs tr) ->
  rtc (apply_step op) tr (append_locked ev op at_ info suffix tr).2.
Proof.
  intros Hf Hd Hids Hl Hwf Hh. destruct (still (o_path op) at_ tr) as [e|] eqn:Es; [unfold append_locked; by rewrite Es|].
  destruct (append_locked_own op at_ info suffix tr) as (b & Hb & Hend).
  assert (rtc (apply_step op) tr b) as R by (apply own_seen; [done|by eapply still_ok]). destruct Hend as [-> | ->]; [done|]. etrans; [exact R|apply recordWritten_run].
Qed.

Lemma appendFile_run op at_ info offset content a : found (o_path op) (o_rev op) at_ a -> o_path op <> "." -> ids_below a -> wf_folder (tr_fs a) -> honest (tr_fs a) ->
  rtc (apply_step op) a (appendFile cfg ev op at_ info offset content a).2.
Proof.
  intros Hf Hd Hids Hwf Hh. unfold appendFile. destruct (room _ _ _); [done|]. pose proof (others_run op 2 a) as R2. set (tr := ev_others ev 2 a) in *.
  destruct (content op offset) as [[all|e]|e]; [|done..]. destruct (negb _); [done|]. destruct (Open _ _) as [st|]; [|done]. destruct (negb _); [done|].
  destruct (refused _ _ _); [done|]. destruct (_ <? offset); [done|]. destruct (negb _); [done|]. pose proof (others_run op 3 tr) as R3.
  assert (rtc (apply_step op) a (ev_others ev 3 tr)) as R by (etrans; [exact R2|exact R3]). etrans; [exact R|].
  destruct (steps_good _ _ _ R (conj Hwf Hh)). eapply append_run; eauto using steps_later.
Qed.

(** A folder in a file's way, cleared. *)
Lemma cleared_run op at_ a : synced cfg (o_path op) = true -> found (o_path op) (o_rev op) at_ a -> ids_below a -> wf_folder (tr_fs a) -> honest (tr_fs a) ->
  match lc_info at_ with Some n => IsDir n | None => false end = true -> still (o_path op) at_ (ev_others ev 4 a) = None ->
  let '(r, tr1) := clear cfg (o_path op) at_ (ev_others ev 4 a) in rtc (apply_step op) a tr1 /\ (r = None -> fo_nodes (tr_fs tr1) !! o_path op = None).
Proof.
  intros Hs Hf Hids Hwf Hh Edir Es. assert (o_path op <> ".") as Hd by (by eapply valid_elems_not_dot, synced_elems). pose proof (others_run op 4 a) as R. set (tr := ev_others ev 4 a) in *.
  destruct (steps_good _ _ _ R (conj Hwf Hh)) as [Hwf4 Hh4]. pose proof (still_ok _ _ _ a tr Hwf4 Hh4 Hd Hf Hids (steps_later _ _ _ R) Es) as Hseen.
  assert (exists n, fo_nodes (tr_fs tr) !! o_path op = Some n) as (n & Hn).
  { unfold still in Es. destruct (negb _); [done|]. unfold lc_exists in Es. destruct (Lstat (tr_fs tr) (o_path op)) as [n|e] eqn:El; [destruct (Lstat_Ok _ _ _ El) as [[? _]|(Hp & _)]; by eauto|].
    destruct (lc_info at_); [by destruct (cannotExist_err _)|done]. }
  pose proof (clear_step (o_path op) at_ tr n Hwf4 Hh4 Hn) as Hc. destruct (clear cfg (o_path op) at_ tr) as [r tr1]. destruct Hc as (E & Hst & Hgone). split.
  - etrans; [exact R|]. apply own_seen; [rewrite E; by apply set_fs_step|done].
  - intros Hr. apply Hgone; [done|]. unfold lc_exists. by destruct (lc_info at_).
Qed.

Lemma writeFile_run op at_ a : synced cfg (o_path op) = true -> found (o_path op) (o_rev op) at_ a -> ids_below a -> wf_folder (tr_fs a) -> honest (tr_fs a) ->
  rtc (apply_step op) a (writeFile cfg ev op at_ a).2.
Proof.
  intros Hs Hf Hids Hwf Hh. assert (o_path op <> ".") as Hd by (by eapply valid_elems_not_dot, synced_elems). unfold writeFile. destruct (ev_content ev) as [content|]; [|done].
  assert (forall tr, rtc (apply_step op) a tr -> rtc (apply_step op) a (replaceFile cfg ev op at_ content tr).2) as Hrep.
  { intros tr R. etrans; [exact R|]. destruct (steps_good _ _ _ R (conj Hwf Hh)). eapply replaceFile_run; eauto using steps_later. }
  destruct (match lc_info at_ with Some n => IsDir n | None => false end) eqn:Edir.
  - destruct (still (o_path op) at_ (ev_others ev 4 a)) as [e|] eqn:Es; [apply others_run|].
    pose proof (cleared_run op at_ a Hs Hf Hids Hwf Hh Edir Es) as Hcl. destruct (clear _ _ _ _) as [[e|] tr1]; destruct Hcl as [R1 Hgone]; [done|].
    etrans; [exact R1|]. destruct (steps_good _ _ _ R1 (conj Hwf Hh)). eapply (replaceFile_run _ _ _ a); eauto using steps_later; done.
  - destruct (lc_info at_) as [info|] eqn:Ei; [|by apply Hrep]. destruct (lc_rec at_) as [[i rec]|]; [|by apply Hrep]. destruct (_ && _); [|by apply Hrep].
    pose proof (appendFile_run op at_ info (extends (o_entry op) (rc_Entry rec)) content a Hf Hd Hids Hwf Hh) as R. destruct (appendFile _ _ _ _ _ _ _ _) as [[[]|] tr1]; simpl in *; try done. by apply Hrep.
Qed.

(** ** The whole op *)

Lemma recordOp_run op info tr : rtc (apply_step op) tr (recordOp op info tr).2.
Proof. apply own_kept; [apply recordOp_step|]. unfold recordOp. destruct (negb _); rewrite commit_fs; [|done]. unfold dropRecord. by destruct (tr_records tr !! o_path op). Qed.

Lemma drop_run op tr : rtc (apply_step op) tr (tree_commit (dropRecord (o_path op) tr)).2.
Proof. apply own_kept; [apply drop_commit_step|]. rewrite commit_fs. unfold dropRecord. by destruct (tr_records tr !! o_path op). Qed.

Lemma put_run op rec tr : rtc (apply_step op) tr (tree_commit (putRecord (o_path op) rec tr)).2.
Proof. apply own_kept; [apply put_commit_step|]. by rewrite commit_fs. Qed.

Lemma apply_at_run op at_ a : synced cfg (o_path op) = true -> found (o_path op) (o_rev op) at_ a -> ids_below a -> wf_folder (tr_fs a) -> honest (tr_fs a) ->
  rtc (apply_step op) a (apply_at cfg ev op at_ a).2.
Proof.
  intros Hs Hf Hids Hwf Hh. unfold apply_at. destruct (already_there op at_); [apply recordOp_run|]. destruct (_ && _); [apply drop_run|].
  pose proof Hf as (_ & Ei & Hseen). pose proof (synced_elems _ _ Hs) as Hv. destruct (ekind (o_entry op)).
  all: first [by apply writeFile_run|apply own_seen; [|done]]; first [by apply remove_own|by apply makeDir_own|by apply makeLink_own].
Qed.

Context (Error : terr -> string) (check_text : check_error -> string).

Lemma applyReadOnly_run op a : rtc (apply_step op) a (applyReadOnly Error op a).2.
Proof.
  unfold applyReadOnly. destruct (look (o_path op) a) as [at_ err]. set (held := MkRec _ _ _ _ _).
  assert (rtc (apply_step op) a (match tree_commit (putRecord (o_path op) held a) with
     | (Some e, tr) => (classify Error (Some e), tr) | (None, tr) => ((Changed, "read-only on this side: its folder's state stands"), tr) end).2) as H.
  { pose proof (put_run op held a) as H. by destruct (tree_commit _) as [[e|] tr]. }
  destruct err; [done|]. destruct (lc_rec at_) as [[i r]|], (lc_info at_) as [info|]; try done; [|by destruct (Live _)].
  destruct (Same _ _); [|done]. pose proof (recordOp_run op info a) as Ho. by destruct (recordOp op info a).
Qed.
End laws.

