(* ===== verification/SideApplyLands.v ===== *)
(** * What an applied op leaves (internal/sharesync/apply.go)

    When Apply answers that an op is applied, the folder holds the op's state and
    the record there says so, with the fingerprint of what is there. *)

From S2P Require Import Prelude GoStrings GoText Sha256 Entry Paths SyncPolicy Mergers Journal SafeFs SafeFsLaws SideTree SideApply SideApplyLaws.
Local Open Scope string_scope.
Local Open Scope Z_scope.
Local Open Scope list_scope.

(** ** Entries and what they describe *)

(** What is in the folder is what the entry says. *)
Definition shows (e : Entry) (n : node) : Prop :=
  match ekind e with
  | File => exists data, nd_body n = BFile data /\ Z.of_nat (String.length data) = esize e /\ hashOf data = ehash e /\ fileMode File (Mode n) = emode e
  | Dir => nd_body n = BDir /\ fileMode Dir (Mode n) = emode e
  | Symlink => nd_body n = BLink (etarget e)
  | _ => False
  end.

(** The record of [p] is true of what is there while its fingerprint is. *)
Definition truthful (p : string) (tr : treeRoot) : Prop :=
  forall r n, rec_at tr p = Some r -> Live (rc_Entry r) = true -> fo_nodes (tr_fs tr) !! p = Some n -> rc_FP r = fingerprintOf n -> shows (rc_Entry r) n.

Lemma Same_shows e e' n : Same e e' = true -> shows e n -> shows e' n.
Proof.
  unfold Same, shows. destruct (bool_decide_reflect (ekind e = ekind e')) as [<-|]; [|done]. cbn [negb]. intros H Hs.
  destruct (ekind e); bool_hyps; [by destruct Hs|..|done]; repeat match goal with H : (_ =? _) = true |- _ => apply Z.eqb_eq in H | H : String.eqb _ _ = true |- _ => apply String.eqb_eq in H end; naive_solver congruence.
Qed.

(** *** Modes *)

Lemma file_mode_of n d m : nd_body n = BFile d -> nd_perm n = createMode m -> fileMode File (Mode n) = fileMode File m.
Proof. intros Hb Hp. unfold Mode, fileMode. rewrite Hb, Hp, Z.lor_0_l. unfold createMode. by rewrite <- Z.land_assoc, Z.land_diag. Qed.

Lemma dir_mode_of n m : nd_body n = BDir -> nd_perm n = safeMode (fileMode Dir m) -> fileMode Dir (Mode n) = fileMode Dir m.
Proof.
  intros Hb Hp. unfold Mode, fileMode. rewrite Hb, Hp. unfold safeMode, fileMode. rewrite Z.land_lor_distr_l. change (Z.land ModeDir (Z.lor ModePerm ModeSticky)) with 0.
  by rewrite Z.lor_0_l, <- !Z.land_assoc, !Z.land_diag.
Qed.

Lemma createMode_safeMode m : createMode (safeMode m) = createMode m.
Proof. unfold createMode, safeMode. rewrite <- Z.land_assoc. f_equal. Qed.

Lemma check_file_mode e : check e = None -> ekind e = File -> fileMode File (emode e) = emode e.
Proof. unfold check. intros Hc Hk. rewrite Hk in Hc. destruct (Z.eqb_spec (emode e) (fileMode File (emode e))); done. Qed.

Lemma check_dir_mode e : check e = None -> ekind e = Dir -> fileMode Dir (emode e) = emode e.
Proof. unfold check. intros Hc Hk. rewrite Hk in Hc. destruct (Z.eqb_spec (emode e) (fileMode Dir (emode e))); done. Qed.

(** ** Each way to apply *)

Section lands.
Context (cfg : treeConf) `{C : !journal_codec treeRecord} (ev : applyEnv).

Definition recorded (op : Op) (n : node) (tr : treeRoot) : Prop :=
  exists i, tr_records tr !! o_path op = Some (i, MkRec (o_rev op) (o_entry op) (fingerprintOf n) false false).

(** The op's state, and the record of it. *)
Definition lands (op : Op) (tr : treeRoot) : Prop :=
  if Live (o_entry op) then exists n, fo_nodes (tr_fs tr) !! o_path op = Some n /\ shows (o_entry op) n /\ recorded op n tr
  else fo_nodes (tr_fs tr) !! o_path op = None /\ tr_records tr !! o_path op = None.

(** A file written over as it was recorded: the record is the op's, left dirty, so
    that the next scan reads what is there. *)
Definition left_dirty (op : Op) (tr : treeRoot) : Prop :=
  ekind (o_entry op) = File /\ (exists n, fo_nodes (tr_fs tr) !! o_path op = Some n) /\
  exists i, tr_records tr !! o_path op = Some (i, MkRec (o_rev op) (o_entry op) dirtyFingerprint false false).

(** A write another makes to the file just written shows in its size or time. *)
Definition writes_show (op : Op) (o : treeRoot -> treeRoot) : Prop :=
  forall tr n n', fo_nodes (tr_fs tr) !! o_path op = Some n -> fo_nodes (tr_fs (o tr)) !! o_path op = Some n' ->
    n' = n \/ Size n' <> esize (o_entry op) \/ ourTime (nd_mtime n') (emtime (o_entry op)) = false.

Lemma commit_records tr : tr_records (tree_commit tr).2 = tr_records tr.
Proof. by destruct (tree_commit_journal tr) as (j & d & ->). Qed.

Lemma drop_lands op tr : Live (o_entry op) = false -> fo_nodes (tr_fs tr) !! o_path op = None -> lands op (tree_commit (dropRecord (o_path op) tr)).2.
Proof.
  intros Hl Hn. unfold lands. rewrite Hl, commit_fs, commit_records. unfold dropRecord. destruct (tr_records tr !! o_path op) eqn:E; simpl; [|done]. by rewrite lookup_delete_eq.
Qed.

Lemma put_lands op n tr : Live (o_entry op) = true -> fo_nodes (tr_fs tr) !! o_path op = Some n -> shows (o_entry op) n ->
  lands op (tree_commit (putRecord (o_path op) (MkRec (o_rev op) (o_entry op) (fingerprintOf n) false false) tr)).2.
Proof.
  intros Hl Hn Hs. unfold lands, recorded. rewrite Hl, commit_fs, commit_records. exists n. split_and!; [done|done|]. eexists. simpl. by rewrite lookup_insert_eq.
Qed.

Lemma recordOp_lands op n tr : fo_nodes (tr_fs tr) !! o_path op = Some n -> shows (o_entry op) n -> lands op (recordOp op n tr).2.
Proof.
  intros Hn Hs. assert (Live (o_entry op) = true) as Hl by (unfold Live, shows in *; by destruct (ekind (o_entry op))). unfold recordOp. rewrite Hl. by apply put_lands.
Qed.

Lemma recordNow_lands op tr tr' : o_path op <> "." -> recordNow ev op tr = (None, tr') ->
  (if Live (o_entry op) then forall n, fo_nodes (tr_fs tr) !! o_path op = Some n -> shows (o_entry op) n else fo_nodes (tr_fs tr) !! o_path op = None) -> lands op tr'.
Proof.
  intros Hd. unfold recordNow. destruct (ev_afterWrite ev (o_path op)); [done|]. destruct (Live (o_entry op)) eqn:Hl; cbn [negb].
  - destruct (Lstat (tr_fs tr) (o_path op)) as [n|e] eqn:El; [|done]. destruct (Lstat_Ok _ _ _ El) as [[? _]|(Hn & _)]; [done|]. intros E Hs.
    rewrite <- (f_equal snd E : _ = tr'). apply recordOp_lands; auto.
  - intros E Hs. rewrite <- (f_equal snd E : _ = tr'). by apply drop_lands.
Qed.

Lemma recordWritten_lands op n tr tr' : writes_show op (ev_others ev 6) -> o_path op <> "." -> ekind (o_entry op) = File -> recordWritten ev op tr = (None, tr') -> fo_nodes (tr_fs tr) !! o_path op = Some n ->
  shows (o_entry op) n -> Size n = esize (o_entry op) -> nd_mtime n = emtime (o_entry op) -> lands op tr' \/ left_dirty op tr'.
Proof.
  intros Hw Hd Hk E Hn Hs Hsz Ht. unfold recordWritten in E. destruct (ev_afterWrite ev (o_path op)); [done|]. cbv zeta in E.
  destruct (Lstat (tr_fs (ev_others ev 6 tr)) (o_path op)) as [n'|e] eqn:El; [|done]. destruct (Lstat_Ok _ _ _ El) as [[? _]|(Hn' & _)]; [done|].
  assert (Live (o_entry op) = true) as Hl by (unfold Live; by rewrite Hk). rewrite <- (f_equal snd E : _ = tr').
  destruct (negb (Size n' =? esize (o_entry op)) || negb (ourTime (nd_mtime n') (emtime (o_entry op)))) eqn:Eg.
  - right. split; [done|]. rewrite commit_fs, commit_records. split; [by exists n'|]. eexists. simpl. by rewrite lookup_insert_eq.
  - left. bool_hyps. destruct (Hw tr n n' Hn Hn') as [->|[?|?]]; [by apply put_lands|congruence|congruence].
Qed.

(** *** Calls that succeed *)

Lemma Chmod_Ok f p mode f' : Chmod f p mode = (None, f') ->
  exists n, fo_nodes f !! p = Some n /\ fo_nodes f' !! p = Some (with_perm n (if IsDir n then safeMode mode else createMode (safeMode mode)) (fo_clock f)).
Proof.
  unfold Chmod. destruct (parent f p); [done|]. unfold lstatNoLink. destruct (lstat_at f p) as [n|] eqn:El; [|done]. destruct (IsLink n); [done|]. destruct (refused f CChmod p); [done|].
  intros [= <-]. apply lstat_at_Ok in El as [Hn _]. exists n. split; [done|]. simpl. apply lookup_insert_eq.
Qed.

Lemma Chtimes_Ok f p t f' : Chtimes f p t = (None, f') -> exists n, fo_nodes f !! p = Some n /\ fo_nodes f' !! p = Some (with_times n t (fo_clock f)).
Proof.
  unfold Chtimes. destruct (parent f p); [done|]. unfold lstatNoLink. destruct (lstat_at f p) as [n|] eqn:El; [|done]. destruct (IsLink n); [done|]. destruct (refused f CChtimes p); [done|].
  intros [= <-]. apply lstat_at_Ok in El as [Hn _]. exists n. split; [done|]. simpl. apply lookup_insert_eq.
Qed.

Lemma Mkdir_Ok f p mode f' : Mkdir f p mode = (None, f') -> exists n, fo_nodes f' !! p = Some n /\ nd_body n = BDir.
Proof.
  unfold Mkdir, mkdir_at. destruct (parent f p); [done|]. destruct (refused f CMkdir p); [done|]. destruct (fo_nodes f !! p); [done|]. intros [= <-]. eexists. simpl. by rewrite lookup_insert_eq.
Qed.

Lemma Symlink_Ok f p reserved target f' : Symlink_ reserved f target p = (None, f') -> exists n, fo_nodes f' !! p = Some n /\ nd_body n = BLink target.
Proof.
  unfold Symlink_. destruct (checkReserved reserved p); [done|]. destruct (parent f p); [done|]. destruct (refused f CSymlink p); [done|]. destruct (fo_nodes f !! p); [done|].
  intros [= <-]. eexists. simpl. by rewrite lookup_insert_eq.
Qed.

Lemma Readlink_Ok f p t : Readlink f p = Ok t -> exists n, fo_nodes f !! p = Some n /\ nd_body n = BLink t.
Proof.
  unfold Readlink. destruct (parent f p); [done|]. destruct (refused f CReadlink p); [done|]. destruct (fo_nodes f !! p) as [n|]; [|done]. destruct (nd_body n) eqn:E; try done.
  intros [= ->]. by exists n.
Qed.

(** *** Folders, links and deletes *)

Lemma remove_lands op at_ tr tr' : wf_folder (tr_fs tr) -> honest (tr_fs tr) -> o_path op <> "." -> lc_info at_ = fo_nodes (tr_fs tr) !! o_path op -> ekind (o_entry op) = Gone ->
  remove cfg ev op at_ tr = (None, tr') -> lands op tr'.
Proof.
  intros Hwf Hh Hd Ei Hk. destruct (clear_own cfg (o_path op) at_ tr Hwf Hh Ei) as [_ Hc]. unfold remove. destruct (clear cfg (o_path op) at_ tr) as [[e|] tr1]; [done|]. intros E.
  eapply recordNow_lands; [done|exact E|]. unfold Live. rewrite Hk. simpl. by apply Hc.
Qed.

Lemma Live_kind e k : ekind e = k -> k <> Gone -> Live e = true.
Proof. unfold Live. intros -> H. by rewrite bool_decide_eq_false_2. Qed.

Lemma chmod_dir_lands op f f' tr tr' n : o_path op <> "." -> ekind (o_entry op) = Dir -> check (o_entry op) = None -> fo_nodes f !! o_path op = Some n -> nd_body n = BDir ->
  Chmod f (o_path op) (fileMode Dir (emode (o_entry op))) = (None, f') -> recordNow ev op (set_fs tr f') = (None, tr') -> lands op tr'.
Proof.
  intros Hd Hk Hc Hn Hb (n0 & Hn0 & Hn')%Chmod_Ok E. assert (n0 = n) as -> by congruence. eapply recordNow_lands; [done|exact E|]. rewrite (Live_kind _ Dir) by done.
  simpl. intros m Hm. rewrite Hn' in Hm. injection Hm as <-. unfold IsDir. rewrite Hb. unfold shows. rewrite Hk. split; [done|].
  rewrite (dir_mode_of _ (emode (o_entry op))) by done. by apply check_dir_mode.
Qed.

Lemma makeDir_lands op at_ tr tr' : o_path op <> "." -> lc_info at_ = fo_nodes (tr_fs tr) !! o_path op -> ekind (o_entry op) = Dir -> check (o_entry op) = None ->
  makeDir cfg ev op at_ tr = (None, tr') -> lands op tr'.
Proof.
  intros Hd Ei Hk Hc. unfold makeDir. rewrite Ei. destruct (match fo_nodes (tr_fs tr) !! o_path op with Some info => IsDir info | None => false end) eqn:Edir.
  - destruct (fo_nodes (tr_fs tr) !! o_path op) as [info|] eqn:En; [|done]. assert (nd_body info = BDir) as Hb by (unfold IsDir in Edir; by destruct (nd_body info)).
    destruct (Z.eqb_spec (fileMode Dir (Mode info)) (fileMode Dir (emode (o_entry op)))) as [Em|].
    + intros E. eapply recordNow_lands; [done|exact E|]. rewrite (Live_kind _ Dir) by done. intros m Hm. assert (m = info) as -> by congruence. unfold shows. rewrite Hk. split; [done|].
      rewrite Em. by apply check_dir_mode.
    + destruct (Chmod _ _ _) as [[e|] f] eqn:Ech; [done|]. by eapply chmod_dir_lands.
  - destruct (clear cfg (o_path op) at_ tr) as [[e|] tr1]; [done|]. destruct (mkdirParents cfg (o_path op) tr1) as [[e|] tr2]; [done|].
    destruct (Mkdir _ _ _) as [[e|] f] eqn:Emk; [done|]. destruct (Mkdir_Ok _ _ _ _ Emk) as (n & Hn & Hb). destruct (Chmod f _ _) as [[e|] f'] eqn:Ech; [done|]. by eapply chmod_dir_lands.
Qed.

Lemma makeLink_lands op at_ tr tr' : o_path op <> "." -> ekind (o_entry op) = Symlink -> makeLink cfg ev op at_ tr = (None, tr') -> lands op tr'.
Proof.
  intros Hd Hk. unfold makeLink. assert (forall tr n, fo_nodes (tr_fs tr) !! o_path op = Some n -> nd_body n = BLink (etarget (o_entry op)) -> recordNow ev op tr = (None, tr') -> lands op tr') as Hl.
  { intros tr0 n Hn Hb E. eapply recordNow_lands; [done|exact E|]. rewrite (Live_kind _ Symlink) by done. intros m Hm. assert (m = n) as -> by congruence. unfold shows. by rewrite Hk. }
  destruct (_ && _) eqn:Eb.
  - apply andb_true_iff in Eb as [_ Eb]. destruct (Readlink _ _) as [t|] eqn:Er; [|done]. apply String.eqb_eq in Eb as ->. destruct (Readlink_Ok _ _ _ Er) as (n & Hn & Hb). by eapply Hl.
  - destruct (clear cfg (o_path op) at_ tr) as [[e|] tr1]; [done|]. destruct (mkdirParents cfg (o_path op) tr1) as [[e|] tr2]; [done|].
    destruct (Symlink_ _ _ _ _) as [[e|] f] eqn:Es; [done|]. destruct (Symlink_Ok _ _ _ _ _ Es) as (n & Hn & Hb). by eapply Hl.
Qed.

(** *** Files *)

Lemma written_lands op n data tr tr' : writes_show op (ev_others ev 6) -> o_path op <> "." -> ekind (o_entry op) = File -> check (o_entry op) = None -> recordWritten ev op tr = (None, tr') ->
  fo_nodes (tr_fs tr) !! o_path op = Some n -> nd_body n = BFile data -> Z.of_nat (String.length data) = esize (o_entry op) -> hashOf data = ehash (o_entry op) ->
  fileMode File (Mode n) = emode (o_entry op) -> nd_mtime n = emtime (o_entry op) -> lands op tr' \/ left_dirty op tr'.
Proof.
  intros Hw Hd Hk Hc E Hn Hb Hsz Hh Hm Ht. eapply (recordWritten_lands op n); [done|done|done|exact E|done| | |done].
  - unfold shows. rewrite Hk. by exists data.
  - unfold Size. by rewrite Hb.
Qed.

Lemma replaceFile_lands op at_ content a tr tr' : writes_show op (ev_others ev 6) -> (forall n, honest_others (ev_others ev n)) -> synced cfg (o_path op) = true -> ekind (o_entry op) = File -> check (o_entry op) = None ->
  (forall m, lc_info at_ = Some m -> found (o_path op) (o_rev op) at_ a) -> ids_below a -> later a tr -> wf_folder (tr_fs tr) -> honest (tr_fs tr) -> replaceFile cfg ev op at_ content tr = (None, tr') -> lands op tr' \/ left_dirty op tr'.
Proof.
  intros Hw Ho Hs Hk Hc Hf Hids Hl Hwf Hh. assert (o_path op <> ".") as Hd by (by eapply valid_elems_not_dot, synced_elems). unfold replaceFile. destruct (room _ _ _); [done|].
  pose proof (mkdir_run cfg ev op at_ tr Hs) as R1. destruct (if lc_exists at_ then _ else _) as [[e|] tr1]; [done|]. simpl in R1. cbv zeta. destruct (content op 0) as [read|e]; [|done].
  assert (rtc (apply_step cfg ev op) tr (ev_others ev 0 tr1)) as R2 by (etrans; [exact R1|apply others_run]). destruct (steps_good _ _ Ho _ _ _ R2 (conj Hwf Hh)) as [Hwf2 Hh2].
  pose proof (replace_run cfg ev Ho op at_ a (ev_others ev 0 tr1) (ev_rands ev) (match read with Ok data => verified op data | Err e => Err e end) Hs Hf Hids) as R3.
  specialize (R3 (later_trans _ _ _ Hl (steps_later _ _ Ho _ _ _ R2)) Hwf2 Hh2).
  destruct (ReplaceFile _ _ _ _ _ _ _ _ _ _ _) as [[n|e] tr2]; [|done]. destruct R3 as [_ Hok]. destruct (Hok n eq_refl) as (data & Hread & Hn & Hb & Hp & Ht). intros E.
  destruct read as [d|]; [|done]. unfold verified in Hread. destruct (_ && _) eqn:Ev; [|done]. injection Hread as ->. bool_hyps.
  eapply (written_lands op n data); try done. rewrite (file_mode_of n data (emode (o_entry op))) by done. by apply check_file_mode.
Qed.

(** What the append sees of a file whose fingerprint is the record's. *)
Lemma append_bytes_Ok p st suffix f f' landed data : fo_nodes f !! p = Some st -> nd_body st = BFile data -> append_bytes ev p st suffix f = (f', landed, None) ->
  exists st', fo_nodes f' !! p = Some st' /\ nd_body st' = BFile (data +:+ suffix) /\ nd_perm st' = nd_perm st.
Proof.
  intros Hp Hb. unfold append_bytes. rewrite Hb. cbv zeta. destruct (refused f CWrite p); [done|]. destruct (refused f CClose p); [done|]. intros [= <- <-].
  destruct (String.eqb_spec suffix "") as [->|].
  - exists st. by rewrite append_nil_r.
  - eexists. simpl. rewrite lookup_insert_eq. by split_and!.
Qed.

Lemma append_locked_lands op at_ info suffix data tr tr' : writes_show op (ev_others ev 6) -> o_path op <> "." -> ekind (o_entry op) = File -> check (o_entry op) = None ->
  (forall st, fo_nodes (tr_fs tr) !! o_path op = Some st -> fingerprintOf st = fingerprintOf info -> nd_body st = BFile data) ->
  Z.of_nat (String.length (data +:+ suffix)) = esize (o_entry op) -> hashOf (data +:+ suffix) = ehash (o_entry op) ->
  append_locked ev op at_ info suffix tr = (None, tr') -> lands op tr' \/ left_dirty op tr'.
Proof.
  intros Hw Hd Hk Hc Hdata Hsz Hh. unfold append_locked. destruct (still _ _ _); [done|]. destruct (Open _ _) as [st|] eqn:Eo; [|done]. apply Open_Ok in Eo as [Hst Hr].
  case_bool_decide as Efp; [|done]. cbn [negb]. pose proof (Hdata _ Hst Efp) as Hb. assert (Mode st = Mode info) as Em.
  { unfold fingerprintOf, IsDir in Efp. rewrite Hb in Efp. destruct (nd_body info); congruence. }
  destruct (append_bytes _ _ _ _ _) as [[f landed] [e|]] eqn:Ea; [done|]. destruct (append_bytes_Ok _ _ _ _ _ _ _ Hst Hb Ea) as (st' & Hst' & Hb' & Hp').
  assert (forall f1 f2 st1, fo_nodes f1 !! o_path op = Some st1 -> nd_body st1 = BFile (data +:+ suffix) -> fileMode File (Mode st1) = emode (o_entry op) ->
    Chtimes f1 (o_path op) (emtime (o_entry op)) = (None, f2) -> recordWritten ev op (set_fs (set_fs tr f) f2) = (None, tr') -> lands op tr' \/ left_dirty op tr') as Hfin.
  { intros f1 f2 st1 H1 H2 H3 (n & Hn & Hn')%Chtimes_Ok E. assert (n = st1) as -> by congruence. by eapply written_lands. }
  destruct (Z.eqb_spec (fileMode File (Mode info)) (emode (o_entry op))) as [Emode|].
  - destruct (Chtimes _ _ _) as [[e|] f2] eqn:Et; [done|]. intros E. eapply (Hfin f f2 st'); try done. rewrite <- Emode, <- Em. unfold Mode. by rewrite Hb', Hb, Hp'.
  - destruct (Chmod _ _ _) as [[e|] f1] eqn:Ech; [done|]. destruct (Chtimes _ _ _) as [[e|] f2] eqn:Et; [done|]. intros E. destruct (Chmod_Ok _ _ _ _ Ech) as (n0 & Hn & Hn').
    assert (n0 = st') as -> by congruence. eapply (Hfin f1 f2); try done. rewrite (file_mode_of _ (data +:+ suffix) (emode (o_entry op))); [by apply check_file_mode|done|].
    unfold IsDir. rewrite Hb'. simpl. apply createMode_safeMode.
Qed.

(** Other writers do not change a file's content under the same size, times, mode and inode. *)
Definition keeps_content (o : treeRoot -> treeRoot) : Prop :=
  forall tr p n n', fo_nodes (tr_fs tr) !! p = Some n -> fo_nodes (tr_fs (o tr)) !! p = Some n' -> fingerprintOf n' = fingerprintOf n -> nd_body n' = nd_body n.

Lemma appendFile_lands op at_ info offset content tr tr' : writes_show op (ev_others ev 6) -> keeps_content (ev_others ev 3) -> o_path op <> "." -> ekind (o_entry op) = File -> check (o_entry op) = None ->
  0 <= offset -> Size info = offset -> appendFile cfg ev op at_ info offset content tr = (None, tr') -> lands op tr' \/ left_dirty op tr'.
Proof.
  intros Hw Hkc Hd Hk Hc Ho Hi. unfold appendFile. destruct (room _ _ _); [done|]. cbv zeta. set (s := ev_others ev 2 tr). destruct (content op offset) as [[all|e]|e]; [|done..].
  set (suffix := take_bytes _ all). destruct (Z.eqb_spec (Z.of_nat (String.length suffix)) (esize (o_entry op) - offset)) as [Hlen|]; [|done]. cbn [negb].
  destruct (Open _ _) as [st|] eqn:Eo; [|done]. apply Open_Ok in Eo as [Hst Hr]. case_bool_decide as Efp; [|done]. cbn [negb]. destruct (refused _ _ _); [done|].
  unfold IsRegular in Hr. destruct (nd_body st) as [data| | |] eqn:Hb; try done. destruct (Z.ltb_spec (Z.of_nat (String.length data)) offset) as [|Hge]; [done|].
  assert (Z.of_nat (String.length data) = offset) as Hdl.
  { unfold fingerprintOf, IsDir in Efp. rewrite Hb in Efp. unfold Size in Hi, Efp. rewrite Hb in Efp. destruct (nd_body info); injection Efp; intros; lia. }
  assert (take_bytes (Z.to_nat offset) data = data) as -> by (rewrite <- Hdl, Nat2Z.id; rewrite <- (append_nil_r data) at 2; apply take_bytes_app).
  destruct (String.eqb_spec (hashOf (data +:+ suffix)) (ehash (o_entry op))) as [Hh|]; [|done]. cbn [negb].
  apply append_locked_lands with (data := data); try done.
  - intros st' Hst' Efp'. rewrite (Hkc s _ _ _ Hst Hst'); [done|congruence].
  - rewrite length_append. lia.
Qed.

Lemma extends_size e held : 0 < extends e held -> ekind held = File /\ extends e held = esize held.
Proof.
  unfold extends. destruct (bool_decide_reflect (ekind held = File)) as [Hk|]; [|rewrite orb_true_r; simpl; lia]. destruct (_ || _); [lia|].
  destruct (find _ _) as [q|] eqn:Ef; [|lia]. intros _. split; [done|]. apply find_some in Ef as [_ Hq]. bool_hyps. lia.
Qed.

Lemma found_shows op at_ a i rec info : found (o_path op) (o_rev op) at_ a -> truthful (o_path op) a -> lc_rec at_ = Some (i, rec) -> lc_info at_ = Some info -> shows (rc_Entry rec) info.
Proof.
  intros (Er & Ei & Hs) Ht Hr Hi. unfold seen in Hs. rewrite <- Ei, Hi in Hs. destruct Hs as (i' & r & Hr' & _ & Hl & _ & Hfp). rewrite Er in Hr. assert (r = rec) as -> by congruence.
  apply Ht; [by unfold rec_at; rewrite Hr|done|congruence|done].
Qed.

Lemma writeFile_lands op at_ a tr' : writes_show op (ev_others ev 6) -> (forall n, honest_others (ev_others ev n)) -> keeps_content (ev_others ev 3) -> synced cfg (o_path op) = true -> ekind (o_entry op) = File ->
  check (o_entry op) = None -> found (o_path op) (o_rev op) at_ a -> truthful (o_path op) a -> ids_below a -> wf_folder (tr_fs a) -> honest (tr_fs a) ->
  writeFile cfg ev op at_ a = (None, tr') -> lands op tr' \/ left_dirty op tr'.
Proof.
  intros Hw Ho Hkc Hs Hk Hc Hf Htr Hids Hwf Hh. assert (o_path op <> ".") as Hd by (by eapply valid_elems_not_dot, synced_elems). unfold writeFile. destruct (ev_content ev) as [content|]; [|done].
  assert (forall tr, rtc (apply_step cfg ev op) a tr -> replaceFile cfg ev op at_ content tr = (None, tr') -> lands op tr' \/ left_dirty op tr') as Hrep.
  { intros tr R. destruct (steps_good _ _ Ho _ _ _ R (conj Hwf Hh)). eapply replaceFile_lands; eauto using steps_later. }
  destruct (match lc_info at_ with Some n => IsDir n | None => false end) eqn:Edir.
  - pose proof (others_run cfg ev op 4 a) as R. set (tr := ev_others ev 4 a) in *. destruct (still (o_path op) at_ tr) as [e|] eqn:Es; [done|].
    pose proof (cleared_run cfg ev Ho op at_ a Hs Hf Hids Hwf Hh Edir Es) as Hcl. fold tr in Hcl. destruct (clear cfg (o_path op) at_ tr) as [[e|] tr1]; [done|]. destruct Hcl as [R1 Hgone].
    destruct (steps_good _ _ Ho _ _ _ R1 (conj Hwf Hh)). apply (replaceFile_lands op _ _ a); eauto using steps_later; done.
  - destruct (lc_info at_) as [info|] eqn:Ei; [|by apply Hrep]. destruct (lc_rec at_) as [[i rec]|] eqn:Er; [|by apply Hrep]. destruct (_ && _) eqn:Eb; [|by apply Hrep].
    apply andb_true_iff in Eb as [Eb _]. apply Z.ltb_lt in Eb. destruct (extends_size _ _ Eb) as [Hkr Hoff].
    pose proof (appendFile_run cfg ev Ho op at_ info (extends (o_entry op) (rc_Entry rec)) content a Hf Hd Hids Hwf Hh) as R.
    destruct (appendFile _ _ _ _ _ _ _ _) as [[e|] tr1] eqn:Ea; [destruct e; try done; by apply Hrep|]. intros [= <-]. eapply appendFile_lands; [done|done|done|done|done| | |exact Ea]; [lia|].
    pose proof (found_shows op at_ a i rec info Hf Htr Er Ei) as Hsh. unfold shows in Hsh. rewrite Hkr in Hsh. destruct Hsh as (d & Hb & Hl & _). unfold Size. rewrite Hb. lia.
Qed.

Lemma apply_at_lands op at_ a tr' : writes_show op (ev_others ev 6) -> (forall n, honest_others (ev_others ev n)) -> keeps_content (ev_others ev 3) -> synced cfg (o_path op) = true -> check (o_entry op) = None ->
  found (o_path op) (o_rev op) at_ a -> truthful (o_path op) a -> ids_below a -> wf_folder (tr_fs a) -> honest (tr_fs a) -> apply_at cfg ev op at_ a = (None, tr') -> lands op tr' \/ left_dirty op tr'.
Proof.
  intros Hw Ho Hkc Hs Hc Hf Htr Hids Hwf Hh. assert (o_path op <> ".") as Hd by (by eapply valid_elems_not_dot, synced_elems). pose proof Hf as (_ & Ei & _).
  unfold apply_at. destruct (already_there op at_) as [info|] eqn:Ea.
  - unfold already_there in Ea. destruct (lc_rec at_) as [[i r]|] eqn:Er; [|done]. destruct (lc_info at_) as [n|] eqn:Ein; [|done]. destruct (Same _ _) eqn:Esame; [|done]. injection Ea as <-.
    intros E. left. rewrite <- (f_equal snd E : _ = tr'). apply recordOp_lands; [done|]. eapply Same_shows; [done|]. by eapply found_shows.
  - unfold lc_exists. destruct (match lc_info at_ with Some _ => true | None => false end) eqn:Ex; cbn [negb andb].
    + destruct (ekind (o_entry op)) eqn:Hk; [intros E; left; by eapply remove_lands|by eapply writeFile_lands|intros E; left; by eapply makeDir_lands|intros E; left; by eapply makeLink_lands|unfold check in Hc; by rewrite Hk in Hc].
    + destruct (Live (o_entry op)) eqn:Hl; cbn [negb]; [|intros E; left; rewrite <- (f_equal snd E : _ = tr'); apply drop_lands; [done|rewrite <- Ei; by destruct (lc_info at_)]].
      destruct (ekind (o_entry op)) eqn:Hk; [by unfold Live in Hl; rewrite Hk in Hl|by eapply writeFile_lands|intros E; left; by eapply makeDir_lands|intros E; left; by eapply makeLink_lands|unfold check in Hc; by rewrite Hk in Hc].
Qed.
End lands.

Lemma classify_Applied Error err s (a b : treeRoot) : (classify Error err, a) = ((Applied, s), b) -> err = None /\ a = b.
Proof. intros H. split; [|by injection H]. apply (f_equal fst) in H. by destruct err as [[[p []]| |[]| | | | | | | | | |]|]. Qed.

(** How an op is answered as applied. *)
Lemma apply_Applied cfg (C : journal_codec treeRecord) Error check_text ev op tr tr' why :
  tc_ReadOnly cfg = false -> wf_folder (tr_fs tr) -> honest (tr_fs tr) -> apply cfg Error check_text ev op tr = ((Applied, why), tr') ->
  synced cfg (o_path op) = true /\ check (o_entry op) = None /\ exists at_, found (o_path op) (o_rev op) at_ tr /\ apply_at cfg ev op at_ tr = (None, tr').
Proof.
  intros Hro Hwf Hh. unfold apply. destruct (synced cfg (o_path op)) eqn:Hs; [|done]. cbn [negb]. rewrite Hro. destruct (check (o_entry op)) eqn:Hc; [done|].
  destruct (newer_rev op tr) eqn:En; [done|]. destruct (look (o_path op) tr) as [at_ [e|]] eqn:El; [by intros [? _]%classify_Applied|].
  assert (found (o_path op) (o_rev op) at_ tr) as Hf by (apply look_found; try done; by eapply valid_elems_not_dot, synced_elems).
  destruct (apply_at cfg ev op at_ tr) as [e tr1] eqn:Ea. intros [-> ->]%classify_Applied. eauto.
Qed.

