(* ===== verification/SideDurable.v ===== *)
(** * A side's records across restarts (internal/sharesync/tree.go: putRecord, dropRecord, commit, compact, openRoot)

    What a root's journal says of its records, kept by every change of them, and
    that opening the root again reads back the records committed. *)

From S2P Require Import Prelude GoStrings GoText Sha256 Entry Paths SyncPolicy Mergers Journal SafeFs SafeFsLaws SideTree SideApply SideApplyLaws SideApplyLands.
Local Open Scope string_scope.
Local Open Scope Z_scope.
Local Open Scope list_scope.

(** ** Calls that succeed *)

Section faultless.
Context `{C : !journal_codec treeRecord}.
Implicit Types (j : journal treeRecord) (d : disk).

Lemma commit_works j d : d_faults d = [] -> j_log j = true -> exists j' d', commit j d = (None, j', d') /\ d_faults d' = [] /\ j_log j' = true.
Proof. intros Hf Hl. unfold commit, syscall. rewrite Hl, Hf. destruct (j_pending j); [by exists j, d|]. by eexists _, _. Qed.

Lemma compact_works j d snap : d_faults d = [] -> j_log j = true -> exists j' d', compact j d snap = (None, j', d').
Proof.
  intros Hf Hl. unfold compact. rewrite Hl. cbn [negb]. destruct (commit_works j d Hf Hl) as (j1 & d1 & -> & Hf1 & Hl1). rewrite !attempt_good by done. by eexists _, _.
Qed.
End faultless.

Section durable.
Context (cfg : treeConf) `{C : !journal_codec treeRecord}.

(** ** What a journal says of a root *)

Record tree_says (recs : gmap string (option treeRecord)) (tr : treeRoot) : Prop := {
  ts_records p : p <> metaKey -> recs !! p = (fun ir => Some (TRec ir.2)) <$> tr_records tr !! p;
  ts_meta : recs !! metaKey = Some (Some (TMeta (meta_of tr)));
  ts_valid p i r : tr_records tr !! p = Some (i, r) -> validPath p = true /\ check (rc_Entry r) = None /\ utf8 (TRec r);
  ts_epoch : ValidString (tr_epoch tr) = true
}.

(** An open root whose records are what its journal and its open batch say. *)
Definition tracked (tr : treeRoot) : Prop :=
  exists recs, Repr (tr_journal tr) (tr_disk tr) recs /\ all_readable (j_pending (tr_journal tr)) /\ tree_says (apply_batch recs (j_pending (tr_journal tr))) tr /\ tr_closed tr = false.

(** The journal's numbers do not run out. *)
Definition room_for (tr : treeRoot) (n : nat) : Prop := j_seq (tr_journal tr) + Z.of_nat (length (j_pending (tr_journal tr)) + n) < 2 ^ 64.

Lemma validPath_key p : validPath p = true -> ValidString p = true /\ p <> metaKey.
Proof. unfold validPath, fs_ValidPath. intros H. bool_hyps. split; [done|]. intros ->. done. Qed.

Lemma apply_batch_snoc (recs : gmap string (option treeRecord)) ls l : apply_batch recs (ls ++ [l]) = apply_line (apply_batch recs ls) l.
Proof. unfold apply_batch. by rewrite foldl_app. Qed.

Lemma putRecord_tracked p rec tr : validPath p = true -> check (rc_Entry rec) = None -> utf8 (TRec rec) -> tracked tr -> tracked (putRecord p rec tr).
Proof.
  intros Hv Hc Hu (recs & HR & Hk & [T1 T2 T3 T4] & Hcl). destruct (validPath_key p Hv) as [Hs Hm]. exists recs. simpl. split_and!; [done|apply Forall_app; split; [done|constructor; [split; [done|by intros w [= <-]]|constructor]]| |done].
  rewrite apply_batch_snoc. unfold apply_line. simpl. constructor; simpl.
  - intros q Hq. destruct (decide (p = q)) as [<-|]; [by rewrite !lookup_insert_eq|]. rewrite !lookup_insert_ne by done. by apply T1.
  - by rewrite lookup_insert_ne.
  - intros q i r [[<- [= _ <-]]|[_ Hq]]%lookup_insert_Some; [done|by eapply T3].
  - done.
Qed.

Lemma dropRecord_tracked p tr : validPath p = true -> tracked tr -> tracked (dropRecord p tr).
Proof.
  intros Hv (recs & HR & Hk & [T1 T2 T3 T4] & Hcl). destruct (validPath_key p Hv) as [Hs Hm]. unfold dropRecord. destruct (tr_records tr !! p) as [ir|]; [|by exists recs].
  exists recs. simpl. split_and!; [done|apply Forall_app; split; [done|constructor; [by split|constructor]]| |done]. rewrite apply_batch_snoc. unfold apply_line. simpl. constructor; simpl.
  - intros q Hq. destruct (decide (p = q)) as [<-|]; [by rewrite !lookup_delete_eq|]. rewrite !lookup_delete_ne by done. by apply T1.
  - by rewrite lookup_delete_ne.
  - intros q i r [_ Hq]%lookup_delete_Some. by eapply T3.
  - done.
Qed.

Lemma snapshot_says tr recs : tree_says recs tr -> tree_says (Some <$> snapshot_of tr) tr /\ map_Forall (fun k v => readable k (Some v)) (snapshot_of tr).
Proof.
  intros [T1 T2 T3 T4]. unfold snapshot_of. split.
  - constructor; [| |done|done].
    + intros p Hp. rewrite lookup_fmap, lookup_insert_ne, lookup_fmap by done. by destruct (tr_records tr !! p).
    + by rewrite lookup_fmap, lookup_insert_eq.
  - intros k v [[<- <-]|[_ Hk]]%lookup_insert_Some; [split; [done|]; intros w [= <-]; by repeat constructor|]. rewrite lookup_fmap in Hk. destruct (tr_records tr !! k) as [[i r]|] eqn:E; [|done].
    injection Hk as <-. apply T3 in E as (Hv & _ & Hu). split; [by apply validPath_key|]. by intros w [= <-].
Qed.

(** A commit, compacting or not, leaves the records in the files. *)
Lemma commit_tracked tr tr' : tracked tr -> room_for tr 0 -> tree_commit tr = (None, tr') -> tracked tr' /\ j_pending (tr_journal tr') = [].
Proof.
  intros (recs & HR & Hk & Hsay & Hcl) Hroom. unfold tree_commit. rewrite Hcl. unfold room_for in Hroom. rewrite Nat.add_0_r in Hroom.
  pose proof (commit_spec (tr_journal tr) (tr_disk tr) recs HR Hk Hroom) as Hc. destruct (commit (tr_journal tr) (tr_disk tr)) as [[[e|] j] d] eqn:Ec; [done|]. destruct Hc as [Hp HR'].
  set (recs' := apply_batch recs (j_pending (tr_journal tr))) in *.
  assert (tracked (set_tree_journal tr j d)) as HT by (exists recs'; simpl; rewrite Hp; split_and!; [done|constructor| |done]; destruct Hsay; by constructor).
  destruct (due _ _); [|intros [= <-]; by split]. unfold tree_compact. change (tr_journal (set_tree_journal tr j d)) with j. change (tr_disk (set_tree_journal tr j d)) with d.
  change (snapshot_of (set_tree_journal tr j d)) with (snapshot_of tr). destruct (snapshot_says tr recs' Hsay) as [Hs Hval].
  assert (j_seq j + Z.of_nat (length (j_pending j)) < 2 ^ 64) as Hroom' by (rewrite Hp; destruct HR' as (? & ? & ? & _ & _ & ? & _); simpl; lia).
  pose proof (compact_spec j d recs' (snapshot_of tr) HR' ltac:(rewrite Hp; constructor) Hroom' Hval) as Hcs. destruct (compact j d (snapshot_of tr)) as [[[e|] j'] d'] eqn:Ecm; [done|].
  destruct Hcs as [HR2 Hp2]. intros [= <-]. split; [|done]. exists (Some <$> snapshot_of tr). simpl. rewrite Hp2. split_and!; [done|constructor| |done]. destruct Hs. by constructor.
Qed.

(** ** Reading the records back *)

Lemma load_one_other p tr kv : kv.1 <> p -> tr_records (load_one tr kv) !! p = tr_records tr !! p.
Proof. destruct kv as [k v]. simpl. intros Hk. destruct (String.eqb k metaKey); [done|]. destruct (read_record k v); [|done]. simpl. by rewrite lookup_insert_ne. Qed.

Lemma load_all p v ls : NoDup ls.*1 -> (p, v) ∈ ls -> p <> metaKey -> forall tr, tr_records tr !! p = None -> rec_at (foldl load_one tr ls) p = read_record p v.
Proof.
  intros Hnd Hin Hp. induction ls as [|kv ls IH]; intros tr Hn; [by apply elem_of_nil in Hin|]. apply NoDup_cons in Hnd as [Hk Hnd]. simpl. apply elem_of_cons in Hin as [<-|Hin].
  - assert (forall ls tr, p ∉ ls.*1 -> tr_records (foldl load_one tr ls) !! p = tr_records tr !! p) as Hrest.
    { clear. intros ls. induction ls as [|kv ls IH]; intros tr Hp; [done|]. simpl. apply not_elem_of_cons in Hp as [? ?]. rewrite IH by done. by apply load_one_other. }
    unfold rec_at. rewrite Hrest by done. simpl. rewrite (proj2 (String.eqb_neq p metaKey)) by done. destruct (read_record p v); simpl; [by rewrite lookup_insert_eq|by rewrite Hn].
  - apply IH; [done|done|]. rewrite load_one_other; [done|]. intros E. apply Hk. rewrite E. by apply (list_elem_of_fmap_2 fst _ (p, v)).
Qed.

Lemma load_none p ls : p ∉ ls.*1 -> forall tr, rec_at (foldl load_one tr ls) p = rec_at tr p.
Proof.
  induction ls as [|kv ls IH]; intros Hp tr; [done|]. simpl. apply not_elem_of_cons in Hp as [? ?]. rewrite IH by done. unfold rec_at. by rewrite load_one_other.
Qed.

Lemma load_frame ls : forall tr, let tr' := foldl load_one tr ls in
  tr_epoch tr' = tr_epoch tr /\ tr_closed tr' = tr_closed tr /\ tr_disk tr' = tr_disk tr /\ j_log (tr_journal tr') = j_log (tr_journal tr).
Proof.
  induction ls as [|[k v] ls IH]; intros tr; [done|]. cbv zeta. cbn [foldl]. specialize (IH (load_one tr (k, v))). cbv zeta in IH. destruct IH as (-> & -> & -> & ->). simpl.
  destruct (String.eqb k metaKey); [done|]. by destruct (read_record k v).
Qed.

Lemma loaded_records recs tr tr0 : tree_says recs tr -> (forall p, tr_records tr0 !! p = None) -> forall p, rec_at (foldl load_one tr0 (map_to_list recs)) p = rec_at tr p.
Proof.
  intros [T1 T2 T3 T4] H0 p. destruct (decide (p = metaKey)) as [->|Hp].
  - assert (forall ls tr, tr_records (foldl load_one tr ls) !! metaKey = tr_records tr !! metaKey) as Hm.
    { clear. intros ls. induction ls as [|kv ls IH]; intros tr; [done|]. simpl. rewrite IH. destruct (decide (kv.1 = metaKey)) as [E|]; [|by apply load_one_other]. destruct kv as [k v]. simpl in *. by rewrite E. }
    unfold rec_at. rewrite Hm, H0. destruct (tr_records tr !! metaKey) as [[i r]|] eqn:E; [|done]. by apply T3 in E as [? _].
  - specialize (T1 p Hp). destruct (tr_records tr !! p) as [[i r]|] eqn:E; simpl in T1.
    + rewrite (load_all p (Some (TRec r))); [|apply NoDup_fst_map_to_list|by apply elem_of_map_to_list|done|apply H0].
      destruct (T3 _ _ _ E) as (Hv & Hc & _). unfold read_record, rec_at. by rewrite Hv, bool_decide_eq_true_2, E.
    + rewrite load_none; [unfold rec_at; by rewrite H0, E|]. intros ([k v] & Hk & Hin)%list_elem_of_fmap. simpl in Hk. subst k. apply elem_of_map_to_list in Hin. congruence.
Qed.
End durable.

Lemma fingerprint_id n : fp_Ino (fingerprintOf n) = nd_ino n /\ fp_Dev (fingerprintOf n) = nd_dev n.
Proof. unfold fingerprintOf. by destruct (IsDir n). Qed.

