(* ===== verification/SideAcks.v ===== *)
(** * A side's unacknowledged changes (internal/sharesync/tree.go: adopt, Acked)

    A change the side has reported is kept, and reported again, until the hub
    answers for that very state. *)

From S2P Require Import Prelude GoStrings GoText Sha256 Entry Paths SyncPolicy Mergers Journal SafeFs SideTree SideApply SideApplyLaws SideApplyLands.
Local Open Scope string_scope.
Local Open Scope Z_scope.
Local Open Scope list_scope.

Section acks.
Context (cfg : treeConf) `{C : !journal_codec treeRecord}.

(** A change of [p] to [e] waits for the hub's answer. *)
Definition waits (p : string) (e : Entry) (tr : treeRoot) : Prop := exists r, rec_at tr p = Some r /\ rc_Sent r = true /\ rc_Entry r = e.

Lemma waits_records p e a b : tr_records b = tr_records a -> waits p e a -> waits p e b.
Proof. unfold waits, rec_at. by intros ->. Qed.

Lemma rec_at_put q rec tr p : rec_at (putRecord q rec tr) p = if String.eqb q p then Some rec else rec_at tr p.
Proof. unfold rec_at. simpl. destruct (String.eqb_spec q p) as [->|]; [by rewrite lookup_insert_eq|by rewrite lookup_insert_ne]. Qed.

Lemma rec_at_drop q tr p : rec_at (dropRecord q tr) p = if String.eqb q p then None else rec_at tr p.
Proof.
  unfold rec_at, dropRecord. destruct (tr_records tr !! q) as [ir|] eqn:E; simpl; destruct (String.eqb_spec q p) as [->|]; [by rewrite lookup_delete_eq|by rewrite lookup_delete_ne|by rewrite E|done].
Qed.

(** *** A new epoch *)

Lemma adopt_all p unseen (ls : list (string * (Z * record))) : forall tr, (forall q ir, (q, ir) ∈ ls -> q = p -> rec_at tr p = Some ir.2) -> NoDup ls.*1 ->
  rec_at (foldl (fun tr pr => putRecord pr.1 (adopted unseen pr.2.2) tr) tr ls) p = if decide (p ∈ ls.*1) then adopted unseen <$> rec_at tr p else rec_at tr p.
Proof.
  induction ls as [|[q ir] ls IH]; intros tr Hls Hnd; [by rewrite decide_False by apply not_elem_of_nil|]. apply NoDup_cons in Hnd as [Hq Hnd]. simpl. destruct (decide (q = p)) as [->|Hne].
  - rewrite IH; [|intros q' ir' Hin ->; exfalso; apply Hq; by apply (list_elem_of_fmap_2 fst _ (p, ir'))|done]. rewrite decide_False by done. rewrite decide_True by (apply elem_of_cons; by left).
    rewrite rec_at_put, String.eqb_refl. rewrite (Hls p ir); [done|apply elem_of_cons; by left|done].
  - assert (String.eqb q p = false) as Eb by (by apply String.eqb_neq). rewrite IH; [|intros q' ir' Hin ->; rewrite rec_at_put, Eb; eapply Hls; [apply elem_of_cons; by right|done]|done].
    rewrite rec_at_put, Eb. destruct (decide (p ∈ ls.*1)) as [Hin|Hn]; [rewrite decide_True by (apply elem_of_cons; by right); done|]. rewrite decide_False; [done|]. by intros [?|?]%elem_of_cons.
Qed.

Lemma adopt_waits epoch p e tr : waits p e tr -> waits p e (adopt epoch true tr).2.
Proof.
  intros (r & Hr & Hs & He). unfold adopt. destruct (_ || _); [by exists r|]. unfold tree_putMeta. set (t := foldl _ _ _).
  assert (rec_at t p = Some (adopted true r)) as Ht.
  { unfold t. rewrite adopt_all; [|intros q ir Hin%elem_of_map_to_list ->; unfold rec_at; by rewrite Hin|apply NoDup_fst_map_to_list]. change (rec_at (set_epoch tr epoch) p) with (rec_at tr p).
    rewrite decide_True; [by rewrite Hr|]. unfold rec_at in Hr. destruct (tr_records tr !! p) as [ir|] eqn:E; [|done]. by apply (list_elem_of_fmap_2 fst _ (p, ir)), elem_of_map_to_list. }
  eapply waits_records; [apply commit_records|]. exists (adopted true r). simpl. split_and!; [done| |done]. destruct (Live _); [done|by rewrite Hs].
Qed.

(** *** Answers *)

(** An answer for the state [e] of [p]. *)
Definition answers (p : string) (e : Entry) (ack : Ack) : Prop :=
  a_path ack = p /\ Same e (a_entry ack) = true /\ (a_status ack = Accepted \/ a_status ack = Superseded).

Lemma take_ack_waits p e ack tr : waits p e tr -> waits p e (take_ack ack tr) \/ answers p e ack.
Proof.
  intros (r & Hr & Hs & He). unfold take_ack. destruct (rec_at tr (a_path ack)) as [r'|] eqn:Er; [|left; by exists r]. destruct (rc_Sent r') eqn:Es; cbn [negb]; [|left; by exists r].
  destruct (String.eqb_spec (a_path ack) p) as [Ep|Hne].
  - rewrite Ep in Er. assert (r' = r) as -> by congruence. rewrite He in *. destruct (Same e (a_entry ack)) eqn:Esame; [|].
    + destruct (a_status ack) eqn:Est; [right; by split_and!; auto|right; by split_and!; auto|left; by exists r|left; by exists r].
    + left. cbn [andb]. destruct (a_status ack); [|by exists r..]. rewrite Ep. eexists. rewrite rec_at_put, String.eqb_refl. split; [done|]. done.
  - left. assert (String.eqb (a_path ack) p = false) as Eb by (by apply String.eqb_neq).
    assert (forall rec, waits p e (putRecord (a_path ack) rec tr)) as Hput by (intros rec; exists r; by rewrite rec_at_put, Eb).
    assert (waits p e (dropRecord (a_path ack) tr)) as Hdrop by (exists r; by rewrite rec_at_drop, Eb).
    destruct (a_status ack); [destruct (_ && _); auto| |by exists r|by exists r]. destruct (negb _); [by exists r|auto].
Qed.

Lemma take_acks_waits p e acks : forall tr, waits p e tr -> waits p e (foldl (fun tr ack => take_ack ack tr) tr acks) \/ exists ack, ack ∈ acks /\ answers p e ack.
Proof.
  induction acks as [|ack acks IH]; intros tr Hw; [by left|]. simpl. destruct (take_ack_waits p e ack tr Hw) as [Hw'|Ha]; [|right; exists ack; split; [by left|done]].
  destruct (IH _ Hw') as [?|(a & ? & ?)]; [by left|right; exists a; split; [by right|done]].
Qed.
End acks.

(** C36: a side forgets a change of its own only on the hub's answer to that very
    state: after a reply is taken, whatever the journal does and whatever epoch the
    reply brings, a change that waited still waits with its state unchanged, unless
    the reply holds an answer for its path accepting or superseding a state that is
    the same. *)
Theorem acked_only_answered (C : journal_codec treeRecord) reply p e tr :
  waits p e tr -> waits p e (Acked reply tr).2 \/ exists ack, ack ∈ reply_acks reply /\ answers p e ack.
Proof.
  intros Hw. unfold Acked. destruct (tr_closed tr); [by left|]. pose proof (adopt_waits (reply_epoch reply) p e tr Hw) as Ha. destruct (adopt _ _ _) as [[err|] tr1]; [by left|]. simpl in Ha.
  destruct (take_acks_waits p e (reply_acks reply) tr1 Ha) as [Hk|?]; [left|by right]. eapply waits_records; [apply commit_records|done].
Qed.
