(* ===== verification/SideScan.v ===== *)
(** * Scanning a folder for changes (internal/sharesync/scan.go; tree.go: settled; apply.go: Fetch)

    The whole of Scan: the folders it walks, what each walk finds, the paths found
    changed or gone, their states as read, and the records and the report made of
    those that are still so at the end; and Fetch, which serves a file's content.
    A scan holds the root's lock only while it compares and records: [sv_others]
    is what other operations of the tree and other writers of the folder do in each
    stretch between, and [sv_view] the folder as a walk lists each of its folders,
    while others write. Go's map order is any;
    here it is that of [map_to_list]. The file infos of a walk are those it listed,
    so asking for one never fails. *)

From S2P Require Import Prelude GoStrings GoText Sha256 Entry Paths SyncPolicy Mergers Journal SafeFs SideTree SideApply.
Local Open Scope string_scope.
Local Open Scope Z_scope.
Local Open Scope list_scope.

(** ** The folders a scan walks *)

Definition inAny (name : string) (folders : list string) : bool := existsb (within name) folders.

(** The paths to scan, cleaned; [None] is everything. *)
Fixpoint cover_paths (paths : list string) : option (list string) :=
  match paths with
  | [] => Some []
  | p :: paths =>
      let p := Clean p in
      if String.eqb p "." || String.eqb p "" then None
      else match cover_paths paths with
           | None => None
           | Some out => Some (if validPath p then p :: out else out)
           end
  end.

(** The sorted paths less those beneath the one kept before. *)
Fixpoint keep_tops (last : option string) (paths : list string) : list string :=
  match paths with
  | [] => []
  | p :: paths => if match last with Some k => within p k | None => false end then keep_tops last paths
                  else p :: keep_tops (Some p) paths
  end.

Definition cover (paths : list string) : list string :=
  match cover_paths paths with
  | None | Some [] => ["."]
  | Some out => keep_tops None (SortFunc Compare out)
  end.

(** The loop of reach for one area: up to the nearest folder that may be there. A
    path has fewer folders above it than bytes. *)
Fixpoint reach_up (fuel : nat) (f : folder) (area : string) : string :=
  match fuel with
  | O => "."
  | S fuel => if String.eqb area "." then area
              else if negb (cannotExist (Lstat f area)) then area
              else reach_up fuel f (path_Dir area)
  end.

Definition reach (f : folder) (areas : list string) : list string :=
  cover (map (fun area => reach_up (S (String.length area)) f area) areas).

(** ** A walk *)

Record walked := MkWalked { wk_observed : gmap string node; wk_problems : list string; wk_again : list string; wk_failed : gmap string terr }.

Definition no_walk : walked := MkWalked ∅ [] [] ∅.

(** What is changed in a candidate: a path a scan found changed, before it is examined. *)
Record candidate := MkCand { ca_name : string; ca_info : option node (* none when it is gone *); ca_prev : Entry; ca_entry : Entry }.

Definition ca_gone (c : candidate) : bool := match ca_info c with Some _ => false | None => true end.
Definition ca_fp (c : candidate) : fingerprint := match ca_info c with Some n => fingerprintOf n | None => no_fingerprint end.

(** Where the lock is free. *)
Inductive stretch := Starting | BeforeWalk (i : nat) | AfterWalk (i : nat) | Walked | BeforeLook (p : string) | WhileRead (p : string) | Looked.

Record scanEnv := MkScanEnv {
  sv_others : stretch -> treeRoot -> treeRoot;
  sv_view : nat -> string -> treeRoot -> folder;  (* the folder as the i-th walk, begun in this root, lists a folder *)
  sv_deeper : nat;                                (* how many folders others nest while a walk goes on *)
  sv_cancelled : stretch -> bool;                 (* the context has ended after a walk, or before a look *)
  sv_now : string -> Z;                           (* the clock as a path is looked at *)
  sv_torn : string -> option string               (* what was read of a file written meanwhile, when not its content *)
}.

Section scan.
Context (cfg : treeConf) `{C : !journal_codec treeRecord} (ev : scanEnv).

(** The callback of the walk of [area]. *)
Definition scan_fn (area : string) (s : walked) (name : string) (d : option node) (err : option ferr) : walked * walk_ctl :=
  let dir := match d with Some n => IsDir n | None => false end in
  match err, d with
  | Some e, _ =>
      if String.eqb name area && bool_decide (fe_err e = ErrNotExist) then (s, Go)
      else
        let problems := wk_problems s ++ [name] in
        (if transient (FsE e) then MkWalked (wk_observed s) problems (wk_again s ++ [name]) (wk_failed s)
         else MkWalked (wk_observed s) problems (wk_again s) (<[name := FsE e]> (wk_failed s)),
         if dir then SkipDir else Go)
  | None, None => (s, Go)
  | None, Some info =>
      if String.eqb name "." then (s, Go)
      else if negb (synced cfg name) then (s, if dir then SkipDir else Go)
      else match kindOf info with
           | None => (MkWalked (wk_observed s) (wk_problems s ++ [name]) (wk_again s) (wk_failed s), Go)
           | Some _ => (MkWalked (<[name := info]> (wk_observed s)) (wk_problems s) (wk_again s) (wk_failed s), Go)
           end
  end.

Fixpoint walk_areas (i : nat) (areas : list string) (s : walked) (tr : treeRoot) : result terr walked * treeRoot :=
  match areas with
  | [] => (Ok s, tr)
  | area :: areas =>
      if negb (String.eqb area ".") && negb (synced cfg area) then walk_areas (S i) areas s tr
      else
        let tr := sv_others ev (BeforeWalk i) tr in
        let s := WalkDirLive (fun dir => sv_view ev i dir tr) (scan_fn area) (sv_deeper ev) s area in
        let tr := sv_others ev (AfterWalk i) tr in
        if sv_cancelled ev (BeforeWalk i) then (Err Cancelled, tr) else walk_areas (S i) areas s tr
  end.

(** ** What changed since the last sync *)

Definition zero_entry : Entry := entry_of Gone 0.

(** A path observed: a change to report again, or a candidate. *)
Definition observed_one (tr : treeRoot) (name : string) (info : node) : option (Change + candidate) :=
  let fp := fingerprintOf info in
  match rec_at tr name with
  | Some rec =>
      if Live (rc_Entry rec) && bool_decide (rc_FP rec = fp)
      then if rc_Sent rec then Some (inl (MkChange name (rc_Rev rec) (rc_Entry rec))) else None
      else Some (inr (MkCand name (Some info) (rc_Entry rec) zero_entry))
  | None => Some (inr (MkCand name (Some info) zero_entry zero_entry))
  end.

(** A record whose path was not observed: where the walks went, it is gone. *)
Definition missing_one (areas : list string) (s : walked) (name : string) (rec : record) : option (Change + candidate) :=
  if bool_decide (is_Some (wk_observed s !! name)) || negb (inAny name areas) || inAny name (wk_problems s) || negb (synced cfg name) then None
  else if negb (Live (rc_Entry rec))
  then if rc_Sent rec then Some (inl (MkChange name (rc_Rev rec) (rc_Entry rec))) else None
  else Some (inr (MkCand name None (rc_Entry rec) zero_entry)).

Definition compare_all (areas : list string) (s : walked) (tr : treeRoot) : list (Change + candidate) :=
  omap (fun pn => observed_one tr pn.1 pn.2) (map_to_list (wk_observed s)) ++
  omap (fun pr => missing_one areas s pr.1 pr.2.2) (map_to_list (tr_records tr)).

Definition lefts {A B} (l : list (A + B)) : list A := omap (fun x => match x with inl a => Some a | inr _ => None end) l.
Definition rights {A B} (l : list (A + B)) : list B := omap (fun x => match x with inl _ => None | inr b => Some b end) l.

(** ** Examining a candidate *)

Definition settled (c : candidate) (info : node) (tr : treeRoot) : bool * treeRoot :=
  let wait := tc_MergeSettle cfg in
  if (wait <=? 0) || negb (merging cfg (ca_name c)) then (true, tr)
  else
    let now := sv_now ev (ca_name c) in
    let forget := set_settling tr (delete (ca_name c) (tr_settling tr)) in
    if wait <=? now - nd_mtime info then (true, forget)
    else
      let mark := tr_settling tr !! ca_name c in
      let same := match mark with Some m => bool_decide (sm_fp m = ca_fp c) | None => false end in
      if same && match mark with Some m => wait <=? now - sm_at m | None => false end then (true, forget)
      else (false, if same then tr else set_settling tr (<[ca_name c := MkMark (ca_fp c) now]> (tr_settling tr))).

(** The file of a handle, where it is now; [None] when it has no name left (its
    change time is new then). *)
Definition handle_stat (f : folder) (st : node) : option node :=
  snd <$> find (fun pn => SameFile pn.2 st) (map_to_list (fo_nodes f)).

Definition examine_file (c : candidate) (info : node) (tr : treeRoot) : result terr Entry * treeRoot :=
  let name := ca_name c in
  if (BulkSize <? Size info) && (0 <? tc_Settle cfg) && (sv_now ev name - nd_mtime info <? tc_Settle cfg) then (Err Unsettled, tr)
  else
    let '(ok, tr) := settled c info tr in
    if negb ok then (Err Unsettled, tr)
    else
      match Open (tr_fs tr) name with
      | Err e => (Err (FsE e), tr)
      | Ok st =>
          if negb (bool_decide (fingerprintOf st = ca_fp c)) then (Err Unsettled, tr)
          else
            let failed := refused (tr_fs tr) CRead name in
            let data := default (match nd_body st with BFile d => d | _ => "" end) (sv_torn ev name) in
            let tr := sv_others ev (WhileRead name) tr in
            match failed with
            | Some e => (Err (FsE e), tr)
            | None =>
                let prev := ca_prev c in
                let grown := bool_decide (ekind prev = File) && (0 <? esize prev) && (esize prev <? Size info) in
                if grown && (Z.of_nat (String.length data) <? esize prev) then (Err Unsettled, tr)
                else if negb (match handle_stat (tr_fs tr) st with Some n => bool_decide (fingerprintOf n = ca_fp c) | None => false end) then (Err Unsettled, tr)
                else
                  let entry := MkEntry File (fileMode File (Mode info)) (Size info) (nd_mtime info) (hashOf data) "" [] in
                  (Ok (if grown && String.eqb (hashOf (take_bytes (Z.to_nat (esize prev)) data)) (ehash prev) then grownFrom entry prev else entry), tr)
            end
      end.

Definition examine (c : candidate) (info : node) (tr : treeRoot) : result terr Entry * treeRoot :=
  match kindOf info with
  | Some Dir => (Ok (entry_of Dir (fileMode Dir (Mode info))), tr)
  | Some Symlink => (match Readlink (tr_fs tr) (ca_name c) with
                     | Ok target => if String.eqb target "" then Err Unsettled else Ok (MkEntry Symlink 0 0 0 "" target [])
                     | Err _ => Err Unsettled
                     end, tr)
  | _ => examine_file c info tr
  end.

(** Whether a path that could not be examined is scanned again soon. *)
Definition soon (e : terr) : bool := match e with Unsettled => true | _ => transient e end.

(** The candidates examined, the paths to scan again and those that failed. *)
Fixpoint examine_all (cands : list candidate) (again : list string) (failed : gmap string terr) (tr : treeRoot)
    : result terr (list candidate * list string * gmap string terr) * treeRoot :=
  match cands with
  | [] => (Ok ([], again, failed), tr)
  | c :: cands =>
      if sv_cancelled ev (BeforeLook (ca_name c)) then (Err Cancelled, tr)
      else
        let keep (c : candidate) (r : result terr (list candidate * list string * gmap string terr) * treeRoot) :=
          match r with (Ok (cs, again, failed), tr) => (Ok (c :: cs, again, failed), tr) | r => r end in
        match ca_info c with
        | None => keep c (examine_all cands again failed tr)
        | Some info =>
            match examine c info (sv_others ev (BeforeLook (ca_name c)) tr) with
            | (Ok e, tr) => keep (MkCand (ca_name c) (ca_info c) (ca_prev c) e) (examine_all cands again failed tr)
            | (Err e, tr) => if soon e then examine_all cands (again ++ [ca_name c]) failed tr
                             else examine_all cands again (<[ca_name c := e]> failed) tr
            end
        end
  end.

(** ** Paths that cannot be read *)

Definition refusedAt (name : string) (e : terr) : string :=
  match e with
  | FsE e => if negb (String.eqb (fe_path e) ".") && HasPrefix name (fe_path e +:+ "/") then fe_path e else name
  | _ => name
  end.

Definition note_failing (scan : Z) (areas : list string) (failed : gmap string terr) (failing : gmap string Z) : gmap string Z :=
  let refused := map (fun ne => refusedAt ne.1 ne.2) (map_to_list failed) in
  let failing := foldl (fun m at_ => <[at_ := Z.max (default 0 (m !! at_)) scan]> m) failing refused in
  filter (fun nb => ~ (bool_decide (nb.1 ∈ refused) = false /\ inAny nb.1 areas = true /\ nb.2 < scan)) failing.

Definition note_settling (areas : list string) (looked : list string) (m : gmap string settleMark) : gmap string settleMark :=
  filter (fun nb => ~ (bool_decide (nb.1 ∈ looked) = false /\ inAny nb.1 areas = true)) m.

(** ** Recording *)

(** One examined candidate, with the lock held: what is reported, what to scan again. *)
Definition settle_one (c : candidate) (tr : treeRoot) : list Change * list string * treeRoot :=
  let name := ca_name c in
  let now := Lstat (tr_fs tr) name in
  let holds := match ca_info c, now with
               | None, r => cannotExist r
               | Some _, Ok n => bool_decide (fingerprintOf n = ca_fp c)
               | Some _, Err _ => false
               end in
  if negb holds then ([], [name], tr)
  else
    let rec := rec_at tr name in
    match ca_info c, rec with
    | Some _, Some r =>
        if Same (rc_Entry r) (ca_entry c) then
          (if rc_Sent r then [MkChange name (rc_Rev r) (rc_Entry r)] else [], [],
           putRecord name (MkRec (rc_Rev r) (rc_Entry r) (ca_fp c) (rc_Sent r) (rc_Made r)) tr)
        else ([MkChange name (rc_Rev r) (ca_entry c)], [], putRecord name (MkRec (rc_Rev r) (ca_entry c) (ca_fp c) true false) tr)
    | Some _, None => ([MkChange name 0 (ca_entry c)], [], putRecord name (MkRec 0 (ca_entry c) (ca_fp c) true false) tr)
    | None, Some r =>
        if negb (Live (rc_Entry r)) then ([], [], tr)
        else let e := tombstone (ca_prev c) in ([MkChange name (rc_Rev r) e], [], putRecord name (MkRec (rc_Rev r) e no_fingerprint true false) tr)
    | None, None => ([], [], tr)
    end.

Fixpoint settle_all (cands : list candidate) (tr : treeRoot) : list Change * list string * treeRoot :=
  match cands with
  | [] => ([], [], tr)
  | c :: cands =>
      let '(changes, again, tr) := settle_one c tr in
      let '(changes', again', tr) := settle_all cands tr in
      (changes ++ changes', again ++ again', tr)
  end.

(** ** The scan *)

Definition Scan (root : string) (paths : list string) (tr : treeRoot) : result terr (Report * list string) * treeRoot :=
  if tr_closed tr then (Err ClosedE, tr)
  else if negb (String.eqb root (tc_Name cfg)) then (Err NoRoot, tr)
  else if negb (tr_there tr) then (Err RootMoved, tr)
  else
    let tr := set_scans tr (u64 (tr_scans tr + 1)) in
    let scan := tr_scans tr in
    let tr := sv_others ev Starting tr in
    let areas := reach (tr_fs tr) (cover paths) in
    match walk_areas 0 areas no_walk tr with
    | (Err e, tr) => (Err e, tr)
    | (Ok s, tr) =>
        let tr := sv_others ev Walked tr in
        let found := compare_all areas s tr in
        match examine_all (rights found) (wk_again s) (wk_failed s) tr with
        | (Err e, tr) => (Err e, tr)
        | (Ok (examined, again, failed), tr) =>
            let tr := sv_others ev Looked tr in
            if negb (tr_there tr) then (Err RootMoved, tr)
            else
              let looked := omap (fun c => if ca_gone c then None else Some (ca_name c)) (rights found) in
              let tr := set_failing tr (note_failing scan areas failed (tr_failing tr)) in
              let tr := set_settling tr (note_settling areas looked (tr_settling tr)) in
              let '(changes, again', tr) := settle_all examined tr in
              match tree_commit tr with
              | (Some e, tr) => (Err e, tr)
              | (None, tr) => (Ok (MkReport root (tr_epoch tr) (sortChanges (lefts found ++ changes)), again ++ again'), tr)
              end
        end
    end.
End scan.
