(* ===== verification/SideScanLaws.v ===== *)
(** * What a scan reports (internal/sharesync/scan.go)

    Whatever other writers do while a scan walks and reads, what it reports is so
    when it records it: a change is the state the folder holds, a delete a path with
    nothing there. *)

From S2P Require Import Prelude GoStrings GoText Sha256 Entry Paths SyncPolicy Mergers Journal SafeFs SafeFsLaws SideTree SideApply SideApplyLaws SideApplyLands SideScan.
Local Open Scope string_scope.
Local Open Scope Z_scope.
Local Open Scope list_scope.

(** ** Time stamps *)

(** Entries are stamped with times of the clock. *)
Definition stamped (f : folder) : Prop := forall p n, fo_nodes f !! p = Some n -> 0 < nd_ctime n <= fo_clock f.

(** Time went on from [f] to [f']: what was made, replaced or written since has a
    change time after the clock's then. *)
Definition aged (f f' : folder) : Prop :=
  fo_clock f <= fo_clock f' /\
  forall p n', fo_nodes f' !! p = Some n' -> IsDir n' = false -> fo_nodes f !! p = Some n' \/ fo_clock f < nd_ctime n'.

Lemma aged_refl f : aged f f.
Proof. split; [lia|auto]. Qed.

Lemma aged_trans f g h : aged f g -> aged g h -> aged f h.
Proof.
  intros [C1 H1] [C2 H2]. split; [lia|]. intros p n Hp Hd. destruct (H2 p n Hp Hd) as [Hg|?]; [by apply H1|right; lia].
Qed.

Lemma fingerprint_mode a b : fingerprintOf a = fingerprintOf b -> Mode a = Mode b.
Proof. unfold fingerprintOf. destruct (IsDir a), (IsDir b); congruence. Qed.

(** A folder's fingerprint has no change time, so it is no other entry's. *)
Lemma fingerprint_dir a b : 0 < nd_ctime a -> 0 < nd_ctime b -> fingerprintOf a = fingerprintOf b -> IsDir a = IsDir b.
Proof. unfold fingerprintOf. destruct (IsDir a), (IsDir b); intros Ha Hb E; try done; injection E; lia. Qed.

Lemma fingerprint_ctime a b : IsDir a = false -> IsDir b = false -> fingerprintOf a = fingerprintOf b -> nd_ctime a = nd_ctime b /\ Size a = Size b.
Proof. unfold fingerprintOf. intros -> -> E. by injection E. Qed.

(** What has a fingerprint seen by [f]'s time was there in [f] already. *)
Lemma aged_same f f' p m n : aged f f' -> stamped f' -> 0 < nd_ctime m <= fo_clock f -> IsDir m = false ->
  fo_nodes f' !! p = Some n -> fingerprintOf n = fingerprintOf m -> fo_nodes f !! p = Some n /\ IsDir n = false.
Proof.
  intros [_ Ha] Hs Hm Hd Hn E. pose proof (Hs _ _ Hn) as Hc. assert (IsDir n = false) as Hdn by (rewrite (fingerprint_dir n m); [done|lia|lia|done]).
  split; [|done]. destruct (Ha p n Hn Hdn) as [?|Hlt]; [done|]. destruct (fingerprint_ctime n m Hdn Hd E). lia.
Qed.

Section laws.
Context (cfg : treeConf) `{C : !journal_codec treeRecord} (ev : scanEnv).

Definition good (tr : treeRoot) : Prop := wf_folder (tr_fs tr) /\ honest (tr_fs tr) /\ stamped (tr_fs tr).

(** What the world does around a scan: others keep the folder a tree, and what they
    change bears a new time; a walk lists folders of the time it goes on; and what was
    read of a file other than its content was written meanwhile. *)
Record world : Prop := {
  wd_good st tr : good tr -> good (sv_others ev st tr);
  wd_aged st tr : good tr -> aged (tr_fs tr) (tr_fs (sv_others ev st tr));
  wd_view i dir tr : good tr -> stamped (sv_view ev i dir tr) /\ fo_clock (sv_view ev i dir tr) <= fo_clock (tr_fs (sv_others ev (AfterWalk i) tr));
  wd_torn p tr st : good tr -> sv_torn ev p <> None -> fo_nodes (tr_fs tr) !! p = Some st -> handle_stat (tr_fs (sv_others ev (WhileRead p) tr)) st <> Some st
}.
Hypothesis Hworld : world.

Lemma good_fs a b : tr_fs a = tr_fs b -> good a -> good b.
Proof. unfold good. by intros ->. Qed.

(** From one state of the root to a later one. *)
Definition on (a b : treeRoot) : Prop := good b /\ aged (tr_fs a) (tr_fs b).

Lemma others_on st a b : good a -> on a b -> on a (sv_others ev st b).
Proof. intros _ [Hg Ha]. split; [by apply Hworld|]. eapply aged_trans; [exact Ha|]. by apply Hworld. Qed.

Lemma on_refl a : good a -> on a a.
Proof. intros Hg. split; [done|apply aged_refl]. Qed.

Lemma on_fs a b c : tr_fs b = tr_fs c -> on a b -> on a c.
Proof. unfold on, good. by intros ->. Qed.

Lemma on_trans a b c : on a b -> on b c -> on a c.
Proof. intros [_ H1] [H2 H3]. split; [done|by eapply aged_trans]. Qed.

(** ** Walks *)

(** What was observed is synced, and of a time no later than [t]. *)
Definition walk_true (t : Z) (s : walked) : Prop := forall p n, wk_observed s !! p = Some n -> 0 < nd_ctime n <= t /\ kindOf n <> None /\ synced cfg p = true.

Lemma walk_true_later t t' s : t <= t' -> walk_true t s -> walk_true t' s.
Proof. intros Ht Hs p n Hp. destruct (Hs p n Hp) as (? & ? & ?). split_and!; [lia|lia|done|done]. Qed.

Lemma scan_fn_true t area s p n e : (forall m, n = Some m -> p = "." \/ 0 < nd_ctime m <= t) -> walk_true t s -> walk_true t (scan_fn cfg area s p n e).1.
Proof.
  intros Hn Hs. unfold scan_fn. destruct e as [e|]; [destruct (_ && _); [done|]; by destruct (transient _)|]. destruct n as [info|]; [|done].
  destruct (String.eqb_spec p "."); [done|]. destruct (synced cfg p) eqn:Esy; [|done]. destruct (kindOf info) eqn:Ek; [|done]. intros q m Hq. simpl in Hq. apply lookup_insert_Some in Hq as [[<- <-]|[_ Hq]]; [|exact (Hs q m Hq)].
  destruct (Hn info eq_refl) as [?|Hp]; [done|]. split_and!; [lia|lia|congruence|done].
Qed.

Lemma walk_areas_true areas : forall i s tr r tr', walk_areas cfg ev i areas s tr = (r, tr') -> good tr -> walk_true (fo_clock (tr_fs tr)) s ->
  on tr tr' /\ forall s', r = Ok s' -> walk_true (fo_clock (tr_fs tr')) s'.
Proof.
  induction areas as [|a areas IH]; intros i s tr r tr'; simpl; [intros [= <- <-] Hg Hs; split; [by apply on_refl|]; by intros s' [= <-]|].
  destruct (_ && _); [by apply IH|]. intros E Hg Hs. pose proof (others_on (BeforeWalk i) tr tr Hg (on_refl _ Hg)) as H1. set (tr1 := sv_others ev (BeforeWalk i) tr) in *.
  pose proof (others_on (AfterWalk i) tr1 tr1 (proj1 H1) (on_refl _ (proj1 H1))) as H2. set (tr2 := sv_others ev (AfterWalk i) tr1) in *.
  assert (on tr tr2) as H12 by (by eapply on_trans). destruct (sv_cancelled ev (BeforeWalk i)); [injection E as <- <-; by split|].
  destruct (IH _ _ _ _ _ E (proj1 H2)) as [H3 Hok].
  - apply WalkDirLive_inv; [|eapply walk_true_later; [|exact Hs]; apply H12]. intros s0 p n e Hn. apply scan_fn_true. intros m Hm. destruct (Hn m Hm) as [?|[d Hd]]; [by left|right].
    destruct (wd_view Hworld i d tr1 (proj1 H1)) as [Hst Hle]. specialize (Hst _ _ Hd). fold tr2 in Hle. lia.
  - split; [by eapply on_trans|done].
Qed.

(** ** Examined candidates *)

(** What was found at the path, by the time [t]. *)
Definition cand_true (t : Z) (c : candidate) : Prop :=
  synced cfg (ca_name c) = true /\ forall n, ca_info c = Some n -> 0 < nd_ctime n <= t /\ kindOf n <> None.

(** The entry is what is at the path, whenever that has the candidate's fingerprint
    from [f] on. *)
Definition entry_true (f : folder) (c : candidate) : Prop :=
  forall f' n, aged f f' -> stamped f' -> is_Some (ca_info c) -> fo_nodes f' !! ca_name c = Some n -> fingerprintOf n = ca_fp c -> shows (ca_entry c) n /\ Live (ca_entry c) = true.

Lemma entry_true_later f f1 c : aged f f1 -> entry_true f c -> entry_true f1 c.
Proof. intros H He f' n Ha. apply He. by eapply aged_trans. Qed.

Lemma settled_fs c info tr : tr_fs (settled cfg ev c info tr).2 = tr_fs tr.
Proof. unfold settled. cbv zeta. repeat case_match; done. Qed.

(** A file whose handle's fingerprint is as it was is the file opened, unwritten. *)
Lemma handle_same f f' p st n : wf_folder f -> stamped f -> aged f f' -> stamped f' -> fo_nodes f !! p = Some st -> IsDir st = false ->
  handle_stat f' st = Some n -> fingerprintOf n = fingerprintOf st -> n = st.
Proof.
  intros Hwf Hs Ha Hs' Hst Hd Hh E. unfold handle_stat in Hh. destruct (find _ _) as [[q m]|] eqn:Ef; [|done]. injection Hh as <-. simpl in *.
  apply find_some in Ef as [Hin%list_elem_of_In Hsame]. apply elem_of_map_to_list in Hin. simpl in Hsame. unfold SameFile in Hsame. bool_hyps.
  destruct (aged_same f f' q st m Ha Hs' (Hs _ _ Hst) Hd Hin E) as [Hm _]. assert (q = p) as -> by (eapply (wf_own _ Hwf); [exact Hm|exact Hst|done]). congruence.
Qed.

Lemma examine_file_true t c info tr r tr' : ca_info c = Some info -> cand_true t c -> kindOf info = Some File ->
  examine_file cfg ev c info tr = (r, tr') -> good tr ->
  on tr tr' /\ forall e, r = Ok e -> entry_true (tr_fs tr') (MkCand (ca_name c) (ca_info c) (ca_prev c) e).
Proof.
  intros Hi Hc Hk. unfold examine_file. destruct (_ && _ && _); [intros [= <- <-] Hg; split; [by apply on_refl|done]|]. pose proof (settled_fs c info tr) as Hsf. destruct (settled cfg ev c info tr) as [ok tr1]. simpl in Hsf.
  intros E Hg. assert (on tr tr1) as H1 by (eapply on_fs; [symmetry; exact Hsf|by apply on_refl]). destruct ok; cbn [negb] in E; [|injection E as <- <-; by split]. destruct (Open (tr_fs tr1) (ca_name c)) as [st|] eqn:Eo; [|injection E as <- <-; by split].
  apply Open_Ok in Eo as [Hst Hr]. case_bool_decide as Efp; cbn [negb] in E; [|injection E as <- <-; by split]. pose proof (others_on (WhileRead (ca_name c)) tr1 tr1 (proj1 H1) (on_refl _ (proj1 H1))) as H2.
  set (tr2 := sv_others ev (WhileRead (ca_name c)) tr1) in *. assert (on tr tr2) as H12 by (by eapply on_trans).
  destruct (refused (tr_fs tr1) CRead (ca_name c)); [injection E as <- <-; by split|]. cbv zeta in E. destruct (_ && (_ <? _)); [injection E as <- <-; by split|].
  destruct (handle_stat (tr_fs tr2) st) as [n'|] eqn:Eh; [|injection E as <- <-; by split]. case_bool_decide as Efp'; cbn [negb] in E; [|injection E as <- <-; by split]. injection E as <- <-. split; [done|].
  destruct (proj1 H1) as (Hwf1 & _ & Hs1). destruct (proj1 H2) as (_ & _ & Hs2). assert (IsDir st = false) as Hdst by (unfold IsRegular, IsDir in *; by destruct (nd_body st)).
  assert (sv_torn ev (ca_name c) = None) as Htorn.
  { destruct (sv_torn ev (ca_name c)) eqn:Et; [|done]. exfalso. eapply (wd_torn Hworld (ca_name c) tr1 st); [apply H1|by rewrite Et|done|]. fold tr2. rewrite Eh. f_equal.
    eapply (handle_same (tr_fs tr1) (tr_fs tr2)); [done|done|apply H2|done|exact Hst|done|exact Eh|congruence]. }
  intros e [= <-] f' n Ha Hsf' _ Hn Hfp. change (fingerprintOf n = ca_fp c) in Hfp. cbn [ca_name ca_entry] in *.
  destruct (aged_same (tr_fs tr1) f' (ca_name c) st n) as [Hn1 _]; [eapply aged_trans; [apply H2|exact Ha]|done|by apply Hs1 in Hst|done|done|congruence|]. assert (n = st) as -> by congruence.
  assert (fingerprintOf info = fingerprintOf st) as Hif by (unfold ca_fp in Efp; rewrite Hi in Efp; congruence). assert (IsDir info = false) as Hdi by (unfold kindOf, IsDir in *; by destruct (nd_body info)).
  destruct (fingerprint_ctime info st Hdi Hdst Hif) as [_ Hsz]. pose proof (fingerprint_mode info st Hif) as Hm. rewrite Htorn. cbn [default].
  unfold IsRegular in Hr. destruct (nd_body st) as [d| | |] eqn:Ed; try done.
  set (entry := MkEntry File _ _ _ _ _ _). assert (forall g, shows (with_grew entry g) st) as Hv.
  { intros g. unfold shows. simpl. exists d. split_and!; [done|rewrite Hsz; unfold Size; by rewrite Ed|done|by rewrite Hm]. }
  simpl. destruct (_ && String.eqb _ _).
  - split; [|done]. unfold grownFrom. apply Hv.
  - split; [|done]. apply (Hv []).
Qed.

Lemma examine_true t c info tr r tr' : ca_info c = Some info -> cand_true t c -> t <= fo_clock (tr_fs tr) -> examine cfg ev c info tr = (r, tr') -> good tr ->
  on tr tr' /\ forall e, r = Ok e -> entry_true (tr_fs tr') (MkCand (ca_name c) (ca_info c) (ca_prev c) e).
Proof.
  intros Hi Hc Ht. destruct (proj2 Hc info Hi) as [Hct Hk]. assert (ca_fp c = fingerprintOf info) as Hif by (unfold ca_fp; by rewrite Hi).
  unfold examine. destruct (kindOf info) as [k|] eqn:Ek; [|done]. pose proof Ek as Ek'. unfold kindOf in Ek. destruct (nd_body info) as [d| |target0|] eqn:Ebody; try done; injection Ek as <-.
  - by eapply examine_file_true.
  - intros [= <- <-] Hg. split; [by apply on_refl|]. intros e [= <-] f' n Ha Hsf _ Hn Hfp. change (fingerprintOf n = ca_fp c) in Hfp. rewrite Hif in Hfp. cbn [ca_entry].
    pose proof (Hsf _ _ Hn) as Hcn. pose proof (fingerprint_dir n info ltac:(lia) ltac:(lia) Hfp) as Hd. pose proof (fingerprint_mode _ _ Hfp) as Hm.
    unfold IsDir in Hd. rewrite Ebody in Hd. split; [|done]. unfold shows. simpl. rewrite Hm. split; [|done]. by destruct (nd_body n).
  - intros [= <- <-] Hg. split; [by apply on_refl|]. intros e He f' n Ha Hsf _ Hn Hfp. change (fingerprintOf n = ca_fp c) in Hfp. rewrite Hif in Hfp. cbn [ca_name ca_entry] in *.
    destruct (Readlink _ _) as [target|] eqn:Er; [|done]. destruct (String.eqb target ""); [done|]. injection He as <-. split; [|done].
    destruct (aged_same (tr_fs tr) f' (ca_name c) info n) as [Hn1 _]; [done|done|lia|unfold IsDir; by rewrite Ebody|done|done|].
    destruct (Readlink_Ok _ _ _ Er) as (m & Hm & Hb). assert (m = n) as -> by congruence. unfold shows. simpl. done.
Qed.

Lemma examine_all_true t cands : forall again failed tr r tr', (forall c, c ∈ cands -> cand_true t c) -> t <= fo_clock (tr_fs tr) -> examine_all cfg ev cands again failed tr = (r, tr') -> good tr ->
  on tr tr' /\ forall cs again' failed', r = Ok (cs, again', failed') ->
    (forall c, c ∈ cs -> entry_true (tr_fs tr') c /\ synced cfg (ca_name c) = true) /\ map ca_name cs `sublist_of` map ca_name cands.
Proof.
  induction cands as [|c cands IH]; intros again failed tr r tr' Hc Ht; simpl.
  { intros [= <- <-] Hg. split; [by apply on_refl|]. intros cs again' failed' [= <- <- <-]. split; [by intros c ?%elem_of_nil|constructor]. }
  specialize (fun again failed tr r tr' => IH again failed tr r tr' ltac:(intros; apply Hc; set_solver)). pose proof (Hc c ltac:(set_solver)) as Hcc.
  destruct (sv_cancelled ev _); [intros [= <- <-] Hg; split; [by apply on_refl|done]|]. destruct (ca_info c) as [info|] eqn:Ei.
  - intros E Hg. pose proof (others_on (BeforeLook (ca_name c)) tr tr Hg (on_refl _ Hg)) as H1.
    assert (t <= fo_clock (tr_fs (sv_others ev (BeforeLook (ca_name c)) tr))) as Ht0 by (pose proof (proj1 (proj2 H1)); lia). destruct (examine _ _ _ _ _) as [[e|e] tr1] eqn:Ee;
      destruct (examine_true t _ _ _ _ _ Ei Hcc Ht0 Ee (proj1 H1)) as [H2 He]; assert (on tr tr1) as H12 by (by eapply on_trans);
      assert (t <= fo_clock (tr_fs tr1)) as Ht1 by (pose proof (proj1 (proj2 H12)); lia).
    + destruct (examine_all cfg ev cands again failed tr1) as [[[[cs again1] failed1]|e1] tr2] eqn:Ea; destruct (IH _ _ _ _ _ Ht1 Ea (proj1 H2)) as [H3 Hall]; injection E as <- <-; (split; [by eapply on_trans|]); [|done].
      intros cs' again' failed' [= <- <- <-]. destruct (Hall _ _ _ eq_refl) as [A1 A2]. split; [|by constructor]. intros c' [->|Hin]%elem_of_cons; [|by apply A1]. split; [|apply Hcc].
      rewrite <- Ei. eapply entry_true_later; [apply H3|by apply He].
    + destruct (soon e); (destruct (IH _ _ _ _ _ Ht1 E (proj1 H2)) as [H3 Hall]; split; [by eapply on_trans|]; intros cs' again' failed' Hr; destruct (Hall _ _ _ Hr) as [A1 A2]; split; [done|by constructor]).
  - intros E Hg. destruct (examine_all cfg ev cands again failed tr) as [[[[cs again1] failed1]|e1] tr2] eqn:Ea; destruct (IH _ _ _ _ _ Ht Ea Hg) as [H3 Hall]; injection E as <- <-; (split; [done|]); [|done].
    intros cs' again' failed' [= <- <- <-]. destruct (Hall _ _ _ eq_refl) as [A1 A2]. split; [|by constructor]. intros c' [->|Hin]%elem_of_cons; [|by apply A1]. split; [|apply Hcc]. intros f' n _ _ [m Hm]. congruence.
Qed.

(** ** The candidates *)

Lemma rights_app {A D} (l k : list (A + D)) : rights (l ++ k) = rights l ++ rights k.
Proof. unfold rights. apply omap_app. Qed.

Lemma rights_elem {A D} (l : list (A + D)) d : d ∈ rights l <-> inr d ∈ l.
Proof. unfold rights. rewrite list_elem_of_omap. split; [intros ([a|d'] & Hin & E); simplify_eq; done|intros Hin; by exists (inr d)]. Qed.

Lemma lefts_elem {A D} (l : list (A + D)) a : a ∈ lefts l <-> inl a ∈ l.
Proof. unfold lefts. rewrite list_elem_of_omap. split; [intros ([a'|d] & Hin & E); simplify_eq; done|intros Hin; by exists (inl a)]. Qed.

Lemma rights_names {V} (F : string * V -> option (Change + candidate)) (l : list (string * V)) : NoDup l.*1 -> (forall x c, F x = Some (inr c) -> ca_name c = x.1) ->
  NoDup (map ca_name (rights (omap F l))) /\ forall c, c ∈ rights (omap F l) -> ca_name c ∈ l.*1.
Proof.
  intros Hnd HF. induction l as [|x l IH]; [split; [constructor|by intros c ?%elem_of_nil]|]. apply NoDup_cons in Hnd as [Hx Hnd]. destruct (IH Hnd) as [I1 I2]. simpl.
  destruct (F x) as [[ch|c]|] eqn:Ex; simpl; [split; [done|intros c Hc; right; by apply I2]| |split; [done|intros c Hc; right; by apply I2]]. split.
  - constructor; [|done]. intros Hin. apply list_elem_of_In, in_map_iff in Hin as (c' & En & Hc'). apply list_elem_of_In, I2 in Hc'. rewrite En, (HF x c Ex) in Hc'. done.
  - intros c' [->|Hc']%elem_of_cons; [rewrite (HF x c Ex); by left|right; by apply I2].
Qed.

Lemma observed_one_name tr x c : observed_one tr x.1 x.2 = Some (inr c) -> ca_name c = x.1.
Proof. unfold observed_one. destruct (rec_at tr x.1) as [r|]; [destruct (_ && _); [by destruct (rc_Sent r)|]|]; by intros [= <-]. Qed.

Lemma missing_one_name areas s (x : string * (Z * record)) c : missing_one cfg areas s x.1 x.2.2 = Some (inr c) -> ca_name c = x.1.
Proof. unfold missing_one. destruct (_ || _ || _ || _); [done|]. destruct (negb _); [by destruct (rc_Sent _)|]. by intros [= <-]. Qed.

Lemma compare_names areas s tr : NoDup (map ca_name (rights (compare_all cfg areas s tr))).
Proof.
  unfold compare_all. rewrite rights_app, map_app.
  destruct (rights_names (fun pn => observed_one tr pn.1 pn.2) (map_to_list (wk_observed s))) as [N1 M1]; [apply NoDup_fst_map_to_list|intros x c; apply observed_one_name|].
  destruct (rights_names (fun pr => missing_one cfg areas s pr.1 pr.2.2) (map_to_list (tr_records tr))) as [N2 M2]; [apply NoDup_fst_map_to_list|intros x c; apply missing_one_name|].
  apply NoDup_app. split_and!; [done| |done]. intros nm H1 H2. apply list_elem_of_In, in_map_iff in H1 as (c1 & <- & Hc1). apply list_elem_of_In, in_map_iff in H2 as (c2 & En & Hc2).
  apply list_elem_of_In, M1 in Hc1. apply list_elem_of_fmap in Hc1 as ([p n] & E1 & Hp). simpl in E1. apply elem_of_map_to_list in Hp. apply list_elem_of_In, rights_elem in Hc2.
  apply list_elem_of_omap in Hc2 as ([q [i r]] & _ & Eq). pose proof (missing_one_name _ _ (q, (i, r)) _ Eq) as Hq. unfold missing_one in Eq. simpl in *. rewrite <- Hq, En, E1, bool_decide_eq_true_2 in Eq by eauto. done.
Qed.

Lemma compare_true t areas s tr c : walk_true t s -> c ∈ rights (compare_all cfg areas s tr) -> cand_true t c.
Proof.
  intros Hs. unfold compare_all. rewrite rights_app. intros [Hin|Hin]%elem_of_app; apply rights_elem, list_elem_of_omap in Hin.
  - destruct Hin as ([p n] & Hp & E). apply elem_of_map_to_list in Hp. destruct (Hs p n Hp) as (Hb & Hk & Hsy). simpl in E. pose proof (observed_one_name tr (p, n) c E) as Hn. simpl in Hn.
    assert (ca_info c = Some n) as Hi. { unfold observed_one in E. destruct (rec_at tr p) as [r|]; [destruct (_ && _); [by destruct (rc_Sent r)|]|]; by injection E as <-. }
    split; [by rewrite Hn|]. intros m Hm. rewrite Hi in Hm. by injection Hm as <-.
  - destruct Hin as ([p [i r]] & _ & E). pose proof (missing_one_name _ _ (p, (i, r)) c E) as Hn. simpl in *. unfold missing_one in E. destruct (_ || _ || _ || _) eqn:Eb; [done|].
    destruct (negb (Live _)); [by destruct (rc_Sent r)|]. injection E as <-. simpl. bool_hyps. split; [done|]. done.
Qed.

(** ** Recording *)

(** A change the side has recorded as sent, and what the folder has at its path. *)
Definition reported (tr : treeRoot) (ch : Change) : Prop :=
  exists i r, tr_records tr !! c_path ch = Some (i, r) /\ rc_Sent r = true /\ rc_Rev r = c_base ch /\ rc_Entry r = c_entry ch /\
    if Live (c_entry ch) then exists n, fo_nodes (tr_fs tr) !! c_path ch = Some n /\ rc_FP r = fingerprintOf n /\ shows (c_entry ch) n
    else fo_nodes (tr_fs tr) !! c_path ch = None.

Lemma Live_tombstone e : Live (tombstone e) = false.
Proof. unfold tombstone. by case_bool_decide. Qed.

Lemma put_reported name base e fp made tr : (if Live e then exists n, fo_nodes (tr_fs tr) !! name = Some n /\ fp = fingerprintOf n /\ shows e n else fo_nodes (tr_fs tr) !! name = None) ->
  reported (putRecord name (MkRec base e fp true made) tr) (MkChange name base e).
Proof. intros H. unfold reported. simpl. rewrite lookup_insert_eq. eexists _, _. by split_and!. Qed.

Lemma settle_one_true c tr chs again tr' : good tr -> entry_true (tr_fs tr) c -> synced cfg (ca_name c) = true -> settle_one c tr = (chs, again, tr') ->
  tr_fs tr' = tr_fs tr /\ (forall q, q <> ca_name c -> tr_records tr' !! q = tr_records tr !! q) /\ (forall ch, ch ∈ chs -> c_path ch = ca_name c /\ reported tr' ch).
Proof.
  intros (Hwf & Hh & Ht) He Hs. assert (ca_name c <> ".") as Hd by (by eapply valid_elems_not_dot, synced_elems). unfold settle_one.
  assert (forall rec q, q <> ca_name c -> tr_records (putRecord (ca_name c) rec tr) !! q = tr_records tr !! q) as Hput by (intros; simpl; by rewrite lookup_insert_ne).
  assert (forall ch, ch ∈ ([] : list Change) -> c_path ch = ca_name c /\ reported tr' ch) as Hnil by (by intros ? ?%elem_of_nil).
  destruct (ca_info c) as [info|] eqn:Ei.
  - destruct (Lstat (tr_fs tr) (ca_name c)) as [n|] eqn:El; cbn [negb]; [|intros [= <- <- <-]; by split_and!; auto]. destruct (Lstat_Ok _ _ _ El) as [[? _]|(Hn & _)]; [done|].
    case_bool_decide as Efp; cbn [negb]; [|intros [= <- <- <-]; by split_and!; auto]. destruct (He (tr_fs tr) n (aged_refl _) Ht ltac:(by rewrite Ei) Hn Efp) as [Hv Hl].
    assert (forall base e made, Live e = true -> shows e n -> reported (putRecord (ca_name c) (MkRec base e (ca_fp c) true made) tr) (MkChange (ca_name c) base e)) as Hrep.
    { intros base e made Hle Hve. apply put_reported. rewrite Hle. exists n. by split_and!. }
    destruct (rec_at tr (ca_name c)) as [r|]; [destruct (Same (rc_Entry r) (ca_entry c)) eqn:Es|]; intros [= <- <- <-]; (split_and!; [done|by auto|]).
    + destruct (rc_Sent r); [|by auto]. intros ch ->%list_elem_of_singleton. split; [done|]. apply Hrep; [|by eapply Same_shows; [rewrite Same_sym|]].
      unfold Same in Es. unfold Live in *. destruct (bool_decide_reflect (ekind (rc_Entry r) = ekind (ca_entry c))) as [->|]; [done|done].
    + intros ch ->%list_elem_of_singleton. split; [done|]. by apply Hrep.
    + intros ch ->%list_elem_of_singleton. split; [done|]. by apply Hrep.
  - destruct (Lstat (tr_fs tr) (ca_name c)) as [n|e] eqn:El; simpl; [intros [= <- <- <-]; by split_and!; auto|]. destruct (cannotExist_err (fe_err e)) eqn:Ec; simpl; [|intros [= <- <- <-]; by split_and!; auto].
    pose proof (Lstat_gone _ _ _ Hwf Hh Hd El Ec) as Hgone. destruct (rec_at tr (ca_name c)) as [r|]; [|intros [= <- <- <-]; by split_and!; auto].
    destruct (negb _); intros [= <- <- <-]; (split_and!; [done|by auto|]); [by auto|]. intros ch ->%list_elem_of_singleton. split; [done|]. apply put_reported. by rewrite Live_tombstone.
Qed.

Lemma reported_kept tr tr' ch : tr_fs tr' = tr_fs tr -> tr_records tr' !! c_path ch = tr_records tr !! c_path ch -> reported tr ch -> reported tr' ch.
Proof. unfold reported. by intros -> ->. Qed.

Lemma settle_all_true cs : forall tr chs again tr', good tr -> NoDup (map ca_name cs) -> (forall c, c ∈ cs -> entry_true (tr_fs tr) c /\ synced cfg (ca_name c) = true) -> settle_all cs tr = (chs, again, tr') ->
  tr_fs tr' = tr_fs tr /\ (forall q, q ∉ map ca_name cs -> tr_records tr' !! q = tr_records tr !! q) /\ (forall ch, ch ∈ chs -> reported tr' ch).
Proof.
  induction cs as [|c cs IH]; intros tr chs again tr' Hg Hnd Hc; simpl; [intros [= <- <- <-]; split_and!; [done|done|by intros ch ?%elem_of_nil]|].
  apply NoDup_cons in Hnd as [Hnin Hnd]. destruct (Hc c ltac:(set_solver)) as [He Hs]. destruct (settle_one c tr) as [[chs1 again1] tr1] eqn:E1. destruct (settle_one_true _ _ _ _ _ Hg He Hs E1) as (F1 & R1 & T1).
  destruct (settle_all cs tr1) as [[chs2 again2] tr2] eqn:E2. intros [= <- <- <-]. destruct (IH tr1 chs2 again2 tr2) as (F2 & R2 & T2); [by eapply good_fs|done|intros; rewrite F1; apply Hc; set_solver|done|].
  split_and!; [congruence|intros q [Hq1 Hq2]%not_elem_of_cons; rewrite R2 by done; by apply R1|]. intros ch [Hin|Hin]%elem_of_app; [|by apply T2].
  destruct (T1 ch Hin) as [Hp Hr]. eapply reported_kept; [exact F2|rewrite Hp; by apply R2|exact Hr].
Qed.

(** The tree as the walked folders are compared with the records. *)
Definition compared (paths : list string) (tr : treeRoot) : treeRoot :=
  let tr := sv_others ev Starting (set_scans tr (u64 (tr_scans tr + 1))) in
  sv_others ev Walked (walk_areas cfg ev 0 (reach (tr_fs tr) (cover paths)) no_walk tr).2.

(** A change sent before and not acknowledged. *)
Definition unacked (tr : treeRoot) (ch : Change) : Prop :=
  exists r, rec_at tr (c_path ch) = Some r /\ rc_Sent r = true /\ rc_Rev r = c_base ch /\ rc_Entry r = c_entry ch.

Lemma compare_unacked areas s tr ch : ch ∈ lefts (compare_all cfg areas s tr) -> unacked tr ch.
Proof.
  rewrite lefts_elem. unfold compare_all. intros [Hin|Hin]%elem_of_app; apply list_elem_of_omap in Hin.
  - destruct Hin as ([p n] & _ & E). unfold observed_one in E. simpl in E. destruct (rec_at tr p) as [r|] eqn:Er; [|done]. destruct (_ && _); [|done]. destruct (rc_Sent r) eqn:Es; [|done].
    injection E as <-. by exists r.
  - destruct Hin as ([p [i r]] & Hin & E). apply elem_of_map_to_list in Hin. simpl in E. unfold missing_one in E. destruct (_ || _ || _ || _); [done|]. destruct (negb _); [|done].
    destruct (rc_Sent r) eqn:Es; [|done]. injection E as <-. exists r. unfold rec_at. simpl. by rewrite Hin.
Qed.
End laws.

(** C3: whatever other writers and operations do while a scan walks and reads - the
    folder changing under the walk, files written while they are read - each change it
    reports is one sent before and not acknowledged as the scan compared, or is so as
    the scan ends: the record there is the change, waiting for its answer; a live
    entry is what is at the path, a file with its content's size, hash and mode, a
    folder with its mode, a link with its target, under the record's fingerprint; and
    where a delete is reported there is nothing. The world is one where change times
    tell changes apart: whatever is made, replaced or written bears a change time later
    than the clock before, and a read that is not the file's content means the file was
    written as it was read. *)
Theorem scan_reports_true cfg (C : journal_codec treeRecord) ev root paths tr rep again tr' :
  world ev -> good tr -> Scan cfg ev root paths tr = (Ok (rep, again), tr') ->
  forall ch, ch ∈ r_changes rep -> reported tr' ch \/ unacked (compared cfg ev paths tr) ch.
Proof.
  intros Hw Hg. unfold Scan, compared. destruct (tr_closed tr); [done|]. destruct (negb _); [done|]. destruct (negb _); [done|]. set (tr0 := sv_others ev Starting _).
  assert (good tr0) as Hg0 by (by apply (wd_good ev Hw)). destruct (walk_areas _ _ _ _ _ tr0) as [[s|e] tr1] eqn:Ew; [|done].
  destruct (walk_areas_true cfg ev Hw _ _ _ _ _ _ Ew Hg0) as [H1 Hs]; [by intros ? ?|]. specialize (Hs s eq_refl). simpl. pose proof (others_on ev Hw Walked tr1 tr1 (proj1 H1) (on_refl _ (proj1 H1))) as H2.
  set (tr2 := sv_others ev Walked tr1) in *. set (found := compare_all _ _ s tr2). destruct (examine_all _ _ _ _ _ tr2) as [[[[cs again1] failed]|e] tr3] eqn:Ee; [|done].
  destruct (examine_all_true cfg ev Hw _ _ _ _ _ _ _ (fun c => compare_true cfg _ _ s tr2 c Hs) (proj1 (proj2 H2)) Ee (proj1 H2)) as [H3 Hall]. destruct (Hall _ _ _ eq_refl) as [Hcs Hsub].
  pose proof (others_on ev Hw Looked tr3 tr3 (proj1 H3) (on_refl _ (proj1 H3))) as H4. set (tr4 := sv_others ev Looked tr3) in *. destruct (negb _); [done|]. set (tr5 := set_settling _ _). assert (good tr5) as Hg5 by apply H4.
  assert (forall c, c ∈ cs -> entry_true (tr_fs tr5) c /\ synced cfg (ca_name c) = true) as Hcs5.
  { intros c Hc. destruct (Hcs c Hc) as [He ?]. split; [|done]. eapply entry_true_later; [|exact He]. apply H4. }
  destruct (settle_all cs tr5) as [[chs again2] tr6] eqn:Es. destruct (settle_all_true cfg ev Hw cs _ _ _ _ Hg5 (sublist_NoDup _ _ (compare_names cfg _ s tr2) Hsub) Hcs5 Es) as (F6 & _ & T6).
  destruct (tree_commit tr6) as [[e|] tr7] eqn:Ec; [done|]. intros [= <- <- <-] ch Hch. cbn [r_changes] in Hch. unfold sortChanges in Hch. rewrite SortFunc_perm in Hch. apply elem_of_app in Hch as [Hin|Hin].
  - right. by eapply compare_unacked.
  - left. eapply reported_kept; [| |by apply T6]; rewrite <- (f_equal snd Ec : _ = tr7); [apply commit_fs|by rewrite commit_records].
Qed.
