(* ===== verification/SideScanQuiet.v ===== *)
(** * A scan of a folder at rest (internal/sharesync/scan.go)

    Where no call fails and nothing else writes, a scan brings every record in step
    with the folder and reports what is new; and a path an op was applied to is
    not reported. *)

From S2P Require Import Prelude GoStrings GoText Sha256 Entry Paths SyncPolicy Mergers Journal SafeFs SafeFsLaws SideTree SideApply SideApplyLaws SideApplyLands SideScan SideScanLaws.
Local Open Scope string_scope.
Local Open Scope Z_scope.
Local Open Scope list_scope.

(** ** Calls that work *)

Lemma working_honest f : working f -> honest f.
Proof. intros Hw c p e. by rewrite Hw. Qed.

Lemma working_parent f p n : wf_folder f -> working f -> validPath p = true -> fo_nodes f !! p = Some n -> parent f p = None.
Proof.
  intros Hwf Hw Hv Hp. apply parent_reached. unfold validPath in Hv. bool_hyps. split_and!; [done|by intros ->|]. apply Forall_forall. intros a Ha.
  split_and!; [by eapply wf_ancestors|apply Hw|apply Hw].
Qed.

Lemma working_lstat_at f p n : working f -> fo_nodes f !! p = Some n -> lstat_at f p = Ok n.
Proof. intros Hw Hp. apply lstat_at_Ok. by split. Qed.

Lemma check_name_valid p b : validPath p = true -> check_name p b = None.
Proof. unfold validPath, check_name. intros H. bool_hyps. rewrite (proj2 (String.eqb_neq p ".")) by (intros ->; done). match goal with H : fs_ValidPath p = true |- _ => rewrite H end. done. Qed.

Lemma working_Lstat f p n : wf_folder f -> working f -> validPath p = true -> fo_nodes f !! p = Some n -> Lstat f p = Ok n.
Proof.
  intros Hwf Hw Hv Hp. unfold Lstat. rewrite check_name_valid by done. assert (p <> ".") by (by eapply valid_elems_not_dot, validPath_elems).
  rewrite (proj2 (String.eqb_neq p ".")) by done. erewrite working_parent by done. by apply working_lstat_at.
Qed.

Lemma working_Open f p n d : wf_folder f -> working f -> validPath p = true -> fo_nodes f !! p = Some n -> nd_body n = BFile d -> Open f p = Ok n.
Proof.
  intros Hwf Hw Hv Hp Hb. unfold Open. erewrite working_parent by done. erewrite working_lstat_at by done. unfold regular. rewrite Hb. by rewrite working_refused.
Qed.

Lemma working_Readlink f p n t : wf_folder f -> working f -> validPath p = true -> fo_nodes f !! p = Some n -> nd_body n = BLink t -> Readlink f p = Ok t.
Proof. intros Hwf Hw Hv Hp Hb. unfold Readlink. erewrite working_parent by done. rewrite working_refused by done. by rewrite Hp, Hb. Qed.

(** Nothing there, or a file or link above: an Lstat says so. *)
Lemma working_gone f p : wf_folder f -> working f -> validPath p = true -> fo_nodes f !! p = None -> cannotExist (Lstat f p) = true.
Proof.
  intros Hwf Hw Hv Hp. unfold Lstat. rewrite check_name_valid by done. assert (p <> ".") by (by eapply valid_elems_not_dot, validPath_elems).
  rewrite (proj2 (String.eqb_neq p ".")) by done. destruct (parent f p) as [e|] eqn:Epar; [|unfold lstat_at; by rewrite working_refused, Hp]. simpl.
  unfold parent in Epar. rewrite check_name_valid in Epar by done. unfold openDir in Epar. destruct (String.eqb _ _); [done|]. revert Epar. generalize (ancestors (path_Dir p) ++ [path_Dir p]) as ps.
  induction ps as [|a ps IH]; [done|]. simpl. pose proof (openChild_same f a) as Hs. destruct (openChild f a false 0) as [[e'|] f'] eqn:Eo; simpl in *; subst f'; [|done]. intros [= <-].
  unfold openChild, lstat_at in Eo. rewrite working_refused in Eo by done. destruct (fo_nodes f !! a) as [n|]; simpl in Eo; [|by injection Eo as <-].
  injection Eo as Eo. unfold openChildAs in Eo. destruct (nd_body n); try (by injection Eo as <-). by rewrite working_refused in Eo.
Qed.

Lemma handle_stat_own f p n : wf_folder f -> fo_nodes f !! p = Some n -> handle_stat f n = Some n.
Proof.
  intros Hwf Hp. unfold handle_stat. destruct (find _ _) as [[q m]|] eqn:Ef.
  - apply find_some in Ef as [Hin%list_elem_of_In Hs]. apply elem_of_map_to_list in Hin. unfold SameFile in Hs. simpl in *. bool_hyps. assert (q = p) as -> by (by eapply wf_own). simpl. congruence.
  - exfalso. eapply find_none with (x := (p, n)) in Ef; [|by apply list_elem_of_In, elem_of_map_to_list]. simpl in Ef. unfold SameFile in Ef. by rewrite !Z.eqb_refl in Ef.
Qed.

Section quiet.
Context (cfg : treeConf) `{C : !journal_codec treeRecord} (ev : scanEnv) (f : folder).

(** Nothing else happens, every file has settled, and every link has a target. *)
Record quiet : Prop := {
  qu_others st tr : sv_others ev st tr = tr;
  qu_view : sv_view ev = fun _ _ tr => tr_fs tr;
  qu_deeper : sv_deeper ev = 0%nat;
  qu_runs st : sv_cancelled ev st = false;
  qu_whole p : sv_torn ev p = None;
  qu_wf : wf_folder f;
  qu_works : working f;
  qu_settled p n : fo_nodes f !! p = Some n -> IsRegular n = true -> tc_Settle cfg <= sv_now ev p - nd_mtime n /\ tc_MergeSettle cfg <= sv_now ev p - nd_mtime n;
  qu_links p n t : fo_nodes f !! p = Some n -> nd_body n = BLink t -> t <> ""
}.
Hypothesis Hq : quiet.

(** A synced path with no folder above it left out, and no device there or above. *)
Definition reachable (p : string) : Prop :=
  synced cfg p = true /\ (forall a, a ∈ ancestors p -> synced cfg a = true) /\ (forall a n, within p a = true -> fo_nodes f !! a = Some n -> kindOf n <> None).

(** *** The walk *)

Definition whole_walk : walked := WalkDir f (scan_fn cfg ".") no_walk ".".

Record walk_ok (s : walked) : Prop := {
  wo_observed q m : wk_observed s !! q = Some m -> fo_nodes f !! q = Some m /\ synced cfg q = true /\ kindOf m <> None;
  wo_problems q : q ∈ wk_problems s -> exists m, fo_nodes f !! q = Some m /\ kindOf m = None;
  wo_again : wk_again s = [];
  wo_failed : wk_failed s = ∅
}.

Lemma whole_walk_ok : walk_ok whole_walk.
Proof.
  unfold whole_walk. apply WalkDir_inv; [|constructor; [done|by intros q ?%elem_of_nil|done|done]]. intros s q m e Hm He Hs. unfold scan_fn. destruct e as [e|].
  { destruct (He e eq_refl (qu_works Hq)) as (_ & -> & El). unfold Lstat in El. cbn in El. rewrite working_refused in El by apply Hq. done. }
  destruct m as [info|]; [|done]. destruct (String.eqb_spec q "."); [done|]. destruct (synced cfg q) eqn:Esy; [|done]. cbn [negb]. destruct (Hm info eq_refl) as [?|Hqn]; [done|].
  destruct Hs as [S1 S2 S3 S4]. destruct (kindOf info) eqn:Ek; constructor; simpl; try done.
  - intros q' m' [[<- <-]|[_ ?]]%lookup_insert_Some; [split_and!; congruence|auto].
  - intros q' [?| ->%list_elem_of_singleton]%elem_of_app; eauto.
Qed.

(** Observed, or below a problem, unless it is left out. *)
Definition noticed (q : string) (s : walked) : Prop :=
  synced cfg q = true -> (forall a, a ∈ ancestors q -> synced cfg a = true) -> (forall m, fo_nodes f !! q = Some m -> kindOf m <> None) ->
  is_Some (wk_observed s !! q) \/ inAny q (wk_problems s) = true.

Lemma noticed_more q s s' : (forall x, is_Some (wk_observed s !! x) -> is_Some (wk_observed s' !! x)) -> (forall x, x ∈ wk_problems s -> x ∈ wk_problems s') -> noticed q s -> noticed q s'.
Proof.
  intros H1 H2 H Ha Hb Hc. destruct (H Ha Hb Hc) as [?|Hin]; [left; auto|right]. unfold inAny in *. apply existsb_exists in Hin as (x & Hx & Hw). apply existsb_exists. exists x.
  split; [|done]. apply list_elem_of_In, H2. by apply list_elem_of_In.
Qed.

Lemma noticed_problem q s x : x ∈ wk_problems s -> within q x = true -> noticed q s.
Proof. intros Hx Hw _ _ _. right. apply existsb_exists. exists x. split; [by apply list_elem_of_In|done]. Qed.

Lemma scan_fn_more s p n e q : noticed q s -> noticed q (scan_fn cfg "." s p n e).1.
Proof.
  apply noticed_more; unfold scan_fn; (destruct e as [e|]; [destruct (_ && _); [done|]; destruct (transient _); simpl; set_solver|]);
    (destruct n as [info|]; [|done]); (destruct (String.eqb p "."); [done|]); (destruct (negb _); [done|]); destruct (kindOf info); simpl; try set_solver.
  intros x [m Hm]. destruct (decide (p = x)) as [<-|]; [rewrite lookup_insert_eq; by eexists|rewrite lookup_insert_ne by done; by eexists].
Qed.

Lemma scan_fn_error s p n e q : (p = "." -> fe_err e <> ErrNotExist) -> within q p = true -> noticed q (scan_fn cfg "." s p n (Some e)).1.
Proof.
  intros He Hw. unfold scan_fn. destruct (String.eqb_spec p ".") as [->|]; cbn [andb].
  - rewrite bool_decide_eq_false_2 by auto. destruct (transient _); (eapply noticed_problem; [|exact Hw]); simpl; set_solver.
  - destruct (transient _); (eapply noticed_problem; [|exact Hw]); simpl; set_solver.
Qed.

Lemma walk_notices q m : fo_nodes f !! q = Some m -> noticed q whole_walk.
Proof.
  intros Hqm. pose proof (qu_wf Hq) as Hwf. pose proof (working_honest _ (qu_works Hq)) as Hh.
  apply (WalkDir_settles f (scan_fn cfg ".") "." noticed) with (m := m); try done.
  - intros s p n e q'. apply scan_fn_more.
  - intros s q' m' Hq' Ha Hb Hc. unfold scan_fn. destruct (String.eqb_spec q' ".") as [->|]; [by apply (wf_name _ Hwf), valid_elems_not_dot in Hq'|]. rewrite Ha. cbn [negb].
    specialize (Hc _ Hq'). destruct (kindOf m'); [|done]. left. simpl. rewrite lookup_insert_eq. by eexists.
  - intros s a m' q' _ Hskip Hw Ha Hb _. exfalso. unfold scan_fn in Hskip. destruct (String.eqb_spec a "."); [done|]. pose proof (synced_elems _ _ Ha) as Hv.
    apply (within_ancestor q' a Hv) in Hw; [|done]. assert (synced cfg a = true) as Esa by (destruct Hw as [->|?]; auto). rewrite Esa in Hskip. cbn [negb] in Hskip. by destruct (kindOf m').
  - intros s a m' e q' He Hw. by apply scan_fn_error.
  - intros s a m' e q'. unfold scan_fn. destruct e as [e|]; [destruct (_ && _); [done|]; simpl; by destruct (IsDir m')|]. destruct (String.eqb a "."); [done|]. destruct (negb _); [by destruct (IsDir m')|]. by destruct (kindOf m').
  - intros s a m' Hd. unfold scan_fn. destruct (String.eqb a "."); [done|]. destruct (negb _); [simpl; by rewrite Hd|]. by destruct (kindOf m').
  - intros s a e q' m' El _ Hw. apply scan_fn_error; [|done]. intros ->. unfold Lstat in El. cbn in El. by rewrite working_refused in El by apply Hq.
Qed.

Lemma observed_whole p n : fo_nodes f !! p = Some n -> reachable p -> wk_observed whole_walk !! p = Some n.
Proof.
  intros Hp (Hsy & Hab & Hk). destruct (walk_notices p n Hp Hsy Hab) as [[m Hm]|Hin].
  - intros m Hm. apply (Hk p); [apply within_refl|done].
  - destruct (wo_observed _ whole_walk_ok _ _ Hm) as [? _]. congruence.
  - apply existsb_exists in Hin as (x & Hx%list_elem_of_In & Hw). destruct (wo_problems _ whole_walk_ok _ Hx) as (m & Hxm & Hkm). by destruct (Hk x m).
Qed.

Lemma no_problem p : reachable p -> inAny p (wk_problems whole_walk) = false.
Proof.
  intros (_ & _ & Hk). apply Bool.not_true_iff_false. intros Hin. apply existsb_exists in Hin as (x & Hx%list_elem_of_In & Hw). destruct (wo_problems _ whole_walk_ok _ Hx) as (m & Hxm & Hkm). by destruct (Hk x m).
Qed.

(** *** Looking *)

Lemma set_settling_id tr : tr = set_settling tr (tr_settling tr).
Proof. by destruct tr. Qed.

Lemma settled_quiet c n tr : fo_nodes f !! ca_name c = Some n -> IsRegular n = true -> exists m, settled cfg ev c n tr = (true, set_settling tr m).
Proof.
  intros Hn Hr. destruct (qu_settled Hq _ _ Hn Hr) as [_ Hm]. unfold settled. destruct (_ || _); [eexists; by rewrite <- set_settling_id|]. cbv zeta.
  destruct (Z.leb_spec (tc_MergeSettle cfg) (sv_now ev (ca_name c) - nd_mtime n)); [by eexists|lia].
Qed.

Lemma examine_quiet c n tr : tr_fs tr = f -> ca_info c = Some n -> fo_nodes f !! ca_name c = Some n -> validPath (ca_name c) = true -> kindOf n <> None ->
  exists e m, examine cfg ev c n tr = (Ok e, set_settling tr m) /\ shows e n /\ Live e = true.
Proof.
  intros Hf Hi Hn Hv Hk. pose proof (qu_wf Hq) as Hwf. pose proof (qu_works Hq) as Hw. unfold examine. destruct (kindOf n) as [k|] eqn:Ek; [|done]. unfold kindOf in Ek.
  destruct (nd_body n) as [d| |t|] eqn:Eb; try done; injection Ek as <-.
  - assert (IsRegular n = true) as Hr by (unfold IsRegular; by rewrite Eb). destruct (qu_settled Hq _ _ Hn Hr) as [Hs _]. unfold examine_file.
    rewrite (proj2 (Z.ltb_ge _ _) Hs), andb_false_r. destruct (settled_quiet c n tr Hn Hr) as (m & ->). cbn [negb]. cbv zeta. change (tr_fs (set_settling tr m)) with (tr_fs tr). rewrite Hf.
    rewrite (working_Open f _ n d) by done. unfold ca_fp. rewrite Hi, bool_decide_eq_true_2 by done. cbn [negb]. rewrite (working_refused f) by done. rewrite (qu_others Hq), (qu_whole Hq). cbn [default].
    change (tr_fs (set_settling tr m)) with (tr_fs tr). rewrite Hf, (handle_stat_own f (ca_name c) n) by done. rewrite (bool_decide_eq_true_2 (fingerprintOf n = fingerprintOf n)) by done. cbn [negb]. rewrite Eb.
    destruct (_ && (_ <? _)) eqn:Eg; [exfalso|].
    { apply andb_true_iff in Eg as [Eg1 Eg2]. unfold Size in Eg1. rewrite Eb in Eg1. apply Z.ltb_lt in Eg2. apply andb_true_iff in Eg1 as [_ Eg1]. apply Z.ltb_lt in Eg1. lia. }
    eexists _, m. split; [done|]. set (entry := MkEntry File _ _ _ _ _ _). assert (forall g, shows (with_grew entry g) n) as Hsh.
    { intros g. unfold shows. simpl. exists d. split_and!; [done|unfold Size; by rewrite Eb|done|done]. }
    destruct (_ && String.eqb _ _); [split; [apply Hsh|done]|split; [apply (Hsh [])|done]].
  - eexists _, (tr_settling tr). rewrite <- set_settling_id. split; [done|]. split; [|done]. unfold shows. simpl. by rewrite Eb.
  - eexists _, (tr_settling tr). rewrite <- set_settling_id, Hf, (working_Readlink f _ n t) by done. pose proof (qu_links Hq _ _ _ Hn Eb) as Ht. rewrite (proj2 (String.eqb_neq t "")) by done.
    split; [done|]. split; [|done]. unfold shows. simpl. by rewrite Eb.
Qed.

(** A candidate of the folder as it is. *)
Definition cand_real (c : candidate) : Prop :=
  validPath (ca_name c) = true /\ match ca_info c with Some n => fo_nodes f !! ca_name c = Some n /\ kindOf n <> None | None => True end.

Definition looked_at (c c' : candidate) : Prop :=
  ca_name c' = ca_name c /\ ca_info c' = ca_info c /\ ca_prev c' = ca_prev c /\ forall n, ca_info c = Some n -> shows (ca_entry c') n /\ Live (ca_entry c') = true.

Lemma examine_all_quiet cands again failed tr : tr_fs tr = f -> (forall c, c ∈ cands -> cand_real c) ->
  exists cs m, examine_all cfg ev cands again failed tr = (Ok (cs, again, failed), set_settling tr m) /\ Forall2 looked_at cands cs.
Proof.
  revert tr. induction cands as [|c cands IH]; intros tr Hf Hc; simpl; [exists [], (tr_settling tr); by rewrite <- set_settling_id|].
  specialize (fun tr Hf => IH tr Hf ltac:(intros; apply Hc; set_solver)). destruct (Hc c ltac:(set_solver)) as [Hv Hr]. rewrite (qu_runs Hq). destruct (ca_info c) as [n|] eqn:Ei.
  - destruct Hr as [Hn Hk]. rewrite (qu_others Hq). destruct (examine_quiet c n tr Hf Ei Hn Hv Hk) as (e & m & -> & Hs & Hl). destruct (IH (set_settling tr m) Hf) as (cs & m' & -> & Hall).
    eexists _, m'. split; [done|]. constructor; [|done]. split_and!; [done|done|done|]. simpl. intros n' Hn'. assert (n' = n) as -> by congruence. done.
  - destruct (IH tr Hf) as (cs & m' & -> & Hall). eexists _, m'. split; [done|]. constructor; [|done]. split_and!; [done|done|done|]. congruence.
Qed.
End quiet.

(** ** Comparing and recording *)

Lemma compare_elem cfg areas s tr x : x ∈ compare_all cfg areas s tr <->
  (exists p n, wk_observed s !! p = Some n /\ observed_one tr p n = Some x) \/ (exists p r, rec_at tr p = Some r /\ missing_one cfg areas s p r = Some x).
Proof.
  unfold compare_all. rewrite elem_of_app, !list_elem_of_omap. split; (intros [H|H]; [left|right]).
  - destruct H as ([p n] & Hp%elem_of_map_to_list & E). eauto.
  - destruct H as ([p [i r]] & Hp%elem_of_map_to_list & E). exists p, r. unfold rec_at. simpl in *. by rewrite Hp.
  - destruct H as (p & n & Hp & E). exists (p, n). by rewrite elem_of_map_to_list.
  - destruct H as (p & r & Hp & E). unfold rec_at in Hp. destruct (tr_records tr !! p) as [[i r']|] eqn:Er; [|done]. injection Hp as ->. exists (p, (i, r)). by rewrite elem_of_map_to_list.
Qed.

Lemma settle_one_frame c tr chs again tr' : settle_one c tr = (chs, again, tr') ->
  tr_fs tr' = tr_fs tr /\ tr_closed tr' = tr_closed tr /\ (forall q, q <> ca_name c -> tr_records tr' !! q = tr_records tr !! q) /\ (forall ch, ch ∈ chs -> c_path ch = ca_name c).
Proof.
  assert (forall rec q, q <> ca_name c -> tr_records (putRecord (ca_name c) rec tr) !! q = tr_records tr !! q) as Hput by (intros; simpl; by rewrite lookup_insert_ne).
  unfold settle_one. destruct (negb _); [intros [= <- <- <-]; split_and!; set_solver|]. destruct (ca_info c) as [n|], (rec_at tr (ca_name c)) as [r|].
  - destruct (Same _ _); intros [= <- <- <-]; (split_and!; [done|done|by auto|]); [destruct (rc_Sent r)|]; set_solver.
  - intros [= <- <- <-]. split_and!; [done|done|by auto|]. set_solver.
  - destruct (negb _); intros [= <- <- <-]; (split_and!; [done|done|by auto|]); set_solver.
  - intros [= <- <- <-]. split_and!; set_solver.
Qed.

(** Each candidate is recorded on its own. *)
Lemma settle_all_at cs : forall tr chs again tr', NoDup (map ca_name cs) -> settle_all cs tr = (chs, again, tr') ->
  tr_fs tr' = tr_fs tr /\ tr_closed tr' = tr_closed tr /\ (forall q, q ∉ map ca_name cs -> tr_records tr' !! q = tr_records tr !! q) /\ (forall ch, ch ∈ chs -> c_path ch ∈ map ca_name cs) /\
  (forall c, c ∈ cs -> exists tra chsa againa trb, tr_fs tra = tr_fs tr /\ tr_records tra !! ca_name c = tr_records tr !! ca_name c /\
     settle_one c tra = (chsa, againa, trb) /\ tr_records tr' !! ca_name c = tr_records trb !! ca_name c /\ (forall ch, ch ∈ chsa <-> ch ∈ chs /\ c_path ch = ca_name c)).
Proof.
  induction cs as [|c cs IH]; intros tr chs again tr' Hnd; simpl; [intros [= <- <- <-]; split_and!; [done|done|done|set_solver|set_solver]|]. apply NoDup_cons in Hnd as [Hnin Hnd].
  destruct (settle_one c tr) as [[chs1 again1] tr1] eqn:E1. destruct (settle_one_frame _ _ _ _ _ E1) as (F1 & C1 & R1 & T1). destruct (settle_all cs tr1) as [[chs2 again2] tr2] eqn:E2. intros [= <- <- <-].
  destruct (IH _ _ _ _ Hnd E2) as (F2 & C2 & R2 & T2 & A2). split_and!; [congruence|congruence| | |].
  - intros q [Hq1 Hq2]%not_elem_of_cons. rewrite R2 by done. by apply R1.
  - intros ch [Hin|Hin]%elem_of_app; [rewrite (T1 ch Hin); by left|right; by apply T2].
  - intros c' [->|Hin]%elem_of_cons.
    + exists tr, chs1, again1, tr1. split_and!; [done|done|done|by apply R2|]. intros ch. rewrite elem_of_app. split; [intros Hch; split; [by left|by apply T1]|].
      intros [[?|Hch] E]; [done|]. apply T2 in Hch. by rewrite E in Hch.
    + assert (ca_name c' <> ca_name c) as Hne.
      { intros E. apply Hnin. rewrite <- E. apply list_elem_of_In, in_map_iff. exists c'. split; [done|by apply list_elem_of_In]. }
      destruct (A2 c' Hin) as (tra & chsa & againa & trb & Ha1 & Ha2 & Ha3 & Ha4 & Ha5). exists tra, chsa, againa, trb. split_and!; [congruence|rewrite Ha2; by apply R1|done|done|].
      intros ch. rewrite Ha5, elem_of_app. split; [intros [? ?]; auto|]. intros [[Hch|?] E]; [|done]. rewrite (T1 ch Hch) in E. by symmetry in E.
Qed.

Section step.
Context (cfg : treeConf) `{C : !journal_codec treeRecord} (ev : scanEnv).

(** The record of [p] is what the folder has there. *)
Definition in_step (p : string) (tr : treeRoot) : Prop :=
  match fo_nodes (tr_fs tr) !! p with
  | Some n => exists r, rec_at tr p = Some r /\ Live (rc_Entry r) = true /\ rc_FP r = fingerprintOf n /\ shows (rc_Entry r) n
  | None => not_live (rec_at tr p)
  end.

(** The record of [p] is the state the folder has there, whatever its fingerprint. *)
Definition known (p : string) (tr : treeRoot) : Prop :=
  match fo_nodes (tr_fs tr) !! p with
  | Some n => exists r, rec_at tr p = Some r /\ Live (rc_Entry r) = true /\ shows (rc_Entry r) n
  | None => not_live (rec_at tr p)
  end.

(** A change of [p] waits for the hub's answer. *)
Definition unanswered_at (p : string) (tr : treeRoot) : Prop := exists r, rec_at tr p = Some r /\ rc_Sent r = true.

(** The rev the side last had of [p]. *)
Definition base_of (p : string) (tr : treeRoot) : Z := match rec_at tr p with Some r => rc_Rev r | None => 0 end.

Lemma in_step_known p tr : in_step p tr -> known p tr.
Proof. unfold in_step, known. destruct (fo_nodes (tr_fs tr) !! p) as [n|]; [|done]. intros (r & ? & ? & _ & ?). by exists r. Qed.

Lemma shows_Same e e' n : shows e n -> shows e' n -> Same e e' = true.
Proof.
  unfold shows, Same. destruct (ekind e) eqn:E1, (ekind e') eqn:E2; intros H1 H2; try done; repeat match goal with H : exists _, _ |- _ => destruct H | H : _ /\ _ |- _ => destruct H end; try congruence;
    rewrite bool_decide_eq_true_2 by done; cbn [negb].
  - match goal with A : nd_body n = BFile ?a, B : nd_body n = BFile ?b |- _ => assert (a = b) as -> by congruence end.
    repeat (apply andb_true_iff; split); first [apply Z.eqb_eq; congruence|apply String.eqb_eq; congruence].
  - apply Z.eqb_eq; congruence.
  - apply String.eqb_eq; congruence.
Qed.

Lemma compare_real tr c : quiet cfg ev (tr_fs tr) -> c ∈ rights (compare_all cfg ["."] (whole_walk cfg (tr_fs tr)) tr) -> cand_real (tr_fs tr) c.
Proof.
  intros Hq. rewrite rights_elem, compare_elem. intros [(p & n & Hp & E)|(p & r & Hp & E)].
  - destruct (wo_observed _ _ _ (whole_walk_ok _ _ _ Hq) _ _ Hp) as (Hn & Hs & Hk). pose proof (observed_one_name tr (p, n) c E) as Hname. simpl in Hname.
    assert (ca_info c = Some n) as Hi. { unfold observed_one in E. destruct (rec_at tr p) as [r|]; [destruct (_ && _); [by destruct (rc_Sent r)|]|]; by injection E as <-. }
    split; [rewrite Hname; by eapply synced_valid|]. rewrite Hi, Hname. done.
  - unfold missing_one in E. destruct (_ || _ || _ || _) eqn:Eb; [done|]. destruct (negb (Live _)); [by destruct (rc_Sent r)|]. injection E as <-. bool_hyps. split; [by eapply synced_valid|done].
Qed.

Lemma scan_quiet_run root tr : quiet cfg ev (tr_fs tr) -> root = tc_Name cfg -> tr_closed tr = false -> tr_there tr = true ->
  exists cs chs again' tr5 tr6, tr_fs tr5 = tr_fs tr /\ tr_records tr5 = tr_records tr /\ tr_closed tr5 = false /\
    Forall2 looked_at (rights (compare_all cfg ["."] (whole_walk cfg (tr_fs tr)) tr)) cs /\ settle_all cs tr5 = (chs, again', tr6) /\
    Scan cfg ev root [] tr = match tree_commit tr6 with
      | (Some e, t) => (Err e, t)
      | (None, t) => (Ok (MkReport root (tr_epoch t) (sortChanges (lefts (compare_all cfg ["."] (whole_walk cfg (tr_fs tr)) tr) ++ chs)), again'), t)
      end.
Proof.
  intros Hq -> Hcl Hth. pose proof (whole_walk_ok _ _ _ Hq) as Hok. unfold Scan. rewrite Hcl, Hth, String.eqb_refl. cbn [negb]. rewrite !(qu_others _ _ _ Hq). set (tr1 := set_scans tr _).
  change (tr_fs tr1) with (tr_fs tr). change (reach (tr_fs tr) (cover [])) with ["."]. cbn [walk_areas]. change (negb (String.eqb "." ".") && _) with false. cbv iota.
  rewrite !(qu_others _ _ _ Hq), (qu_runs _ _ _ Hq), (qu_view _ _ _ Hq), (qu_deeper _ _ _ Hq). change (tr_fs tr1) with (tr_fs tr).
  change (WalkDirLive (fun _ => tr_fs tr) (scan_fn cfg ".") 0 no_walk ".") with (whole_walk cfg (tr_fs tr)).
  rewrite !(qu_others _ _ _ Hq), (wo_again _ _ _ Hok). change (compare_all cfg ["."] (whole_walk cfg (tr_fs tr)) tr1) with (compare_all cfg ["."] (whole_walk cfg (tr_fs tr)) tr).
  destruct (examine_all_quiet cfg ev (tr_fs tr) Hq (rights (compare_all cfg ["."] (whole_walk cfg (tr_fs tr)) tr)) [] (wk_failed (whole_walk cfg (tr_fs tr))) tr1 eq_refl) as (cs & m & -> & Hall).
  { intros c Hc. by apply compare_real. }
  rewrite !(qu_others _ _ _ Hq). change (tr_there (set_settling tr1 m)) with (tr_there tr). rewrite Hth. cbn [negb].
  match goal with |- context [settle_all cs ?t] => set (tr5 := t) end. destruct (settle_all cs tr5) as [[chs again'] tr6] eqn:Es. exists cs, chs, again', tr5, tr6. split_and!; done.
Qed.

Lemma Forall2_names cands cs : Forall2 looked_at cands cs -> map ca_name cs = map ca_name cands.
Proof. induction 1 as [|c c' cands cs (E & _) _ IH]; [done|]. simpl. by rewrite E, IH. Qed.

Lemma Forall2_looked cands cs c : Forall2 looked_at cands cs -> c ∈ cands -> exists c', c' ∈ cs /\ looked_at c c'.
Proof. intros H Hin. apply list_elem_of_lookup_1 in Hin as [i Hi]. destruct (Forall2_lookup_l _ _ _ _ _ H Hi) as (c' & Hc' & HP). exists c'. split; [by eapply list_elem_of_lookup_2|done]. Qed.

(** A candidate recorded where the folder is as it was found: the record is what is
    there, sent when it is news or one that waited. *)
Lemma settle_found c c' tr chs again tr' n : looked_at c c' -> ca_info c = Some n -> Lstat (tr_fs tr) (ca_name c) = Ok n -> settle_one c' tr = (chs, again, tr') ->
  exists r, rec_at tr' (ca_name c) = Some r /\ Live (rc_Entry r) = true /\ rc_FP r = fingerprintOf n /\ shows (rc_Entry r) n /\ rc_Rev r = base_of (ca_name c) tr /\
    chs = (if rc_Sent r then [MkChange (ca_name c) (rc_Rev r) (rc_Entry r)] else []) /\
    (rc_Sent r = false <-> exists r0, rec_at tr (ca_name c) = Some r0 /\ Live (rc_Entry r0) = true /\ shows (rc_Entry r0) n /\ rc_Sent r0 = false).
Proof.
  intros (En & Ei & _ & Hs) Hi Hl. destruct (Hs n Hi) as [Hsh Hlive]. unfold settle_one, base_of. rewrite En, Ei, Hi, Hl. assert (ca_fp c' = fingerprintOf n) as -> by (unfold ca_fp; by rewrite Ei, Hi).
  rewrite bool_decide_eq_true_2 by done. cbn [negb]. destruct (rec_at tr (ca_name c)) as [r|]; [destruct (Same (rc_Entry r) (ca_entry c')) eqn:Esame|]; intros [= <- <- <-];
    unfold rec_at; simpl; rewrite lookup_insert_eq; simpl; eexists; (split; [done|]); simpl.
  - assert (Live (rc_Entry r) = true) as Hlr by (unfold Same in Esame; unfold Live in *; destruct (bool_decide_reflect (ekind (rc_Entry r) = ekind (ca_entry c'))) as [->|]; done).
    assert (shows (rc_Entry r) n) as Hsr by (eapply Same_shows; [by rewrite Same_sym|done]). split_and!; try done. split; [intros Hsent; by exists r|]. by intros (r0 & [= <-] & _ & _ & ?).
  - split_and!; try done. split; [done|]. intros (r0 & [= <-] & _ & Hsr & _). by rewrite (shows_Same _ _ n Hsr Hsh) in Esame.
  - split_and!; try done. split; [done|]. by intros (r0 & ? & _).
Qed.

Lemma settle_gone c c' tr chs again tr' r : looked_at c c' -> ca_info c = None -> cannotExist (Lstat (tr_fs tr) (ca_name c)) = true -> rec_at tr (ca_name c) = Some r -> Live (rc_Entry r) = true ->
  settle_one c' tr = (chs, again, tr') ->
  exists r', rec_at tr' (ca_name c) = Some r' /\ Live (rc_Entry r') = false /\ rc_Rev r' = rc_Rev r /\ rc_Sent r' = true /\ MkChange (ca_name c) (rc_Rev r') (rc_Entry r') ∈ chs.
Proof.
  intros (En & Ei & _ & _) Hi Hl Hr Hlive. unfold settle_one. rewrite En, Ei, Hi, Hl, Hr, Hlive. cbn [negb]. intros [= <- <- <-]. unfold rec_at. simpl. rewrite lookup_insert_eq. eexists. split; [done|]. simpl.
  split_and!; [apply Live_tombstone|done|done|by left].
Qed.

(** Which paths a whole scan of a quiet folder has candidates at. *)
Lemma candidate_at tr p c : quiet cfg ev (tr_fs tr) -> reachable cfg (tr_fs tr) p -> c ∈ rights (compare_all cfg ["."] (whole_walk cfg (tr_fs tr)) tr) -> ca_name c = p ->
  match fo_nodes (tr_fs tr) !! p with
  | Some n => forall r, rec_at tr p = Some r -> Live (rc_Entry r) = true -> rc_FP r <> fingerprintOf n
  | None => exists r, rec_at tr p = Some r /\ Live (rc_Entry r) = true
  end.
Proof.
  intros Hq Hr. rewrite rights_elem, compare_elem. intros [(q & n & Hp & E)|(q & r & Hp & E)] <-.
  - pose proof (observed_one_name tr (q, n) c E) as Hname. simpl in Hname. rewrite Hname in *. destruct (wo_observed _ _ _ (whole_walk_ok _ _ _ Hq) _ _ Hp) as (-> & _). intros r Hrec Hl Hfp.
    unfold observed_one in E. rewrite Hrec, Hl, bool_decide_eq_true_2 in E by done. simpl in E. by destruct (rc_Sent r).
  - unfold missing_one in E. destruct (_ || _ || _ || _) eqn:Eb; [done|]. destruct (negb (Live (rc_Entry r))) eqn:El; [by destruct (rc_Sent r)|]. injection E as <-. simpl in *. apply negb_false_iff in El.
    destruct (fo_nodes (tr_fs tr) !! q) as [n|] eqn:En; [|by eauto]. exfalso. rewrite (observed_whole cfg ev _ Hq q n En Hr), bool_decide_eq_true_2 in Eb by eauto. done.
Qed.

Lemma found_elem tr p x : quiet cfg ev (tr_fs tr) -> reachable cfg (tr_fs tr) p ->
  match fo_nodes (tr_fs tr) !! p with
  | Some n => observed_one tr p n = Some x
  | None => exists r, rec_at tr p = Some r /\ (if Live (rc_Entry r) then Some (inr (MkCand p None (rc_Entry r) zero_entry))
                                              else if rc_Sent r then Some (inl (MkChange p (rc_Rev r) (rc_Entry r))) else None) = Some x
  end -> x ∈ compare_all cfg ["."] (whole_walk cfg (tr_fs tr)) tr.
Proof.
  intros Hq Hr. rewrite compare_elem. destruct (fo_nodes (tr_fs tr) !! p) as [n|] eqn:En.
  - intros E. left. exists p, n. split; [by eapply observed_whole|done].
  - intros (r & Hrec & E). right. exists p, r. split; [done|]. unfold missing_one. rewrite bool_decide_eq_false_2.
    + rewrite (no_problem cfg ev _ Hq p Hr), (proj1 Hr). simpl. by destruct (Live (rc_Entry r)).
    + intros [m Hm]. destruct (wo_observed _ _ _ (whole_walk_ok _ _ _ Hq) _ _ Hm) as [? _]. congruence.
Qed.

Section scanned.
Context (tr tr5 tr6 : treeRoot) (cs : list candidate) (chs : list Change) (again : list string) (p : string).
Notation found := (compare_all cfg ["."] (whole_walk cfg (tr_fs tr)) tr).
Hypothesis (Hq : quiet cfg ev (tr_fs tr)) (Ht : truthful p tr) (Hr : reachable cfg (tr_fs tr) p) (F5 : tr_fs tr5 = tr_fs tr) (R5 : tr_records tr5 = tr_records tr).
Hypothesis (Hall : Forall2 looked_at (rights found) cs) (Es : settle_all cs tr5 = (chs, again, tr6)).

(** What the scan did of a candidate at [p]. *)
Lemma cand_settled c : inr c ∈ found -> ca_name c = p -> exists c' tra chsa againa trb, looked_at c c' /\ tr_fs tra = tr_fs tr /\ rec_at tra p = rec_at tr p /\
  settle_one c' tra = (chsa, againa, trb) /\ rec_at tr6 p = rec_at trb p /\ (forall ch, ch ∈ chsa <-> ch ∈ chs /\ c_path ch = p).
Proof.
  destruct (settle_all_at cs tr5 chs again tr6) as (_ & _ & _ & _ & A6); [rewrite (Forall2_names _ _ Hall); apply compare_names|done|].
  intros Hc%rights_elem <-. destruct (Forall2_looked _ _ _ Hall Hc) as (c' & Hc' & Hlk). destruct (A6 c' Hc') as (tra & chsa & againa & trb & Fa & Ra & Sa & Rb & Ca). pose proof Hlk as (En & _).
  exists c', tra, chsa, againa, trb. rewrite En in Ra, Rb, Ca. split_and!; [done|congruence|unfold rec_at; by rewrite Ra, R5|done|unfold rec_at; by rewrite Rb|done].
Qed.

(** Where there is no candidate the record stays, and nothing new is reported. *)
Lemma no_cand : (forall c, inr c ∈ found -> ca_name c <> p) -> rec_at tr6 p = rec_at tr p /\ forall ch, ch ∈ chs -> c_path ch <> p.
Proof.
  intros Hno. destruct (settle_all_at cs tr5 chs again tr6) as (_ & _ & R6 & T6 & _); [rewrite (Forall2_names _ _ Hall); apply compare_names|done|].
  assert (p ∉ map ca_name cs) as Hn.
  { intros Hin. rewrite (Forall2_names _ _ Hall) in Hin. apply list_elem_of_In, in_map_iff in Hin as (c & En & Hc). apply list_elem_of_In, rights_elem in Hc. by apply (Hno c). }
  split; [unfold rec_at; by rewrite R6, R5|]. intros ch Hch E. apply T6 in Hch. congruence.
Qed.

Lemma no_cand_at : match fo_nodes (tr_fs tr) !! p with
                   | Some n => exists r, rec_at tr p = Some r /\ Live (rc_Entry r) = true /\ rc_FP r = fingerprintOf n
                   | None => not_live (rec_at tr p)
                   end -> forall c, inr c ∈ found -> ca_name c <> p.
Proof.
  intros Hst c Hc Enm. apply rights_elem in Hc. pose proof (candidate_at tr p c Hq Hr Hc Enm) as Hca. destruct (fo_nodes (tr_fs tr) !! p) as [n|].
  - destruct Hst as (r & Hrec & Hl & Hfp). by apply (Hca r).
  - destruct Hca as (r & Hrec & Hl). rewrite Hrec in Hst. simpl in Hst. congruence.
Qed.

(** The record after a scan of the folder at rest: what is there, at the rev the side
    had; sent exactly when it is news or waited; and the report has one change of the
    path when it is sent, and none else. *)
Lemma scan_at : in_step p tr6 /\ (forall r, rec_at tr6 p = Some r -> rc_Rev r = base_of p tr) /\
  (forall r, rec_at tr6 p = Some r -> rc_Sent r = true -> MkChange p (rc_Rev r) (rc_Entry r) ∈ lefts found ++ chs) /\
  (~ known p tr \/ unanswered_at p tr -> unanswered_at p tr6) /\
  (known p tr -> ~ unanswered_at p tr -> forall ch, ch ∈ lefts found ++ chs -> c_path ch <> p).
Proof.
  assert (validPath p = true) as Hv by (exact (synced_valid _ _ (proj1 Hr))). destruct (settle_all_at cs tr5 chs again tr6) as (F6 & _); [rewrite (Forall2_names _ _ Hall); apply compare_names|done|].
  assert (~ unanswered_at p tr -> forall ch, ch ∈ lefts found -> c_path ch <> p) as Hleft.
  { intros Hna ch Hin E. apply compare_unacked in Hin as (r & Hrec & Hsent & _). rewrite E in Hrec. apply Hna. by exists r. }
  pose proof (fun x => found_elem tr p x Hq Hr) as Hfe. pose proof no_cand_at as Hnc. unfold in_step, known, base_of in *. rewrite F6, F5. destruct (fo_nodes (tr_fs tr) !! p) as [n|] eqn:En.
  - assert ((exists r, rec_at tr p = Some r /\ Live (rc_Entry r) = true /\ rc_FP r = fingerprintOf n) \/ exists c, observed_one tr p n = Some (inr c) /\ ca_name c = p /\ ca_info c = Some n) as [(r & Hrec & Hl & Hfp)|(c & Eo & Enm & Ei)].
    { unfold observed_one. destruct (rec_at tr p) as [r|]; [|right; by eexists]. destruct (Live (rc_Entry r)) eqn:El; [|right; by eexists]. case_bool_decide; [left; by exists r|right; by eexists]. }
    + destruct no_cand as [Hk Hch]; [apply Hnc; by exists r|]. unfold unanswered_at. rewrite Hk. assert (shows (rc_Entry r) n) as Hsh by auto. split_and!.
      * exists r. by split_and!.
      * intros r'. rewrite Hrec. by intros [= <-].
      * intros r' Hr' Hsent. rewrite Hrec in Hr'. injection Hr' as <-. apply elem_of_app. left. apply lefts_elem, Hfe. unfold observed_one. by rewrite Hrec, Hl, bool_decide_eq_true_2, Hsent.
      * intros [Hnk|?]; [|done]. destruct Hnk. by exists r.
      * intros _ Hna ch [Hin|Hin]%elem_of_app; [by apply Hleft|by apply Hch].
    + destruct (cand_settled c (Hfe _ Eo) Enm) as (c' & tra & chsa & againa & trb & Hlk & Fa & Ra & Sa & Rb & Ca). unfold unanswered_at. rewrite Rb.
      destruct (settle_found c c' tra chsa againa trb n Hlk Ei) as (r & Hrec & Hl & Hfp & Hsh & Hrev & Hchs & Hsent); [rewrite Fa, Enm; apply working_Lstat; [apply Hq|apply Hq|done|done]|done|].
      unfold base_of in Hrev. rewrite Enm, Ra in *. split_and!.
      * exists r. by split_and!.
      * intros r' Hr'. rewrite Hrec in Hr'. by injection Hr' as <-.
      * intros r' Hr' Hs. rewrite Hrec in Hr'. injection Hr' as <-. apply elem_of_app. right. apply Ca. rewrite Hchs, Hs. by left.
      * intros Hnews. exists r. split; [done|]. destruct (rc_Sent r) eqn:Er; [done|]. destruct (proj1 Hsent eq_refl) as (r0 & H0 & H1 & H2 & H3). exfalso.
        destruct Hnews as [Hnk|(r1 & Hr1 & Hs1)]; [apply Hnk; by exists r0|congruence].
      * intros (r0 & H0 & H1 & H2) Hna ch [Hin|Hin]%elem_of_app; [by apply Hleft|]. intros E. assert (ch ∈ chsa) as Hin' by (by apply Ca). rewrite Hchs in Hin'.
        assert (rc_Sent r = false) as Hf by (apply Hsent; exists r0; split_and!; try done; destruct (rc_Sent r0) eqn:E0; [destruct Hna; by exists r0|done]). rewrite Hf in Hin'. by apply elem_of_nil in Hin'.
  - destruct (rec_at tr p) as [r|] eqn:Hrec; [destruct (Live (rc_Entry r)) eqn:Hl|].
    + set (c := MkCand p None (rc_Entry r) zero_entry). assert (inr c ∈ found) as Hc by (apply Hfe; exists r; by rewrite Hl).
      destruct (cand_settled c Hc eq_refl) as (c' & tra & chsa & againa & trb & Hlk & Fa & Ra & Sa & Rb & Ca). unfold unanswered_at. rewrite Rb.
      destruct (settle_gone c c' tra chsa againa trb r Hlk eq_refl) as (r' & Hrec' & Hl' & Hrev & Hsent & Hch); [rewrite Fa; apply working_gone; [apply Hq|apply Hq|done|done]|change (ca_name c) with p; congruence|done|done|]. change (ca_name c) with p in *. rewrite Hrec'. split_and!.
      * done.
      * by intros r'' [= <-].
      * intros r'' [= <-] _. apply elem_of_app. right. by apply Ca.
      * intros _. by exists r'.
      * simpl. congruence.
    + destruct no_cand as [Hk Hch]; [by apply Hnc|]. unfold unanswered_at. rewrite Hk, Hrec. split_and!.
      * done.
      * by intros r' [= <-].
      * intros r' [= <-] Hsent. apply elem_of_app. left. apply lefts_elem, Hfe. exists r. by rewrite Hl, Hsent.
      * intros [Hnk|?]; [by destruct Hnk|done].
      * intros _ Hna ch [Hin|Hin]%elem_of_app; [|by apply Hch]. apply Hleft; [|done]. unfold unanswered_at. by rewrite Hrec.
    + destruct no_cand as [Hk Hch]; [by apply Hnc|]. unfold unanswered_at. rewrite Hk, Hrec. split_and!; [done|done|done|by intros [?|(r' & ? & _)]|].
      intros _ Hna ch [Hin|Hin]%elem_of_app; [|by apply Hch]. apply Hleft; [|done]. unfold unanswered_at. by rewrite Hrec.
Qed.
End scanned.

Lemma commit_error tr e t : tr_closed tr = false -> tree_commit tr = (Some e, t) -> exists je, e = JournalE je.
Proof.
  intros Hc. unfold tree_commit. rewrite Hc. destruct (commit _ _) as [[[e'|] j] d]; [intros [= <- <-]; by eexists|]. destruct (due _ _); [|done].
  unfold tree_compact. destruct (compact _ _ _) as [[[e'|] j'] d']; [|done]. intros [= <- <-]. by eexists.
Qed.

Lemma rec_at_commit tr p : rec_at (tree_commit tr).2 p = rec_at tr p.
Proof. unfold rec_at. by rewrite commit_records. Qed.
End step.

(** What a full scan leaves of a path, and reports of it. *)
Definition scanned_at (p : string) (tr tr' : treeRoot) (rep : Report) : Prop :=
  in_step p tr' /\
  (forall r, rec_at tr' p = Some r -> rc_Rev r = base_of p tr /\ (rc_Sent r = true -> MkChange p (rc_Rev r) (rc_Entry r) ∈ r_changes rep)) /\
  (~ known p tr \/ unanswered_at p tr -> unanswered_at p tr') /\
  (known p tr -> ~ unanswered_at p tr -> forall ch, ch ∈ r_changes rep -> c_path ch <> p).

(** A scan of everything in a folder at rest, at a path whose record tells. *)
Lemma scan_path cfg (C : journal_codec treeRecord) ev tr p rep again tr' : quiet cfg ev (tr_fs tr) -> truthful p tr -> reachable cfg (tr_fs tr) p -> tr_closed tr = false -> tr_there tr = true ->
  Scan cfg ev (tc_Name cfg) [] tr = (Ok (rep, again), tr') -> scanned_at p tr tr' rep.
Proof.
  intros Hq Ht Hr Hcl Hth. destruct (scan_quiet_run cfg ev (tc_Name cfg) tr Hq eq_refl Hcl Hth) as (cs & chs & again' & tr5 & tr6 & F5 & R5 & C5 & Hall & Es & ->).
  destruct (tree_commit tr6) as [[e|] t] eqn:Ec; [done|]. intros [= <- <- <-]. pose proof (f_equal snd Ec : (tree_commit tr6).2 = t) as Et.
  destruct (scan_at cfg ev tr tr5 tr6 cs chs again' p Hq Ht Hr F5 R5 Hall Es) as (H1 & H2 & H3 & H4 & H5).
  assert (rec_at t p = rec_at tr6 p) as Hrec by (rewrite <- Et; apply rec_at_commit). unfold scanned_at, unanswered_at, in_step in *. cbn [r_changes]. unfold sortChanges. setoid_rewrite SortFunc_perm.
  rewrite Hrec, <- Et, commit_fs. split_and!; [done|intros r E; split; auto|done|done].
Qed.

(** A scan of everything in a folder at rest. *)
Lemma scan_whole cfg (C : journal_codec treeRecord) ev tr : quiet cfg ev (tr_fs tr) -> (forall p, truthful p tr) -> tr_closed tr = false -> tr_there tr = true ->
  exists res tr', Scan cfg ev (tc_Name cfg) [] tr = (res, tr') /\ tr_fs tr' = tr_fs tr /\
  match res with
  | Err e => exists je, e = JournalE je
  | Ok (rep, _) => forall p, reachable cfg (tr_fs tr) p -> scanned_at p tr tr' rep
  end.
Proof.
  intros Hq Ht Hcl Hth. destruct (scan_quiet_run cfg ev (tc_Name cfg) tr Hq eq_refl Hcl Hth) as (cs & chs & again & tr5 & tr6 & F5 & R5 & C5 & Hall & Es & E).
  destruct (settle_all_at cs tr5 chs again tr6) as (F6 & C6 & _); [rewrite (Forall2_names _ _ Hall); apply compare_names|done|].
  destruct (tree_commit tr6) as [[e|] t] eqn:Ec; rewrite E.
  - eexists _, t. split; [done|]. split; [rewrite <- (f_equal snd Ec : _ = t), commit_fs; congruence|]. eapply commit_error; [|exact Ec]. congruence.
  - eexists _, t. split; [done|]. split; [rewrite <- (f_equal snd Ec : _ = t), commit_fs; congruence|]. intros p Hr. by eapply scan_path.
Qed.

(** C34: a scan of everything in a folder at rest where no call fails always ends, in
    a report unless the journal cannot be written; it leaves the folder alone; and at
    every path synced (with no folder above left out and no device in the way) the
    record is then what the folder holds - its content, size, hash, mode and
    fingerprint, or no live record where there is nothing - at the rev the side had. A
    path whose record was not what the folder holds, or that waited for an answer, is
    recorded as waiting, and whatever is so recorded is in the report at that rev and
    state; a path whose record was what the folder holds, with nothing waiting, is not
    in the report. *)
Theorem scan_in_step cfg (C : journal_codec treeRecord) ev tr : quiet cfg ev (tr_fs tr) -> (forall p, truthful p tr) -> tr_closed tr = false -> tr_there tr = true ->
  exists res tr', Scan cfg ev (tc_Name cfg) [] tr = (res, tr') /\ tr_fs tr' = tr_fs tr /\
  match res with
  | Err e => exists je, e = JournalE je
  | Ok (rep, _) => forall p, reachable cfg (tr_fs tr) p -> scanned_at p tr tr' rep
  end.
Proof. apply scan_whole. Qed.

(** The folder holds the op's state. *)
Definition holds_op (op : Op) (tr : treeRoot) : Prop :=
  if Live (o_entry op) then exists n, fo_nodes (tr_fs tr) !! o_path op = Some n /\ shows (o_entry op) n else fo_nodes (tr_fs tr) !! o_path op = None.

Lemma dirty_tells n : dirtyFingerprint <> fingerprintOf n.
Proof. unfold dirtyFingerprint, fingerprintOf, Size. destruct (IsDir n); [done|]. destruct (nd_body n); intros E; injection E; lia. Qed.

(** What is recorded of an op applied: nothing waits, at the op's rev; and the record is
    the folder's state when the folder holds the op's. *)
Lemma applied_record op tr : lands op tr \/ left_dirty op tr ->
  truthful (o_path op) tr /\ ~ unanswered_at (o_path op) tr /\ (holds_op op tr -> known (o_path op) tr) /\
  (~ holds_op op tr -> ~ known (o_path op) tr /\ base_of (o_path op) tr = o_rev op /\ exists n, fo_nodes (tr_fs tr) !! o_path op = Some n).
Proof.
  unfold lands, left_dirty, recorded, holds_op, known, unanswered_at, base_of, truthful, rec_at. intros [Hl|(Hk & (n & Hn) & i & Hi)].
  - destruct (Live (o_entry op)).
    + destruct Hl as (n & Hn & Hs & i & Hi). rewrite Hn, Hi. cbn [fmap option_fmap option_map snd]. split_and!.
      * intros r m [= <-] _ [= <-] _. done.
      * by intros (r & [= <-] & ?).
      * intros _. eexists. split; [done|]. cbn [rc_Entry]. split; [|done]. unfold shows in Hs. unfold Live. by destruct (ekind (o_entry op)).
      * intros Hn'. destruct Hn'. by exists n.
    + destruct Hl as [Hn Hi]. rewrite Hn, Hi. cbn. split_and!; [done|by intros (r & ? & _)|done|by intros H].
  - assert (Live (o_entry op) = true) as Hlv by (unfold Live; by rewrite Hk). rewrite Hlv, Hn, Hi. cbn [fmap option_fmap option_map snd]. split_and!.
    + intros r m [= <-] _ [= <-] E. cbn in E. by apply dirty_tells in E.
    + by intros (r & [= <-] & ?).
    + intros (m & [= <-] & Hs). by eexists.
    + intros Hnh. split_and!; [|done|by exists n]. intros (r & [= <-] & _ & Hs). apply Hnh. by exists n.
Qed.

(** C35: what a side applies it does not report back, and what another wrote over it
    it does: once an op is answered as applied, a scan of the folder at rest reports
    no change at its path when the folder holds the op's state; and when another wrote
    the file between its write and the look that recorded it, the scan reports what is
    there, made on the op's rev. The conditions on others are those of [apply_lands]. *)
Theorem applied_not_reported cfg (C : journal_codec treeRecord) Error check_text ev sev op tr tr' why rep again tr'' :
  tc_ReadOnly cfg = false -> (forall n, honest_others (ev_others ev n)) -> keeps_content (ev_others ev 3) -> writes_show op (ev_others ev 6) -> ids_below tr -> wf_folder (tr_fs tr) -> honest (tr_fs tr) ->
  truthful (o_path op) tr -> apply cfg Error check_text ev op tr = ((Applied, why), tr') ->
  quiet cfg sev (tr_fs tr') -> reachable cfg (tr_fs tr') (o_path op) -> tr_closed tr' = false -> tr_there tr' = true ->
  Scan cfg sev (tc_Name cfg) [] tr' = (Ok (rep, again), tr'') ->
  (holds_op op tr' -> forall ch, ch ∈ r_changes rep -> c_path ch <> o_path op) /\
  (~ holds_op op tr' -> exists n ch, fo_nodes (tr_fs tr') !! o_path op = Some n /\ ch ∈ r_changes rep /\ c_path ch = o_path op /\ c_base ch = o_rev op /\ shows (c_entry ch) n).
Proof.
  intros Hro Ho Hkc Hw Hids Hwf Hh Htr (Hs & Hc & at_ & Hf & Ea)%apply_Applied Hq Hr Hcl Hth Hscan; [|done..].
  assert (lands op tr' \/ left_dirty op tr') as Hl by (by eapply apply_at_lands). destruct (applied_record op tr' Hl) as (Ht' & Hna & Hknow & Hnot).
  destruct (scan_path cfg C sev tr' (o_path op) rep again tr'' Hq Ht' Hr Hcl Hth Hscan) as (H1 & H2 & H3 & H4). split.
  - intros Hho. apply H4; auto.
  - intros Hho. destruct (Hnot Hho) as (Hnk & Hb & n & Hn). destruct (H3 (or_introl Hnk)) as (r & Hrec & Hsent). destruct (H2 r Hrec) as [Hrev Hin]. exists n. eexists. split; [done|]. split; [by apply Hin|].
    cbn. split_and!; [done|congruence|]. assert (tr_fs tr'' = tr_fs tr') as Hfs.
    { destruct (scan_quiet_run cfg sev (tc_Name cfg) tr' Hq eq_refl Hcl Hth) as (cs & chs & again' & tr5 & tr6 & F5 & R5 & C5 & Hall & Es & E). rewrite E in Hscan.
      destruct (settle_all_at cs tr5 chs again' tr6) as (F6 & _); [rewrite (Forall2_names _ _ Hall); apply compare_names|done|].
      destruct (tree_commit tr6) as [[e|] t] eqn:Ec; [done|]. injection Hscan as _ _ <-. rewrite <- (f_equal snd Ec : _ = t), commit_fs. congruence. }
    unfold in_step in H1. rewrite Hfs, Hn in H1. destruct H1 as (r' & Hr' & _ & _ & Hsh). congruence.
Qed.
