(* ===== verification/SideFetch.v ===== *)
(** * Serving a file's content (internal/sharesync/apply.go: Fetch, fetchReader)

    Fetch opens the file a record names and checks it is the one recorded;
    fetchReader passes its bytes on and checks, at the end, that it was that file
    throughout. The lock is free while the file is opened and read: [others] is what
    happens before it is opened, and each read of the open file gives any bytes and
    any end the system may. Seeking in a regular file does not fail. *)

From S2P Require Import Prelude GoStrings GoText Sha256 Entry Paths SyncPolicy Mergers Journal SafeFs SafeFsLaws SideTree SideApply SideApplyLaws SideApplyLands SideScan SideScanLaws SideScanQuiet.
Local Open Scope string_scope.
Local Open Scope Z_scope.
Local Open Scope list_scope.

(** ** Opening *)

Record fetchReader := MkFetch {
  fr_pos : nat;                 (* the handle's offset *)
  fr_fp : fingerprint;
  fr_left : Z;
  fr_sum : option string;       (* the bytes hashed; none when not from the start *)
  fr_want : string
}.

Section fetch.
Context (cfg : treeConf) (others : treeRoot -> treeRoot).

Definition Fetch (root name : string) (e : Entry) (offset : Z) (tr : treeRoot) : result terr fetchReader :=
  if tr_closed tr then Err ClosedE
  else if negb (String.eqb root (tc_Name cfg)) then Err NoRoot
  else
    match rec_at tr name with
    | None => Err (SyncE ErrStale)
    | Some rec =>
        if negb (bool_decide (ekind (rc_Entry rec) = File)) || negb (bool_decide (ekind e = File))
           || negb (String.eqb (ehash (rc_Entry rec)) (ehash e)) || negb (esize (rc_Entry rec) =? esize e)
        then Err (SyncE ErrStale)
        else if (offset <? 0) || (esize e <? offset) then Err (FsE (MkFErr name ErrInvalid))
        else
          match Open (tr_fs (others tr)) name with
          | Err _ => Err (SyncE ErrStale)
          | Ok st =>
              if negb (bool_decide (fingerprintOf st = rc_FP rec)) then Err (SyncE ErrStale)
              else Ok (MkFetch (Z.to_nat offset) (rc_FP rec) (esize e - offset) (if offset =? 0 then Some "" else None) (if offset =? 0 then ehash e else ""))
          end
    end.
End fetch.

(** ** Reading *)

(** How a read of the open file ends. *)
Inductive io_end := More | AtEOF | Broken (e : ferr).

(** One read into a buffer of [len] bytes: [os] is the open file's read at an offset,
    [stat] its state then. The bytes, and whether the file has ended. *)
Definition fetch_Read (len : Z) (os : nat -> Z -> string * io_end) (stat : option node) (r : fetchReader) : result terr (string * bool) * fetchReader :=
  let '(chunk, fin) := os (fr_pos r) (if fr_left r + 1 <? len then fr_left r + 1 else len) in
  let n := String.length chunk in
  let r := MkFetch (fr_pos r + n) (fr_fp r) (fr_left r - Z.of_nat n) ((fun s => s +:+ chunk) <$> fr_sum r) (fr_want r) in
  if fr_left r <? 0 then (Err (SyncE ErrStale), r)
  else
    match fin with
    | More => (Ok (chunk, false), r)
    | Broken e => (Err (FsE e), r)
    | AtEOF =>
        if negb (fr_left r =? 0) || negb (match stat with Some st => bool_decide (fingerprintOf st = fr_fp r) | None => false end) then (Err (SyncE ErrStale), r)
        else if match fr_sum r with Some s => negb (String.eqb (hashOf s) (fr_want r)) | None => false end then (Err (SyncE ErrStale), r)
        else (Ok (chunk, true), r)
    end.

(** Reads until the end or an error; the i-th with a buffer of [len i] bytes. *)
Fixpoint drain (fuel i : nat) (len : nat -> Z) (os : nat -> nat -> Z -> string * io_end) (stat : nat -> option node) (r : fetchReader) (acc : string) : option (result terr string) :=
  match fuel with
  | O => None
  | S fuel =>
      match fetch_Read (len i) (os i) (stat i) r with
      | (Err e, _) => Some (Err e)
      | (Ok (chunk, true), _) => Some (Ok (acc +:+ chunk))
      | (Ok (chunk, false), r) => drain fuel (S i) len os stat r (acc +:+ chunk)
      end
  end.

(** An open file of fixed content. *)
Definition file_read (data : string) (pos : nat) (len : Z) : string * io_end :=
  if (String.length data <=? pos)%nat then ("", AtEOF) else (take_bytes (Z.to_nat len) (drop_bytes pos data), More).

(** ** What is served *)

Lemma Fetch_Ok cfg others root name e offset tr r : Fetch cfg others root name e offset tr = Ok r ->
  r = MkFetch (Z.to_nat offset) (fr_fp r) (esize e - offset) (if offset =? 0 then Some "" else None) (if offset =? 0 then ehash e else "") /\ 0 <= offset <= esize e.
Proof.
  unfold Fetch. destruct (tr_closed tr); [done|]. destruct (negb _); [done|]. destruct (rec_at tr name) as [rec|]; [|done]. destruct (_ || _ || _ || _); [done|].
  destruct (_ || _) eqn:Eo; [done|]. destruct (Open _ _); [|done]. destruct (negb _); [done|]. intros [= <-]. split; [done|]. bool_hyps. lia.
Qed.

Lemma drain_ends fuel : forall i len os stat r acc content,
  (forall s, fr_sum r = Some s -> s = acc) -> drain fuel i len os stat r acc = Some (Ok content) ->
  Z.of_nat (String.length content) = Z.of_nat (String.length acc) + fr_left r /\ (is_Some (fr_sum r) -> hashOf content = fr_want r) /\
  exists k st, stat k = Some st /\ fingerprintOf st = fr_fp r.
Proof.
  induction fuel as [|fuel IH]; intros i len os stat r acc content Hs; [done|]. cbn [drain]. unfold fetch_Read. destruct (os i _ _) as [chunk fin]. cbv zeta. cbn [fr_left fr_sum fr_fp fr_want].
  destruct (Z.ltb_spec (fr_left r - Z.of_nat (String.length chunk)) 0); [done|]. destruct fin; [|cbn [fr_left fr_sum fr_fp fr_want]|done].
  - intros E. apply IH in E; [|simpl; intros s; destruct (fr_sum r); [|done]; intros [= <-]; f_equal; by apply Hs]. cbn [fr_left fr_sum fr_fp fr_want] in E. rewrite length_append in E. destruct E as (E1 & E2 & E3). split_and!; [lia| |done].
    intros Hi. apply E2. destruct (fr_sum r); [by eexists|by destruct Hi].
  - destruct (Z.eqb_spec (fr_left r - Z.of_nat (String.length chunk)) 0) as [El|]; [|done]. cbn [negb orb]. destruct (stat i) as [st|] eqn:Est; [|done]. case_bool_decide as Efp; [|done]. cbn [negb].
    destruct (match (fun s => s +:+ chunk) <$> fr_sum r with Some s => _ | None => false end) eqn:Eh; [done|]. intros [= <-]. split_and!; [rewrite length_append; lia| |by exists i, st].
    intros [s Hsum]. rewrite Hsum in Eh. simpl in Eh. apply negb_false_iff, String.eqb_eq in Eh. by rewrite <- (Hs s Hsum).
Qed.

Lemma take_bytes_length n s : String.length (take_bytes n s) = Nat.min n (String.length s).
Proof. revert s. induction n as [|n IH]; intros [|a s]; simpl; [done..|]. by rewrite IH. Qed.

Lemma take_drop_bytes n s : take_bytes n s +:+ drop_bytes (String.length (take_bytes n s)) s = s.
Proof. revert s. induction n as [|n IH]; intros [|a s]; simpl; [done..|]. by rewrite IH. Qed.

Lemma drop_drop_bytes a b s : drop_bytes a (drop_bytes b s) = drop_bytes (b + a) s.
Proof. revert s. induction b as [|b IH]; intros [|c s]; simpl; [done|done|by destruct a|apply IH]. Qed.

Lemma drop_bytes_length n s : String.length (drop_bytes n s) = (String.length s - n)%nat.
Proof. revert s. induction n as [|n IH]; intros [|a s]; simpl; [done..|]. apply IH. Qed.

(** A file that stays as it is is read to its end, whatever the buffers. *)
Lemma drain_file data st len stat : (forall i, 1 <= len i) -> (forall i, stat i = Some st) -> forall fuel i r acc,
  fr_fp r = fingerprintOf st -> (fr_pos r <= String.length data)%nat -> fr_left r = Z.of_nat (String.length data) - Z.of_nat (fr_pos r) ->
  (forall s, fr_sum r = Some s -> hashOf (s +:+ drop_bytes (fr_pos r) data) = fr_want r) -> (String.length data - fr_pos r < fuel)%nat ->
  drain fuel i len (fun _ => file_read data) stat r acc = Some (Ok (acc +:+ drop_bytes (fr_pos r) data)).
Proof.
  intros Hlen Hst. induction fuel as [|fuel IH]; intros i r acc Hfp Hpos Hleft Hh Hf; [lia|]. cbn [drain]. unfold fetch_Read, file_read. destruct (Nat.leb_spec (String.length data) (fr_pos r)) as [Hend|Hmore].
  - cbv zeta. cbn [fr_left fr_sum fr_fp fr_want String.length]. assert (fr_left r = 0) as -> by lia. simpl (0 - Z.of_nat 0 <? 0). cbv iota. simpl (0 - Z.of_nat 0 =? 0). rewrite Hst, Hfp, bool_decide_eq_true_2 by done. cbn [negb orb].
    rewrite drop_bytes_all in * by lia. destruct (fr_sum r) as [s|] eqn:Es; simpl; [|by rewrite !append_nil_r]. rewrite (Hh s eq_refl), String.eqb_refl. simpl. by rewrite !append_nil_r.
  - set (n := if fr_left r + 1 <? len i then fr_left r + 1 else len i). assert (1 <= n) as Hn by (unfold n; destruct (Z.ltb_spec (fr_left r + 1) (len i)); [lia|apply Hlen]). set (chunk := take_bytes (Z.to_nat n) (drop_bytes (fr_pos r) data)).
    assert (String.length chunk = Nat.min (Z.to_nat n) (String.length data - fr_pos r)) as Hc by (unfold chunk; by rewrite take_bytes_length, drop_bytes_length).
    assert (drop_bytes (fr_pos r) data = chunk +:+ drop_bytes (fr_pos r + String.length chunk) data) as Hd by (by rewrite <- drop_drop_bytes; unfold chunk; rewrite take_drop_bytes).
    cbv zeta. cbn [fr_left]. destruct (Z.ltb_spec (fr_left r - Z.of_nat (String.length chunk)) 0); [lia|]. rewrite IH; cbn [fr_pos fr_left fr_sum fr_fp fr_want]; try done; try lia.
    + by rewrite Hd, append_assoc.
    + intros s. destruct (fr_sum r) as [s0|]; [|done]. intros [= <-]. rewrite append_assoc, <- Hd. by apply Hh.
Qed.

(** C38: a side serves a recorded file or an error: however a fetched file is read and
    whatever happens to it meanwhile, a read that ends well gave exactly the bytes
    asked for in number, from the start with the hash asked for, and the file then had
    the fingerprint recorded; and a file at rest under a true record is served to its
    end, from any offset and through buffers of any size. *)
Theorem fetch_serves cfg others name e offset tr :
  (forall fuel len os stat r content, Fetch cfg others (tc_Name cfg) name e offset tr = Ok r -> drain fuel 0 len os stat r "" = Some (Ok content) ->
     Z.of_nat (String.length content) = esize e - offset /\ (offset = 0 -> hashOf content = ehash e) /\ exists k st, stat k = Some st /\ fingerprintOf st = fr_fp r) /\
  (forall st data rec, tr_closed tr = false -> others tr = tr -> wf_folder (tr_fs tr) -> working (tr_fs tr) -> validPath name = true -> truthful name tr ->
     rec_at tr name = Some rec -> ekind (rc_Entry rec) = File -> ekind e = File -> ehash e = ehash (rc_Entry rec) -> esize e = esize (rc_Entry rec) ->
     fo_nodes (tr_fs tr) !! name = Some st -> nd_body st = BFile data -> rc_FP rec = fingerprintOf st -> 0 <= offset <= esize e ->
     exists r, Fetch cfg others (tc_Name cfg) name e offset tr = Ok r /\
       forall len, (forall i, 1 <= len i) -> drain (S (String.length data)) 0 len (fun _ => file_read data) (fun _ => Some st) r "" = Some (Ok (drop_bytes (Z.to_nat offset) data))).
Proof.
  split.
  - intros fuel len os stat r content HF Hd. destruct (Fetch_Ok _ _ _ _ _ _ _ _ HF) as [Er Ho]. apply drain_ends in Hd as (H1 & H2 & H3); [|rewrite Er; simpl; destruct (offset =? 0); [|done]; by intros s [= <-]].
    rewrite Er in H1, H2. simpl in H1, H2. split_and!; [lia| |done]. intros ->. simpl in H2. by apply H2.
  - intros st data rec Hcl Hoth Hwf Hw Hv Ht Hrec Hk Hke Hh Hsz Hst Hb Hfp Ho. assert (shows (rc_Entry rec) st) as Hsh by (apply Ht; try done; unfold Live; by rewrite Hk).
    unfold shows in Hsh. rewrite Hk in Hsh. destruct Hsh as (d & Hb' & Hl & Hhash & _). assert (d = data) as -> by congruence.
    eexists. split.
    + unfold Fetch. rewrite Hcl, String.eqb_refl, Hrec, Hk, Hke, Hh, Hsz, String.eqb_refl, Z.eqb_refl. rewrite !bool_decide_eq_true_2 by done. cbn [negb orb].
      rewrite (proj2 (Z.ltb_ge offset 0)) by lia. rewrite (proj2 (Z.ltb_ge (esize (rc_Entry rec)) offset)) by lia. cbn [orb]. rewrite Hoth, (working_Open _ _ st data) by done.
      rewrite bool_decide_eq_true_2 by done. done.
    + intros len Hlen. rewrite (drain_file data st) with (acc := ""); try done; cbn [fr_pos fr_left fr_sum fr_fp fr_want]; try lia. intros s. destruct (Z.eqb_spec offset 0) as [->|]; [|done]. by intros [= <-].
Qed.
