(* ===== verification/SideDriver.v ===== *)
(** * The side driver (internal/sharesync/side.go)

    When a side scans its tree and what it does with what the scan finds. The tree
    and the hub are interfaces here ([sideTree], [reporter]): the driver's own
    behaviour is stated for any of them, and SideHub instantiates them with the
    modelled tree and hub. The queues of paths to scan are [queue]; the goroutines
    that fill them and the loop of Run that drains them are a step relation
    ([step]), whose atoms are the sections under the side's lock, the sends on the
    kick channel (one place, a full one is left full) and the scans. Watching is in the
    marks: a watcher's report is a mark like any other. Logging is left out. *)

From S2P Require Import Prelude GoStrings GoText Sha256 Entry Paths SyncPolicy Mergers Journal HubState HubDispatch SafeFs SideTree.
Local Open Scope string_scope.
Local Open Scope Z_scope.
Local Open Scope list_scope.

(** ** The interfaces *)

(** What the driver uses of a tree. *)
Class sideTree (T : Type) := {
  st_Roots : T -> list string;
  st_Scan : string -> list string -> T -> result terr (Report * list string) * T;
  st_Acked : string -> Reply -> T -> option terr * T;
  st_settling : string -> T -> list string;
  st_Apply : Batch -> T -> result terr (list Result) * T
}.

(** The Reporter interface: a hub in this process, or one over a session. *)
Class reporter (H : Type) := { rp_Report : Report -> H -> option Reply * H (* none is an error *) }.

Inductive side_error := TreeError (e : terr) | ReportError | ContextEnded.

(** ** The queues *)

Record queue := MkQueue {
  q_dirty : gmap string (gset string);
  q_urgent : bool;
  q_again : gmap string (gset string)
}.

Definition empty_queue : queue := MkQueue ∅ false ∅.

(** Paths put into a root's set, which is made when there is none. *)
Definition add_paths (root : string) (paths : list string) (m : gmap string (gset string)) : gmap string (gset string) :=
  <[root := default ∅ (m !! root) ∪ list_to_set paths]> m.

Definition mark_locked (urgent : string -> string -> bool) (root : string) (paths : list string) (soon : bool) (q : queue) : queue :=
  MkQueue (add_paths root paths (q_dirty q)) (q_urgent q || soon || existsb (urgent root) paths) (q_again q).

Definition add_again (root : string) (again : list string) (q : queue) : queue :=
  match again with
  | [] => q
  | _ => MkQueue (q_dirty q) (q_urgent q) (add_paths root again (q_again q))
  end.

(** scanDirty's first lines: what was marked, taken. *)
Definition take_dirty (q : queue) : list (string * gset string) * queue :=
  (map_to_list (q_dirty q), MkQueue ∅ false (q_again q)).

(** The again tick's first lines. *)
Definition take_again (q : queue) : list (string * gset string) * queue :=
  (map_to_list (q_again q), MkQueue (q_dirty q) (q_urgent q) ∅).

(** ** Scanning and reporting *)

Section driver.
Context {T H : Type} `{!sideTree T} `{!reporter H} (urgent : string -> string -> bool) (ReportSize : nat).

Record side := MkSide { sd_tree : T; sd_hub : H; sd_queue : queue }.

(** Each chunk reported, and its answer taken, before the next. *)
Fixpoint send_all (root : string) (rep : Report) (parts : list (list Change)) (t : T) (h : H) : option side_error * T * H :=
  match parts with
  | [] => (None, t, h)
  | part :: rest =>
      match rp_Report (MkReport (r_root rep) (r_epoch rep) part) h with
      | (None, h) => (Some ReportError, t, h)
      | (Some reply, h) =>
          match st_Acked root reply t with
          | (Some e, t) => (Some (TreeError e), t, h)
          | (None, t) => send_all root rep rest t h
          end
      end
  end.

(** Side.scan. *)
Definition scan (root : string) (paths : list string) (s : side) : option side_error * side :=
  match st_Scan root paths (sd_tree s) with
  | (Err e, t) => (Some (TreeError e), MkSide t (sd_hub s) (sd_queue s))
  | (Ok (rep, again), t) =>
      let q := add_again root again (sd_queue s) in
      let '(err, t, h) := send_all root rep (chunks (length (r_changes rep)) ReportSize (r_changes rep)) t (sd_hub s) in
      (err, MkSide t h q)
  end.

(** Several scans; their errors. *)
Fixpoint scan_each (todo : list (string * list string)) (s : side) : list side_error * side :=
  match todo with
  | [] => ([], s)
  | (root, paths) :: rest =>
      let '(err, s) := scan root paths s in
      let '(errs, s) := scan_each rest s in
      (option_list err ++ errs, s)
  end.

(** Side.Rescan; [cancelled]: the context ends while it waits for files to settle. *)
Definition Rescan (cancelled : bool) (s : side) : list side_error * side :=
  let '(errs, s) := scan_each (map (fun r => (r, [])) (st_Roots (sd_tree s))) s in
  match List.filter (fun rp => match rp.2 with [] => false | _ => true end) (map (fun r => (r, st_settling r (sd_tree s))) (st_Roots (sd_tree s))) with
  | [] => (errs, s)
  | settling =>
      if cancelled then (errs ++ [ContextEnded], s)
      else let '(errs', s) := scan_each settling s in (errs ++ errs', s)
  end.

Definition mark (root : string) (paths : list string) (soon : bool) (s : side) : side :=
  MkSide (sd_tree s) (sd_hub s) (mark_locked urgent root paths soon (sd_queue s)).

(** Side.Apply: a path that held a change of its own is marked. *)
Definition side_Apply (b : Batch) (s : side) : result terr (list Result) * side :=
  let '(res, t) := st_Apply b (sd_tree s) in
  let s := MkSide t (sd_hub s) (sd_queue s) in
  (res, foldl (fun s r => if bool_decide (res_status r = Changed) then mark (b_root b) [res_path r] true s else s) s
          match res with Ok rs => rs | Err _ => [] end).

(** Side.scanDirty: errors are only logged. *)
Definition scanDirty (s : side) : side :=
  let '(dirty, q) := take_dirty (sd_queue s) in
  (scan_each (map (fun rs => (rs.1, elements rs.2)) dirty) (MkSide (sd_tree s) (sd_hub s) q)).2.
End driver.
Arguments side : clear implicits.

(** ** The loop *)

(** Where Run's loop is. *)
Inductive place :=
| Waiting                                              (* in its select *)
| Woken                                                (* took a kick *)
| Arming                                               (* found nothing urgent *)
| Draining                                             (* about to take what was marked *)
| Scanning (todo : list (string * gset string))        (* scanning what it took *)
| Requeueing (todo : list (string * gset string)).     (* marking again what could not be settled *)

Record run := MkRun {
  rn_queue : queue;
  rn_kick : bool;      (* the kick channel is full *)
  rn_armed : bool;     (* the debounce timer runs *)
  rn_sends : nat;      (* marks made whose send on the channel is still to come *)
  rn_loop : place
}.

Definition start : run := MkRun empty_queue false false 0 Waiting.

Definition at_place (w : run) (l : place) : run := MkRun (rn_queue w) (rn_kick w) (rn_armed w) (rn_sends w) l.

(** A scan of paths of a root (all of it for none). *)
Definition scanned : Type := option (string * list string).

Section steps.
Context (urgent : string -> string -> bool).

(** What the loop does by itself, the timers it has set included, and the sends under way. *)
Inductive own : run -> scanned -> run -> Prop :=
| own_send q k a n l : own (MkRun q k a (S n) l) None (MkRun q true a n l)
| own_kick q a n : own (MkRun q true a n Waiting) None (MkRun q false a n Woken)
| own_soon q k a n : own (MkRun q k a n Woken) None (MkRun q k a n (if q_urgent q then Draining else Arming))
| own_arm q k a n : own (MkRun q k a n Arming) None (MkRun q k true n Waiting)
| own_debounce q k n : own (MkRun q k true n Waiting) None (MkRun q k false n Draining)
| own_take q k a n : own (MkRun q k a n Draining) None (MkRun (take_dirty q).2 k a n (Scanning (take_dirty q).1))
| own_scan q k a n root set todo : own (MkRun q k a n (Scanning ((root, set) :: todo))) (Some (root, elements set)) (MkRun q k a n (Scanning todo))
| own_scanned q k a n : own (MkRun q k a n (Scanning [])) None (MkRun q k a n Waiting)
| own_requeue q k a n root set todo :
    own (MkRun q k a n (Requeueing ((root, set) :: todo))) None (MkRun (mark_locked urgent root (elements set) true q) k a (S n) (Requeueing todo))
| own_requeued q k a n : own (MkRun q k a n (Requeueing [])) None (MkRun q k a n Waiting).

(** What happens to it: marks of watchers and of applied batches, paths a scan could not
    settle, the again tick, and full scans. *)
Inductive step : run -> scanned -> run -> Prop :=
| step_own w x w' : own w x w' -> step w x w'
| step_mark q k a n l root paths soon : step (MkRun q k a n l) None (MkRun (mark_locked urgent root paths soon q) k a (S n) l)
| step_again q k a n l root again : step (MkRun q k a n l) None (MkRun (add_again root again q) k a n l)
| step_tick q k a n : step (MkRun q k a n Waiting) None (MkRun (take_again q).2 k a n (Requeueing (take_again q).1))
| step_full w root : step w (Some (root, [])) w.

(** A history of steps, with the scans made. *)
Inductive history (R : run -> scanned -> run -> Prop) : nat -> run -> list (string * list string) -> run -> Prop :=
| history_none w : history R 0 w [] w
| history_step n w x w' xs w'' : R w x w' -> history R n w' xs w'' -> history R (S n) w (option_list x ++ xs) w''.

(** ** Properties of the loop *)

(** A path is among those of a list of sets. *)
Definition listed (root p : string) (todo : list (string * gset string)) : Prop := exists set, (root, set) ∈ todo /\ p ∈ set.

Definition in_set (root p : string) (m : gmap string (gset string)) : Prop := exists set, m !! root = Some set /\ p ∈ set.

(** A path waits to be scanned. *)
Definition queued (root p : string) (w : run) : Prop :=
  in_set root p (q_dirty (rn_queue w)) \/
  match rn_loop w with Scanning todo | Requeueing todo => listed root p todo | _ => False end.

Definition waits_tick (root p : string) (w : run) : Prop := in_set root p (q_again (rn_queue w)).

Definition scans (root p : string) (x : scanned) : Prop := exists paths, x = Some (root, paths) /\ p ∈ paths.

Lemma in_set_add root p root' paths m : in_set root p (add_paths root' paths m) <-> in_set root p m \/ root = root' /\ p ∈ paths.
Proof.
  unfold in_set, add_paths. destruct (decide (root = root')) as [->|Hne].
  - rewrite lookup_insert_eq. split.
    + intros (set & [= <-] & Hp). destruct (m !! root') as [s|]; simpl in Hp; set_solver.
    + intros [(s & Hs & Hp)|[_ Hp]]; eexists; (split; [done|]); [rewrite Hs; simpl; set_solver|set_solver].
  - rewrite lookup_insert_ne by done. naive_solver.
Qed.

Lemma listed_map root p m : listed root p (map_to_list m) <-> in_set root p m.
Proof. unfold listed, in_set. by setoid_rewrite elem_of_map_to_list. Qed.

Lemma listed_cons root p root' set todo : listed root p ((root', set) :: todo) <-> root = root' /\ p ∈ set \/ listed root p todo.
Proof. unfold listed. setoid_rewrite elem_of_cons. naive_solver. Qed.

(** Nothing that waits is dropped but by scanning it. *)
Lemma own_keeps w x w' root p : own w x w' -> queued root p w -> queued root p w' \/ scans root p x.
Proof.
  unfold queued, scans. destruct 1; cbn [rn_queue rn_loop]; intros [Hd|Hl]; try done; auto; try by destruct (q_urgent q); auto.
  - left. right. cbn [take_dirty fst]. by apply listed_map.
  - apply listed_cons in Hl as [[-> Hp]|Hl]; [|by auto]. right. eexists. split; [done|]. by rewrite elem_of_elements.
  - destruct Hl as (s & Hs & _). by apply elem_of_nil in Hs.
  - left. left. apply in_set_add. by left.
  - apply listed_cons in Hl as [[-> Hp]|Hl]; [|by auto]. left. left. apply in_set_add. right. split; [done|]. by rewrite elem_of_elements.
  - destruct Hl as (s & Hs & _). by apply elem_of_nil in Hs.
Qed.

Lemma step_keeps w x w' root p : step w x w' -> queued root p w -> queued root p w' \/ scans root p x.
Proof.
  destruct 1 as [w x w' Ho|q k a n l root' paths soon|q k a n l root' again|q k a n|w root']; [by apply own_keeps|..]; unfold queued; cbn [rn_queue rn_loop]; intros [Hd|Hl]; auto.
  - left. left. apply in_set_add. by left.
  - left. left. by destruct again.
  - done.
Qed.

(** *** Waking up *)

(** Something will have the loop take what was marked. *)
Definition awake (w : run) : Prop :=
  rn_kick w = true \/ rn_armed w = true \/ (0 < rn_sends w)%nat \/ match rn_loop w with Woken | Arming | Draining => True | _ => False end.

(** And at once, not after the debounce. *)
Definition hurried (w : run) : Prop :=
  rn_kick w = true \/ (0 < rn_sends w)%nat \/ match rn_loop w with Woken | Draining => True | _ => False end.

Record alert (w : run) : Prop := {
  alert_dirty : q_dirty (rn_queue w) <> ∅ -> awake w;
  alert_urgent : q_urgent (rn_queue w) = true -> hurried w
}.

Lemma own_alert w x w' : own w x w' -> alert w -> alert w'.
Proof.
  destruct 1; intros [Hd Hu]; split; unfold awake, hurried in *; cbn [rn_queue rn_kick rn_armed rn_sends rn_loop take_dirty fst snd q_dirty q_urgent] in *; intros Hx; auto;
    try (specialize (Hd Hx)); try (specialize (Hu Hx)); try rewrite Hx in *; try destruct (q_urgent q); try done; intuition (auto with lia).
Qed.

Lemma step_alert w x w' : step w x w' -> alert w -> alert w'.
Proof.
  destruct 1 as [w x w' Ho|q k a n l root' paths soon|q k a n l root' again|q k a n|w root']; [by eapply own_alert|..|done];
    intros [Hd Hu]; split; unfold awake, hurried in *; cbn [rn_queue rn_kick rn_armed rn_sends rn_loop] in *; auto with lia.
  - destruct again; auto.
  - destruct again; auto.
Qed.

(** *** How long it takes *)

Definition weight (l : place) : nat :=
  match l with
  | Waiting => 0 | Woken => 5 | Arming => 4 | Draining => 2
  | Scanning todo => 1 + length todo
  | Requeueing todo => 1 + 10 * length todo
  end.

Definition potential (w : run) : nat :=
  size (q_dirty (rn_queue w)) + 7 * rn_sends w + (if rn_kick w then 6 else 0) + (if rn_armed w then 3 else 0) + weight (rn_loop w).

Lemma size_add_paths root paths m : (size (add_paths root paths m) <= S (size m))%nat.
Proof. unfold add_paths. destruct (m !! root) eqn:E; [rewrite map_size_insert_Some by done|rewrite map_size_insert_None by done]; lia. Qed.

Lemma own_decreases w x w' : own w x w' -> (potential w' < potential w)%nat.
Proof.
  destruct 1 as [q k a n l|q a n|q k a n|q k a n|q k n|q k a n|q k a n root set todo|q k a n|q k a n root set todo|q k a n]; unfold potential;
    cbn [rn_queue rn_kick rn_armed rn_sends rn_loop weight].
  - destruct k; lia.
  - lia.
  - destruct (q_urgent q); cbn [weight]; lia.
  - destruct a; lia.
  - lia.
  - unfold take_dirty. cbn [fst snd q_dirty weight length]. rewrite map_size_empty. rewrite length_map_to_list. lia.
  - cbn [length]. lia.
  - cbn [length]. lia.
  - cbn [length mark_locked q_dirty]. pose proof (size_add_paths root (elements set) (q_dirty q)). lia.
  - cbn [length]. lia.
Qed.

(** Something is to be done while a path waits. *)
Lemma own_enabled w root p : alert w -> queued root p w -> exists x w', own w x w'.
Proof.
  intros [Ha _] Hq. destruct w as [q k a n l]. unfold queued, awake in *. cbn [rn_queue rn_kick rn_armed rn_sends rn_loop] in *.
  destruct l as [| | | |[|[r s] todo]|[|[r s] todo]]; try by (eexists _, _; constructor).
  destruct Hq as [(set & Hs & Hp)|[]]. destruct Ha as [->|[->|[Hn|[]]]]; [intros E; by rewrite E, lookup_empty in Hs|..]; try by (eexists _, _; constructor).
  destruct n as [|n]; [lia|]. eexists _, _. constructor.
Qed.

Lemma history_alert n w xs w' : history step n w xs w' -> alert w -> alert w'.
Proof. induction 1; eauto using step_alert. Qed.

Lemma history_keeps R n w xs w' root p : (forall w x w', R w x w' -> queued root p w -> queued root p w' \/ scans root p x) ->
  history R n w xs w' -> queued root p w -> queued root p w' \/ exists paths, (root, paths) ∈ xs /\ p ∈ paths.
Proof.
  intros HR. induction 1 as [|n w x w' xs w'' Hs Hh IH]; [by left|]. intros Hq. destruct (HR _ _ _ Hs Hq) as [Hq'|(paths & -> & Hp)].
  - destruct (IH Hq') as [?|(paths & Hin & Hp)]; [by left|]. right. exists paths. split; [|done]. apply elem_of_app. by right.
  - right. exists paths. split; [|done]. apply elem_of_app. left. by left.
Qed.

Lemma history_own_bound n w xs w' : history own n w xs w' -> (n + potential w' <= potential w)%nat.
Proof. induction 1 as [|n w x w' xs w'' Hs Hh IH]; [lia|]. apply own_decreases in Hs. lia. Qed.

Lemma history_own n w xs w' : history own n w xs w' -> history step n w xs w'.
Proof. induction 1; econstructor; eauto using step_own. Qed.
End steps.

Lemma start_alert : alert start.
Proof. split; done. Qed.

(** C20: nothing a side marks for scanning is lost, and no wake-up either: however marks of
    watchers and of applied batches, the sends on the kick channel, scans that must be
    repeated and the timers fall among the steps of the loop, a path that waits stays
    until it is scanned; while it waits the loop has a step to take, and after at
    most [potential] steps of its own it has scanned it; and while something urgent
    waits, the loop is on its way to it without the debounce. *)
Theorem marked_is_scanned urgent n0 xs0 w root p :
  history (step urgent) n0 start xs0 w -> queued root p w ->
  (forall n xs w', history (step urgent) n w xs w' -> queued root p w' \/ exists paths, (root, paths) ∈ xs /\ p ∈ paths) /\
  (forall n xs w', history (own urgent) n w xs w' ->
     (exists paths, (root, paths) ∈ xs /\ p ∈ paths) \/ ((n < potential w)%nat /\ exists x w'', own urgent w' x w'')) /\
  (q_urgent (rn_queue w) = true -> hurried w).
Proof.
  intros Hh Hq. pose proof (history_alert _ _ _ _ _ Hh start_alert) as Ha. split_and!; [| |apply Ha].
  - intros n xs w' Hs. by eapply history_keeps; [intros; by eapply step_keeps|..].
  - intros n xs w' Ho. destruct (history_keeps _ _ _ _ _ root p (fun w x w' => own_keeps urgent w x w' root p) Ho Hq) as [Hq'|?]; [right|by left].
    destruct (own_enabled urgent w' root p) as (x & w'' & Hs); [by eapply history_alert; [by apply history_own|]|done|].
    split; [|by eauto]. apply history_own_bound in Ho. apply own_decreases in Hs. lia.
Qed.

Module SideDriverExamples.

Definition nothing_urgent (_ _ : string) : bool := false.
Definition marked : run := MkRun (mark_locked nothing_urgent "claude" ["a.txt"] false empty_queue) false false 1 Waiting.

Lemma marked_history : history (step nothing_urgent) 1 start [] marked.
Proof. apply (history_step _ 0 start None marked [] marked); [apply step_mark|constructor]. Qed.

Lemma marked_queued : queued "claude" "a.txt" marked.
Proof. left. exists {["a.txt"]}. split; [vm_compute; reflexivity|set_solver]. Qed.

Lemma potential_marked : potential marked = 8%nat.
Proof. vm_compute. reflexivity. Qed.

Lemma marked_is_scanned_witness :
  potential marked = 8%nat /\
  (forall xs w', history (own nothing_urgent) 8 marked xs w' -> exists paths, ("claude", paths) ∈ xs /\ "a.txt" ∈ paths) /\
  exists x w', own nothing_urgent marked x w'.
Proof.
  pose proof potential_marked as Hp.
  destruct (marked_is_scanned nothing_urgent 1 [] marked "claude" "a.txt" marked_history marked_queued) as (_ & H & _). split; [exact Hp|]. split.
  - intros xs w' Hh. destruct (H 8%nat xs w' Hh) as [Hs|[Hn _]]; [exact Hs|]. rewrite Hp in Hn. exfalso. exact (Nat.lt_irrefl _ Hn).
  - destruct (H 0%nat [] marked (history_none _ marked)) as [(paths & Hin & _)|[_ Hs]]; [exfalso; exact (proj1 (elem_of_nil _) Hin)|exact Hs].
Defined.
End SideDriverExamples.
