(* ===== verification/SideHub.v ===== *)
(** * A side and its hub (internal/sharesync/side.go, hub.go: Report)

    The driver's interfaces instantiated: [tree_of] with the modelled tree of one
    root, [hub_reporter] with the modelled hub. A side that scans a folder at rest
    and reports to a hub leaves nothing of the folder unreported. *)

From S2P Require Import Prelude GoStrings GoText Sha256 Entry Paths SyncPolicy Mergers Journal HubState HubCommit HubInvariants HubProcess HubDispatch HubApi SafeFs SafeFsLaws SideTree SideApply SideApplyLaws SideApplyLands SideAcks SideScan SideScanLaws SideScanQuiet SideDriver.
Local Open Scope string_scope.
Local Open Scope Z_scope.
Local Open Scope list_scope.

(** ** The instances *)

Section tree.
Context (cfg : treeConf) `{C : !journal_codec treeRecord} (Error : terr -> string) (check_text : check_error -> string).
Context (scan_env : Z -> scanEnv) (apply_envs : Z -> nat -> applyEnv) (cancelled : Z -> nat -> bool).

(** Tree.settling. *)
Definition tree_settling (root : string) (tr : treeRoot) : list string :=
  if tr_closed tr || negb (String.eqb root (tc_Name cfg)) then [] else map fst (map_to_list (tr_settling tr)).

(** Tree.Acked of a root by name. *)
Definition tree_Acked (root : string) (reply : Reply) (tr : treeRoot) : option terr * treeRoot :=
  if tr_closed tr then (Some ClosedE, tr)
  else if negb (String.eqb root (tc_Name cfg)) then (Some NoRoot, tr)
  else Acked reply tr.

(** A tree of one root; what happens around its operations goes by the number of
    scans made. *)
#[export] Instance tree_of : sideTree treeRoot := {|
  st_Roots := fun _ => [tc_Name cfg];
  st_Scan := fun root paths tr => Scan cfg (scan_env (tr_scans tr)) root paths tr;
  st_Acked := tree_Acked;
  st_settling := tree_settling;
  st_Apply := fun b tr => Apply cfg Error check_text (apply_envs (tr_scans tr)) (cancelled (tr_scans tr)) b tr
|}.
End tree.

(** What the driver relies on of a reporter: each reply answers the changes of its
    report, one by one. [log] are the reports made and their replies. *)
Class lawful_reporter (H : Type) `{!reporter H} (log : H -> list (Report * Reply)) : Prop := {
  report_logged rep h reply h' : rp_Report rep h = (Some reply, h') -> log h' = log h ++ [(rep, reply)];
  report_answers rep h reply h' : rp_Report rep h = (Some reply, h') ->
    map (fun a => (a_path a, a_entry a)) (reply_acks reply) ≡ₚ map (fun c => (c_path c, c_entry c)) (r_changes rep)
}.

Section hub.
Context (cfg : hubConf) `{C : !journal_codec hubRecord}.

Fixpoint find_root (name : string) (roots : list hubRoot) : option (list hubRoot * hubRoot * list hubRoot) :=
  match roots with
  | [] => None
  | root :: rest =>
      if String.eqb (hr_name root) name then Some ([], root, rest)
      else match find_root name rest with
           | Some (before, r, after) => Some (root :: before, r, after)
           | None => None
           end
  end.

(** Hub.Report; [None] is the error of a side that is not attached. *)
Definition hub_Report (envs : nat -> nat -> hubEnv) (gap : nat -> hubRoot -> hubRoot) (id : string) (r : Report) (h : Hub) : option Reply * Hub :=
  match hub_sides h !! id with
  | None => (None, h)
  | Some s =>
      match find_root (r_root r) (hub_roots h) with
      | None => (Some (MkReply "" (map (fun c => answer c Ignored 0) (sortChanges (r_changes r)))), h)
      | Some (before, root, after) =>
          let '(reply, store, root) := report_root cfg envs gap (hub_conflicts h) root (hs_info s) r in
          (Some reply, MkHubState (before ++ root :: after) (hub_sides h) store (hub_closed h))
      end
  end.

Context (envs : nat -> nat -> nat -> hubEnv) (gap : nat -> nat -> hubRoot -> hubRoot) (id : string).

(** A side of the hub's process; what happens around its reports goes by their number. *)
#[export] Instance hub_reporter : reporter (Hub * list (Report * Reply)) := {|
  rp_Report := fun r hl =>
    match hub_Report (envs (length hl.2)) (gap (length hl.2)) id r hl.1 with
    | (Some reply, h) => (Some reply, (h, hl.2 ++ [(r, reply)]))
    | (None, h) => (None, (h, hl.2))
    end
|}.

Lemma hub_Report_answers envs' gap' r h reply h' : hub_Report envs' gap' id r h = (Some reply, h') ->
  map (fun a => (a_path a, a_entry a)) (reply_acks reply) ≡ₚ map (fun c => (c_path c, c_entry c)) (r_changes r).
Proof.
  assert (map (fun c => (c_path c, c_entry c)) (sortChanges (r_changes r)) ≡ₚ map (fun c => (c_path c, c_entry c)) (r_changes r)) as Hp.
  { apply Permutation_map, SortFunc_perm. }
  unfold hub_Report. destruct (hub_sides h !! id) as [s|]; [|done]. destruct (find_root _ _) as [[[before root] after]|].
  - unfold report_root. destruct (hr_broken root); [intros [= <- <-]; simpl; by rewrite map_map|].
    pose proof (report_changes_answers cfg envs' gap' (hub_conflicts h) root (hs_info s) (negb (String.eqb (r_epoch r) (hr_epoch root))) (sortChanges (r_changes r))) as Ha.
    destruct (report_changes _ _ _ _ _ _ _ _) as [[acks store1] root1]. intros [= <- <-]. simpl in *. by rewrite Ha.
  - intros [= <- <-]. simpl. by rewrite map_map.
Qed.

#[export] Instance hub_lawful : lawful_reporter (Hub * list (Report * Reply)) snd.
Proof.
  split; intros rep [h l] reply [h' l']; cbn; destruct (hub_Report _ _ _ _ _) as [[r|] h2] eqn:E; try done; intros [= <- <- <-]; [done|]. by eapply hub_Report_answers.
Qed.
End hub.

(** ** Answers taken *)

Section acked.
Context `{C : !journal_codec treeRecord}.

(** Nothing of [p] waits for an answer. *)
Definition answered (p : string) (tr : treeRoot) : Prop := forall r, rec_at tr p = Some r -> rc_Sent r = false.

Lemma take_ack_frame ack tr : tr_fs (take_ack ack tr) = tr_fs tr /\ tr_epoch (take_ack ack tr) = tr_epoch tr /\ tr_closed (take_ack ack tr) = tr_closed tr.
Proof.
  unfold take_ack. destruct (rec_at tr (a_path ack)); [|done]. destruct (negb _); [done|].
  assert (forall p, tr_fs (dropRecord p tr) = tr_fs tr /\ tr_epoch (dropRecord p tr) = tr_epoch tr /\ tr_closed (dropRecord p tr) = tr_closed tr) as Hd
    by (intros p; unfold dropRecord; by destruct (tr_records tr !! p)).
  destruct (a_status ack); [destruct (_ && _); [apply Hd|done]|destruct (negb _); done|done|done].
Qed.

(** What a record says of its path stays; a record that is gone was not live; one that
    waits waited, for the same state. *)
Lemma take_ack_record ack tr p :
  match rec_at (take_ack ack tr) p with
  | Some r' => exists r, rec_at tr p = Some r /\ rc_Entry r' = rc_Entry r /\ rc_FP r' = rc_FP r /\ (rc_Sent r' = true -> rc_Sent r = true)
  | None => not_live (rec_at tr p)
  end.
Proof.
  assert (match rec_at tr p with
          | Some r' => exists r, rec_at tr p = Some r /\ rc_Entry r' = rc_Entry r /\ rc_FP r' = rc_FP r /\ (rc_Sent r' = true -> rc_Sent r = true)
          | None => not_live (rec_at tr p) end) as Hid by (destruct (rec_at tr p) as [r|] eqn:E; [by exists r|done]).
  unfold take_ack. destruct (rec_at tr (a_path ack)) as [r|] eqn:Er; [|done]. destruct (rc_Sent r) eqn:Es; [|done]. cbn [negb].
  destruct (a_status ack); [|destruct (Same _ _); [|done]|done|done].
  - destruct (Same (rc_Entry r) (a_entry ack) && negb (Live (rc_Entry r))) eqn:E.
    + rewrite rec_at_drop. destruct (String.eqb_spec (a_path ack) p) as [<-|]; [|done]. rewrite Er. apply andb_true_iff in E as [_ ?%negb_true_iff]. done.
    + rewrite rec_at_put. destruct (String.eqb_spec (a_path ack) p) as [<-|]; [|done]. exists r. split_and!; try done.
  - cbn [negb]. rewrite rec_at_put. destruct (String.eqb_spec (a_path ack) p) as [<-|]; [|done]. exists r. by split_and!.
Qed.

Lemma take_ack_in_step ack tr p : in_step p tr -> in_step p (take_ack ack tr).
Proof.
  unfold in_step. destruct (take_ack_frame ack tr) as (-> & _). pose proof (take_ack_record ack tr p) as Hr.
  destruct (fo_nodes (tr_fs tr) !! p) as [n|].
  - intros (r & E & Hl & Hfp & Hs). rewrite E in Hr. destruct (rec_at (take_ack ack tr) p) as [r'|].
    + destruct Hr as (r0 & [= <-] & E1 & E2 & _). exists r'. by rewrite E1, E2.
    + simpl in Hr. congruence.
  - intros Hn. destruct (rec_at (take_ack ack tr) p) as [r'|]; [|done]. destruct Hr as (r & E & E1 & _). rewrite E in Hn. simpl in *. by rewrite E1.
Qed.

Lemma in_step_same p e tr : in_step p tr -> waits p e tr -> Same e e = true.
Proof.
  intros Hin (r & Hr & _ & <-). assert (match ekind (rc_Entry r) with OtherKind _ => False | _ => True end) as Hk.
  { unfold in_step in Hin. destruct (fo_nodes (tr_fs tr) !! p) as [n|].
    - destruct Hin as (r' & E & _ & _ & Hs). rewrite Hr in E. injection E as <-. unfold shows in Hs. by destruct (ekind (rc_Entry r)).
    - rewrite Hr in Hin. simpl in Hin. apply Live_false in Hin. by rewrite Hin. }
  unfold Same. rewrite bool_decide_eq_true_2 by done. cbn [negb]. destruct (ekind (rc_Entry r)); rewrite ?Z.eqb_refl, ?String.eqb_refl; done.
Qed.

Lemma take_ack_answered ack tr p : answered p tr -> answered p (take_ack ack tr).
Proof.
  intros Ha r' Hr'. pose proof (take_ack_record ack tr p) as Hr. rewrite Hr' in Hr. destruct Hr as (r & E & _ & _ & Hs).
  destruct (rc_Sent r') eqn:E'; [|done]. rewrite <- (Ha r E). symmetry. auto.
Qed.

(** An answer accepting or superseding the state that waits settles it. *)
Lemma take_ack_settles ack tr p e : (forall r, rec_at tr p = Some r -> rc_Entry r = e) -> answers p e ack -> answered p (take_ack ack tr).
Proof.
  intros He (<- & Hs & Hst) r'. unfold take_ack. destruct (rec_at tr (a_path ack)) as [r|] eqn:Er; [|congruence]. rewrite (He r eq_refl), Hs.
  destruct (rc_Sent r) eqn:Esent; cbn [negb]; [|congruence]. destruct Hst as [-> | ->].
  - destruct (Live e); cbn [andb negb]; [rewrite rec_at_put, String.eqb_refl; by intros [= <-]|by rewrite rec_at_drop, String.eqb_refl].
  - rewrite rec_at_put, String.eqb_refl. by intros [= <-].
Qed.

Lemma take_acks_step acks tr p : in_step p tr ->
  let tr' := foldl (fun tr ack => take_ack ack tr) tr acks in
  in_step p tr' /\ tr_epoch tr' = tr_epoch tr /\ tr_closed tr' = tr_closed tr /\
  (forall r', rec_at tr' p = Some r' -> rc_Sent r' = true -> waits p (rc_Entry r') tr /\ forall ack, ack ∈ acks -> ~ answers p (rc_Entry r') ack).
Proof.
  revert tr. induction acks as [|ack acks IH]; intros tr Hin; cbn [foldl]; [split_and!; try done; intros r' Hr Hs; split; [by exists r'|by intros ack ?%elem_of_nil]|].
  destruct (IH (take_ack ack tr) (take_ack_in_step ack tr p Hin)) as (H1 & H2 & H3 & H4). destruct (take_ack_frame ack tr) as (_ & E2 & E3).
  split_and!; [done|congruence|congruence|]. intros r' Hr Hs. destruct (H4 r' Hr Hs) as [(r1 & Er1 & Es1 & Ee1) Hna].
  pose proof (take_ack_record ack tr p) as Hrec. rewrite Er1 in Hrec. destruct Hrec as (r & Er & Ee & _ & Hsent). split; [exists r; split_and!; [done|auto|congruence]|].
  intros a [->|Ha]%elem_of_cons; [|by apply Hna]. intros Hans.
  assert (answered p (take_ack ack tr)) as Hset by (eapply take_ack_settles; [|exact Hans]; intros x Hx; congruence). specialize (Hset r1 Er1). congruence.
Qed.

Lemma Acked_step reply tr tr' p : tr_closed tr = false -> reply_epoch reply = tr_epoch tr -> in_step p tr -> Acked reply tr = (None, tr') ->
  in_step p tr' /\ tr_epoch tr' = tr_epoch tr /\ tr_closed tr' = false /\
  (forall r', rec_at tr' p = Some r' -> rc_Sent r' = true -> waits p (rc_Entry r') tr /\ forall ack, ack ∈ reply_acks reply -> ~ answers p (rc_Entry r') ack).
Proof.
  intros Hc He Hin. unfold Acked, adopt. rewrite Hc, He, String.eqb_refl, orb_true_r. intros Ec.
  destruct (take_acks_step (reply_acks reply) tr p Hin) as (H1 & H2 & H3 & H4). set (mid := foldl _ tr (reply_acks reply)) in *.
  pose proof (f_equal snd Ec : (tree_commit mid).2 = tr') as <-. destruct (tree_commit_journal mid) as (j & d & ->).
  split_and!; [done|done|by rewrite <- Hc, <- H3|done].
Qed.
End acked.

(** ** A side tells its hub *)

Lemma Scan_ends cfg `{C : !journal_codec treeRecord} ev root paths tr rep again tr' : Scan cfg ev root paths tr = (Ok (rep, again), tr') ->
  r_epoch rep = tr_epoch tr' /\ tr_closed tr' = false /\ root = tc_Name cfg.
Proof.
  unfold Scan. destruct (tr_closed tr); [done|]. destruct (String.eqb_spec root (tc_Name cfg)) as [->|]; [|done]. cbn [negb]. destruct (negb (tr_there tr)); [done|].
  destruct (walk_areas _ _ _ _ _ _) as [[s|e] t1]; [|done]. destruct (examine_all _ _ _ _ _ _) as [[[[ex ag] fl]|e] t2]; [|done]. destruct (negb _); [done|].
  destruct (settle_all _ _) as [[chs ag'] t3]. destruct (tree_commit t3) as [[e|] t4] eqn:Ec; [done|]. intros [= <- <- <-]. split_and!; [done| |done].
  pose proof (f_equal snd Ec : (tree_commit t3).2 = t4) as <-. destruct (tree_commit_journal t3) as (j & d & E). rewrite E. cbn [tr_closed set_tree_journal].
  unfold tree_commit in Ec. by destruct (tr_closed t3).
Qed.

Section told.
Context (cfg : treeConf) `{C : !journal_codec treeRecord} (Error : terr -> string) (check_text : check_error -> string).
Context (scan_env : Z -> scanEnv) (apply_envs : Z -> nat -> applyEnv) (cancelled : Z -> nat -> bool).
Context {H : Type} `{!reporter H} {log : H -> list (Report * Reply)} `{!lawful_reporter H log}.
#[local] Existing Instance tree_of.

Notation the_tree := (tree_of cfg Error check_text scan_env apply_envs cancelled).

(** Replies in the epoch of their reports. *)
Definition in_epoch (l : list (Report * Reply)) : Prop := Forall (fun rr => reply_epoch rr.2 = r_epoch rr.1) l.

(** The hub put the state [e] of [p] off, or does not keep it. *)
Definition put_off (p : string) (e : Entry) (l : list (Report * Reply)) : Prop :=
  exists rr ack, rr ∈ l /\ ack ∈ reply_acks rr.2 /\ a_path ack = p /\ a_entry ack = e /\ (a_status ack = Deferred \/ a_status ack = Ignored).

Lemma send_all_log root rep parts : forall t h t' h' e,
  send_all (T := treeRoot) (sideTree0 := the_tree) root rep parts t h = (e, t', h') -> e = None -> exists l, log h' = log h ++ l.
Proof.
  induction parts as [|part parts IH]; intros t h t' h' e; cbn [send_all]; [intros [= <- <- <-] _; exists []; by rewrite app_nil_r|].
  destruct (rp_Report _ h) as [[reply|] h1] eqn:Er; [|by intros [= <- <- <-]]. destruct (st_Acked root reply t) as [[e'|] t1]; [by intros [= <- <- <-]|].
  intros Hs He. destruct (IH _ _ _ _ _ Hs He) as [l ->]. rewrite (report_logged _ _ _ _ Er), <- app_assoc. by eexists.
Qed.

Lemma send_all_told rep p parts t h t' h' : tr_closed t = false -> r_epoch rep = tr_epoch t -> in_step p t ->
  send_all (T := treeRoot) (sideTree0 := the_tree) (tc_Name cfg) rep parts t h = (None, t', h') ->
  exists l, log h' = log h ++ l /\ (in_epoch l ->
    in_step p t' /\ forall r, rec_at t' p = Some r -> rc_Sent r = true -> waits p (rc_Entry r) t /\
      forall c, c ∈ concat parts -> c_path c = p -> c_entry c = rc_Entry r -> put_off p (rc_Entry r) l).
Proof.
  revert t h. induction parts as [|part parts IH]; intros t h Hc He Hin; cbn [send_all].
  { intros [= <- <-]. exists []. rewrite app_nil_r. split; [done|]. intros _. split; [done|]. intros r Hr Hs. split; [by exists r|]. by intros c ?%elem_of_nil. }
  destruct (rp_Report _ h) as [[reply|] h1] eqn:Er; [|done]. cbn [st_Acked tree_of]. unfold tree_Acked. rewrite Hc, String.eqb_refl. cbn [negb].
  destruct (Acked reply t) as [[e|] t1] eqn:Ea; [done|]. intros Hs.
  pose proof (report_logged _ _ _ _ Er) as Hlog. pose proof (report_answers _ _ _ _ Er) as Hans. cbn [r_changes] in Hans.
  destruct (decide (reply_epoch reply = r_epoch rep)) as [Eep|Hne].
  2: { destruct (send_all_log _ _ _ _ _ _ _ _ Hs eq_refl) as [l El]. exists ((MkReport (r_root rep) (r_epoch rep) part, reply) :: l).
       split; [by rewrite El, Hlog, <- app_assoc|]. intros [E _]%Forall_cons. done. }
  destruct (Acked_step reply t t1 p Hc ltac:(congruence) Hin Ea) as (H1 & H2 & H3 & H4). destruct (IH t1 h1 H3 ltac:(congruence) H1 Hs) as (l & El & Hl).
  exists ((MkReport (r_root rep) (r_epoch rep) part, reply) :: l). split; [by rewrite El, Hlog, <- app_assoc|].
  intros [_ Hep]%Forall_cons. destruct (Hl Hep) as [Hstep Hrec]. split; [done|]. intros r Hr Hsent. destruct (Hrec r Hr Hsent) as [(r1 & Er1 & Es1 & Ee1) Hput].
  destruct (H4 r1 Er1 Es1) as [Hw Hna]. rewrite Ee1 in *. split; [done|]. intros c [Hcin|Hcin]%elem_of_app Hp Hce.
  - assert ((p, rc_Entry r) ∈ map (fun a => (a_path a, a_entry a)) (reply_acks reply)) as Hain.
    { rewrite Hans. apply list_elem_of_fmap. exists c. by rewrite Hp, Hce. }
    apply list_elem_of_fmap in Hain as (ack & [= Hap Hae] & Hain). exists (MkReport (r_root rep) (r_epoch rep) part, reply), ack. split; [by left|]. split; [done|]. split; [done|]. split; [done|].
    destruct (a_status ack) eqn:Est; [exfalso; apply (Hna ack Hain)|exfalso; apply (Hna ack Hain)|by left|by right]; (split; [done|split; [rewrite <- Hae; exact (in_step_same p _ t Hin Hw)|by auto]]).
  - destruct (Hput c Hcin Hp Hce) as (rr & ack & Hrr & ?). exists rr, ack. split; [by right|done].
Qed.

(** The state [e] is what the folder has at [p]. *)
Definition held_there (f : folder) (p : string) (e : Entry) : Prop :=
  match fo_nodes f !! p with Some n => Live e = true /\ shows e n | None => Live e = false end.

(** The state of [p] in the folder was reported as a change made on [base], and answered. *)
Definition told (f : folder) (p : string) (base : Z) (l : list (Report * Reply)) : Prop :=
  exists rr e ack, rr ∈ l /\ MkChange p base e ∈ r_changes rr.1 /\ held_there f p e /\ ack ∈ reply_acks rr.2 /\ a_path ack = p /\ a_entry ack = e.

Lemma send_all_reports root rep parts : forall t h t' h', send_all (T := treeRoot) (sideTree0 := the_tree) root rep parts t h = (None, t', h') ->
  exists l, log h' = log h ++ l /\ forall c, c ∈ concat parts ->
    exists rr ack, rr ∈ l /\ c ∈ r_changes rr.1 /\ ack ∈ reply_acks rr.2 /\ a_path ack = c_path c /\ a_entry ack = c_entry c.
Proof.
  induction parts as [|part parts IH]; intros t h t' h'; cbn [send_all]; [intros [= <- <-]; exists []; split; [by rewrite app_nil_r|by intros c ?%elem_of_nil]|].
  destruct (rp_Report _ h) as [[reply|] h1] eqn:Er; [|done]. destruct (st_Acked root reply t) as [[e'|] t1]; [done|].
  intros (l & El & Hl)%IH. eexists (_ :: l). split; [by rewrite El, (report_logged _ _ _ _ Er), <- app_assoc|]. intros c [Hc|Hc]%elem_of_app.
  - assert ((c_path c, c_entry c) ∈ map (fun a => (a_path a, a_entry a)) (reply_acks reply)) as Hain
      by (rewrite (report_answers _ _ _ _ Er); apply list_elem_of_fmap; by exists c).
    apply list_elem_of_fmap in Hain as (ack & [= Hap Hae] & Hain). eexists _, ack. split; [by left|]. cbn [fst snd r_changes]. by split_and!.
  - destruct (Hl c Hc) as (rr & ack & ? & ?). exists rr, ack. split; [by right|done].
Qed.

(** C5: a side leaves nothing unsaid: when a full scan of a folder at rest, and the reports
    of what it found, end without an error, then at every synced path whose record was
    not what the folder holds, or that still waited for an answer, the state the folder
    has there was reported to the hub as a change made on the rev the side had, and the
    hub answered it. When the hub stayed the one the side knew, the side's record of
    every synced path is then what the folder holds, and no change of it waits for an
    answer, except where the hub answered that very state with Deferred or Ignored. The
    hub is any reporter that answers every change of a report; the modelled hub is one. *)
Theorem scan_tells_hub ReportSize s s' : (0 < ReportSize)%nat ->
  quiet cfg (scan_env (tr_scans (sd_tree s))) (tr_fs (sd_tree s)) -> (forall p, truthful p (sd_tree s)) ->
  tr_closed (sd_tree s) = false -> tr_there (sd_tree s) = true ->
  SideDriver.scan (sideTree0 := the_tree) ReportSize (tc_Name cfg) [] s = (None, s') ->
  exists l, log (sd_hub s') = log (sd_hub s) ++ l /\
    forall p, reachable cfg (tr_fs (sd_tree s)) p ->
      (~ known p (sd_tree s) \/ unanswered_at p (sd_tree s) -> told (tr_fs (sd_tree s)) p (base_of p (sd_tree s)) l) /\
      (in_epoch l -> in_step p (sd_tree s') /\ forall r, rec_at (sd_tree s') p = Some r -> rc_Sent r = true -> put_off p (rc_Entry r) l).
Proof.
  intros Hn Hq Ht Hc Hth. unfold SideDriver.scan. cbn [st_Scan tree_of].
  destruct (scan_whole cfg C _ (sd_tree s) Hq Ht Hc Hth) as (res & t1 & E & Hfs & Hres). rewrite E. destruct res as [[rep again]|e]; [|done].
  destruct (Scan_ends _ _ _ _ _ _ _ _ E) as (Hep & Hcl & _).
  destruct (send_all _ _ _ _ _) as [[err t'] h'] eqn:Es. intros [= -> <-]. cbn [sd_tree sd_hub].
  destruct (send_all_reports _ _ _ _ _ _ _ Es) as (l & El & Hall). exists l. split; [done|]. intros p Hr. destruct (Hres p Hr) as (Hstep & Hsent & Hun & _).
  rewrite (proj1 (chunks_concat _ _ _ Hn (le_n _))) in Hall. split.
  - intros (r & Hrec & Hs)%Hun. destruct (Hsent r Hrec) as [Hrev Hin]. destruct (Hall _ (Hin Hs)) as (rr & ack & Hrr & Hch & Hack & Hp & He).
    exists rr, (rc_Entry r), ack. rewrite <- Hrev. split_and!; [done|done| |done|done|done].
    unfold held_there. unfold in_step in Hstep. rewrite Hfs in Hstep. destruct (fo_nodes _ !! p) as [n|].
    + destruct Hstep as (r' & Hr' & ? & _ & ?). rewrite Hrec in Hr'. by injection Hr' as <-.
    + by rewrite Hrec in Hstep.
  - intros Hl. destruct (send_all_told rep p _ t1 (sd_hub s) t' h' Hcl Hep Hstep Es) as (l' & El' & Hold). assert (l' = l) as -> by (rewrite El in El'; by apply app_inv_head in El').
    destruct (Hold Hl) as [H1 H2]. split; [done|]. intros r Hr' Hs'. destruct (H2 r Hr' Hs') as [(r1 & Er1 & Es1 & Ee1) Hput].
    apply (Hput (MkChange p (rc_Rev r1) (rc_Entry r1))); [|done|done]. rewrite (proj1 (chunks_concat _ _ _ Hn (le_n _))). by apply Hsent.
Qed.
End told.
