(* ===== verification/SideExamples.v ===== *)
(** * A side of one root

    A folder of one file, synced, and a change to it: inputs on which the
    hypotheses of the side's theorems hold. *)

From S2P Require Import Prelude GoStrings GoText Sha256 Entry Paths SyncPolicy Mergers Journal HubState HubCommit HubProcess HubDispatch HubApi Examples HubExamples SafeFs SafeFsLaws SideTree SideApply SideApplyLaws SideApplyLands SideDurable SideAcks SideScan SideScanLaws SideScanQuiet SideFetch SideDriver SideHub.
Local Open Scope string_scope.
Local Open Scope Z_scope.
Local Open Scope list_scope.

(** ** A codec of the journal's records *)

#[export] Instance fingerprint_countable : Countable fingerprint.
Proof.
  refine (inj_countable' (fun p => (fp_Size p, fp_MTime p, fp_Mode p, (fp_Ino p, fp_Dev p, fp_CTime p))) (fun '(s, t, m, (i, d, c)) => MkFP s t m i d c) _); by intros [].
Defined.
#[export] Instance record_countable : Countable record.
Proof.
  refine (inj_countable' (fun r => (rc_Rev r, rc_Entry r, rc_FP r, (rc_Sent r, rc_Made r))) (fun '(v, e, p, (s, m)) => MkRec v e p s m) _); by intros [].
Defined.
#[export] Instance treeMeta_eq_dec : EqDecision treeMeta.
Proof. solve_decision. Defined.
#[export] Instance treeMeta_countable : Countable treeMeta.
Proof. refine (inj_countable' (fun m => (tm_Epoch m, tm_Folder m)) (fun '(e, f) => MkTreeMeta e f) _); by intros []. Defined.
#[export] Instance treeRecord_eq_dec : EqDecision treeRecord.
Proof. solve_decision. Defined.
#[export] Instance treeRecord_countable : Countable treeRecord.
Proof. refine (inj_countable' (fun r => match r with TRec r => inl r | TMeta m => inr m end) (fun s => match s with inl r => TRec r | inr m => TMeta m end) _); by intros []. Defined.

(** ** The side *)

Definition sd_cfg : treeConf := MkTreeConf "data" [] [] [] false [MkRoot "data" "" [] Mirror 1024 []] (fun _ => 0) "full" 0 0.

Definition sd_file : node := MkNode (BFile "old") 420 5 6 1 1.
Definition sd_top : node := MkNode BDir 493 1 1 0 1.
(** A folder of the one file [n]. *)
Definition one_file (n : node) (next : Z) : folder := MkFolder {["f" := n]} sd_top (fun _ _ => None) 9 next 18.
Definition sd_folder : folder := one_file sd_file 2.

Definition sd_old : string := Eval vm_compute in hashOf "old".
Definition sd_new : string := Eval vm_compute in hashOf "new".
Lemma sd_hash_old : hashOf "old" = sd_old.
Proof. vm_compute. reflexivity. Qed.

Definition sd_entry : Entry := MkEntry File 420 3 5 sd_old "" [].
Definition sd_rec (sent : bool) : record := MkRec 1 sd_entry (fingerprintOf sd_file) sent false.

Definition sd_empty : treeRoot :=
  let tr := MkTreeRoot "e" ∅ 0 (MkJournal true 0 0 0 0 []) (MkDisk None (Some "") [] []) ∅ 0 ∅ sd_folder true false in
  set_records tr ∅ 0 (put (tr_journal tr) metaKey (TMeta (meta_of tr))).
Definition sd_tree (sent : bool) : treeRoot := putRecord "f" (sd_rec sent) sd_empty.

Definition sd_op : Op := MkOp "f" 2 (MkEntry File 420 3 7 sd_new "" []).
Definition sd_env : applyEnv := MkApplyEnv (Some (fun _ _ => Ok (Ok "new"))) (fun _ tr => tr) None [7] 0 (fun _ => None).
Definition sd_scan : scanEnv := MkScanEnv (fun _ tr => tr) (fun _ _ tr => tr_fs tr) 0%nat (fun _ => false) (fun _ => 100) (fun _ => None).

Lemma one_file_lookup n next p m : fo_nodes (one_file n next) !! p = Some m -> p = "f" /\ m = n.
Proof. simpl. intros [<- <-]%lookup_singleton_Some. done. Qed.

Lemma one_file_wf n next : nd_ino n < next -> wf_folder (one_file n next).
Proof.
  intros Hn. constructor; [..|done].
  - intros p m [-> _]%one_file_lookup. done.
  - intros p m [-> _]%one_file_lookup. by left.
  - intros p m [_ ->]%one_file_lookup. done.
  - intros p q m m' [-> _]%one_file_lookup [-> _]%one_file_lookup. done.
Qed.

Lemma sd_lookup p n : fo_nodes sd_folder !! p = Some n -> p = "f" /\ n = sd_file.
Proof. apply one_file_lookup. Qed.

Lemma sd_wf : wf_folder sd_folder.
Proof. by apply one_file_wf. Qed.

Lemma sd_working : working sd_folder.
Proof. done. Qed.

Lemma sd_honest : honest sd_folder.
Proof. by apply working_honest. Qed.

Lemma sd_others : forall n, honest_others (ev_others sd_env n).
Proof. intros n. constructor; simpl; [done|done|intros; apply later_refl|]. intros a q m Hq Hd _. eauto. Qed.

Lemma sd_keeps : keeps_content (ev_others sd_env 3).
Proof. intros tr p n n' Hn Hn' _. simpl in Hn'. congruence. Qed.

Lemma sd_records sent p i r : tr_records (sd_tree sent) !! p = Some (i, r) -> p = "f" /\ i = 0 /\ r = sd_rec sent.
Proof. unfold sd_tree. simpl. intros [[<- [= <- <-]]|[_ H]]%lookup_insert_Some; [done|]. by rewrite lookup_empty in H. Qed.

Lemma sd_ids sent : ids_below (sd_tree sent).
Proof. intros q i r (_ & -> & _)%sd_records. done. Qed.

Lemma sd_shows : shows sd_entry sd_file.
Proof. exists "old". split; [reflexivity|]. split; [reflexivity|]. split; [exact sd_hash_old|reflexivity]. Qed.

Lemma sd_truthful sent p : truthful p (sd_tree sent).
Proof.
  intros r n Hr _ Hn _. apply sd_lookup in Hn as [-> ->]. unfold rec_at in Hr. destruct (tr_records (sd_tree sent) !! "f") as [[i r']|] eqn:E; [|done]. injection Hr as ->.
  apply sd_records in E as (_ & _ & ->). exact sd_shows.
Qed.

Definition no_text {A} : A -> string := fun _ => "".
Notation sd_applied := (apply sd_cfg no_text no_text sd_env sd_op (sd_tree false)).

Lemma sd_apply : sd_applied = ((Applied, ""), sd_applied.2).
Proof. rewrite (surjective_pairing (sd_applied)) at 1. assert (sd_applied.1 = (Applied, "")) as -> by (vm_compute; reflexivity). done. Qed.


Lemma sd_show : writes_show sd_op (ev_others sd_env 6).
Proof. intros tr n n' Hn Hn'. left. unfold sd_env in Hn'. cbn [ev_others] in Hn'. congruence. Qed.


(** The content is in place, under the file's own inode. *)
Example sd_applied_file : fo_nodes (tr_fs sd_applied.2) !! "f" = Some (MkNode (BFile "new") 420 7 9 2 1).
Proof. vm_compute. reflexivity. Qed.

(** ** Scanning *)

Lemma sd_good : good sd_empty.
Proof. split_and!; [exact sd_wf|exact sd_honest|]. by intros p n [-> ->]%sd_lookup. Qed.

Lemma sd_world : world sd_scan.
Proof.
  constructor; [done| | |done].
  - intros st tr _. apply aged_refl.
  - intros i dir tr (_ & _ & Hs). simpl. by split.
Qed.

Notation sd_found := (Scan sd_cfg sd_scan "data" [] sd_empty).
Definition sd_report : Report := MkReport "data" "e" [MkChange "f" 0 sd_entry].

Lemma sd_scanned : sd_found = (Ok (sd_report, []), sd_found.2).
Proof. rewrite (surjective_pairing sd_found) at 1. assert (sd_found.1 = Ok (sd_report, [])) as -> by (vm_compute; reflexivity). done. Qed.

Lemma scan_reports_true_witness : reported sd_found.2 (MkChange "f" 0 sd_entry) \/ unacked (compared sd_cfg sd_scan [] sd_empty) (MkChange "f" 0 sd_entry).
Proof.
  apply (scan_reports_true sd_cfg countable_codec sd_scan "data" [] sd_empty sd_report [] sd_found.2); [exact sd_world|exact sd_good|exact sd_scanned|].
  apply elem_of_cons. left. reflexivity.
Defined.

Lemma one_file_quiet n next d : nd_body n = BFile d -> nd_mtime n <= 100 -> nd_ino n < next -> quiet sd_cfg sd_scan (one_file n next).
Proof.
  intros Hb Ht Hi. constructor; [done|done|done|done|done|by apply one_file_wf|done| |].
  - intros p m [-> ->]%one_file_lookup _. simpl. lia.
  - intros p m t [-> ->]%one_file_lookup. congruence.
Qed.

Lemma sd_quiet : quiet sd_cfg sd_scan (tr_fs sd_empty).
Proof. by apply (one_file_quiet sd_file 2 "old"). Qed.

Lemma one_file_reachable n next d : nd_body n = BFile d -> reachable sd_cfg (one_file n next) "f".
Proof.
  intros Hb. split_and!; [by vm_compute| |].
  - intros a Ha. replace (ancestors "f") with ([] : list string) in Ha by (vm_compute; reflexivity). by apply elem_of_nil in Ha.
  - intros a m _ [_ ->]%one_file_lookup. unfold kindOf. by rewrite Hb.
Qed.

Lemma sd_empty_truthful p : truthful p sd_empty.
Proof. intros r n Hr. unfold rec_at in Hr. simpl in Hr. by rewrite lookup_empty in Hr. Qed.

Lemma sd_no_record p : rec_at sd_empty p = None.
Proof. unfold rec_at. simpl. by rewrite lookup_empty. Qed.

Lemma scan_in_step_witness : exists res tr', Scan sd_cfg sd_scan "data" [] sd_empty = (res, tr') /\ tr_fs tr' = tr_fs sd_empty /\
  match res with
  | Err e => exists je, e = JournalE je
  | Ok (rep, _) => forall p, reachable sd_cfg (tr_fs sd_empty) p -> scanned_at p sd_empty tr' rep
  end.
Proof. exact (scan_in_step sd_cfg countable_codec sd_scan sd_empty sd_quiet sd_empty_truthful eq_refl eq_refl). Defined.

Definition sd_new_file : node := MkNode (BFile "new") 420 7 9 2 1.

Lemma sd_applied_fs : tr_fs sd_applied.2 = one_file sd_new_file 3.
Proof. vm_compute. reflexivity. Qed.

Notation sd_rescan := (Scan sd_cfg sd_scan "data" [] sd_applied.2).

Lemma sd_rescanned : sd_rescan = (Ok (MkReport "data" "e" [], []), sd_rescan.2).
Proof. rewrite (surjective_pairing sd_rescan) at 1. assert (sd_rescan.1 = Ok (MkReport "data" "e" [], [])) as -> by (vm_compute; reflexivity). done. Qed.

Lemma sd_applied_holds : holds_op sd_op sd_applied.2.
Proof.
  exists sd_new_file. split; [exact sd_applied_file|]. exists "new". split; [reflexivity|]. split; [reflexivity|]. split; [vm_compute; reflexivity|reflexivity].
Qed.

Lemma applied_not_reported_witness :
  sd_rescan = (Ok (MkReport "data" "e" [], []), sd_rescan.2) /\ (forall ch, ch ∈ r_changes (MkReport "data" "e" []) -> c_path ch <> "f").
Proof.
  split; [exact sd_rescanned|].
  refine (proj1 (applied_not_reported sd_cfg countable_codec no_text no_text sd_env sd_scan sd_op (sd_tree false) sd_applied.2 "" (MkReport "data" "e" []) [] sd_rescan.2 _ _ _ _ _ _ _ _ _ _ _ _ _ _) sd_applied_holds);
    [reflexivity|exact sd_others|exact sd_keeps|exact sd_show|exact (sd_ids false)|exact sd_wf|exact sd_honest|exact (sd_truthful false "f")|exact sd_apply|..].
  - rewrite sd_applied_fs. apply (one_file_quiet sd_new_file 3 "new"); [reflexivity|simpl; lia|simpl; lia].
  - rewrite sd_applied_fs. apply (one_file_reachable sd_new_file 3 "new"). reflexivity.
  - vm_compute. reflexivity.
  - vm_compute. reflexivity.
  - exact sd_rescanned.
Defined.

(** ** Restarts, answers and fetches *)

Lemma sd_empty_tracked : tracked sd_empty.
Proof.
  exists ∅. split_and!; [| | |done].
  - exists (MkHead 0 0), ∅, []. split_and!; try done; by constructor.
  - constructor; [split; [done|intros w [= <-]; apply all_utf8; vm_compute; reflexivity]|constructor].
  - constructor; [|done| |done].
    + intros p Hp. simpl. unfold apply_batch. simpl. unfold apply_line. simpl. by rewrite lookup_insert_ne, !lookup_empty.
    + intros p i r. simpl. by rewrite lookup_empty.
Qed.

Lemma sd_tracked : tracked (sd_tree false).
Proof. apply putRecord_tracked; [by vm_compute|by vm_compute|apply all_utf8; vm_compute; reflexivity|exact sd_empty_tracked]. Qed.

Notation sd_committed := (tree_commit (sd_tree false)).

Lemma sd_commit : sd_committed = (None, sd_committed.2).
Proof. rewrite (surjective_pairing sd_committed) at 1. assert (sd_committed.1 = None) as -> by (vm_compute; reflexivity). done. Qed.


Lemma sd_waits : waits "f" sd_entry (sd_tree true).
Proof. exists (sd_rec true). done. Qed.

Definition sd_reply : Reply := MkReply "e" [MkAck "f" 4 Accepted sd_entry].

Lemma acked_only_answered_witness : waits "f" sd_entry (Acked sd_reply (sd_tree true)).2 \/ exists ack, ack ∈ reply_acks sd_reply /\ answers "f" sd_entry ack.
Proof. exact (acked_only_answered countable_codec sd_reply "f" sd_entry (sd_tree true) sd_waits). Defined.

(** Answered, the change waits no more. *)
Example sd_answered : rec_at (Acked sd_reply (sd_tree true)).2 "f" = Some (MkRec 4 sd_entry (fingerprintOf sd_file) false false).
Proof. vm_compute. reflexivity. Qed.

Lemma fetch_serves_witness : exists r, Fetch sd_cfg id "data" "f" sd_entry 1 (sd_tree false) = Ok r /\
  forall len, (forall i, 1 <= len i) -> drain 4 0 len (fun _ => file_read "old") (fun _ => Some sd_file) r "" = Some (Ok "ld").
Proof.
  apply (proj2 (fetch_serves sd_cfg id "f" sd_entry 1 (sd_tree false)) sd_file "old" (sd_rec false));
    first [exact sd_wf|exact sd_working|exact (sd_truthful false "f")|reflexivity|vm_compute; reflexivity|simpl; lia].
Defined.

(** ** The side and a hub *)

Definition hub_e : Hub :=
  let root := MkHubRoot "data" ex_cap "e" 0 0 ∅ ∅ 0 ∅ ∅ (MkJournal true 0 0 0 0 []) d0 ∅ None "" in
  MkHubState [(attach_root ex_cfg 0 root side_a (MkRootHello "data" "e" [])).1] {["a" := MkHubSide side_a None 0 ""]} [] false.

Notation sd_hub_reporter := (hub_reporter ex_cfg (fun _ => same_env "old") (fun _ _ r => r) "a").
Notation sd_hub_lawful := (hub_lawful ex_cfg (fun _ => same_env "old") (fun _ _ r => r) "a").
Notation sd_tree_of := (tree_of sd_cfg no_text no_text (fun _ => sd_scan) (fun _ _ => sd_env) (fun _ _ => false)).

Definition sd_side : side treeRoot (Hub * list (Report * Reply)) := MkSide sd_empty (hub_e, []) empty_queue.
Notation sd_said := (SideDriver.scan (sideTree0 := sd_tree_of) (reporter0 := sd_hub_reporter) 512 "data" [] sd_side).

Lemma sd_says : sd_said = (None, sd_said.2).
Proof. rewrite (surjective_pairing sd_said) at 1. assert (sd_said.1 = None) as -> by (vm_compute; reflexivity). done. Qed.

(** The hub holds the file, and the side knows. *)
Example sd_said_file :
  map (fun root => map_to_list ((fun e => (ehash (he_entry e), he_rev e)) <$> hr_entries root)) (hub_roots (sd_hub sd_said.2).1) = [[(MkKey "" "f", (sd_old, 1))]] /\
  (fun r => (rc_Rev r, rc_Sent r)) <$> rec_at (SideDriver.sd_tree sd_said.2) "f" = Some (1, false).
Proof. vm_compute. done. Qed.

Lemma sd_said_epoch : in_epoch (sd_hub sd_said.2).2.
Proof.
  assert (map (fun rr : Report * Reply => (reply_epoch rr.2, r_epoch rr.1)) (sd_hub sd_said.2).2 = [("e", "e")]) as E by (vm_compute; reflexivity).
  destruct ((sd_hub sd_said.2).2) as [|rr [|]]; try done. injection E as E1 E2. constructor; [congruence|constructor].
Qed.

(** The side had no record of the file: it told the hub of it. *)
Lemma scan_tells_hub_witness :
  told (tr_fs sd_empty) "f" 0 (sd_hub sd_said.2).2 /\ in_step "f" (SideDriver.sd_tree sd_said.2) /\
  forall r, rec_at (SideDriver.sd_tree sd_said.2) "f" = Some r -> rc_Sent r = true -> put_off "f" (rc_Entry r) (sd_hub sd_said.2).2.
Proof.
  destruct (scan_tells_hub (C := countable_codec) (reporter0 := sd_hub_reporter) (lawful_reporter0 := sd_hub_lawful)
    sd_cfg no_text no_text (fun _ => sd_scan) (fun _ _ => sd_env) (fun _ _ => false) 512 sd_side sd_said.2) as (l & El & H);
    [lia|exact sd_quiet|exact sd_empty_truthful|reflexivity|reflexivity|exact sd_says|].
  assert (l = (sd_hub sd_said.2).2) as -> by (rewrite El; reflexivity). destruct (H "f" (one_file_reachable sd_file 2 "old" eq_refl)) as [H1 H2].
  split; [|exact (H2 sd_said_epoch)]. apply H1. left. intros (r & Hr & _). by rewrite sd_no_record in Hr.
Defined.
