(* ===== verification/Wire.v ===== *)
(** * The wire between the hub and a spoke (internal/sharesync/remote.go)

    A spoke is a side in another process: the two ends exchange messages on one
    connection, calls and their answers both ways. A message is its JSON behind its
    length in four bytes; JSON encoding is a class. *)

From S2P Require Import Prelude GoStrings GoText Sha256 Entry Journal SideFetch.
Local Open Scope string_scope.
Local Open Scope Z_scope.
Local Open Scope list_scope.

Definition InlineMax : Z := Z.shiftl 256 10.
Definition maxWireMessage : Z := Z.shiftl 8 20.
Definition helloChunk : nat := Z.to_nat 4096.
Definition maxReportChanges : Z := 4096.
Definition MaxRemoteHeld : Z := Z.shiftl 1 20.
Definition maxRemoteReports : Z := 16.
Definition maxRemoteNeeds : Z := 64.
Definition maxRemoteRev : Z := Z.shiftl 1 53.
Definition maxEpoch : Z := 64.

(** ** Messages *)

Definition msgHello : string := "hello".
Definition msgWelcome : string := "welcome".
Definition msgRefused : string := "refused".
Definition msgReport : string := "report".
Definition msgReply : string := "reply".
Definition msgApply : string := "apply".
Definition msgResults : string := "results".
Definition msgFetch : string := "fetch".
Definition msgNeed : string := "need".
Definition msgData : string := "data".
Definition msgRescan : string := "rescan".
Definition msgHint : string := "hint".
Definition msgDone : string := "done".
Definition msgError : string := "error".

(** The types that answer a call. *)
Definition answers_call (t : string) : bool :=
  existsb (String.eqb t) [msgWelcome; msgRefused; msgReply; msgResults; msgData; msgDone; msgError].

Definition Hello : Type := list RootHello.
Definition Welcome : Type := list (string * string).

Record wireGet := MkWireGet { g_Root : string; g_Path : string; g_Entry : Entry; g_Offset : Z }.
Record wireNeed := MkWireNeed { n_Batch : Z; n_Op : Op; n_Offset : Z }.
Record Hint := MkHint { h_Root : string; h_Paths : list string }.

Record wireMsg := MkWireMsg {
  m_T : string;
  m_ID : Z;
  m_Hello : option Hello;
  m_More : bool;
  m_Lease : Z;
  m_Welcome : option Welcome;
  m_Report : option Report;
  m_Reply : option Reply;
  m_Batch : option Batch;
  m_Results : list Result;
  m_Get : option wireGet;
  m_Need : option wireNeed;
  m_Data : string;
  m_Bulk : bool;
  m_Err : string;
  m_Stale : bool;
  m_Hint : option Hint
}.

(** A message of a type, and its fields set. *)
Definition msg (t : string) : wireMsg := MkWireMsg t 0 None false 0 None None None None [] None None "" false "" false None.
Definition with_id (id : Z) (m : wireMsg) : wireMsg :=
  MkWireMsg (m_T m) id (m_Hello m) (m_More m) (m_Lease m) (m_Welcome m) (m_Report m) (m_Reply m) (m_Batch m) (m_Results m)
    (m_Get m) (m_Need m) (m_Data m) (m_Bulk m) (m_Err m) (m_Stale m) (m_Hint m).
Definition hello_msg (lease : Z) (h : Hello) (more : bool) : wireMsg :=
  MkWireMsg msgHello 0 (Some h) more lease None None None None [] None None "" false "" false None.
Definition welcome_msg (w : Welcome) : wireMsg := MkWireMsg msgWelcome 0 None false 0 (Some w) None None None [] None None "" false "" false None.
Definition refused_msg (err : string) : wireMsg := MkWireMsg msgRefused 0 None false 0 None None None None [] None None "" false err false None.
Definition report_msg (r : Report) : wireMsg := MkWireMsg msgReport 0 None false 0 None (Some r) None None [] None None "" false "" false None.
Definition reply_msg (r : Reply) : wireMsg := MkWireMsg msgReply 0 None false 0 None None (Some r) None [] None None "" false "" false None.
Definition apply_msg (b : Batch) : wireMsg := MkWireMsg msgApply 0 None false 0 None None None (Some b) [] None None "" false "" false None.
Definition results_msg (rs : list Result) : wireMsg := MkWireMsg msgResults 0 None false 0 None None None None rs None None "" false "" false None.
Definition fetch_msg (g : wireGet) : wireMsg := MkWireMsg msgFetch 0 None false 0 None None None None [] (Some g) None "" false "" false None.
Definition need_msg (n : wireNeed) : wireMsg := MkWireMsg msgNeed 0 None false 0 None None None None [] None (Some n) "" false "" false None.
Definition data_msg (data : string) : wireMsg := MkWireMsg msgData 0 None false 0 None None None None [] None None data false "" false None.
Definition bulk_msg : wireMsg := MkWireMsg msgData 0 None false 0 None None None None [] None None "" true "" false None.
Definition hint_msg (h : Hint) : wireMsg := MkWireMsg msgHint 0 None false 0 None None None None [] None None "" false "" false (Some h).

(** An error as the wire tells it: its text, and whether it is ErrStale. *)
Record werr := MkWErr { we_text : string; we_stale : bool }.

Definition error_msg (e : werr) : wireMsg :=
  MkWireMsg msgError 0 None false 0 None None None None [] None None "" false (we_text e) (we_stale e) None.
(** wireMsg.error; the text ErrStale adds is left out. *)
Definition msg_error (m : wireMsg) : werr := MkWErr (m_Err m) (m_Stale m).

(** ** Framing *)

(** The texts a message holds. *)
Definition op_texts (o : Op) : list string := o_path o :: entry_texts (o_entry o).
Definition texts (m : wireMsg) : list string :=
  m_T m :: m_Err m ::
  from_option (flat_map (fun rh => rh_root rh :: rh_epoch rh :: flat_map (fun x => held_path x :: entry_texts (held_entry x)) (rh_held rh))) [] (m_Hello m) ++
  from_option (flat_map (fun re => [re.1; re.2])) [] (m_Welcome m) ++
  from_option (fun r => r_root r :: r_epoch r :: flat_map (fun c => c_path c :: entry_texts (c_entry c)) (r_changes r)) [] (m_Report m) ++
  from_option (fun r => reply_epoch r :: flat_map (fun a => a_path a :: entry_texts (a_entry a)) (reply_acks r)) [] (m_Reply m) ++
  from_option (fun b => b_root b :: b_epoch b :: flat_map op_texts (b_ops b)) [] (m_Batch m) ++
  flat_map (fun r => [res_path r; res_reason r]) (m_Results m) ++
  from_option (fun g => g_Root g :: g_Path g :: entry_texts (g_Entry g)) [] (m_Get m) ++
  from_option (fun n => op_texts (n_Op n)) [] (m_Need m) ++
  from_option (fun h => h_Root h :: h_Paths h) [] (m_Hint m).

(** json.Marshal and json.Unmarshal of a message. Texts are UTF-8: other bytes would
    not read back. *)
Class wire_codec := {
  enc : wireMsg -> string;
  dec : string -> option wireMsg;
  dec_enc m : Forall (fun s => ValidString s = true) (texts m) -> dec (enc m) = Some m
}.

Definition sound (m : wireMsg) : Prop := Forall (fun s => ValidString s = true) (texts m).

Definition len (s : string) : Z := Z.of_nat (String.length s).

Inductive write_error := OverWire (n : Z).

(** writeMsg's bytes. *)
Definition writeMsg `{wire_codec} (m : wireMsg) : result write_error string :=
  let body := enc m in
  if maxWireMessage <? len body then Err (OverWire (len body))
  else Ok (bytes_of (be_bytes 4 (len body)) +:+ body).

Inductive read_error :=
| EOF                    (* between messages *)
| UnexpectedEOF          (* within one *)
| TooLong (n : Z)
| BadMessage.

(** binary.BigEndian.Uint32 of the first bytes of [s]. *)
Definition be_value (s : string) : Z := foldl (fun a b => 256 * a + b) 0 (string_bytes s).

(** readMsg on a connection that brings [s] and ends: the message and the rest. *)
Definition readMsg `{wire_codec} (s : string) : result read_error (wireMsg * string) :=
  if (String.length s =? 0)%nat then Err EOF
  else if (String.length s <? 4)%nat then Err UnexpectedEOF
  else
    let n := be_value (take_bytes 4 s) in
    let s := drop_bytes 4 s in
    if maxWireMessage <? n then Err (TooLong n)
    else if len s <? n then Err (if (String.length s =? 0)%nat then EOF else UnexpectedEOF)
    else match dec (take_bytes (Z.to_nat n) s) with
         | Some m => Ok (m, drop_bytes (Z.to_nat n) s)
         | None => Err BadMessage
         end.

(** The loop of a reader: the messages that came, and what ended it. *)
Fixpoint readMsgs `{wire_codec} (fuel : nat) (s : string) : list wireMsg * read_error :=
  match fuel with
  | O => ([], EOF)
  | S f =>
      match readMsg s with
      | Err e => ([], e)
      | Ok (m, s) => let '(ms, e) := readMsgs f s in (m :: ms, e)
      end
  end.

(** ** A stream of messages reads back *)

Lemma string_bytes_of l : Forall (fun b => 0 <= b < 256) l -> string_bytes (bytes_of l) = l.
Proof.
  induction 1 as [|b l Hb _ IH]; [done|]. cbn [bytes_of foldr string_bytes] in *. fold (bytes_of l). rewrite IH. f_equal.
  unfold code, byte. rewrite Ascii.N_ascii_embedding by lia. lia.
Qed.

Lemma be_bytes_range n z : Forall (fun b => 0 <= b < 256) (be_bytes n z).
Proof. induction n as [|n IH]; cbn [be_bytes]; [done|]. constructor; [|done]. change 255 with (Z.ones 8). rewrite Z.land_ones by lia. apply Z.mod_pos_bound. lia. Qed.

Lemma be_bytes_length n z : length (be_bytes n z) = n.
Proof. induction n; cbn [be_bytes length]; auto. Qed.

Lemma be_value_bytes z : 0 <= z < 2 ^ 32 -> be_value (bytes_of (be_bytes 4 z)) = z.
Proof.
  intros Hz. unfold be_value. rewrite string_bytes_of by apply be_bytes_range. cbn [be_bytes foldl].
  change 255 with (Z.ones 8). rewrite !Z.land_ones, !Z.shiftr_div_pow2 by lia. change (2 ^ 8) with 256.
  change (2 ^ (8 * Z.of_nat 3)) with 16777216. change (2 ^ (8 * Z.of_nat 2)) with 65536. change (2 ^ (8 * Z.of_nat 1)) with 256. change (2 ^ (8 * Z.of_nat 0)) with 1.
  Z.div_mod_to_equations. lia.
Qed.

Lemma take_append_ge a b k : (String.length a <= k)%nat -> take_bytes k (a +:+ b) = a +:+ take_bytes (k - String.length a) b.
Proof. revert k. induction a as [|x a IH]; intros k Hk; cbn [String.append String.length] in *; [by rewrite Nat.sub_0_r|]. destruct k as [|k]; [lia|]. simpl. rewrite IH by lia. done. Qed.

Lemma take_append_lt a b k : (k <= String.length a)%nat -> take_bytes k (a +:+ b) = take_bytes k a.
Proof. revert k. induction a as [|x a IH]; intros [|k] Hk; cbn [String.append String.length] in *; [by destruct b|lia|done|]. simpl. rewrite IH by lia. done. Qed.

Lemma drop_append a b : drop_bytes (String.length a) (a +:+ b) = b.
Proof. induction a; simpl; auto. Qed.

Section framing.
Context `{wire_codec}.

Lemma writeMsg_frame m s : writeMsg m = Ok s ->
  exists head, s = head +:+ enc m /\ String.length head = 4%nat /\ be_value head = len (enc m) /\ len (enc m) <= maxWireMessage.
Proof.
  unfold writeMsg. destruct (Z.ltb_spec maxWireMessage (len (enc m))) as [|Hl]; [done|]. intros [= <-]. exists (bytes_of (be_bytes 4 (len (enc m)))). split; [reflexivity|].
  split_and!; [by rewrite length_bytes_of, be_bytes_length| |done]. apply be_value_bytes. revert Hl. unfold len. change maxWireMessage with 8388608. lia.
Qed.

(** What was written reads back, and the rest of the stream is left. *)
Lemma readMsg_frame m s rest : sound m -> writeMsg m = Ok s -> readMsg (s +:+ rest) = Ok (m, rest).
Proof.
  intros Hs (head & -> & Hh & Hv & Hl)%writeMsg_frame. unfold readMsg. rewrite !append_assoc, !length_append, Hh.
  assert (take_bytes 4 (head +:+ enc m +:+ rest) = head) as -> by (rewrite <- Hh; apply take_bytes_app).
  assert (drop_bytes 4 (head +:+ enc m +:+ rest) = enc m +:+ rest) as -> by (rewrite <- Hh; apply drop_append).
  cbv zeta. rewrite Hv. destruct (Z.ltb_spec maxWireMessage (len (enc m))); [lia|].
  cbn [Nat.add Nat.eqb Nat.ltb Nat.leb]. assert (len (enc m +:+ rest) <? len (enc m) = false) as -> by (apply Z.ltb_ge; unfold len; rewrite length_append; lia).
  unfold len. rewrite Nat2Z.id, take_bytes_app, drop_append. by rewrite dec_enc.
Qed.

(** A message cut off is none. *)
Lemma readMsg_cut m s k : writeMsg m = Ok s -> (k < String.length s)%nat -> exists e, readMsg (take_bytes k s) = Err e /\ (e = EOF \/ e = UnexpectedEOF).
Proof.
  intros (head & -> & Hh & Hv & Hl)%writeMsg_frame Hk. unfold readMsg. rewrite length_append in Hk. rewrite take_bytes_length, length_append.
  rewrite Nat.min_l by lia. destruct (Nat.eqb_spec k 0); [eauto|]. destruct (Nat.ltb_spec k 4) as [|Hk4]; [eauto|].
  rewrite take_append_ge by lia. rewrite Hh.
  assert (take_bytes 4 (head +:+ take_bytes (k - 4) (enc m)) = head) as -> by (rewrite <- Hh; apply take_bytes_app).
  assert (drop_bytes 4 (head +:+ take_bytes (k - 4) (enc m)) = take_bytes (k - 4) (enc m)) as -> by (rewrite <- Hh; apply drop_append).
  cbv zeta. rewrite Hv. destruct (Z.ltb_spec maxWireMessage (len (enc m))); [lia|].
  assert (len (take_bytes (k - 4) (enc m)) <? len (enc m) = true) as ->.
  { apply Z.ltb_lt. unfold len. rewrite take_bytes_length. lia. }
  destruct (_ =? 0)%nat; eauto.
Qed.

Lemma readMsg_shrinks s m rest : readMsg s = Ok (m, rest) -> (String.length rest < String.length s)%nat.
Proof.
  unfold readMsg. destruct (Nat.eqb_spec (String.length s) 0); [done|]. destruct (Nat.ltb_spec (String.length s) 4); [done|]. cbv zeta.
  destruct (_ <? _); [done|]. destruct (_ <? _); [by destruct (_ =? _)%nat|]. destruct (dec _); [|done]. intros [= -> <-]. rewrite drop_bytes_length. pose proof (drop_bytes_length 4 s) as Hd. simpl drop_bytes in Hd. rewrite Hd. lia.
Qed.

(** The bytes of messages written one after another. *)
Fixpoint written (ms : list wireMsg) : option string :=
  match ms with
  | [] => Some ""
  | m :: rest => match writeMsg m, written rest with Ok s, Some t => Some (s +:+ t) | _, _ => None end
  end.

(** A stream of messages cut anywhere reads as its first messages, all that are whole,
    in order. *)
Lemma stream_reads ms : forall s k fuel, Forall sound ms -> written ms = Some s -> (String.length s < fuel)%nat ->
  exists j e, readMsgs fuel (take_bytes k s) = (firstn j ms, e) /\ (e = EOF \/ e = UnexpectedEOF) /\
    exists t, written (firstn j ms) = Some t /\ (String.length t <= k \/ j = 0)%nat /\
    ((String.length s <= k)%nat -> firstn j ms = ms /\ e = EOF) /\
    (forall t', written (firstn (S j) ms) = Some t' -> (j < length ms)%nat -> (k < String.length t')%nat).
Proof.
  induction ms as [|m ms IH]; intros s k fuel Hs Hw Hf; (destruct fuel as [|fuel]; [lia|]).
  - injection Hw as <-. exists 0%nat, EOF. assert (take_bytes k "" = "") as -> by (by destruct k). split_and!; [done|by left|].
    exists "". split_and!; [done|by right|done|intros; simpl in *; lia].
  - inversion_clear Hs as [|?? Hm Hms]. cbn [written] in Hw. destruct (writeMsg m) as [f|] eqn:Em; [|done]. destruct (written ms) as [t|] eqn:Et; [|done]. injection Hw as <-.
    rewrite length_append in Hf. destruct (decide (String.length f <= k)%nat) as [Hk|Hk].
    + rewrite take_append_ge by done. cbn [readMsgs]. rewrite (readMsg_frame m f) by done.
      destruct (writeMsg_frame _ _ Em) as (head & Ef & Hh & _). assert (4 <= String.length f)%nat by (rewrite Ef, length_append; lia).
      destruct (IH t (k - String.length f)%nat fuel) as (j & e & -> & He & u & Hu & Hj & Hall & Hnext); [done..|lia|].
      exists (S j), e. split_and!; [done|done|]. exists (f +:+ u). cbn [firstn written]. rewrite Em, Hu. split_and!; [done|rewrite length_append; destruct Hj as [Hj| ->]; left; [lia|simpl in Hu; injection Hu as <-; simpl; lia]| |].
      * rewrite length_append. intros Hl. destruct Hall as [-> ->]; [lia|done].
      * intros t'. cbn [firstn] in Hnext |- *. cbn [written]. destruct ms as [|m' ms]; [simpl; lia|]. cbn [firstn] in *. try rewrite Em. destruct (written (m' :: firstn j ms)) as [t''|] eqn:E; [|done].
        intros [= <-] Hl. rewrite length_append. specialize (Hnext t'' eq_refl). cbn [length] in *. lia.
    + rewrite take_append_lt by lia. cbn [readMsgs]. destruct (readMsg_cut m f k Em) as (e & -> & He); [lia|].
      exists 0%nat, e. split_and!; [done|done|]. exists "". cbn [firstn written]. split_and!; [done|by right| |].
      * rewrite length_append. lia.
      * rewrite Em. intros t' [= <-] _. rewrite length_append. simpl. lia.
Qed.
End framing.
