(* ===== verification/RemoteHello.v ===== *)
(** * A spoke's hello (internal/sharesync/remote_spoke.go: hello, chunkHello;
      remote_hub.go: ServeRemote, awaitHello, checkHello)

    What a spoke holds crosses the wire in chunks, and the hub takes it together again,
    bounded: the spoke may be anyone's. *)

From S2P Require Import Prelude GoStrings GoText Sha256 Entry Mergers Journal HubState HubCommit HubInvariants HubProcess HubDispatch HubApi SideFetch Wire.
Local Open Scope string_scope.
Local Open Scope Z_scope.
Local Open Scope list_scope.

(** ** The spoke's chunks *)

(** The variables of chunkHello. *)
Record chunker := MkChunker { ck_out : list Hello; ck_cur : Hello; ck_n : nat }.

Definition flush (k : chunker) : chunker := MkChunker (ck_out k ++ [ck_cur k]) [] 0.

(** The loop over one root's held paths, in messages of [size] paths. *)
Fixpoint chunk_held (size fuel : nat) (root epoch : string) (held : list Held) (k : chunker) : chunker :=
  match fuel with
  | O => k
  | S f =>
      let take := Nat.min (length held) (size - ck_n k) in
      let k := MkChunker (ck_out k) (ck_cur k ++ [MkRootHello root epoch (firstn take held)]) (ck_n k + take) in
      let held := skipn take held in
      let k := if (ck_n k =? size)%nat then flush k else k in
      match held with
      | [] => k
      | _ => chunk_held size f root epoch held k
      end
  end.

Definition chunk_root (size : nat) (k : chunker) (rh : RootHello) : chunker :=
  chunk_held size (S (length (rh_held rh))) (rh_root rh) (rh_epoch rh) (rh_held rh) k.

Definition chunk_hello (size : nat) (h : Hello) : list Hello :=
  let k := foldl (chunk_root size) (MkChunker [] [] 0) h in
  match ck_n k, ck_cur k, ck_out k with
  | O, [], _ :: _ => ck_out k
  | _, _, _ => ck_out (flush k)
  end.

Definition chunkHello : Hello -> list Hello := chunk_hello helloChunk.

(** Spoke.hello's messages: the lease on the first, the call's id on the last. *)
Fixpoint hello_msgs (lease id : Z) (chunks : list Hello) : list wireMsg :=
  match chunks with
  | [] => []
  | [h] => [with_id id (hello_msg lease h false)]
  | h :: rest => hello_msg lease h true :: hello_msgs 0 id rest
  end.

Inductive hello_answer := Welcomed (w : Welcome) | HubRefused (err : string) | HubAnswered (t : string).

(** What the spoke makes of the answer. *)
Definition take_welcome (a : wireMsg) : hello_answer :=
  if String.eqb (m_T a) msgRefused then HubRefused (m_Err a)
  else match m_Welcome a with
       | Some w => if String.eqb (m_T a) msgWelcome then Welcomed w else HubAnswered (m_T a)
       | None => HubAnswered (m_T a)
       end.

(** ** The hub's end *)

Inductive hello_error :=
| HelloRoot (root : string)
| HelloTooMany
| HelloRev (root path : string) (rev : Z)
| HelloNoCall          (* the last chunk is not a call *)
| WireEnded
| HelloLate.

Definition claims_rev (x : Held) : bool := maxRemoteRev <? held_rev x.

(** checkHello; [held] counts the paths of all chunks. *)
Fixpoint checkHello (h : Hello) (held : Z) : result hello_error Z :=
  match h with
  | [] => Ok held
  | rh :: rest =>
      if negb (validPath (rh_root rh)) || (maxEpoch <? len (rh_epoch rh)) then Err (HelloRoot (rh_root rh))
      else
        let held := held + Z.of_nat (length (rh_held rh)) in
        if MaxRemoteHeld <? held then Err HelloTooMany
        else match List.find claims_rev (rh_held rh) with
             | Some x => Err (HelloRev (rh_root rh) (held_path x) (held_rev x))
             | None => checkHello rest held
             end
  end.

(** A chunk's root added to the hello: to its root, when that came before. *)
Fixpoint add_root (hello : Hello) (rh : RootHello) : Hello :=
  match hello with
  | [] => [MkRootHello (rh_root rh) (rh_epoch rh) (rh_held rh)]
  | x :: rest =>
      if String.eqb (rh_root x) (rh_root rh) then MkRootHello (rh_root x) (rh_epoch x) (rh_held x ++ rh_held rh) :: rest
      else x :: add_root rest rh
  end.

(** awaitHello on the hello messages that came before [ended] (the connection's end or
    the timeout): the hello, the lease and the last message's id; or the error and the
    id to answer. *)
Fixpoint awaitHello (ended : hello_error) (ms : list wireMsg) (hello : Hello) (lease : option Z) (held : Z)
    : result (hello_error * Z) (Hello * Z * Z) :=
  match ms with
  | [] => Err (ended, 0)
  | m :: rest =>
      let lease := default (m_Lease m) lease in
      let next held hello :=
        if m_More m then awaitHello ended rest hello (Some lease) held
        else if m_ID m =? 0 then Err (HelloNoCall, 0) else Ok (hello, lease, m_ID m) in
      match m_Hello m with
      | None => next held hello
      | Some h =>
          match checkHello h held with
          | Err e => Err (e, m_ID m)
          | Ok held => next held (foldl add_root hello h)
          end
      end
  end.

Section serve.
Context (cfg : hubConf) `{C : !journal_codec hubRecord}.

(** ServeRemote up to the welcome: the answer it sends, and the hub when the side is
    attached. [accept] vets the lease. *)
Definition ServeRemote (text : hello_error -> string) (not_attached : string) (accept : Z -> option string)
    (envs : nat -> nat -> hubEnv) (now : Z) (info : SideInfo) (ended : hello_error) (ms : list wireMsg) (h : Hub)
    : option wireMsg * option Hub :=
  match awaitHello ended ms [] None 0 with
  | Err (e, final) => (if final =? 0 then None else Some (with_id final (refused_msg (text e))), None)
  | Ok (hello, lease, final) =>
      match accept lease with
      | Some err => (Some (with_id final (refused_msg err)), None)
      | None =>
          match Attach cfg envs now h info hello with
          | None => (Some (with_id final (refused_msg not_attached)), None)
          | Some (h, w) => (Some (with_id final (welcome_msg w)), Some h)
          end
      end
  end.
End serve.

(** ** The chunks hold the hello *)

Definition held_count (h : Hello) : nat := sum_list_with (fun rh => length (rh_held rh)) h.

(** The pieces of one root. *)
Definition pieces_of (rh : RootHello) (ps : Hello) : Prop :=
  ps <> [] /\ Forall (fun p => rh_root p = rh_root rh /\ rh_epoch p = rh_epoch rh) ps /\ flat_map rh_held ps = rh_held rh.

Definition all_roots (k : chunker) : Hello := concat (ck_out k) ++ ck_cur k.

Record chunking (size : nat) (k : chunker) : Prop := {
  chunk_n : ck_n k = held_count (ck_cur k);
  chunk_room : (ck_n k < size)%nat;
  chunk_small : Forall (fun c => held_count c <= size)%nat (ck_out k)
}.

Lemma held_count_snoc h rh : held_count (h ++ [rh]) = (held_count h + length (rh_held rh))%nat.
Proof. unfold held_count. rewrite sum_list_with_app. simpl. lia. Qed.

Lemma all_roots_flush k : all_roots (flush k) = all_roots k.
Proof. unfold all_roots, flush. simpl. by rewrite concat_app, app_nil_r; simpl; rewrite app_nil_r. Qed.

Lemma flush_chunking size k : (0 < size)%nat -> (held_count (ck_cur k) <= size)%nat -> Forall (fun c => held_count c <= size)%nat (ck_out k) -> chunking size (flush k).
Proof.
  intros Hs Hc Ho. split; simpl; [done|done|]. apply Forall_app. auto.
Qed.

Lemma chunk_held_ok size root epoch : (0 < size)%nat -> forall fuel held k, (length held < fuel)%nat -> chunking size k ->
  let k' := chunk_held size fuel root epoch held k in
  chunking size k' /\ exists ps, all_roots k' = all_roots k ++ ps /\ pieces_of (MkRootHello root epoch held) ps.
Proof.
  intros Hs. induction fuel as [|fuel IH]; intros held k Hf [Hn Hr Hsm]; [lia|]. cbn [chunk_held]. cbv zeta.
  set (take := Nat.min (length held) (size - ck_n k)). set (k1 := MkChunker (ck_out k) (ck_cur k ++ [MkRootHello root epoch (firstn take held)]) (ck_n k + take)).
  assert (length (firstn take held) = take) as Htk by (rewrite length_take; lia).
  assert (all_roots k1 = all_roots k ++ [MkRootHello root epoch (firstn take held)]) as Ha by (unfold all_roots; simpl; by rewrite app_assoc).
  assert (ck_n k1 = held_count (ck_cur k1)) as Hn1 by (simpl; rewrite held_count_snoc; simpl; rewrite Htk; lia).
  set (k2 := if (ck_n k1 =? size)%nat then flush k1 else k1).
  assert (chunking size k2 /\ all_roots k2 = all_roots k1) as [Hk2 Ha2].
  { subst k2. destruct (Nat.eqb_spec (ck_n k1) size) as [E|E].
    - split; [apply flush_chunking; [done|lia|done]|apply all_roots_flush].
    - split; [|done]. split; [done| |done]. simpl in E |- *. subst take. lia. }
  destruct (skipn take held) as [|x rest] eqn:Erest.
  - split; [done|]. eexists. split; [by rewrite Ha2, Ha|]. split_and!; [done|by repeat constructor|]. simpl. rewrite app_nil_r.
    rewrite <- (firstn_skipn take held) at 2. by rewrite Erest, app_nil_r.
  - assert (0 < take)%nat. { clear Hn1 Ha Hk2 Ha2. destruct held; [by rewrite skipn_nil in Erest|]. subst take. cbn [length]. lia. }
    rewrite <- Erest. destruct (IH (skipn take held) k2) as (Hk & ps & Hps & Hne & Hf2 & Hh); [rewrite length_skipn; lia|done|].
    split; [done|]. exists (MkRootHello root epoch (firstn take held) :: ps). split; [by rewrite Hps, Ha2, Ha, <- app_assoc|].
    split_and!; [done|by constructor|]. simpl in *. by rewrite Hh, firstn_skipn.
Qed.

Lemma chunk_roots_ok size : (0 < size)%nat -> forall h k, chunking size k ->
  chunking size (foldl (chunk_root size) k h) /\
  exists pss, all_roots (foldl (chunk_root size) k h) = all_roots k ++ concat pss /\ Forall2 pieces_of h pss.
Proof.
  intros Hs. induction h as [|rh h IH]; intros k Hk; cbn [foldl].
  - split; [done|]. exists []. by rewrite app_nil_r.
  - destruct (chunk_held_ok size (rh_root rh) (rh_epoch rh) Hs (S (length (rh_held rh))) (rh_held rh) k) as (Hk1 & ps & Hps & Hpc); [lia|done|].
    change (chunk_held size _ _ _ _ k) with (chunk_root size k rh) in Hk1, Hps.
    destruct (IH _ Hk1) as (Hk2 & pss & Hpss & Hf). split; [done|]. exists (ps :: pss). rewrite Hpss, Hps, <- app_assoc.
    split; [done|]. constructor; [|done]. by destruct rh.
Qed.

Lemma chunk_hello_ok size h : (0 < size)%nat ->
  chunk_hello size h <> [] /\ Forall (fun c => held_count c <= size)%nat (chunk_hello size h) /\
  exists pss, concat (chunk_hello size h) = concat pss /\ Forall2 pieces_of h pss.
Proof.
  intros Hs. destruct (chunk_roots_ok size Hs h (MkChunker [] [] 0)) as ([Hn Hr Hsm] & pss & Hp & Hf); [by split|].
  unfold chunk_hello. set (k := foldl _ _ _) in *. change (all_roots (MkChunker [] [] 0)) with (@nil RootHello) in Hp. cbn [app] in Hp.
  assert (ck_out (flush k) <> [] /\ Forall (fun c => held_count c <= size)%nat (ck_out (flush k)) /\ exists pss, concat (ck_out (flush k)) = concat pss /\ Forall2 pieces_of h pss) as Hfl.
  { split_and!; [simpl; by destruct (ck_out k)| |].
    - simpl. apply Forall_app. split; [done|]. constructor; [lia|done].
    - exists pss. split; [|done]. rewrite <- Hp, <- all_roots_flush. unfold all_roots. simpl. by rewrite app_nil_r. }
  destruct (ck_n k), (ck_cur k) eqn:Ec, (ck_out k) eqn:Eo; try exact Hfl.
  split_and!; [done|done|]. exists pss. split; [|done]. rewrite <- Hp. unfold all_roots. by rewrite Ec, Eo, app_nil_r.
Qed.

(** ** The hub takes it together again *)

Lemma add_root_new hello rh : rh_root rh ∉ map rh_root hello -> add_root hello rh = hello ++ [rh].
Proof.
  induction hello as [|x hello IH]; simpl; [by destruct rh|]. rewrite not_elem_of_cons. intros [Hn1 Hn]. destruct (String.eqb_spec (rh_root x) (rh_root rh)) as [E|E]; [congruence|].
  by rewrite IH.
Qed.

Lemma add_root_last hello x rh : rh_root x ∉ map rh_root hello -> rh_root x = rh_root rh ->
  add_root (hello ++ [x]) rh = hello ++ [MkRootHello (rh_root x) (rh_epoch x) (rh_held x ++ rh_held rh)].
Proof.
  intros Hn E. induction hello as [|y hello IH]; simpl.
  - destruct (String.eqb_spec (rh_root x) (rh_root rh)); [done|congruence].
  - cbn [map] in Hn. rewrite not_elem_of_cons in Hn. destruct Hn as [Hn1 Hn]. destruct (String.eqb_spec (rh_root y) (rh_root rh)); [congruence|]. by rewrite IH.
Qed.

Lemma add_pieces_last ps : forall hello x, rh_root x ∉ map rh_root hello -> Forall (fun p => rh_root p = rh_root x) ps ->
  foldl add_root (hello ++ [x]) ps = hello ++ [MkRootHello (rh_root x) (rh_epoch x) (rh_held x ++ flat_map rh_held ps)].
Proof.
  induction ps as [|p ps IH]; intros hello x Hn Hp; simpl; [rewrite app_nil_r; by destruct x|]. inversion_clear Hp.
  rewrite add_root_last by congruence. rewrite IH by done. simpl. by rewrite app_assoc.
Qed.

Lemma add_pieces rh ps hello : pieces_of rh ps -> rh_root rh ∉ map rh_root hello -> foldl add_root hello ps = hello ++ [rh].
Proof.
  intros (Hne & Hf & Hh) Hn. destruct ps as [|p ps]; [done|]. inversion_clear Hf as [|?? [Hr He] Hps]. simpl.
  rewrite add_root_new by congruence. rewrite add_pieces_last; [|congruence|by eapply Forall_impl; [exact Hps|]; simpl; intros ? [-> _]].
  simpl in Hh. by rewrite Hh, Hr, He; destruct rh.
Qed.

Lemma add_all h pss : Forall2 pieces_of h pss -> forall hello, NoDup (map rh_root (hello ++ h)) -> foldl add_root hello (concat pss) = hello ++ h.
Proof.
  induction 1 as [|rh ps h pss Hp _ IH]; intros hello Hn; simpl; [by rewrite app_nil_r|]. rewrite foldl_app, (add_pieces rh ps) by
    (done || (rewrite map_app in Hn; apply NoDup_app in Hn as (_ & Hd & _); intros Hin; eapply Hd; [exact Hin|simpl; set_solver])).
  rewrite IH; [by rewrite <- app_assoc|by rewrite <- app_assoc].
Qed.

(** ** Bounds *)

(** A hello the hub takes: roots that are paths, short epochs, revs a hub can have given. *)
Definition sane (rh : RootHello) : Prop :=
  validPath (rh_root rh) = true /\ len (rh_epoch rh) <= maxEpoch /\ Forall (fun x => held_rev x <= maxRemoteRev) (rh_held rh).

Definition bounded_hello (h : Hello) : Prop := Forall sane h /\ Z.of_nat (held_count h) <= MaxRemoteHeld.

Lemma claims_rev_none xs : List.find claims_rev xs = None <-> Forall (fun x => held_rev x <= maxRemoteRev) xs.
Proof.
  induction xs as [|x xs IH]; simpl; [by split|]. rewrite Forall_cons, <- IH. unfold claims_rev at 1.
  destruct (Z.ltb_spec maxRemoteRev (held_rev x)); split; [done|lia|by split; [lia|]|tauto].
Qed.

Lemma checkHello_ok h held held' : 0 <= held -> checkHello h held = Ok held' <->
  Forall sane h /\ held' = held + Z.of_nat (held_count h) /\ (h = [] \/ held' <= MaxRemoteHeld).
Proof.
  revert held. induction h as [|rh h IH]; intros held Hh; cbn [checkHello].
  - split; [intros [= <-]; split_and!; [done|cbn; lia|by left]|]. intros (_ & -> & _). cbn. f_equal. lia.
  - rewrite Forall_cons. unfold sane at 1. cbv zeta. destruct (validPath (rh_root rh)); simpl; [|by split; [|intros [[[? _] _] _]]].
    destruct (Z.ltb_spec maxEpoch (len (rh_epoch rh))) as [|He]; [split; [done|intros [[(_ & ? & _) _] _]; lia]|].
    unfold held_count. cbn [sum_list_with]. fold (held_count h).
    destruct (Z.ltb_spec MaxRemoteHeld (held + Z.of_nat (length (rh_held rh)))) as [|Hm].
    { split; [done|]. intros (_ & -> & [|]); [done|lia]. }
    destruct (List.find claims_rev (rh_held rh)) as [x|] eqn:Ex.
    { split; [done|]. intros [[(_ & _ & Hr) _] _]. by apply claims_rev_none in Hr as Hr'; rewrite Hr' in Ex. }
    apply claims_rev_none in Ex. rewrite IH by lia. split.
    + intros (Hs & -> & Ho). split; [by split_and!|]. split; [lia|]. right. destruct Ho as [->|]; [cbn; lia|lia].
    + intros ([_ Hs] & -> & [|Ho]); [done|]. split_and!; [done|lia|]. right. lia.
Qed.

Lemma await_msgs ended lease id chunks : id <> 0 -> chunks <> [] -> Forall sane (concat chunks) ->
  forall hello lo held, 0 <= held -> held + Z.of_nat (held_count (concat chunks)) <= MaxRemoteHeld ->
  awaitHello ended (hello_msgs lease id chunks) hello lo held = Ok (foldl add_root hello (concat chunks), default lease lo, id).
Proof.
  intros Hid. revert lease. induction chunks as [|h chunks IH]; intros lease Hne Hs hello lo held Hh Hm; [done|].
  cbn [concat] in *. apply Forall_app in Hs as [Hs1 Hs2]. unfold held_count in Hm. rewrite sum_list_with_app in Hm. fold (held_count h) in Hm. fold (held_count (concat chunks)) in Hm.
  assert (checkHello h held = Ok (held + Z.of_nat (held_count h))) as Hck by (apply checkHello_ok; [done|]; split_and!; [done|done|right; lia]).
  destruct chunks as [|h2 chunks].
  - cbn [hello_msgs awaitHello with_id hello_msg m_Lease m_Hello m_More m_ID]. cbv zeta. rewrite Hck. destruct (Z.eqb_spec id 0); [done|]. cbn [concat]. by rewrite app_nil_r.
  - change (hello_msgs lease id (h :: h2 :: chunks)) with (hello_msg lease h true :: hello_msgs 0 id (h2 :: chunks)).
    cbn [awaitHello hello_msg m_Lease m_Hello m_More m_ID]. cbv zeta. rewrite Hck, IH; [|done|done|lia|lia]. by rewrite foldl_app.
Qed.

(** Without its last chunk a hello is not taken. *)
Lemma await_part ended lease id chunks : Forall sane (concat chunks) -> forall j hello lo held, (j < length chunks)%nat ->
  0 <= held -> held + Z.of_nat (held_count (concat chunks)) <= MaxRemoteHeld ->
  awaitHello ended (firstn j (hello_msgs lease id chunks)) hello lo held = Err (ended, 0).
Proof.
  revert lease. induction chunks as [|h chunks IH]; intros lease Hs j hello lo held Hj Hh Hm; [simpl in Hj; lia|].
  cbn [concat] in *. apply Forall_app in Hs as [Hs1 Hs2]. unfold held_count in Hm. rewrite sum_list_with_app in Hm. fold (held_count h) in Hm. fold (held_count (concat chunks)) in Hm.
  assert (checkHello h held = Ok (held + Z.of_nat (held_count h))) as Hck by (apply checkHello_ok; [done|]; split_and!; [done|done|right; lia]).
  destruct j as [|j]; [done|]. destruct chunks as [|h2 chunks]; [simpl in Hj; lia|].
  change (hello_msgs lease id (h :: h2 :: chunks)) with (hello_msg lease h true :: hello_msgs 0 id (h2 :: chunks)).
  cbn [firstn awaitHello hello_msg m_Lease m_Hello m_More m_ID]. cbv zeta. rewrite Hck. apply IH; [done|simpl in *; lia|lia|lia].
Qed.

Lemma hello_msgs_length lease id chunks : length (hello_msgs lease id chunks) = length chunks.
Proof. revert lease. induction chunks as [|h [|h2 chunks] IH]; intros lease; [done|done|]. cbn [hello_msgs length]. f_equal. apply IH. Qed.

Lemma pieces_sane rh ps : pieces_of rh ps -> sane rh -> Forall sane ps.
Proof.
  intros (_ & Hf & Hh) (Hv & He & Hr). rewrite <- Hh in Hr. clear Hh. induction Hf as [|p ps [Hp1 Hp2] _ IH]; [done|]. simpl in Hr. apply Forall_app in Hr as [Hr1 Hr2].
  constructor; [|by apply IH]. split_and!; [by rewrite Hp1|by rewrite Hp2|done].
Qed.

Lemma held_count_flat h : held_count h = length (flat_map rh_held h).
Proof. induction h as [|rh h IH]; [done|]. simpl. rewrite length_app, <- IH. done. Qed.

Lemma all_pieces h pss : Forall2 pieces_of h pss -> Forall sane h -> Forall sane (concat pss) /\ held_count (concat pss) = held_count h.
Proof.
  intros Hf Hs. rewrite !held_count_flat. induction Hf as [|rh ps h pss Hp _ IH]; [done|]. inversion_clear Hs. destruct IH as [IH1 IH2]; [done|]. simpl. split.
  - apply Forall_app. split; [by eapply pieces_sane|done].
  - rewrite flat_map_app, !length_app, IH2. by destruct Hp as (_ & _ & ->).
Qed.

(** C18: a spoke's hello, its texts all UTF-8 (a symlink target that is not is altered by
    JSON on the way), reaches the hub whole or not at all: its messages hold at most
    [helloChunk] paths each, and wherever the connection is cut, the hub reading what
    came takes exactly the hello the spoke's tree said, its roots and paths in order,
    with its lease, or, when a byte is missing, none. *)
Theorem hello_crosses_wire `{wire_codec} lease id h s k ended :
  id <> 0 -> NoDup (map rh_root h) -> bounded_hello h ->
  Forall sound (hello_msgs lease id (chunkHello h)) -> written (hello_msgs lease id (chunkHello h)) = Some s ->
  Forall (fun c => held_count c <= helloChunk)%nat (chunkHello h) /\
  awaitHello ended (readMsgs (S (String.length s)) (take_bytes k s)).1 [] None 0 =
    if (String.length s <=? k)%nat then Ok (h, lease, id) else Err (ended, 0).
Proof.
  intros Hid Hnd [Hsane Hcount] Hsound Hw. unfold chunkHello in *.
  destruct (chunk_hello_ok helloChunk h) as (Hne & Hsm & pss & Hc & Hp); [unfold helloChunk; lia|]. split; [done|].
  destruct (all_pieces h pss Hp Hsane) as [Hs2 Hn2]. rewrite <- Hc in Hs2, Hn2.
  destruct (stream_reads _ s k (S (String.length s)) Hsound Hw) as (j & e & -> & _ & t & Ht & Hj & Hall & Hnext); [lia|]. cbn [fst].
  destruct (Nat.leb_spec (String.length s) k) as [Hk|Hk].
  - destruct Hall as [-> _]; [done|]. rewrite (await_msgs ended lease id); [|done..|lia|lia]. rewrite Hc, (add_all h pss) by done. done.
  - apply await_part; [done| |lia|lia]. rewrite <- (hello_msgs_length lease id). destruct (decide (length (hello_msgs lease id (chunk_hello helloChunk h)) <= j)%nat) as [Hl|]; [|lia].
    rewrite firstn_all2 in Ht by done. rewrite Hw in Ht. injection Ht as <-. destruct Hj as [|Hj]; [lia|]. rewrite Hj in Hl.
    destruct (chunk_hello helloChunk h) as [|? [|]]; [done|simpl in Hl; lia..].
Qed.

(** ** Whatever a spoke sends *)

Lemma add_root_roots hello rh : map rh_root (add_root hello rh) = map rh_root hello \/ rh_root rh ∉ map rh_root hello /\ add_root hello rh = hello ++ [MkRootHello (rh_root rh) (rh_epoch rh) (rh_held rh)].
Proof.
  induction hello as [|x hello IH]; simpl; [right; split; [set_solver|done]|]. destruct (String.eqb_spec (rh_root x) (rh_root rh)) as [E|E]; [by left|].
  destruct IH as [IH|[Hn IH]]; [left; simpl; by rewrite IH|]. right. split; [|by rewrite IH]. rewrite not_elem_of_cons. split; [congruence|done].
Qed.

Lemma add_root_count hello rh : held_count (add_root hello rh) = (held_count hello + length (rh_held rh))%nat.
Proof.
  unfold held_count. induction hello as [|x hello IH]; simpl; [lia|]. destruct (String.eqb _ _); simpl; [rewrite length_app; lia|]. rewrite IH. lia.
Qed.

Lemma add_root_sane hello rh : Forall sane hello -> sane rh -> Forall sane (add_root hello rh).
Proof.
  intros Hs Hr. induction Hs as [|x hello Hx Hs IH]; simpl; [constructor; [|done]; by destruct rh|]. destruct (String.eqb _ _); [|by constructor].
  constructor; [|done]. destruct Hx as (? & ? & ?), Hr as (? & ? & ?). split_and!; simpl; [done..|by apply Forall_app].
Qed.

Definition taken (hello : Hello) (held : Z) : Prop :=
  NoDup (map rh_root hello) /\ Forall sane hello /\ held = Z.of_nat (held_count hello) /\ held <= MaxRemoteHeld.

Lemma add_roots_taken h hello : NoDup (map rh_root hello) -> Forall sane hello -> Forall sane h ->
  NoDup (map rh_root (foldl add_root hello h)) /\ Forall sane (foldl add_root hello h) /\ held_count (foldl add_root hello h) = (held_count hello + held_count h)%nat.
Proof.
  revert hello. induction h as [|rh h IH]; intros hello Hn Hs Hh; cbn [foldl]; [split_and!; [done..|unfold held_count; simpl; lia]|]. inversion_clear Hh.
  destruct (IH (add_root hello rh)) as (H1 & H2 & H3); [|by apply add_root_sane|done|].
  - destruct (add_root_roots hello rh) as [->|[Hnr ->]]; [done|]. rewrite map_app. apply NoDup_app. split_and!; [done| |simpl; apply NoDup_singleton].
    intros x Hx. simpl. by intros ->%list_elem_of_singleton.
  - split_and!; [done..|]. rewrite H3, add_root_count. unfold held_count. simpl. lia.
Qed.

Lemma await_taken ended ms : forall hello lo held hello' lease id, taken hello held ->
  awaitHello ended ms hello lo held = Ok (hello', lease, id) -> NoDup (map rh_root hello') /\ bounded_hello hello' /\ id <> 0.
Proof.
  assert (forall m hello lease held hello' lease' id, taken hello held ->
    (if m_ID m =? 0 then Err (HelloNoCall, 0) else Ok (hello, lease, m_ID m)) = Ok (hello', lease', id) :> result (hello_error * Z) (Hello * Z * Z) ->
    NoDup (map rh_root hello') /\ bounded_hello hello' /\ id <> 0) as Hend.
  { intros m hello lease held hello' lease' id (Hn & Hs & -> & Hm). destruct (Z.eqb_spec (m_ID m) 0); [done|]. intros [= <- _ <-]. by repeat split. }
  induction ms as [|m ms IH]; intros hello lo held hello' lease id Ht; [done|]. cbn [awaitHello]. cbv zeta. destruct (m_Hello m) as [h|].
  - destruct (checkHello h held) as [held'|] eqn:E; [|done]. destruct Ht as (Hn & Hs & -> & Hm).
    apply checkHello_ok in E as (Hs2 & -> & Ho); [|lia]. destruct (add_roots_taken h hello) as (H1 & H2 & H3); [done..|].
    assert (taken (foldl add_root hello h) (Z.of_nat (held_count hello) + Z.of_nat (held_count h))) as Ht'.
    { split_and!; [done|done|rewrite H3; lia|]. destruct Ho as [->|]; [simpl; lia|done]. }
    destruct (m_More m); [by eapply IH|by eapply Hend].
  - destruct (m_More m); [by eapply IH|by eapply Hend].
Qed.

Section attached.
Context (cfg : hubConf) `{C : !journal_codec hubRecord}.

Lemma attach_held_rev matching hs : forall root sr reg stale root' sr' reg' stale',
  foldl (attach_held cfg matching) (root, sr, reg, stale) hs = (root', sr', reg', stale') -> Forall (fun x => held_rev x <= maxRemoteRev) hs ->
  hr_rev root <= hr_rev root' <= Z.max (hr_rev root) maxRemoteRev.
Proof.
  induction hs as [|x hs IH]; intros root sr reg stale root' sr' reg' stale'; cbn [foldl].
  - intros [= <- _ _ _] _. lia.
  - destruct (attach_held cfg matching (root, sr, reg, stale) x) as [[[root1 sr1] reg1] stale1] eqn:E. intros Hf Hr. inversion_clear Hr as [|?? Hx Hxs].
    specialize (IH _ _ _ _ _ _ _ _ Hf Hxs). assert (hr_rev root1 = hr_rev root \/ hr_rev root1 = held_rev x /\ hr_rev root < held_rev x) as Hrev.
    { revert E. unfold attach_held. cbv zeta. repeat (case_match; try (intros [= <- _ _ _]; by left)).
      all: try (intros [= <- _ _ _]; right; simpl; by bool_hyps). }
    lia.
Qed.

Lemma attach_root_rev now root info rh : Forall (fun x => held_rev x <= maxRemoteRev) (rh_held rh) ->
  hr_rev root <= hr_rev (attach_root cfg now root info rh).1 <= Z.max (hr_rev root) maxRemoteRev.
Proof.
  intros Hr. unfold attach_root. destruct (hr_broken root); [simpl; lia|].
  destruct (foldl _ _ _) as [[[root1 sr1] reg1] stale1] eqn:E. apply attach_held_rev in E; [|done]. cbn [fst set_sides hr_rev].
  destruct reg1; [|done]. unfold putMeta. destruct (commit _ _) as [[]]. done.
Qed.
End attached.

(** C19: no spoke overruns the hub: whatever messages one sends for a hello, what the hub
    takes of it names each root once, at most [MaxRemoteHeld] paths, and no rev above
    [maxRemoteRev]; attaching it leaves a root's rev where it was or at most there, far
    from where a uint64 wraps; and without a whole hello, or with a lease that is not
    accepted, nothing is attached. *)
Theorem spoke_cannot_overrun cfg `{C : !journal_codec hubRecord} text na accept envs now info ended ms h :
  (forall hello lease id, awaitHello ended ms [] None 0 = Ok (hello, lease, id) ->
     NoDup (map rh_root hello) /\ bounded_hello hello /\ id <> 0 /\
     forall root, let root' := (attach_root cfg now root info (hello_for hello (hr_name root))).1 in
       hr_rev root <= hr_rev root' <= Z.max (hr_rev root) (2 ^ 53)) /\
  (forall a h', ServeRemote cfg text na accept envs now info ended ms h = (a, Some h') ->
     exists hello lease id w, awaitHello ended ms [] None 0 = Ok (hello, lease, id) /\ accept lease = None /\
       Attach cfg envs now h info hello = Some (h', w) /\ a = Some (with_id id (welcome_msg w))).
Proof.
  split.
  - intros hello lease id E. destruct (await_taken ended ms [] None 0 hello lease id) as (Hn & Hb & Hid); [by split_and!; [constructor..|]|done|].
    split_and!; [done..|]. intros root. change (2 ^ 53) with maxRemoteRev. apply attach_root_rev. unfold hello_for.
    destruct (find _ (rev hello)) as [rh|] eqn:Ef; simpl; [|].
    + apply find_some in Ef as [Hin%in_rev%list_elem_of_In _]. destruct Hb as [Hs _]. rewrite Forall_forall in Hs. by apply Hs.
    + constructor.
  - intros a h'. unfold ServeRemote. destruct (awaitHello _ _ _ _ _) as [[[hello lease] id]|[e final]]; [|done].
    destruct (accept lease) eqn:Ea; [done|]. destruct (Attach _ _ _ _ _ _) as [[h2 w]|] eqn:Et; [|done]. intros [= <- <-]. by exists hello, lease, id, w.
Qed.
