(* ===== verification/Remote.v ===== *)
(** * The two ends of a spoke's connection (internal/sharesync/remote_hub.go,
      remote_spoke.go, hint.go)

    What each end makes of a request and of an answer. Readers of content are the bytes
    they give and the error that ends them early, if one does. The quotes of %q and the
    text ErrStale adds to an error are left out. *)

From S2P Require Import Prelude GoStrings GoText Sha256 Entry Mergers Journal HubState HubCommit HubInvariants HubProcess HubDispatch HubApi SafeFs SideTree SideApply SideFetch SideScan SideDriver SideHub Wire.
Local Open Scope string_scope.
Local Open Scope Z_scope.
Local Open Scope list_scope.

(** ** Content *)

Record reader := MkReader { rd_bytes : string; rd_err : option werr }.

Inductive inlined :=
| Whole (data : string)
| Part (data : string) (rest : reader)
| Broken (e : werr).

(** inline: the content when it is small, else its first bytes and the reader left. *)
Definition inline (r : reader) : inlined :=
  if InlineMax <? len (rd_bytes r) then
    let n := Z.to_nat (InlineMax + 1) in
    Part (take_bytes n (rd_bytes r)) (MkReader (drop_bytes n (rd_bytes r)) (rd_err r))
  else match rd_err r with
       | Some e => Broken e
       | None => Whole (rd_bytes r)
       end.

(** io.LimitReader. *)
Definition limit (n : Z) (r : reader) : reader :=
  if n <=? len (rd_bytes r) then MkReader (take_bytes (Z.to_nat n) (rd_bytes r)) None else r.

(** What io.Copy puts on a connection, which then closes. *)
Definition copied (r : reader) : reader := MkReader (rd_bytes r) None.

(** ** Calls *)

(** The end of wire.call: the answer that came, or why none did. *)
Definition call_answer (a : result werr wireMsg) : result werr wireMsg :=
  match a with
  | Err e => Err e
  | Ok a => if String.eqb (m_T a) msgError then Err (msg_error a) else Ok a
  end.

Definition plain (text : string) : werr := MkWErr text false.

(** ** Reports: remote_hub.go's checkReport and report, remote_spoke.go's Report *)

Inductive report_error :=
| ReportRoot (root : string)
| ReportMany (n : Z)
| ReportBase (root path : string) (base : Z).

Definition checkReport (rep : Report) : option report_error :=
  if negb (validPath (r_root rep)) || (maxEpoch <? len (r_epoch rep)) then Some (ReportRoot (r_root rep))
  else if maxReportChanges <? Z.of_nat (length (r_changes rep)) then Some (ReportMany (Z.of_nat (length (r_changes rep))))
  else match List.find (fun c => maxRemoteRev <? c_base c) (r_changes rep) with
       | Some c => Some (ReportBase (r_root rep) (c_path c) (c_base c))
       | None => None
       end.

(** Texts of errors that are given. *)
Record texts_of := MkTexts {
  tx_report : report_error -> string;      (* checkReport's *)
  tx_hub : string;                         (* Hub.Report's *)
  tx_side : list side_error -> string;     (* Side.Rescan's *)
  tx_tree : terr -> werr                   (* Side.Apply's and Fetch's *)
}.

Section reports.
Context {H : Type} `{!reporter H} (tx : texts_of).

(** remoteSide.report: its answer. *)
Definition remote_report (m : wireMsg) (h : H) : wireMsg * H :=
  match m_Report m with
  | None => (error_msg (plain "sharesync: a report without changes"), h)
  | Some rep =>
      match checkReport rep with
      | Some e => (error_msg (plain (tx_report tx e)), h)
      | None =>
          match rp_Report rep h with
          | (None, h) => (error_msg (plain (tx_hub tx)), h)
          | (Some reply, h) => (reply_msg reply, h)
          end
      end
  end.

(** Spoke.Report, once the call has its answer. *)
Definition spoke_Report (a : result werr wireMsg) : result werr Reply :=
  let? a := call_answer a in
  match m_Reply a with
  | Some reply => if String.eqb (m_T a) msgReply then Ok reply else Err (plain ("sharesync: the hub answered a report with " +:+ m_T a))
  | None => Err (plain ("sharesync: the hub answered a report with " +:+ m_T a))
  end.
End reports.

(** ** A spoke's hub is a reporter *)

(** What comes of a report on the wire. *)
Inductive fate := Through | Busy | LostBefore | LostAfter.

Section remote_reporter.
Context {H : Type} `{!reporter H} (tx : texts_of) (ended : werr).

(** Spoke.Report whole: the report served and its answer taken, refused for too many
    calls at once, or the connection's end before or after the hub took it. *)
#[export] Instance remote_reporter : reporter (H * list fate) := {|
  rp_Report := fun rep hf =>
    let '(h, fates) := hf in
    match fates with
    | LostBefore :: rest => (None, (h, rest))
    | Busy :: rest => (None, (h, rest))
    | LostAfter :: rest => (None, ((remote_report tx (report_msg rep) h).2, rest))
    | _ =>
        let '(a, h) := remote_report tx (report_msg rep) h in
        (match spoke_Report (Ok a) with Ok reply => Some reply | Err _ => None end, (h, tail fates))
    end
|}.

Lemma remote_report_reply rep (h h' : H) a reply : remote_report tx (report_msg rep) h = (a, h') -> spoke_Report (Ok a) = Ok reply ->
  rp_Report rep h = (Some reply, h') /\ checkReport rep = None.
Proof.
  unfold remote_report. cbn [report_msg m_Report]. destruct (checkReport rep); [by intros [= <- <-]|]. destruct (rp_Report rep h) as [[r|] h1]; intros [= <- <-]; [|done].
  by intros [= <-].
Qed.

(** Over the wire a hub answers as it does in its own process. *)
#[export] Instance remote_lawful log : lawful_reporter H log -> lawful_reporter (H * list fate) (fun hf => log hf.1).
Proof.
  intros L. assert (forall rep hf reply hf', rp_Report (reporter := remote_reporter) rep hf = (Some reply, hf') -> rp_Report rep hf.1 = (Some reply, hf'.1)) as Hr.
  { intros rep [h fates] reply [h' fates']. cbn [rp_Report remote_reporter fst]. destruct (remote_report tx (report_msg rep) h) as [a h1] eqn:E.
    assert (match spoke_Report (Ok a) with Ok reply => Some reply | Err _ => None end = Some reply -> rp_Report rep h = (Some reply, h1)) as Ha.
    { destruct (spoke_Report (Ok a)) eqn:Es; [|done]. intros [= <-]. by apply (remote_report_reply rep h h1 a). }
    destruct fates as [|[] fates]; try done; intros [= Hs <- _]; by apply Ha. }
  split; intros rep hf reply hf' E%Hr; [by apply report_logged|by eapply report_answers].
Qed.
End remote_reporter.

(** ** Needs: remote_hub.go's need, remote_spoke.go's contentOf and ServeBulk *)

Record pendingBatch := MkPending { pb_ops : gmap string Op; pb_content : option (Op -> Z -> result werr reader) }.

(** remoteSide.Apply's first lines. *)
Definition pending_of (b : Batch) (content : option (Op -> Z -> result werr reader)) : pendingBatch :=
  MkPending (foldl (fun ops op => <[o_path op := op]> ops) ∅ (b_ops b)) content.

(** The op a need names, when it is one of the batch. *)
Definition need_op (pb : pendingBatch) (n : wireNeed) : option Op :=
  match pb_ops pb !! o_path (n_Op n) with
  | None => None
  | Some op =>
      if negb (o_rev op =? o_rev (n_Op n)) || negb (Same (o_entry op) (o_entry (n_Op n))) || negb (bool_decide (ekind (o_entry op) = File))
         || (n_Offset n <? 0) || (esize (o_entry op) <? n_Offset n)
      then None else Some op
  end.

(** OpenBulk: none configured, failing, or a connection that takes its header or not. *)
Inductive bulk := NoBulk | BulkFails (e : werr) | HeaderFails (e : werr) | BulkOpens.

(** remoteSide.need: its answer, and what is copied on the bulk connection. *)
Definition need (batches : gmap Z pendingBatch) (ob : bulk) (m : wireMsg) : wireMsg * option reader :=
  match m_Need m with
  | None => (error_msg (plain "sharesync: a need without an op"), None)
  | Some n =>
      match batches !! n_Batch n with
      | None => (error_msg (MkWErr ("sharesync: no batch " +:+ Itoa (n_Batch n) +:+ " is being applied") true), None)
      | Some pb =>
          match pb_content pb with
          | None => (error_msg (MkWErr ("sharesync: no batch " +:+ Itoa (n_Batch n) +:+ " is being applied") true), None)
          | Some content =>
              match need_op pb n with
              | None => (error_msg (plain ("sharesync: " +:+ o_path (n_Op n) +:+ " is not an op of batch " +:+ Itoa (n_Batch n))), None)
              | Some op =>
                  match content op (n_Offset n) with
                  | Err e => (error_msg e, None)
                  | Ok rc =>
                      match inline rc with
                      | Broken e => (error_msg e, None)
                      | Whole data => (data_msg data, None)
                      | Part data rest =>
                          match ob with
                          | NoBulk => (error_msg (plain ("sharesync: " +:+ o_path op +:+ " is over " +:+ Itoa InlineMax +:+ " bytes and no bulk connection reaches the spoke")), None)
                          | BulkFails e | HeaderFails e => (error_msg e, None)
                          | BulkOpens => (bulk_msg, Some (copied (MkReader (data +:+ rd_bytes rest) (rd_err rest))))
                          end
                      end
                  end
              end
          end
      end
  end.

(** contentOf, once the call has its answer and, for a bulk one, [conn] arrived or the
    wait ended. *)
Definition content_of (op : Op) (offset : Z) (a : result werr wireMsg) (conn : result werr reader) : result werr reader :=
  let? a := call_answer a in
  if negb (m_Bulk a) then Ok (MkReader (m_Data a) None)
  else let? r := conn in Ok (limit (wrap64 (esize (o_entry op) - offset)) r).

(** ** Apply, Fetch and Rescan, asked by the hub *)

(** remoteSide.Apply, once the call has its answer. *)
Definition remote_Apply (b : Batch) (a : result werr wireMsg) : result werr (list Result) :=
  let? a := call_answer a in
  if String.eqb (m_T a) msgResults && (length (m_Results a) =? length (b_ops b))%nat then Ok (m_Results a)
  else Err (plain ("sharesync: the spoke answered a " +:+ Itoa (Z.of_nat (length (b_ops b))) +:+ "-op batch with " +:+ Itoa (Z.of_nat (length (m_Results a))) +:+ " results")).

(** Whether remoteSide.Fetch asks for the content inline. *)
Definition fetch_inline (ob : bulk) (e : Entry) (offset : Z) : bool :=
  match ob with NoBulk => true | _ => wrap64 (esize e - offset) <=? InlineMax end.

Definition answered_with (path t : string) : werr := plain ("sharesync: the spoke answered a fetch of " +:+ path +:+ " with " +:+ t).

(** Fetch's two ways, once the answer came. *)
Definition fetched_inline (path : string) (a : result werr wireMsg) : result werr reader :=
  let? a := call_answer a in
  if negb (String.eqb (m_T a) msgData) || m_Bulk a || (InlineMax <? len (m_Data a)) then Err (answered_with path (m_T a))
  else Ok (MkReader (m_Data a) None).

Definition fetched_bulk (path : string) (e : Entry) (offset : Z) (st : result werr wireMsg) (conn : reader) : result werr reader :=
  let? st := call_answer st in
  if negb (String.eqb (m_T st) msgData) || negb (m_Bulk st) then Err (answered_with path (m_T st))
  else Ok (limit (wrap64 (esize e - offset)) conn).

Definition remote_Rescan (a : result werr wireMsg) : option werr :=
  match call_answer a with
  | Err e => Some e
  | Ok a => if String.eqb (m_T a) msgDone then None else Some (plain ("sharesync: the spoke answered a rescan with " +:+ m_T a))
  end.

Section spoke.
Context {T H : Type} `{!sideTree T} `{!reporter H} (tx : texts_of) (urgent : string -> string -> bool) (ReportSize : nat).

(** Spoke.apply. *)
Definition spoke_apply (m : wireMsg) (s : side T H) : wireMsg * side T H :=
  match m_Batch m with
  | None => (error_msg (plain "sharesync: an apply without a batch"), s)
  | Some b =>
      match side_Apply urgent b s with
      | (Err e, s) => (error_msg (tx_tree tx e), s)
      | (Ok results, s) => (results_msg results, s)
      end
  end.

(** Spoke.rescan. *)
Definition spoke_rescan (cancelled : bool) (s : side T H) : wireMsg * side T H :=
  match Rescan ReportSize cancelled s with
  | ([], s) => (msg msgDone, s)
  | (errs, s) => (error_msg (plain (tx_side tx errs)), s)
  end.

(** Spoke.fetch; [fetched] is the side's Fetch. *)
Definition spoke_fetch (fetched : wireGet -> result werr reader) (m : wireMsg) : wireMsg :=
  match m_Get m with
  | None => error_msg (plain "sharesync: a fetch of nothing")
  | Some g =>
      match fetched g with
      | Err e => error_msg e
      | Ok rc =>
          match inline rc with
          | Broken e => error_msg e
          | Part _ _ => error_msg (MkWErr ("sharesync: " +:+ g_Path g +:+ " is over " +:+ Itoa InlineMax +:+ " bytes: fetch it on a bulk connection") true)
          | Whole data => data_msg data
          end
      end
  end.

(** ServeBulk of a get: the status, and the content after it. *)
Definition bulk_get (fetched : wireGet -> result werr reader) (g : wireGet) : wireMsg * option reader :=
  match fetched g with
  | Err e => (error_msg e, None)
  | Ok rc => (bulk_msg, Some (copied rc))
  end.

Definition hintPaths : Z := 256.

(** Side.Hint. *)
Definition side_Hint (root : string) (paths : list string) (s : side T H) : side T H :=
  if negb (existsb (String.eqb root) (st_Roots (sd_tree s))) then s
  else
    let paths := if hintPaths <? Z.of_nat (length paths) then ["."] else paths in
    match List.filter (fun p => String.eqb p "." || validPath p) paths with
    | [] => s
    | marked => mark urgent root marked false s
    end.

(** forwardHints' message. *)
Definition forward_hint (h : Hint) : wireMsg :=
  hint_msg (if hintPaths <? Z.of_nat (length (h_Paths h)) then MkHint (h_Root h) ["."] else h).
End spoke.

(** ** Content crosses the wire whole *)

Lemma inline_parts r data rest : inline r = Part data rest -> MkReader (data +:+ rd_bytes rest) (rd_err rest) = r /\ InlineMax < len (rd_bytes r).
Proof.
  unfold inline. destruct (Z.ltb_spec InlineMax (len (rd_bytes r))) as [Hl|]; [|by destruct (rd_err r)]. cbv zeta. remember (Z.to_nat (InlineMax + 1)) as n eqn:En. intros [= <- <-]. cbn [rd_bytes rd_err]. split; [|done].
  destruct r as [b e]. cbn [rd_bytes rd_err] in *. f_equal. pose proof (take_drop_bytes n b) as Ht. rewrite take_bytes_length, Nat.min_l in Ht by (unfold len in Hl; lia). done.
Qed.

Lemma inline_whole r data : inline r = Whole data -> r = MkReader data None /\ len data <= InlineMax.
Proof.
  unfold inline. destruct (Z.ltb_spec InlineMax (len (rd_bytes r))); [done|]. destruct r as [b [e|]]; cbn [rd_bytes rd_err] in *; [done|]. by intros [= ->].
Qed.

Lemma inline_good b e : inline (MkReader b None) <> Broken e.
Proof. unfold inline. cbn [rd_bytes rd_err]. destruct (InlineMax <? len b); done. Qed.

Lemma take_all s n : (String.length s <= n)%nat -> take_bytes n s = s.
Proof. revert n. induction s as [|a s IH]; intros [|n] Hn; simpl in *; try done; [lia|]. rewrite IH by lia. done. Qed.

Lemma limit_all n b e : n = len b -> limit n (MkReader b e) = MkReader b None.
Proof. intros ->. unfold limit. cbn [rd_bytes]. rewrite Z.leb_refl. unfold len. by rewrite Nat2Z.id, take_all. Qed.

(** The content of an op crosses the wire whole: asked by the spoke for an op of the
    batch it is applying, or by the hub for a file the spoke holds, from any offset,
    inline or on a connection of its own, the bytes the other end reads are those the
    content has; and whatever a spoke asks, it is given only content of a file op of a
    batch the hub is sending it, from an offset within the file. *)
Theorem content_crosses_wire batches ob batch pb content op offset bytes :
  batches !! batch = Some pb -> pb_content pb = Some content -> pb_ops pb !! o_path op = Some op ->
  ekind (o_entry op) = File -> 0 <= offset -> esize (o_entry op) < 2 ^ 63 -> len bytes = esize (o_entry op) - offset ->
  content op offset = Ok (MkReader bytes None) -> ob = BulkOpens \/ len bytes <= InlineMax ->
  (let '(a, conn) := need batches ob (need_msg (MkWireNeed batch op offset)) in
   forall late, content_of op offset (Ok a) (from_option Ok (Err late) conn) = Ok (MkReader bytes None)) /\
  (forall fetched root path, let g := MkWireGet root path (o_entry op) offset in
   fetched g = Ok (MkReader bytes None) ->
   if fetch_inline ob (o_entry op) offset then fetched_inline path (Ok (spoke_fetch fetched (fetch_msg g))) = Ok (MkReader bytes None)
   else exists conn, bulk_get fetched g = (bulk_msg, Some conn) /\ fetched_bulk path (o_entry op) offset (Ok bulk_msg) conn = Ok (MkReader bytes None)) /\
  (forall m a conn, need batches ob m = (a, conn) -> m_T a = msgData ->
   exists n pb c op' rc, m_Need m = Some n /\ batches !! n_Batch n = Some pb /\ pb_content pb = Some c /\ pb_ops pb !! o_path (n_Op n) = Some op' /\
     ekind (o_entry op') = File /\ 0 <= n_Offset n <= esize (o_entry op') /\ c op' (n_Offset n) = Ok rc /\
     (m_Bulk a = false -> rc = MkReader (m_Data a) None) /\ (m_Bulk a = true -> conn = Some (copied rc))).
Proof.
  intros Hb Hc Hop Hk Ho Hsz Hlen Hct Hbulk.
  assert (Same (o_entry op) (o_entry op) = true) as Hsame by (unfold Same; rewrite bool_decide_true, Hk, !Z.eqb_refl, String.eqb_refl by done; done).
  assert (wrap64 (esize (o_entry op) - offset) = len bytes) as Hw.
  { rewrite wrap64_small; [done|]. unfold len in Hlen. lia. }
  assert (need_op pb (MkWireNeed batch op offset) = Some op) as Hn.
  { unfold need_op. cbn [n_Op n_Offset]. rewrite Hop, Z.eqb_refl, Hsame, bool_decide_true by done. cbn [negb orb].
    destruct (Z.ltb_spec offset 0); [lia|]. destruct (Z.ltb_spec (esize (o_entry op)) offset); [unfold len in Hlen; lia|done]. }
  split_and!.
  - unfold need. cbn [need_msg m_Need n_Batch]. rewrite Hb, Hc, Hn. cbn [n_Offset]. rewrite Hct. destruct (inline (MkReader bytes None)) as [data|data rest|e] eqn:Ei.
    + apply inline_whole in Ei as [[= ->] _]. done.
    + apply inline_parts in Ei as [Ei Hl]. destruct Hbulk as [->|]; [|cbn [rd_bytes] in Hl; lia]. intros late. cbn [from_option]. unfold content_of, call_answer. cbn.
      rewrite Hw. unfold copied. rewrite Ei. cbn [rd_bytes]. by rewrite limit_all.
    + by destruct (inline_good bytes e).
  - intros fetched root path g Hg. unfold fetch_inline. assert (inline (MkReader bytes None) = Whole bytes \/ ob = BulkOpens /\ InlineMax < len bytes) as Hi.
    { unfold inline. cbn [rd_bytes rd_err]. destruct (Z.ltb_spec InlineMax (len bytes)); [right; split; [destruct Hbulk; [done|lia]|done]|by left]. }
    rewrite Hw. destruct Hi as [Hi|[-> Hl]].
    + pose proof (inline_whole _ _ Hi) as [_ Hl]. assert ((match ob with NoBulk => true | _ => len bytes <=? InlineMax end) = true) as -> by (destruct ob; [done|by apply Z.leb_le..]).
      unfold fetched_inline, spoke_fetch. cbn [fetch_msg m_Get]. rewrite Hg, Hi. cbn. destruct (Z.ltb_spec InlineMax (len bytes)); [lia|done].
    + destruct (Z.leb_spec (len bytes) InlineMax); [lia|]. unfold bulk_get. rewrite Hg. eexists. split; [done|]. unfold fetched_bulk, call_answer, copied. cbn [rd_bytes]. cbn -[limit wrap64]. by rewrite Hw, limit_all.
  - intros m a conn. unfold need. destruct (m_Need m) as [n|]; [|by intros [= <- <-]]. destruct (batches !! n_Batch n) as [pb'|] eqn:Eb; [|by intros [= <- <-]].
    destruct (pb_content pb') as [c|] eqn:Ec; [|by intros [= <- <-]]. destruct (need_op pb' n) as [op'|] eqn:En; [|by intros [= <- <-]].
    unfold need_op in En. destruct (pb_ops pb' !! o_path (n_Op n)) as [op2|] eqn:Eo; [|done].
    destruct (_ || _) eqn:Eg in En; [done|]. injection En as ->. bool_hyps. destruct (c op' (n_Offset n)) as [rc|] eqn:Erc; [|by intros [= <- <-]].
    intros Hres Ht. exists n, pb', c, op', rc. split_and!; [done..|lia|done| |].
    all: revert Hres; destruct (inline rc) as [data|data rest|e] eqn:Ei; [|destruct ob|]; intros [= <- <-]; try done; intros _.
    + by apply inline_whole in Ei as [-> _].
    + apply inline_parts in Ei as [-> _]. done.
Qed.
