(* ===== verification/RemoteSession.v ===== *)
(** * A session between the hub and a spoke (internal/sharesync/remote.go: wire;
      remote_hub.go and remote_spoke.go: read, applyLoop)

    The two ends of a connection as they run: calls made by any number of goroutines,
    requests served at the same time and answered in any order, calls given up, and the
    connection failing, all interleaved. *)

From S2P Require Import Prelude GoStrings GoText Sha256 Entry Mergers Journal HubState HubCommit HubInvariants HubProcess HubDispatch HubApi SafeFs SideTree SideApply SideFetch SideScan SideDriver SideHub Wire Remote.
Local Open Scope string_scope.
Local Open Scope Z_scope.
Local Open Scope list_scope.

(** ** One end's calls *)

(** wire: the last id, the calls that wait, the answers handed to calls, and whether
    the connection ended here. *)
Record wire := MkWire { w_next : Z; w_calls : gset Z; w_chans : gmap Z wireMsg; w_failed : bool }.

Definition newWire : wire := MkWire 0 ∅ ∅ false.

(** wire.id. *)
Definition wire_id (w : wire) : Z * wire := (u64 (w_next w + 1), MkWire (u64 (w_next w + 1)) (w_calls w) (w_chans w) (w_failed w)).

(** The part of wire.call that registers the call. *)
Definition register (id : Z) (w : wire) : wire := MkWire (w_next w) ({[id]} ∪ w_calls w) (w_chans w) (w_failed w).

(** A call given up. *)
Definition drop_call (id : Z) (w : wire) : wire := MkWire (w_next w) (w_calls w ∖ {[id]}) (delete id (w_chans w)) (w_failed w).

(** A call that takes its answer. *)
Definition take_answer (id : Z) (w : wire) : wire := MkWire (w_next w) (w_calls w) (delete id (w_chans w)) (w_failed w).

(** wire.deliver. *)
Definition deliver (m : wireMsg) (w : wire) : bool * wire :=
  if bool_decide (m_ID m ∈ w_calls w) then (true, MkWire (w_next w) (w_calls w ∖ {[m_ID m]}) (<[m_ID m := m]> (w_chans w)) (w_failed w))
  else (false, w).

(** wire.fail. *)
Definition fail (w : wire) : wire := MkWire (w_next w) ∅ (w_chans w) true.

(** ** One end *)

Record endpoint := MkEnd {
  e_wire : wire;
  e_ids : gset Z;                     (* ids handed out whose call is still to be made *)
  e_jobs : list wireMsg;              (* requests being served, or waiting to be *)
  e_attached : bool;                  (* the hub's: the whole hello came *)
  e_sent : list wireMsg;              (* the calls made *)
  e_served : list wireMsg;            (* the requests answered *)
  e_got : list (Z * wireMsg)          (* the answers calls returned with *)
}.

Definition newEnd : endpoint := MkEnd newWire ∅ [] false [] [] [].

Definition set_wire (e : endpoint) (w : wire) : endpoint := MkEnd w (e_ids e) (e_jobs e) (e_attached e) (e_sent e) (e_served e) (e_got e).

(** What a reader does with a request. *)
Inductive verdict :=
| Take                     (* a goroutine, or the queue, serves it *)
| Reject (a : wireMsg)     (* answered at once *)
| Pass                     (* taken without an answer *)
| Hangup.                  (* the connection is ended *)

Definition of_type (t : string) (m : wireMsg) : bool := String.eqb (m_T m) t.

Definition serving (t : string) (jobs : list wireMsg) : Z := Z.of_nat (length (List.filter (of_type t) jobs)).

Definition errBusy : werr := plain "sharesync: the hub is serving as many of the spoke's calls as it takes at once; try again".

(** remoteSide.read's switch. *)
Definition hub_verdict (e : endpoint) (m : wireMsg) : verdict :=
  if of_type msgHello m then
    if e_attached e then Hangup else if m_ID m =? 0 then Pass else Take
  else if of_type msgReport m then
    if maxRemoteReports <? serving msgReport (e_jobs e) + 1 then Reject (error_msg errBusy) else Take
  else if of_type msgNeed m then
    if maxRemoteNeeds <? serving msgNeed (e_jobs e) + 1 then Reject (error_msg errBusy) else Take
  else if m_ID m =? 0 then Pass
  else Reject (error_msg (plain ("sharesync: the hub does not take " +:+ m_T m))).

(** Spoke.read's switch. *)
Definition spoke_verdict (_ : endpoint) (m : wireMsg) : verdict :=
  if of_type msgApply m || of_type msgFetch m || of_type msgRescan m then Take
  else if of_type msgHint m then Pass
  else if m_ID m =? 0 then Pass
  else Reject (error_msg (plain ("sharesync: the spoke does not take " +:+ m_T m))).

(** What an end does: the calls it makes and the messages it sends without one, how it takes requests, what it answers them,
    and which it serves in the order they came. *)
Record role := MkRole {
  ro_makes : string -> bool;
  ro_notes : string -> bool;
  ro_verdict : endpoint -> wireMsg -> verdict;
  ro_answers : wireMsg -> wireMsg -> Prop;
  ro_ordered : wireMsg -> bool
}.

Section ends.
Context (ro : role).

(** A step of an end: its state, the messages that reach it, and those it sent. *)
Inductive estep : endpoint * list wireMsg * list wireMsg -> endpoint * list wireMsg * list wireMsg -> Prop :=
| es_id e i o :
    w_next (e_wire e) + 1 < 2 ^ 64 ->
    estep (e, i, o) (MkEnd (wire_id (e_wire e)).2 ({[(wire_id (e_wire e)).1]} ∪ e_ids e) (e_jobs e) (e_attached e) (e_sent e) (e_served e) (e_got e), i, o)
| es_call e i o id m :
    w_failed (e_wire e) = false -> id ∈ e_ids e -> ro_makes ro (m_T m) = true ->
    estep (e, i, o) (MkEnd (register id (e_wire e)) (e_ids e ∖ {[id]}) (e_jobs e) (e_attached e) (e_sent e ++ [with_id id m]) (e_served e) (e_got e),
                     i, o ++ [with_id id m])
| es_send e i o m :
    w_failed (e_wire e) = false -> m_ID m = 0 -> ro_notes ro (m_T m) = true ->
    estep (e, i, o) (e, i, o ++ [m])
| es_answer e m i o :
    w_failed (e_wire e) = false -> answers_call (m_T m) = true ->
    estep (e, m :: i, o) (set_wire e (deliver m (e_wire e)).2, i, o)
| es_take e m i o :
    w_failed (e_wire e) = false -> answers_call (m_T m) = false -> ro_verdict ro e m = Take ->
    estep (e, m :: i, o) (MkEnd (e_wire e) (e_ids e) (e_jobs e ++ [m]) (e_attached e) (e_sent e) (e_served e) (e_got e), i, o)
| es_reject e m i o a :
    w_failed (e_wire e) = false -> answers_call (m_T m) = false -> ro_verdict ro e m = Reject a ->
    estep (e, m :: i, o) (MkEnd (e_wire e) (e_ids e) (e_jobs e) (e_attached e) (e_sent e) (e_served e ++ [m]) (e_got e), i, o ++ [with_id (m_ID m) a])
| es_pass e m i o :
    w_failed (e_wire e) = false -> answers_call (m_T m) = false -> ro_verdict ro e m = Pass ->
    estep (e, m :: i, o) (e, i, o)
| es_hangup e m i o :
    w_failed (e_wire e) = false -> answers_call (m_T m) = false -> ro_verdict ro e m = Hangup ->
    estep (e, m :: i, o) (set_wire e (fail (e_wire e)), m :: i, o)
| es_attach e i o :
    estep (e, i, o) (MkEnd (e_wire e) (e_ids e) (e_jobs e) true (e_sent e) (e_served e) (e_got e), i, o)
| es_serve e l1 m l2 i o a :
    w_failed (e_wire e) = false -> e_jobs e = l1 ++ m :: l2 -> (ro_ordered ro m = true -> List.filter (ro_ordered ro) l1 = []) ->
    ro_answers ro m a -> answers_call (m_T a) = true ->
    estep (e, i, o) (MkEnd (e_wire e) (e_ids e) (l1 ++ l2) (e_attached e) (e_sent e) (e_served e ++ [m]) (e_got e), i, o ++ [with_id (m_ID m) a])
| es_return e i o id a :
    w_chans (e_wire e) !! id = Some a ->
    estep (e, i, o) (MkEnd (take_answer id (e_wire e)) (e_ids e) (e_jobs e) (e_attached e) (e_sent e) (e_served e) (e_got e ++ [(id, a)]), i, o)
| es_giveup e i o id :
    estep (e, i, o) (set_wire e (drop_call id (e_wire e)), i, o)
| es_fail e i o :
    estep (e, i, o) (set_wire e (fail (e_wire e)), i, o).
End ends.

(** ** The session *)

Record session := MkSession { s_hub : endpoint; s_spoke : endpoint; s_up : list wireMsg; s_down : list wireMsg }.

Definition new_session : session := MkSession newEnd newEnd [] [].

Inductive sstep (hub spoke : role) : session -> session -> Prop :=
| ss_hub h h' sp up up' down down' :
    estep hub (h, up, down) (h', up', down') -> sstep hub spoke (MkSession h sp up down) (MkSession h' sp up' down')
| ss_spoke h sp sp' up up' down down' :
    estep spoke (sp, down, up) (sp', down', up') -> sstep hub spoke (MkSession h sp up down) (MkSession h sp' up' down').

(** Reads the fields of an end a step made. *)
Ltac ends := cbn [set_wire fst snd e_wire e_ids e_jobs e_attached e_sent e_served e_got fail drop_call take_answer w_next w_calls w_chans w_failed].

(** ** What holds between a caller and a server *)

Definition is_call (m : wireMsg) : bool := negb (answers_call (m_T m)) && negb (m_ID m =? 0).

(** Two roles fit: the server takes the calls the caller makes. *)
Record fits (X Y : role) : Prop := {
  fit_reject e m a : ro_verdict Y e m = Reject a -> ro_answers Y m a /\ answers_call (m_T a) = true;
  fit_makes t : ro_makes X t = true \/ ro_notes X t = true -> answers_call t = false;
  fit_pass e m : ro_makes X (m_T m) = true -> m_ID m <> 0 -> ro_verdict Y e m <> Pass;
  fit_order e m : ro_ordered Y m = true -> ro_verdict Y e m = Take /\ answers_call (m_T m) = false /\ ro_notes X (m_T m) = false
}.

Record link (X Y : role) (x y : endpoint) (xy yx : list wireMsg) : Prop := {
  lk_next : 0 <= w_next (e_wire x);
  lk_ids id : id ∈ e_ids x -> 0 < id <= w_next (e_wire x) /\ id ∉ map m_ID (e_sent x);
  lk_range m : m ∈ e_sent x -> 0 < m_ID m <= w_next (e_wire x) /\ ro_makes X (m_T m) = true;
  lk_once : NoDup (map m_ID (e_sent x));
  lk_calls id : id ∈ w_calls (e_wire x) -> 0 < id;
  lk_served : Forall (fun m => answers_call (m_T m) = false) (e_served y ++ e_jobs y);
  lk_sent : e_sent x ≡ₚ List.filter is_call (e_served y ++ e_jobs y ++ xy);
  lk_order : List.filter (ro_ordered Y) (e_sent x) = List.filter (ro_ordered Y) (e_served y ++ e_jobs y ++ xy);
  lk_answer a : a ∈ yx -> answers_call (m_T a) = true -> exists req a0, req ∈ e_served y /\ a = with_id (m_ID req) a0 /\ ro_answers Y req a0;
  lk_chan id a : w_chans (e_wire x) !! id = Some a \/ (id, a) ∈ e_got x ->
    exists req a0, req ∈ e_sent x /\ m_ID req = id /\ a = with_id id a0 /\ ro_answers Y req a0;
  lk_wait id : id ∈ w_calls (e_wire x) ->
    (exists m, m ∈ e_jobs y ++ xy /\ is_call m = true /\ m_ID m = id) \/ (exists a, a ∈ yx /\ answers_call (m_T a) = true /\ m_ID a = id)
}.

Section link.
Context (X Y : role) (F : fits X Y).

Lemma is_call_with id m : answers_call (m_T m) = false -> 0 < id -> is_call (with_id id m) = true.
Proof. intros Ha Hi. unfold is_call. cbn [with_id m_T m_ID]. rewrite Ha. by destruct (Z.eqb_spec id 0); [lia|]. Qed.

Lemma link_call x y xy yx id m : link X Y x y xy yx -> id ∈ e_ids x -> ro_makes X (m_T m) = true ->
  link X Y (MkEnd (register id (e_wire x)) (e_ids x ∖ {[id]}) (e_jobs x) (e_attached x) (e_sent x ++ [with_id id m]) (e_served x) (e_got x)) y (xy ++ [with_id id m]) yx.
Proof.
  intros [] Hid Hm. destruct (lk_ids0 id Hid) as [Hr Hfresh]. assert (answers_call (m_T m) = false) as Ha by (apply (fit_makes X Y F); auto).
  split; cbn [register w_next w_calls w_chans e_wire e_ids e_sent e_got]; [done| | | | |done| | |done| |].
  - intros id' [Hi Hne]%elem_of_difference. destruct (lk_ids0 id' Hi) as [? Hn]. split; [done|]. rewrite map_app, elem_of_app. cbn. set_solver.
  - intros m' [Hm'| ->%list_elem_of_singleton]%elem_of_app; [by apply lk_range0|done].
  - rewrite map_app. apply NoDup_app. split_and!; [done| |apply NoDup_singleton]. cbn. intros i Hi ->%list_elem_of_singleton. done.
  - intros id'. set_solver by lia.
  - rewrite 2!(app_assoc _ _ [with_id id m]), List.filter_app, <- lk_sent0. cbn [List.filter]. by rewrite is_call_with by (done || lia).
  - by rewrite List.filter_app, lk_order0, <- List.filter_app, <- !app_assoc.
  - intros id' a Hg. destruct (lk_chan0 id' a Hg) as (req & a0 & ? & ?). exists req, a0. split; [by apply elem_of_app; left|done].
  - intros id' [->%elem_of_singleton|Hi]%elem_of_union.
    + left. exists (with_id id m). split_and!; [rewrite app_assoc; apply elem_of_app; right; by left| |done]. apply is_call_with; [done|lia].
    + destruct (lk_wait0 id' Hi) as [(m' & Hm' & ?)|?]; [left|by right]. exists m'. split; [|done]. rewrite app_assoc. by apply elem_of_app; left.
Qed.

(** The caller's own bookkeeping, and messages that come to it. *)
Lemma link_frame x x' y xy yx yx' : link X Y x y xy yx ->
  w_next (e_wire x') = w_next (e_wire x) -> e_ids x' = e_ids x -> e_sent x' = e_sent x ->
  (forall id, id ∈ w_calls (e_wire x') -> id ∈ w_calls (e_wire x)) ->
  (forall id a, w_chans (e_wire x') !! id = Some a \/ (id, a) ∈ e_got x' -> w_chans (e_wire x) !! id = Some a \/ (id, a) ∈ e_got x) ->
  (forall a, a ∈ yx' -> a ∈ yx) -> (forall a, a ∈ yx -> answers_call (m_T a) = true -> a ∈ yx' \/ m_ID a ∉ w_calls (e_wire x')) ->
  link X Y x' y xy yx'.
Proof.
  intros [] En Ei Es Hc Hch Hyx Hans. split; rewrite ?En, ?Ei, ?Es; auto. intros id Hi. destruct (lk_wait0 id (Hc id Hi)) as [?|(a & Ha & Hta & Hia)]; [by left|right].
  exists a. destruct (Hans a Ha Hta) as [?|Hn]; [done|]. by rewrite Hia in Hn.
Qed.

(** An answer handed to its call. *)
Lemma link_deliver x y xy m yx : link X Y x y xy (m :: yx) -> answers_call (m_T m) = true -> link X Y (set_wire x (deliver m (e_wire x)).2) y xy yx.
Proof.
  intros L Ha. unfold deliver. case_bool_decide as Hin.
  - destruct (lk_answer _ _ _ _ _ _ L m) as (req & a0 & Hreq & Em & Hans); [by left|done|].
    assert (req ∈ e_sent x) as Hsent.
    { rewrite (lk_sent _ _ _ _ _ _ L), list_elem_of_In, List.filter_In, <- list_elem_of_In, elem_of_app. split; [by left|]. unfold is_call.
      pose proof (lk_served _ _ _ _ _ _ L) as Hs. rewrite Forall_forall in Hs. rewrite Hs by (apply elem_of_app; by left).
      pose proof (lk_calls _ _ _ _ _ _ L _ Hin) as Hp. rewrite Em in Hp. cbn [with_id m_ID] in Hp. by destruct (Z.eqb_spec (m_ID req) 0); [lia|]. }
    destruct L. split; cbn [set_wire snd e_wire w_next w_calls w_chans e_ids e_sent e_got]; auto.
    + intros id [? _]%elem_of_difference. auto.
    + intros a Hy. apply lk_answer0. by right.
    + intros id a [Hl|Hg]; [|apply lk_chan0; by right]. apply lookup_insert_Some in Hl as [[<- <-]|[_ Hl]]; [|apply lk_chan0; by left].
      exists req, a0. rewrite Em. by cbn [with_id m_ID].
    + intros id [Hi Hne]%elem_of_difference. destruct (lk_wait0 id Hi) as [?|(a & [->|?]%elem_of_cons & ? & Hia)]; [by left|set_solver|right; eauto].
  - eapply link_frame; [exact L|done..| |]; ends; [by right|]. intros a [->|?]%elem_of_cons _; [by right|by left].
Qed.

(** Messages of the caller that are no calls. *)
Lemma link_noise x y xy yx m : link X Y x y xy yx -> is_call m = false -> ro_ordered Y m = false -> link X Y x y (xy ++ [m]) yx.
Proof.
  intros [] Hc Ho. split; auto.
  - rewrite !app_assoc, List.filter_app. cbn [List.filter]. by rewrite Hc, app_nil_r, <- app_assoc.
  - rewrite lk_order0, !app_assoc, (List.filter_app _ _ [m]). cbn [List.filter]. by rewrite Ho, app_nil_r.
  - intros id Hi. destruct (lk_wait0 id Hi) as [(m' & Hm & ?)|?]; [left; exists m'|by right]. split; [|done]. rewrite app_assoc. apply elem_of_app. by left.
Qed.

Lemma answer_noise a : answers_call (m_T a) = true -> is_call a = false /\ ro_ordered Y a = false.
Proof.
  intros Ha. unfold is_call. rewrite Ha. split; [done|]. apply not_true_is_false. intros Ho. destruct (fit_order X Y F newEnd a Ho) as (_ & ? & _). congruence.
Qed.

Lemma link_caller x y xy yx x' yx' xy' (FX : forall e m a, ro_verdict X e m = Reject a -> answers_call (m_T a) = true) :
  link X Y x y xy yx -> estep X (x, yx, xy) (x', yx', xy') -> link X Y x' y xy' yx'.
Proof.
  intros L S. inversion S; subst; clear S.
  - destruct L. unfold wire_id. cbn [fst snd]. rewrite u64_small by lia. split; cbn [e_wire w_next w_calls w_chans e_ids e_sent e_got]; auto; [lia| |].
    + intros id [->%elem_of_singleton|Hi]%elem_of_union.
      * split; [lia|]. intros (m & E & Hm)%list_elem_of_fmap. destruct (lk_range0 m Hm). lia.
      * destruct (lk_ids0 id Hi). split; [lia|done].
    + intros m Hm. destruct (lk_range0 m Hm). split; [lia|done].
  - by apply link_call.
  - apply link_noise; [done| |]. { unfold is_call. replace (m_ID m) with 0 by done. simpl. apply andb_false_r. }
    apply not_true_is_false. intros Ho. destruct (fit_order X Y F newEnd m Ho) as (_ & _ & ?). congruence.
  - by apply link_deliver.
  - eapply link_frame; [exact L|done..| |]; ends; [by right|]. intros a [->|?]%elem_of_cons ?; [congruence|by left].
  - destruct (answer_noise (with_id (m_ID m) a)) as [Hn1 Hn2]; [by apply (FX x m a)|]. apply (link_noise _ y xy yx'); [|done..].
    eapply link_frame; [exact L|done..| |]; ends; [by right|]. intros a' [->|?]%elem_of_cons ?; [congruence|by left].
  - eapply link_frame; [exact L|done..| |]; ends; [by right|]. intros a [->|?]%elem_of_cons ?; [congruence|by left].
  - eapply link_frame; [exact L|done..| | | |]; ends; [set_solver|done|done|by left].
  - eapply link_frame; [exact L|done..|]; ends; by left.
  - destruct (answer_noise (with_id (m_ID m) a)) as [Hn1 Hn2]; [done|]. apply (link_noise _ y xy yx'); [|done..]. eapply link_frame; [exact L|done..|]; ends; by left.
  - eapply link_frame; [exact L|done..| | |]; ends; [|done|by left]. intros id' a'. rewrite lookup_delete_Some, elem_of_app, list_elem_of_singleton.
    intros [[_ ?]|[?|[= -> ->]]]; [by left|by right|by left].
  - eapply link_frame; [exact L|done..| | | |]; ends; [set_solver| |done|by left]. intros id' a'. rewrite lookup_delete_Some. intros [[_ ?]|?]; [by left|by right].
  - eapply link_frame; [exact L|done..| | | |]; ends; [set_solver|done|done|by left].
Qed.

(** Messages of the server that are no answers; its own bookkeeping. *)
Lemma link_server_frame x y y' xy yx yx' : link X Y x y xy yx -> e_served y' = e_served y -> e_jobs y' = e_jobs y ->
  (yx' = yx \/ exists m, yx' = yx ++ [m] /\ answers_call (m_T m) = false) -> link X Y x y' xy yx'.
Proof.
  intros [] Es Ej Hyx. assert (forall a, answers_call (m_T a) = true -> a ∈ yx' <-> a ∈ yx) as Hin.
  { intros a Ha. destruct Hyx as [->|(m & -> & Hm)]; [done|]. rewrite elem_of_app, list_elem_of_singleton. split; [|by left]. intros [?| ->]; [done|congruence]. }
  split; rewrite ?Es, ?Ej; auto.
  - intros a Hy Ha. apply lk_answer0; [by apply Hin|done].
  - intros id Hi. destruct (lk_wait0 id Hi) as [?|(a & Hy & Ha & ?)]; [by left|right]. exists a. split_and!; [by apply Hin|done..].
Qed.

(** The server takes a message off the channel, which is no call. *)
Lemma link_skip x y m xy yx : link X Y x y (m :: xy) yx -> is_call m = false -> ro_ordered Y m = false -> link X Y x y xy yx.
Proof.
  intros [] Hc Ho. split; auto.
  - rewrite lk_sent0, !List.filter_app. cbn [List.filter]. by rewrite Hc.
  - rewrite lk_order0, !List.filter_app. cbn [List.filter]. by rewrite Ho.
  - intros id Hi. destruct (lk_wait0 id Hi) as [(m' & Hm & Hmc & ?)|?]; [left; exists m'|by right]. split; [|done].
    rewrite elem_of_app, elem_of_cons in Hm. rewrite elem_of_app. destruct Hm as [?|[->|?]]; [by left|congruence|by right].
Qed.

(** It takes a request on. *)
Lemma link_take x y m xy yx y' : link X Y x y (m :: xy) yx -> answers_call (m_T m) = false -> e_served y' = e_served y -> e_jobs y' = e_jobs y ++ [m] -> link X Y x y' xy yx.
Proof.
  intros [] Ha Es Ej. split; rewrite ?Es, ?Ej, <- ?app_assoc; auto. rewrite app_assoc. apply Forall_app. by split; [|constructor].
Qed.

(** It answers a request that it has on, or that is first on the channel. *)
Lemma link_answer x y y' l1 m l2 xy xy' yx a : link X Y x y xy yx -> answers_call (m_T m) = false ->
  e_jobs y ++ xy = l1 ++ m :: l2 -> e_served y' = e_served y ++ [m] -> e_jobs y' ++ xy' = l1 ++ l2 -> (forall m', m' ∈ e_jobs y' -> m' ∈ e_jobs y) ->
  (ro_ordered Y m = true -> List.filter (ro_ordered Y) l1 = []) -> ro_answers Y m a -> answers_call (m_T a) = true ->
  link X Y x y' xy' (yx ++ [with_id (m_ID m) a]).
Proof.
  intros [] Hm Ej Es Ej' Hsub Ho Hans Ha. split; rewrite ?Es, <- ?app_assoc, ?Ej'; auto.
  - rewrite Forall_app in lk_served0. destruct lk_served0 as [H1 H2]. apply Forall_app. split; [done|]. constructor; [done|]. rewrite Forall_forall in H2 |- *. auto.
  - rewrite lk_sent0, Ej, !List.filter_app. apply Permutation_app_head. rewrite <- !List.filter_app.
    assert (forall l l' : list wireMsg, l ≡ₚ l' -> List.filter is_call l ≡ₚ List.filter is_call l') as Hp.
    { induction 1; cbn [List.filter]; [done|by case_match; [constructor|]| |by etrans]. repeat case_match; try done. constructor. }
    apply Hp. cbn. by rewrite Permutation_middle.
  - rewrite lk_order0, Ej, !List.filter_app. f_equal. cbn [List.filter app]. destruct (ro_ordered Y m); [|done]. by rewrite Ho.
  - intros a' [Hy| ->%list_elem_of_singleton]%elem_of_app Ha'; [|by exists m, a; split; [apply elem_of_app; right; by left|]].
    destruct (lk_answer0 a' Hy Ha') as (req & a0 & ? & ?). exists req, a0. split; [by apply elem_of_app; left|done].
  - intros id Hi. destruct (lk_wait0 id Hi) as [(m' & Hm' & Hmc & Hmi)|(a' & ? & ?)]; [|by right; exists a'; split; [apply elem_of_app; left|]].
    rewrite Ej, elem_of_app, elem_of_cons in Hm'. destruct Hm' as [?|[->|?]]; [left; exists m'; rewrite elem_of_app; by split; [left|]| |left; exists m'; rewrite elem_of_app; by split; [right|]].
    right. exists (with_id (m_ID m) a). split; [apply elem_of_app; right; by left|]. by cbn [with_id m_T m_ID].
Qed.

Lemma link_server x y xy yx y' xy' yx' (FY : forall t, ro_makes Y t = true \/ ro_notes Y t = true -> answers_call t = false) :
  link X Y x y xy yx -> estep Y (y, xy, yx) (y', xy', yx') -> link X Y x y' xy' yx'.
Proof.
  intros L S. inversion S; subst; clear S.
  - by eapply link_server_frame; [exact L|..]; auto.
  - eapply link_server_frame; [exact L|done|done|]. right. eexists. split; [done|]. cbn [with_id m_T]. auto.
  - eapply link_server_frame; [exact L|done|done|]. right. eexists. split; [done|]. auto.
  - apply (link_server_frame x y _ xy' yx'); [|done|done|by left]. destruct (answer_noise m) as [??]; [done|]. by eapply link_skip.
  - by eapply link_take; [exact L|..].
  - destruct (fit_reject X Y F _ _ _ ltac:(eassumption)) as [??]. eapply (link_answer x y _ (e_jobs y) m xy'); [exact L|done|done|done|done|done| |done|done].
    intros Ho. destruct (fit_order X Y F y m Ho) as [? _]. congruence.
  - assert (ro_ordered Y m = false) as Ho by (apply not_true_is_false; intros Ho; destruct (fit_order X Y F y' m Ho) as [? _]; congruence).
    eapply link_skip; [exact L| |done]. apply not_true_is_false. intros Hc.
    assert (m ∈ e_sent x) as Hm.
    { rewrite (lk_sent _ _ _ _ _ _ L), list_elem_of_In, List.filter_In, <- list_elem_of_In, !elem_of_app, elem_of_cons. tauto. }
    destruct (lk_range _ _ _ _ _ _ L m Hm) as [? Hmk]. by apply (fit_pass X Y F y' m Hmk); [lia|].
  - by eapply link_server_frame; [exact L|..]; auto.
  - by eapply link_server_frame; [exact L|..]; auto.
  - pose proof (lk_served _ _ _ _ _ _ L) as Hs. rewrite Forall_app in Hs. destruct Hs as [_ Hs]. rewrite Forall_forall in Hs.
    match goal with E : e_jobs y = l1 ++ m :: l2 |- _ => rename E into Ej end.
    eapply (link_answer x y _ l1 m (l2 ++ xy')); [exact L|apply Hs; rewrite Ej; set_solver|by rewrite Ej, <- app_assoc|done|ends; by rewrite app_assoc| |done|done|done].
    ends. intros m'. rewrite Ej. set_solver.
  - by eapply link_server_frame; [exact L|..]; auto.
  - by eapply link_server_frame; [exact L|..]; auto.
  - by eapply link_server_frame; [exact L|..]; auto.
Qed.
End link.

(** ** The hub and the spoke *)

Section session.
Context {T H : Type} `{!sideTree T} `{!reporter H} (tx : texts_of) (urgent : string -> string -> bool) (ReportSize : nat).

(** What the hub answers a spoke's request: what serving it gives in some state, or what
    its reader rejects it with. *)
Definition hub_answers (m a : wireMsg) : Prop :=
  of_type msgReport m = true /\ (exists h : H, a = (remote_report tx m h).1) \/
  of_type msgNeed m = true /\ (exists batches ob, a = (need batches ob m).1) \/
  of_type msgHello m = true /\ ((exists w, a = welcome_msg w) \/ exists err, a = refused_msg err) \/
  exists e, hub_verdict e m = Reject a.

Definition spoke_answers (m a : wireMsg) : Prop :=
  of_type msgApply m = true /\ (exists s : side T H, a = (spoke_apply tx urgent m s).1) \/
  of_type msgFetch m = true /\ (exists fetched, a = spoke_fetch fetched m) \/
  of_type msgRescan m = true /\ (exists cancelled (s : side T H), a = (spoke_rescan tx ReportSize cancelled s).1) \/
  exists e, spoke_verdict e m = Reject a.

Definition any_of (ts : list string) (t : string) : bool := existsb (String.eqb t) ts.

Definition hub_role : role := MkRole (any_of [msgApply; msgFetch; msgRescan]) (any_of [msgHint]) hub_verdict hub_answers (fun _ => false).
Definition spoke_role : role := MkRole (any_of [msgHello; msgReport; msgNeed]) (any_of [msgHello]) spoke_verdict spoke_answers (of_type msgApply).

Lemma any_of_true ts t : any_of ts t = true <-> t ∈ ts.
Proof. unfold any_of. rewrite existsb_exists. setoid_rewrite String.eqb_eq. setoid_rewrite <- list_elem_of_In. naive_solver. Qed.

Lemma hub_rejects e m a : hub_verdict e m = Reject a -> exists err, a = error_msg err.
Proof. unfold hub_verdict. repeat case_match; intros [= <-]; eauto. Qed.

Lemma spoke_rejects e m a : spoke_verdict e m = Reject a -> exists err, a = error_msg err.
Proof. unfold spoke_verdict. repeat case_match; intros [= <-]; eauto. Qed.

Lemma not_answers ts t : Forall (fun t => answers_call t = false) ts -> any_of ts t = true -> answers_call t = false.
Proof. rewrite any_of_true, Forall_forall. auto. Qed.

Lemma spoke_calls_hub : fits spoke_role hub_role.
Proof.
  split; cbn [ro_verdict ro_answers ro_makes ro_notes ro_ordered spoke_role hub_role].
  - intros e m a Hv. split; [do 3 right; by exists e|]. by apply hub_rejects in Hv as [err ->].
  - intros t [Ht|Ht]; eapply not_answers; [|exact Ht| |exact Ht]; by repeat constructor.
  - intros e m Hm Hid. apply any_of_true in Hm. unfold hub_verdict, of_type. rewrite !elem_of_cons in Hm.
    destruct Hm as [->|[->|[->|[]%elem_of_nil]]]; cbn [String.eqb Ascii.eqb Bool.eqb msgHello msgReport msgNeed]; repeat case_match; bool_hyps; try done.
  - done.
Qed.

Lemma hub_calls_spoke : fits hub_role spoke_role.
Proof.
  split; cbn [ro_verdict ro_answers ro_makes ro_notes ro_ordered spoke_role hub_role].
  - intros e m a Hv. split; [do 3 right; by exists e|]. by apply spoke_rejects in Hv as [err ->].
  - intros t [Ht|Ht]; eapply not_answers; [|exact Ht| |exact Ht]; by repeat constructor.
  - intros e m Hm Hid. apply any_of_true in Hm. unfold spoke_verdict, of_type. rewrite !elem_of_cons in Hm.
    destruct Hm as [->|[->|[->|[]%elem_of_nil]]]; done.
  - intros e m Ho. unfold spoke_verdict. rewrite Ho. unfold of_type in Ho. apply String.eqb_eq in Ho. by rewrite Ho.
Qed.

(** Both directions of a session. *)
Definition linked (s : session) : Prop :=
  link spoke_role hub_role (s_spoke s) (s_hub s) (s_up s) (s_down s) /\ link hub_role spoke_role (s_hub s) (s_spoke s) (s_down s) (s_up s).

Lemma new_linked : linked new_session.
Proof. split; (split; try done; try (by constructor); cbn; set_solver). Qed.

Lemma step_linked s s' : sstep hub_role spoke_role s s' -> linked s -> linked s'.
Proof.
  assert (forall e m a, ro_verdict hub_role e m = Reject a -> answers_call (m_T a) = true) as FH by (intros e m a [err ->]%hub_rejects; done).
  assert (forall e m a, ro_verdict spoke_role e m = Reject a -> answers_call (m_T a) = true) as FS by (intros e m a [err ->]%spoke_rejects; done).
  intros [h h' sp up up' down down' E|h sp sp' up up' down down' E] [L1 L2]; split; cbn [s_hub s_spoke s_up s_down] in *.
  - by eapply (link_server _ _ spoke_calls_hub); [apply (fit_makes _ _ hub_calls_spoke)|exact L1|].
  - by eapply (link_caller _ _ hub_calls_spoke); [|exact L2|].
  - by eapply (link_caller _ _ spoke_calls_hub); [|exact L1|].
  - by eapply (link_server _ _ hub_calls_spoke); [apply (fit_makes _ _ spoke_calls_hub)|exact L2|].
Qed.

Lemma session_linked s : rtc (sstep hub_role spoke_role) new_session s -> linked s.
Proof.
  intros Hs. generalize new_linked. induction Hs as [|s1 s2 s3 E _ IH]; [done|]. intros L. by apply IH, (step_linked s1).
Qed.

(** At most this much of a spoke is served at once. *)
Definition within_bounds (e : endpoint) : Prop := serving msgReport (e_jobs e) <= maxRemoteReports /\ serving msgNeed (e_jobs e) <= maxRemoteNeeds.

Lemma serving_app t a b : serving t (a ++ b) = serving t a + serving t b.
Proof. unfold serving. rewrite List.filter_app, length_app. lia. Qed.

Lemma hub_bounded e i o e' i' o' : estep hub_role (e, i, o) (e', i', o') -> within_bounds e -> within_bounds e'.
Proof.
  intros S. inversion S; subst; clear S; unfold within_bounds; ends; try done.
  - match goal with E : ro_verdict _ _ _ = Take |- _ => rename E into Ev end. cbn [ro_verdict hub_role] in Ev. unfold hub_verdict in Ev. rewrite !serving_app.
    assert (forall t, serving t [m] = if of_type t m then 1 else 0) as Hone by (intros t; unfold serving; cbn [List.filter]; by destruct (of_type t m)). rewrite !Hone.
    destruct (of_type msgReport m) eqn:Er, (of_type msgNeed m) eqn:En; unfold of_type in *.
    + apply String.eqb_eq in Er, En. rewrite Er in En. discriminate En.
    + apply String.eqb_eq in Er. rewrite Er in Ev. change (String.eqb msgReport msgHello) with false in Ev. cbn iota in Ev. destruct (Z.ltb_spec maxRemoteReports (serving msgReport (e_jobs e) + 1)); [done|lia].
    + apply String.eqb_eq in En. rewrite En in Ev. change (String.eqb msgNeed msgHello) with false in Ev. cbn iota in Ev. destruct (Z.ltb_spec maxRemoteNeeds (serving msgNeed (e_jobs e) + 1)); [done|lia].
    + lia.
  - match goal with E : e_jobs e = _ |- _ => rewrite E end. change (m :: l2) with ([m] ++ l2). rewrite !serving_app. assert (0 <= serving msgReport [m] /\ 0 <= serving msgNeed [m]) by (unfold serving; lia). lia.
Qed.

(** ** What the session promises *)

Lemma need_types batches ob m : m_T (need batches ob m).1 = msgError \/ m_T (need batches ob m).1 = msgData.
Proof. unfold need. repeat case_match; cbn; auto. Qed.

(** The one call of an id. *)
Lemma sent_inj (X Y : role) x y xy yx m m' : link X Y x y xy yx -> m ∈ e_sent x -> m' ∈ e_sent x -> m_ID m = m_ID m' -> m = m'.
Proof.
  intros L. pose proof (lk_once _ _ _ _ _ _ L) as Hn. revert Hn. generalize (e_sent x). intros l. induction l as [|a l IH]; cbn [map]; [set_solver|].
  intros [Hna Hn]%NoDup_cons. rewrite !elem_of_cons. intros [->|Hm] [->|Hm'] E; [done| | |by apply IH].
  - destruct Hna. rewrite E. apply list_elem_of_fmap. eauto.
  - destruct Hna. rewrite <- E. apply list_elem_of_fmap. eauto.
Qed.

(** Every call made is on the channel, being served or answered, once; one that waits is
    not answered, or its answer is on its way. *)
Definition accounts (x y : endpoint) (xy yx : list wireMsg) : Prop :=
  NoDup (map m_ID (e_sent x)) /\ e_sent x ≡ₚ List.filter is_call (e_served y ++ e_jobs y ++ xy) /\
  forall id, id ∈ w_calls (e_wire x) ->
    (exists m, m ∈ e_jobs y ++ xy /\ is_call m = true /\ m_ID m = id) \/ (exists a, a ∈ yx /\ answers_call (m_T a) = true /\ m_ID a = id).

Lemma link_accounts X Y x y xy yx : link X Y x y xy yx -> accounts x y xy yx.
Proof. intros []. by split_and!. Qed.

(** The answer to a report is the hub's. *)
Lemma report_answered s req a rep reply : linked s -> req ∈ e_sent (s_spoke s) -> m_Report req = Some rep -> (m_ID req, a) ∈ e_got (s_spoke s) ->
  spoke_Report (Ok a) = Ok reply -> exists h h', rp_Report rep h = (Some reply, h').
Proof.
  intros [L _] Hreq Hrep Hgot Hr. destruct (lk_chan _ _ _ _ _ _ L _ _ (or_intror Hgot)) as (req' & a0 & Hreq' & Hid & -> & Hans).
  assert (req' = req) as -> by (by eapply sent_inj). clear Hgot. unfold spoke_Report, call_answer in Hr. cbn [rbind with_id m_T m_Reply] in Hr.
  destruct (String.eqb_spec (m_T a0) msgError) as [|Hne]; [done|]. cbn [rbind] in Hr. cbn [with_id m_T m_Reply] in Hr.
  destruct (m_Reply a0) as [r|] eqn:Er; [|done]. destruct (String.eqb_spec (m_T a0) msgReply) as [Et|]; [|done]. injection Hr as ->.
  cbn [ro_answers hub_role] in Hans. destruct Hans as [[_ [h ->]]|[[_ (b & ob & ->)]|[[_ [[w ->]|[err ->]]]|[e [err ->]%hub_rejects]]]]; try done.
  - unfold remote_report in Er. rewrite Hrep in Er. destruct (checkReport rep); [done|]. destruct (rp_Report rep h) as [[r|] h'] eqn:Eh; [|done]. injection Er as ->. eauto.
  - destruct (need_types b ob req) as [E|E]; rewrite E in Et; done.
Qed.

(** The answer to a batch is the side's. *)
Lemma batch_answered s req a b rs : linked s -> req ∈ e_sent (s_hub s) -> m_Batch req = Some b -> of_type msgApply req = true -> (m_ID req, a) ∈ e_got (s_hub s) ->
  remote_Apply b (Ok a) = Ok rs -> exists sd sd' : side T H, side_Apply urgent b sd = (Ok rs, sd').
Proof.
  intros [_ L] Hreq Hb Hty Hgot Hr. destruct (lk_chan _ _ _ _ _ _ L _ _ (or_intror Hgot)) as (req' & a0 & Hreq' & Hid & -> & Hans).
  assert (req' = req) as -> by (by eapply sent_inj). clear Hgot. unfold remote_Apply, call_answer in Hr. cbn [with_id m_T] in Hr.
  destruct (String.eqb_spec (m_T a0) msgError) as [|Hne]; [done|]. cbn [rbind with_id m_T m_Results] in Hr.
  destruct (String.eqb_spec (m_T a0) msgResults) as [Et|]; [|done]. destruct (_ =? _)%nat; [|done]. injection Hr as <-.
  unfold of_type in Hty. apply String.eqb_eq in Hty. cbn [ro_answers spoke_role] in Hans. unfold spoke_answers, of_type in Hans. rewrite Hty in Hans.
  destruct Hans as [[_ [sd ->]]|[[? _]|[[? _]|[e [err ->]%spoke_rejects]]]]; try done.
  unfold spoke_apply in *. rewrite Hb in *. destruct (side_Apply urgent b sd) as [[rs|e] sd'] eqn:Es; [|done]. eauto.
Qed.

(** C17: over a connection the hub and a spoke answer each other as they would in one
    process. However calls, answers, calls given up and the connection's end fall: a
    report that returns a reply returns the hub's reply to that very report, and a batch
    that returns results the side's results for that very batch; every call made is
    served at most once, and while it waits it or its answer is on the way; the spoke
    takes batches in the order the hub sent them; and the hub never serves more than
    [maxRemoteReports] reports and [maxRemoteNeeds] needs of a spoke at once, whatever
    it is sent. *)
Theorem remote_calls_answered s : rtc (sstep hub_role spoke_role) new_session s ->
  (forall req a rep reply, req ∈ e_sent (s_spoke s) -> m_Report req = Some rep -> (m_ID req, a) ∈ e_got (s_spoke s) ->
     spoke_Report (Ok a) = Ok reply -> exists h h', rp_Report rep h = (Some reply, h')) /\
  (forall req a b rs, req ∈ e_sent (s_hub s) -> m_Batch req = Some b -> of_type msgApply req = true -> (m_ID req, a) ∈ e_got (s_hub s) ->
     remote_Apply b (Ok a) = Ok rs -> exists sd sd' : side T H, side_Apply urgent b sd = (Ok rs, sd')) /\
  accounts (s_spoke s) (s_hub s) (s_up s) (s_down s) /\ accounts (s_hub s) (s_spoke s) (s_down s) (s_up s) /\
  List.filter (of_type msgApply) (e_sent (s_hub s)) = List.filter (of_type msgApply) (e_served (s_spoke s) ++ e_jobs (s_spoke s) ++ s_down s) /\
  (forall e, rtc (fun e e' => exists i o i' o', estep hub_role (e, i, o) (e', i', o')) newEnd e -> within_bounds e).
Proof.
  intros Hs%session_linked. split_and!.
  - intros. by eapply report_answered.
  - intros. by eapply batch_answered.
  - eapply link_accounts, Hs.
  - eapply link_accounts, Hs.
  - destruct Hs as [_ L]. exact (lk_order _ _ _ _ _ _ L).
  - intros e He. assert (within_bounds newEnd) as H0 by done. revert H0. induction He as [|e1 e2 e3 (i & o & i' & o' & E) _ IH]; [done|]. intros Hb. apply IH. by eapply hub_bounded.
Qed.
End session.
