(* ===== verification/RemoteExamples.v ===== *)
(** * The remote sessions on concrete inputs

    A codec of messages, and a hello, a session and content that cross the wire. *)

From S2P Require Import Prelude GoStrings GoText Sha256 Entry Mergers Journal HubState HubProcess HubDispatch HubApi HubExamples SafeFs SideTree SideApply SideFetch SideDriver SideHub Wire RemoteHello Remote RemoteSession.
Local Open Scope string_scope.
Local Open Scope Z_scope.
Local Open Scope list_scope.

(** ** A codec of messages *)

Ltac by_fields := solve [by intros []].

#[export] Instance Held_eq_dec : EqDecision Held.
Proof. solve_decision. Defined.
#[export] Instance Held_countable : Countable Held.
Proof. refine (inj_countable' (fun x => (held_path x, held_rev x, held_entry x)) (fun '(p, r, e) => MkHeld p r e) _); by_fields. Defined.
#[export] Instance RootHello_eq_dec : EqDecision RootHello.
Proof. solve_decision. Defined.
#[export] Instance RootHello_countable : Countable RootHello.
Proof. refine (inj_countable' (fun x => (rh_root x, rh_epoch x, rh_held x)) (fun '(r, e, h) => MkRootHello r e h) _); by_fields. Defined.
#[export] Instance Change_eq_dec : EqDecision Change.
Proof. solve_decision. Defined.
#[export] Instance Change_countable : Countable Change.
Proof. refine (inj_countable' (fun x => (c_path x, c_base x, c_entry x)) (fun '(p, b, e) => MkChange p b e) _); by_fields. Defined.
#[export] Instance Report_eq_dec : EqDecision Report.
Proof. solve_decision. Defined.
#[export] Instance Report_countable : Countable Report.
Proof. refine (inj_countable' (fun x => (r_root x, r_epoch x, r_changes x)) (fun '(r, e, c) => MkReport r e c) _); by_fields. Defined.
#[export] Instance AckStatus_countable : Countable AckStatus.
Proof.
  refine (inj_countable' (fun s => match s with Accepted => 0%nat | Superseded => 1%nat | Deferred => 2%nat | Ignored => 3%nat end)
    (fun n => match n with 0%nat => Accepted | 1%nat => Superseded | 2%nat => Deferred | _ => Ignored end) _); by_fields.
Defined.
#[export] Instance Ack_eq_dec : EqDecision Ack.
Proof. solve_decision. Defined.
#[export] Instance Ack_countable : Countable Ack.
Proof. refine (inj_countable' (fun x => ((a_path x, a_rev x), (a_status x, a_entry x))) (fun '((p, r), (s, e)) => MkAck p r s e) _); by_fields. Defined.
#[export] Instance Reply_eq_dec : EqDecision Reply.
Proof. solve_decision. Defined.
#[export] Instance Reply_countable : Countable Reply.
Proof. refine (inj_countable' (fun x => (reply_epoch x, reply_acks x)) (fun '(e, a) => MkReply e a) _); by_fields. Defined.
#[export] Instance Lane_countable : Countable Lane.
Proof.
  refine (inj_countable' (fun s => match s with LaneAuto => 0%nat | LanePriority => 1%nat | LaneNormal => 2%nat | LaneBulk => 3%nat end)
    (fun n => match n with 0%nat => LaneAuto | 1%nat => LanePriority | 2%nat => LaneNormal | _ => LaneBulk end) _); by_fields.
Defined.
#[export] Instance Op_countable : Countable Op.
Proof. refine (inj_countable' (fun x => (o_path x, o_rev x, o_entry x)) (fun '(p, r, e) => MkOp p r e) _); by_fields. Defined.
#[export] Instance Batch_eq_dec : EqDecision Batch.
Proof. solve_decision. Defined.
#[export] Instance Batch_countable : Countable Batch.
Proof. refine (inj_countable' (fun x => ((b_root x, b_epoch x), (b_lane x, b_ops x))) (fun '((r, e), (l, o)) => MkBatch r e l o) _); by_fields. Defined.
#[export] Instance ResultStatus_countable : Countable ResultStatus.
Proof.
  refine (inj_countable' (fun s => match s with Applied => 0%nat | Changed => 1%nat | Stale => 2%nat | NoSpace => 3%nat | Refused => 4%nat | Failed => 5%nat end)
    (fun n => match n with 0%nat => Applied | 1%nat => Changed | 2%nat => Stale | 3%nat => NoSpace | 4%nat => Refused | _ => Failed end) _); by_fields.
Defined.
#[export] Instance Result_eq_dec : EqDecision Result.
Proof. solve_decision. Defined.
#[export] Instance Result_countable : Countable Result.
Proof. refine (inj_countable' (fun x => ((res_path x, res_rev x), (res_status x, res_reason x))) (fun '((p, r), (s, t)) => MkResult p r s t) _); by_fields. Defined.
#[export] Instance wireGet_eq_dec : EqDecision wireGet.
Proof. solve_decision. Defined.
#[export] Instance wireGet_countable : Countable wireGet.
Proof. refine (inj_countable' (fun x => ((g_Root x, g_Path x), (g_Entry x, g_Offset x))) (fun '((r, p), (e, o)) => MkWireGet r p e o) _); by_fields. Defined.
#[export] Instance wireNeed_eq_dec : EqDecision wireNeed.
Proof. solve_decision. Defined.
#[export] Instance wireNeed_countable : Countable wireNeed.
Proof. refine (inj_countable' (fun x => (n_Batch x, n_Op x, n_Offset x)) (fun '(b, o, f) => MkWireNeed b o f) _); by_fields. Defined.
#[export] Instance Hint_eq_dec : EqDecision Hint.
Proof. solve_decision. Defined.
#[export] Instance Hint_countable : Countable Hint.
Proof. refine (inj_countable' (fun x => (h_Root x, h_Paths x)) (fun '(r, p) => MkHint r p) _); by_fields. Defined.
#[export] Instance wireMsg_eq_dec : EqDecision wireMsg.
Proof. solve_decision. Defined.
#[export] Instance wireMsg_countable : Countable wireMsg.
Proof.
  refine (inj_countable' (fun m =>
      (m_Hello m, ((((m_T m, m_ID m), (m_More m, m_Lease m)), ((m_Welcome m, m_Report m), (m_Reply m, m_Batch m))),
       (((m_Results m, m_Get m), (m_Need m, m_Data m)), ((m_Bulk m, m_Err m), (m_Stale m, m_Hint m))))))
    (fun '(h, ((((t, id), (more, lease)), ((w, rep), (reply, b))), (((rs, g), (n, d)), ((bulk, err), (stale, hint))))) =>
      MkWireMsg t id h more lease w rep reply b rs g n d bulk err stale hint) _); by_fields.
Defined.

#[export] Instance countable_wire : wire_codec.
Proof.
  refine {| enc := fun m => bits (encode m); dec := fun s => decode (unbits s) |}. intros m _. by rewrite unbits_bits, decode_encode.
Defined.

(** ** A hello *)

Definition said : Hello := [MkRootHello "claude" "e" [MkHeld "a" 1 (MkEntry Dir 448 0 0 "" "" []); MkHeld "b" 2 (MkEntry Dir 448 0 0 "" "" [])]; MkRootHello "codex" "e" []].

Definition said_bytes : string := default "" (written (hello_msgs 7 1 (chunkHello said))).

Lemma said_written : written (hello_msgs 7 1 (chunkHello said)) = Some said_bytes.
Proof. vm_compute. reflexivity. Qed.

Lemma said_sound : Forall sound (hello_msgs 7 1 (chunkHello said)).
Proof. repeat constructor. Qed.

Lemma said_bounded : bounded_hello said.
Proof. split; [|done]. repeat constructor; done. Qed.

Lemma hello_crosses_wire_witness :
  awaitHello WireEnded (readMsgs (S (String.length said_bytes)) (take_bytes (String.length said_bytes) said_bytes)).1 [] None 0 = Ok (said, 7, 1) /\
  awaitHello WireEnded (readMsgs (S (String.length said_bytes)) (take_bytes 9 said_bytes)).1 [] None 0 = Err (WireEnded, 0).
Proof.
  assert (NoDup (map rh_root said)) as Hn by (apply (bool_decide_unpack (NoDup (map rh_root said))); vm_compute; exact I). split.
  - destruct (hello_crosses_wire 7 1 said said_bytes (String.length said_bytes) WireEnded ltac:(discriminate) Hn said_bounded said_sound said_written) as [_ H].
    rewrite Nat.leb_refl in H. exact H.
  - destruct (hello_crosses_wire 7 1 said said_bytes 9 WireEnded ltac:(discriminate) Hn said_bounded said_sound said_written) as [_ H].
    assert ((String.length said_bytes <=? 9)%nat = false) as E by (vm_compute; reflexivity). rewrite E in H. exact H.
Defined.

(** ** Content *)

Definition bytes3 : string := "new".
Definition need_file : Op := MkOp "f" 2 (MkEntry File 420 4 7 "h" "" []).
Definition need_batch : pendingBatch := pending_of (MkBatch "data" "e" LaneAuto [need_file]) (Some (fun _ _ => Ok (MkReader bytes3 None))).

Lemma content_crosses_wire_witness :
  let '(a, conn) := need {[5 := need_batch]} NoBulk (need_msg (MkWireNeed 5 need_file 1)) in
  forall late, content_of need_file 1 (Ok a) (from_option Ok (Err late) conn) = Ok (MkReader bytes3 None).
Proof.
  exact (proj1 (content_crosses_wire {[5 := need_batch]} NoBulk 5 need_batch (fun _ _ => Ok (MkReader bytes3 None)) need_file 1 bytes3
    eq_refl eq_refl eq_refl eq_refl (Z.le_0_1) eq_refl eq_refl eq_refl (or_intror (proj1 (Z.leb_le (len bytes3) InlineMax) eq_refl)))).
Defined.

(** ** A session *)

(** A hub that accepts everything, and a side without files. *)
#[export] Instance accepting : reporter (list Report) := {|
  rp_Report := fun rep h => (Some (MkReply (r_epoch rep) (map (fun c => MkAck (c_path c) 1 Accepted (c_entry c)) (r_changes rep))), h ++ [rep])
|}.
#[export] Instance no_files : sideTree unit := {|
  st_Roots := fun _ => []; st_Scan := fun r _ t => (Ok (MkReport r "" [], []), t); st_Acked := fun _ _ t => (None, t); st_settling := fun _ _ => [];
  st_Apply := fun _ t => (Ok [], t)
|}.
Definition no_texts : texts_of := MkTexts (fun _ => "") "" (fun _ => "") (fun _ => plain "").
Definition a_report : Report := MkReport "data" "e" [MkChange "f" 0 (MkEntry Dir 448 0 0 "" "" [])].
Definition a_call : wireMsg := with_id 1 (report_msg a_report).
Definition a_reply : Reply := MkReply "e" [MkAck "f" 1 Accepted (MkEntry Dir 448 0 0 "" "" [])].
Definition an_answer : wireMsg := with_id 1 (reply_msg a_reply).

Definition end_of_session : session :=
  MkSession (MkEnd newWire ∅ [] false [] [a_call] [])
    (MkEnd (MkWire 1 (({[1]} ∪ ∅) ∖ {[1]}) (delete 1 (<[1 := an_answer]> ∅)) false) (({[1]} ∪ ∅) ∖ {[1]}) [] false [a_call] [] [(1, an_answer)]) [] [].

Definition nothing_soon (_ _ : string) : bool := false.

Lemma session_runs : rtc (sstep (hub_role (H := list Report) no_texts) (spoke_role (T := unit) (H := list Report) no_texts nothing_soon 512)) new_session end_of_session.
Proof.
  eapply rtc_l; [apply ss_spoke; eapply es_id; reflexivity|].
  eapply rtc_l; [apply ss_spoke; eapply (es_call _ _ _ _ 1 (report_msg a_report)); [reflexivity|set_solver|reflexivity]|].
  eapply rtc_l; [apply ss_hub; eapply es_take; reflexivity|].
  eapply rtc_l; [apply ss_hub; eapply (es_serve _ _ [] a_call [] _ _ (reply_msg a_reply)); [reflexivity|reflexivity|done| |reflexivity]; left; split; [reflexivity|exists []; reflexivity]|].
  eapply rtc_l; [apply ss_spoke; eapply es_answer; reflexivity|].
  eapply rtc_l; [apply ss_spoke; eapply (es_return _ _ _ _ 1 an_answer); reflexivity|].
  apply rtc_refl.
Qed.

Lemma remote_calls_answered_witness : exists h h' : list Report, rp_Report a_report h = (Some a_reply, h').
Proof.
  destruct (remote_calls_answered (T := unit) (H := list Report) no_texts nothing_soon 512 end_of_session session_runs) as (H & _).
  apply (H a_call an_answer a_report a_reply); [apply list_elem_of_here|reflexivity|apply list_elem_of_here|reflexivity].
Defined.
